(* ===== verification/_CoqProject ===== *)
-Q . S2P
Prelude.v
Bytes.v
Types.v
State.v
StateSpec.v
StateDB.v
History.v
SmtSerde.v
Finality.v
Ckb.v
Eip712.v
SubmitBlock.v
Layer2Supply.v
SubmitBlockProps.v
RollupScript.v
RollupProps.v
RollupChain.v
Locks.v
Settlement.v
ChallengeLock.v
Samples.v
Witnesses.v
SignatureWitnesses.v
NodeUtils.v
NodeState.v
AccountLocks.v
Backends.v
Syscalls.v
Generator.v
GeneratorProps.v
BlockEffect.v
FeeQueue.v
Verifiers.v
Store.v
StoreProps.v
LocalCells.v
BlockSyncServer.v
ChallengeContext.v
Chain.v
ChainUpdater.v
ChainProps.v
BlockRecords.v
SyncL1.v
BlockSyncClient.v
MemBlock.v
WithdrawalCells.v
SubmitCells.v
TxSkeleton.v
Unlock.v
PoolParts.v
Pool.v
PoolProps.v
PoolReorg.v
Psc.v
PscProps.v
Genesis.v
NodeSamples.v
ChainSamples.v
ChainWitnesses.v
NodeWitnesses.v
L1Witnesses.v
ProducerWitnesses.v
PoolWitnesses.v
UnlockWitnesses.v
PoolRunWitnesses.v
