(* ===== verification/Prelude.v ===== *)
(** * Godwoken: a verification development

    Godwoken is an optimistic rollup on Nervos CKB.  Layer-1 scripts guard the
    rollup cell and the cells of deposits, custody, withdrawals, stakes and
    challenges; a node executes layer-2 transactions, builds and stores blocks,
    follows layer 1 and raises or answers challenges.  The development models the
    layer-1 scripts and the parts of the node that decide what the state and the
    chain are.  Paths below are relative to [src/].

    ** How code becomes Rocq

    A Rust function that can fail is a function into [outcome E A]: [Ok], [Err]
    with the error of the code, or [Panic] ([unwrap], [assert!], slice bounds, and
    integer overflow, which the workspaces check).  A function with a mutable
    state is an [ST S E A]: the state is returned on every branch, so what an
    error leaves behind is visible.  Integers are [Z] with the width written at
    each operation ([add_w], [checked_add], [saturating_sub], ...; [Bytes.v]);
    byte strings are lists of bytes; hash maps and columns of the store are
    [gmap]s.  Texts of errors, logs, metrics and timers are dropped.

    ** Files

    - [Prelude.v], [Bytes.v]: outcomes, the state monad, generic lemmas, hint
      databases; machine integers and byte encodings.
    - [Types.v]: gwos/crates/types (records, enums, conversions).
    - [State.v], [StateSpec.v]: the trait [State] with its provided methods
      (gwos/crates/common); the reference state [RefState], the class [StateView]
      (what an implementation promises) and [StateSim] (simulation by it).
    - [StateDB.v], [History.v], [SmtSerde.v]: the journaled state, the history of
      the account tree per block, the encoding of merkle nodes
      (crates/store/src/state, crates/store/src/smt/serde.rs).
    - [Finality.v]: finality on chain and off chain, the blocks a block finalizes.
    - [Ckb.v]: the environment of a script and gw-utils, [KVState].
    - [SubmitBlock.v], [RollupScript.v]: the rollup type script
      (gwos/contracts/state-validator); [SubmitBlockProps.v], [Layer2Supply.v],
      [RollupProps.v], [RollupChain.v], [Settlement.v]: its theorems.
    - [Locks.v], [ChallengeLock.v], [Eip712.v]: the lock scripts, the
      verifications that cancel a challenge, the messages accounts sign.
    - [NodeUtils.v], [NodeState.v], [AccountLocks.v], [Backends.v], [Syscalls.v],
      [Generator.v], [Verifiers.v]: the generator (crates/generator, parsers of
      crates/utils); [GeneratorProps.v], [BlockEffect.v]: its theorems.
    - [FeeQueue.v]: the fee queue of the memory pool (crates/mem-pool/src/fee).
    - [Store.v]: the store of the node (crates/store: chain_store.rs,
      store_transaction.rs, schema.rs, chain_view.rs); [StoreProps.v]: the ledger
      it implements.
    - [ChallengeContext.v]: what the node puts into challenge transactions
      (crates/challenge/src/context.rs).
    - [Chain.v]: the local chain (crates/chain/src/chain.rs); [ChainProps.v]: its
      books; [Genesis.v]: the first block (crates/generator/src/genesis.rs).
    - [LocalCells.v]: unconfirmed cells (crates/utils/src/local_cells.rs);
      [ChainUpdater.v], [SyncL1.v]: reading rollup transactions and following layer 1
      (crates/block-producer: chain_updater.rs, sync_l1.rs); [BlockRecords.v]: what
      the chain does to the records kept per block.
    - [Psc.v]: the loop that produces, submits and confirms blocks
      (crates/block-producer/src/psc.rs); [PscProps.v]: its books and its recovery.
    - [BlockSyncServer.v], [BlockSyncClient.v]: what the producer publishes
      (crates/mem-pool/src/block_sync_server.rs) and what a read-only node makes of
      it (crates/block-producer/src/block_sync_client.rs).
    - [MemBlock.v]: the block in the making (crates/mem-pool/src/mem_block.rs);
      [WithdrawalCells.v]: the account of the finalized custodians
      (crates/mem-pool/src/withdrawal.rs, custodian.rs); [SubmitCells.v]: the
      custodian cells of a submission (crates/block-producer/src/custodian.rs,
      withdrawal.rs); [PoolWitnesses.v]: their concrete runs.
    - [PoolParts.v]: the pool's entries, deposits, account creation and allow lists
      (crates/mem-pool: types.rs, deposit.rs, account_creator.rs; crates/tx-filter);
      [Pool.v]: the memory pool (crates/mem-pool/src/pool.rs); [PoolProps.v]: its
      invariant; [PoolReorg.v]: what it tries again after a fork;
      [PoolRunWitnesses.v]: their concrete runs.
    - [TxSkeleton.v]: layer-1 transactions in the making, their fees and signatures
      (crates/utils/src/transaction_skeleton.rs, fee.rs, wallet.rs); [Unlock.v]: paying
      out finalized withdrawals (crates/block-producer/src/withdrawal.rs,
      withdrawal_unlocker.rs, crates/rpc-client/src/withdrawal.rs);
      [UnlockWitnesses.v]: their concrete runs.
    - [Samples.v], [NodeSamples.v], [ChainSamples.v]: executable instances of the
      parameters and concrete runs; [Witnesses.v], [SignatureWitnesses.v],
      [NodeWitnesses.v], [ChainWitnesses.v], [L1Witnesses.v],
      [ProducerWitnesses.v]: each theorem with hypotheses, applied to a concrete
      input.

    ** What the theorems show

    - The rollup on layer 1.  Every accepted transaction of the type script is a
      step of an abstract chain of blocks ([rollup_refines_chain]), whose
      reachable states satisfy its invariants; an accepted block conserves the
      assets in custody, matches withdrawals and deposits with cells one to one,
      moves the global state by one block, and replaying it moves the CKB supply by
      deposits less withdrawals.  Challenges target unfinalized blocks, cancelling restores the
      state, and the lock scripts pay owners, return custody and cannot be
      fooled about reverted blocks ([Settlement.v]).
    - State.  The journaled state refines the reference state; reverting to a
      snapshot restores it, [finalise] does not change what is read; detaching a
      block undoes attaching it.
    - Execution.  The node can apply the requests the scripts accept, but
      for a withdrawal with the last nonce ([last_nonce_diverges]); an
      applied block has the state its header commits to, and a block that is
      refused has a challenge target the scripts accept; failed and aborted
      transactions have the stated effect; every run of the machine stops; what
      the verifiers let into the pool can be paid for and applied.
    - Chain and store.  The store implements a list of linked blocks with two
      positions ([store_refines_ledger]); a fresh store is the start of a chain
      ([init_genesis_starts_chain]); blocks the node stores keep the books (ledger,
      per-block account history, root of the header), and a layer-1 fork that takes
      a block back restores them ([update_local_keeps_books],
      [revert_undoes_update_local]).
    - Layer 1 and the node.  The node reads from a rollup transaction the deposits
      the type script reads ([node_reads_script_deposits]); the overlay of local
      cells holds exactly the unspent outputs ([local_cells_are_unspent]);
      synchronising with layer 1 confirms the blocks it shows and takes back exactly
      the blocks above a fork ([sync_l1_confirms_known], [sync_revert_restores]).
    - The producer.  Whatever layer 1 answers and in whatever order the tasks run,
      the counters and tasks of the loop match the store, no branch panics (if
      composing and producing do not) and some
      branch is enabled ([psc_loop_keeps_books]); after a failed task a node without
      a block-sync server goes on
      from the last good block ([psc_recovers]).  A read-only node implements the
      messages it gets ([client_refines_ledger]) and those a server sends lead it to
      the producer's chain ([subscriber_catches_up]).
    - Blocks and submissions.  What the memory pool hands out is a consistent record
      of the first items and the state they lead to ([package_mem_block_prefix]).  The
      account that pays withdrawals balances, if it starts in order, whatever is asked of it
      ([withdrawals_conserve_custodians]); the cells a submission spends and makes
      hold the same assets ([submission_conserves_assets]); and enough custodian cells
      pay every withdrawal ([full_query_pays_withdrawals]).
    - The memory pool.  Whatever users push and layer 1 answers, the block in the making
      records what the pool has executed: the shared state is the one its last item
      leads to, and the store holds its transactions with their receipts
      ([pool_keeps_mem_block]).  After a fork the transactions that left the chain
      are tried again, unless their nonces are used up ([reorg_retries_txs]).
    - Paying out.  The withdrawal lock accepts the transactions by which the node gives
      finalized withdrawals to their owners ([unlock_tx_accepted]); no cell is in two
      of them at a time and none is forgotten ([unlocker_tracks_cells]); paying the fee
      ends, and leaves exactly the fee of the signed transaction
      ([filled_tx_pays_fee]).
    - Challenges answered by the node.  What the node signs is what the challenge
      lock checks, where the two agree ([node_signature_answers_challenge]); the
      contexts the node builds to cancel a challenge are refused
      ([built_cancellation_refused]).

    ** Parameters

    Code outside the repository is a parameter, a class whose laws are named
    hypotheses of the theorems that use them: Blake2b and Keccak-256, molecule
    codecs (generated at build time), the sparse merkle tree ([SmtC], [SmtRoot],
    [SmtProof]) and complete binary merkle trees, the iterators of RocksDB
    ([RocksIter]), the order of a [HashMap] ([MapIter]), CKB-VM ([Machine]) and
    its loaders, [substrate_bn], signature recovery, the ABI and RLP encoders, the
    occupied capacity of a cell.  Collision freedom of the hashes is assumed only
    of what a run hashes: the blocks of the chain ([known], [ledger_ok],
    [fresh_block]), the contents put into a state ([own_script], [own_data]), the keys
    of the accounts and tokens a replay touches ([block_hashed],
    [withdrawals_hashed], [holders_ok]), the messages accounts sign, and the locks of
    the cells a transaction spends ([locks_apart]); each theorem states it.  That
    equal roots have equal trees is the law of the merkle trees ([SmtCommits],
    [CbmtLaws]).

    ** Fuel

    Loops that are not structural carry fuel; the theorems say how much is enough,
    or hold for every fuel that gives a result, where pages of an indexer are read.  The upper-bound search over block numbers halves a
    64-bit interval ([UPPER_BOUND_FUEL] = 65).  Queries over cells run over the
    cells there are.  The virtual machine runs instruction by instruction,
    and each costs at least one cycle ([instruction_costs]), so [vm_fuel] is
    [max_cycles + 2].  A fetch from the fee queue
    takes each entry at most once.  Rewinding bad blocks and reverted roots takes
    one step per block; the theorems about valid blocks hold for any fuel since
    their loops make no step.
    Taking blocks back on a fork takes one step per block ([revert_to]); the search
    for the consumer of a cell looks at 100 blocks, as the code does.
    The fuel of [query_loop] and [mergeable_loop] is the number of pages of the
    indexer; the theorems hold for every fuel that gives a result.  [change_fuel] is
    proved enough for [split_change].  [payment_loop] and [fee_loop] end when the
    fuel is above the number of pages and of cells the wallet offers
    ([filled_tx_pays_fee]).
    The walks of [reorg_candidates] have the distance of the tips and the height of the
    lower one as their fuel, which [reorg_retries_txs] shows to be enough.

    ** Not modelled

    Generated molecule code, the C contracts (gwos/c) and the EVM backend
    (gwos-evm); network, RPC and command line programs; the RocksDB binding and
    migrations; elliptic curve arithmetic; tests.  They are input and output, other
    languages, or libraries.
    Next: the assembly of blocks (crates/block-producer/src/produce_block.rs) and of
    submission transactions, and rewinding bad blocks. *)

From Stdlib Require Import ZArith Lia Strings.Byte.
From stdpp Require Import prelude list gmap sorting.

Local Open Scope Z_scope.

(** Hint databases of the development: [gw] for proof search, [gw_arith] for
    the success conditions of checked arithmetic, [gw_len] for lengths. *)
Create HintDb gw.
Create Rewrite HintDb gw_arith.
Create Rewrite HintDb gw_len.

(** ** Outcomes

    Every Rust function of the modelled code returns a [Result] or a plain
    value, and may also panic: slice indexing out of range, [unwrap] on [None],
    [assert!], and (all three workspaces set [overflow-checks = true]) integer
    overflow.  [outcome E A] keeps the three cases apart. *)
Inductive outcome (E A : Type) : Type :=
| Ok (a : A)
| Err (e : E)
| Panic.
Arguments Ok {E A} _.
Arguments Err {E A} _.
Arguments Panic {E A}.

#[export] Instance outcome_ret E : MRet (outcome E) := λ A a, Ok a.
#[export] Instance outcome_bind E : MBind (outcome E) := λ A B f m,
  match m with
  | Ok a => f a
  | Err e => Err e
  | Panic => Panic
  end.

#[export] Instance outcome_eq_dec E A `{EqDecision E, EqDecision A} :
  EqDecision (outcome E A).
Proof. solve_decision. Defined.

#[export] Instance Ok_inj E A : Inj (=) (=) (@Ok E A).
Proof. by intros a b [= ->]. Qed.

(** [opt.ok_or(e)?] *)
Definition ok_or {E A} (e : E) (o : option A) : outcome E A :=
  match o with Some a => Ok a | None => Err e end.

(** [opt.unwrap()], [opt.expect(..)] *)
Definition unwrap {E A} (o : option A) : outcome E A :=
  match o with Some a => Ok a | None => Panic end.

(** [res.map_err(f)] *)
Definition map_err {E F A} (f : E → F) (m : outcome E A) : outcome F A :=
  match m with Ok a => Ok a | Err e => Err (f e) | Panic => Panic end.

(** [if b { return Err(e) }] *)
Definition reject_if {E} (b : bool) (e : E) : outcome E unit :=
  if b then Err e else Ok tt.

(** [assert!(b)] *)
Definition assert_that {E} (b : bool) : outcome E unit :=
  if b then Ok tt else Panic.

(** [iter.collect::<Result<Vec<_>, _>>()]: the first failure wins. *)
Fixpoint collect {E A} (l : list (outcome E A)) : outcome E (list A) :=
  match l with
  | [] => Ok []
  | m :: l => x ← m; xs ← collect l; Ok (x :: xs)
  end.

(** A [for] loop threading an accumulator through a fallible body. *)
Fixpoint foldM {E A B} (f : A → B → outcome E A) (a : A) (l : list B) : outcome E A :=
  match l with
  | [] => Ok a
  | b :: l => a' ← f a b; foldM f a' l
  end.

Definition is_ok {E A} (m : outcome E A) : bool :=
  match m with Ok _ => true | _ => false end.

(** ** Stateful operations

    A method on [&mut self] that returns a [Result] may have changed the state
    before it fails, so the state is returned in every case. *)
Definition ST (S E A : Type) : Type := S → outcome E A * S.

#[export] Instance ST_ret S E : MRet (ST S E) := λ A a s, (Ok a, s).
#[export] Instance ST_bind S E : MBind (ST S E) := λ A B f m s,
  match m s with
  | (Ok a, s') => f a s'
  | (Err e, s') => (Err e, s')
  | (Panic, s') => (Panic, s')
  end.

(** A pure result used inside a stateful method. *)
Definition lift {S E A} (m : outcome E A) : ST S E A := λ s, (m, s).

(** [self.op().map_err(f)] for a stateful operation. *)
Definition st_map_err {S E F A} (f : E → F) (m : ST S E A) : ST S F A :=
  λ s, let (r, s') := m s in (map_err f r, s').

(** A plain change of the state, and a read of it. *)
Definition modify {S E} (f : S → S) : ST S E unit := λ s, (Ok tt, f s).
Definition gets {S E A} (f : S → A) : ST S E A := λ s, (Ok (f s), s).

(** A [for] loop whose body changes the state. *)
Fixpoint st_for {S E A} (l : list A) (f : A → ST S E unit) : ST S E unit :=
  match l with
  | [] => mret tt
  | a :: l => f a ;; st_for l f
  end.

(** ** Inversion of successful runs *)
Section Inversion.
Context {S E A B : Type}.

Lemma bind_Ok (m : outcome E A) (f : A → outcome E B) b :
  (m ≫= f) = Ok b ↔ ∃ a, m = Ok a ∧ f a = Ok b.
Proof. destruct m; cbn; naive_solver. Qed.

Lemma st_bind_Ok (m : ST S E A) (f : A → ST S E B) s b s' :
  (m ≫= f) s = (Ok b, s') ↔ ∃ a s1, m s = (Ok a, s1) ∧ f a s1 = (Ok b, s').
Proof. unfold mbind, ST_bind. destruct (m s) as [[] ?]; naive_solver. Qed.

Lemma st_bind_Err (m : ST S E A) (f : A → ST S E B) s e s' :
  (m ≫= f) s = (Err e, s') ↔
  m s = (Err e, s') ∨ ∃ a s1, m s = (Ok a, s1) ∧ f a s1 = (Err e, s').
Proof. unfold mbind, ST_bind. destruct (m s) as [[] ?]; naive_solver. Qed.

Lemma ok_or_Ok (e : E) (o : option A) a : ok_or e o = Ok a ↔ o = Some a.
Proof. destruct o; cbn; naive_solver. Qed.

Lemma unwrap_Ok (o : option A) (a : A) : unwrap (E:=E) o = Ok a ↔ o = Some a.
Proof. destruct o; cbn; naive_solver. Qed.

Lemma reject_if_Ok b (e : E) u : reject_if b e = Ok u ↔ b = false.
Proof. destruct b, u; cbn; naive_solver. Qed.

Lemma assert_that_Ok b u : assert_that (E:=E) b = Ok u ↔ b = true.
Proof. destruct b, u; cbn; naive_solver. Qed.

Lemma lift_Ok (m : outcome E A) (s : S) a s' :
  lift m s = (Ok a, s') ↔ m = Ok a ∧ s = s'.
Proof. unfold lift. naive_solver. Qed.

Lemma ret_Ok (a a' : A) (s s' : S) :
  (mret a : ST S E A) s = (Ok a', s') ↔ a = a' ∧ s = s'.
Proof. unfold mret, ST_ret. naive_solver. Qed.
End Inversion.

(** ** Running a step whose result is known *)
Section Run.
Context {S E A B : Type}.

Lemma st_bind_run (m : ST S E A) (f : A → ST S E B) s a s1 :
  m s = (Ok a, s1) → (m ≫= f) s = f a s1.
Proof. intros Hm. unfold mbind, ST_bind. by rewrite Hm. Qed.

Lemma st_bind_err (m : ST S E A) (f : A → ST S E B) s e s1 :
  m s = (Err e, s1) → (m ≫= f) s = (Err e, s1).
Proof. intros Hm. unfold mbind, ST_bind. by rewrite Hm. Qed.

Lemma st_lift_run (m : outcome E A) (f : A → ST S E B) s a :
  m = Ok a → (lift m ≫= f) s = f a s.
Proof. intros ->. done. Qed.

Lemma st_lift_err (m : outcome E A) (f : A → ST S E B) s e :
  m = Err e → (lift m ≫= f) s = (Err e, s).
Proof. intros ->. done. Qed.
End Run.

Lemma map_err_Ok {E F A} (f : E → F) (m : outcome E A) a :
  map_err f m = Ok a ↔ m = Ok a.
Proof. destruct m; cbn; naive_solver. Qed.

Lemma st_map_err_Ok {S E F A} (f : E → F) (m : ST S E A) s a s' :
  st_map_err f m s = (Ok a, s') ↔ m s = (Ok a, s').
Proof. unfold st_map_err. destruct (m s) as [[] ?]; cbn; naive_solver. Qed.

(** [inv_ok] turns a hypothesis that says a run succeeded into one hypothesis
    per step of that run. *)
Ltac inv_ok_step :=
  match goal with
  | u : unit |- _ => destruct u
  | H : (_ ≫= _) = Ok _ |- _ => apply bind_Ok in H; destruct H as (?&?&?)
  | H : (_ ≫= _) _ = (Ok _, _) |- _ => apply st_bind_Ok in H; destruct H as (?&?&?&?)
  | H : ok_or _ _ = Ok _ |- _ => apply ok_or_Ok in H
  | H : unwrap _ = Ok _ |- _ => apply unwrap_Ok in H
  | H : reject_if _ _ = Ok _ |- _ => apply reject_if_Ok in H
  | H : assert_that _ = Ok _ |- _ => apply assert_that_Ok in H
  | H : lift _ _ = (Ok _, _) |- _ => apply lift_Ok in H; destruct H as [? ?]
  | H : map_err _ _ = Ok _ |- _ => apply map_err_Ok in H
  | H : st_map_err _ _ _ = (Ok _, _) |- _ => apply st_map_err_Ok in H
  | H : mret _ _ = (Ok _, _) |- _ => apply ret_Ok in H; destruct H as [? ?]
  | H : Ok _ = Ok _ |- _ => injection H as H
  | H : Err _ = Ok _ |- _ => discriminate H
  | H : Panic = Ok _ |- _ => discriminate H
  | H : (Ok _, _) = (Ok _, _) |- _ => injection H as ? ?
  | H : (Err _, _) = (Ok _, _) |- _ => discriminate H
  | H : (Panic, _) = (Ok _, _) |- _ => discriminate H
  end.
Ltac inv_ok := repeat (inv_ok_step; subst; cbn beta in *).

(** [bool_inv] turns the boolean conditions a successful run leaves behind into
    propositions. *)
Ltac bool_inv_step :=
  match goal with
  | Hb : _ && _ = true |- _ => apply andb_true_iff in Hb; destruct Hb
  | Hb : _ || _ = false |- _ => apply orb_false_iff in Hb; destruct Hb
  | Hb : negb _ = false |- _ => apply negb_false_iff in Hb
  | Hb : negb _ = true |- _ => apply negb_true_iff in Hb
  | Hb : bool_decide _ = true |- _ => apply bool_decide_eq_true in Hb
  | Hb : bool_decide _ = false |- _ => apply bool_decide_eq_false in Hb
  | Hb : (_ =? _) = true |- _ => apply Z.eqb_eq in Hb
  | Hb : (_ =? _) = false |- _ => apply Z.eqb_neq in Hb
  | Hb : (_ <? _) = true |- _ => apply Z.ltb_lt in Hb
  | Hb : (_ <? _) = false |- _ => apply Z.ltb_ge in Hb
  | Hb : (_ <=? _) = true |- _ => apply Z.leb_le in Hb
  | Hb : (_ <=? _) = false |- _ => apply Z.leb_gt in Hb
  | Hb : (_ =? _)%nat = true |- _ => apply Nat.eqb_eq in Hb
  | Hb : (_ =? _)%nat = false |- _ => apply Nat.eqb_neq in Hb
  | Hb : (_ <? _)%nat = false |- _ => apply Nat.ltb_ge in Hb
  | Hb : (_ <=? _)%nat = false |- _ => apply Nat.leb_gt in Hb
  end.
Ltac bool_inv := repeat bool_inv_step.

Lemma foldM_app {E A B} (f : A → B → outcome E A) a l1 l2 :
  foldM f a (l1 ++ l2) = foldM f a l1 ≫= λ a', foldM f a' l2.
Proof.
  revert a. induction l1 as [|b l1 IH]; intros a; [done|]. cbn.
  destruct (f a b); cbn; [apply IH|done|done].
Qed.


(** ** The errors an operation can return *)
Definition errs {S E A} (P : E → Prop) (m : ST S E A) : Prop :=
  ∀ s e s', m s = (Err e, s') → P e.

Section Errs.
Context {S E : Type} (P : E → Prop).

Lemma errs_bind {A B} (m : ST S E A) (f : A → ST S E B) :
  errs P m → (∀ a, errs P (f a)) → errs P (m ≫= f).
Proof. intros Hm Hf s e s' [?|(a & s1 & _ & ?)]%st_bind_Err; [by eapply Hm|by eapply Hf]. Qed.
Lemma errs_ret {A} (a : A) : errs P (mret a : ST S E A).
Proof. by intros s e s'. Qed.
Lemma errs_modify (f : S → S) : errs P (modify f).
Proof. by intros s e s'. Qed.
Lemma errs_gets {A} (f : S → A) : errs P (gets f).
Proof. by intros s e s'. Qed.
Lemma errs_if {A} (b : bool) (m n : ST S E A) : errs P m → errs P n → errs P (if b then m else n).
Proof. by destruct b. Qed.
Lemma errs_map_err {F A} (f : F → E) (m : ST S F A) : (∀ e, P (f e)) → errs P (st_map_err f m).
Proof.
  intros Hf s e s'. unfold st_map_err. destruct (m s) as [[a|e1|] s1]; cbn; [done| |done].
  intros [= <- _]. apply Hf.
Qed.
Lemma errs_ok_or {A} e (o : option A) : P e → errs (S:=S) P (lift (ok_or e o)).
Proof. intros He s e' s'. destruct o; unfold lift; cbn; congruence. Qed.
Lemma errs_unwrap {A} (o : option A) : errs (S:=S) P (lift (unwrap o)).
Proof. intros s e' s'. destruct o; unfold lift; cbn; congruence. Qed.
Lemma errs_reject b e : P e → errs (S:=S) P (lift (reject_if b e)).
Proof. intros He s e' s'. destruct b; unfold lift; cbn; congruence. Qed.
Lemma errs_assert b : errs (S:=S) P (lift (assert_that b)).
Proof. intros s e' s'. destruct b; unfold lift; cbn; congruence. Qed.
Lemma errs_for {A} (l : list A) (f : A → ST S E unit) :
  (∀ a, errs P (f a)) → errs P (st_for l f).
Proof. intros Hf. induction l; cbn; [apply errs_ret|]. by apply errs_bind. Qed.
End Errs.

(** [solve_errs] proves that every error of an operation satisfies a predicate,
    following the operation's steps. *)
Ltac solve_errs :=
  repeat first
    [ progress cbv zeta
    | apply errs_bind; [|intros]
    | apply errs_if
    | apply errs_ret | apply errs_modify | apply errs_gets | apply errs_unwrap
    | apply errs_assert
    | apply errs_map_err; intros; done
    | apply errs_ok_or; done
    | apply errs_reject; done
    | match goal with |- errs _ (match ?x with _ => _ end) => destruct x end ].

(** ** Bounded loops

    [run_pos step n s]: at most [n] steps from [s], until a result comes out.  The
    bound is a binary number, so that a large one costs nothing when the loop ends
    early. *)
Section Loops.
Context {T R : Type} (step : T → T + R).
Fixpoint run_pos (n : positive) (s : T) : T + R :=
  match n with
  | xH => step s
  | xO n => match run_pos n s with inl s => run_pos n s | inr r => inr r end
  | xI n =>
      match step s with
      | inl s => match run_pos n s with inl s => run_pos n s | inr r => inr r end
      | inr r => inr r
      end
  end.
Fixpoint run_nat (n : nat) (s : T) : T + R :=
  match n with
  | O => inl s
  | S n => match step s with inl s => run_nat n s | inr r => inr r end
  end.
Lemma run_nat_add n m s :
  run_nat (n + m) s = match run_nat n s with inl s => run_nat m s | inr r => inr r end.
Proof. revert s. induction n as [|n IH]; intros s; cbn; [done|]. by destruct (step s). Qed.
Lemma run_pos_nat n s : run_pos n s = run_nat (Pos.to_nat n) s.
Proof.
  revert s. induction n as [n IH|n IH|]; intros s; cbn [run_pos].
  - replace (Pos.to_nat n~1) with (S (Pos.to_nat n + Pos.to_nat n))%nat by lia.
    cbn [run_nat]. destruct (step s) as [s'|]; [|done]. rewrite run_nat_add, <- IH.
    destruct (run_pos n s'); [apply IH|done].
  - replace (Pos.to_nat n~0) with (Pos.to_nat n + Pos.to_nat n)%nat by lia.
    rewrite run_nat_add, <- IH. destruct (run_pos n s); [apply IH|done].
  - change (Pos.to_nat 1) with 1%nat. cbn. by destruct (step s).
Qed.
(** What every step keeps, the loop keeps. *)
Lemma run_pos_inv (P : T → Prop) (Q : R → Prop) n s :
  (∀ s, P s → match step s with inl s' => P s' | inr r => Q r end) → P s →
  match run_pos n s with inl s' => P s' | inr r => Q r end.
Proof.
  intros Hstep. rewrite run_pos_nat. generalize (Pos.to_nat n). intros k. revert s.
  induction k as [|k IH]; intros s Hs; cbn; [done|].
  specialize (Hstep s Hs). destruct (step s) as [s'|r]; [by apply IH|done].
Qed.
(** A loop whose steps lower a measure comes to a result, the same for every bound
    above the measure.  [I] holds of the states it goes through. *)
Lemma run_pos_ends (I : T → Prop) (f : T → Z) s :
  (∀ s s', I s → step s = inl s' → I s' ∧ 0 ≤ f s' < f s) → I s →
  ∃ r, ∀ n, f s < Z.pos n → run_pos n s = inr r.
Proof.
  intros Hf HI.
  assert (Hnat : ∀ k s, I s → f s ≤ Z.of_nat k → ∃ r, ∀ n, (k < n)%nat → run_nat n s = inr r).
  { induction k as [|k IH]; intros s0 HI0 Hk; destruct (step s0) as [s1|r] eqn:E.
    2, 4: exists r; intros [|n] Hn; [lia|]; cbn; by rewrite E.
    - destruct (Hf _ _ HI0 E) as [_ ?]. lia.
    - destruct (Hf _ _ HI0 E) as [HI1 ?]. destruct (IH s1 HI1 ltac:(lia)) as [r Hr]. exists r.
      intros [|n] Hn; [lia|]. cbn. rewrite E. apply Hr. lia. }
  destruct (Hnat (Z.to_nat (f s)) s HI ltac:(lia)) as [r Hr]. exists r. intros n Hn.
  rewrite run_pos_nat. apply Hr. lia.
Qed.
End Loops.
