(* ===== verification/Bytes.v ===== *)
(** * Machine integers and byte strings

    Rust's fixed-width integers are [Z] with the width written out at every
    operation that depends on it; [u8] data is [list byte].  The file also has
    the little- and big-endian encodings the code uses ([to_le_bytes],
    [from_le_bytes], [to_be_bytes], [from_be_bytes]) with their round trips, and
    the lexicographic order of byte strings ([Ord] on [&[u8]], the key order of
    the store). *)
From Stdlib Require Import ZArith Lia Strings.Byte.
From stdpp Require Import prelude list gmap.
From S2P Require Import Prelude.
Local Open Scope Z_scope.

(** ** Integers of width [w] *)
Definition in_width (w z : Z) : Prop := 0 ≤ z < 2 ^ w.
#[export] Instance in_width_dec w z : Decision (in_width w z).
Proof. unfold in_width. apply _. Defined.

Abbreviation u8 := (in_width 8).
Abbreviation u32 := (in_width 32).
Abbreviation u64 := (in_width 64).
Abbreviation u128 := (in_width 128).
Abbreviation u256 := (in_width 256).

Definition u64_max : Z := 2 ^ 64 - 1.
Definition u32_max : Z := 2 ^ 32 - 1.

Definition checked_add (w a b : Z) : option Z :=
  if a + b <? 2 ^ w then Some (a + b) else None.
Definition checked_sub (a b : Z) : option Z :=
  if b <=? a then Some (a - b) else None.
Definition checked_mul (w a b : Z) : option Z :=
  if a * b <? 2 ^ w then Some (a * b) else None.
Definition saturating_add (w a b : Z) : Z := Z.min (a + b) (2 ^ w - 1).
Definition saturating_sub (a b : Z) : Z := Z.max 0 (a - b).
Definition saturating_mul (w a b : Z) : Z := Z.min (a * b) (2 ^ w - 1).

(** The plain operators, which panic on overflow. *)
Definition add_w {E} (w a b : Z) : outcome E Z := unwrap (checked_add w a b).
Definition sub_w {E} (a b : Z) : outcome E Z := unwrap (checked_sub a b).

Section Arith.
Context (w a b : Z).

Lemma checked_add_Some c : checked_add w a b = Some c ↔ c = a + b ∧ a + b < 2 ^ w.
Proof. unfold checked_add. case_match; naive_solver lia. Qed.
Lemma checked_sub_Some c : checked_sub a b = Some c ↔ c = a - b ∧ b ≤ a.
Proof. unfold checked_sub. case_match; naive_solver lia. Qed.
Lemma checked_mul_Some c : checked_mul w a b = Some c ↔ c = a * b ∧ a * b < 2 ^ w.
Proof. unfold checked_mul. case_match; naive_solver lia. Qed.
Lemma checked_add_None : checked_add w a b = None ↔ 2 ^ w ≤ a + b.
Proof. unfold checked_add. case_match; naive_solver lia. Qed.
Lemma checked_sub_None : checked_sub a b = None ↔ a < b.
Proof. unfold checked_sub. case_match; naive_solver lia. Qed.
End Arith.

#[export] Hint Rewrite checked_add_Some checked_sub_Some checked_mul_Some : gw_arith.

(** ** Bytes *)
Definition Z_of_byte (b : byte) : Z := Z.of_N (Byte.to_N b).
Definition byte_of_Z (z : Z) : byte :=
  match Byte.of_N (Z.to_N (z mod 256)) with Some b => b | None => x00 end.

Lemma Z_of_byte_range b : 0 ≤ Z_of_byte b < 256.
Proof. unfold Z_of_byte. pose proof (Byte.to_N_bounded b). lia. Qed.

Lemma byte_of_Z_of_byte b : byte_of_Z (Z_of_byte b) = b.
Proof.
  unfold byte_of_Z. rewrite Z.mod_small by apply Z_of_byte_range.
  unfold Z_of_byte. by rewrite N2Z.id, Byte.of_to_N.
Qed.

Lemma Z_of_byte_of_Z z : Z_of_byte (byte_of_Z z) = z mod 256.
Proof.
  unfold byte_of_Z. pose proof (Z.mod_pos_bound z 256 ltac:(lia)).
  destruct (Byte.of_N _) as [b|] eqn:E.
  - apply Byte.to_of_N in E. unfold Z_of_byte. rewrite E. lia.
  - apply Byte.of_N_None_iff in E. lia.
Qed.

Lemma Z_of_byte_inj a b : Z_of_byte a = Z_of_byte b → a = b.
Proof. intros H. by rewrite <- (byte_of_Z_of_byte a), H, byte_of_Z_of_byte. Qed.

#[export] Instance byte_eq_dec : EqDecision byte.
Proof. intros x y. exact (Byte.byte_eq_dec x y). Defined.
#[export] Program Instance byte_countable : Countable byte :=
  inj_countable Byte.to_N Byte.of_N _.
Next Obligation. intros b. apply Byte.of_to_N. Qed.
#[export] Instance byte_inhabited : Inhabited byte := populate x00.

Abbreviation bytes := (list byte).

Fixpoint le_bytes (n : nat) (z : Z) : bytes :=
  match n with
  | O => []
  | S n => byte_of_Z z :: le_bytes n (z / 256)
  end.
Fixpoint le_val (bs : bytes) : Z :=
  match bs with
  | [] => 0
  | b :: bs => Z_of_byte b + 256 * le_val bs
  end.
Definition be_bytes (n : nat) (z : Z) : bytes := reverse (le_bytes n z).
Definition be_val (bs : bytes) : Z := le_val (reverse bs).

(** Powers of 256 in the form [lia] can use. *)
Lemma pow256_S (n : nat) : 2 ^ (8 * Z.of_nat (S n)) = 256 * 2 ^ (8 * Z.of_nat n).
Proof.
  replace (8 * Z.of_nat (S n)) with (8 + 8 * Z.of_nat n) by lia.
  rewrite Z.pow_add_r by lia. done.
Qed.
Lemma pow256_pos (n : nat) : 0 < 2 ^ (8 * Z.of_nat n).
Proof. apply Z.pow_pos_nonneg; lia. Qed.

Lemma le_bytes_length n z : length (le_bytes n z) = n.
Proof. revert z. induction n; intros z; cbn; [done|by rewrite IHn]. Qed.

Lemma le_val_range bs : 0 ≤ le_val bs < 2 ^ (8 * Z.of_nat (length bs)).
Proof.
  induction bs as [|b bs IH]; [cbn; lia|].
  cbn [le_val length]. rewrite pow256_S. pose proof (Z_of_byte_range b). lia.
Qed.

Lemma le_val_bytes n z : le_val (le_bytes n z) = z mod 2 ^ (8 * Z.of_nat n).
Proof.
  revert z. induction n as [|n IH]; intros z; [cbn; by rewrite Z.mod_1_r|].
  cbn [le_bytes le_val]. rewrite Z_of_byte_of_Z, IH, pow256_S.
  pose proof (pow256_pos n). rewrite Z.rem_mul_r by lia. lia.
Qed.

Lemma le_val_bytes_small n z :
  0 ≤ z < 2 ^ (8 * Z.of_nat n) → le_val (le_bytes n z) = z.
Proof. intros. rewrite le_val_bytes. by apply Z.mod_small. Qed.

Lemma le_bytes_val bs : le_bytes (length bs) (le_val bs) = bs.
Proof.
  induction bs as [|b bs IH]; [done|]. cbn [le_bytes le_val length].
  pose proof (Z_of_byte_range b). f_equal.
  - apply Z_of_byte_inj. rewrite Z_of_byte_of_Z.
    rewrite (Z.mul_comm 256), Z.mod_add by lia. by apply Z.mod_small.
  - rewrite Z.add_comm, Z.mul_comm, Z.div_add_l by lia.
    rewrite (Z.div_small (Z_of_byte b)) by lia. by rewrite Z.add_0_r.
Qed.

Lemma le_val_inj bs cs : length bs = length cs → le_val bs = le_val cs → bs = cs.
Proof. intros Hl Hv. by rewrite <- (le_bytes_val bs), <- (le_bytes_val cs), Hl, Hv. Qed.

Lemma le_bytes_inj n a b :
  0 ≤ a < 2 ^ (8 * Z.of_nat n) → 0 ≤ b < 2 ^ (8 * Z.of_nat n) →
  le_bytes n a = le_bytes n b → a = b.
Proof.
  intros Ha Hb H. rewrite <- (le_val_bytes_small n a), <- (le_val_bytes_small n b) by done.
  by rewrite H.
Qed.

Lemma le_val_app bs cs :
  le_val (bs ++ cs) = le_val bs + 2 ^ (8 * Z.of_nat (length bs)) * le_val cs.
Proof.
  induction bs as [|b bs IH]; cbn [app le_val length]; [lia|].
  rewrite IH, pow256_S. ring.
Qed.

Lemma be_bytes_length n z : length (be_bytes n z) = n.
Proof. unfold be_bytes. by rewrite length_reverse, le_bytes_length. Qed.

Lemma be_val_bytes n z : be_val (be_bytes n z) = z mod 2 ^ (8 * Z.of_nat n).
Proof. unfold be_val, be_bytes. by rewrite reverse_involutive, le_val_bytes. Qed.

Lemma be_val_bytes_small n z :
  0 ≤ z < 2 ^ (8 * Z.of_nat n) → be_val (be_bytes n z) = z.
Proof. intros. rewrite be_val_bytes. by apply Z.mod_small. Qed.

Lemma be_bytes_val bs : be_bytes (length bs) (be_val bs) = bs.
Proof.
  unfold be_val, be_bytes. rewrite <- (length_reverse bs), le_bytes_val.
  apply reverse_involutive.
Qed.

Lemma be_val_range bs : 0 ≤ be_val bs < 2 ^ (8 * Z.of_nat (length bs)).
Proof. unfold be_val. rewrite <- length_reverse. apply le_val_range. Qed.

(** ** Sub-slices: [slice[a..b]], which panics out of range *)
Definition sub_bytes (a n : nat) (bs : bytes) : bytes := take n (drop a bs).

Definition slice {E} (a b : nat) (bs : bytes) : outcome E bytes :=
  if bool_decide (a ≤ b ∧ b ≤ length bs)%nat then Ok (sub_bytes a (b - a) bs) else Panic.

Lemma sub_bytes_app_l n (bs cs : bytes) :
  length bs = n → sub_bytes 0 n (bs ++ cs) = bs.
Proof. intros <-. unfold sub_bytes. rewrite drop_0. apply take_app_length. Qed.

Lemma sub_bytes_app_r a n (bs cs : bytes) :
  (length bs ≤ a)%nat → sub_bytes a n (bs ++ cs) = sub_bytes (a - length bs) n cs.
Proof. intros. unfold sub_bytes. by rewrite drop_app_ge. Qed.

Lemma sub_bytes_all n (bs : bytes) : length bs = n → sub_bytes 0 n bs = bs.
Proof. intros <-. unfold sub_bytes. by rewrite drop_0, firstn_all. Qed.

Definition zeros (n : nat) : bytes := replicate n x00.

Lemma le_val_zeros n : le_val (zeros n) = 0.
Proof. induction n as [|n IH]; [done|]. unfold zeros in *. cbn [replicate le_val]. by rewrite IH. Qed.

(** ** Lexicographic order of byte strings *)
Fixpoint bytes_compare (a b : bytes) : comparison :=
  match a, b with
  | [], [] => Eq
  | [], _ :: _ => Lt
  | _ :: _, [] => Gt
  | x :: a, y :: b =>
      match Z.compare (Z_of_byte x) (Z_of_byte y) with
      | Eq => bytes_compare a b
      | c => c
      end
  end.

Lemma bytes_compare_eq a b : bytes_compare a b = Eq ↔ a = b.
Proof.
  revert b. induction a as [|x a IH]; intros [|y b]; cbn; try naive_solver.
  destruct (Z.compare_spec (Z_of_byte x) (Z_of_byte y)) as [E|E|E].
  - apply Z_of_byte_inj in E as ->. rewrite IH. naive_solver.
  - split; [done|]. intros [= -> ->]. lia.
  - split; [done|]. intros [= -> ->]. lia.
Qed.

Lemma bytes_compare_refl a : bytes_compare a a = Eq.
Proof. by apply bytes_compare_eq. Qed.

Lemma bytes_compare_antisym a b : bytes_compare b a = CompOpp (bytes_compare a b).
Proof.
  revert b. induction a as [|x a IH]; intros [|y b]; cbn; try done.
  rewrite (Z.compare_antisym (Z_of_byte x)). rewrite IH. by destruct (Z.compare _ _).
Qed.

(** The common prefix of two keys does not matter. *)
Lemma bytes_compare_app p a b : bytes_compare (p ++ a) (p ++ b) = bytes_compare a b.
Proof. induction p as [|x p IH]; [done|]. cbn. by rewrite Z.compare_refl. Qed.

(** Keys of equal length that differ in the prefix are ordered by it. *)
Lemma bytes_compare_app_ne p q a b :
  length p = length q → p ≠ q → bytes_compare (p ++ a) (q ++ b) = bytes_compare p q.
Proof.
  revert q. induction p as [|x p IH]; intros [|y q]; cbn; try done.
  intros [= Hl] Hne.
  destruct (Z.compare_spec (Z_of_byte x) (Z_of_byte y)) as [E|E|E]; try done.
  apply Z_of_byte_inj in E as ->. apply IH; [done|naive_solver].
Qed.

(** Big-endian numbers of equal width are ordered like the numbers they encode. *)
Lemma le_val_snoc bs b :
  le_val (bs ++ [b]) = le_val bs + 2 ^ (8 * Z.of_nat (length bs)) * Z_of_byte b.
Proof. rewrite le_val_app. cbn [le_val]. lia. Qed.

Lemma bytes_compare_be_val bs cs :
  length bs = length cs → bytes_compare bs cs = Z.compare (be_val bs) (be_val cs).
Proof.
  revert cs. induction bs as [|x bs IH]; intros [|y cs]; cbn [bytes_compare]; try done.
  intros [= Hl]. unfold be_val in *. rewrite !reverse_cons, !le_val_snoc, !length_reverse, <- Hl.
  pose proof (le_val_range (reverse bs)) as Hb. pose proof (le_val_range (reverse cs)) as Hc.
  rewrite length_reverse in Hb, Hc. rewrite <- Hl in Hc.
  pose proof (pow256_pos (length bs)).
  destruct (Z.compare_spec (Z_of_byte x) (Z_of_byte y)) as [->|E|E]; symmetry.
  - rewrite IH by done. rewrite !(Z.add_comm (le_val _)). apply Z.add_compare_mono_l.
  - apply Z.compare_lt_iff. nia.
  - apply Z.compare_gt_iff. nia.
Qed.

Lemma bytes_compare_be_bytes n a b :
  0 ≤ a < 2 ^ (8 * Z.of_nat n) → 0 ≤ b < 2 ^ (8 * Z.of_nat n) →
  bytes_compare (be_bytes n a) (be_bytes n b) = Z.compare a b.
Proof.
  intros Ha Hb. rewrite bytes_compare_be_val by (by rewrite !be_bytes_length).
  by rewrite !be_val_bytes_small.
Qed.

#[export] Hint Rewrite le_bytes_length be_bytes_length @length_app @length_replicate
  @length_take @length_drop @length_cons : gw_len.
