(* ===== verification/Types.v ===== *)
(** * Data types shared by the layer-1 scripts and the node

    Models [gwos/crates/types/src]: 256-bit words ([h256.rs]), registry
    addresses ([registry_address.rs]), the enumerations and the [Timepoint]
    encoding of [core.rs], and the molecule structures of
    [schemas/godwoken.mol] as records with one field per schema field.

    Two things the sources only call are parameters: the hash function
    [blake2b] and the molecule encoding of tables ([Molecule]). *)
From Stdlib Require Import ZArith Lia Strings.Byte.
From stdpp Require Import prelude list gmap.
From S2P Require Import Prelude Bytes.
Local Open Scope Z_scope.

(** ** H256 (h256.rs): [u8; 32] *)
Abbreviation H256 := bytes.

Definition h256_zero : H256 := zeros 32.
Definition h256_is_zero (h : H256) : bool := bool_decide (h = h256_zero).
Definition h256_from_u32 (n : Z) : H256 := le_bytes 4 n ++ zeros 28.
Definition h256_to_u32 (h : H256) : Z := le_val (take 4 h).
Definition h256_from_u64 (n : Z) : H256 := le_bytes 8 n ++ zeros 24.
Definition h256_to_u64 (h : H256) : Z := le_val (take 8 h).
Definition h256_from_u128 (n : Z) : H256 := le_bytes 16 n ++ zeros 16.
Definition h256_to_u128 (h : H256) : Z := le_val (take 16 h).
Definition h256_from_u256 (n : Z) : H256 := le_bytes 32 n.
Definition h256_to_u256 (h : H256) : Z := le_val (take 32 h).
Definition h256_one : H256 := h256_from_u32 1.

Lemma h256_from_u32_length n : length (h256_from_u32 n) = 32%nat.
Proof. done. Qed.
Lemma h256_from_u256_length n : length (h256_from_u256 n) = 32%nat.
Proof. apply le_bytes_length. Qed.

Lemma h256_u32_roundtrip n : u32 n → h256_to_u32 (h256_from_u32 n) = n.
Proof.
  intros [??]. unfold h256_to_u32, h256_from_u32.
  rewrite take_app_length' by (by rewrite le_bytes_length). by apply le_val_bytes_small.
Qed.
Lemma h256_u256_roundtrip n : u256 n → h256_to_u256 (h256_from_u256 n) = n.
Proof.
  intros [??]. unfold h256_to_u256, h256_from_u256.
  rewrite take_ge by (by rewrite le_bytes_length). by apply le_val_bytes_small.
Qed.
Lemma h256_to_u256_range h : u256 (h256_to_u256 h).
Proof.
  unfold h256_to_u256, in_width. pose proof (le_val_range (take 32 h)) as H.
  rewrite length_take in H. split; [lia|].
  eapply Z.lt_le_trans; [apply H|]. apply Z.pow_le_mono_r; lia.
Qed.
Lemma h256_to_u32_range h : u32 (h256_to_u32 h).
Proof.
  unfold h256_to_u32, in_width. pose proof (le_val_range (take 4 h)) as H.
  rewrite length_take in H. split; [lia|].
  eapply Z.lt_le_trans; [apply H|]. apply Z.pow_le_mono_r; lia.
Qed.
Lemma h256_to_u256_zero : h256_to_u256 h256_zero = 0.
Proof. reflexivity. Qed.

(** ** Registry addresses (registry_address.rs) *)
Record RegistryAddress := mkRegistryAddress {
  registry_id : Z;
  address : bytes;
}.
#[export] Instance RegistryAddress_eq_dec : EqDecision RegistryAddress.
Proof. solve_decision. Defined.

Definition RegistryAddress_from_slice (sl : bytes) : option RegistryAddress :=
  if (length sl <? 8)%nat then None
  else
    let id := le_val (sub_bytes 0 4 sl) in
    let address_len := le_val (sub_bytes 4 4 sl) in
    total ← checked_add 32 address_len 8;
    if Z.of_nat (length sl) <? total then None
    else Some (mkRegistryAddress id (sub_bytes 8 (Z.to_nat address_len) sl)).

Definition RegistryAddress_len (a : RegistryAddress) : nat := 8 + length (address a).
Definition RegistryAddress_is_empty (a : RegistryAddress) : bool :=
  (length (address a) =? 0)%nat.

(** [write_to_slice(&mut buf)]: the new contents of [buf], or the length that
    was needed. *)
Definition RegistryAddress_write_to_slice (a : RegistryAddress) (buf : bytes) :
    outcome nat bytes :=
  if (length buf <? RegistryAddress_len a)%nat
     || (u32_max <? Z.of_nat (RegistryAddress_len a))
  then Err (RegistryAddress_len a)
  else Ok (le_bytes 4 (registry_id a) ++ le_bytes 4 (Z.of_nat (length (address a)))
             ++ address a ++ drop (RegistryAddress_len a) buf).

(** [.unwrap()] on the result of [write_to_slice]. *)
Definition unwrap_write {E} (r : outcome nat bytes) : outcome E bytes :=
  match r with Ok b => Ok b | _ => Panic end.

Definition RegistryAddress_to_bytes {E} (a : RegistryAddress) : outcome E bytes :=
  unwrap_write (RegistryAddress_write_to_slice a (zeros (RegistryAddress_len a))).

(** The encoding itself: registry_id | address_len | address. *)
Definition reg_addr_bytes (a : RegistryAddress) : bytes :=
  le_bytes 4 (registry_id a) ++ le_bytes 4 (Z.of_nat (length (address a))) ++ address a.

(** The addresses the code can represent: a [u32] id and a total length that
    fits in 32 bits. *)
Definition RegistryAddress_wf (a : RegistryAddress) : Prop :=
  u32 (registry_id a) ∧ Z.of_nat (RegistryAddress_len a) ≤ u32_max.
#[export] Instance RegistryAddress_wf_dec a : Decision (RegistryAddress_wf a).
Proof. unfold RegistryAddress_wf. apply _. Defined.

Lemma reg_addr_bytes_length a : length (reg_addr_bytes a) = RegistryAddress_len a.
Proof. unfold reg_addr_bytes, RegistryAddress_len. autorewrite with gw_len. lia. Qed.

Lemma write_to_slice_Ok a buf :
  (RegistryAddress_len a ≤ length buf)%nat → RegistryAddress_wf a →
  RegistryAddress_write_to_slice a buf
  = Ok (reg_addr_bytes a ++ drop (RegistryAddress_len a) buf).
Proof.
  intros Hb [_ Hl]. unfold RegistryAddress_write_to_slice, reg_addr_bytes.
  rewrite (proj2 (Nat.ltb_ge _ _)) by lia. rewrite (proj2 (Z.ltb_ge _ _)) by lia.
  cbn [orb]. by rewrite <- !(assoc_L app).
Qed.

Lemma to_bytes_Ok {E} a :
  RegistryAddress_wf a → RegistryAddress_to_bytes (E:=E) a = Ok (reg_addr_bytes a).
Proof.
  intros Hwf. unfold RegistryAddress_to_bytes.
  rewrite write_to_slice_Ok; [|by unfold zeros; rewrite length_replicate|done].
  cbn. rewrite drop_ge by (unfold zeros; by rewrite length_replicate). by rewrite app_nil_r.
Qed.

(** Parsing ignores whatever follows the encoded address. *)
Lemma from_slice_reg_addr_bytes a rest :
  RegistryAddress_wf a →
  RegistryAddress_from_slice (reg_addr_bytes a ++ rest) = Some a.
Proof.
  intros [Hid Hl]. unfold RegistryAddress_from_slice, u32_max, RegistryAddress_len in *.
  unfold in_width in Hid.
  assert (Hlen : length (reg_addr_bytes a ++ rest)
                 = (8 + length (address a) + length rest)%nat).
  { rewrite length_app, reg_addr_bytes_length. done. }
  rewrite Hlen, (proj2 (Nat.ltb_ge _ _)) by lia.
  unfold reg_addr_bytes. rewrite <- !(assoc_L app).
  rewrite (sub_bytes_app_l 4) by done.
  rewrite (sub_bytes_app_r 4) by (rewrite le_bytes_length; lia).
  rewrite le_bytes_length, (sub_bytes_app_l 4) by done.
  rewrite !le_val_bytes_small by (cbn; lia).
  unfold checked_add. rewrite (proj2 (Z.ltb_lt _ _)) by lia. cbn [mbind option_bind].
  rewrite (proj2 (Z.ltb_ge _ _)) by lia.
  rewrite (sub_bytes_app_r 8) by (rewrite le_bytes_length; lia).
  rewrite (sub_bytes_app_r (8 - _)) by (rewrite !le_bytes_length; lia).
  rewrite !le_bytes_length. rewrite Nat2Z.id, sub_bytes_app_l by done.
  by destruct a.
Qed.

Lemma reg_addr_bytes_inj a b :
  RegistryAddress_wf a → RegistryAddress_wf b →
  reg_addr_bytes a = reg_addr_bytes b → a = b.
Proof.
  intros Ha Hb E. apply (inj Some).
  rewrite <- (from_slice_reg_addr_bytes a []), <- (from_slice_reg_addr_bytes b []) by done.
  by rewrite E.
Qed.

(** ** Enumerations (core.rs) *)
Inductive ScriptHashType := HashData | HashType.
Definition ScriptHashType_to_u8 (t : ScriptHashType) : Z :=
  match t with HashData => 0 | HashType => 1 end.
Definition ScriptHashType_try_from (v : Z) : outcome Z ScriptHashType :=
  match v with 0 => Ok HashData | 1 => Ok HashType | n => Err n end.

Inductive Status := Running | Halting.
Definition Status_to_u8 (s : Status) : Z :=
  match s with Running => 0 | Halting => 1 end.
Definition Status_try_from (v : Z) : outcome Z Status :=
  match v with 0 => Ok Running | 1 => Ok Halting | n => Err n end.

Inductive ChallengeTargetType := TxExecution | TxSignature | TargetWithdrawal.
Definition ChallengeTargetType_to_u8 (t : ChallengeTargetType) : Z :=
  match t with TxExecution => 0 | TxSignature => 1 | TargetWithdrawal => 2 end.
Definition ChallengeTargetType_try_from (v : Z) : outcome Z ChallengeTargetType :=
  match v with
  | 0 => Ok TxExecution | 1 => Ok TxSignature | 2 => Ok TargetWithdrawal | n => Err n
  end.

Inductive SigningType := SigningRaw | SigningWithPrefix.
Definition SigningType_try_from (v : Z) : outcome Z SigningType :=
  match v with 0 => Ok SigningRaw | 1 => Ok SigningWithPrefix | n => Err n end.
#[export] Instance SigningType_eq_dec : EqDecision SigningType.
Proof. solve_decision. Defined.

Inductive AllowedEoaType := EoaUnknown | EoaEth.
Definition AllowedEoaType_to_u8 (t : AllowedEoaType) : Z :=
  match t with EoaUnknown => 0 | EoaEth => 1 end.
Definition AllowedEoaType_try_from (v : Z) : outcome Z AllowedEoaType :=
  match v with 0 => Ok EoaUnknown | 1 => Ok EoaEth | n => Err n end.

Inductive AllowedContractType :=
  ContractUnknown | ContractMeta | ContractSudt | ContractPolyjuice | ContractEthAddrReg.
Definition AllowedContractType_to_u8 (t : AllowedContractType) : Z :=
  match t with
  | ContractUnknown => 0 | ContractMeta => 1 | ContractSudt => 2
  | ContractPolyjuice => 3 | ContractEthAddrReg => 4
  end.
Definition AllowedContractType_try_from (v : Z) : outcome Z AllowedContractType :=
  match v with
  | 0 => Ok ContractUnknown | 1 => Ok ContractMeta | 2 => Ok ContractSudt
  | 3 => Ok ContractPolyjuice | 4 => Ok ContractEthAddrReg | n => Err n
  end.

(** ** Timepoint (core.rs): a block number or a timestamp in one [u64] *)
Inductive Timepoint :=
| BlockNumber (block_number : Z)
| Timestamp (timestamp : Z).
#[export] Instance Timepoint_eq_dec : EqDecision Timepoint.
Proof. solve_decision. Defined.

Definition TIMEPOINT_MASK : Z := Z.shiftl 1 63.

Definition Timepoint_from_full_value (full_value : Z) : Timepoint :=
  if Z.land TIMEPOINT_MASK full_value =? 0
  then BlockNumber full_value
  else Timestamp (Z.lxor TIMEPOINT_MASK full_value).

Definition Timepoint_full_value (t : Timepoint) : Z :=
  match t with
  | BlockNumber block_number => block_number
  | Timestamp timestamp => Z.lor TIMEPOINT_MASK timestamp
  end.

Definition timepoint_value (t : Timepoint) : Z :=
  match t with BlockNumber n => n | Timestamp n => n end.

Section TimepointBits.
Local Abbreviation M := (2 ^ 63).

Lemma mask_eq : TIMEPOINT_MASK = M.
Proof. reflexivity. Qed.

Lemma land_mask_low x : 0 ≤ x < M → Z.land M x = 0.
Proof.
  intros Hx. apply Z.bits_inj'. intros i Hi. rewrite Z.land_spec, Z.bits_0, Z.pow2_bits_eqb by lia.
  destruct (Z.eqb_spec 63 i) as [<-|]; [|done]. cbn [andb].
  destruct (decide (x = 0)) as [->|]; [apply Z.bits_0|].
  apply Z.bits_above_log2; [lia|]. apply Z.log2_lt_pow2; lia.
Qed.

Lemma lor_mask_low x : 0 ≤ x < M → Z.lor M x = M + x.
Proof.
  intros Hx. pose proof (land_mask_low x Hx) as H.
  rewrite <- Z.lxor_lor by done. symmetry. by apply Z.add_nocarry_lxor.
Qed.

Lemma lxor_mask_high x : 0 ≤ x < M → Z.lxor M (M + x) = x.
Proof.
  intros Hx. pose proof (land_mask_low x Hx) as H.
  rewrite (Z.add_nocarry_lxor M x) by done.
  by rewrite <- Z.lxor_assoc, Z.lxor_nilpotent, Z.lxor_0_l.
Qed.

Lemma land_mask_high x : 0 ≤ x < M → Z.land M (M + x) ≠ 0.
Proof.
  intros Hx H. pose proof (land_mask_low x Hx) as H0.
  rewrite (Z.add_nocarry_lxor M x) in H by done.
  apply (f_equal (λ z, Z.testbit z 63)) in H. rewrite Z.bits_0, Z.land_spec, Z.lxor_spec in H.
  apply (f_equal (λ z, Z.testbit z 63)) in H0. rewrite Z.bits_0, Z.land_spec in H0.
  change (Z.testbit M 63) with true in *. cbn [andb] in *. by rewrite H0 in H.
Qed.

(** Decoding a [u64]: below [2^63] it is a block number, above it is the
    timestamp with the mask bit cleared. *)
Lemma Timepoint_from_full_value_eq x :
  u64 x →
  Timepoint_from_full_value x
  = if x <? M then BlockNumber x else Timestamp (x - M).
Proof.
  intros [H1 H2]. unfold Timepoint_from_full_value. rewrite mask_eq.
  case_match eqn:E; case_match eqn:F; try done.
  - exfalso. apply (land_mask_high (x - M)); [lia|].
    replace (M + (x - M)) with x by lia. lia.
  - rewrite land_mask_low in E by lia. done.
  - f_equal. rewrite <- (lxor_mask_high (x - M)) by lia. f_equal. lia.
Qed.

Lemma Timepoint_full_value_eq t :
  0 ≤ timepoint_value t < M →
  Timepoint_full_value t
  = match t with BlockNumber n => n | Timestamp n => M + n end.
Proof. destruct t; cbn; [done|]. apply lor_mask_low. Qed.
End TimepointBits.

(** ** Molecule structures (schemas/blockchain.mol, schemas/godwoken.mol) *)
Record Script := mkScript { code_hash : H256; hash_type : Z; args : bytes }.
#[export] Instance Script_eq_dec : EqDecision Script.
Proof. solve_decision. Defined.

Record BlockMerkleState := mkBlockMerkleState { bm_merkle_root : H256; bm_count : Z }.
Record AccountMerkleState := mkAccountMerkleState { am_merkle_root : H256; am_count : Z }.
#[export] Instance BlockMerkleState_eq_dec : EqDecision BlockMerkleState.
Proof. solve_decision. Defined.
#[export] Instance AccountMerkleState_eq_dec : EqDecision AccountMerkleState.
Proof. solve_decision. Defined.

Record GlobalStateV0 := mkGlobalStateV0 {
  v0_rollup_config_hash : H256;
  v0_account : AccountMerkleState;
  v0_block : BlockMerkleState;
  v0_reverted_block_root : H256;
  v0_tip_block_hash : H256;
  v0_last_finalized_timepoint : Z;
  v0_status : Z;
}.

Record GlobalState := mkGlobalState {
  rollup_config_hash : H256;
  gs_account : AccountMerkleState;
  gs_block : BlockMerkleState;
  reverted_block_root : H256;
  tip_block_hash : H256;
  tip_block_timestamp : Z;
  last_finalized_timepoint : Z;
  gs_status : Z;
  gs_version : Z;
}.
#[export] Instance GlobalState_eq_dec : EqDecision GlobalState.
Proof. solve_decision. Defined.

(** [impl From<GlobalStateV0> for GlobalState] (core.rs) *)
Definition GlobalState_from_v0 (s : GlobalStateV0) : GlobalState :=
  {| rollup_config_hash := v0_rollup_config_hash s;
     gs_account := v0_account s;
     gs_block := v0_block s;
     reverted_block_root := v0_reverted_block_root s;
     tip_block_hash := v0_tip_block_hash s;
     tip_block_timestamp := 0;
     last_finalized_timepoint := v0_last_finalized_timepoint s;
     gs_status := v0_status s;
     gs_version := 0 |}.

Record AllowedTypeHash := mkAllowedTypeHash { ath_type : Z; ath_hash : H256 }.

Record RollupConfig := mkRollupConfig {
  l1_sudt_script_type_hash : H256;
  custodian_script_type_hash : H256;
  deposit_script_type_hash : H256;
  withdrawal_script_type_hash : H256;
  challenge_script_type_hash : H256;
  stake_script_type_hash : H256;
  l2_sudt_validator_script_type_hash : H256;
  burn_lock_hash : H256;
  required_staking_capacity : Z;
  challenge_maturity_blocks : Z;
  finality_blocks : Z;
  reward_burn_rate : Z;
  rc_chain_id : Z;
  allowed_eoa_type_hashes : list AllowedTypeHash;
  allowed_contract_type_hashes : list AllowedTypeHash;
}.

Record RawL2Transaction := mkRawL2Transaction {
  tx_chain_id : Z; tx_from_id : Z; tx_to_id : Z; tx_nonce : Z; tx_args : bytes;
}.
Record L2Transaction := mkL2Transaction { tx_raw : RawL2Transaction; tx_signature : bytes }.

Record SubmitTransactions := mkSubmitTransactions {
  tx_witness_root : H256; tx_count : Z; prev_state_checkpoint : H256;
}.
Record SubmitWithdrawals := mkSubmitWithdrawals {
  withdrawal_witness_root : H256; withdrawal_count : Z;
}.

Record RawL2Block := mkRawL2Block {
  number : Z;
  block_producer : bytes;
  parent_block_hash : H256;
  stake_cell_owner_lock_hash : H256;
  timestamp : Z;
  prev_account : AccountMerkleState;
  post_account : AccountMerkleState;
  state_checkpoint_list : list H256;
  submit_withdrawals : SubmitWithdrawals;
  submit_transactions : SubmitTransactions;
}.

Record RawWithdrawalRequest := mkRawWithdrawalRequest {
  w_nonce : Z;
  w_chain_id : Z;
  w_capacity : Z;
  w_amount : Z;
  w_sudt_script_hash : H256;
  w_account_script_hash : H256;
  w_registry_id : Z;
  w_owner_lock_hash : H256;
  w_fee : Z;
}.
Record WithdrawalRequest := mkWithdrawalRequest { w_raw : RawWithdrawalRequest; w_signature : bytes }.

Record KVPair := mkKVPair { kv_k : H256; kv_v : H256 }.

Record L2Block := mkL2Block {
  block_raw : RawL2Block;
  block_kv_state : list KVPair;
  block_kv_state_proof : bytes;
  block_transactions : list L2Transaction;
  block_proof : bytes;
  block_withdrawals : list WithdrawalRequest;
}.

Record DepositLockArgs := mkDepositLockArgs {
  dl_owner_lock_hash : H256; dl_layer2_lock : Script; dl_cancel_timeout : Z; dl_registry_id : Z;
}.
#[export] Instance DepositLockArgs_eq_dec : EqDecision DepositLockArgs.
Proof. solve_decision. Defined.

Record CustodianLockArgs := mkCustodianLockArgs {
  cl_deposit_block_hash : H256;
  cl_deposit_finalized_timepoint : Z;
  cl_deposit_lock_args : DepositLockArgs;
}.
Record WithdrawalLockArgs := mkWithdrawalLockArgs {
  wl_withdrawal_block_hash : H256;
  wl_withdrawal_finalized_timepoint : Z;
  wl_account_script_hash : H256;
  wl_owner_lock_hash : H256;
}.
Record StakeLockArgs := mkStakeLockArgs {
  sl_owner_lock_hash : H256; sl_stake_finalized_timepoint : Z;
}.
#[export] Instance StakeLockArgs_eq_dec : EqDecision StakeLockArgs.
Proof. solve_decision. Defined.

Inductive UnlockWithdrawalWitness :=
| UnlockWithdrawalViaFinalize
| UnlockWithdrawalViaRevert (custodian_lock_hash : H256).

Record ChallengeTarget := mkChallengeTarget {
  ct_block_hash : H256; ct_target_index : Z; ct_target_type : Z;
}.
Record ChallengeLockArgs := mkChallengeLockArgs {
  chl_target : ChallengeTarget; chl_rewards_receiver_lock : Script;
}.
Record ChallengeWitness := mkChallengeWitness {
  cw_raw_l2block : RawL2Block; cw_block_proof : bytes;
}.

Record SubmitBlockArgs := mkSubmitBlockArgs {
  sb_block : L2Block;
  sb_reverted_block_hashes : list H256;
  sb_reverted_block_proof : bytes;
}.
Record RevertArgs := mkRevertArgs {
  rv_reverted_blocks : list RawL2Block;
  rv_block_proof : bytes;
  rv_reverted_block_proof : bytes;
  rv_new_tip_block : RawL2Block;
}.
Inductive RollupAction :=
| RollupSubmitBlock (a : SubmitBlockArgs)
| RollupEnterChallenge (w : ChallengeWitness)
| RollupCancelChallenge
| RollupRevert (a : RevertArgs).

Record WitnessArgs := mkWitnessArgs {
  wa_lock : option bytes; wa_input_type : option bytes; wa_output_type : option bytes;
}.

(** ** Parameters of the model *)

(** [new_blake2b()], the hash used for every key, script and block. *)
Class Blake2b := blake2b : bytes → H256.

(** The molecule codec generated from the schemas: [as_slice] of the tables
    that are hashed, and [from_slice]/[verify] of the ones read from cells and
    witnesses. *)
Class Molecule := {
  enc_Script : Script → bytes;
  enc_RawL2Block : RawL2Block → bytes;
  enc_L2Transaction : L2Transaction → bytes;
  enc_WithdrawalRequest : WithdrawalRequest → bytes;
  dec_Script : bytes → option Script;
  dec_GlobalState : bytes → option GlobalState;
  dec_GlobalStateV0 : bytes → option GlobalStateV0;
  dec_RollupConfig : bytes → option RollupConfig;
  dec_WitnessArgs : bytes → option WitnessArgs;
  dec_RollupAction : bytes → option RollupAction;
  dec_DepositLockArgs : bytes → option DepositLockArgs;
  dec_CustodianLockArgs : bytes → option CustodianLockArgs;
  dec_WithdrawalLockArgs : bytes → option WithdrawalLockArgs;
  dec_StakeLockArgs : bytes → option StakeLockArgs;
  dec_ChallengeLockArgs : bytes → option ChallengeLockArgs;
  dec_UnlockWithdrawalWitness : bytes → option UnlockWithdrawalWitness;
  dec_UnlockCustodianViaRevertWitness : bytes → option H256;
}.

(** [impl_hash!] and [impl_witness_hash!] (extension.rs) *)
Section Hashes.
Context `{Blake2b, Molecule}.
Definition script_hash (s : Script) : H256 := blake2b (enc_Script s).
Definition raw_block_hash (b : RawL2Block) : H256 := blake2b (enc_RawL2Block b).
Definition tx_witness_hash (t : L2Transaction) : H256 := blake2b (enc_L2Transaction t).
Definition withdrawal_witness_hash (w : WithdrawalRequest) : H256 :=
  blake2b (enc_WithdrawalRequest w).
End Hashes.

(** [RawL2Block::compute_smt_key] (extension.rs) *)
Definition compute_smt_key (block_number : Z) : H256 := le_bytes 8 block_number ++ zeros 24.

Lemma compute_smt_key_inj a b : u64 a → u64 b → compute_smt_key a = compute_smt_key b → a = b.
Proof.
  unfold compute_smt_key, in_width. intros Ha Hb E. apply app_inv_tail in E.
  by apply (le_bytes_inj 8).
Qed.
