(* ===== verification/State.v ===== *)
(** * The [State] trait and its provided methods

    Models [gwos/crates/common/src]: the key constructors and the default
    methods of [State] ([state.rs]), the registry context
    ([registry/context.rs], [registry/eth_registry.rs]), the CKB decimal
    conversion ([ckb_decimal.rs]) and the checkpoint hashes
    ([merkle_utils.rs]).

    The trait is the class [StateOps]; a method that takes [&mut self] is a
    stateful operation of the [ST] monad.  [get_raw] is stateful too, because an
    implementation may record the access.  [StateSim] states what one
    implementation promises with respect to another, and the section
    [Simulation] lifts that promise from the required methods to all provided
    ones. *)
From Stdlib Require Import ZArith Lia Strings.Byte.
From stdpp Require Import prelude list gmap.
From S2P Require Import Prelude Bytes Types.
Local Open Scope Z_scope.

(** ** Errors (error.rs) *)
Module StateError.
Inductive t : Type :=
| SMT (msg : bytes)
| AmountOverflow
| MerkleProof
| MissingKey
| Store
| DuplicatedScriptHash
| DuplicatedRegistryAddress
| InvalidArgs
| UnknownEoaCodeHash.
#[export] Instance t_eq_dec : EqDecision t.
Proof. solve_decision. Defined.
End StateError.

(** ** Constants *)
Definition GW_ACCOUNT_KV_TYPE : byte := x00.
Definition GW_ACCOUNT_NONCE_TYPE : byte := x01.
Definition GW_ACCOUNT_SCRIPT_HASH_TYPE : byte := x02.
Definition GW_NON_ACCOUNT_PLACEHOLDER : bytes := zeros 4.
Definition GW_SCRIPT_HASH_TO_ID_TYPE : byte := x03.
Definition GW_DATA_HASH_TYPE : byte := x04.
Definition SUDT_KEY_FLAG_BALANCE : Z := 1.
Definition SUDT_TOTAL_SUPPLY_KEY : bytes := replicate 32 xff.
Definition REGISTRY_KEY_PREFIX : bytes := [x72; x65; x67].
Definition REGISTRY_KEY_FLAG_SCRIPT_HASH_TO_NATIVE : byte := x01.
Definition REGISTRY_KEY_FLAG_NATIVE_TO_SCRIPT_HASH : byte := x02.

(** builtins.rs, lib.rs *)
Definition RESERVED_ACCOUNT_ID : Z := 0.
Definition CKB_SUDT_ACCOUNT_ID : Z := 1.
Definition ETH_REGISTRY_ACCOUNT_ID : Z := 2.
Definition CKB_SUDT_SCRIPT_ARGS : H256 := zeros 32.

#[global] Arguments SUDT_TOTAL_SUPPLY_KEY : simpl never.
#[global] Arguments CKB_SUDT_SCRIPT_ARGS : simpl never.

(** ** Keys *)
Section Keys.
Context `{Blake2b}.

(** What is hashed: the account id, the domain byte and the key. *)
Definition account_key_preimage (id : Z) (key : bytes) : bytes :=
  le_bytes 4 id ++ [GW_ACCOUNT_KV_TYPE] ++ key.
Definition script_hash_key_preimage (sh : bytes) : bytes :=
  GW_NON_ACCOUNT_PLACEHOLDER ++ [GW_SCRIPT_HASH_TO_ID_TYPE] ++ sh.
Definition data_hash_key_preimage (dh : bytes) : bytes :=
  GW_NON_ACCOUNT_PLACEHOLDER ++ [GW_DATA_HASH_TYPE] ++ dh.

Definition build_account_key (id : Z) (key : bytes) : H256 :=
  blake2b (account_key_preimage id key).

Definition build_sudt_key {E} (key_flag : Z) (addr : RegistryAddress) : outcome E bytes :=
  rest ← unwrap_write
    (RegistryAddress_write_to_slice addr (zeros (RegistryAddress_len addr)));
  Ok (le_bytes 4 key_flag ++ rest).

Definition build_script_hash_to_registry_address_key (sh : H256) : bytes :=
  REGISTRY_KEY_PREFIX ++ [REGISTRY_KEY_FLAG_SCRIPT_HASH_TO_NATIVE] ++ sh.

Definition build_registry_address_to_script_hash_key {E} (addr : RegistryAddress) :
    outcome E bytes :=
  rest ← unwrap_write
    (RegistryAddress_write_to_slice addr (zeros (RegistryAddress_len addr)));
  Ok (REGISTRY_KEY_PREFIX ++ [REGISTRY_KEY_FLAG_NATIVE_TO_SCRIPT_HASH] ++ rest).

Definition build_account_field_key (id : Z) (type_ : byte) : H256 :=
  le_bytes 4 id ++ [type_] ++ zeros 27.

Definition build_script_hash_to_account_id_key (sh : bytes) : H256 :=
  blake2b (script_hash_key_preimage sh).

Definition build_data_hash_key (dh : bytes) : H256 := blake2b (data_hash_key_preimage dh).

(** merkle_utils.rs *)
Definition calculate_state_checkpoint_of (root : H256) (count : Z) : H256 :=
  blake2b (root ++ le_bytes 4 count).
Definition ckb_merkle_leaf_hash (index : Z) (item_hash : H256) : H256 :=
  blake2b (le_bytes 4 index ++ item_hash).
End Keys.

(** ** CKBCapacity (ckb_decimal.rs)

    [U256] arithmetic panics on overflow; [from_layer1] of a [u64] cannot. *)
Definition CKB_DECIMAL_POW_EXP : Z := 10.
Definition CKB_DECIMAL_POWER_TEN : Z := 10 ^ CKB_DECIMAL_POW_EXP.

Definition CKBCapacity_from_layer1 (amount : Z) : Z := amount * CKB_DECIMAL_POWER_TEN.
Definition CKBCapacity_from_layer2 (amount : Z) : Z := amount.
Definition CKBCapacity_to_layer1 (c : Z) : option Z :=
  let truncated := c / CKB_DECIMAL_POWER_TEN in
  if 64 <? (if truncated =? 0 then 0 else Z.log2 truncated + 1)
  then None else Some truncated.
Definition CKBCapacity_to_layer2 (c : Z) : Z := c.

(** ** The trait *)
Class StateOps (St : Type) := {
  get_raw : H256 → ST St StateError.t H256;
  update_raw : H256 → H256 → ST St StateError.t unit;
  get_account_count : ST St StateError.t Z;
  set_account_count : Z → ST St StateError.t unit;
  calculate_root : ST St StateError.t H256;
}.

Section Provided.
Context `{Blake2b} {St : Type} `{StateOps St}.
Local Abbreviation M := (ST St StateError.t).

Definition get_value (id : Z) (key : bytes) : M H256 :=
  lift (assert_that (negb (bool_decide (key = [])))) ;;
  get_raw (build_account_key id key).

Definition update_value (id : Z) (key : bytes) (value : H256) : M unit :=
  lift (assert_that (negb (bool_decide (key = [])))) ;;
  update_raw (build_account_key id key) value.

Definition get_script_hash (id : Z) : M H256 :=
  get_raw (build_account_field_key id GW_ACCOUNT_SCRIPT_HASH_TYPE).

Definition get_nonce (id : Z) : M Z :=
  value ← get_raw (build_account_field_key id GW_ACCOUNT_NONCE_TYPE);
  mret (h256_to_u32 value).

Definition set_nonce (id nonce : Z) : M unit :=
  update_raw (build_account_field_key id GW_ACCOUNT_NONCE_TYPE) (h256_from_u32 nonce).

Definition get_account_id_by_script_hash (sh : H256) : M (option Z) :=
  value ← get_raw (build_script_hash_to_account_id_key sh);
  if h256_is_zero value then mret None else mret (Some (h256_to_u32 value)).

(** the first 4 bytes are the id, the fifth is the exists flag *)
Definition script_hash_to_id_value (id : Z) : H256 := <[4%nat := x01]> (h256_from_u32 id).

Definition create_account (sh : H256) : M Z :=
  existing ← get_account_id_by_script_hash sh;
  lift (reject_if (bool_decide (is_Some existing)) StateError.DuplicatedScriptHash) ;;
  id ← get_account_count;
  set_nonce id 0 ;;
  update_raw (build_account_field_key id GW_ACCOUNT_SCRIPT_HASH_TYPE) sh ;;
  update_raw (build_script_hash_to_account_id_key sh) (script_hash_to_id_value id) ;;
  next ← lift (add_w 32 id 1);
  set_account_count next ;;
  mret id.

Definition get_sudt_balance (sudt_id : Z) (addr : RegistryAddress) : M Z :=
  sudt_key ← lift (build_sudt_key SUDT_KEY_FLAG_BALANCE addr);
  balance ← get_value sudt_id sudt_key;
  mret (h256_to_u256 balance).

Definition get_sudt_total_supply (sudt_id : Z) : M Z :=
  total_supply ← get_value sudt_id SUDT_TOTAL_SUPPLY_KEY;
  mret (h256_to_u256 total_supply).

Definition store_data_hash (dh : H256) : M unit :=
  update_raw (build_data_hash_key dh) h256_one.

Definition is_data_hash_exist (dh : H256) : M bool :=
  v ← get_raw (build_data_hash_key dh);
  mret (bool_decide (v = h256_one)).

Definition mint_sudt (sudt_id : Z) (addr : RegistryAddress) (amount : Z) : M unit :=
  sudt_key ← lift (build_sudt_key SUDT_KEY_FLAG_BALANCE addr);
  let raw_key := build_account_key sudt_id sudt_key in
  balance ← get_raw raw_key;
  balance' ← lift (ok_or StateError.AmountOverflow (checked_add 256 (h256_to_u256 balance) amount));
  update_raw raw_key (h256_from_u256 balance') ;;
  let raw_key := build_account_key sudt_id SUDT_TOTAL_SUPPLY_KEY in
  total_supply ← get_raw raw_key;
  total_supply' ← lift (ok_or StateError.AmountOverflow
                          (checked_add 256 (h256_to_u256 total_supply) amount));
  update_raw raw_key (h256_from_u256 total_supply').

Definition burn_sudt (sudt_id : Z) (addr : RegistryAddress) (amount : Z) : M unit :=
  sudt_key ← lift (build_sudt_key SUDT_KEY_FLAG_BALANCE addr);
  let raw_key := build_account_key sudt_id sudt_key in
  balance ← get_raw raw_key;
  balance' ← lift (ok_or StateError.AmountOverflow (checked_sub (h256_to_u256 balance) amount));
  update_raw raw_key (h256_from_u256 balance') ;;
  let raw_key := build_account_key sudt_id SUDT_TOTAL_SUPPLY_KEY in
  total_supply ← get_raw raw_key;
  total_supply' ← lift (ok_or StateError.AmountOverflow
                          (checked_sub (h256_to_u256 total_supply) amount));
  update_raw raw_key (h256_from_u256 total_supply').

Definition calculate_state_checkpoint : M H256 :=
  account_root ← calculate_root;
  account_count ← get_account_count;
  mret (calculate_state_checkpoint_of account_root account_count).

Definition get_script_hash_by_registry_address (addr : RegistryAddress) : M (option H256) :=
  key ← lift (build_registry_address_to_script_hash_key addr);
  value ← get_value (registry_id addr) key;
  if h256_is_zero value then mret None else mret (Some value).

Definition get_registry_address_by_script_hash (rid : Z) (sh : H256) :
    M (option RegistryAddress) :=
  let key := build_script_hash_to_registry_address_key sh in
  value ← get_value rid key;
  if h256_is_zero value then mret None
  else addr ← lift (unwrap (RegistryAddress_from_slice value)); mret (Some addr).

Definition mapping_registry_address_to_script_hash
    (addr : RegistryAddress) (sh : H256) : M unit :=
  lift (reject_if (negb (length (address addr) =? 20)%nat) StateError.InvalidArgs) ;;
  lift (reject_if (h256_is_zero sh) StateError.InvalidArgs) ;;
  lift (reject_if (negb (registry_id addr =? ETH_REGISTRY_ACCOUNT_ID)) StateError.InvalidArgs) ;;
  by_hash ← get_registry_address_by_script_hash (registry_id addr) sh;
  lift (reject_if (bool_decide (is_Some by_hash)) StateError.DuplicatedRegistryAddress) ;;
  by_addr ← get_script_hash_by_registry_address addr;
  lift (reject_if (bool_decide (is_Some by_addr)) StateError.DuplicatedRegistryAddress) ;;
  addr_buf ← lift (unwrap_write (RegistryAddress_write_to_slice addr (zeros 32)));
  update_value (registry_id addr) (build_script_hash_to_registry_address_key sh) addr_buf ;;
  key ← lift (build_registry_address_to_script_hash_key addr);
  update_value (registry_id addr) key sh.
End Provided.

(** ** Registry context (registry/context.rs, registry/eth_registry.rs) *)
Definition EOA_SCRIPT_ARGS_LEN : nat := 52.
Definition CONTRACT_ACCOUNT_SCRIPT_ARGS_LEN : nat := 56.

Definition extract_eth_address_from_eoa (script_args : bytes) : outcome StateError.t bytes :=
  if negb (length script_args =? EOA_SCRIPT_ARGS_LEN)%nat
  then Err StateError.InvalidArgs else Ok (drop 32 script_args).

Definition extract_eth_address_from_contract (script_args : bytes) : outcome StateError.t bytes :=
  if negb (length script_args =? CONTRACT_ACCOUNT_SCRIPT_ARGS_LEN)%nat
  then Err StateError.InvalidArgs else Ok (drop 36 script_args).

Definition find_eoa_type_by_hash (allowed : list AllowedTypeHash) (ch : H256) :
    option AllowedTypeHash :=
  snd <$> list_find (λ th, ath_hash th = ch) allowed.

Definition extract_registry_address_from_deposit (allowed : list AllowedTypeHash)
    (rid : Z) (ch : H256) (script_args : bytes) : outcome StateError.t RegistryAddress :=
  reject_if (negb (rid =? ETH_REGISTRY_ACCOUNT_ID)) StateError.InvalidArgs ;;
  match find_eoa_type_by_hash allowed ch with
  | None => Err StateError.UnknownEoaCodeHash
  | Some th =>
      match AllowedEoaType_try_from (ath_type th) with
      | Ok EoaEth =>
          addr ← extract_eth_address_from_eoa script_args;
          Ok (mkRegistryAddress rid addr)
      | _ => Err StateError.UnknownEoaCodeHash
      end
  end.

(** ** Simulation between implementations of the trait

    [m1] simulates [m2] when, from related states, both return the same outcome
    in related states, or [m1] fails with an error of the set [may_fail]: the
    errors an implementation adds to the reference (a key missing from a
    partial state, an I/O error). *)
Section Sim.
Context {St1 St2 : Type} (R : St1 → St2 → Prop).

Definition sim {E A} (may_fail : E → Prop) (m1 : ST St1 E A) (m2 : ST St2 E A) : Prop :=
  ∀ s1 s2, R s1 s2 →
    (∃ e s1', m1 s1 = (Err e, s1') ∧ may_fail e) ∨
    (∃ r s1' s2', m1 s1 = (r, s1') ∧ m2 s2 = (r, s2') ∧ R s1' s2').

Lemma sim_bind {E A B} (F : E → Prop) (m1 : ST St1 E A) m2 (f1 : A → ST St1 E B) f2 :
  sim F m1 m2 → (∀ a, sim F (f1 a) (f2 a)) → sim F (m1 ≫= f1) (m2 ≫= f2).
Proof.
  intros Hm Hf s1 s2 Hs. unfold mbind, ST_bind.
  destruct (Hm s1 s2 Hs) as [(e&s1'&->&?)|([a|e|]&s1'&s2'&->&->&Hs')].
  - left. eauto.
  - apply Hf, Hs'.
  - right. eauto 10.
  - right. eauto 10.
Qed.

Lemma sim_ret {E A} (F : E → Prop) (a : A) : sim F (mret a) (mret a).
Proof. intros s1 s2 Hs. right. unfold mret, ST_ret. eauto 10. Qed.

Lemma sim_lift {E A} (F : E → Prop) (m : outcome E A) : sim F (lift m) (lift m).
Proof. intros s1 s2 Hs. right. unfold lift. eauto 10. Qed.

Lemma sim_if {E A} (F : E → Prop) (b : bool) (m1 n1 : ST St1 E A) m2 n2 :
  sim F m1 m2 → sim F n1 n2 → sim F (if b then m1 else n1) (if b then m2 else n2).
Proof. by destruct b. Qed.

Lemma sim_for {E A} (F : E → Prop) (l : list A) f1 f2 :
  (∀ a, sim F (f1 a) (f2 a)) → sim F (st_for l f1) (st_for l f2).
Proof.
  intros Hf. induction l as [|a l IH]; cbn [st_for]; [apply sim_ret|].
  apply sim_bind; [done|by intros _].
Qed.
End Sim.

#[export] Hint Resolve sim_bind sim_ret sim_lift sim_if sim_for : gw.

(** The interface: [St1] behaves like [St2] through the required methods that
    read and write the key-value state. *)
Class StateSim (St1 St2 : Type) `{StateOps St1, StateOps St2}
    (R : St1 → St2 → Prop) (F : StateError.t → Prop) : Prop := {
  sim_get_raw k : sim R F (get_raw k) (get_raw k);
  sim_update_raw k v : sim R F (update_raw k v) (update_raw k v);
  sim_get_account_count : sim R F get_account_count get_account_count;
  sim_set_account_count c : sim R F (set_account_count c) (set_account_count c);
}.
#[export] Hint Resolve sim_get_raw sim_update_raw sim_get_account_count
  sim_set_account_count : gw.

Section Simulation.
Context `{Blake2b} {St1 St2 : Type} `{StateOps St1, StateOps St2}.
Context (R : St1 → St2 → Prop) (F : StateError.t → Prop).
Context `{!StateSim St1 St2 R F}.

Local Ltac solve_sim :=
  repeat first
    [ apply sim_bind; [|intros]
    | apply sim_if
    | solve [eauto with gw]
    | progress cbv zeta ].

Lemma sim_get_value id k : sim R F (get_value id k) (get_value id k).
Proof. unfold get_value. solve_sim. Qed.
Lemma sim_update_value id k v : sim R F (update_value id k v) (update_value id k v).
Proof. unfold update_value. solve_sim. Qed.
Hint Resolve sim_get_value sim_update_value : gw.
Lemma sim_get_nonce id : sim R F (get_nonce id) (get_nonce id).
Proof. unfold get_nonce. solve_sim. Qed.
Lemma sim_set_nonce id n : sim R F (set_nonce id n) (set_nonce id n).
Proof. unfold set_nonce. solve_sim. Qed.
Lemma sim_get_script_hash id : sim R F (get_script_hash id) (get_script_hash id).
Proof. unfold get_script_hash. solve_sim. Qed.
Lemma sim_get_account_id sh :
  sim R F (get_account_id_by_script_hash sh) (get_account_id_by_script_hash sh).
Proof. unfold get_account_id_by_script_hash. solve_sim. Qed.
Hint Resolve sim_get_nonce sim_set_nonce sim_get_script_hash sim_get_account_id : gw.
Lemma sim_create_account sh : sim R F (create_account sh) (create_account sh).
Proof. unfold create_account. solve_sim. Qed.
Lemma sim_get_sudt_balance id a : sim R F (get_sudt_balance id a) (get_sudt_balance id a).
Proof. unfold get_sudt_balance. solve_sim. Qed.
Lemma sim_get_sudt_total_supply id :
  sim R F (get_sudt_total_supply id) (get_sudt_total_supply id).
Proof. unfold get_sudt_total_supply. solve_sim. Qed.
Lemma sim_mint_sudt id a n : sim R F (mint_sudt id a n) (mint_sudt id a n).
Proof. unfold mint_sudt. solve_sim. Qed.
Lemma sim_burn_sudt id a n : sim R F (burn_sudt id a n) (burn_sudt id a n).
Proof. unfold burn_sudt. solve_sim. Qed.
Lemma sim_get_script_hash_by_registry_address a :
  sim R F (get_script_hash_by_registry_address a) (get_script_hash_by_registry_address a).
Proof. unfold get_script_hash_by_registry_address. solve_sim. Qed.
Lemma sim_get_registry_address_by_script_hash rid sh :
  sim R F (get_registry_address_by_script_hash rid sh)
          (get_registry_address_by_script_hash rid sh).
Proof. unfold get_registry_address_by_script_hash. solve_sim. Qed.
Hint Resolve sim_get_script_hash_by_registry_address
  sim_get_registry_address_by_script_hash : gw.
Lemma sim_mapping_registry_address a sh :
  sim R F (mapping_registry_address_to_script_hash a sh)
          (mapping_registry_address_to_script_hash a sh).
Proof. unfold mapping_registry_address_to_script_hash. solve_sim. Qed.
End Simulation.
#[export] Hint Resolve sim_get_value sim_update_value sim_get_nonce sim_set_nonce
  sim_get_script_hash sim_get_account_id sim_create_account sim_get_sudt_balance
  sim_get_sudt_total_supply sim_mint_sudt sim_burn_sudt
  sim_get_script_hash_by_registry_address sim_get_registry_address_by_script_hash
  sim_mapping_registry_address : gw.
