(* ===== verification/StateSpec.v ===== *)
(** * The reference state and the contract of the provided methods

    [RefState] is the abstract specification of a Godwoken state: a finite map
    from 32-byte keys to 32-byte values in which an absent key reads as zero
    (the semantics of the sparse merkle tree) and the number of accounts.  The
    provided methods of [State] are run on it, and their behaviour is proved
    here once; an implementation inherits it through [StateSim].

    The theorems that need distinct raw keys assume that [blake2b] does not
    collide on the finitely many preimages involved ([hash_ok]); that these
    preimages are distinct to begin with is proved, from the layout of the
    keys. *)
From Stdlib Require Import ZArith Lia Strings.Byte.
From stdpp Require Import prelude list gmap.
From S2P Require Import Prelude Bytes Types State.
Local Open Scope Z_scope.

(** The root of a state, a function of its contents ([sparse_merkle_tree]). *)
Class SmtRoot := smt_root : gmap H256 H256 → H256.

Record RefState := mkRefState { rs_kv : gmap H256 H256; rs_count : Z }.

Definition kv_get (s : RefState) (k : H256) : H256 := default h256_zero (rs_kv s !! k).
Definition kv_put (k v : H256) (s : RefState) : RefState :=
  mkRefState (<[k := v]> (rs_kv s)) (rs_count s).

#[export] Instance RefState_ops `{SmtRoot} : StateOps RefState := {
  get_raw k s := (Ok (kv_get s k), s);
  update_raw k v s := (Ok tt, kv_put k v s);
  get_account_count s := (Ok (rs_count s), s);
  set_account_count c s := (Ok tt, mkRefState (rs_kv s) c);
  calculate_root s := (Ok (smt_root (rs_kv s)), s);
}.

Lemma kv_get_put s k v k' :
  kv_get (kv_put k v s) k' = if decide (k = k') then v else kv_get s k'.
Proof. unfold kv_get. cbn. rewrite lookup_insert. by case_decide. Qed.
Lemma kv_get_put_eq s k v : kv_get (kv_put k v s) k = v.
Proof. rewrite kv_get_put. by case_decide. Qed.
Lemma kv_get_put_ne s k v k' : k ≠ k' → kv_get (kv_put k v s) k' = kv_get s k'.
Proof. intros. rewrite kv_get_put. by case_decide. Qed.
Lemma kv_get_count s c k : kv_get (mkRefState (rs_kv s) c) k = kv_get s k.
Proof. done. Qed.

(** ** Layout of the keys *)
Section Layout.
Context `{Blake2b}.

Lemma account_key_preimage_inj id k id' k' :
  u32 id → u32 id' →
  account_key_preimage id k = account_key_preimage id' k' → id = id' ∧ k = k'.
Proof.
  unfold account_key_preimage, in_width. intros ?? E.
  apply app_inj_1 in E as [E1 E2]; [|done].
  apply le_bytes_inj in E1; [|done..]. by injection E2.
Qed.

Lemma account_script_preimage_ne id k sh :
  account_key_preimage id k ≠ script_hash_key_preimage sh.
Proof.
  unfold account_key_preimage, script_hash_key_preimage. intros E.
  by apply app_inj_1 in E as [_ [=]].
Qed.

Lemma account_data_preimage_ne id k dh :
  account_key_preimage id k ≠ data_hash_key_preimage dh.
Proof.
  unfold account_key_preimage, data_hash_key_preimage. intros E.
  by apply app_inj_1 in E as [_ [=]].
Qed.

Lemma script_data_preimage_ne sh dh :
  script_hash_key_preimage sh ≠ data_hash_key_preimage dh.
Proof.
  unfold script_hash_key_preimage, data_hash_key_preimage. intros E.
  by apply app_inv_head in E as [=].
Qed.

Lemma build_account_field_key_inj id t id' t' :
  u32 id → u32 id' →
  build_account_field_key id t = build_account_field_key id' t' → id = id' ∧ t = t'.
Proof.
  unfold build_account_field_key, in_width. intros ?? E.
  apply app_inj_1 in E as [E1 E2]; [|done].
  apply le_bytes_inj in E1; [|done..]. by injection E2.
Qed.

(** The key of a balance inside a simple-UDT account. *)
Definition sudt_key_bytes (a : RegistryAddress) : bytes :=
  le_bytes 4 SUDT_KEY_FLAG_BALANCE ++ reg_addr_bytes a.

Lemma write_exact {E} a :
  RegistryAddress_wf a →
  unwrap_write (E:=E) (RegistryAddress_write_to_slice a (zeros (RegistryAddress_len a)))
  = Ok (reg_addr_bytes a).
Proof. apply to_bytes_Ok. Qed.

Lemma build_sudt_key_Ok {E} a :
  RegistryAddress_wf a →
  build_sudt_key (E:=E) SUDT_KEY_FLAG_BALANCE a = Ok (sudt_key_bytes a).
Proof. intros. unfold build_sudt_key. by rewrite write_exact. Qed.

(** The key under which the registry keeps the script hash of an address. *)
Definition native_key_bytes (a : RegistryAddress) : bytes :=
  REGISTRY_KEY_PREFIX ++ [REGISTRY_KEY_FLAG_NATIVE_TO_SCRIPT_HASH] ++ reg_addr_bytes a.

Lemma build_registry_key_Ok {E} a :
  RegistryAddress_wf a →
  build_registry_address_to_script_hash_key (E:=E) a = Ok (native_key_bytes a).
Proof. intros. unfold build_registry_address_to_script_hash_key. by rewrite write_exact. Qed.

Lemma sudt_key_not_supply a : sudt_key_bytes a ≠ SUDT_TOTAL_SUPPLY_KEY.
Proof. unfold sudt_key_bytes. by intros [=]. Qed.

(** The two parts of a key's preimage are told apart by their position. *)
Lemma account_key_preimage_key id k id' k' :
  account_key_preimage id k = account_key_preimage id' k' → k = k'.
Proof.
  unfold account_key_preimage. intros E. by apply app_inj_1 in E as [_ [=]].
Qed.

Lemma write_exact_bytes {E} a b :
  unwrap_write (E:=E) (RegistryAddress_write_to_slice a (zeros (RegistryAddress_len a))) = Ok b →
  b = reg_addr_bytes a.
Proof.
  unfold RegistryAddress_write_to_slice. case_match; [done|]. intros [= <-].
  rewrite drop_ge by (unfold zeros; by rewrite length_replicate). by rewrite app_nil_r.
Qed.
Lemma build_sudt_key_bytes {E} a key :
  build_sudt_key (E:=E) SUDT_KEY_FLAG_BALANCE a = Ok key → key = sudt_key_bytes a.
Proof.
  unfold build_sudt_key. intros Hk. inv_ok.
  match goal with Hw : unwrap_write _ = Ok _ |- _ => apply write_exact_bytes in Hw as -> end. done.
Qed.
Lemma build_registry_key_bytes {E} a key :
  build_registry_address_to_script_hash_key (E:=E) a = Ok key → key = native_key_bytes a.
Proof.
  unfold build_registry_address_to_script_hash_key. intros Hk. inv_ok.
  match goal with Hw : unwrap_write _ = Ok _ |- _ => apply write_exact_bytes in Hw as -> end. done.
Qed.

Lemma sudt_key_not_empty a : sudt_key_bytes a ≠ [].
Proof. done. Qed.

Lemma sudt_key_bytes_inj a b :
  RegistryAddress_wf a → RegistryAddress_wf b → sudt_key_bytes a = sudt_key_bytes b → a = b.
Proof.
  intros ?? E. unfold sudt_key_bytes in E. apply app_inv_head in E.
  by apply reg_addr_bytes_inj.
Qed.

Lemma registry_keys_ne sh a :
  build_script_hash_to_registry_address_key sh ≠ native_key_bytes a.
Proof. by intros [=]. Qed.

(** No collision among the given preimages, nor with an account field key
    (which is stored unhashed). *)
Definition collision_free (P : bytes → Prop) : Prop :=
  (∀ x y, P x → P y → blake2b x = blake2b y → x = y) ∧
  (∀ x id t, P x → t ∈ [GW_ACCOUNT_NONCE_TYPE; GW_ACCOUNT_SCRIPT_HASH_TYPE] →
     build_account_field_key id t ≠ blake2b x).
Definition hash_ok (l : list bytes) : Prop := collision_free (λ x, x ∈ l).

Lemma collision_free_incl (P Q : bytes → Prop) :
  collision_free P → (∀ x, Q x → P x) → collision_free Q.
Proof. intros [H1 H2] Hi. split; eauto. Qed.
Lemma collision_free_ne P x y : collision_free P → P x → P y → x ≠ y → blake2b x ≠ blake2b y.
Proof. intros [Hc _] ???E. eauto. Qed.

Lemma hash_ok_incl l l' : hash_ok l → (∀ x, x ∈ l' → x ∈ l) → hash_ok l'.
Proof. intros [H1 H2] Hi. split; eauto. Qed.

Lemma hash_ok_ne l x y : hash_ok l → x ∈ l → y ∈ l → x ≠ y → blake2b x ≠ blake2b y.
Proof. intros [Hc _] ???E. eauto. Qed.
End Layout.

(** ** Simple UDT: balances and total supply *)
Section Sudt.
Context `{Blake2b, SmtRoot}.
Implicit Types (s : RefState) (a : RegistryAddress) (id n : Z).

Definition balance_key id a : H256 := build_account_key id (sudt_key_bytes a).
Definition supply_key id : H256 := build_account_key id SUDT_TOTAL_SUPPLY_KEY.
Definition balance s id a : Z := h256_to_u256 (kv_get s (balance_key id a)).
Definition supply s id : Z := h256_to_u256 (kv_get s (supply_key id)).

Definition set_balance id a n s : RefState := kv_put (balance_key id a) (h256_from_u256 n) s.
Definition set_supply id n s : RefState := kv_put (supply_key id) (h256_from_u256 n) s.

(** The preimages behind a token's keys for the given holders. *)
Definition sudt_preimages id (holders : list RegistryAddress) : list bytes :=
  account_key_preimage id SUDT_TOTAL_SUPPLY_KEY
  :: (account_key_preimage id ∘ sudt_key_bytes <$> holders).

Lemma balance_key_ne_supply id (hs : list RegistryAddress) a :
  u32 id → hash_ok (sudt_preimages id hs) → a ∈ hs → balance_key id a ≠ supply_key id.
Proof.
  intros Hid Hh Ha. unfold balance_key, supply_key, build_account_key.
  eapply hash_ok_ne; [done|..].
  - right. apply list_elem_of_fmap. by exists a.
  - left.
  - intros E. apply account_key_preimage_inj in E as [_ E]; [|done..].
    by apply (sudt_key_not_supply a).
Qed.

Lemma balance_key_inj id (hs : list RegistryAddress) a b :
  u32 id → hash_ok (sudt_preimages id hs) → a ∈ hs → b ∈ hs →
  RegistryAddress_wf a → RegistryAddress_wf b → a ≠ b → balance_key id a ≠ balance_key id b.
Proof.
  intros Hid Hh Ha Hb Hwa Hwb Hne. unfold balance_key, build_account_key.
  eapply hash_ok_ne; [done|..].
  - right. apply list_elem_of_fmap. by exists a.
  - right. apply list_elem_of_fmap. by exists b.
  - intros E. apply account_key_preimage_inj in E as [_ E]; [|done..].
    by apply Hne, sudt_key_bytes_inj.
Qed.

(** What [get_sudt_balance] and [get_sudt_total_supply] return. *)
Lemma get_sudt_balance_run s id a :
  RegistryAddress_wf a → get_sudt_balance id a s = (Ok (balance s id a), s).
Proof.
  intros Ha. unfold get_sudt_balance.
  erewrite st_lift_run by by apply build_sudt_key_Ok. done.
Qed.
Lemma get_sudt_total_supply_run s id : get_sudt_total_supply id s = (Ok (supply s id), s).
Proof. done. Qed.

(** The complete behaviour of [mint_sudt]: both amounts grow, or the call
    fails; the state is left with the new balance when only the supply
    overflows. *)
Lemma mint_sudt_run s id a n :
  RegistryAddress_wf a → u32 id → hash_ok (sudt_preimages id [a]) →
  mint_sudt id a n s =
    if balance s id a + n <? 2 ^ 256 then
      if supply s id + n <? 2 ^ 256 then
        (Ok tt, set_supply id (supply s id + n) (set_balance id a (balance s id a + n) s))
      else (Err StateError.AmountOverflow, set_balance id a (balance s id a + n) s)
    else (Err StateError.AmountOverflow, s).
Proof.
  intros Ha Hid Hh. unfold mint_sudt.
  erewrite st_lift_run by by apply build_sudt_key_Ok. cbv zeta.
  fold (balance_key id a) (supply_key id).
  erewrite st_bind_run by done. fold (balance s id a). unfold checked_add.
  destruct (_ <? _); [|done].
  erewrite st_lift_run by done. erewrite st_bind_run by done.
  erewrite st_bind_run by done.
  rewrite kv_get_put_ne by (eapply balance_key_ne_supply; [done..|left]).
  fold (supply s id). destruct (_ <? _); [|done]. by erewrite st_lift_run.
Qed.

Lemma burn_sudt_run s id a n :
  RegistryAddress_wf a → u32 id → hash_ok (sudt_preimages id [a]) →
  burn_sudt id a n s =
    if n <=? balance s id a then
      if n <=? supply s id then
        (Ok tt, set_supply id (supply s id - n) (set_balance id a (balance s id a - n) s))
      else (Err StateError.AmountOverflow, set_balance id a (balance s id a - n) s)
    else (Err StateError.AmountOverflow, s).
Proof.
  intros Ha Hid Hh. unfold burn_sudt.
  erewrite st_lift_run by by apply build_sudt_key_Ok. cbv zeta.
  fold (balance_key id a) (supply_key id).
  erewrite st_bind_run by done. fold (balance s id a). unfold checked_sub.
  destruct (_ <=? _); [|done].
  erewrite st_lift_run by done. erewrite st_bind_run by done.
  erewrite st_bind_run by done.
  rewrite kv_get_put_ne by (eapply balance_key_ne_supply; [done..|left]).
  fold (supply s id). destruct (_ <=? _); [|done]. by erewrite st_lift_run.
Qed.

(** Amounts after a write. *)
Lemma supply_set_supply s id n : u256 n → supply (set_supply id n s) id = n.
Proof.
  intros. unfold supply, set_supply. rewrite kv_get_put_eq. by apply h256_u256_roundtrip.
Qed.
Lemma balance_set_balance s id a n : u256 n → balance (set_balance id a n s) id a = n.
Proof.
  intros. unfold balance, set_balance. rewrite kv_get_put_eq. by apply h256_u256_roundtrip.
Qed.
Lemma balance_set_supply s id a n :
  balance_key id a ≠ supply_key id → balance (set_supply id n s) id a = balance s id a.
Proof. intros. unfold balance, set_supply. by rewrite kv_get_put_ne. Qed.
Lemma balance_set_balance_ne s id a b n :
  balance_key id a ≠ balance_key id b → balance (set_balance id a n s) id b = balance s id b.
Proof. intros. unfold balance, set_balance. by rewrite kv_get_put_ne. Qed.
Lemma balance_range s id a : u256 (balance s id a).
Proof. apply h256_to_u256_range. Qed.
Lemma supply_range s id : u256 (supply s id).
Proof. apply h256_to_u256_range. Qed.
End Sudt.

(** ** Total supply equals the sum of balances *)
Fixpoint sum_over {A} (f : A → Z) (l : list A) : Z :=
  match l with [] => 0 | x :: l => f x + sum_over f l end.

Lemma sum_over_ext {A} (f g : A → Z) l :
  (∀ x, x ∈ l → f x = g x) → sum_over f l = sum_over g l.
Proof.
  induction l as [|x l IH]; intros Hx; cbn; [done|].
  rewrite Hx by left. rewrite IH; [done|]. intros y Hy. apply Hx. by right.
Qed.

(** Changing one summand of a duplicate-free list. *)
Lemma sum_over_update {A} (f g : A → Z) l a :
  NoDup l → a ∈ l → (∀ x, x ∈ l → x ≠ a → g x = f x) →
  sum_over g l = sum_over f l + (g a - f a).
Proof.
  induction l as [|x l IH]; intros Hnd Ha Hx; [by apply elem_of_nil in Ha|].
  apply NoDup_cons in Hnd as [Hni Hnd]. cbn. apply elem_of_cons in Ha as [->|Ha].
  - rewrite (sum_over_ext g f) by (intros y Hy; apply Hx; [by right|set_solver]). lia.
  - rewrite (Hx x) by (set_solver). rewrite IH; [lia|done..|].
    intros y Hy. apply Hx. by right.
Qed.

Lemma sum_over_nonneg {A} (f : A → Z) l : (∀ x, x ∈ l → 0 ≤ f x) → 0 ≤ sum_over f l.
Proof.
  induction l as [|x l IH]; intros Hx; cbn; [lia|].
  pose proof (Hx x ltac:(left)). enough (0 ≤ sum_over f l) by lia.
  apply IH. intros y Hy. apply Hx. by right.
Qed.

Lemma sum_over_elem {A} (f : A → Z) l a :
  (∀ x, x ∈ l → 0 ≤ f x) → a ∈ l → f a ≤ sum_over f l.
Proof.
  induction l as [|x l IH]; intros Hx Ha; [by apply elem_of_nil in Ha|]. cbn.
  assert (0 ≤ sum_over f l) by (apply sum_over_nonneg; intros; apply Hx; by right).
  apply elem_of_cons in Ha as [->|Ha]; [lia|].
  pose proof (Hx x ltac:(left)). enough (f a ≤ sum_over f l) by lia.
  apply IH; [|done]. intros y Hy. apply Hx. by right.
Qed.

Section Conservation.
Context `{Blake2b, SmtRoot}.
Context (id : Z) (holders : list RegistryAddress).

(** The token [id] is backed: its total supply is the sum of the balances of
    its holders. *)
Definition sudt_backed (s : RefState) : Prop :=
  supply s id = sum_over (balance s id) holders.

(** What makes the holders a sound account set for the token. *)
Definition holders_ok : Prop :=
  u32 id ∧ NoDup holders ∧ Forall RegistryAddress_wf holders ∧
  hash_ok (sudt_preimages id holders).

Lemma holders_hash_single a :
  hash_ok (sudt_preimages id holders) → a ∈ holders → hash_ok (sudt_preimages id [a]).
Proof.
  intros Hh Ha. eapply hash_ok_incl; [done|]. unfold sudt_preimages. cbn.
  intros x [->|[->|[]%elem_of_nil]%elem_of_cons]%elem_of_cons; [left|].
  right. apply list_elem_of_fmap. by exists a.
Qed.

Lemma sudt_backed_update s a n m :
  holders_ok → a ∈ holders → u256 n → u256 m →
  sudt_backed s → m - supply s id = n - balance s id a →
  sudt_backed (set_supply id m (set_balance id a n s)).
Proof.
  intros (Hid & Hnd & Hwf & Hh) Ha Hn Hm Hb Hd. rewrite Forall_forall in Hwf.
  unfold sudt_backed in *. rewrite supply_set_supply by done.
  rewrite (sum_over_update (balance s id) _ _ a) by
    (try done; intros x Hx Hxa;
     rewrite balance_set_supply by (by eapply balance_key_ne_supply);
     apply balance_set_balance_ne; eapply balance_key_inj; eauto).
  rewrite balance_set_supply by (by eapply balance_key_ne_supply).
  rewrite balance_set_balance by done. lia.
Qed.
End Conservation.

(** Token operations of the trait, as data. *)
Inductive sudt_op :=
| OpMint (a : RegistryAddress) (n : Z)
| OpBurn (a : RegistryAddress) (n : Z).

Definition sudt_op_holder (o : sudt_op) : RegistryAddress :=
  match o with OpMint a _ | OpBurn a _ => a end.
Definition sudt_op_amount (o : sudt_op) : Z :=
  match o with OpMint _ n | OpBurn _ n => n end.

Section Ops.
Context `{Blake2b, SmtRoot}.
Context (id : Z) (holders : list RegistryAddress).
Local Abbreviation backed := (sudt_backed id holders).
Local Abbreviation holders_ok := (holders_ok id holders).

Definition run_sudt_op (o : sudt_op) : ST RefState StateError.t unit :=
  match o with OpMint a n => mint_sudt id a n | OpBurn a n => burn_sudt id a n end.

Lemma holders_elim a :
  holders_ok → a ∈ holders →
  RegistryAddress_wf a ∧ u32 id ∧ hash_ok (sudt_preimages id [a]).
Proof.
  intros (?&?&Hwf&?) Ha. split; [|split]; [|done|by eapply holders_hash_single].
  by eapply Forall_forall in Hwf.
Qed.

Lemma backed_balance_le s a :
  backed s → a ∈ holders → balance s id a ≤ supply s id.
Proof.
  intros Hb Ha. unfold sudt_backed in Hb. rewrite Hb.
  apply sum_over_elem; [|done]. intros x _. apply balance_range.
Qed.

Lemma mint_sudt_backed s a n s' :
  holders_ok → a ∈ holders → 0 ≤ n → backed s →
  mint_sudt id a n s = (Ok tt, s') → backed s'.
Proof.
  intros Hok Ha Hn Hb Hrun. destruct (holders_elim a Hok Ha) as (Hwf & Hid & Hh).
  rewrite mint_sudt_run in Hrun by done.
  pose proof (balance_range s id a) as []. pose proof (supply_range s id) as [].
  destruct (Z.ltb_spec (balance s id a + n) (2 ^ 256)); [|done].
  destruct (Z.ltb_spec (supply s id + n) (2 ^ 256)); [|done].
  injection Hrun as <-. apply sudt_backed_update; unfold in_width; auto; lia.
Qed.

(** On a backed token, burning is all or nothing: it succeeds exactly when
    the balance covers the amount, and otherwise leaves the state alone. *)
Lemma burn_sudt_backed_run s a n :
  holders_ok → a ∈ holders → backed s →
  burn_sudt id a n s =
    if n <=? balance s id a then
      (Ok tt, set_supply id (supply s id - n) (set_balance id a (balance s id a - n) s))
    else (Err StateError.AmountOverflow, s).
Proof.
  intros Hok Ha Hb. destruct (holders_elim a Hok Ha) as (Hwf & Hid & Hh).
  rewrite burn_sudt_run by done. destruct (Z.leb_spec n (balance s id a)); [|done].
  pose proof (backed_balance_le s a Hb Ha).
  by rewrite (proj2 (Z.leb_le _ _)) by lia.
Qed.

Lemma burn_sudt_backed s a n s' :
  holders_ok → a ∈ holders → 0 ≤ n → backed s →
  burn_sudt id a n s = (Ok tt, s') → backed s'.
Proof.
  intros Hok Ha Hn Hb Hrun. rewrite burn_sudt_backed_run in Hrun by done.
  pose proof (balance_range s id a) as []. pose proof (supply_range s id) as [].
  pose proof (backed_balance_le s a Hb Ha).
  destruct (Z.leb_spec n (balance s id a)); [|done]. injection Hrun as <-.
  apply sudt_backed_update; unfold in_width; auto; lia.
Qed.

Lemma run_sudt_op_backed s o s' :
  holders_ok → sudt_op_holder o ∈ holders → 0 ≤ sudt_op_amount o → backed s →
  run_sudt_op o s = (Ok tt, s') → backed s'.
Proof. destruct o; cbn; eauto using mint_sudt_backed, burn_sudt_backed. Qed.
End Ops.

(** Any sequence of [mint_sudt] and [burn_sudt] calls that succeeds keeps
    the total supply of a layer-2 token equal to the sum of its holders'
    balances. *)
Theorem sudt_ops_keep_backing `{Blake2b, SmtRoot} (id : Z)
    (holders : list RegistryAddress) (ops : list sudt_op) (s s' : RefState) :
  holders_ok id holders →
  Forall (λ o, sudt_op_holder o ∈ holders ∧ 0 ≤ sudt_op_amount o) ops →
  sudt_backed id holders s →
  st_for ops (run_sudt_op id) s = (Ok tt, s') →
  sudt_backed id holders s'.
Proof.
  intros Hok Hops. revert s. induction Hops as [|o ops [Ho Hn] _ IH]; intros s Hb Hrun.
  - by injection Hrun as <-.
  - cbn [st_for] in Hrun. inv_ok. eauto using run_sudt_op_backed.
Qed.

(** ** Accounts *)
Section Accounts.
Context `{Blake2b, SmtRoot}.
Implicit Types (s : RefState) (hs : list H256) (sh : H256).

Definition script_hash_at s (id : Z) : H256 :=
  kv_get s (build_account_field_key id GW_ACCOUNT_SCRIPT_HASH_TYPE).
Definition nonce_at s (id : Z) : Z :=
  h256_to_u32 (kv_get s (build_account_field_key id GW_ACCOUNT_NONCE_TYPE)).
Definition account_id_of s sh : option Z :=
  let v := kv_get s (build_script_hash_to_account_id_key sh) in
  if h256_is_zero v then None else Some (h256_to_u32 v).

Lemma get_account_id_run s sh :
  get_account_id_by_script_hash sh s = (Ok (account_id_of s sh), s).
Proof.
  unfold get_account_id_by_script_hash. erewrite st_bind_run by done.
  unfold account_id_of. by case_match.
Qed.
Lemma account_id_range s sh id : account_id_of s sh = Some id → u32 id.
Proof. unfold account_id_of. case_match; [done|]. intros [= <-]. apply h256_to_u32_range. Qed.
Lemma get_script_hash_run s id : get_script_hash id s = (Ok (script_hash_at s id), s).
Proof. done. Qed.
Lemma get_nonce_run s id : get_nonce id s = (Ok (nonce_at s id), s).
Proof. done. Qed.

(** The account table lists [hs]: ids are consecutive and the two directions
    of the table agree. *)
Definition accounts_ok s hs : Prop :=
  rs_count s = Z.of_nat (length hs) ∧
  ∀ i h, hs !! i = Some h →
    script_hash_at s (Z.of_nat i) = h ∧ account_id_of s h = Some (Z.of_nat i).

Lemma script_hash_to_id_value_eq id :
  script_hash_to_id_value id = le_bytes 4 id ++ x01 :: zeros 27.
Proof. done. Qed.

Lemma script_hash_to_id_value_spec id :
  u32 id →
  h256_is_zero (script_hash_to_id_value id) = false ∧
  h256_to_u32 (script_hash_to_id_value id) = id.
Proof.
  intros Hid. rewrite script_hash_to_id_value_eq. split.
  - unfold h256_is_zero. apply bool_decide_eq_false_2. intros E.
    change h256_zero with (zeros 4 ++ zeros 28) in E.
    by apply app_inj_1 in E as [_ [=]].
  - unfold h256_to_u32. rewrite take_app_length' by (by rewrite le_bytes_length).
    by apply le_val_bytes_small.
Qed.

(** The state after a successful [create_account]. *)
Definition create_account_state (id : Z) sh s : RefState :=
  let s := kv_put (build_account_field_key id GW_ACCOUNT_NONCE_TYPE) (h256_from_u32 0) s in
  let s := kv_put (build_account_field_key id GW_ACCOUNT_SCRIPT_HASH_TYPE) sh s in
  let s := kv_put (build_script_hash_to_account_id_key sh) (script_hash_to_id_value id) s in
  mkRefState (rs_kv s) (id + 1).

Lemma create_account_run s sh :
  rs_count s + 1 < 2 ^ 32 →
  create_account sh s =
    match account_id_of s sh with
    | Some _ => (Err StateError.DuplicatedScriptHash, s)
    | None => (Ok (rs_count s), create_account_state (rs_count s) sh s)
    end.
Proof.
  intros Hc. unfold create_account.
  erewrite st_bind_run by apply get_account_id_run.
  destruct (account_id_of s sh) as [i|]; cbn [is_Some].
  - by erewrite st_lift_err.
  - erewrite st_lift_run by done. erewrite st_bind_run by done.
    do 3 (erewrite st_bind_run by done).
    erewrite (st_lift_run _ _ _ (rs_count s + 1)); [done|].
    unfold add_w, checked_add. by rewrite (proj2 (Z.ltb_lt _ _)).
Qed.

Section Created.
Context (s : RefState) (id : Z) (sh : H256) (l : list bytes).
Context (Hid : u32 id) (Hl : hash_ok l) (Hsh : script_hash_key_preimage sh ∈ l).
Local Abbreviation s' := (create_account_state id sh s).

Lemma field_key_fresh i t :
  t ∈ [GW_ACCOUNT_NONCE_TYPE; GW_ACCOUNT_SCRIPT_HASH_TYPE] →
  build_script_hash_to_account_id_key sh ≠ build_account_field_key i t.
Proof. intros Ht E. destruct Hl as [_ H2]. by apply (H2 _ i t Hsh Ht). Qed.

Lemma created_script_hash i :
  u32 i → script_hash_at s' i = if decide (i = id) then sh else script_hash_at s i.
Proof.
  intros Hi. unfold script_hash_at, create_account_state. cbv zeta. rewrite kv_get_count.
  rewrite kv_get_put_ne by (apply field_key_fresh; set_solver).
  rewrite kv_get_put. case_decide as E.
  - apply build_account_field_key_inj in E as [-> _]; [|done..]. by rewrite decide_True.
  - rewrite decide_False by (intros ->; done). apply kv_get_put_ne.
    intros E'. by apply build_account_field_key_inj in E' as [_ ?].
Qed.

Lemma created_nonce i :
  u32 i → nonce_at s' i = if decide (i = id) then 0 else nonce_at s i.
Proof.
  intros Hi. unfold nonce_at, create_account_state. cbv zeta. rewrite kv_get_count.
  rewrite kv_get_put_ne by (apply field_key_fresh; set_solver).
  rewrite kv_get_put_ne by (intros E; by apply build_account_field_key_inj in E as [_ ?]).
  rewrite kv_get_put. case_decide as E.
  - apply build_account_field_key_inj in E as [-> _]; [|done..]. by rewrite decide_True.
  - by rewrite decide_False by (intros ->; done).
Qed.

Lemma created_account_id h :
  script_hash_key_preimage h ∈ l →
  account_id_of s' h = if decide (h = sh) then Some id else account_id_of s h.
Proof.
  intros Hh. unfold account_id_of, create_account_state. cbv zeta. rewrite kv_get_count.
  rewrite kv_get_put. destruct (script_hash_to_id_value_spec id Hid) as [Hz Hv].
  destruct (decide (h = sh)) as [->|Hne].
  - rewrite decide_True by done. by rewrite Hz, Hv.
  - rewrite decide_False.
    + rewrite !kv_get_put_ne; [done|..]; intros E; destruct Hl as [_ H2].
      * by apply (H2 _ id GW_ACCOUNT_NONCE_TYPE Hh); [set_solver|].
      * by apply (H2 _ id GW_ACCOUNT_SCRIPT_HASH_TYPE Hh); [set_solver|].
    + intros E. destruct Hl as [H1 _]. apply H1 in E; [|done..].
      unfold script_hash_key_preimage in E. apply app_inv_head in E. naive_solver.
Qed.
End Created.
End Accounts.

(** [create_account] on an unknown script hash returns the next id, extends
    the account table by that one entry with nonce 0, leaves every other
    account's nonce alone, and makes a second creation with the same script hash
    fail with [DuplicatedScriptHash]. *)
Theorem create_account_extends_table `{Blake2b, SmtRoot}
    (s : RefState) (hs : list H256) (sh : H256) :
  accounts_ok s hs →
  Z.of_nat (length hs) + 2 < 2 ^ 32 →
  hash_ok (script_hash_key_preimage <$> sh :: hs) →
  account_id_of s sh = None →
  ∃ s', create_account sh s = (Ok (Z.of_nat (length hs)), s') ∧
    accounts_ok s' (hs ++ [sh]) ∧
    (∀ i, u32 i → nonce_at s' i = if decide (i = Z.of_nat (length hs)) then 0 else nonce_at s i) ∧
    create_account sh s' = (Err StateError.DuplicatedScriptHash, s').
Proof.
  intros [Hc Ht] Hlen Hh Hn. set (id := Z.of_nat (length hs)) in *.
  assert (Hid : u32 id) by (unfold in_width; lia).
  set (l := script_hash_key_preimage <$> sh :: hs) in *.
  assert (Hsh : script_hash_key_preimage sh ∈ l) by left.
  exists (create_account_state id sh s).
  assert (Hsame : account_id_of (create_account_state id sh s) sh = Some id).
  { rewrite (created_account_id s id sh l) by done. by rewrite decide_True. }
  rewrite create_account_run, Hn, Hc by lia.
  split; [done|]. split; [split|split].
  - cbn. rewrite length_app. cbn. lia.
  - intros i h [Hi|[Hi Hj]]%lookup_app_Some.
    + assert (Hil : (i < length hs)%nat) by (by eapply lookup_lt_Some).
      destruct (Ht i h Hi) as [Hs1 Hs2].
      rewrite (created_script_hash s id sh l), (created_account_id s id sh l) by
        (try done; try (unfold in_width; lia); right; apply list_elem_of_fmap;
         exists h; eauto using list_elem_of_lookup_2).
      rewrite !decide_False; [done|..]; [intros ->; congruence|lia].
    + apply list_lookup_singleton_Some in Hj as [Hj <-].
      assert (Z.of_nat i = id) as -> by lia.
      rewrite (created_script_hash s id sh l), Hsame by done. by rewrite decide_True.
  - intros i Hi. by apply (created_nonce s id sh l).
  - rewrite create_account_run by (cbn; lia). by rewrite Hsame.
Qed.

(** ** Registry addresses *)
Section Registry.
Context `{Blake2b, SmtRoot}.
Implicit Types (s : RefState) (a : RegistryAddress) (sh : H256).

Definition hash_to_addr_key (rid : Z) sh : H256 :=
  build_account_key rid (build_script_hash_to_registry_address_key sh).
Definition addr_to_hash_key a : H256 :=
  build_account_key (registry_id a) (native_key_bytes a).

(** An Ethereum address of the builtin registry. *)
Definition is_eth_address a : Prop :=
  registry_id a = ETH_REGISTRY_ACCOUNT_ID ∧ length (address a) = 20%nat.

Lemma is_eth_address_wf a : is_eth_address a → RegistryAddress_wf a.
Proof.
  intros [Hid Hlen]. unfold RegistryAddress_wf, RegistryAddress_len. rewrite Hid, Hlen.
  by vm_compute.
Qed.

Lemma get_registry_address_run s rid sh :
  get_registry_address_by_script_hash rid sh s =
    (let v := kv_get s (hash_to_addr_key rid sh) in
     if h256_is_zero v then Ok None
     else match RegistryAddress_from_slice v with Some a => Ok (Some a) | None => Panic end, s).
Proof.
  unfold get_registry_address_by_script_hash. cbv zeta.
  erewrite st_bind_run by done. fold (hash_to_addr_key rid sh).
  case_match; [done|]. by destruct (RegistryAddress_from_slice _).
Qed.

Lemma get_script_hash_by_registry_address_run s a :
  RegistryAddress_wf a →
  get_script_hash_by_registry_address a s =
    (let v := kv_get s (addr_to_hash_key a) in
     Ok (if h256_is_zero v then None else Some v), s).
Proof.
  intros Ha. unfold get_script_hash_by_registry_address.
  erewrite st_lift_run by by apply build_registry_key_Ok.
  erewrite st_bind_run by done. fold (addr_to_hash_key a). by case_match.
Qed.

Lemma addr_buf_Ok {E} a :
  is_eth_address a →
  unwrap_write (E:=E) (RegistryAddress_write_to_slice a (zeros 32))
  = Ok (reg_addr_bytes a ++ zeros 4).
Proof.
  intros Ha. pose proof (is_eth_address_wf a Ha). destruct Ha as [_ Hlen].
  rewrite write_to_slice_Ok; [|unfold RegistryAddress_len; rewrite Hlen; cbn; lia|done].
  unfold RegistryAddress_len. by rewrite Hlen.
Qed.

Lemma reg_addr_bytes_nonzero a rest :
  is_eth_address a → h256_is_zero (reg_addr_bytes a ++ rest) = false.
Proof.
  intros [Hid _]. unfold h256_is_zero. apply bool_decide_eq_false_2.
  unfold reg_addr_bytes. rewrite Hid. by intros [=].
Qed.

(** The state after a successful mapping: both directions are written. *)
Definition mapping_state a sh s : RefState :=
  kv_put (addr_to_hash_key a) sh
    (kv_put (hash_to_addr_key (registry_id a) sh) (reg_addr_bytes a ++ zeros 4) s).

Lemma mapping_run s a sh :
  is_eth_address a → h256_is_zero sh = false →
  get_registry_address_by_script_hash (registry_id a) sh s = (Ok None, s) →
  get_script_hash_by_registry_address a s = (Ok None, s) →
  mapping_registry_address_to_script_hash a sh s = (Ok tt, mapping_state a sh s).
Proof.
  intros Ha Hz H1 H2. pose proof (is_eth_address_wf a Ha) as Hwf.
  unfold mapping_registry_address_to_script_hash.
  erewrite st_lift_run by (destruct Ha as [_ ->]; done).
  erewrite st_lift_run by (by rewrite Hz).
  erewrite st_lift_run by (destruct Ha as [-> _]; done).
  erewrite st_bind_run by exact H1. erewrite st_lift_run by done.
  erewrite st_bind_run by exact H2. erewrite st_lift_run by done.
  erewrite st_lift_run by (by apply addr_buf_Ok).
  erewrite st_bind_run by done.
  erewrite st_lift_run by (by apply build_registry_key_Ok). done.
Qed.
End Registry.

(** Mapping an unmapped Ethereum address to an unmapped script hash
    succeeds and is a bijection entry: each side then resolves to the other, and
    mapping the same address or the same script hash again is rejected with
    [DuplicatedRegistryAddress], whatever the other side is. *)
Theorem mapping_registry_address_bidirectional `{Blake2b, SmtRoot}
    (s : RefState) (a : RegistryAddress) (sh : H256) :
  is_eth_address a → h256_is_zero sh = false →
  hash_ok [account_key_preimage (registry_id a) (build_script_hash_to_registry_address_key sh);
           account_key_preimage (registry_id a) (native_key_bytes a)] →
  get_registry_address_by_script_hash (registry_id a) sh s = (Ok None, s) →
  get_script_hash_by_registry_address a s = (Ok None, s) →
  ∃ s', mapping_registry_address_to_script_hash a sh s = (Ok tt, s') ∧
    get_registry_address_by_script_hash (registry_id a) sh s' = (Ok (Some a), s') ∧
    get_script_hash_by_registry_address a s' = (Ok (Some sh), s') ∧
    (∀ b, is_eth_address b →
       mapping_registry_address_to_script_hash b sh s'
       = (Err StateError.DuplicatedRegistryAddress, s')) .
Proof.
  intros Ha Hz Hh H1 H2. pose proof (is_eth_address_wf a Ha) as Hwf.
  exists (mapping_state a sh s). split; [by apply mapping_run|].
  assert (Hne : hash_to_addr_key (registry_id a) sh ≠ addr_to_hash_key a).
  { eapply hash_ok_ne; [done|left|right; left|]. intros E.
    apply account_key_preimage_inj in E as [_ E]; [|apply Hwf..].
    by eapply registry_keys_ne. }
  assert (Hget : get_registry_address_by_script_hash (registry_id a) sh (mapping_state a sh s)
                 = (Ok (Some a), mapping_state a sh s)).
  { rewrite get_registry_address_run. unfold mapping_state at 1.
    rewrite kv_get_put_ne, kv_get_put_eq by done. cbv zeta.
    by rewrite reg_addr_bytes_nonzero, from_slice_reg_addr_bytes. }
  split; [done|]. split.
  - rewrite get_script_hash_by_registry_address_run by done. unfold mapping_state at 1.
    rewrite kv_get_put_eq. cbv zeta. by rewrite Hz.
  - intros b [Hb1 Hb2]. unfold mapping_registry_address_to_script_hash.
    erewrite st_lift_run by (by rewrite Hb2). erewrite st_lift_run by (by rewrite Hz).
    erewrite st_lift_run by (by rewrite Hb1).
    destruct Ha as [Ha _]. rewrite Hb1, <- Ha. erewrite st_bind_run by exact Hget.
    by erewrite st_lift_err.
Qed.
