(* ===== verification/StateDB.v ===== *)
(** * The journaled state database

    Models [crates/store/src/state/state_db.rs] (with [traits.rs] and
    [crates/traits/src/lib.rs]): [StateDB] keeps the changes made since the last
    [finalise] in memory, records how to undo each of them in a journal, and
    hands out revisions to revert to.

    The inner state is any implementation of the traits [State] ([StateOps]) and
    [CodeStore] ([CodeOps]); what it must promise is the class [StateView].
    Rust's [HashMap] iterates in an unspecified order, so the order in which
    [finalise] writes is a parameter ([MapIter]). *)
From Stdlib Require Import ZArith Lia Strings.Byte.
From stdpp Require Import prelude list gmap sorting.
From S2P Require Import Prelude Bytes Types State StateSpec.
Local Open Scope Z_scope.

(** ** [CodeStore] (crates/traits/src/lib.rs)

    [get_data] may record the access, so it returns the state. *)
Class CodeOps (St : Type) := {
  insert_script : H256 → Script → St → St;
  get_script : H256 → St → option Script;
  insert_data : H256 → bytes → St → St;
  get_data : H256 → St → option bytes * St;
}.

(** The iteration order of a [HashMap]: some permutation of its entries. *)
Class MapIter := {
  map_iter : ∀ {A}, gmap H256 A → list (H256 * A);
  map_iter_perm : ∀ {A} (m : gmap H256 A), map_iter m ≡ₚ map_to_list m;
}.

(** ** Data *)
Record LogItem := mkLogItem { log_account_id : Z; log_service_flag : Z; log_data : bytes }.

Inductive JournalEntry :=
| UpdateRaw (key : H256) (prev_value : option H256)
| SetAccountCount (prev_count : option Z)
| InsertScript (sh : H256) (prev_exist : bool)
| InsertData (dh : H256) (prev_exist : bool)
| AppendLog (index : nat).

Record Revision := mkRevision { rev_id : Z; journal_len : nat }.

Record StateTracker := mkStateTracker {
  touched_keys : gset H256;
  write_data : gmap H256 bytes;
  read_data : gmap H256 bytes;
}.
Definition touch_key (k : H256) (t : StateTracker) : StateTracker :=
  mkStateTracker ({[k]} ∪ touched_keys t) (write_data t) (read_data t).
Definition track_write (h : H256) (d : bytes) (t : StateTracker) : StateTracker :=
  mkStateTracker (touched_keys t) (<[h := d]> (write_data t)) (read_data t).
Definition track_read (h : H256) (d : bytes) (t : StateTracker) : StateTracker :=
  mkStateTracker (touched_keys t) (write_data t) (<[h := d]> (read_data t)).

(** The in-memory changes, the part of [StateDB] that the journal undoes. *)
Record Dirty := mkDirty {
  dirty_state : gmap H256 H256;
  dirty_account_count : option Z;
  dirty_scripts : gmap H256 Script;
  dirty_data : gmap H256 bytes;
  dirty_logs : list LogItem;
}.
Definition no_dirty : Dirty := mkDirty ∅ None ∅ ∅ [].

Record StateDB (S : Type) := mkStateDB {
  db_state : S;
  db_journal : list JournalEntry;
  next_revision_id : Z;
  revisions : list Revision;
  db_dirty : Dirty;
  state_tracker : option StateTracker;
  last_state_root : H256;
}.
Arguments mkStateDB {S}.
Arguments db_state {S}.
Arguments db_journal {S}.
Arguments next_revision_id {S}.
Arguments revisions {S}.
Arguments db_dirty {S}.
Arguments state_tracker {S}.
Arguments last_state_root {S}.

(** ** [slice::binary_search_by_key] on the revision ids

    The standard library's loop; [fuel] bounds its iterations, each of which
    shrinks [right - left]. *)
Fixpoint binary_search_loop (f : nat → comparison) (fuel left right : nat) : option nat :=
  match fuel with
  | O => None
  | S fuel =>
      if (left <? right)%nat then
        let mid := (left + (right - left) / 2)%nat in
        match f mid with
        | Lt => binary_search_loop f fuel (mid + 1) right
        | Gt => binary_search_loop f fuel left mid
        | Eq => Some mid
        end
      else None
  end.

(** [self.revisions.binary_search_by_key(&id, |r| r.id)]: the index, or the
    failure. *)
Definition find_revision (id : Z) (revs : list Revision) : option nat :=
  binary_search_loop
    (λ i, match revs !! i with Some r => Z.compare (rev_id r) id | None => Lt end)
    (S (length revs)) 0 (length revs).

(** One step of the replay in [revert]. *)
Definition undo_entry {E} (d : Dirty) (e : JournalEntry) : outcome E Dirty :=
  match e with
  | UpdateRaw key prev_value =>
      Ok (mkDirty (match prev_value with
                   | Some v => <[key := v]> (dirty_state d)
                   | None => delete key (dirty_state d)
                   end)
                  (dirty_account_count d) (dirty_scripts d) (dirty_data d) (dirty_logs d))
  | SetAccountCount prev_count =>
      Ok (mkDirty (dirty_state d) prev_count (dirty_scripts d) (dirty_data d) (dirty_logs d))
  | InsertScript sh prev_exist =>
      Ok (mkDirty (dirty_state d) (dirty_account_count d)
                  (if prev_exist then dirty_scripts d else delete sh (dirty_scripts d))
                  (dirty_data d) (dirty_logs d))
  | InsertData dh prev_exist =>
      Ok (mkDirty (dirty_state d) (dirty_account_count d) (dirty_scripts d)
                  (if prev_exist then dirty_data d else delete dh (dirty_data d))
                  (dirty_logs d))
  | AppendLog index =>
      if (length (dirty_logs d) =? index + 1)%nat
      then Ok (mkDirty (dirty_state d) (dirty_account_count d) (dirty_scripts d) (dirty_data d)
                       (take index (dirty_logs d)))
      else Panic
  end.

(** ** Operations *)
Section Ops.
Context {S : Type} `{StateOps S, CodeOps S}.
Context `{MapIter}.
Implicit Types (db : StateDB S) (d : Dirty).
Local Abbreviation M := (ST (StateDB S) StateError.t).

Definition StateDB_new (state : S) : outcome StateError.t (StateDB S) :=
  match calculate_root state with
  | (Ok root, state) => Ok (mkStateDB state [] 0 [] no_dirty None root)
  | _ => Panic
  end.

Definition with_tracker (f : StateTracker → StateTracker) db : StateDB S :=
  mkStateDB (db_state db) (db_journal db) (next_revision_id db) (revisions db)
    (db_dirty db) (f <$> state_tracker db) (last_state_root db).

Definition set_state_tracker (t : StateTracker) db : StateDB S :=
  mkStateDB (db_state db) (db_journal db) (next_revision_id db) (revisions db)
    (db_dirty db) (Some t) (last_state_root db).
Definition take_state_tracker db : option StateTracker * StateDB S :=
  (state_tracker db,
   mkStateDB (db_state db) (db_journal db) (next_revision_id db) (revisions db)
     (db_dirty db) None (last_state_root db)).

(** [self.journal.push(e)] followed by the change [d] of the dirty data *)
Definition record (e : JournalEntry) (d : Dirty) db : StateDB S :=
  mkStateDB (db_state db) (db_journal db ++ [e]) (next_revision_id db) (revisions db)
    d (state_tracker db) (last_state_root db).

Definition with_inner (s : S) db : StateDB S :=
  mkStateDB s (db_journal db) (next_revision_id db) (revisions db)
    (db_dirty db) (state_tracker db) (last_state_root db).

(** A call on the inner state. *)
Definition inner {A} (m : ST S StateError.t A) : M A := λ db,
  let (r, s) := m (db_state db) in (r, with_inner s db).

Definition is_dirty db : bool :=
  negb (bool_decide (db_journal db = [])) ||
  negb (bool_decide (revisions db = [])) ||
  bool_decide (is_Some (dirty_account_count (db_dirty db))) ||
  negb (bool_decide (dirty_state (db_dirty db) = ∅)) ||
  negb (bool_decide (dirty_scripts (db_dirty db) = ∅)) ||
  negb (bool_decide (dirty_data (db_dirty db) = ∅)) ||
  negb (bool_decide (dirty_logs (db_dirty db) = [])).

Definition clear_journal_and_dirty db : StateDB S :=
  mkStateDB (db_state db) [] (next_revision_id db) [] no_dirty
    (state_tracker db) (last_state_root db).

(** *** [JournalDB] *)
Definition snapshot : M Z := λ db,
  let id := next_revision_id db in
  match add_w 64 id 1 with
  | Ok next =>
      (Ok id,
       mkStateDB (db_state db) (db_journal db) next
         (revisions db ++ [mkRevision id (length (db_journal db))])
         (db_dirty db) (state_tracker db) (last_state_root db))
  | Err e => (Err e, db)
  | Panic => (Panic, db)
  end.

Definition revert (id : Z) : M unit := λ db,
  match find_revision id (revisions db) with
  | None => (Err StateError.Store, db)
  | Some rev_index =>
      match revisions db !! rev_index with
      | None => (Panic, db)
      | Some rev =>
          if (length (db_journal db) <? journal_len rev)%nat then (Panic, db)
          else
            match foldM undo_entry (db_dirty db)
                    (reverse (drop (journal_len rev) (db_journal db))) with
            | Ok d =>
                (Ok tt,
                 mkStateDB (db_state db) (take (journal_len rev) (db_journal db))
                   (next_revision_id db) (take rev_index (revisions db))
                   d (state_tracker db) (last_state_root db))
            | Err e => (Err e, db)
            | Panic => (Panic, db)
            end
      end
  end.

Definition append_log (log : LogItem) db : StateDB S :=
  let d := db_dirty db in
  record (AppendLog (length (dirty_logs d)))
    (mkDirty (dirty_state d) (dirty_account_count d) (dirty_scripts d) (dirty_data d)
             (dirty_logs d ++ [log])) db.
Definition appended_logs db : list LogItem := dirty_logs (db_dirty db).

(** *** [State] *)
Definition db_get_raw (key : H256) : M H256 := λ db,
  let db := with_tracker (touch_key key) db in
  match dirty_state (db_dirty db) !! key with
  | Some v => (Ok v, db)
  | None => inner (get_raw key) db
  end.

Definition db_update_raw (key value : H256) : M unit := λ db,
  let db := with_tracker (touch_key key) db in
  let d := db_dirty db in
  (Ok tt,
   record (UpdateRaw key (dirty_state d !! key))
     (mkDirty (<[key := value]> (dirty_state d)) (dirty_account_count d)
              (dirty_scripts d) (dirty_data d) (dirty_logs d)) db).

Definition db_get_account_count : M Z := λ db,
  match dirty_account_count (db_dirty db) with
  | Some count => (Ok count, db)
  | None => inner get_account_count db
  end.

Definition db_set_account_count (count : Z) : M unit := λ db,
  let d := db_dirty db in
  (Ok tt,
   record (SetAccountCount (dirty_account_count d))
     (mkDirty (dirty_state d) (Some count) (dirty_scripts d) (dirty_data d)
              (dirty_logs d)) db).

Definition db_calculate_root : M H256 := λ db,
  if is_dirty db then (Err StateError.Store, db) else inner calculate_root db.

#[export] Instance StateDB_ops : StateOps (StateDB S) := {
  get_raw := db_get_raw;
  update_raw := db_update_raw;
  get_account_count := db_get_account_count;
  set_account_count := db_set_account_count;
  calculate_root := db_calculate_root;
}.

(** *** [CodeStore] *)
Definition db_insert_script (sh : H256) (script : Script) db : StateDB S :=
  let d := db_dirty db in
  record (InsertScript sh (bool_decide (is_Some (dirty_scripts d !! sh))))
    (mkDirty (dirty_state d) (dirty_account_count d) (<[sh := script]> (dirty_scripts d))
             (dirty_data d) (dirty_logs d)) db.

Definition db_get_script (sh : H256) db : option Script :=
  match dirty_scripts (db_dirty db) !! sh with
  | Some script => Some script
  | None => get_script sh (db_state db)
  end.

Definition db_insert_data (dh : H256) (code : bytes) db : StateDB S :=
  let db := with_tracker (track_write dh code) db in
  let d := db_dirty db in
  record (InsertData dh (bool_decide (is_Some (dirty_data d !! dh))))
    (mkDirty (dirty_state d) (dirty_account_count d) (dirty_scripts d)
             (<[dh := code]> (dirty_data d)) (dirty_logs d)) db.

Definition db_get_data (dh : H256) db : option bytes * StateDB S :=
  let (data, db) :=
    match dirty_data (db_dirty db) !! dh with
    | Some data => (Some data, db)
    | None => let (data, s) := get_data dh (db_state db) in (data, with_inner s db)
    end in
  (data, match data with Some bs => with_tracker (track_read dh bs) db | None => db end).

#[export] Instance StateDB_code_ops : CodeOps (StateDB S) := {
  insert_script := db_insert_script;
  get_script := db_get_script;
  insert_data := db_insert_data;
  get_data := db_get_data;
}.

(** *** [finalise]: write the dirty data to the inner state *)
Definition write_scripts (l : list (H256 * Script)) (s : S) : S :=
  foldl (λ s '(h, script), insert_script h script s) s l.
Definition write_datas (l : list (H256 * bytes)) (s : S) : S :=
  foldl (λ s '(h, data), insert_data h data s) s l.
Definition set_last_state_root (root : H256) db : StateDB S :=
  mkStateDB (db_state db) (db_journal db) (next_revision_id db) (revisions db)
    (db_dirty db) (state_tracker db) root.

Definition write_dirty (d : Dirty) : ST S StateError.t unit :=
  (match dirty_account_count d with
   | Some count => set_account_count count
   | None => mret tt
   end) ;;
  st_for (map_iter (dirty_state d)) (λ '(k, v), update_raw k v) ;;
  modify (write_scripts (map_iter (dirty_scripts d))) ;;
  modify (write_datas (map_iter (dirty_data d))).

Definition finalise : M unit :=
  dirty ← gets is_dirty;
  if negb dirty then mret tt
  else
    d ← gets db_dirty;
    inner (write_dirty d) ;;
    modify clear_journal_and_dirty ;;
    root ← db_calculate_root;
    modify (set_last_state_root root).

(** *** [check_state]: the account table near both ends *)
Definition check_account (i : Z) : M unit :=
  sh ← get_script_hash i;
  lift (assert_that (negb (bool_decide (sh = h256_zero)))) ;;
  script ← gets (get_script sh);
  lift (assert_that (bool_decide (is_Some script))).

Definition check_state : M unit :=
  count ← get_account_count;
  non_exit_account ← get_script_hash count;
  lift (assert_that (bool_decide (non_exit_account = h256_zero))) ;;
  st_for (seqZ 0 (Z.min 100 count)) check_account ;;
  st_for (seqZ (saturating_sub count 100) (count - saturating_sub count 100)) check_account.
End Ops.

(** ** The binary search finds a revision id *)
Section Search.
Implicit Types (f : nat → comparison) (fuel l r i t : nat).

Lemma binary_search_sound f fuel l r i :
  binary_search_loop f fuel l r = Some i → (l ≤ i < r)%nat ∧ f i = Eq.
Proof.
  revert l r. induction fuel as [|fuel IH]; intros l r Hs; [done|].
  cbn [binary_search_loop] in Hs. destruct (Nat.ltb_spec l r) as [Hlr|]; [|done].
  pose proof (Nat.div_lt (r - l) 2 ltac:(lia) ltac:(lia)).
  cbv zeta in Hs. destruct (f (l + (r - l) / 2)%nat) eqn:E.
  - apply (inj Some) in Hs as <-. split; [lia|done].
  - apply IH in Hs. destruct Hs. split; [lia|done].
  - apply IH in Hs. destruct Hs. split; [lia|done].
Qed.

Lemma binary_search_complete f fuel l r t :
  (r - l < fuel)%nat → (l ≤ t < r)%nat → f t = Eq →
  (∀ i, (l ≤ i < t)%nat → f i = Lt) → (∀ i, (t < i < r)%nat → f i = Gt) →
  binary_search_loop f fuel l r = Some t.
Proof.
  revert l r. induction fuel as [|fuel IH]; intros l r Hf Ht He Hlt Hgt; [lia|].
  cbn [binary_search_loop]. destruct (Nat.ltb_spec l r); [|lia].
  pose proof (Nat.div_lt (r - l) 2 ltac:(lia) ltac:(lia)).
  cbv zeta. set (mid := (l + (r - l) / 2)%nat).
  destruct (lt_eq_lt_dec mid t) as [[Hm|Hm]|Hm].
  - rewrite Hlt by lia. apply IH; try done; intros; (apply Hlt || apply Hgt || lia); lia.
  - subst mid. by rewrite Hm, He.
  - rewrite Hgt by lia. apply IH; try done; intros; (apply Hlt || apply Hgt || lia); lia.
Qed.
End Search.

(** The order invariant of the revisions: ids grow, and so do the journal
    lengths they point to. *)
Definition rev_lt (a b : Revision) : Prop :=
  rev_id a < rev_id b ∧ (journal_len a ≤ journal_len b)%nat.

Record revisions_wf (revs : list Revision) (next : Z) (jlen : nat) : Prop := {
  rw_sorted : StronglySorted rev_lt revs;
  rw_bound : Forall (λ r, 0 ≤ rev_id r < next ∧ (journal_len r ≤ jlen)%nat) revs;
}.

Lemma sorted_lookup_lt (revs : list Revision) i j a b :
  StronglySorted rev_lt revs → revs !! i = Some a → revs !! j = Some b →
  (i < j)%nat → rev_lt a b.
Proof.
  intros Hs. revert i j. induction Hs as [|r revs Hs IH Hall]; intros i j Ha Hb Hij; [done|].
  destruct j as [|j]; [lia|]. destruct i as [|i]; cbn in *.
  - injection Ha as ->. rewrite Forall_forall in Hall.
    by eapply Hall, list_elem_of_lookup_2.
  - eapply IH; [done..|lia].
Qed.

(** On sorted revisions the search returns exactly the index of the id. *)
Lemma find_revision_spec revs next jlen id i :
  revisions_wf revs next jlen →
  find_revision id revs = Some i ↔ ∃ r, revs !! i = Some r ∧ rev_id r = id.
Proof.
  intros [Hs _]. unfold find_revision. split.
  - intros Hf. apply binary_search_sound in Hf as [Hi He].
    destruct (revs !! i) as [r|]; [|done]. exists r. split; [done|].
    by apply Z.compare_eq_iff.
  - intros (r & Hr & Hid). assert (i < length revs)%nat by (by eapply lookup_lt_Some).
    apply binary_search_complete; [lia|lia|..].
    + rewrite Hr, Hid. apply Z.compare_refl.
    + intros j Hj. destruct (lookup_lt_is_Some_2 revs j ltac:(lia)) as [q Hq]. rewrite Hq.
      pose proof (sorted_lookup_lt revs j i q r Hs Hq Hr ltac:(lia)) as [? _].
      apply Z.compare_lt_iff. lia.
    + intros j Hj. destruct (lookup_lt_is_Some_2 revs j ltac:(lia)) as [q Hq]. rewrite Hq.
      pose proof (sorted_lookup_lt revs i j r q Hs Hr Hq ltac:(lia)) as [? _].
      apply Z.compare_gt_iff. lia.
Qed.

Lemma revisions_wf_snoc revs next jlen :
  0 ≤ next → revisions_wf revs next jlen →
  revisions_wf (revs ++ [mkRevision next jlen]) (next + 1) jlen.
Proof.
  intros Hn [Hs Hb]. split.
  - clear Hn. induction Hs as [|r revs Hs IH Hall]; cbn; [repeat constructor|].
    apply Forall_cons in Hb as [Hr Hb]. constructor; [by apply IH|].
    apply Forall_app. split; [done|]. repeat constructor; cbn; lia.
  - apply Forall_app. split; [|repeat constructor; cbn; lia].
    eapply Forall_impl; [exact Hb|]. cbn. intros; lia.
Qed.

Lemma revisions_wf_grow revs next jlen jlen' :
  (jlen ≤ jlen')%nat → revisions_wf revs next jlen → revisions_wf revs next jlen'.
Proof.
  intros ? [Hs Hb]. split; [done|]. eapply Forall_impl; [exact Hb|]. cbn. intros; lia.
Qed.

(** Truncating to the revisions before index [i] leaves a journal of the length
    that revision recorded. *)
Lemma revisions_wf_truncate revs next jlen i r :
  revisions_wf revs next jlen → revs !! i = Some r →
  revisions_wf (take i revs) next (journal_len r).
Proof.
  intros [Hs Hb] Hr. split.
  - rewrite <- (take_drop i revs) in Hs. by apply StronglySorted_app in Hs as (_ & ? & _).
  - apply Forall_lookup. intros j q Hq.
    assert (Hj : (j < i)%nat) by (apply lookup_lt_Some in Hq; rewrite length_take in Hq; lia).
    rewrite lookup_take_lt in Hq by done.
    rewrite Forall_lookup in Hb. split; [apply (Hb j q Hq)|].
    apply (sorted_lookup_lt revs j i q r Hs Hq Hr Hj).
Qed.

(** ** Views

    What a client can read of a state, with pointwise equality. *)
Record View := mkView {
  v_kv : H256 → H256;
  v_count : Z;
  v_script : H256 → option Script;
  v_data : H256 → option bytes;
}.
#[export] Instance View_equiv : Equiv View := λ a b,
  (∀ k, v_kv a k = v_kv b k) ∧ v_count a = v_count b ∧
  (∀ h, v_script a h = v_script b h) ∧ (∀ h, v_data a h = v_data b h).
#[export] Instance View_equivalence : Equivalence (≡@{View}).
Proof.
  split.
  - by intros a.
  - intros a b (?&?&?&?). repeat split; auto.
  - intros a b c (Ha&?&Hb&Hc) (Ha'&?&Hb'&Hc').
    repeat split; intros; rewrite ?Ha, ?Hb, ?Hc; auto; congruence.
Qed.

Definition view_put (k v : H256) (V : View) : View :=
  mkView (λ k', if decide (k = k') then v else v_kv V k') (v_count V) (v_script V) (v_data V).
Definition view_set_count (c : Z) (V : View) : View :=
  mkView (v_kv V) c (v_script V) (v_data V).
Definition view_add_script (h : H256) (s : Script) (V : View) : View :=
  mkView (v_kv V) (v_count V) (λ h', if decide (h = h') then Some s else v_script V h') (v_data V).
Definition view_add_data (h : H256) (d : bytes) (V : View) : View :=
  mkView (v_kv V) (v_count V) (v_script V) (λ h', if decide (h = h') then Some d else v_data V h').

(** The dirty data laid over the view of the inner state. *)
Definition overlay (d : Dirty) (V : View) : View :=
  mkView (λ k, default (v_kv V k) (dirty_state d !! k))
         (default (v_count V) (dirty_account_count d))
         (λ h, match dirty_scripts d !! h with Some s => Some s | None => v_script V h end)
         (λ h, match dirty_data d !! h with Some b => Some b | None => v_data V h end).

Ltac solve_view :=
  intros; unfold equiv, View_equiv in *; cbn in *; destruct_and?; repeat split; intros;
  repeat case_decide; repeat case_match; simplify_eq; eauto; congruence.

#[export] Instance view_put_proper k v : Proper ((≡) ==> (≡)) (view_put k v).
Proof. intros [] [] ?. solve_view. Qed.
#[export] Instance view_set_count_proper c : Proper ((≡) ==> (≡)) (view_set_count c).
Proof. intros [] [] ?. solve_view. Qed.
#[export] Instance view_add_script_proper h s : Proper ((≡) ==> (≡)) (view_add_script h s).
Proof. intros [] [] ?. solve_view. Qed.
#[export] Instance view_add_data_proper h d : Proper ((≡) ==> (≡)) (view_add_data h d).
Proof. intros [] [] ?. solve_view. Qed.
#[export] Instance overlay_proper d : Proper ((≡) ==> (≡)) (overlay d).
Proof.
  intros [] [] (Ha&Hc&Hs&Hd). cbn in *. repeat split; intros; cbn;
    rewrite ?Ha, ?Hc, ?Hs, ?Hd; done.
Qed.

(** ** What [StateDB] expects of the inner state

    [view_ok] is the implementation's own invariant; reads agree with [view]
    and change nothing, writes succeed and have their effect on [view]. *)
Class StateView (S : Type) `{StateOps S, CodeOps S} := {
  view_ok : S → Prop;
  view : S → View;
  view_root : S → H256;
  view_get_raw s k : view_ok s → get_raw k s = (Ok (v_kv (view s) k), s);
  view_get_account_count s : view_ok s → get_account_count s = (Ok (v_count (view s)), s);
  view_calculate_root s : view_ok s → calculate_root s = (Ok (view_root s), s);
  view_get_script s h : view_ok s → get_script h s = v_script (view s) h;
  view_get_data s h : view_ok s → get_data h s = (v_data (view s) h, s);
  view_update_raw s k v : view_ok s →
    ∃ s', update_raw k v s = (Ok tt, s') ∧ view_ok s' ∧ view s' ≡ view_put k v (view s);
  view_set_account_count s c : view_ok s →
    ∃ s', set_account_count c s = (Ok tt, s') ∧ view_ok s' ∧ view s' ≡ view_set_count c (view s);
  view_insert_script s h x : view_ok s →
    view_ok (insert_script h x s) ∧ view (insert_script h x s) ≡ view_add_script h x (view s);
  view_insert_data s h x : view_ok s →
    view_ok (insert_data h x s) ∧ view (insert_data h x s) ≡ view_add_data h x (view s);
}.

(** ** Reverting to a snapshot *)
(** Operations on the database, as data. *)
Inductive db_op :=
| DbGetRaw (k : H256)
| DbUpdateRaw (k v : H256)
| DbSetAccountCount (c : Z)
| DbInsertScript (h : H256) (s : Script)
| DbInsertData (h : H256) (b : bytes)
| DbGetData (h : H256)
| DbAppendLog (l : LogItem)
| DbSnapshot
| DbRevert (id : Z).

(** Undoing an insertion under a key that was already there keeps the new contents:
    the code takes it that a hash always comes with the same contents.  [script_ok]
    and [data_ok] say which contents belong to a hash: for instance those that have
    it ([own_script], [own_data]), or one for each ([the]). *)
Section Content.
Context (script_ok : H256 → Script → Prop) (data_ok : H256 → bytes → Prop).

Definition content_ok (d : Dirty) : Prop :=
  (∀ h s, dirty_scripts d !! h = Some s → script_ok h s) ∧
  (∀ h b, dirty_data d !! h = Some b → data_ok h b).

Definition op_content_ok (o : db_op) : Prop :=
  match o with
  | DbInsertScript h s => script_ok h s
  | DbInsertData h b => data_ok h b
  | _ => True
  end.
End Content.
Definition the {A} (f : H256 → A) (h : H256) (x : A) : Prop := x = f h.
Definition own_script `{Blake2b, Molecule} (h : H256) (s : Script) : Prop := h = script_hash s.
Definition own_data `{Blake2b} (h : H256) (b : bytes) : Prop := h = blake2b b.

(** The same dirty data, but for the contents kept under a hash *)
#[export] Instance dirty_equiv : Equiv Dirty := λ d d',
  dirty_state d = dirty_state d' ∧ dirty_account_count d = dirty_account_count d' ∧
  dirty_logs d = dirty_logs d' ∧ dom (dirty_scripts d) = dom (dirty_scripts d') ∧
  dom (dirty_data d) = dom (dirty_data d').
#[export] Instance dirty_equivalence : Equivalence (≡@{Dirty}).
Proof.
  split.
  - intros d. done.
  - intros d d' (?&?&?&?&?). done.
  - intros d d' d'' (?&?&?&?&?) (?&?&?&?&?). split_and!; by etrans.
Qed.
Lemma undo_entry_equiv {E} e d d' d1 :
  d ≡ d' → undo_entry (E:=E) d e = Ok d1 → ∃ d1', undo_entry (E:=E) d' e = Ok d1' ∧ d1 ≡ d1'.
Proof.
  intros (Es & Ec & El & Esc & Ed) Hu. destruct e as [k [v|]|c|h [|]|h [|]|i]; cbn in *; simplify_eq;
    try (eexists; split; [done|]; split_and!; cbn; rewrite ?dom_delete_L; congruence).
  rewrite <- El. case_match; [|done]. simplify_eq. eexists. split; [done|]. split_and!; cbn; congruence.
Qed.
Lemma undo_entries_equiv {E} es d d' d1 :
  d ≡ d' → foldM (undo_entry (E:=E)) d es = Ok d1 → ∃ d1', foldM (undo_entry (E:=E)) d' es = Ok d1' ∧ d1 ≡ d1'.
Proof.
  revert d d'. induction es as [|e es IH]; intros d d' Hd Hu; cbn in *; inv_ok; [by exists d'|].
  rename select (undo_entry d e = Ok _) into He. destruct (undo_entry_equiv _ _ _ _ Hd He) as (d2 & -> & Hd2).
  cbn. by eapply IH.
Qed.
(** With one content for each hash nothing is lost. *)
Lemma equiv_content scripts datas d d' :
  content_ok (the scripts) (the datas) d → content_ok (the scripts) (the datas) d' → d ≡ d' → d = d'.
Proof.
  assert (Hmap : ∀ A (f : H256 → A) (m m' : gmap H256 A),
    (∀ h x, m !! h = Some x → the f h x) → (∀ h x, m' !! h = Some x → the f h x) → dom m = dom m' → m = m').
  { intros A f m m' Hm Hm' Hdom. apply map_eq. intros h. apply option_eq. intros x.
    assert (Hin : h ∈ dom m ↔ h ∈ dom m') by (by rewrite Hdom). rewrite !elem_of_dom in Hin.
    split; intros Hx.
    - destruct (proj1 Hin) as [y Hy]; [by eexists|]. by rewrite Hy, (Hm _ _ Hx), (Hm' _ _ Hy).
    - destruct (proj2 Hin) as [y Hy]; [by eexists|]. by rewrite Hy, (Hm _ _ Hy), (Hm' _ _ Hx). }
  destruct d, d'. intros [Hs Hd] [Hs' Hd'] (Es & Ec & El & Esc & Edt). cbn in *.
  rewrite (Hmap _ _ _ _ Hs Hs' Esc), (Hmap _ _ _ _ Hd Hd' Edt). congruence.
Qed.
Lemma equiv_no_dirty d : d ≡ no_dirty → d = no_dirty.
Proof.
  destruct d. intros (?&?&?&Hs%dom_empty_iff_L&Hd%dom_empty_iff_L). cbn in *. by simplify_eq.
Qed.

Section Revert.
Context {S : Type} `{StateView S}.
Context (script_ok : H256 → Script → Prop) (data_ok : H256 → bytes → Prop).
Implicit Types (db : StateDB S) (d : Dirty).

Definition run_db_op (o : db_op) : ST (StateDB S) StateError.t unit :=
  match o with
  | DbGetRaw k => get_raw k ;; mret tt
  | DbUpdateRaw k v => update_raw k v
  | DbSetAccountCount c => set_account_count c
  | DbInsertScript h s => modify (insert_script h s)
  | DbInsertData h b => modify (insert_data h b)
  | DbGetData h => λ db, (Ok tt, (get_data h db).2)
  | DbAppendLog l => modify (append_log l)
  | DbSnapshot => snapshot ;; mret tt
  | DbRevert id => revert id
  end.

(** The database invariant. *)
Record db_wf db : Prop := {
  wf_inner : view_ok (db_state db);
  wf_next : 0 ≤ next_revision_id db;
  wf_revisions : revisions_wf (revisions db) (next_revision_id db) (length (db_journal db));
  wf_content : content_ok script_ok data_ok (db_dirty db);
}.

(** Undoing keeps only contents that were there. *)
Lemma undo_entry_content d e d' :
  content_ok script_ok data_ok d → undo_entry (E:=StateError.t) d e = Ok d' →
  content_ok script_ok data_ok d'.
Proof.
  intros [Hs Hd] Hu. destruct e; cbn in Hu; repeat case_match; inv_ok; cbn;
    split; cbn; intros ??; rewrite ?lookup_delete_Some; naive_solver.
Qed.
Lemma undo_entries_content es d d' :
  content_ok script_ok data_ok d → foldM (undo_entry (E:=StateError.t)) d es = Ok d' →
  content_ok script_ok data_ok d'.
Proof.
  revert d. induction es as [|e es IH]; intros d Hc Hu; cbn in Hu; inv_ok; [done|].
  eauto using undo_entry_content.
Qed.

(** [pushes db e db']: [db'] is [db] after recording [e], which undoes the
    change, up to the contents under a hash. *)
Definition pushes db (e : JournalEntry) db' : Prop :=
  db_state db' = db_state db ∧ db_journal db' = db_journal db ++ [e] ∧
  next_revision_id db' = next_revision_id db ∧ revisions db' = revisions db ∧
  last_state_root db' = last_state_root db ∧
  (∃ d, undo_entry (E:=StateError.t) (db_dirty db') e = Ok d ∧ d ≡ db_dirty db) ∧
  content_ok script_ok data_ok (db_dirty db').

Lemma pushes_wf db e db' : db_wf db → pushes db e db' → db_wf db'.
Proof.
  intros [] (E1&E2&E3&E4&E5&E6&E7). split; rewrite ?E1, ?E2, ?E3, ?E4; try done.
  eapply revisions_wf_grow; [|done]. rewrite length_app. lia.
Qed.

Lemma update_raw_pushes db k v :
  db_wf db → ∃ e db', update_raw k v db = (Ok tt, db') ∧ pushes db e db'.
Proof.
  intros [_ _ _ Hc]. eexists _, _. split; [reflexivity|]. repeat split; cbn; try apply Hc.
  eexists. split; [done|]. destruct db as [? ? ? ? [ds ? ? ? ?]]; cbn. split_and!; try done. cbn.
  destruct (ds !! k) as [w|] eqn:E.
  - by rewrite insert_insert, decide_True, insert_id by done.
  - by rewrite delete_insert_id.
Qed.
Lemma set_account_count_pushes db c :
  db_wf db → ∃ e db', set_account_count c db = (Ok tt, db') ∧ pushes db e db'.
Proof.
  intros [_ _ _ Hc]. eexists _, _. split; [reflexivity|]. repeat split; cbn; try apply Hc.
  by eexists.
Qed.
Lemma undone_dom {A} (m : gmap H256 A) h x :
  dom (if bool_decide (is_Some (m !! h)) then <[h := x]> m else delete h (<[h := x]> m)) = dom m.
Proof.
  case_bool_decide as Hm.
  - rewrite dom_insert_L. apply elem_of_dom in Hm. set_solver.
  - by rewrite delete_insert_id by (by apply eq_None_not_Some).
Qed.
Lemma insert_script_pushes db h s :
  db_wf db → script_ok h s → ∃ e, pushes db e (insert_script h s db).
Proof.
  intros [_ _ _ [Hs Hd]] Hx. eexists. repeat split; cbn; try apply Hd.
  - eexists. split; [done|]. split_and!; try done. cbn. by apply undone_dom.
  - intros h' s' [[-> <-]|[_ ?]]%lookup_insert_Some; eauto.
Qed.
Lemma insert_data_pushes db h b :
  db_wf db → data_ok h b → ∃ e, pushes db e (insert_data h b db).
Proof.
  intros [_ _ _ [Hs Hd]] Hx. eexists. repeat split; cbn; try apply Hs.
  - eexists. split; [done|]. split_and!; try done. cbn. by apply undone_dom.
  - intros h' s' [[-> <-]|[_ ?]]%lookup_insert_Some; eauto.
Qed.
Lemma append_log_pushes db l : db_wf db → ∃ e, pushes db e (append_log l db).
Proof.
  intros [_ _ _ Hc]. eexists. repeat split; cbn; try apply Hc.
  rewrite length_app. cbn [length]. rewrite Nat.eqb_refl, take_app_length. by eexists.
Qed.

(** Reads change nothing but the tracker. *)
Definition same_but_tracker db db' : Prop :=
  db_state db' = db_state db ∧ db_journal db' = db_journal db ∧
  next_revision_id db' = next_revision_id db ∧ revisions db' = revisions db ∧
  last_state_root db' = last_state_root db ∧ db_dirty db' = db_dirty db.

Lemma get_raw_same db k r db' :
  view_ok (db_state db) → get_raw k db = (r, db') → same_but_tracker db db'.
Proof.
  intros Hv Hg. cbn in Hg. unfold db_get_raw, inner in Hg. cbn in Hg.
  rewrite view_get_raw in Hg by done. case_match; simplify_eq; done.
Qed.
Lemma get_data_same db h :
  view_ok (db_state db) → same_but_tracker db (get_data h db).2.
Proof.
  intros Hv. cbn. unfold db_get_data. rewrite view_get_data by done.
  repeat case_match; simplify_eq; done.
Qed.
Lemma same_wf db db' : db_wf db → same_but_tracker db db' → db_wf db'.
Proof. intros [] (E1&E2&E3&E4&E5&E6). split; by rewrite ?E1, ?E2, ?E3, ?E4, ?E6. Qed.

Lemma snapshot_run db :
  next_revision_id db + 1 < 2 ^ 64 →
  snapshot db = (Ok (next_revision_id db),
    mkStateDB (db_state db) (db_journal db) (next_revision_id db + 1)
      (revisions db ++ [mkRevision (next_revision_id db) (length (db_journal db))])
      (db_dirty db) (state_tracker db) (last_state_root db)).
Proof.
  intros Hn. unfold snapshot, add_w, checked_add. by rewrite (proj2 (Z.ltb_lt _ _)).
Qed.
Lemma snapshot_Ok db id db' :
  snapshot db = (Ok id, db') → next_revision_id db + 1 < 2 ^ 64.
Proof.
  unfold snapshot, add_w, checked_add.
  destruct (Z.ltb_spec (next_revision_id db + 1) (2 ^ 64)); cbn; naive_solver.
Qed.

(** A successful [revert], taken apart. *)
Lemma revert_Ok db id db' :
  db_wf db → revert id db = (Ok tt, db') ↔
  ∃ i r d, revisions db !! i = Some r ∧ rev_id r = id ∧
    foldM (undo_entry (E:=StateError.t)) (db_dirty db)
      (reverse (drop (journal_len r) (db_journal db))) = Ok d ∧
    db' = mkStateDB (db_state db) (take (journal_len r) (db_journal db)) (next_revision_id db)
            (take i (revisions db)) d (state_tracker db) (last_state_root db).
Proof.
  intros [_ _ Hr _]. unfold revert. destruct (find_revision id (revisions db)) as [i|] eqn:Hf.
  - apply (find_revision_spec _ _ _ id i Hr) in Hf as (r & Hl & Hid). rewrite Hl.
    pose proof (rw_bound _ _ _ Hr) as Hb. rewrite Forall_lookup in Hb.
    pose proof (Hb i r Hl) as [_ Hj]. rewrite (proj2 (Nat.ltb_ge _ _)) by lia.
    split.
    + intros Hrun. case_match; [|done|done]. simplify_eq. eauto 10.
    + intros (i' & r' & d & Hl' & Hid' & Hu & ->).
      assert (i' = i) as ->; [|by simplify_eq; rewrite Hu].
      destruct (lt_eq_lt_dec i i') as [[Hi|Hi]|Hi]; [|done|]; exfalso.
      * destruct (sorted_lookup_lt _ i i' r r' (rw_sorted _ _ _ Hr)); auto; lia.
      * destruct (sorted_lookup_lt _ i' i r' r (rw_sorted _ _ _ Hr)); auto; lia.
  - split; [done|]. intros (i & r & d & Hl & Hid & _).
    rewrite (proj2 (find_revision_spec _ _ _ id i Hr)) in Hf by eauto. done.
Qed.

Lemma revert_wf db id db' : db_wf db → revert id db = (Ok tt, db') → db_wf db'.
Proof.
  intros Hwf Hrun. apply revert_Ok in Hrun as (i & r & d & Hl & Hid & Hu & ->); [|done].
  destruct Hwf as [Hv Hn Hr Hc]. split; cbn; try done.
  - pose proof (rw_bound _ _ _ Hr) as Hb. rewrite Forall_lookup in Hb.
    pose proof (Hb i r Hl) as [_ Hj]. rewrite length_take, Nat.min_l by done.
    by eapply revisions_wf_truncate.
  - by eapply undo_entries_content.
Qed.

(** [db] grew out of [base] since the snapshot [id] of [base]: its journal
    extends the one of [base], undoing the extension gives back the dirty data
    of [base] up to the contents under a hash, and the revision [id] is still there. *)
Definition since (base : StateDB S) db : Prop :=
  db_wf db ∧ ∃ es rs,
    db_state db = db_state base ∧
    last_state_root db = last_state_root base ∧
    db_journal db = db_journal base ++ es ∧
    (∃ d, foldM (undo_entry (E:=StateError.t)) (db_dirty db) (reverse es) = Ok d ∧ d ≡ db_dirty base) ∧
    revisions db = revisions base
      ++ mkRevision (next_revision_id base) (length (db_journal base)) :: rs.

Lemma since_pushes base db e db' : since base db → pushes db e db' → since base db'.
Proof.
  intros [Hwf (es & rs & E1 & E2 & E3 & E4 & E5)] Hp.
  split; [by eapply pushes_wf|]. destruct Hp as (F1&F2&F3&F4&F5&F6&F7).
  exists (es ++ [e]), rs. rewrite F1, F2, F4, F5, E3. repeat split; try done.
  - by rewrite (assoc_L app).
  - destruct E4 as (d & Hd & Hdb), F6 as (d1 & F6 & Hd1). rewrite reverse_snoc. cbn. rewrite F6. cbn.
    symmetry in Hd1. destruct (undo_entries_equiv _ _ _ _ Hd1 Hd) as (d2 & -> & Hd2). exists d2.
    split; [done|]. by rewrite <- Hd2.
Qed.

Lemma since_same base db db' : since base db → same_but_tracker db db' → since base db'.
Proof.
  intros [Hwf (es & rs & E1 & E2 & E3 & E4 & E5)] Hs.
  split; [by eapply same_wf|]. destruct Hs as (F1&F2&F3&F4&F5&F6).
  exists es, rs. by rewrite F1, F2, F4, F5, F6.
Qed.

Lemma since_snapshot base db id db' :
  since base db → snapshot db = (Ok id, db') → since base db'.
Proof.
  intros [[] (es & rs & E1 & E2 & E3 & E4 & E5)] Hrun.
  rewrite snapshot_run in Hrun by (by eapply snapshot_Ok). simplify_eq. split.
  - split; cbn; try done; [lia|]. by apply revisions_wf_snoc.
  - exists es, (rs ++ [mkRevision (next_revision_id db) (length (db_journal db))]). cbn.
    repeat split; try done. rewrite E5. by rewrite <- (assoc_L app).
Qed.

(** A nested revert to a revision taken after [base]. *)
Lemma since_revert base db id db' :
  since base db → next_revision_id base < id →
  revert id db = (Ok tt, db') → since base db'.
Proof.
  intros [Hwf (es & rs & E1 & E2 & E3 & E4 & E5)] Hid Hrun.
  split; [by eapply revert_wf|].
  apply revert_Ok in Hrun as (i & r & d & Hl & <- & Hu & ->); [|done]. cbn.
  pose proof (rw_sorted _ _ _ (wf_revisions _ Hwf)) as Hs.
  set (b := length (revisions base)).
  assert (Hb : revisions db !! b
               = Some (mkRevision (next_revision_id base) (length (db_journal base)))).
  { rewrite E5. by apply list_lookup_middle. }
  assert (Hbi : (b < i)%nat).
  { destruct (lt_eq_lt_dec i b) as [[Hi|Hi]|Hi]; [|subst i; simplify_eq; cbn in *; lia|done].
    destruct (sorted_lookup_lt _ _ _ _ _ Hs Hl Hb Hi) as [Hlt _]. cbn in Hlt. lia. }
  destruct (sorted_lookup_lt _ _ _ _ _ Hs Hb Hl Hbi) as [_ Hlen]. cbn in Hlen.
  set (k := (journal_len r - length (db_journal base))%nat).
  exists (take k es), (take (i - b - 1) rs).
  rewrite E3, drop_app_ge in Hu by lia. fold k in Hu.
  repeat split; try done.
  - by rewrite E3, take_app_ge by lia.
  - destruct E4 as (d0 & E4 & Hd0). exists d0. split; [|done].
    rewrite <- (take_drop k es), reverse_app, foldM_app, Hu in E4. exact E4.
  - rewrite E5, take_app_ge by (subst b; lia). f_equal. fold b.
    destruct (i - b)%nat as [|n] eqn:En; [lia|]. cbn. do 2 f_equal. lia.
Qed.

Lemma since_op base db o db' :
  since base db → op_content_ok script_ok data_ok o →
  (∀ id, o = DbRevert id → next_revision_id base < id) →
  run_db_op o db = (Ok tt, db') → since base db'.
Proof.
  intros Hs Hc Hid Hrun. pose proof Hs as [Hwf _]. pose proof (wf_inner _ Hwf) as Hv.
  destruct o as [k|k v|c|h x|h x|h|l| |id]; cbn [run_db_op op_content_ok] in *.
  - inv_ok. eauto using since_same, get_raw_same.
  - destruct (update_raw_pushes db k v Hwf) as (e&db1&E&Hp).
    rewrite E in Hrun. simplify_eq. by eapply since_pushes.
  - destruct (set_account_count_pushes db c Hwf) as (e&db1&E&Hp).
    rewrite E in Hrun. simplify_eq. by eapply since_pushes.
  - destruct (insert_script_pushes db h x Hwf Hc) as (e&Hp).
    injection Hrun as <-. by eapply since_pushes.
  - destruct (insert_data_pushes db h x Hwf Hc) as (e&Hp).
    injection Hrun as <-. by eapply since_pushes.
  - injection Hrun as <-. eapply since_same; [done|by apply get_data_same].
  - destruct (append_log_pushes db l Hwf) as (e&Hp).
    injection Hrun as <-. by eapply since_pushes.
  - inv_ok. by eapply since_snapshot.
  - eauto using since_revert.
Qed.

Lemma since_ops base db ops db' :
  since base db → Forall (op_content_ok script_ok data_ok) ops →
  Forall (λ o, ∀ id, o = DbRevert id → next_revision_id base < id) ops →
  st_for ops run_db_op db = (Ok tt, db') → since base db'.
Proof.
  intros Hs Hc. revert db Hs. induction Hc as [|o ops Ho _ IH]; intros db Hs Hid Hrun.
  - by injection Hrun as <-.
  - apply Forall_cons in Hid as [Hi Hid]. cbn [st_for] in Hrun. inv_ok. eauto using since_op.
Qed.

Lemma since_start db id db' :
  db_wf db → snapshot db = (Ok id, db') → since db db' ∧ id = next_revision_id db.
Proof.
  intros [] Hrun. rewrite snapshot_run in Hrun by (by eapply snapshot_Ok). simplify_eq.
  split; [|done]. split.
  - split; cbn; try done; [lia|]. by apply revisions_wf_snoc.
  - exists [], []. cbn. rewrite app_nil_r. split_and!; try done. by eexists.
Qed.

(** Reverting to [base]'s snapshot puts everything back, up to the contents under a
    hash. *)
Lemma since_end base db :
  since base db →
  ∃ db', revert (next_revision_id base) db = (Ok tt, db') ∧
    db_state db' = db_state base ∧ db_journal db' = db_journal base ∧
    revisions db' = revisions base ∧ db_dirty db' ≡ db_dirty base ∧
    last_state_root db' = last_state_root base.
Proof.
  intros [Hwf (es & rs & E1 & E2 & E3 & (d & E4 & Hd) & E5)]. eexists. split.
  - apply revert_Ok; [done|].
    exists (length (revisions base)),
      (mkRevision (next_revision_id base) (length (db_journal base))), d.
    split; [rewrite E5; by apply list_lookup_middle|]. split; [done|]. cbn.
    rewrite E3, drop_app_length. split; [done|]. reflexivity.
  - cbn. by rewrite E5, !take_app_length.
Qed.
(** Running operations that may also revert past [base]: then the revision of
    [base] is gone for good, since identifiers are never reused. *)
Definition gone (base : StateDB S) db : Prop :=
  db_wf db ∧ next_revision_id base < next_revision_id db ∧
  Forall (λ r, rev_id r ≠ next_revision_id base) (revisions db).

Lemma since_next base db : since base db → next_revision_id base < next_revision_id db.
Proof.
  intros [Hwf (es & rs & _ & _ & _ & _ & E)].
  pose proof (rw_bound _ _ _ (wf_revisions _ Hwf)) as Hb. rewrite E, Forall_app, Forall_cons in Hb.
  destruct Hb as (_ & [Hb _] & _). cbn in Hb. lia.
Qed.

Lemma gone_pushes base db e db' : gone base db → pushes db e db' → gone base db'.
Proof.
  intros (Hwf & Hn & Hr) Hp. split; [by eapply pushes_wf|].
  destruct Hp as (_ & _ & -> & -> & _). done.
Qed.
Lemma gone_same base db db' : gone base db → same_but_tracker db db' → gone base db'.
Proof.
  intros (Hwf & Hn & Hr) Hs. split; [by eapply same_wf|].
  destruct Hs as (_ & _ & -> & -> & _). done.
Qed.

Lemma gone_snapshot base db id db' :
  gone base db → snapshot db = (Ok id, db') → gone base db'.
Proof.
  intros ([] & Hn & Hr) Hrun.
  rewrite snapshot_run in Hrun by (by eapply snapshot_Ok). simplify_eq. split; [|split; cbn; [lia|]].
  - split; cbn; try done; [lia|]. by apply revisions_wf_snoc.
  - apply Forall_app. split; [done|]. apply Forall_singleton. cbn. lia.
Qed.

Lemma gone_revert base db id db' :
  gone base db → revert id db = (Ok tt, db') → gone base db'.
Proof.
  intros (Hwf & Hn & Hr) Hrun. pose proof (revert_wf _ _ _ Hwf Hrun) as Hwf'.
  apply revert_Ok in Hrun as (i & r & d & _ & _ & _ & ->); [|done].
  split; [done|]. split; [done|]. cbn. by apply Forall_take.
Qed.

(** Reverting to the revision of [base] or an earlier one loses it. *)
Lemma since_lost base db id db' :
  since base db → id ≤ next_revision_id base → revert id db = (Ok tt, db') → gone base db'.
Proof.
  intros Hs Hid Hrun. pose proof (since_next _ _ Hs) as Hn.
  destruct Hs as [Hwf (es & rs & E1 & E2 & E3 & E4 & E5)].
  pose proof (revert_wf _ _ _ Hwf Hrun) as Hwf'.
  apply revert_Ok in Hrun as (i & r & d & Hl & <- & _ & ->); [|done].
  split; [done|]. split; [done|]. cbn.
  pose proof (rw_sorted _ _ _ (wf_revisions _ Hwf)) as Hsort.
  apply Forall_lookup. intros j x [Hx Hj]%lookup_take_Some.
  destruct (sorted_lookup_lt _ _ _ _ _ Hsort Hx Hl Hj) as [Hlt _]. lia.
Qed.

Lemma tracked_op base db o db' :
  since base db ∨ gone base db → op_content_ok script_ok data_ok o →
  run_db_op o db = (Ok tt, db') → since base db' ∨ gone base db'.
Proof.
  intros [Hs|Hg] Hc Hrun.
  - destruct o as [| | | | | | | |id];
      try (left; by eapply since_op; [done|done| |done]).
    destruct (decide (next_revision_id base < id)) as [Hlt|Hge].
    + left. by eapply since_revert.
    + right. eapply since_lost; [done| |done]. lia.
  - right. pose proof Hg as [Hwf _]. pose proof (wf_inner _ Hwf) as Hv.
    destruct o as [k|k v|c|h x|h x|h|l| |id]; cbn [run_db_op op_content_ok] in *.
    + inv_ok. eauto using gone_same, get_raw_same.
    + destruct (update_raw_pushes db k v Hwf) as (e&db1&E&Hp).
      rewrite E in Hrun. simplify_eq. by eapply gone_pushes.
    + destruct (set_account_count_pushes db c Hwf) as (e&db1&E&Hp).
      rewrite E in Hrun. simplify_eq. by eapply gone_pushes.
    + destruct (insert_script_pushes db h x Hwf Hc) as (e&Hp).
      injection Hrun as <-. by eapply gone_pushes.
    + destruct (insert_data_pushes db h x Hwf Hc) as (e&Hp).
      injection Hrun as <-. by eapply gone_pushes.
    + injection Hrun as <-. eapply gone_same; [done|by apply get_data_same].
    + destruct (append_log_pushes db l Hwf) as (e&Hp).
      injection Hrun as <-. by eapply gone_pushes.
    + inv_ok. by eapply gone_snapshot.
    + by eapply gone_revert.
Qed.

Lemma tracked_ops base db ops db' :
  since base db ∨ gone base db → Forall (op_content_ok script_ok data_ok) ops →
  st_for ops run_db_op db = (Ok tt, db') → since base db' ∨ gone base db'.
Proof.
  intros Ht Hc. revert db Ht. induction Hc as [|o ops Ho _ IH]; intros db Ht Hrun.
  - by injection Hrun as <-.
  - cbn [st_for] in Hrun. inv_ok. eauto using tracked_op.
Qed.

(** Whatever ran since, a revert to [base]'s revision that succeeds restores it. *)
Lemma tracked_end base db db' :
  since base db ∨ gone base db → revert (next_revision_id base) db = (Ok tt, db') →
  db_state db' = db_state base ∧ db_journal db' = db_journal base ∧
  revisions db' = revisions base ∧ db_dirty db' ≡ db_dirty base ∧
  last_state_root db' = last_state_root base.
Proof.
  intros [Hs|(Hwf & _ & Hr)] Hrun.
  - destruct (since_end _ _ Hs) as (db2 & E & ?). rewrite E in Hrun. by injection Hrun as <-.
  - apply revert_Ok in Hrun as (i & r & d & Hl & Hid & _); [|done].
    rewrite Forall_lookup in Hr. by destruct (Hr i r Hl).
Qed.
End Revert.

(** C3. Taking a snapshot, then running any sequence of reads, writes, log appends,
    further snapshots and reverts to those, and reverting to the snapshot succeeds
    and restores the dirty data, the journal and the earlier revisions exactly as
    they were.  Scripts and data are inserted under one hash per content, as every
    caller does ([op_content_ok]): among those inserted, a hash names one content. *)
Theorem revert_restores_snapshot {S : Type} `{StateView S}
    (scripts : H256 → Script) (datas : H256 → bytes)
    (db db1 db2 : StateDB S) (id : Z) (ops : list db_op) :
  db_wf (the scripts) (the datas) db →
  snapshot db = (Ok id, db1) →
  Forall (op_content_ok (the scripts) (the datas)) ops →
  Forall (λ o, ∀ i, o = DbRevert i → id < i) ops →
  st_for ops run_db_op db1 = (Ok tt, db2) →
  ∃ db3, revert id db2 = (Ok tt, db3) ∧
    db_state db3 = db_state db ∧ db_journal db3 = db_journal db ∧
    revisions db3 = revisions db ∧ db_dirty db3 = db_dirty db ∧
    last_state_root db3 = last_state_root db.
Proof.
  intros Hwf Hs Hc Hi Hrun. destruct (since_start _ _ db id db1 Hwf Hs) as [Hsince ->].
  assert (Hsince2 : since (the scripts) (the datas) db db2) by (eapply since_ops; eauto).
  destruct (since_end _ _ _ _ Hsince2) as (db3 & Hrev & E1 & E2 & E3 & E4 & E5). exists db3. split_and!; try done.
  destruct Hsince2 as [Hwf2 _]. apply (revert_wf _ _ _ _ _ Hwf2) in Hrev.
  by apply (equiv_content scripts datas); [apply Hrev|apply Hwf|].
Qed.

(** ** [finalise] *)
Section Finalise.
Context {S : Type} `{StateView S} `{MapIter}.
Implicit Types (db : StateDB S) (d : Dirty) (s : S).

(** What a client reads from the database. *)
Definition db_view db : View := overlay (db_dirty db) (view (db_state db)).

(** Writing the entries of a map one by one, in any order, lays the map over
    the view. *)
Lemma list_to_map_iter {A} (m : gmap H256 A) :
  list_to_map (map_iter m) = m ∧ NoDup (map_iter m).*1.
Proof.
  pose proof (map_iter_perm m) as Hp.
  assert (Hnd : NoDup (map_iter m).*1).
  { rewrite Hp. apply NoDup_fst_map_to_list. }
  split; [|done]. rewrite <- (list_to_map_to_list m) at 2. by apply list_to_map_proper.
Qed.

Definition overlay_kv (m : gmap H256 H256) (V : View) : View := overlay (mkDirty m None ∅ ∅ []) V.
Definition overlay_scripts (m : gmap H256 Script) (V : View) : View :=
  overlay (mkDirty ∅ None m ∅ []) V.
Definition overlay_datas (m : gmap H256 bytes) (V : View) : View :=
  overlay (mkDirty ∅ None ∅ m []) V.

Lemma write_kvs s (l : list (H256 * H256)) :
  view_ok s → NoDup l.*1 →
  ∃ s', st_for l (λ '(k, v), update_raw k v) s = (Ok tt, s') ∧ view_ok s' ∧
    view s' ≡ overlay_kv (list_to_map l) (view s).
Proof.
  revert s. induction l as [|[k v] l IH]; intros s Hok Hnd.
  - exists s. split; [done|]. split; [done|]. cbn. solve_view.
  - cbn in Hnd. apply NoDup_cons in Hnd as [Hk Hnd].
    destruct (view_update_raw s k v Hok) as (s1 & E1 & Hok1 & Hv1).
    destruct (IH s1 Hok1 Hnd) as (s' & E' & Hok' & Hv').
    exists s'. cbn [st_for]. erewrite st_bind_run by exact E1. split; [done|]. split; [done|].
    rewrite Hv'. unfold overlay_kv. rewrite Hv1. cbn.
    apply not_elem_of_list_to_map_1 in Hk.
    repeat split; cbn; try done. intros k'. rewrite lookup_insert.
    case_decide; simplify_eq; [by rewrite Hk|done].
Qed.

Lemma write_scripts_view s (l : list (H256 * Script)) :
  view_ok s → NoDup l.*1 →
  view_ok (write_scripts l s) ∧
  view (write_scripts l s) ≡ overlay_scripts (list_to_map l) (view s).
Proof.
  revert s. induction l as [|[h x] l IH]; intros s Hok Hnd; [cbn; split; [done|solve_view]|].
  cbn in Hnd. apply NoDup_cons in Hnd as [Hk Hnd].
  destruct (view_insert_script s h x Hok) as (Hok1 & Hv1).
  destruct (IH _ Hok1 Hnd) as (Hok' & Hv'). cbn. split; [done|].
  rewrite Hv'. unfold overlay_scripts. rewrite Hv1.
  apply not_elem_of_list_to_map_1 in Hk.
  repeat split; cbn; try done. intros k'. rewrite lookup_insert.
  case_decide; simplify_eq; [by rewrite Hk|done].
Qed.

Lemma write_datas_view s (l : list (H256 * bytes)) :
  view_ok s → NoDup l.*1 →
  view_ok (write_datas l s) ∧
  view (write_datas l s) ≡ overlay_datas (list_to_map l) (view s).
Proof.
  revert s. induction l as [|[h x] l IH]; intros s Hok Hnd; [cbn; split; [done|solve_view]|].
  cbn in Hnd. apply NoDup_cons in Hnd as [Hk Hnd].
  destruct (view_insert_data s h x Hok) as (Hok1 & Hv1).
  destruct (IH _ Hok1 Hnd) as (Hok' & Hv'). cbn. split; [done|].
  rewrite Hv'. unfold overlay_datas. rewrite Hv1.
  apply not_elem_of_list_to_map_1 in Hk.
  repeat split; cbn; try done. intros k'. rewrite lookup_insert.
  case_decide; simplify_eq; [by rewrite Hk|done].
Qed.

Lemma write_dirty_view s d :
  view_ok s →
  ∃ s', write_dirty d s = (Ok tt, s') ∧ view_ok s' ∧ view s' ≡ overlay d (view s).
Proof.
  intros Hok. unfold write_dirty.
  assert (∃ s1, (match dirty_account_count d with
                 | Some count => set_account_count count | None => mret tt end) s
                = (Ok tt, s1) ∧ view_ok s1 ∧
                view s1 ≡ overlay (mkDirty ∅ (dirty_account_count d) ∅ ∅ []) (view s))
    as (s1 & E1 & Hok1 & Hv1).
  { destruct (dirty_account_count d) as [c|].
    - destruct (view_set_account_count s c Hok) as (s1 & E1 & Hok1 & Hv1).
      exists s1. split; [done|]. split; [done|]. rewrite Hv1. solve_view.
    - exists s. split; [done|]. split; [done|]. solve_view. }
  erewrite st_bind_run by exact E1.
  destruct (list_to_map_iter (dirty_state d)) as [Hm2 Hnd2].
  destruct (write_kvs s1 _ Hok1 Hnd2) as (s2 & E2 & Hok2 & Hv2).
  erewrite st_bind_run by exact E2. erewrite st_bind_run by done.
  destruct (list_to_map_iter (dirty_scripts d)) as [Hm3 Hnd3].
  destruct (write_scripts_view s2 _ Hok2 Hnd3) as [Hok3 Hv3].
  destruct (list_to_map_iter (dirty_data d)) as [Hm4 Hnd4].
  destruct (write_datas_view _ _ Hok3 Hnd4) as [Hok4 Hv4].
  eexists. split; [reflexivity|]. split; [done|].
  rewrite Hv4, Hm4. unfold overlay_datas. rewrite Hv3, Hm3. unfold overlay_scripts.
  rewrite Hv2, Hm2. unfold overlay_kv. rewrite Hv1. solve_view.
Qed.

Lemma is_dirty_clear db : is_dirty (clear_journal_and_dirty db) = false.
Proof. done. Qed.

Lemma not_dirty_clean db :
  is_dirty db = false → db_dirty db = no_dirty ∧ db_journal db = [] ∧ revisions db = [].
Proof.
  unfold is_dirty. rewrite !orb_false_iff, !negb_false_iff, !bool_decide_eq_true,
    bool_decide_eq_false. intros [[[[[[? ?] Hc] ?] ?] ?] ?].
  destruct db as [? ? ? ? []]; cbn in *. apply eq_None_not_Some in Hc. by subst.
Qed.
(** [finalise] with something to write. *)
Lemma finalise_dirty_run db :
  view_ok (db_state db) → is_dirty db = true →
  ∃ db', finalise db = (Ok tt, db') ∧
    is_dirty db' = false ∧ view_ok (db_state db') ∧ db_view db' ≡ db_view db ∧
    last_state_root db' = view_root (db_state db') ∧
    calculate_root db' = (Ok (last_state_root db'), db').
Proof.
  intros Hok Hd. unfold finalise. erewrite st_bind_run by done. rewrite Hd. cbn [negb].
  erewrite st_bind_run by done.
  destruct (write_dirty_view (db_state db) (db_dirty db) Hok) as (s' & E & Hok' & Hv').
  erewrite st_bind_run by (unfold inner; by rewrite E). erewrite st_bind_run by done.
  erewrite st_bind_run by
    (unfold db_calculate_root; rewrite is_dirty_clear; unfold inner; cbn;
     by rewrite view_calculate_root by done).
  eexists. split; [reflexivity|]. split; [done|]. split; [done|].
  split; [unfold db_view; cbn; rewrite Hv'; solve_view|]. split; [done|].
  cbn. unfold db_calculate_root, inner. cbn. by rewrite view_calculate_root.
Qed.
End Finalise.

(** [finalise] always succeeds, leaves no dirty data, revision or journal
    entry, does not change what can be read, and its new state root is the root
    of the inner state, whatever order the dirty maps are written in. *)
Theorem finalise_preserves_view {S : Type} `{StateView S, MapIter} (db : StateDB S) :
  view_ok (db_state db) →
  (is_dirty db = false → last_state_root db = view_root (db_state db)) →
  ∃ db', finalise db = (Ok tt, db') ∧
    is_dirty db' = false ∧ view_ok (db_state db') ∧ db_view db' ≡ db_view db ∧
    last_state_root db' = view_root (db_state db') ∧
    calculate_root db' = (Ok (last_state_root db'), db').
Proof.
  intros Hok Hroot. destruct (is_dirty db) eqn:Hd; [by apply finalise_dirty_run|].
  unfold finalise. erewrite st_bind_run by done. rewrite Hd. cbn [negb].
  exists db. split; [done|]. split; [done|]. split; [done|]. split; [done|].
  rewrite Hroot by done. split; [done|].
  cbn. unfold db_calculate_root, inner. rewrite Hd, view_calculate_root by done.
  by destruct db.
Qed.

(** ** [StateDB] implements the reference state *)
Section Refine.
Context {S : Type} `{StateView S} `{SmtRoot}.

Definition db_rel (db : StateDB S) (rs : RefState) : Prop :=
  view_ok (db_state db) ∧ (∀ k, v_kv (db_view db) k = kv_get rs k) ∧
  v_count (db_view db) = rs_count rs.

#[export] Instance StateDB_sim : StateSim (StateDB S) RefState db_rel (λ _, False).
Proof.
  split.
  - intros k db rs (Hok & Hk & Hc). right. pose proof (Hk k) as Hkk. cbn in Hkk.
    cbn. unfold db_get_raw, inner. cbn. rewrite view_get_raw, <- Hkk by done.
    destruct (_ !! k) as [v|] eqn:E; eexists _, _, _; (split; [done|]); by split.
  - intros k v db rs (Hok & Hk & Hc). right. eexists _, _, _. split; [reflexivity|].
    split; [reflexivity|]. split; [done|]. split; [|done]. intros k'. rewrite kv_get_put.
    cbn. rewrite lookup_insert. case_decide; [done|]. apply Hk.
  - intros db rs HR. right. pose proof HR as (Hok & _ & Hc). cbn in Hc |- *.
    unfold db_get_account_count, inner. rewrite view_get_account_count, <- Hc by done.
    destruct (dirty_account_count _); eexists _, _, _; (split; [done|]); (split; [done|]);
      by destruct db.
  - intros c db rs (Hok & Hk & Hc). right. eexists _, _, _. split; [reflexivity|].
    split; [reflexivity|]. split; [done|]. by split.
Qed.
End Refine.

(** *** Calls of the trait's methods, as data

    All of them but [calculate_root] and [calculate_state_checkpoint], which a
    database with changes that are not written yet refuses. *)
Inductive trait_call :=
| CallGetRaw (k : H256)
| CallUpdateRaw (k v : H256)
| CallGetAccountCount
| CallSetAccountCount (n : Z)
| CallStoreDataHash (dh : H256)
| CallIsDataHashExist (dh : H256)
| CallGetValue (id : Z) (k : bytes)
| CallUpdateValue (id : Z) (k : bytes) (v : H256)
| CallGetNonce (id : Z)
| CallSetNonce (id n : Z)
| CallGetScriptHash (id : Z)
| CallGetAccountId (sh : H256)
| CallCreateAccount (sh : H256)
| CallGetSudtBalance (id : Z) (a : RegistryAddress)
| CallGetSudtTotalSupply (id : Z)
| CallMintSudt (id : Z) (a : RegistryAddress) (n : Z)
| CallBurnSudt (id : Z) (a : RegistryAddress) (n : Z)
| CallScriptHashOfAddress (a : RegistryAddress)
| CallAddressOfScriptHash (rid : Z) (sh : H256)
| CallMapAddress (a : RegistryAddress) (sh : H256).

Inductive call_result :=
| RetUnit
| RetBool (b : bool)
| RetZ (n : Z)
| RetBytes (b : bytes)
| RetOptZ (o : option Z)
| RetOptBytes (o : option bytes)
| RetOptAddress (o : option RegistryAddress).

Section Calls.
Context `{Blake2b} {St : Type} `{StateOps St}.

Definition returning {A} (f : A → call_result) (m : ST St StateError.t A) :
    ST St StateError.t call_result := m ≫= λ a, mret (f a).

Definition run_call (c : trait_call) : ST St StateError.t call_result :=
  match c with
  | CallGetRaw k => returning RetBytes (get_raw k)
  | CallUpdateRaw k v => returning (λ _, RetUnit) (update_raw k v)
  | CallGetAccountCount => returning RetZ get_account_count
  | CallSetAccountCount n => returning (λ _, RetUnit) (set_account_count n)
  | CallStoreDataHash dh => returning (λ _, RetUnit) (store_data_hash dh)
  | CallIsDataHashExist dh => returning RetBool (is_data_hash_exist dh)
  | CallGetValue id k => returning RetBytes (get_value id k)
  | CallUpdateValue id k v => returning (λ _, RetUnit) (update_value id k v)
  | CallGetNonce id => returning RetZ (get_nonce id)
  | CallSetNonce id n => returning (λ _, RetUnit) (set_nonce id n)
  | CallGetScriptHash id => returning RetBytes (get_script_hash id)
  | CallGetAccountId sh => returning RetOptZ (get_account_id_by_script_hash sh)
  | CallCreateAccount sh => returning RetZ (create_account sh)
  | CallGetSudtBalance id a => returning RetZ (get_sudt_balance id a)
  | CallGetSudtTotalSupply id => returning RetZ (get_sudt_total_supply id)
  | CallMintSudt id a n => returning (λ _, RetUnit) (mint_sudt id a n)
  | CallBurnSudt id a n => returning (λ _, RetUnit) (burn_sudt id a n)
  | CallScriptHashOfAddress a => returning RetOptBytes (get_script_hash_by_registry_address a)
  | CallAddressOfScriptHash rid sh =>
      returning RetOptAddress (get_registry_address_by_script_hash rid sh)
  | CallMapAddress a sh => returning (λ _, RetUnit) (mapping_registry_address_to_script_hash a sh)
  end.

(** A client that goes on after an error. *)
Fixpoint run_calls (cs : list trait_call) (s : St) :
    list (outcome StateError.t call_result) * St :=
  match cs with
  | [] => ([], s)
  | c :: cs => let (r, s) := run_call c s in
               let (rs, s) := run_calls cs s in (r :: rs, s)
  end.
End Calls.

Lemma sim_run_call `{Blake2b} {St1 St2} `{StateOps St1, StateOps St2}
    (R : St1 → St2 → Prop) F `{!StateSim St1 St2 R F} c :
  sim R F (run_call c) (run_call c).
Proof. destruct c; cbn; unfold returning; apply sim_bind; eauto with gw. Qed.

Lemma rel_roots `{Blake2b, SmtRoot} {S : Type} `{StateView S} (db : StateDB S) (rs : RefState) :
  db_rel db rs →
  let root := view_root (db_state db) in
  (calculate_root db).1 = (if is_dirty db then Err StateError.Store else Ok root) ∧
  (calculate_state_checkpoint db).1
    = (if is_dirty db then Err StateError.Store else Ok (calculate_state_checkpoint_of root (rs_count rs))).
Proof.
  intros (Hok & _ & Hc) root. unfold calculate_state_checkpoint, mbind, ST_bind. cbn. unfold db_calculate_root, inner.
  destruct (is_dirty db) eqn:Hd; [done|]. rewrite view_calculate_root by done. cbn. split; [done|].
  unfold db_get_account_count, inner. cbn. cbn in Hc.
  destruct (not_dirty_clean db Hd) as (E & _). rewrite E in *. cbn in *.
  rewrite view_get_account_count by done. cbn. by rewrite Hc.
Qed.

(** C30. For a client of the [State] trait, the journaled database is the reference
    state: any sequence of calls that read or write raw keys, values, nonces, accounts,
    addresses, balances, data hashes or the account count, successful or not, returns
    the same values and errors on both.  After them the root and the checkpoint can be
    computed exactly when every change has been written; then they are those of the
    state below and of the account count of the reference. *)
Theorem statedb_refines_reference `{Blake2b, SmtRoot} {S : Type} `{StateView S}
    (cs : list trait_call) (db : StateDB S) (rs : RefState) :
  db_rel db rs →
  ∃ out db' rs',
    run_calls cs db = (out, db') ∧ run_calls cs rs = (out, rs') ∧ db_rel db' rs' ∧
    let root := view_root (db_state db') in
    (calculate_root db').1 = (if is_dirty db' then Err StateError.Store else Ok root) ∧
    (calculate_state_checkpoint db').1
      = (if is_dirty db' then Err StateError.Store
         else Ok (calculate_state_checkpoint_of root (rs_count rs'))).
Proof.
  revert db rs. induction cs as [|c cs IH]; intros db rs HR.
  { exists [], db, rs. do 3 (split; [done|]). by apply rel_roots. }
  destruct (sim_run_call db_rel (λ _, False) c db rs HR)
    as [(?&?&_&[])|(r & db1 & rs1 & E1 & E2 & HR1)].
  destruct (IH db1 rs1 HR1) as (out & db2 & rs2 & E3 & E4 & HR2).
  exists (r :: out), db2, rs2. cbn [run_calls]. by rewrite E1, E2, E3, E4.
Qed.
