(* ===== verification/History.v ===== *)
(** * Persistent block states

    Models [crates/store/src/state/history] ([block_state_record.rs],
    [history_state.rs]), [crates/store/src/transaction/history_store_impl.rs]
    and the in-memory tree of [crates/store/src/state/overlay/mem_state.rs].

    Every key a block changes is recorded under [block number | key] together
    with a reverse entry [key | block number]; numbers are big-endian, so that
    the byte order of the store is the numeric order.  The historical value of a
    key is found with one [seek_for_prev] in the reverse column, and detaching a
    block resets the keys it recorded to their value at its parent.

    The sparse merkle tree is its contents (a finite map) and the root function
    [smt_root]; the store's ordered iterators are the parameter [RocksIter] with
    the documented behaviour of [seek] and [seek_for_prev].  I/O errors of the
    store are not modelled. *)
From Stdlib Require Import ZArith Lia Strings.Byte.
From stdpp Require Import prelude list gmap sorting.
From S2P Require Import Prelude Bytes Types State StateSpec StateDB.
Local Open Scope Z_scope.

(** ** Record keys (block_state_record.rs): [u8; 40] *)
Definition BlockStateRecordKey_new (block_number : Z) (state_key : H256) : bytes :=
  be_bytes 8 block_number ++ state_key.
Definition BlockStateRecordKey_state_key (k : bytes) : H256 := drop 8 k.
Definition BlockStateRecordKey_block_number (k : bytes) : Z := be_val (take 8 k).

Definition BlockStateRecordKeyReverse_new (block_number : Z) (state_key : H256) : bytes :=
  state_key ++ be_bytes 8 block_number.
Definition BlockStateRecordKeyReverse_state_key (k : bytes) : H256 := take 32 k.
Definition BlockStateRecordKeyReverse_block_number (k : bytes) : Z := be_val (drop 32 k).

(** [copy_from_slice] into a fixed-size array panics on another length. *)
Definition copy_exact {E} (n : nat) (bs : bytes) : outcome E bytes :=
  if (length bs =? n)%nat then Ok bs else Panic.
Definition BlockStateRecordKey_from_slice {E} (bs : bytes) : outcome E bytes := copy_exact 40 bs.

(** ** The store *)
Definition bytes_le (a b : bytes) : Prop := bytes_compare a b ≠ Gt.

(** Ordered iteration over a column of the store: [seek k] positions at the
    first key not below [k] and runs forward, [seek_for_prev k] positions at the
    last key not above [k]. *)
Class RocksIter := {
  rocks_seek : gmap bytes bytes → bytes → list bytes;
  rocks_seek_for_prev : gmap bytes bytes → bytes → option bytes;
  rocks_seek_sorted m k : StronglySorted (λ a b, bytes_compare a b = Lt) (rocks_seek m k);
  rocks_seek_elem m k x : x ∈ rocks_seek m k ↔ is_Some (m !! x) ∧ bytes_le k x;
  rocks_prev_Some m k x : rocks_seek_for_prev m k = Some x →
    is_Some (m !! x) ∧ bytes_le x k ∧ (∀ y, is_Some (m !! y) → bytes_le y k → bytes_le y x);
  rocks_prev_None m k : rocks_seek_for_prev m k = None →
    ∀ y, is_Some (m !! y) → ¬ bytes_le y k;
}.

(** The columns used here; scripts are kept decoded. *)
Record HistoryDb := mkHistoryDb {
  col_record : gmap bytes bytes;
  col_reverse : gmap bytes bytes;
  col_script : gmap H256 Script;
  col_data : gmap H256 bytes;
}.

Section Store.
Context `{RocksIter}.

(** [.map(from_slice).take_while(|key| key.block_number() == n).collect()] *)
Fixpoint take_records {E} (n : Z) (keys : list bytes) : outcome E (list bytes) :=
  match keys with
  | [] => Ok []
  | k :: keys =>
      key ← BlockStateRecordKey_from_slice k;
      if BlockStateRecordKey_block_number key =? n
      then rest ← take_records n keys; Ok (key :: rest)
      else Ok []
  end.

Definition iter_block_state_record {E} (n : Z) (db : HistoryDb) : outcome E (list bytes) :=
  take_records n (rocks_seek (col_record db) (BlockStateRecordKey_new n h256_zero)).

Definition delete_record (db : HistoryDb) (key : bytes) : HistoryDb :=
  mkHistoryDb (delete key (col_record db))
    (delete (BlockStateRecordKeyReverse_new (BlockStateRecordKey_block_number key)
               (BlockStateRecordKey_state_key key)) (col_reverse db))
    (col_script db) (col_data db).

Definition remove_block_state_record {E} (n : Z) (db : HistoryDb) : outcome E HistoryDb :=
  keys ← iter_block_state_record n db; Ok (foldl delete_record db keys).

Definition get_history_state {E} (n : Z) (state_key : H256) (db : HistoryDb) :
    outcome E (option H256) :=
  let key := BlockStateRecordKeyReverse_new n state_key in
  match rocks_seek_for_prev (col_reverse db) key with
  | None => Ok None
  | Some prev_key =>
      prefix ← slice 0 32 prev_key;
      if negb (bool_decide (prefix = BlockStateRecordKeyReverse_state_key key)) then Ok None
      else
        prev_reverse_key ← copy_exact 40 prev_key;
        let prev_key :=
          BlockStateRecordKey_new (BlockStateRecordKeyReverse_block_number prev_reverse_key)
            (BlockStateRecordKeyReverse_state_key prev_reverse_key) in
        match col_record db !! prev_key with
        | None => Ok None
        | Some raw => buf ← copy_exact 32 raw; Ok (Some buf)
        end
  end.

Definition record_block_state (n : Z) (state_key value : H256) (db : HistoryDb) : HistoryDb :=
  mkHistoryDb (<[BlockStateRecordKey_new n state_key := value]> (col_record db))
    (<[BlockStateRecordKeyReverse_new n state_key := []]> (col_reverse db))
    (col_script db) (col_data db).
End Store.

(** ** [HistoryState] (history_state.rs) *)
Inductive ReadOpt := ReadBlock (n : Z) | ReadAny.
Inductive WriteOpt := WriteNoRecord | WriteBlock (n : Z) | WriteDeny.
Record RWConfig := mkRWConfig { rw_read : ReadOpt; rw_write : WriteOpt }.

Definition RWConfig_readonly : RWConfig := mkRWConfig ReadAny WriteDeny.
Definition RWConfig_attach_block (n : Z) : RWConfig := mkRWConfig ReadAny (WriteBlock n).
Definition RWConfig_detach_block : RWConfig := mkRWConfig ReadAny WriteNoRecord.
Definition RWConfig_history_block (n : Z) : RWConfig := mkRWConfig (ReadBlock n) WriteDeny.

Record HistoryState := mkHistoryState {
  hs_account_count : Z;
  hs_tree : gmap H256 H256;
  hs_db : HistoryDb;
  hs_rw : RWConfig;
}.

Definition tree_get (t : gmap H256 H256) (k : H256) : H256 := default h256_zero (t !! k).

Section HistoryOps.
Context `{RocksIter, SmtRoot}.
Local Abbreviation M := (ST HistoryState StateError.t).

Definition with_db (db : HistoryDb) (s : HistoryState) : HistoryState :=
  mkHistoryState (hs_account_count s) (hs_tree s) db (hs_rw s).

Definition get_merkle_state (s : HistoryState) : AccountMerkleState :=
  mkAccountMerkleState (smt_root (hs_tree s)) (hs_account_count s).

Definition hs_get_raw (key : H256) : M H256 := λ s,
  (match rw_read (hs_rw s) with
   | ReadBlock n => v ← get_history_state n key (hs_db s); Ok (default h256_zero v)
   | ReadAny => Ok (tree_get (hs_tree s) key)
   end, s).

(** The tree is changed before the write option is looked at. *)
Definition hs_update_raw (key value : H256) : M unit := λ s,
  let s := mkHistoryState (hs_account_count s) (<[key := value]> (hs_tree s))
             (hs_db s) (hs_rw s) in
  match rw_write (hs_rw s) with
  | WriteBlock n => (Ok tt, with_db (record_block_state n key value (hs_db s)) s)
  | WriteNoRecord => (Ok tt, s)
  | WriteDeny => (Err StateError.Store, s)
  end.

Definition hs_set_account_count (c : Z) : M unit := λ s,
  (Ok tt, mkHistoryState c (hs_tree s) (hs_db s) (hs_rw s)).

#[export] Instance HistoryState_ops : StateOps HistoryState := {
  get_raw := hs_get_raw;
  update_raw := hs_update_raw;
  get_account_count := gets hs_account_count;
  set_account_count := hs_set_account_count;
  calculate_root := gets (λ s, smt_root (hs_tree s));
}.

#[export] Instance HistoryState_code_ops : CodeOps HistoryState := {
  insert_script h x s :=
    let db := hs_db s in
    with_db (mkHistoryDb (col_record db) (col_reverse db) (<[h := x]> (col_script db))
               (col_data db)) s;
  get_script h s := col_script (hs_db s) !! h;
  insert_data h x s :=
    let db := hs_db s in
    with_db (mkHistoryDb (col_record db) (col_reverse db) (col_script db)
               (<[h := x]> (col_data db))) s;
  get_data h s := (col_data (hs_db s) !! h, s);
}.

(** The keys a block recorded, with their value at the parent block. *)
Definition reverted_key_values {E} (n : Z) (db : HistoryDb) :
    outcome E (list (H256 * H256)) :=
  let parent_block_number := saturating_sub n 1 in
  keys ← iter_block_state_record n db;
  collect ((λ record_key,
    let state_key := BlockStateRecordKey_state_key record_key in
    last_value ← get_history_state parent_block_number state_key db;
    Ok (state_key, default h256_zero last_value)) <$> keys).

Definition detach_block_state (n : Z) : M unit :=
  db ← gets hs_db;
  kvs ← lift (reverted_key_values n db);
  st_for kvs (λ '(state_key, last_value), hs_update_raw state_key last_value) ;;
  db ← gets hs_db;
  db' ← lift (remove_block_state_record n db);
  modify (with_db db').
End HistoryOps.

(** ** [MemStateTree] (overlay/mem_state.rs) *)
Record MemStateTree := mkMemStateTree {
  mst_tree : gmap H256 H256;
  mst_account_count : Z;
  mst_scripts : gmap H256 Script;
  mst_data : gmap H256 bytes;
}.

Section MemOps.
Context `{SmtRoot}.

#[export] Instance MemStateTree_ops : StateOps MemStateTree := {
  get_raw k := gets (λ s, tree_get (mst_tree s) k);
  update_raw k v := modify (λ s,
    mkMemStateTree (<[k := v]> (mst_tree s)) (mst_account_count s) (mst_scripts s) (mst_data s));
  get_account_count := gets mst_account_count;
  set_account_count c := modify (λ s,
    mkMemStateTree (mst_tree s) c (mst_scripts s) (mst_data s));
  calculate_root := gets (λ s, smt_root (mst_tree s));
}.
#[export] Instance MemStateTree_code_ops : CodeOps MemStateTree := {
  insert_script h x s :=
    mkMemStateTree (mst_tree s) (mst_account_count s) (<[h := x]> (mst_scripts s)) (mst_data s);
  get_script h s := mst_scripts s !! h;
  insert_data h x s :=
    mkMemStateTree (mst_tree s) (mst_account_count s) (mst_scripts s) (<[h := x]> (mst_data s));
  get_data h s := (mst_data s !! h, s);
}.

#[export] Program Instance MemStateTree_view : StateView MemStateTree := {
  view_ok _ := True;
  view s := mkView (tree_get (mst_tree s)) (mst_account_count s)
              (λ h, mst_scripts s !! h) (λ h, mst_data s !! h);
  view_root s := smt_root (mst_tree s);
}.
Solve All Obligations with try done.
Next Obligation.
  intros s k v _. eexists. split; [reflexivity|]. split; [done|].
  repeat split; cbn; try done. intros k'. unfold tree_get. rewrite lookup_insert. by case_decide.
Qed.
Next Obligation. intros s c _. by eexists. Qed.
Next Obligation.
  intros s h x _. split; [done|]. repeat split; cbn; try done.
  intros h'. rewrite lookup_insert. by case_decide.
Qed.
Next Obligation.
  intros s h x _. split; [done|]. repeat split; cbn; try done.
  intros h'. rewrite lookup_insert. by case_decide.
Qed.
End MemOps.

(** ** [HistoryState] keeps the promises [StateDB] relies on

    when it reads the tip and may write. *)
Section HistoryView.
Context `{RocksIter, SmtRoot}.

#[export] Program Instance HistoryState_view : StateView HistoryState := {
  view_ok s := rw_read (hs_rw s) = ReadAny ∧ rw_write (hs_rw s) ≠ WriteDeny;
  view s := mkView (tree_get (hs_tree s)) (hs_account_count s)
              (λ h, col_script (hs_db s) !! h) (λ h, col_data (hs_db s) !! h);
  view_root s := smt_root (hs_tree s);
}.
Solve All Obligations with try done.
Next Obligation. intros s k [Hr _]. cbn. unfold hs_get_raw. by rewrite Hr. Qed.
Next Obligation.
  intros s k v [Hr Hw]. cbn. unfold hs_update_raw. cbn.
  destruct (rw_write (hs_rw s)) eqn:E; [..|done]; (eexists; split; [reflexivity|]);
    (split; [split; cbn; [done|by rewrite E]|]);
    repeat split; cbn; try done; intros k'; unfold tree_get; rewrite lookup_insert; by case_decide.
Qed.
Next Obligation. intros s c Hok. by eexists. Qed.
Next Obligation.
  intros s h x Hok. split; [done|]. repeat split; cbn; try done.
  intros h'. rewrite lookup_insert. by case_decide.
Qed.
Next Obligation.
  intros s h x Hok. split; [done|]. repeat split; cbn; try done.
  intros h'. rewrite lookup_insert. by case_decide.
Qed.
End HistoryView.

(** ** Record keys decode to what they encode *)
Section Keys.
Context (b : Z) (k : H256) (Hb : u64 b) (Hk : length k = 32%nat).

Lemma record_key_length : length (BlockStateRecordKey_new b k) = 40%nat.
Proof. unfold BlockStateRecordKey_new. rewrite length_app, be_bytes_length, Hk. done. Qed.
Lemma record_key_block : BlockStateRecordKey_block_number (BlockStateRecordKey_new b k) = b.
Proof.
  unfold BlockStateRecordKey_block_number, BlockStateRecordKey_new.
  rewrite take_app_length' by (by rewrite be_bytes_length). by apply be_val_bytes_small.
Qed.
Lemma record_key_state : BlockStateRecordKey_state_key (BlockStateRecordKey_new b k) = k.
Proof. apply drop_app_length'. by rewrite be_bytes_length. Qed.

Lemma reverse_key_length : length (BlockStateRecordKeyReverse_new b k) = 40%nat.
Proof. unfold BlockStateRecordKeyReverse_new. rewrite length_app, be_bytes_length, Hk. done. Qed.
Lemma reverse_key_block :
  BlockStateRecordKeyReverse_block_number (BlockStateRecordKeyReverse_new b k) = b.
Proof.
  unfold BlockStateRecordKeyReverse_block_number, BlockStateRecordKeyReverse_new.
  rewrite drop_app_length' by done. by apply be_val_bytes_small.
Qed.
Lemma reverse_key_state :
  BlockStateRecordKeyReverse_state_key (BlockStateRecordKeyReverse_new b k) = k.
Proof. by apply take_app_length'. Qed.
End Keys.

Lemma record_key_inj b k b' k' :
  u64 b → u64 b' → BlockStateRecordKey_new b k = BlockStateRecordKey_new b' k' → b = b' ∧ k = k'.
Proof.
  intros Hb Hb' E. split.
  - rewrite <- (record_key_block b k), <- (record_key_block b' k') by done. by rewrite E.
  - rewrite <- (record_key_state b k), <- (record_key_state b' k'). by rewrite E.
Qed.
Lemma reverse_key_inj b k b' k' :
  u64 b → u64 b' → length k = 32%nat → length k' = 32%nat →
  BlockStateRecordKeyReverse_new b k = BlockStateRecordKeyReverse_new b' k' → b = b' ∧ k = k'.
Proof.
  intros Hb Hb' Hk Hk' E. split.
  - rewrite <- (reverse_key_block b k), <- (reverse_key_block b' k') by done. by rewrite E.
  - rewrite <- (reverse_key_state b k), <- (reverse_key_state b' k') by done. by rewrite E.
Qed.

(** Reverse keys of one state key are ordered by block number. *)
Lemma reverse_key_le b b' k :
  u64 b → u64 b' →
  bytes_le (BlockStateRecordKeyReverse_new b k) (BlockStateRecordKeyReverse_new b' k) ↔ b ≤ b'.
Proof.
  intros Hb Hb'. unfold bytes_le, BlockStateRecordKeyReverse_new.
  rewrite bytes_compare_app, bytes_compare_be_bytes by done. done.
Qed.

(** ** The abstract history: what each block wrote *)
Abbreviation hist := (gmap (Z * H256) H256).

Record hist_ok (db : HistoryDb) (h : hist) : Prop := {
  ho_range b k v : h !! (b, k) = Some v → u64 b ∧ length k = 32%nat ∧ length v = 32%nat;
  ho_record key v :
    col_record db !! key = Some v ↔
    ∃ b k, key = BlockStateRecordKey_new b k ∧ h !! (b, k) = Some v;
  ho_reverse key :
    is_Some (col_reverse db !! key) ↔
    ∃ b k, key = BlockStateRecordKeyReverse_new b k ∧ is_Some (h !! (b, k));
}.

(** The value of a key as of block [n]: the one written by the last block not
    after [n]. *)
Definition is_latest (h : hist) (n : Z) (k : H256) (o : option H256) : Prop :=
  match o with
  | Some v => ∃ b, b ≤ n ∧ h !! (b, k) = Some v ∧ ∀ b', b < b' ≤ n → h !! (b', k) = None
  | None => ∀ b, b ≤ n → h !! (b, k) = None
  end.

Lemma is_latest_fun h n k o1 o2 : is_latest h n k o1 → is_latest h n k o2 → o1 = o2.
Proof.
  destruct o1 as [v1|], o2 as [v2|]; cbn; [|intros (b&?&?&?) Hn|intros Hn (b&?&?&?)|done].
  - intros (b1 & Hb1 & E1 & Hm1) (b2 & Hb2 & E2 & Hm2).
    destruct (Z.lt_trichotomy b1 b2) as [Hlt|[->|Hlt]]; [|by simplify_eq|].
    + by rewrite Hm1 in E2 by lia.
    + by rewrite Hm2 in E1 by lia.
  - by rewrite Hn in * by done.
  - by rewrite Hn in * by done.
Qed.

Lemma is_latest_ext h h' n k o :
  (∀ b, b ≤ n → h' !! (b, k) = h !! (b, k)) → is_latest h n k o → is_latest h' n k o.
Proof.
  intros He. destruct o as [v|]; cbn.
  - intros (b & Hb & E & Hm). exists b. split; [done|]. split; [by rewrite He|].
    intros b' Hb'. rewrite He by lia. by apply Hm.
  - intros Hn b Hb. rewrite He by done. by apply Hn.
Qed.

Section Lookup.
Context `{RocksIter}.

Lemma get_history_state_run {E} db h n k :
  hist_ok db h → u64 n → length k = 32%nat →
  ∃ o, get_history_state (E:=E) n k db = Ok o ∧ is_latest h n k o.
Proof.
  intros [Hrg Hrec Hrev] Hn Hk. unfold get_history_state. cbv zeta.
  destruct (rocks_seek_for_prev _ _) as [x|] eqn:Hp.
  - apply rocks_prev_Some in Hp as (Hx & Hle & Hmax).
    apply Hrev in Hx as (b & k' & -> & [v Hv]).
    destruct (Hrg b k' v Hv) as (Hb & Hk' & Hlv).
    unfold slice. rewrite bool_decide_eq_true_2 by (rewrite reverse_key_length; [lia|done]).
    cbn [mbind outcome_bind Nat.sub]. rewrite reverse_key_state by done.
    unfold sub_bytes. rewrite ?drop_0. fold (BlockStateRecordKeyReverse_state_key
      (BlockStateRecordKeyReverse_new b k')). rewrite reverse_key_state by done.
    destruct (decide (k' = k)) as [->|Hne].
    + rewrite bool_decide_eq_true_2 by done. cbn [negb].
      unfold copy_exact. rewrite reverse_key_length by done. cbn [Nat.eqb mbind outcome_bind].
      rewrite reverse_key_block, reverse_key_state by done.
      rewrite (proj2 (Hrec _ v)) by eauto. rewrite Hlv. cbn.
      exists (Some v). split; [done|]. exists b.
      apply reverse_key_le in Hle; [|done..]. split; [done|]. split; [done|].
      intros b' Hb'. apply eq_None_not_Some. intros [v' Hv'].
      destruct (Hrg b' k v' Hv') as (Hub' & _).
      assert (bytes_le (BlockStateRecordKeyReverse_new b' k) (BlockStateRecordKeyReverse_new b k))
        as Hc%reverse_key_le by
        (apply Hmax; [apply Hrev; eauto|apply reverse_key_le; [done..|lia]]); [lia|done..].
    + rewrite bool_decide_eq_false_2 by done. exists None. split; [done|].
      intros b2 Hb2. apply eq_None_not_Some. intros [v2 Hv2].
      destruct (Hrg b2 k v2 Hv2) as (Hub2 & _).
      assert (Hc : bytes_le (BlockStateRecordKeyReverse_new b2 k)
                     (BlockStateRecordKeyReverse_new b k')).
      { apply Hmax; [apply Hrev; eauto|by apply reverse_key_le]. }
      unfold bytes_le, BlockStateRecordKeyReverse_new in Hle, Hc.
      rewrite bytes_compare_app_ne in Hle, Hc by congruence.
      rewrite bytes_compare_antisym in Hc.
      destruct (bytes_compare k' k) eqn:E'; cbn in *; try done.
      by apply bytes_compare_eq in E'.
  - exists None. split; [done|]. intros b Hb. apply eq_None_not_Some. intros [v Hv].
    destruct (Hrg b k v Hv) as (Hub & _).
    eapply rocks_prev_None; [done|apply Hrev; eauto|by apply reverse_key_le].
Qed.
End Lookup.

(** Reading history: for every block number and key, [get_history_state]
    returns the value written by the last block not after that number, or
    nothing when no such block wrote the key, and never panics. *)
Theorem get_history_state_latest `{RocksIter} (db : HistoryDb) (h : hist) (n : Z) (k : H256)
    (o : option H256) :
  hist_ok db h → u64 n → length k = 32%nat →
  get_history_state (E:=StateError.t) n k db = Ok o ↔ is_latest h n k o.
Proof.
  intros Hok Hn Hk. destruct (get_history_state_run (E:=StateError.t) db h n k Hok Hn Hk)
    as (o' & E & Hl). rewrite E. split; [by intros [= <-]|].
  intros Ho. f_equal. by eapply is_latest_fun.
Qed.

(** ** The records of one block *)
Definition is_record_key (key : bytes) : Prop :=
  ∃ b k, u64 b ∧ length k = 32%nat ∧ key = BlockStateRecordKey_new b k.
Definition key_block := BlockStateRecordKey_block_number.

Lemma zeros_least k : length k = 32%nat → bytes_compare h256_zero k ≠ Gt.
Proof.
  intros Hk. rewrite bytes_compare_be_val by (by rewrite Hk).
  pose proof (be_val_range k). change (be_val h256_zero) with 0.
  rewrite Z.compare_gt_iff. lia.
Qed.

(** Sorted record keys have non-decreasing block numbers. *)
Lemma record_key_compare x y :
  is_record_key x → is_record_key y → bytes_compare x y ≠ Gt → key_block x ≤ key_block y.
Proof.
  intros (b & k & Hb & Hk & ->) (b' & k' & Hb' & Hk' & ->) Hc.
  unfold key_block. rewrite !record_key_block by done.
  destruct (decide (b = b')) as [->|Hne]; [lia|].
  unfold BlockStateRecordKey_new in Hc. rewrite bytes_compare_app_ne in Hc.
  - by rewrite bytes_compare_be_bytes in Hc.
  - by rewrite !be_bytes_length.
  - intros E. apply Hne. by rewrite <- (be_val_bytes_small 8 b), <- (be_val_bytes_small 8 b'), E.
Qed.

Lemma take_records_sorted {E} n l :
  StronglySorted (λ a b, bytes_compare a b = Lt) l →
  Forall is_record_key l → Forall (λ x, n ≤ key_block x) l →
  take_records (E:=E) n l = Ok (filter (λ x, key_block x = n) l).
Proof.
  intros Hs. induction Hs as [|x l Hs IH Hall]; intros Hk Hn; [done|].
  apply Forall_cons in Hk as [Hx Hk]. apply Forall_cons in Hn as [Hnx Hn].
  cbn [take_records]. unfold BlockStateRecordKey_from_slice, copy_exact.
  pose proof Hx as (b & k & Hb & Hkl & Ex).
  rewrite Ex, record_key_length, <- Ex by done. cbn [Nat.eqb mbind outcome_bind].
  rewrite filter_cons. fold (key_block x).
  destruct (Z.eqb_spec (key_block x) n) as [Heq|Hne].
  - rewrite decide_True by done. by rewrite IH.
  - rewrite decide_False by done. f_equal. symmetry.
    rewrite Forall_forall in *.
    clear IH Hs. induction l as [|y l IHl]; [done|]. rewrite filter_cons, decide_False.
    + apply IHl; intros z Hz; [apply Hall|apply Hk|apply Hn]; by right.
    + assert (key_block x ≤ key_block y); [|lia].
      apply record_key_compare; [done|apply Hk; left|]. by rewrite Hall by left.
Qed.

Section Records.
Context `{RocksIter}.

(** [iter_block_state_record] lists the keys the block wrote, once each. *)
Lemma iter_block_state_record_run {E} db h n :
  hist_ok db h → u64 n →
  ∃ keys, iter_block_state_record (E:=E) n db = Ok keys ∧ NoDup keys ∧
    ∀ x, x ∈ keys ↔ ∃ k, x = BlockStateRecordKey_new n k ∧ is_Some (h !! (n, k)).
Proof.
  intros [Hrg Hrec _] Hn. unfold iter_block_state_record.
  set (l := rocks_seek _ _).
  pose proof (rocks_seek_sorted (col_record db) (BlockStateRecordKey_new n h256_zero)) as Hs.
  fold l in Hs.
  assert (Hl : ∀ x, x ∈ l → is_record_key x ∧ n ≤ key_block x).
  { intros x [[v Hx] Hle]%rocks_seek_elem. apply Hrec in Hx as (b & k & -> & Hv).
    destruct (Hrg b k v Hv) as (Hb & Hk & _).
    assert (is_record_key (BlockStateRecordKey_new b k)) by (by exists b, k). split; [done|].
    rewrite <- (record_key_block n h256_zero) at 1 by done. apply record_key_compare; try done.
    by exists n, h256_zero. }
  rewrite take_records_sorted; [|done|apply Forall_forall; naive_solver..].
  eexists. split; [reflexivity|]. split.
  - apply NoDup_filter. clear Hl. induction Hs as [|x l' Hs IH Hall]; constructor; [|done].
    intros Hx. rewrite Forall_forall in Hall. apply Hall in Hx.
    by rewrite bytes_compare_refl in Hx.
  - intros x. rewrite list_elem_of_filter. split.
    + intros [Hb Hx]. pose proof Hx as [[v Hx'] _]%rocks_seek_elem.
      apply Hrec in Hx' as (b & k & -> & Hv). destruct (Hrg b k v Hv) as (Hub & _).
      unfold key_block in Hb. rewrite record_key_block in Hb by done. subst b. eauto.
    + intros (k & -> & [v Hv]). destruct (Hrg n k v Hv) as (_ & Hk & _).
      split; [by apply record_key_block|]. apply rocks_seek_elem. split.
      * exists v. apply Hrec. eauto.
      * unfold bytes_le, BlockStateRecordKey_new. rewrite bytes_compare_app. by apply zeros_least.
Qed.

Lemma record_hist_ok db h n k v :
  hist_ok db h → u64 n → length k = 32%nat → length v = 32%nat →
  hist_ok (record_block_state n k v db) (<[(n, k) := v]> h).
Proof.
  intros [Hrg Hrec Hrev] Hn Hk Hv. split.
  - intros b k' v' [[[= -> ->] ->]|[_ ?]]%lookup_insert_Some; eauto.
  - intros key v'. cbn. rewrite lookup_insert_Some, Hrec. setoid_rewrite lookup_insert_Some.
    split.
    + intros [[<- <-]|(Hne & b & k' & -> & E)]; [by eauto 10|].
      exists b, k'. split; [done|]. right. split; [|done]. intros [= -> ->]. done.
    + intros (b & k' & -> & [[[= <- <-] <-]|[Hne E]]); [by left|]. right.
      split; [|by eauto]. intros Eq. apply record_key_inj in Eq as [-> ->]; [done|done|].
      by destruct (Hrg b k' v' E).
  - intros key. cbn. rewrite lookup_insert_is_Some, Hrev.
    setoid_rewrite lookup_insert_is_Some. split.
    + intros [<-|(Hne & b & k' & -> & E)]; [by eauto 10|].
      exists b, k'. split; [done|]. right. split; [|done]. intros [= -> ->]. done.
    + intros (b & k' & -> & [[= <- <-]|[Hne [v' E]]]); [by left|]. right.
      destruct (Hrg b k' v' E) as (? & ? & _).
      split; [|by eauto]. intros Eq. by apply reverse_key_inj in Eq as [-> ->].
Qed.

Lemma delete_hist_ok db h n k :
  hist_ok db h → u64 n → length k = 32%nat →
  hist_ok (delete_record db (BlockStateRecordKey_new n k)) (delete (n, k) h).
Proof.
  intros [Hrg Hrec Hrev] Hn Hk. unfold delete_record.
  rewrite record_key_block, record_key_state by done. split.
  - intros b k' v' [_ ?]%lookup_delete_Some; eauto.
  - intros key v'. cbn. rewrite lookup_delete_Some, Hrec. setoid_rewrite lookup_delete_Some.
    split.
    + intros (Hne & b & k' & -> & E). exists b, k'. split; [done|]. split; [|done].
      intros [= -> ->]. done.
    + intros (b & k' & -> & Hne & E). split; [|by eauto].
      intros Eq. apply record_key_inj in Eq as [-> ->]; [done|done|]. by destruct (Hrg b k' v' E).
  - intros key. cbn. rewrite lookup_delete_is_Some, Hrev. setoid_rewrite lookup_delete_is_Some.
    split.
    + intros (Hne & b & k' & -> & E). exists b, k'. split; [done|]. split; [|done].
      intros [= -> ->]. done.
    + intros (b & k' & -> & Hne & [v' E]). destruct (Hrg b k' v' E) as (? & ? & _).
      split; [|by eauto]. intros Eq. by apply reverse_key_inj in Eq as [-> ->].
Qed.
End Records.

(** ** Attaching and detaching a block *)
Lemma hs_update_no_record s k v :
  rw_write (hs_rw s) = WriteNoRecord →
  hs_update_raw k v s
  = (Ok tt, mkHistoryState (hs_account_count s) (<[k := v]> (hs_tree s)) (hs_db s) (hs_rw s)).
Proof. intros Hw. unfold hs_update_raw. cbn. by rewrite Hw. Qed.

Lemma hs_update_attach n s k v :
  hs_rw s = RWConfig_attach_block n →
  hs_update_raw k v s
  = (Ok tt, mkHistoryState (hs_account_count s) (<[k := v]> (hs_tree s))
              (record_block_state n k v (hs_db s)) (RWConfig_attach_block n)).
Proof. intros Hw. unfold hs_update_raw, with_db. cbn. by rewrite Hw. Qed.

Section Detach.
Context `{RocksIter, SmtRoot}.
Context (n : Z) (Hn : u64 n) (Hpos : 1 ≤ n).
Context (s0 : HistoryState) (h0 : hist).

(** What [update_raw] does while block [n] is attached: every key it changed
    is recorded, nothing else of the history moves. *)
Record attached (s : HistoryState) (h : hist) : Prop := {
  at_hist : hist_ok (hs_db s) h;
  at_old b k : b ≠ n → h !! (b, k) = h0 !! (b, k);
  at_tree k : h !! (n, k) = None → tree_get (hs_tree s) k = tree_get (hs_tree s0) k;
  at_count : hs_account_count s = hs_account_count s0;
  at_rw : hs_rw s = RWConfig_attach_block n;
}.

Definition kv_wf (kv : H256 * H256) : Prop :=
  length kv.1 = 32%nat ∧ length kv.2 = 32%nat.

Lemma attach_updates kvs s h s1 :
  attached s h → Forall kv_wf kvs →
  st_for kvs (λ '(k, v), update_raw k v) s = (Ok tt, s1) → ∃ h1, attached s1 h1.
Proof.
  intros Ha Hkv. revert s h Ha. induction Hkv as [|[k v] kvs [Hk Hv] _ IH]; intros s h Ha Hrun.
  - injection Hrun as <-. eauto.
  - cbn [st_for] in Hrun. erewrite st_bind_run in Hrun by (by apply hs_update_attach, Ha).
    eapply IH; [|exact Hrun]. destruct Ha as [Hh Ho Ht Hc Hr].
    split; cbn; [by apply record_hist_ok| |..|done|done].
    + intros b k' Hb. rewrite lookup_insert_ne by (intros [= ?]; done). by apply Ho.
    + intros k' Hk'. apply lookup_insert_None in Hk' as [Hk' Hne].
      unfold tree_get. rewrite lookup_insert_ne by (intros ->; done). by apply Ht.
Qed.

(** The tree agrees with the history up to the parent block. *)
Definition consistent (t : gmap H256 H256) (h : hist) (m : Z) : Prop :=
  ∀ k o, length k = 32%nat → is_latest h m k o → tree_get t k = default h256_zero o.

Lemma reverted_key_values_run {E} s h :
  attached s h → consistent (hs_tree s0) h0 (n - 1) →
  ∃ kvs, reverted_key_values (E:=E) n (hs_db s) = Ok kvs ∧
    (∀ k, is_Some (h !! (n, k)) → k ∈ kvs.*1) ∧
    (∀ k v, (k, v) ∈ kvs → v = tree_get (hs_tree s0) k).
Proof.
  intros [Hh Ho _ _ _] Hcons. unfold reverted_key_values, saturating_sub.
  rewrite Z.max_r by lia.
  destruct (iter_block_state_record_run (E:=E) _ _ n Hh Hn) as (keys & Ek & _ & Hkeys).
  rewrite Ek. cbn [mbind outcome_bind]. clear Ek.
  assert (Hall : ∀ x, x ∈ keys → ∃ k, x = BlockStateRecordKey_new n k ∧ is_Some (h !! (n, k)))
    by (intros; by apply Hkeys).
  assert (Hsurj : ∀ k, is_Some (h !! (n, k)) → BlockStateRecordKey_new n k ∈ keys)
    by (intros; apply Hkeys; eauto).
  clear Hkeys. enough (∃ kvs,
    collect ((λ record_key,
      let state_key := BlockStateRecordKey_state_key record_key in
      last_value ← get_history_state (E:=E) (n - 1) state_key (hs_db s);
      Ok (state_key, default h256_zero last_value)) <$> keys) = Ok kvs ∧
    kvs.*1 = BlockStateRecordKey_state_key <$> keys ∧
    (∀ k v, (k, v) ∈ kvs → v = tree_get (hs_tree s0) k)) as (kvs & E1 & E2 & E3).
  { exists kvs. split; [done|]. split; [|done]. intros k Hk. rewrite E2.
    apply list_elem_of_fmap. exists (BlockStateRecordKey_new n k).
    split; [by rewrite record_key_state|by apply Hsurj]. }
  clear Hsurj. induction keys as [|x keys IH]; cbn [fmap list_fmap collect].
  - exists []. split; [done|]. split; [done|]. by intros ?? []%elem_of_nil.
  - destruct IH as (kvs & E1 & E2 & E3); [intros; apply Hall; by right|].
    destruct (Hall x ltac:(left)) as (k & -> & [w Hw]).
    destruct (ho_range _ _ Hh _ _ _ Hw) as (_ & Hk & _).
    cbv zeta. rewrite record_key_state.
    destruct (get_history_state_run (E:=E) (hs_db s) h (n - 1) k Hh) as (o & Eo & Ho');
      [unfold in_width in *; lia|done|].
    rewrite Eo. cbn [mbind outcome_bind]. cbv zeta in E1. rewrite E1. cbn [mbind outcome_bind].
    eexists. split; [reflexivity|]. cbn [fmap list_fmap fst].
    split; [f_equal; exact E2|].
    intros k' v' [[= -> ->]|?]%elem_of_cons; [|by eauto].
    symmetry. apply Hcons; [done|]. eapply is_latest_ext; [|done].
    intros b Hb. symmetry. apply Ho. lia.
Qed.

(** Writing back the previous values. *)
Lemma write_back kvs s s' :
  rw_write (hs_rw s) = WriteNoRecord →
  (∀ k v, (k, v) ∈ kvs → v = tree_get (hs_tree s0) k) →
  (∀ k, k ∉ kvs.*1 → tree_get (hs_tree s) k = tree_get (hs_tree s0) k) →
  st_for kvs (λ '(k, v), hs_update_raw k v) s = (Ok tt, s') →
  hs_db s' = hs_db s ∧ hs_account_count s' = hs_account_count s ∧
  ∀ k, tree_get (hs_tree s') k = tree_get (hs_tree s0) k.
Proof.
  revert s. induction kvs as [|[k v] kvs IH]; intros s Hrw Hv Ht Hrun.
  - injection Hrun as <-. split; [done|]. split; [done|]. intros k. apply Ht, not_elem_of_nil.
  - cbn [st_for] in Hrun. erewrite st_bind_run in Hrun by (by apply hs_update_no_record).
    apply (IH (mkHistoryState (hs_account_count s) (<[k := v]> (hs_tree s)) (hs_db s) (hs_rw s)));
      [done| | |done].
    + intros k' v' ?. apply Hv. by right.
    + intros k' Hk'. cbn. unfold tree_get at 1. rewrite lookup_insert. case_decide; subst.
      * apply Hv. left.
      * apply Ht. cbn. apply not_elem_of_cons. auto.
Qed.

Lemma write_back_runs kvs s :
  rw_write (hs_rw s) = WriteNoRecord →
  ∃ s', st_for kvs (λ '(k, v), hs_update_raw k v) s = (Ok tt, s') ∧ hs_rw s' = hs_rw s.
Proof.
  revert s. induction kvs as [|[k v] kvs IH]; intros s Hrw; [by eexists|].
  cbn [st_for]. erewrite st_bind_run by (by apply hs_update_no_record).
  exact (IH (mkHistoryState (hs_account_count s) (<[k := v]> (hs_tree s)) (hs_db s) (hs_rw s)) Hrw).
Qed.

(** Removing the block's records gives back the history before it. *)
Lemma remove_block_run {E} db h :
  hist_ok db h → (∀ b k, b ≠ n → h !! (b, k) = h0 !! (b, k)) → (∀ k, h0 !! (n, k) = None) →
  ∃ db', remove_block_state_record (E:=E) n db = Ok db' ∧ hist_ok db' h0.
Proof.
  intros Hh Ho Hf. unfold remove_block_state_record.
  destruct (iter_block_state_record_run (E:=E) _ _ n Hh Hn) as (keys & Ek & _ & Hkeys).
  rewrite Ek. cbn. eexists. split; [reflexivity|]. clear Ek.
  assert (Hall : Forall (λ x, ∃ k, x = BlockStateRecordKey_new n k ∧ length k = 32%nat) keys).
  { apply Forall_forall. intros x (k & -> & [v Hv])%Hkeys.
    destruct (ho_range _ _ Hh _ _ _ Hv) as (_ & Hk & _). eauto. }
  assert (Hend : ∀ b k, (b = n → BlockStateRecordKey_new n k ∉ keys) → h !! (b, k) = h0 !! (b, k)).
  { intros b k Hk. destruct (decide (b = n)) as [->|]; [|by apply Ho]. rewrite Hf.
    apply eq_None_not_Some. intros HS. apply (Hk eq_refl), Hkeys. eauto. }
  clear Hkeys Ho. revert db h Hh Hend.
  induction Hall as [|x keys (k & -> & Hk) _ IH]; intros db h Hh Hend; cbn.
  - replace h0 with h; [done|]. apply map_eq. intros [b k]. apply Hend.
    intros _. apply not_elem_of_nil.
  - eapply IH; [by apply delete_hist_ok|]. intros b k' Hk'.
    rewrite lookup_delete. case_decide as Hd.
    + injection Hd as <- <-. by rewrite Hf.
    + apply Hend. intros ->. apply not_elem_of_cons. split; [|by apply Hk'].
      intros E'%record_key_inj; [|done..]. naive_solver.
Qed.
End Detach.

(** C4. Detaching a block undoes attaching it: after any sequence of writes
    made while block [n] (not the genesis) is attached, [detach_block_state n]
    succeeds, every key reads as it did before the block, and the history is
    the one from before the block. *)
Theorem detach_undoes_attach `{RocksIter, SmtRoot} (n : Z) (s0 s1 : HistoryState) (h0 : hist)
    (kvs : list (H256 * H256)) :
  u64 n → 1 ≤ n →
  hs_rw s0 = RWConfig_attach_block n →
  hist_ok (hs_db s0) h0 → (∀ k, h0 !! (n, k) = None) →
  consistent (hs_tree s0) h0 (n - 1) →
  Forall kv_wf kvs →
  st_for kvs (λ '(k, v), update_raw k v) s0 = (Ok tt, s1) →
  ∃ s2, detach_block_state n
          (mkHistoryState (hs_account_count s1) (hs_tree s1) (hs_db s1) RWConfig_detach_block)
        = (Ok tt, s2) ∧
    (∀ k, tree_get (hs_tree s2) k = tree_get (hs_tree s0) k) ∧
    hist_ok (hs_db s2) h0 ∧ hs_account_count s2 = hs_account_count s0.
Proof.
  intros Hn Hpos Hrw Hh Hf Hc Hkv Hrun.
  destruct (attach_updates n Hn s0 h0 kvs s0 h0 s1) as [h1 Ha]; [by split|done..|].
  destruct (reverted_key_values_run (E:=StateError.t) n Hn Hpos s0 h0 s1 h1 Ha Hc)
    as (rv & Erv & Hin & Hval).
  set (s1' := mkHistoryState _ _ _ _).
  destruct (write_back_runs rv s1' eq_refl) as (s2 & E2 & _).
  destruct (write_back s0 rv s1' s2 eq_refl Hval) as (Hdb & Hcnt & Ht); [|done|].
  { intros k Hk. apply (at_tree _ _ _ _ _ Ha). apply eq_None_not_Some. auto. }
  destruct (remove_block_run (E:=StateError.t) n Hn h0 (hs_db s1) h1) as (db' & E3 & Hh');
    [apply (at_hist _ _ _ _ _ Ha)|apply (at_old _ _ _ _ _ Ha)|done|].
  exists (with_db db' s2). split.
  - unfold detach_block_state. erewrite st_bind_run by done.
    erewrite st_lift_run by exact Erv. erewrite st_bind_run by exact E2.
    erewrite st_bind_run by done. rewrite Hdb. by erewrite st_lift_run by exact E3.
  - split; [done|]. split; [done|]. cbn. rewrite Hcnt. apply (at_count _ _ _ _ _ Ha).
Qed.
