(* ===== verification/SmtSerde.v ===== *)
(** * Serialization of sparse-merkle-tree branch nodes

    Models [crates/store/src/smt/serde.rs], the format in which the store keeps
    the nodes of every tree.  [BranchNode] and [MergeValue] are the types of the
    [sparse_merkle_tree] crate with its [trie] feature. *)
From Stdlib Require Import ZArith Lia Strings.Byte.
From stdpp Require Import prelude list gmap.
From S2P Require Import Prelude Bytes Types.
Local Open Scope Z_scope.

Inductive MergeValue :=
| Value (v : H256)
| MergeWithZero (base_node zero_bits : H256) (zero_count : byte)
| ShortCut (key value : H256) (height : byte).

Record BranchNode := mkBranchNode { left : MergeValue; right : MergeValue }.
Record BranchKey := mkBranchKey { bk_height : byte; node_key : H256 }.

Definition branch_key_to_vec (key : BranchKey) : bytes := node_key key ++ [bk_height key].

Definition branch_node_to_vec (node : BranchNode) : bytes :=
  match left node, right node with
  | Value l, Value r => [x00] ++ l ++ r
  | Value l, MergeWithZero base_node zero_bits zero_count =>
      [x01] ++ l ++ base_node ++ zero_bits ++ [zero_count]
  | MergeWithZero base_node zero_bits zero_count, Value r =>
      [x02] ++ base_node ++ zero_bits ++ [zero_count] ++ r
  | MergeWithZero l_base_node l_zero_bits l_zero_count,
    MergeWithZero r_base_node r_zero_bits r_zero_count =>
      [x03] ++ l_base_node ++ l_zero_bits ++ [l_zero_count]
            ++ r_base_node ++ r_zero_bits ++ [r_zero_count]
  | Value l, ShortCut key value height => [x04] ++ l ++ key ++ value ++ [height]
  | ShortCut key value height, Value r => [x05] ++ key ++ value ++ [height] ++ r
  | ShortCut l_key l_value l_height, ShortCut r_key r_value r_height =>
      [x06] ++ l_key ++ l_value ++ [l_height] ++ r_key ++ r_value ++ [r_height]
  | MergeWithZero base_node zero_bits zero_count, ShortCut key value height =>
      [x07] ++ base_node ++ zero_bits ++ [zero_count] ++ key ++ value ++ [height]
  | ShortCut key value height, MergeWithZero base_node zero_bits zero_count =>
      [x08] ++ key ++ value ++ [height] ++ base_node ++ zero_bits ++ [zero_count]
  end.

(** [slice[i]] *)
Definition byte_at {E} (i : nat) (bs : bytes) : outcome E byte := unwrap (bs !! i).

Definition slice_to_branch_node {E} (sl : bytes) : outcome E BranchNode :=
  tag ← byte_at 0 sl;
  match tag with
  | x00 =>
      l ← slice 1 33 sl; r ← slice 33 65 sl;
      Ok (mkBranchNode (Value l) (Value r))
  | x01 =>
      l ← slice 1 33 sl; base_node ← slice 33 65 sl; zero_bits ← slice 65 97 sl;
      zero_count ← byte_at 97 sl;
      Ok (mkBranchNode (Value l) (MergeWithZero base_node zero_bits zero_count))
  | x02 =>
      base_node ← slice 1 33 sl; zero_bits ← slice 33 65 sl; zero_count ← byte_at 65 sl;
      r ← slice 66 98 sl;
      Ok (mkBranchNode (MergeWithZero base_node zero_bits zero_count) (Value r))
  | x03 =>
      l_base_node ← slice 1 33 sl; l_zero_bits ← slice 33 65 sl; l_zero_count ← byte_at 65 sl;
      r_base_node ← slice 66 98 sl; r_zero_bits ← slice 98 130 sl; r_zero_count ← byte_at 130 sl;
      Ok (mkBranchNode (MergeWithZero l_base_node l_zero_bits l_zero_count)
                       (MergeWithZero r_base_node r_zero_bits r_zero_count))
  | x04 =>
      l ← slice 1 33 sl; key ← slice 33 65 sl; value ← slice 65 97 sl; height ← byte_at 97 sl;
      Ok (mkBranchNode (Value l) (ShortCut key value height))
  | x05 =>
      key ← slice 1 33 sl; value ← slice 33 65 sl; height ← byte_at 65 sl; r ← slice 66 98 sl;
      Ok (mkBranchNode (ShortCut key value height) (Value r))
  | x06 =>
      l_key ← slice 1 33 sl; l_value ← slice 33 65 sl; l_height ← byte_at 65 sl;
      r_key ← slice 66 98 sl; r_value ← slice 98 130 sl; r_height ← byte_at 130 sl;
      Ok (mkBranchNode (ShortCut l_key l_value l_height) (ShortCut r_key r_value r_height))
  | x07 =>
      base_node ← slice 1 33 sl; zero_bits ← slice 33 65 sl; zero_count ← byte_at 65 sl;
      key ← slice 66 98 sl; value ← slice 98 130 sl; height ← byte_at 130 sl;
      Ok (mkBranchNode (MergeWithZero base_node zero_bits zero_count) (ShortCut key value height))
  | x08 =>
      key ← slice 1 33 sl; value ← slice 33 65 sl; height ← byte_at 65 sl;
      base_node ← slice 66 98 sl; zero_bits ← slice 98 130 sl; zero_count ← byte_at 130 sl;
      Ok (mkBranchNode (ShortCut key value height) (MergeWithZero base_node zero_bits zero_count))
  | _ => Panic
  end.

(** The fields are 32-byte words. *)
Definition MergeValue_wf (m : MergeValue) : Prop :=
  match m with
  | Value v => length v = 32%nat
  | MergeWithZero a b _ | ShortCut a b _ => length a = 32%nat ∧ length b = 32%nat
  end.
Definition BranchNode_wf (n : BranchNode) : Prop :=
  MergeValue_wf (left n) ∧ MergeValue_wf (right n).

(** ** Reading consecutive fields *)
Lemma slice_Ok {E} a b (bs x : bytes) :
  slice (E:=E) a b bs = Ok x → (a ≤ b)%nat →
  length x = (b - a)%nat ∧ drop a bs = x ++ drop b bs.
Proof.
  unfold slice, sub_bytes. case_bool_decide as Hc; [|done]. intros [= <-] _.
  rewrite length_take, length_drop. split; [lia|].
  rewrite <- (take_drop (b - a) (drop a bs)) at 1. rewrite drop_drop. do 2 f_equal. lia.
Qed.

Lemma byte_at_Ok {E} i (bs : bytes) x :
  byte_at (E:=E) i bs = Ok x → drop i bs = x :: drop (S i) bs.
Proof. intros H%unwrap_Ok. by apply drop_S. Qed.

(** One field further: what is read at [a], and what remains behind it. *)
Lemma slice_next {E} a b (bs x y : bytes) :
  drop a bs = x ++ y → length x = (b - a)%nat → (a < b)%nat →
  slice (E:=E) a b bs = Ok x ∧ drop b bs = y.
Proof.
  intros Hd Hx Hab. unfold slice, sub_bytes. rewrite Hd. split.
  - rewrite bool_decide_eq_true_2; [by rewrite take_app_length'|].
    apply (f_equal length) in Hd. rewrite length_app, length_drop in Hd. lia.
  - replace b with (a + (b - a))%nat by lia. rewrite <- drop_drop, Hd. by apply drop_app_length'.
Qed.

Lemma byte_next {E} i (bs y : bytes) x :
  drop i bs = x :: y → byte_at (E:=E) i bs = Ok x ∧ drop (S i) bs = y.
Proof.
  intros Hd. unfold byte_at. split.
  - rewrite <- (Nat.add_0_r i), <- lookup_drop, Hd. done.
  - by rewrite <- Nat.add_1_r, <- drop_drop, Hd.
Qed.

(** Read the next field of the bytes described by [Hd]. *)
Ltac read_field Hd :=
  let H1 := fresh "Hrd" in let Hd' := fresh "Hnext" in
  match goal with
  | |- (@slice ?E ?a ?b ?bs ≫= _) = _ =>
      edestruct (slice_next (E:=E) a b bs) as [H1 Hd'];
        [exact Hd|cbn; assumption|lia|erewrite H1]
  | |- (@byte_at ?E ?a ?bs ≫= _) = _ =>
      edestruct (byte_next (E:=E) a bs) as [H1 Hd']; [exact Hd|erewrite H1]
  end;
  clear H1 Hd; rename Hd' into Hd; cbn [mbind outcome_bind].

(** Decoding an encoding gives the node back, whatever follows it. *)
Lemma decode_encode {E} n rest :
  BranchNode_wf n → slice_to_branch_node (E:=E) (branch_node_to_vec n ++ rest) = Ok n.
Proof.
  destruct n as [l r]. intros [Hl Hr]. set (bs := branch_node_to_vec _ ++ rest).
  assert (Hd : drop 0 bs = branch_node_to_vec (mkBranchNode l r) ++ rest) by done.
  clearbody bs. unfold slice_to_branch_node.
  destruct l as [a|a b c|a b c], r as [d|d e f|d e f]; cbn in Hl, Hr; destruct_and?;
    cbn [branch_node_to_vec left right] in Hd; rewrite <- ?(assoc_L app) in Hd; cbn [app] in Hd;
    repeat read_field Hd; reflexivity.
Qed.

Ltac unread_field :=
  match goal with
  | H : slice _ _ _ = Ok _ |- _ => apply slice_Ok in H; [destruct H as [? H]|lia]
  | H : byte_at _ _ = Ok _ |- _ => apply byte_at_Ok in H
  end.

(** What decodes is an encoding, possibly followed by more bytes. *)
Lemma encode_decode {E} bs n :
  slice_to_branch_node (E:=E) bs = Ok n →
  BranchNode_wf n ∧ ∃ rest, bs = branch_node_to_vec n ++ rest.
Proof.
  unfold slice_to_branch_node. intros H. apply bind_Ok in H as (tag & Htag & H).
  apply byte_at_Ok in Htag. rewrite drop_0 in Htag.
  destruct tag; try done; inv_ok; repeat unread_field; cbn in *;
    (split; [done|]);
    repeat match goal with H : drop ?i bs = _ |- _ => rewrite H in Htag; clear H end;
    eexists; repeat (rewrite <- ?(assoc_L app); cbn [app]); exact Htag.
Qed.

(** The node format is unambiguous: a byte string decodes to a node exactly
    when it starts with the encoding of that node (and the node's words are 32
    bytes long); every other input, an unknown tag or a truncated node, makes
    the decoder panic. *)
Theorem branch_node_codec (bs : bytes) (n : BranchNode) :
  (slice_to_branch_node (E:=Empty_set) bs = Ok n ↔
   BranchNode_wf n ∧ ∃ rest, bs = branch_node_to_vec n ++ rest) ∧
  (slice_to_branch_node (E:=Empty_set) bs = Panic ↔
   ¬ ∃ m rest, BranchNode_wf m ∧ bs = branch_node_to_vec m ++ rest).
Proof.
  split; split.
  - apply encode_decode.
  - intros [Hwf [rest ->]]. by apply decode_encode.
  - intros Hp (m & rest & Hwf & ->). by rewrite decode_encode in Hp.
  - intros Hn. destruct (slice_to_branch_node bs) as [m|[]|] eqn:E; [|done].
    destruct Hn. apply encode_decode in E as [Hwf [rest ->]]. eauto.
Qed.
