(* ===== verification/Finality.v ===== *)
(** * Finality

    Models the two notions of finality of the system: the one the layer-1
    scripts enforce ([gwos/contracts/gw-utils/src/finality.rs], [fork.rs]) and
    the one the node uses
    ([gwos/crates/types/src/offchain/compatible_finalized_timepoint.rs],
    [crates/utils/src/timepoint.rs], [crates/config/src/fork_config.rs]), and
    the search for the blocks that become final with a block
    ([crates/utils/src/calc_finalizing_range.rs]). *)
From Stdlib Require Import ZArith Lia Strings.Byte.
From stdpp Require Import prelude list gmap.
From S2P Require Import Prelude Bytes Types.
Local Open Scope Z_scope.

(** ** On chain *)
Definition BLOCK_INTERVAL_IN_MILLISECONDS : Z := 36000.

Definition finality_time_in_ms (rc : RollupConfig) : Z :=
  saturating_mul 64 (finality_blocks rc) BLOCK_INTERVAL_IN_MILLISECONDS.

Definition is_timestamp_finalized (prev : GlobalState) (timestamp : Z) : bool :=
  match Timepoint_from_full_value (last_finalized_timepoint prev) with
  | BlockNumber _ => false
  | Timestamp finalized => timestamp <=? finalized
  end.

Definition is_block_number_finalized (rc : RollupConfig) (prev : GlobalState)
    (block_number : Z) : bool :=
  let tip_number := saturating_sub (bm_count (gs_block prev)) 1 in
  saturating_add 64 block_number (finality_blocks rc) <=? tip_number.

Definition is_finalized (rc : RollupConfig) (prev : GlobalState) (tp : Timepoint) : bool :=
  match tp with
  | BlockNumber block_number => is_block_number_finalized rc prev block_number
  | Timestamp timestamp => is_timestamp_finalized prev timestamp
  end.

(** [Fork] (fork.rs) *)
Definition enforce_block_timestamp_lower_than_since (version : Z) : bool := version =? 1.
Definition enforce_correctness_of_state_checkpoint_list (version : Z) : bool := version <=? 1.
Definition enforce_block_timestamp_in_l1_backbone_range (version : Z) : bool := 2 <=? version.
Definition use_timestamp_as_timepoint (version : Z) : bool := 2 <=? version.

(** ** Off chain *)
Record CompatibleFinalizedTimepoint := mkCompatible {
  finalized_block_number : Z;
  finalized_timestamp : option Z;
}.

Definition compatible_from_global_state (gs : GlobalState) (rollup_config_finality : Z) :
    CompatibleFinalizedTimepoint :=
  match Timepoint_from_full_value (last_finalized_timepoint gs) with
  | BlockNumber finalized_block_number => mkCompatible finalized_block_number None
  | Timestamp finalized_timestamp =>
      let global_block_number := saturating_sub (bm_count (gs_block gs)) 1 in
      mkCompatible (saturating_sub global_block_number rollup_config_finality)
        (Some finalized_timestamp)
  end.

Definition compatible_is_finalized (c : CompatibleFinalizedTimepoint) (tp : Timepoint) : bool :=
  match tp with
  | BlockNumber block_number => block_number <=? finalized_block_number c
  | Timestamp timestamp =>
      match finalized_timestamp c with
      | Some finalized_timestamp => timestamp <=? finalized_timestamp
      | None => false
      end
  end.

(** [ForkConfig] (fork_config.rs): the activation heights *)
Record ForkConfig := mkForkConfig {
  increase_max_l2_tx_cycles_to_500m : option Z;
  upgrade_global_state_version_to_v2 : option Z;
}.
Definition L2TX_MAX_CYCLES_150M : Z := 150000000.
Definition L2TX_MAX_CYCLES_500M : Z := 500000000.

Definition fork_global_state_version (f : ForkConfig) (block_number : Z) : Z :=
  match upgrade_global_state_version_to_v2 f with
  | None => 1
  | Some fork_number => if block_number <? fork_number then 1 else 2
  end.
Definition fork_use_timestamp_as_timepoint (f : ForkConfig) (block_number : Z) : bool :=
  2 <=? fork_global_state_version f block_number.
Definition fork_enforce_state_checkpoint_list (f : ForkConfig) (block_number : Z) : bool :=
  fork_global_state_version f block_number <=? 1.
Definition max_l2_tx_cycles (f : ForkConfig) (block_number : Z) : Z :=
  match increase_max_l2_tx_cycles_to_500m f with
  | None => L2TX_MAX_CYCLES_150M
  | Some fork_number =>
      if block_number <? fork_number then L2TX_MAX_CYCLES_150M else L2TX_MAX_CYCLES_500M
  end.

(** timepoint.rs; the addition panics on overflow *)
Definition finalized_timepoint {E} (rc : RollupConfig) (f : ForkConfig)
    (block_number block_timestamp : Z) : outcome E Timepoint :=
  if fork_use_timestamp_as_timepoint f block_number
  then t ← add_w 64 block_timestamp (finality_time_in_ms rc); Ok (Timestamp t)
  else Ok (BlockNumber block_number).

Definition global_state_finalized_timepoint (rc : RollupConfig) (f : ForkConfig)
    (block_number block_timestamp : Z) : Timepoint :=
  if fork_use_timestamp_as_timepoint f block_number
  then Timestamp block_timestamp
  else BlockNumber (saturating_sub block_number (finality_blocks rc)).

(** ** calc_finalizing_range.rs *)
Inductive RangeError :=
| GetOlderBlockHash
| GetOlderBlock
| GetCurrentBlockGlobalState
| UpgradeConfigurationRequired
| GetParentBlock.

(** The lookups of [ChainStore] the search uses. *)
Record ChainDb := mkChainDb {
  get_block_hash_by_number : Z → option H256;
  get_block : H256 → option L2Block;
  get_block_post_global_state : H256 → option GlobalState;
}.

Section Range.
Context `{Blake2b, Molecule}.
Context (rc : RollupConfig) (fc : ForkConfig) (db : ChainDb).
Local Abbreviation M := (outcome RangeError).

Definition is_older_block_finalized (c : CompatibleFinalizedTimepoint) (n : Z) : M bool :=
  older_block_hash ← ok_or GetOlderBlockHash (get_block_hash_by_number db n);
  older_block ← ok_or GetOlderBlock (get_block db older_block_hash);
  tp ← finalized_timepoint rc fc n (timestamp (block_raw older_block));
  Ok (compatible_is_finalized c tp).

(** [while l < r { .. }]; [fuel] bounds the iterations *)
Fixpoint upper_bound_loop (fuel : nat) (c : CompatibleFinalizedTimepoint) (l r : Z) :
    option (M Z) :=
  match fuel with
  | O => None
  | S fuel =>
      if l <? r then
        match add_w (E:=RangeError) 64 (r - l) 1 with
        | Ok d =>
            let mid := l + d / 2 in
            match is_older_block_finalized c mid with
            | Ok true => upper_bound_loop fuel c mid r
            | Ok false => upper_bound_loop fuel c l (saturating_sub mid 1)
            | Err e => Some (Err e)
            | Panic => Some Panic
            end
        | Err e => Some (Err e)
        | Panic => Some Panic
        end
      else Some (Ok l)
  end.

(** Each iteration halves [r - l], a 64-bit number. *)
Definition UPPER_BOUND_FUEL : nat := 65.

Definition find_finalized_upper_bound (block : L2Block) : option (M Z) :=
  let block_number := number (block_raw block) in
  if negb (fork_use_timestamp_as_timepoint fc
             (saturating_sub block_number (finality_blocks rc)))
  then Some (Ok (saturating_sub block_number (finality_blocks rc)))
  else
    match get_block_post_global_state db (raw_block_hash (block_raw block)) with
    | None => Some (Err GetCurrentBlockGlobalState)
    | Some global_state =>
        let c := compatible_from_global_state global_state (finality_blocks rc) in
        match upgrade_global_state_version_to_v2 fc with
        | None => Some (Err UpgradeConfigurationRequired)
        | Some l =>
            upper_bound_loop UPPER_BOUND_FUEL c (saturating_sub l 1)
              (saturating_sub block_number 1)
        end
    end.

(** The half-open range of block numbers, [None] only if the search ran out of
    fuel. *)
Definition calc_finalizing_range (current : L2Block) : option (M (Z * Z)) :=
  if number (block_raw current) =? 0 then Some (Ok (0, 0))
  else
    match get_block db (parent_block_hash (block_raw current)) with
    | None => Some (Err GetParentBlock)
    | Some parent_block =>
        match find_finalized_upper_bound parent_block with
        | None => None
        | Some (Err e) => Some (Err e)
        | Some Panic => Some Panic
        | Some (Ok parent_bound) =>
            match find_finalized_upper_bound current with
            | None => None
            | Some (Err e) => Some (Err e)
            | Some Panic => Some Panic
            | Some (Ok current_bound) =>
                Some (a ← add_w 64 parent_bound 1; b ← add_w 64 current_bound 1; Ok (a, b))
            end
        end
    end.
End Range.

(** ** Encoding of timepoints *)

(** A timepoint is one 64-bit word: every word decodes to a timepoint that
    encodes back to it, and a timepoint below 2^63 survives encoding; a block
    number from 2^63 on would be read back as a timestamp. *)
Theorem timepoint_codec :
  (∀ x, u64 x → Timepoint_full_value (Timepoint_from_full_value x) = x) ∧
  (∀ t, 0 ≤ timepoint_value t < 2 ^ 63 →
     u64 (Timepoint_full_value t) ∧ Timepoint_from_full_value (Timepoint_full_value t) = t) ∧
  (∀ n, 2 ^ 63 ≤ n < 2 ^ 64 →
     Timepoint_from_full_value (Timepoint_full_value (BlockNumber n)) = Timestamp (n - 2 ^ 63)).
Proof.
  split; [|split].
  - intros x Hx. rewrite Timepoint_from_full_value_eq by done. unfold in_width in Hx.
    destruct (Z.ltb_spec x (2 ^ 63)); [done|].
    rewrite Timepoint_full_value_eq by (cbn [timepoint_value]; lia). lia.
  - intros t Ht. rewrite Timepoint_full_value_eq by done.
    assert (u64 (match t with BlockNumber n => n | Timestamp n => 2 ^ 63 + n end)) as Hu
      by (unfold in_width; destruct t; cbn [timepoint_value] in Ht; lia).
    split; [done|]. rewrite Timepoint_from_full_value_eq by done.
    destruct t as [n|n]; cbn [timepoint_value] in Ht.
    + by rewrite (proj2 (Z.ltb_lt _ _)) by lia.
    + rewrite (proj2 (Z.ltb_ge _ _)) by lia. f_equal. lia.
  - intros n Hn. cbn [Timepoint_full_value].
    rewrite Timepoint_from_full_value_eq by (unfold in_width; lia).
    by rewrite (proj2 (Z.ltb_ge _ _)) by lia.
Qed.

(** ** The two notions of finality agree *)

(** The finalized timepoint a global state should carry: a timestamp, or the
    tip number less the finality window. *)
Definition finalized_timepoint_wf (rc : RollupConfig) (gs : GlobalState) : Prop :=
  match Timepoint_from_full_value (last_finalized_timepoint gs) with
  | Timestamp _ => True
  | BlockNumber n =>
      n = saturating_sub (saturating_sub (bm_count (gs_block gs)) 1) (finality_blocks rc)
  end.

Definition tip_number (gs : GlobalState) : Z := saturating_sub (bm_count (gs_block gs)) 1.

(** The node and the layer-1 scripts agree on what is final, with one
    exception: while the chain is shorter than the finality window the node
    already counts block number 0 as final and the scripts do not. *)
Theorem offchain_finality_matches_onchain (rc : RollupConfig) (gs : GlobalState)
    (tp : Timepoint) :
  finalized_timepoint_wf rc gs →
  u64 (bm_count (gs_block gs)) → u64 (finality_blocks rc) → u64 (timepoint_value tp) →
  compatible_is_finalized (compatible_from_global_state gs (finality_blocks rc)) tp
  = is_finalized rc gs tp
    || bool_decide (tp = BlockNumber 0 ∧ tip_number gs < finality_blocks rc).
Proof.
  unfold finalized_timepoint_wf, compatible_is_finalized, compatible_from_global_state,
    is_finalized, is_timestamp_finalized, is_block_number_finalized, tip_number,
    saturating_sub, saturating_add, in_width.
  intros Hwf Hc Hf Ht. destruct tp as [n|n]; cbn [timepoint_value] in Ht.
  - assert (∀ m, m = Z.max 0 (Z.max 0 (bm_count (gs_block gs) - 1) - finality_blocks rc) →
      (n <=? m) = (Z.min (n + finality_blocks rc) (2 ^ 64 - 1)
                   <=? Z.max 0 (bm_count (gs_block gs) - 1))
                  || bool_decide (BlockNumber n = BlockNumber 0 ∧
                       Z.max 0 (bm_count (gs_block gs) - 1) < finality_blocks rc)) as Hm.
    { intros m ->. apply eq_bool_prop_intro. rewrite orb_True, bool_decide_spec, !Is_true_true.
      rewrite !Z.leb_le. split.
      - intros Hle. destruct (decide (Z.max 0 (bm_count (gs_block gs) - 1) < finality_blocks rc));
          [right; split; [f_equal; lia|done]|left; lia].
      - intros [?|[[= ->] ?]]; lia. }
    destruct (Timepoint_from_full_value _); by apply Hm.
  - rewrite bool_decide_eq_false_2, orb_false_r by (by intros [? _]).
    by destruct (Timepoint_from_full_value _).
Qed.

(** ** The binary search *)
Section Search.
Context `{Blake2b, Molecule}.
Context (rc : RollupConfig) (fc : ForkConfig) (db : ChainDb) (fork : Z) (ts : Z → Z).

(** The store has the blocks [fork..=top], their timestamps do not decrease,
    and adding the finality window to them stays in 64 bits. *)
Record chain_ok (top : Z) : Prop := {
  ck_fork : upgrade_global_state_version_to_v2 fc = Some fork;
  ck_range : 0 ≤ fork ∧ top < 2 ^ 64 - 1;
  ck_block n : fork ≤ n ≤ top → ∃ h b,
    get_block_hash_by_number db n = Some h ∧ get_block db h = Some b ∧
    timestamp (block_raw b) = ts n;
  ck_mono n m : fork ≤ n ≤ m → m ≤ top → ts n ≤ ts m;
  ck_time n : fork ≤ n ≤ top → ts n + finality_time_in_ms rc < 2 ^ 64;
}.

(** Whether block [n] is final with respect to [c]. *)
Definition block_final (c : CompatibleFinalizedTimepoint) (n : Z) : bool :=
  compatible_is_finalized c (Timestamp (ts n + finality_time_in_ms rc)).

Lemma block_final_mono c top n m :
  chain_ok top → fork ≤ n ≤ m → m ≤ top → block_final c m = true → block_final c n = true.
Proof.
  intros Hck Hnm Hm. unfold block_final, compatible_is_finalized.
  destruct (finalized_timestamp c); [|done].
  rewrite !Z.leb_le. pose proof (ck_mono _ Hck n m Hnm Hm). lia.
Qed.

Lemma is_older_block_finalized_run c top n :
  chain_ok top → fork ≤ n ≤ top → is_older_block_finalized rc fc db c n = Ok (block_final c n).
Proof.
  intros Hck Hn. destruct (ck_block _ Hck n Hn) as (h & b & E1 & E2 & E3).
  unfold is_older_block_finalized. rewrite E1. cbn [ok_or mbind outcome_bind].
  rewrite E2. cbn [ok_or mbind outcome_bind]. unfold finalized_timepoint,
    fork_use_timestamp_as_timepoint, fork_global_state_version.
  rewrite (ck_fork _ Hck), (proj2 (Z.ltb_ge _ _)), E3 by lia. cbn.
  unfold add_w, checked_add. by rewrite (proj2 (Z.ltb_lt _ _)) by (by apply (ck_time _ Hck)).
Qed.

(** With enough fuel the loop returns the last final block of the interval. *)
Lemma upper_bound_loop_spec c top fuel l r :
  chain_ok top → r - l < 2 ^ Z.of_nat fuel → 0 ≤ l → fork ≤ l + 1 → r ≤ top →
  ∃ u, upper_bound_loop rc fc db (S fuel) c l r = Some (Ok u) ∧ l ≤ u ≤ Z.max l r ∧
    ∀ n, l < n ≤ r → (n ≤ u ↔ block_final c n = true).
Proof.
  intros Hck. pose proof (ck_range _ Hck) as [Hf0 Htop].
  revert l r. induction fuel as [|fuel IH]; intros l r Hfuel Hl0 Hfl Hr.
  - change (2 ^ Z.of_nat 0) with 1 in Hfuel.
    exists l. cbn. rewrite (proj2 (Z.ltb_ge _ _)) by lia.
    split; [done|]. split; [lia|]. intros; lia.
  - rewrite Nat2Z.inj_succ, Z.pow_succ_r in Hfuel by lia.
    remember (S fuel) as fuel' eqn:Ef. cbn [upper_bound_loop]. destruct (Z.ltb_spec l r) as [Hlr|Hlr].
    2:{ exists l. split; [done|]. split; [lia|]. intros; lia. }
    unfold add_w at 1, checked_add at 1. rewrite (proj2 (Z.ltb_lt _ _)) by lia. cbn [unwrap].
    cbv zeta. set (mid := l + (r - l + 1) / 2).
    assert (Hmid : l < mid ≤ r ∧ r - mid ≤ (r - l) / 2 ∧ mid - 1 - l ≤ (r - l) / 2).
    { subst mid. pose proof (Z.div_mod (r - l + 1) 2 ltac:(lia)).
      pose proof (Z.mod_pos_bound (r - l + 1) 2 ltac:(lia)).
      pose proof (Z.div_mod (r - l) 2 ltac:(lia)).
      pose proof (Z.mod_pos_bound (r - l) 2 ltac:(lia)). lia. }
    assert (Hhalf : (r - l) / 2 < 2 ^ Z.of_nat fuel) by (apply Z.div_lt_upper_bound; lia).
    rewrite (is_older_block_finalized_run c top mid Hck) by lia.
    subst fuel'. destruct (block_final c mid) eqn:Hfin.
    + destruct (IH mid r) as (u & Eu & Hu & Hspec); [lia..|].
      exists u. split; [done|]. split; [lia|]. intros n Hn.
      destruct (decide (n ≤ mid)); [|apply Hspec; lia].
      split; [intros _|intros; lia]. apply (block_final_mono c top n mid Hck); [lia|lia|done].
    + replace (saturating_sub mid 1) with (mid - 1) by (unfold saturating_sub; lia).
      destruct (IH l (mid - 1)) as (u & Eu & Hu & Hspec); [lia..|].
      exists u. split; [done|]. split; [lia|]. intros n Hn.
      destruct (decide (n < mid)); [apply Hspec; lia|].
      split; [intros; lia|]. intros Hnf.
      rewrite (block_final_mono c top mid n Hck) in Hfin by (lia || done). done.
Qed.

(** A block whose post state is stored, in the timestamp era. *)
Definition stored_block (b : L2Block) (gs : GlobalState) : Prop :=
  get_block_post_global_state db (raw_block_hash (block_raw b)) = Some gs ∧
  fork ≤ saturating_sub (number (block_raw b)) (finality_blocks rc).

Lemma find_finalized_upper_bound_spec top b gs :
  chain_ok top → stored_block b gs → number (block_raw b) - 1 ≤ top →
  1 ≤ number (block_raw b) →
  ∃ u, find_finalized_upper_bound rc fc db b = Some (Ok u) ∧
    0 ≤ u ≤ Z.max (saturating_sub fork 1) (number (block_raw b) - 1) ∧
    ∀ n, fork ≤ n ≤ number (block_raw b) - 1 → saturating_sub fork 1 < n →
      (n ≤ u ↔ block_final (compatible_from_global_state gs (finality_blocks rc)) n = true).
Proof.
  intros Hck [Hgs Hera] Htop Hpos. pose proof (ck_range _ Hck) as [Hf0 Htop'].
  unfold find_finalized_upper_bound, fork_use_timestamp_as_timepoint,
    fork_global_state_version. cbv zeta. rewrite (ck_fork _ Hck).
  rewrite (proj2 (Z.ltb_ge _ _)) by lia. cbn [negb Z.leb]. rewrite Hgs.
  replace (saturating_sub (number (block_raw b)) 1) with (number (block_raw b) - 1)
    by (unfold saturating_sub; lia).
  unfold saturating_sub in *.
  destruct (upper_bound_loop_spec (compatible_from_global_state gs (finality_blocks rc)) top 64
              (Z.max 0 (fork - 1)) (number (block_raw b) - 1) Hck) as (u & Eu & Hu & Hspec);
    [change (2 ^ Z.of_nat 64) with (2 ^ 64); lia|lia..|].
  exists u. split; [exact Eu|]. split; [lia|]. intros n Hn Hn'. apply Hspec. lia.
Qed.
End Search.

(** In the timestamp era the finalizing range of a block is exactly the
    set of blocks that are final for it and not for its parent; the search
    always terminates within its fuel. *)
Theorem calc_finalizing_range_exact `{Blake2b, Molecule} (rc : RollupConfig) (fc : ForkConfig)
    (db : ChainDb) (fork : Z) (ts : Z → Z) (parent current : L2Block) (pgs cgs : GlobalState) :
  let N := number (block_raw current) in
  chain_ok rc fc db fork ts (N - 1) →
  1 ≤ fork → 2 ≤ N → N < 2 ^ 64 → 0 ≤ finality_blocks rc →
  get_block db (parent_block_hash (block_raw current)) = Some parent →
  number (block_raw parent) = N - 1 →
  stored_block rc db fork parent pgs → stored_block rc db fork current cgs →
  ∃ a b, calc_finalizing_range rc fc db current = Some (Ok (a, b)) ∧
    ∀ X, fork ≤ X < N - 1 →
      (a ≤ X < b ↔
       block_final rc ts (compatible_from_global_state pgs (finality_blocks rc)) X = false ∧
       block_final rc ts (compatible_from_global_state cgs (finality_blocks rc)) X = true).
Proof.
  intros N Hck Hf HN HN64 Hfb Hp Hpn Hps Hcs.
  assert (HNf : fork ≤ N - 1).
  { destruct Hps as [_ Hps]. unfold saturating_sub in Hps. lia. }
  destruct (find_finalized_upper_bound_spec rc fc db fork ts (N - 1) parent pgs)
    as (up & Eup & Hup & Hups); [done|done|lia|lia|].
  destruct (find_finalized_upper_bound_spec rc fc db fork ts (N - 1) current cgs)
    as (uc & Euc & Huc & Hucs); [done|done|subst N; lia|subst N; lia|].
  exists (up + 1), (uc + 1). split.
  - unfold calc_finalizing_range. fold N. rewrite (proj2 (Z.eqb_neq _ _)) by lia.
    rewrite Hp, Eup, Euc. unfold add_w, checked_add, saturating_sub in *.
    fold N in Huc. rewrite !(proj2 (Z.ltb_lt _ _)) by lia. done.
  - intros X HX. unfold saturating_sub in *.
    rewrite <- not_true_iff_false, <- Hups, <- Hucs by (fold N; lia). lia.
Qed.
