(* ===== verification/Ckb.v ===== *)
(** * The layer-1 environment and the shared library of the scripts

    Models [gwos/contracts/gw-utils/src] (errors, cell collectors, rollup and
    token cells, type id, signature cells, withdrawal lock arguments), the
    [since] field ([crates/utils/src/since.rs], the layout of CKB RFC 17 that
    [ckb_std::since] has too) and the key-value state of the scripts
    ([gwos/contracts/gw-state/src/kv_state.rs] over
    [gwos/contracts/ckb-smt/src/smt.rs]).

    The transaction a script runs in is only visible through the calls of
    [ckb_std]: they are the parameter [CkbEnv], and [query_fold] is its
    [QueryIter].  The C functions behind [Tree] are the parameter [SmtC], with
    the documented behaviour of [smt_state_insert] and [smt_state_fetch] as
    [SmtCLaws]; [Cbmt] is the root function of the [merkle_cbt] crate. *)
From Stdlib Require Import ZArith Lia Strings.Byte.
From stdpp Require Import prelude list gmap.
From S2P Require Import Prelude Bytes Types State StateSpec.
Local Open Scope Z_scope.

(** ** Errors (error.rs) *)
Module GwError.
Inductive t : Type :=
| IndexOutOfBound | ItemMissing | LengthNotEnough | Encoding | InvalidArgs | InvalidSince
| InvalidOutput | OwnerCellNotFound | RollupCellNotFound | RollupConfigNotFound
| ProofNotFound | AccountNotFound | MerkleProof | AmountOverflow | InsufficientAmount
| InsufficientInputFinalizedAssets | InsufficientOutputFinalizedAssets | SMTKeyMissing
| InvalidStateCheckpoint | InvalidBlock | InvalidStatus | InvalidStakeCellUnlock
| InvalidPostGlobalState | InvalidChallengeCell | InvalidStakeCell | InvalidDepositCell
| InvalidWithdrawalCell | InvalidCustodianCell | InvalidRevertedBlocks
| InvalidChallengeReward | InvalidSUDTCell | InvalidChallengeTarget
| InvalidWithdrawalRequest | UnknownEOAScript | UnknownContractScript | ScriptNotFound
| AccountLockCellNotFound | AccountScriptCellNotFound | InvalidTypeID | UnexpectedTxNonce
| WrongSignature | DuplicatedScriptHash | RegistryAddressNotFound
| DuplicatedRegistryAddress | NotFinalized.
#[export] Instance t_eq_dec : EqDecision t.
Proof. solve_decision. Defined.
End GwError.

(** [SysError] of [ckb_std] *)
Inductive SysError :=
| SysIndexOutOfBound
| SysItemMissing
| SysLengthNotEnough (actual : nat)
| SysEncoding
| SysUnknown (code : Z).
#[export] Instance SysError_eq_dec : EqDecision SysError.
Proof. solve_decision. Defined.

(** [impl From<SysError> for Error], applied by [?]; it panics on an unknown
    code. *)
Definition sys {A} (m : outcome SysError A) : outcome GwError.t A :=
  match m with
  | Ok a => Ok a
  | Err SysIndexOutOfBound => Err GwError.IndexOutOfBound
  | Err SysItemMissing => Err GwError.ItemMissing
  | Err (SysLengthNotEnough _) => Err GwError.LengthNotEnough
  | Err SysEncoding => Err GwError.Encoding
  | Err (SysUnknown _) | Panic => Panic
  end.

(** [impl From<CommonError> for Error] *)
Definition of_common (e : StateError.t) : GwError.t :=
  match e with
  | StateError.SMT _ | StateError.Store | StateError.MissingKey => GwError.SMTKeyMissing
  | StateError.MerkleProof => GwError.MerkleProof
  | StateError.AmountOverflow => GwError.AmountOverflow
  | StateError.DuplicatedScriptHash => GwError.DuplicatedScriptHash
  | StateError.InvalidArgs => GwError.InvalidArgs
  | StateError.UnknownEoaCodeHash => GwError.UnknownEOAScript
  | StateError.DuplicatedRegistryAddress => GwError.DuplicatedRegistryAddress
  end.

(** ** The environment *)
Inductive Source := SrcInput | SrcOutput | SrcCellDep | SrcHeaderDep | SrcGroupInput | SrcGroupOutput.

Class CkbEnv := {
  (** how many cells a source has, which bounds every loop over it *)
  cell_count : Source → nat;
  load_cell_capacity : nat → Source → outcome SysError Z;
  load_cell_lock : nat → Source → outcome SysError Script;
  load_cell_lock_hash : nat → Source → outcome SysError H256;
  load_cell_type : nat → Source → outcome SysError (option Script);
  load_cell_type_hash : nat → Source → outcome SysError (option H256);
  load_cell_data : nat → Source → outcome SysError bytes;
  load_cell_data_hash : nat → Source → outcome SysError H256;
  load_script : outcome SysError Script;
  load_script_hash : outcome SysError H256;
  load_input_since : nat → Source → outcome SysError Z;
  load_witness_args : nat → Source → outcome SysError WitnessArgs;
  (** the raw calls fill a buffer of the given size from the given offset *)
  load_cell_raw : Z → nat → nat → Source → outcome SysError bytes;
  load_cell_data_raw : Z → nat → nat → Source → outcome SysError bytes;
  load_input_raw : Z → nat → nat → Source → outcome SysError bytes;
  load_witness_raw : Z → nat → nat → Source → outcome SysError bytes;
}.

Section Query.
Context `{CkbEnv} {E A B : Type}.
Implicit Types (load : nat → Source → outcome SysError A).

(** [QueryIter::new(load, source)] consumed by a fallible loop that ends early
    once [stop] holds: it ends at the first index out of bounds and panics on
    any other error. *)
Fixpoint query_from load (src : Source) (stop : B → bool) (f : B → nat → A → outcome E B)
    (fuel i : nat) (acc : B) : outcome E B :=
  match fuel with
  | O => Ok acc
  | S fuel =>
      if stop acc then Ok acc
      else match load i src with
           | Ok a => acc ← f acc i a; query_from load src stop f fuel (S i) acc
           | Err SysIndexOutOfBound => Ok acc
           | Err _ | Panic => Panic
           end
  end.
Definition query_until load src stop f acc : outcome E B :=
  query_from load src stop f (cell_count src) 0 acc.
Definition query_fold load src f acc : outcome E B := query_until load src (λ _, false) f acc.
End Query.
Arguments query_until {_ E A B} load src stop f acc.
Arguments query_fold {_ E A B} load src f acc.

(** [.enumerate().filter_map(g).collect::<Result<Vec<_>, _>>()]; with [limit],
    [.take(n)] before the collection. *)
Definition query_filter_map `{CkbEnv} {E A B} (load : nat → Source → outcome SysError A)
    (src : Source) (limit : option nat) (g : nat → A → option (outcome E B)) :
    outcome E (list B) :=
  query_until load src (λ acc, bool_decide (limit = Some (length acc)))
    (λ acc i a, match g i a with
                | None => Ok acc
                | Some m => b ← m; Ok (acc ++ [b])
                end) [].

(** [QueryIter::new(load, source).position(p)] *)
Definition query_position `{CkbEnv} {E A} (load : nat → Source → outcome SysError A)
    (src : Source) (p : A → bool) : outcome E (option nat) :=
  query_until load src (λ acc, bool_decide (is_Some acc))
    (λ _ i a, Ok (if p a then Some i else None)) None.

(** ** [Since] (since.rs) *)
Definition SINCE_LOCK_TYPE_FLAG : Z := Z.shiftl 1 63.
Definition SINCE_METRIC_TYPE_FLAG_MASK : Z := 0x6000000000000000.
Definition SINCE_FLAGS_MASK : Z := 0xff00000000000000.
Definition SINCE_VALUE_MASK : Z := 0x00ffffffffffffff.
Definition SINCE_REMAIN_FLAGS_BITS : Z := 0x1f00000000000000.
Definition SINCE_LOCK_BY_BLOCK_NUMBER_MASK : Z := 0.
Definition SINCE_LOCK_BY_EPOCH_MASK : Z := 0x2000000000000000.
Definition SINCE_LOCK_BY_TIMESTAMP_MASK : Z := 0x4000000000000000.

Inductive LockValue :=
| LockBlockNumber (n : Z)
| LockEpochNumberWithFraction (n : Z)
| LockTimestamp (n : Z).

Definition since_new_timestamp_seconds (timestamp : Z) : Z :=
  Z.lor timestamp SINCE_LOCK_BY_TIMESTAMP_MASK.
Definition since_is_absolute (v : Z) : bool := Z.land v SINCE_LOCK_TYPE_FLAG =? 0.
Definition since_is_relative (v : Z) : bool := negb (since_is_absolute v).
Definition since_flags_is_valid (v : Z) : bool :=
  (Z.land v SINCE_REMAIN_FLAGS_BITS =? 0) &&
  negb (Z.land v SINCE_METRIC_TYPE_FLAG_MASK =? SINCE_METRIC_TYPE_FLAG_MASK).
Definition since_flags (v : Z) : Z := Z.land v SINCE_FLAGS_MASK.

(** [EpochNumberWithFraction] *)
Definition EPOCH_NUMBER_BITS : Z := 24.
Definition EPOCH_INDEX_BITS : Z := 16.
Definition EPOCH_LENGTH_BITS : Z := 16.
Definition epoch_new (number index len : Z) : Z :=
  Z.lor (Z.lor (Z.shiftl len (EPOCH_NUMBER_BITS + EPOCH_INDEX_BITS))
               (Z.shiftl index EPOCH_NUMBER_BITS)) number.
Definition epoch_number (v : Z) : Z := Z.land v (2 ^ EPOCH_NUMBER_BITS - 1).
Definition epoch_index (v : Z) : Z :=
  Z.land (Z.shiftr v EPOCH_NUMBER_BITS) (2 ^ EPOCH_INDEX_BITS - 1).
Definition epoch_length (v : Z) : Z :=
  Z.land (Z.shiftr v (EPOCH_NUMBER_BITS + EPOCH_INDEX_BITS)) (2 ^ EPOCH_LENGTH_BITS - 1).
Definition epoch_from_full_value (v : Z) : Z :=
  if epoch_length v =? 0 then epoch_new (epoch_number v) 0 1 else v.

(** The metric bits are matched against three constants; a 56-bit number of
    seconds times 1000 can overflow, which panics. *)
Definition since_extract_lock_value {E} (v : Z) : outcome E (option LockValue) :=
  let value := Z.land v SINCE_VALUE_MASK in
  let metric := Z.land v SINCE_METRIC_TYPE_FLAG_MASK in
  if metric =? SINCE_LOCK_BY_BLOCK_NUMBER_MASK then Ok (Some (LockBlockNumber value))
  else if metric =? SINCE_LOCK_BY_EPOCH_MASK then
    Ok (Some (LockEpochNumberWithFraction (epoch_from_full_value value)))
  else if metric =? SINCE_LOCK_BY_TIMESTAMP_MASK then
    t ← unwrap (checked_mul 64 value 1000); Ok (Some (LockTimestamp t))
  else Ok None.

(** [match (since.is_absolute(), since.extract_lock_value())
    { (true, Some(LockValue::Timestamp(t))) => t, _ => return Err(InvalidSince) }]
    on the since of input [i] *)
Definition absolute_timestamp_since `{CkbEnv} (i : nat) (src : Source) : outcome GwError.t Z :=
  v ← sys (load_input_since i src);
  lv ← since_extract_lock_value v;
  match since_is_absolute v, lv with
  | true, Some (LockTimestamp time_ms) => Ok time_ms
  | _, _ => Err GwError.InvalidSince
  end.

(** ** Cells (cells/types.rs) *)
Record CellValue := mkCellValue { cv_sudt_script_hash : H256; cv_amount : Z; cv_capacity : Z }.
#[export] Instance CellValue_eq_dec : EqDecision CellValue.
Proof. solve_decision. Defined.
Definition is_ckb_only (v : CellValue) : bool :=
  bool_decide (cv_sudt_script_hash v = CKB_SUDT_SCRIPT_ARGS) && (cv_amount v =? 0).

Record WithdrawalCell := mkWithdrawalCell {
  wc_index : nat; wc_args : WithdrawalLockArgs; wc_value : CellValue }.
Record DepositRequestCell := mkDepositRequestCell {
  dc_index : nat; dc_args : DepositLockArgs; dc_value : CellValue;
  dc_account_script : Script; dc_account_script_hash : H256 }.
Record CustodianCell := mkCustodianCell {
  cc_index : nat; cc_args : CustodianLockArgs; cc_value : CellValue }.
Record StakeCell := mkStakeCell {
  sc_index : nat; sc_args : StakeLockArgs; sc_capacity : Z }.
Record ChallengeCell := mkChallengeCell {
  chc_index : nat; chc_args : ChallengeLockArgs; chc_value : CellValue }.
Record BurnCell := mkBurnCell { bc_index : nat; bc_value : CellValue }.

Section Cells.
Context `{Blake2b, Molecule} {env : CkbEnv}.
Local Abbreviation M := (outcome GwError.t).

(** withdrawal.rs; [WithdrawalLockArgs::TOTAL_SIZE] is 32 + 8 + 32 + 32 *)
Definition WithdrawalLockArgs_TOTAL_SIZE : nat := 104.
Definition parse_withdrawal_lock_args (script_args : bytes) :
    M (WithdrawalLockArgs * Script) :=
  let lock_args_start := 32%nat in
  let lock_args_end := (lock_args_start + WithdrawalLockArgs_TOTAL_SIZE)%nat in
  let args_len := length script_args in
  if (args_len <? lock_args_end)%nat then Err GwError.InvalidArgs
  else
    raw_args ← slice lock_args_start lock_args_end script_args;
    lock_args ← ok_or GwError.InvalidArgs (dec_WithdrawalLockArgs raw_args);
    let owner_lock_start := (lock_args_end + 4)%nat in
    if (args_len <=? owner_lock_start)%nat then Err GwError.InvalidArgs
    else
      owner_lock_len_buf ← slice lock_args_end owner_lock_start script_args;
      let owner_lock_len := Z.to_nat (be_val owner_lock_len_buf) in
      let owner_lock_end := (owner_lock_start + owner_lock_len)%nat in
      if negb (owner_lock_end =? args_len)%nat then Err GwError.InvalidArgs
      else
        raw_script ← slice owner_lock_start owner_lock_end script_args;
        owner_lock ← ok_or GwError.InvalidArgs (dec_Script raw_script);
        if negb (bool_decide (script_hash owner_lock = wl_owner_lock_hash lock_args))
        then Err GwError.InvalidArgs
        else Ok (lock_args, owner_lock).

(** cells/utils.rs *)
Definition search_lock_hashes (owner_lock_hash : H256) (src : Source) : M (list nat) :=
  query_filter_map load_cell_lock_hash src None
    (λ i lock_hash, if bool_decide (lock_hash = owner_lock_hash) then Some (Ok i) else None).
Definition search_lock_hash (owner_lock_hash : H256) (src : Source) : M (option nat) :=
  query_position load_cell_lock_hash src (λ lock_hash, bool_decide (lock_hash = owner_lock_hash)).

Definition build_l2_sudt_script (rollup_script_hash : H256) (config : RollupConfig)
    (l1_sudt_script_hash : H256) : option Script :=
  if bool_decide (l1_sudt_script_hash = CKB_SUDT_SCRIPT_ARGS) then None
  else Some (mkScript (l2_sudt_validator_script_type_hash config)
               (ScriptHashType_to_u8 HashType) (rollup_script_hash ++ l1_sudt_script_hash)).

(** cells/rollup.rs *)
Definition MAX_ROLLUP_WITNESS_SIZE : Z := Z.shiftl 1 19.

Definition search_rollup_cell {E} (rollup_type_hash : H256) (src : Source) :
    outcome E (option nat) :=
  query_position load_cell_type_hash src
    (λ type_hash, bool_decide (type_hash = Some rollup_type_hash)).

Definition search_rollup_config_cell (rollup_config_hash : H256) : M (option nat) :=
  query_position load_cell_data_hash SrcCellDep
    (λ data_hash, bool_decide (data_hash = rollup_config_hash)).

Definition load_rollup_config (rollup_config_hash : H256) : M RollupConfig :=
  o ← search_rollup_config_cell rollup_config_hash;
  index ← ok_or GwError.RollupConfigNotFound o;
  data ← sys (load_cell_data index SrcCellDep);
  ok_or GwError.Encoding (dec_RollupConfig data).

(** The current layout, or the one of version 0. *)
Definition decode_global_state (data : bytes) : option GlobalState :=
  match dec_GlobalState data with
  | Some gs => Some gs
  | None => GlobalState_from_v0 <$> dec_GlobalStateV0 data
  end.

Definition search_rollup_state (rollup_type_hash : H256) (src : Source) :
    outcome SysError (option GlobalState) :=
  o ← search_rollup_cell rollup_type_hash src;
  match o with
  | None => Ok None
  | Some index =>
      data ← load_cell_data index src;
      gs ← ok_or SysEncoding (decode_global_state data); Ok (Some gs)
  end.

Definition parse_rollup_action (index : nat) (src : Source) : M RollupAction :=
  buf ← sys (load_witness_raw MAX_ROLLUP_WITNESS_SIZE 0 index src);
  witness_args ← ok_or GwError.Encoding (dec_WitnessArgs buf);
  output ← ok_or GwError.Encoding (wa_output_type witness_args);
  ok_or GwError.Encoding (dec_RollupAction output).

(** cells/lock_cells.rs *)
Definition fetch_sudt_script_hash (config : RollupConfig) (index : nat) (src : Source) :
    M (option H256) :=
  o ← sys (load_cell_type index src);
  match o with
  | Some type_ =>
      if (hash_type type_ =? ScriptHashType_to_u8 HashType)
         && bool_decide (code_hash type_ = l1_sudt_script_type_hash config)
      then sys (load_cell_type_hash index src)
      else Err GwError.InvalidSUDTCell
  | None => Ok None
  end.

(** [lock_args.len() > 32 && lock_args[..32] == rollup_type_hash && ..] *)
Definition is_rollup_lock (lock : Script) (rollup_type_hash lock_script_type_hash : H256) : bool :=
  (32 <? length (args lock))%nat
  && bool_decide (take 32 (args lock) = rollup_type_hash)
  && bool_decide (code_hash lock = lock_script_type_hash)
  && (hash_type lock =? ScriptHashType_to_u8 HashType).

Definition extract_args_from_lock {A} (decode : bytes → option A) (lock : Script)
    (rollup_type_hash lock_script_type_hash : H256) : option (M A) :=
  if negb (is_rollup_lock lock rollup_type_hash lock_script_type_hash) then None
  else Some (ok_or GwError.Encoding (decode (drop 32 (args lock)))).

Definition fetch_capacity_and_sudt_value (config : RollupConfig) (index : nat) (src : Source) :
    M CellValue :=
  capacity ← sys (load_cell_capacity index src);
  o ← fetch_sudt_script_hash config index src;
  match o with
  | Some sudt_script_hash =>
      data ← sys (load_cell_data index src);
      buf ← slice 0 16 data;
      let amount := le_val buf in
      if bool_decide (sudt_script_hash = CKB_SUDT_SCRIPT_ARGS) && negb (amount =? 0)
      then Err GwError.InvalidSUDTCell
      else Ok (mkCellValue sudt_script_hash amount capacity)
  | None => Ok (mkCellValue h256_zero 0 capacity)
  end.

(** The shape all collectors share: parse the arguments of the rollup's locks,
    fetch the value, build the cell. *)
Definition collect_rollup_locks {A B} (decode : bytes → option A)
    (rollup_type_hash lock_script_type_hash : H256) (config : RollupConfig) (src : Source)
    (limit : option nat) (build : nat → A → CellValue → option (M B)) : M (list B) :=
  query_filter_map load_cell_lock src limit (λ index lock,
    match extract_args_from_lock decode lock rollup_type_hash lock_script_type_hash with
    | None => None
    | Some (Ok a) =>
        match fetch_capacity_and_sudt_value config index src with
        | Ok value => build index a value
        | Err e => Some (Err e)
        | Panic => Some Panic
        end
    | Some (Err e) => Some (Err e)
    | Some Panic => Some Panic
    end).

Definition collect_stake_cells (rth : H256) (config : RollupConfig) (src : Source) :
    M (list StakeCell) :=
  collect_rollup_locks dec_StakeLockArgs rth (stake_script_type_hash config) config src None
    (λ index a value,
      Some (if negb (is_ckb_only value) then Err GwError.InvalidStakeCell
            else Ok (mkStakeCell index a (cv_capacity value)))).

Definition find_block_producer_stake_cell (rth : H256) (config : RollupConfig) (src : Source)
    (owner_lock_hash : H256) : M (option StakeCell) :=
  cells ← collect_stake_cells rth config src;
  reject_if (1 <? length cells)%nat GwError.InvalidStakeCell ;;
  reject_if (existsb (λ c, negb (bool_decide (sl_owner_lock_hash (sc_args c) = owner_lock_hash))) cells)
    GwError.InvalidStakeCell ;;
  Ok (last cells).

Definition find_challenge_cell (rth : H256) (config : RollupConfig) (src : Source) :
    M (option ChallengeCell) :=
  cells ← collect_rollup_locks dec_ChallengeLockArgs rth (challenge_script_type_hash config)
            config src (Some 2%nat)
            (λ index a value,
              if negb (is_ckb_only value) then None
              else Some (Ok (mkChallengeCell index a value)));
  reject_if (1 <? length cells)%nat GwError.InvalidChallengeCell ;;
  Ok (last cells).

Definition collect_withdrawal_locks (rth : H256) (config : RollupConfig) (src : Source) :
    M (list WithdrawalCell) :=
  query_filter_map load_cell_lock src None (λ index lock,
    if negb (is_rollup_lock lock rth (withdrawal_script_type_hash config)) then None
    else
      match parse_withdrawal_lock_args (args lock) with
      | Ok (a, _) => Some (value ← fetch_capacity_and_sudt_value config index src;
                           Ok (mkWithdrawalCell index a value))
      | Err _ => Some (Err GwError.Encoding)
      | Panic => Some Panic
      end).

Definition collect_custodian_locks (rth : H256) (config : RollupConfig) (src : Source) :
    M (list CustodianCell) :=
  collect_rollup_locks dec_CustodianLockArgs rth (custodian_script_type_hash config) config src
    None (λ index a value, Some (Ok (mkCustodianCell index a value))).

Definition collect_deposit_locks (rth : H256) (config : RollupConfig) (src : Source) :
    M (list DepositRequestCell) :=
  collect_rollup_locks dec_DepositLockArgs rth (deposit_script_type_hash config) config src None
    (λ index a value,
      let account_script := dl_layer2_lock a in
      Some (Ok (mkDepositRequestCell index a value account_script (script_hash account_script)))).

Definition collect_burn_cells (config : RollupConfig) (src : Source) : M (list BurnCell) :=
  query_filter_map load_cell_lock_hash src None (λ index lock_hash,
    if bool_decide (lock_hash = burn_lock_hash config)
    then Some (value ← fetch_capacity_and_sudt_value config index src;
               Ok (mkBurnCell index value))
    else None).
End Cells.

(** ** Tokens, type id, signature cells *)
Inductive TokenType := TokenCKB | TokenSUDT (h : H256).
#[export] Instance TokenType_eq_dec : EqDecision TokenType.
Proof. solve_decision. Defined.
Definition TokenType_from (sudt_script_hash : H256) : TokenType :=
  if bool_decide (sudt_script_hash = zeros 32) then TokenCKB else TokenSUDT sudt_script_hash.

Record CellTokenAmount := mkCellTokenAmount { total_token_amount : Z; total_capacity : Z }.

Section Misc.
Context `{Blake2b, Molecule} {env : CkbEnv}.
Local Abbreviation M := (outcome GwError.t).

Definition fetch_token_amount_by_lock_hash (owner_lock_hash : H256) (token_type : TokenType)
    (src : Source) : M CellTokenAmount :=
  query_fold load_cell_lock_hash src
    (λ acc i lock_hash,
      if negb (bool_decide (lock_hash = owner_lock_hash)) then Ok acc
      else
        capacity ← sys (load_cell_capacity i src);
        tc ← ok_or GwError.AmountOverflow (checked_add 128 (total_capacity acc) capacity);
        o ← sys (load_cell_type_hash i src);
        amount ← match o with
                 | Some type_hash =>
                     if bool_decide (TokenSUDT type_hash = token_type)
                     then data ← sys (load_cell_data i src); buf ← slice 0 16 data; Ok (le_val buf)
                     else Ok 0
                 | None => Ok 0
                 end;
        ta ← ok_or GwError.AmountOverflow (checked_add 128 (total_token_amount acc) amount);
        Ok (mkCellTokenAmount ta tc))
    (mkCellTokenAmount 0 0).

Definition TYPE_ID_SIZE : nat := 32.

Definition has_type_id_cell (index : nat) (src : Source) : bool :=
  match load_cell_raw 0 0 index src with
  | Ok _ | Err (SysLengthNotEnough _) => true
  | _ => false
  end.

Definition check_type_id (type_id : bytes) : M unit :=
  if has_type_id_cell 1 SrcGroupInput || has_type_id_cell 1 SrcGroupOutput
  then Err GwError.InvalidTypeID
  else if has_type_id_cell 0 SrcGroupInput then Ok tt
  else
    own_hash ← sys load_script_hash;
    o ← query_position load_cell_type_hash SrcOutput
          (λ type_hash, bool_decide (type_hash = Some own_hash));
    output_index ← ok_or GwError.InvalidTypeID o;
    input ← sys (load_input_raw 128 0 0 SrcInput);
    let expected_type_id := blake2b (input ++ le_bytes 8 (Z.of_nat output_index)) in
    reject_if (negb (bool_decide (type_id = expected_type_id))) GwError.InvalidTypeID.

(** signature.rs: the data after the 32-byte one-time lock hash is
    [sign type | message] *)
Fixpoint check_signature_cells (expected_signing_type : SigningType) (message : H256)
    (indexes : list nat) : M unit :=
  match indexes with
  | [] => Err GwError.AccountLockCellNotFound
  | index :: indexes =>
      let next := check_signature_cells expected_signing_type message indexes in
      data ← sys (load_cell_data_raw 33 32 index SrcInput);
      match data with
      | signing :: message' =>
          if negb (length data =? 33)%nat then next
          else match SigningType_try_from (Z_of_byte signing) with
               | Ok signing_type =>
                   if negb (bool_decide (signing_type = expected_signing_type)) then next
                   else if bool_decide (message' = message) then Ok tt else next
               | _ => next
               end
      | [] => next
      end
  end.
Definition check_l2_account_signature_cell (sh : H256) (expected_signing_type : SigningType)
    (message : H256) : M unit :=
  indexes ← search_lock_hashes sh SrcInput;
  check_signature_cells expected_signing_type message indexes.
End Misc.

(** ** The merkle tree of the scripts (ckb-smt/src/smt.rs)

    The C library keeps a buffer of key-value pairs. *)
Class SmtC := {
  smt_state : Type;
  smt_state_init : nat → smt_state;
  smt_state_insert : smt_state → H256 → H256 → outcome Z smt_state;
  smt_state_fetch : smt_state → H256 → outcome Z H256;
  smt_state_normalize : smt_state → smt_state;
  smt_calculate_root : smt_state → bytes → outcome Z H256;
  smt_verify : smt_state → H256 → bytes → outcome Z unit;
  smt_state_len : smt_state → nat;
}.

(** A successful insert makes the pair readable and no other; a fetch sees
    what was inserted last; normalizing does not change what is read; the calls
    return an error code instead of trapping. *)
Class SmtCLaws `{SmtC} : Prop := {
  smt_fetch_insert s k v s' k' :
    smt_state_insert s k v = Ok s' →
    smt_state_fetch s' k' = if decide (k = k') then Ok v else smt_state_fetch s k';
  smt_fetch_normalize s k : smt_state_fetch (smt_state_normalize s) k = smt_state_fetch s k;
  smt_fetch_init n k v : smt_state_fetch (smt_state_init n) k ≠ Ok v;
  smt_insert_returns s k v : smt_state_insert s k v ≠ Panic;
  smt_fetch_returns s k : smt_state_fetch s k ≠ Panic;
}.

Section Tree.
Context `{SmtC}.

(** [for (k, v) in kvs { tree.update(k, v)? }] on a fresh tree *)
Definition tree_of {E} (e : E) (capacity : nat) (kvs : list (H256 * H256)) :
    outcome E smt_state :=
  foldM (λ t '(k, v), map_err (λ _, e) (smt_state_insert t k v)) (smt_state_init capacity) kvs.

(** [tree.verify(root, proof)] with the error mapped to [e] *)
Definition tree_verify {E} (e : E) (t : smt_state) (root : H256) (proof : bytes) :
    outcome E unit := map_err (λ _, e) (smt_verify t root proof).
End Tree.

(** ** [KVState] (gw-state/src/kv_state.rs) *)
Definition GW_MAX_KV_PAIRS : nat := 1024.

Record KVState `{SmtC} := mkKVState {
  kv_tree : smt_state;
  kv_proof : bytes;
  kv_account_count : Z;
  kv_previous_root : option H256;
}.
Arguments mkKVState {_} _ _ _ _.

Section KV.
Context `{SmtC}.

Definition KVState_build (capacity : nat) (kv_pairs : list KVPair) (proof : bytes)
    (account_count : Z) (current_root : option H256) : outcome GwError.t KVState :=
  tree ← tree_of GwError.SMTKeyMissing capacity ((λ p, (kv_k p, kv_v p)) <$> kv_pairs);
  Ok (mkKVState tree proof account_count current_root).

Definition KVState_is_empty (s : KVState) : bool :=
  (smt_state_len (kv_tree s) =? 0)%nat && bool_decide (kv_proof s = []).

Definition with_kv_tree (t : smt_state) (s : KVState) : KVState :=
  mkKVState t (kv_proof s) (kv_account_count s) (kv_previous_root s).

Definition kvs_get_raw (k : H256) : ST KVState StateError.t H256 := λ s,
  (map_err (λ _, StateError.MissingKey) (smt_state_fetch (kv_tree s) k), s).
Definition kvs_update_raw (k v : H256) : ST KVState StateError.t unit := λ s,
  match smt_state_insert (kv_tree s) k v with
  | Ok t => (Ok tt, with_kv_tree t s)
  | Err _ => (Err StateError.MissingKey, s)
  | Panic => (Panic, s)
  end.
Definition kvs_set_account_count (c : Z) : ST KVState StateError.t unit := λ s,
  (Ok tt, mkKVState (kv_tree s) (kv_proof s) c (kv_previous_root s)).
Definition kvs_calculate_root : ST KVState StateError.t H256 := λ s,
  if KVState_is_empty s then (ok_or StateError.MerkleProof (kv_previous_root s), s)
  else
    let t := smt_state_normalize (kv_tree s) in
    (map_err (λ _, StateError.MerkleProof) (smt_calculate_root t (kv_proof s)),
     with_kv_tree t s).

#[export] Instance KVState_ops : StateOps KVState := {
  get_raw := kvs_get_raw;
  update_raw := kvs_update_raw;
  get_account_count := gets kv_account_count;
  set_account_count := kvs_set_account_count;
  calculate_root := kvs_calculate_root;
}.
End KV.

(** ** The partial state of a block behaves like the full state

    The witness of a block carries only the keys it touches: reading another
    key fails with [MissingKey], and everything else is as on the full state. *)
Section KVSim.
Context `{SmtCLaws, SmtRoot}.

Definition kv_rel (s : KVState) (rs : RefState) : Prop :=
  (∀ k v, smt_state_fetch (kv_tree s) k = Ok v → kv_get rs k = v) ∧
  kv_account_count s = rs_count rs.

#[export] Instance KVState_sim :
  StateSim KVState RefState kv_rel (λ e, e = StateError.MissingKey).
Proof.
  split.
  - intros k s rs [Hk Hc]. cbn. unfold kvs_get_raw.
    destruct (smt_state_fetch (kv_tree s) k) as [v|e|] eqn:E; cbn.
    + right. eexists _, _, _. split; [done|]. rewrite (Hk k v E). done.
    + left. eauto.
    + by destruct (smt_fetch_returns (kv_tree s) k).
  - intros k v s rs [Hk Hc]. cbn. unfold kvs_update_raw.
    destruct (smt_state_insert (kv_tree s) k v) as [t|e|] eqn:E.
    + right. eexists _, _, _. split; [done|]. split; [done|]. split; [|done].
      intros k' v'. cbn. rewrite (smt_fetch_insert _ _ _ _ k' E), kv_get_put.
      case_decide; [naive_solver|apply Hk].
    + left. eauto.
    + by destruct (smt_insert_returns (kv_tree s) k v).
  - intros s rs HR. right. eexists _, _, _. split; [done|].
    split; [cbn; by rewrite (proj2 HR)|done].
  - intros c s rs [Hk Hc]. right. by eexists _, _, _.
Qed.
End KVSim.
