(* ===== verification/Eip712.v ===== *)
(** * The messages layer-2 accounts sign

    Models [gwos/contracts/challenge-lock/src/verifications/eip712/{traits,types}.rs],
    the EIP-712 messages of transactions and withdrawals, and
    [try_assemble_polyjuice_args] of [verifications/tx_signature.rs], the
    Ethereum transaction a polyjuice transaction is signed as.  The theorems say
    that two different requests never have the same message.

    Keccak-256 ([sha3]), the ABI encoding of one word ([ethabi]) and the RLP
    encoding of a list ([rlp]) are parameters; their documented behaviour is in
    [EthAbiLaws] and [RlpLaws], and collisions are excluded for the preimages of
    the two messages only. *)
From Stdlib Require Import ZArith Lia Strings.Byte.
From Stdlib Require Import (notations) String.
From stdpp Require Import prelude list gmap.
From S2P Require Import Prelude Bytes Types State StateSpec Ckb.
Local Open Scope Z_scope.

Definition ascii (s : String.string) : bytes := String.list_byte_of_string s.
Arguments ascii s%_string.

(** ** Parameters *)
Class Keccak256 := keccak256 : bytes → H256.

(** [ethabi::encode(&[Token::Uint(x)])] and [ethabi::encode(&[Token::Address(a)])];
    a 32-byte array becomes a [U256] in big-endian order. *)
Class EthAbi := {
  abi_uint : Z → bytes;
  abi_address : bytes → bytes;
}.
Class EthAbiLaws `{EthAbi} := {
  abi_uint_be x : u256 x → abi_uint x = be_bytes 32 x;
  abi_address_be a : length a = 20%nat → abi_address a = zeros 12 ++ a;
}.

(** [RlpStream] between [begin_unbounded_list] and [finalize_unbounded_list]:
    unsigned integers and byte strings are appended. *)
Inductive RlpItem := RlpUint (x : Z) | RlpBytes (bs : bytes).
Class Rlp := rlp_list : list RlpItem → bytes.

(** An integer and its shortest big-endian byte string have the same encoding,
    so the encoding is injective among lists with the same kinds of items. *)
Definition same_kind (i j : RlpItem) : Prop :=
  match i, j with
  | RlpUint x, RlpUint y => 0 ≤ x ∧ 0 ≤ y
  | RlpBytes _, RlpBytes _ => True
  | _, _ => False
  end.
Class RlpLaws `{Rlp} :=
  rlp_list_inj l l' : Forall2 same_kind l l' → rlp_list l = rlp_list l' → l = l'.

(** ** The trait (traits.rs) *)
Class EIP712Encode (A : Type) := {
  encode_type : A → bytes;
  encode_data : A → bytes;
}.

Section Trait.
Context `{Keccak256, EIP712Encode A}.
Definition hash_struct (a : A) : H256 := keccak256 (keccak256 (encode_type a) ++ encode_data a).
Definition eip712_message (a : A) (domain_separator : H256) : H256 :=
  keccak256 ([x19; x01] ++ domain_separator ++ hash_struct a).
End Trait.

(** ** The types (types.rs) *)
Record EipScript := mkEipScript { es_code_hash : H256; es_hash_type : bytes; es_args : bytes }.
Record WithdrawalAsset := mkWithdrawalAsset {
  ckb_capacity : Z; udt_amount : Z; udt_script_hash : H256;
}.
Inductive AddressRegistry := ETH.
Record EipAddress := mkEipAddress { ea_registry : AddressRegistry; ea_address : bytes }.
Record EipL2Transaction := mkEipL2Transaction {
  et_chain_id : Z; et_from : EipAddress; et_to : H256; et_nonce : Z; et_args : bytes;
}.
Record EipWithdrawal := mkEipWithdrawal {
  ew_address : EipAddress; ew_nonce : Z; ew_chain_id : Z; ew_fee : Z;
  ew_layer1_owner_lock : EipScript; ew_withdraw : WithdrawalAsset;
}.
Record EIP712Domain := mkEIP712Domain {
  ed_name : bytes; ed_version : bytes; ed_chain_id : Z;
  ed_verifying_contract : option bytes; ed_salt : option bytes;
}.

Definition AddressRegistry_to_string (r : AddressRegistry) : bytes := ascii "ETH".
Definition AddressRegistry_from_registry_id (id : Z) : outcome GwError.t AddressRegistry :=
  if id =? ETH_REGISTRY_ACCOUNT_ID then Ok ETH else Err GwError.InvalidArgs.
Definition EipAddress_from_address (a : RegistryAddress) : outcome GwError.t EipAddress :=
  registry ← AddressRegistry_from_registry_id (registry_id a);
  reject_if (negb (length (address a) =? 20)%nat) GwError.InvalidArgs ;;
  Ok (mkEipAddress registry (address a)).

Definition EipL2Transaction_from_raw (data : RawL2Transaction) (sender_address : RegistryAddress)
    (to_script_hash : H256) : outcome GwError.t EipL2Transaction :=
  from ← EipAddress_from_address sender_address;
  Ok (mkEipL2Transaction (tx_chain_id data) from to_script_hash (tx_nonce data) (tx_args data)).

Definition EipWithdrawal_from_raw (data : RawWithdrawalRequest) (owner_lock : Script)
    (a : RegistryAddress) : outcome GwError.t EipWithdrawal :=
  hash_type ← map_err (λ _, GwError.InvalidArgs) (ScriptHashType_try_from (hash_type owner_lock));
  let hash_type := match hash_type with HashData => ascii "data" | HashType => ascii "type" end in
  a ← EipAddress_from_address a;
  Ok (mkEipWithdrawal a (w_nonce data) (w_chain_id data) (w_fee data)
        (mkEipScript (code_hash owner_lock) hash_type (args owner_lock))
        (mkWithdrawalAsset (w_capacity data) (w_amount data) (w_sudt_script_hash data))).

Definition domain_with_chain_id (chain_id : Z) : EIP712Domain :=
  mkEIP712Domain (ascii "Godwoken") (ascii "1") chain_id None None.

Section Encodings.
Context `{Keccak256, EthAbi}.
(** [Token::Uint(array.into())] *)
Local Abbreviation abi_word w := (abi_uint (be_val w)).

#[export] Instance EipScript_encode : EIP712Encode EipScript := {|
  encode_type _ := ascii "Script(bytes32 codeHash,string hashType,bytes args)";
  encode_data s := abi_word (es_code_hash s) ++ abi_word (keccak256 (es_hash_type s))
                   ++ abi_word (keccak256 (es_args s));
|}.
#[export] Instance WithdrawalAsset_encode : EIP712Encode WithdrawalAsset := {|
  encode_type _ :=
    ascii "WithdrawalAsset(uint256 ckbCapacity,uint256 UDTAmount,bytes32 UDTScriptHash)";
  encode_data a := abi_uint (ckb_capacity a) ++ abi_uint (udt_amount a)
                   ++ abi_word (udt_script_hash a);
|}.
#[export] Instance EipAddress_encode : EIP712Encode EipAddress := {|
  encode_type _ := ascii "RegistryAddress(string registry,address address)";
  encode_data a := abi_word (keccak256 (AddressRegistry_to_string (ea_registry a)))
                   ++ abi_address (ea_address a);
|}.
#[export] Instance EipL2Transaction_encode : EIP712Encode EipL2Transaction := {|
  encode_type t :=
    ascii "L2Transaction(uint256 chainId,RegistryAddress from,bytes32 to,uint256 nonce,bytes args)"
    ++ encode_type (et_from t);
  encode_data t := abi_uint (et_chain_id t) ++ abi_word (hash_struct (et_from t))
                   ++ abi_word (et_to t) ++ abi_uint (et_nonce t) ++ abi_word (keccak256 (et_args t));
|}.
#[export] Instance EipWithdrawal_encode : EIP712Encode EipWithdrawal := {|
  encode_type w :=
    ascii "Withdrawal(RegistryAddress address,uint256 nonce,uint256 chainId,uint256 fee,Script layer1OwnerLock,WithdrawalAsset withdraw)"
    ++ encode_type (ew_address w) ++ encode_type (ew_layer1_owner_lock w)
    ++ encode_type (ew_withdraw w);
  encode_data w := abi_word (hash_struct (ew_address w)) ++ abi_uint (ew_nonce w)
                   ++ abi_uint (ew_chain_id w) ++ abi_uint (ew_fee w)
                   ++ abi_word (hash_struct (ew_layer1_owner_lock w))
                   ++ abi_word (hash_struct (ew_withdraw w));
|}.
#[export] Instance EIP712Domain_encode : EIP712Encode EIP712Domain := {|
  encode_type d :=
    ascii "EIP712Domain(" ++ ascii "string name,string version,uint256 chainId"
    ++ (if ed_verifying_contract d is Some _ then ascii ",address verifyingContract" else [])
    ++ (if ed_salt d is Some _ then ascii ",bytes32 salt" else []) ++ ascii ")";
  encode_data d := abi_word (keccak256 (ed_name d)) ++ abi_word (keccak256 (ed_version d))
                   ++ abi_uint (ed_chain_id d)
                   ++ (match ed_verifying_contract d with Some a => abi_address a | None => [] end)
                   ++ (match ed_salt d with Some s => abi_word s | None => [] end);
|}.
End Encodings.

(** ** The message of a request *)
Section Messages.
Context `{Keccak256, EthAbi}.

(** [verify_tx_signature], for a transaction that is not a polyjuice one *)
Definition tx_eip712_message (raw_tx : RawL2Transaction) (sender_address : RegistryAddress)
    (receiver_script_hash : H256) : outcome GwError.t H256 :=
  typed_tx ← EipL2Transaction_from_raw raw_tx sender_address receiver_script_hash;
  Ok (eip712_message typed_tx (hash_struct (domain_with_chain_id (tx_chain_id raw_tx)))).

(** [verify_withdrawal] *)
Definition withdrawal_eip712_message (raw : RawWithdrawalRequest) (owner_lock : Script)
    (withdrawal_address : RegistryAddress) : outcome GwError.t H256 :=
  typed_message ← EipWithdrawal_from_raw raw owner_lock withdrawal_address;
  Ok (eip712_message typed_message (hash_struct (domain_with_chain_id (w_chain_id raw)))).
End Messages.

(** ** The Ethereum transaction of a polyjuice transaction (tx_signature.rs) *)
Section Polyjuice.
Context `{Blake2b, Molecule, Rlp}.

Definition POLYJUICE_HEADER : bytes := [xff; xff; xff] ++ ascii "POLY".
Definition EVMC_CREATE : Z := 3.

(** The argument bytes are read in place: call kind, gas limit, gas price,
    value, payload length and payload. *)
Definition try_assemble_polyjuice_args (raw_tx : RawL2Transaction) (receiver_script : Script) :
    option bytes :=
  let a := tx_args raw_tx in
  if (length a <? 52)%nat then None
  else if negb (bool_decide (take 7 a = POLYJUICE_HEADER)) then None
  else
    let gas_price := le_val (sub_bytes 16 16 a) in
    let gas_limit := le_val (sub_bytes 8 8 a) in
    let value := le_val (sub_bytes 32 16 a) in
    let payload_length := Z.to_nat (le_val (sub_bytes 48 4 a)) in
    let receiver_hash := script_hash receiver_script in
    to ← (if le_val (sub_bytes 7 1 a) =? EVMC_CREATE then Some []
          else if (length (args receiver_script) <? 36)%nat then None
          else Some (take 16 receiver_hash ++ le_bytes 4 (tx_to_id raw_tx)));
    if negb (length a =? 52 + payload_length)%nat then None
    else Some (rlp_list [RlpUint (tx_nonce raw_tx); RlpUint gas_price; RlpUint gas_limit;
                         RlpBytes to; RlpUint value; RlpBytes (drop 52 a);
                         RlpUint (tx_chain_id raw_tx); RlpUint 0; RlpUint 0]).
End Polyjuice.

#[local] Arguments be_val : simpl never.
#[local] Arguments le_val : simpl never.

(** ** Words *)
Section Words.
Context `{Keccak256, EthAbiLaws}.
Context (keccak_length : ∀ x, length (keccak256 x) = 32%nat).

Lemma abi_uint_length x : u256 x → length (abi_uint x) = 32%nat.
Proof. intros Hx. by rewrite abi_uint_be, be_bytes_length. Qed.
Lemma abi_uint_inj x y : u256 x → u256 y → abi_uint x = abi_uint y → x = y.
Proof.
  intros Hx Hy E. rewrite !abi_uint_be in E by done. apply (f_equal be_val) in E.
  by rewrite !be_val_bytes_small in E.
Qed.
Lemma abi_word w : length w = 32%nat → abi_uint (be_val w) = w.
Proof.
  intros Hw. pose proof (be_val_range w) as Hr. rewrite Hw in Hr.
  rewrite abi_uint_be by done. rewrite <- Hw. apply be_bytes_val.
Qed.
Lemma abi_hash x : abi_uint (be_val (keccak256 x)) = keccak256 x.
Proof. by apply abi_word. Qed.
End Words.

Lemma u256_of_width w x : 0 <= w <= 256 → in_width w x → u256 x.
Proof. intros Hw [Hx0 Hx]. split; [done|]. eapply Z.lt_le_trans; [done|]. apply Z.pow_le_mono_r; lia. Qed.

(** ** Messages bind what is signed *)
Section Binding.
Context `{Keccak256, EthAbiLaws}.

(** Keccak-256 has 32-byte results and no collision among [l]. *)
Definition keccak_ok (l : list bytes) : Prop :=
  (∀ x, length (keccak256 x) = 32%nat) ∧
  (∀ x y, x ∈ l → y ∈ l → keccak256 x = keccak256 y → x = y).

Definition struct_preimage `{EIP712Encode A} (a : A) : bytes :=
  keccak256 (encode_type a) ++ encode_data a.
Definition message_preimage `{EIP712Encode A} (a : A) (chain_id : Z) : bytes :=
  [x19; x01] ++ hash_struct (domain_with_chain_id chain_id) ++ hash_struct a.

Lemma message_inj `{EIP712Encode A} (a b : A) c d l :
  keccak_ok l → message_preimage a c ∈ l → message_preimage b d ∈ l →
  eip712_message a (hash_struct (domain_with_chain_id c))
  = eip712_message b (hash_struct (domain_with_chain_id d)) →
  hash_struct a = hash_struct b.
Proof.
  intros [Hlen Hinj] Ha Hb E. apply Hinj in E; [|done..]. simplify_list_eq.
  apply app_inj_1 in E as [_ E]; [done|]. unfold hash_struct. by rewrite !Hlen.
Qed.

Lemma struct_inj `{EIP712Encode A} (a b : A) l :
  keccak_ok l → struct_preimage a ∈ l → struct_preimage b ∈ l →
  hash_struct a = hash_struct b → encode_data a = encode_data b.
Proof.
  intros [Hlen Hinj] Ha Hb E. apply Hinj in E; [|done..].
  apply app_inj_1 in E as [_ E]; [done|]. by rewrite !Hlen.
Qed.

Lemma address_inj a b l :
  keccak_ok l → length (ea_address a) = 20%nat → length (ea_address b) = 20%nat →
  struct_preimage a ∈ l → struct_preimage b ∈ l → hash_struct a = hash_struct b → a = b.
Proof.
  intros Hok La Lb Ha Hb E. apply (struct_inj _ _ l) in E; [|done..].
  destruct a as [[] a], b as [[] b]. cbn in *. apply app_inj_1 in E as [_ E]; [|done].
  rewrite !abi_address_be in E by done. apply app_inj_1 in E as [_ ->]; done.
Qed.

(** What is hashed for a transaction. *)
Definition tx_preimages (t : EipL2Transaction) : list bytes :=
  [message_preimage t (et_chain_id t); struct_preimage t; struct_preimage (et_from t); et_args t].
Definition eip_tx (raw : RawL2Transaction) (a : RegistryAddress) (to : H256) : EipL2Transaction :=
  mkEipL2Transaction (tx_chain_id raw) (mkEipAddress ETH (address a)) to (tx_nonce raw) (tx_args raw).

Lemma EipAddress_from_address_Ok a e :
  EipAddress_from_address a = Ok e →
  registry_id a = ETH_REGISTRY_ACCOUNT_ID ∧ length (address a) = 20%nat ∧
  e = mkEipAddress ETH (address a).
Proof.
  unfold EipAddress_from_address, AddressRegistry_from_registry_id. intros Hrun.
  destruct (registry_id a =? ETH_REGISTRY_ACCOUNT_ID) eqn:E; [|done]. inv_ok. bool_inv.
  by destruct x.
Qed.

Lemma tx_data_inj t t' l :
  keccak_ok l → et_args t ∈ l → et_args t' ∈ l → length (et_to t) = 32%nat →
  length (et_to t') = 32%nat → u64 (et_chain_id t) → u64 (et_chain_id t') → u32 (et_nonce t) →
  u32 (et_nonce t') → encode_data t = encode_data t' →
  et_chain_id t = et_chain_id t' ∧ hash_struct (et_from t) = hash_struct (et_from t') ∧
  et_to t = et_to t' ∧ et_nonce t = et_nonce t' ∧ et_args t = et_args t'.
Proof.
  intros [Hlen Hinj] Ha Ha' Ht Ht' Hc Hc' Hn Hn' E. cbn in E. unfold hash_struct in *.
  apply (u256_of_width 64) in Hc, Hc'; [|lia..]. apply (u256_of_width 32) in Hn, Hn'; [|lia..].
  rewrite !(abi_hash Hlen) in E. rewrite !abi_word in E by done.
  apply app_inj_1 in E as [E1 E]; [|by rewrite !abi_uint_length].
  apply app_inj_1 in E as [E2 E]; [|by rewrite !Hlen].
  apply app_inj_1 in E as [E3 E]; [|congruence].
  apply app_inj_1 in E as [E4 E5]; [|by rewrite !abi_uint_length].
  split; [by apply abi_uint_inj|]. split; [done|]. split; [done|].
  split; [by apply abi_uint_inj|]. by apply Hinj.
Qed.

(** What is hashed for a withdrawal. *)
Definition withdrawal_preimages (w : EipWithdrawal) : list bytes :=
  [message_preimage w (ew_chain_id w); struct_preimage w; struct_preimage (ew_address w);
   struct_preimage (ew_layer1_owner_lock w); struct_preimage (ew_withdraw w);
   es_hash_type (ew_layer1_owner_lock w); es_args (ew_layer1_owner_lock w)].

Definition hash_type_name (t : Z) : bytes := if t =? 0 then ascii "data" else ascii "type".
Definition eip_withdrawal (raw : RawWithdrawalRequest) (owner : Script) (a : RegistryAddress) :
    EipWithdrawal :=
  mkEipWithdrawal (mkEipAddress ETH (address a)) (w_nonce raw) (w_chain_id raw) (w_fee raw)
    (mkEipScript (code_hash owner) (hash_type_name (hash_type owner)) (args owner))
    (mkWithdrawalAsset (w_capacity raw) (w_amount raw) (w_sudt_script_hash raw)).

Lemma script_inj s s' l :
  keccak_ok l → struct_preimage s ∈ l → struct_preimage s' ∈ l →
  es_hash_type s ∈ l → es_hash_type s' ∈ l → es_args s ∈ l → es_args s' ∈ l →
  length (es_code_hash s) = 32%nat → length (es_code_hash s') = 32%nat →
  hash_struct s = hash_struct s' → s = s'.
Proof.
  intros Hok Hs Hs' Ht Ht' Ha Ha' Hl Hl' E. apply (struct_inj _ _ l) in E; [|done..].
  destruct Hok as [Hlen Hinj]. destruct s as [c t a], s' as [c' t' a']. cbn in *.
  rewrite !(abi_hash Hlen), !abi_word in E by done.
  apply app_inj_1 in E as [-> E]; [|congruence].
  apply app_inj_1 in E as [E1 E2]; [|by rewrite !Hlen].
  by apply Hinj in E1 as ->, E2 as ->.
Qed.

Definition asset_in_range (a : WithdrawalAsset) : Prop :=
  u64 (ckb_capacity a) ∧ u128 (udt_amount a) ∧ length (udt_script_hash a) = 32%nat.

Lemma asset_inj a a' l :
  keccak_ok l → struct_preimage a ∈ l → struct_preimage a' ∈ l →
  asset_in_range a → asset_in_range a' → hash_struct a = hash_struct a' → a = a'.
Proof.
  intros Hok Ha Ha' (Hc & Hu & Hs) (Hc' & Hu' & Hs') E. apply (struct_inj _ _ l) in E; [|done..].
  apply (u256_of_width 64) in Hc, Hc'; [|lia..]. apply (u256_of_width 128) in Hu, Hu'; [|lia..].
  destruct a as [c u s], a' as [c' u' s']. cbn in *. rewrite !abi_word in E by done.
  apply app_inj_1 in E as [E1 E]; [|by rewrite !abi_uint_length].
  apply app_inj_1 in E as [E2 ->]; [|by rewrite !abi_uint_length].
  by apply abi_uint_inj in E1 as ->, E2 as ->.
Qed.

Lemma withdrawal_data_inj w w' l :
  keccak_ok l → u32 (ew_nonce w) → u32 (ew_nonce w') → u64 (ew_chain_id w) → u64 (ew_chain_id w') →
  u128 (ew_fee w) → u128 (ew_fee w') → encode_data w = encode_data w' →
  hash_struct (ew_address w) = hash_struct (ew_address w') ∧ ew_nonce w = ew_nonce w' ∧
  ew_chain_id w = ew_chain_id w' ∧ ew_fee w = ew_fee w' ∧
  hash_struct (ew_layer1_owner_lock w) = hash_struct (ew_layer1_owner_lock w') ∧
  hash_struct (ew_withdraw w) = hash_struct (ew_withdraw w').
Proof.
  intros [Hlen Hinj] Hn Hn' Hc Hc' Hf Hf' E. cbn in E. unfold hash_struct in *.
  apply (u256_of_width 64) in Hc, Hc'; [|lia..]. apply (u256_of_width 32) in Hn, Hn'; [|lia..].
  apply (u256_of_width 128) in Hf, Hf'; [|lia..]. rewrite !(abi_hash Hlen) in E.
  apply app_inj_1 in E as [E1 E]; [|by rewrite !Hlen].
  apply app_inj_1 in E as [E2 E]; [|by rewrite !abi_uint_length].
  apply app_inj_1 in E as [E3 E]; [|by rewrite !abi_uint_length].
  apply app_inj_1 in E as [E4 E]; [|by rewrite !abi_uint_length].
  apply app_inj_1 in E as [E5 E6]; [|by rewrite !Hlen].
  apply abi_uint_inj in E2, E3, E4; done.
Qed.

Lemma hash_type_name_inj t t' :
  is_ok (ScriptHashType_try_from t) = true → is_ok (ScriptHashType_try_from t') = true →
  hash_type_name t = hash_type_name t' → t = t'.
Proof.
  unfold ScriptHashType_try_from. intros Ht Ht'. destruct t as [|[]|], t' as [|[]|]; done.
Qed.

Lemma withdrawal_message_Ok raw owner a m :
  withdrawal_eip712_message raw owner a = Ok m →
  registry_id a = ETH_REGISTRY_ACCOUNT_ID ∧ length (address a) = 20%nat ∧
  is_ok (ScriptHashType_try_from (hash_type owner)) = true ∧
  m = eip712_message (eip_withdrawal raw owner a)
        (hash_struct (domain_with_chain_id (w_chain_id raw))).
Proof.
  unfold withdrawal_eip712_message, EipWithdrawal_from_raw. intros Hm. inv_ok.
  match goal with E : EipAddress_from_address _ = Ok _ |- _ =>
    apply EipAddress_from_address_Ok in E as (? & ? & ->) end.
  unfold ScriptHashType_try_from in *. destruct owner as [c t b]. unfold eip_withdrawal, hash_type_name.
  cbn [hash_type code_hash args] in *. split; [done|]. split; [done|].
  by destruct t as [|[]|]; simplify_eq.
Qed.
End Binding.

Section PolyjuiceArgs.
Context `{Blake2b, Molecule, Rlp}.

(** The receiver of the Ethereum transaction. *)
Definition polyjuice_to (raw : RawL2Transaction) (receiver : Script) : option bytes :=
  if le_val (sub_bytes 7 1 (tx_args raw)) =? EVMC_CREATE then Some []
  else if (length (args receiver) <? 36)%nat then None
  else Some (take 16 (script_hash receiver) ++ le_bytes 4 (tx_to_id raw)).

Lemma polyjuice_args_Some raw receiver data :
  try_assemble_polyjuice_args raw receiver = Some data →
  let a := tx_args raw in
  ∃ to, polyjuice_to raw receiver = Some to ∧ take 7 a = POLYJUICE_HEADER ∧ (52 <= length a)%nat ∧
    data = rlp_list [RlpUint (tx_nonce raw); RlpUint (le_val (sub_bytes 16 16 a));
                     RlpUint (le_val (sub_bytes 8 8 a)); RlpBytes to;
                     RlpUint (le_val (sub_bytes 32 16 a)); RlpBytes (drop 52 a);
                     RlpUint (tx_chain_id raw); RlpUint 0; RlpUint 0] ∧
    length a = (52 + Z.to_nat (le_val (sub_bytes 48 4 a)))%nat.
Proof.
  unfold try_assemble_polyjuice_args. fold (polyjuice_to raw receiver). intros Hrun.
  destruct (length (tx_args raw) <? 52)%nat eqn:E1; [done|].
  destruct (bool_decide _) eqn:E2; [|done]. cbn [negb] in Hrun.
  destruct (polyjuice_to raw receiver) as [to|]; [|done]. cbn [mbind option_bind] in Hrun.
  destruct (_ =? _)%nat eqn:E3; [|done]. bool_inv. injection Hrun as <-. exists to. done.
Qed.

(** The fields of the argument bytes from the gas limit on. *)
Lemma polyjuice_args_split a :
  drop 8 a = sub_bytes 8 8 a ++ sub_bytes 16 16 a ++ sub_bytes 32 16 a ++ sub_bytes 48 4 a ++ drop 52 a.
Proof.
  unfold sub_bytes. rewrite <- (take_drop 8 (drop 8 a)) at 1. rewrite drop_drop. f_equal.
  rewrite <- (take_drop 16 (drop (8 + 8) a)) at 1. rewrite drop_drop. f_equal.
  rewrite <- (take_drop 16 (drop _ a)) at 1. rewrite drop_drop. f_equal.
  rewrite <- (take_drop 4 (drop _ a)) at 1. rewrite drop_drop. done.
Qed.

Lemma sub_bytes_eq i n a a' :
  (i + n <= length a)%nat → (i + n <= length a')%nat →
  le_val (sub_bytes i n a) = le_val (sub_bytes i n a') → sub_bytes i n a = sub_bytes i n a'.
Proof.
  intros Hl Hl' E. apply le_val_inj; [|done]. unfold sub_bytes.
  rewrite !length_take, !length_drop. lia.
Qed.

Lemma polyjuice_args_tail a a' :
  (52 <= length a)%nat → (52 <= length a')%nat →
  length a = (52 + Z.to_nat (le_val (sub_bytes 48 4 a)))%nat →
  length a' = (52 + Z.to_nat (le_val (sub_bytes 48 4 a')))%nat →
  le_val (sub_bytes 8 8 a) = le_val (sub_bytes 8 8 a') →
  le_val (sub_bytes 16 16 a) = le_val (sub_bytes 16 16 a') →
  le_val (sub_bytes 32 16 a) = le_val (sub_bytes 32 16 a') →
  drop 52 a = drop 52 a' → drop 8 a = drop 8 a'.
Proof.
  intros Hl Hl' Hp Hp' E1 E2 E3 E4. rewrite (polyjuice_args_split a), (polyjuice_args_split a').
  assert (le_val (sub_bytes 48 4 a) = le_val (sub_bytes 48 4 a')) as E5.
  { pose proof (le_val_range (sub_bytes 48 4 a)). pose proof (le_val_range (sub_bytes 48 4 a')).
    apply (f_equal length) in E4. rewrite !length_drop in E4. lia. }
  apply sub_bytes_eq in E1, E2, E3, E5; [|lia..]. by rewrite E1, E2, E3, E4, E5.
Qed.

Lemma call_kind a :
  (52 <= length a)%nat → (le_val (sub_bytes 7 1 a) =? EVMC_CREATE) = bool_decide (a !! 7%nat = Some x03).
Proof.
  intros Hl. destruct (lookup_lt_is_Some_2 a 7) as [b Hb]; [lia|].
  unfold sub_bytes. erewrite drop_S by exact Hb. rewrite Hb. cbn [take].
  destruct (decide (b = x03)) as [->|Hne]; [done|].
  rewrite bool_decide_false by congruence. apply Z.eqb_neq. intros E. apply Hne.
  apply (le_val_inj [b] [x03]) in E; [by simplify_eq|done].
Qed.

Lemma polyjuice_to_inj raw raw' receiver receiver' to :
  (∀ s, length (script_hash s) = 32%nat) → u32 (tx_to_id raw) → u32 (tx_to_id raw') →
  (52 <= length (tx_args raw))%nat → (52 <= length (tx_args raw'))%nat →
  polyjuice_to raw receiver = Some to → polyjuice_to raw' receiver' = Some to →
  (tx_args raw !! 7%nat = Some x03 ↔ tx_args raw' !! 7%nat = Some x03) ∧
  (tx_args raw !! 7%nat ≠ Some x03 →
     tx_to_id raw = tx_to_id raw' ∧
     take 16 (script_hash receiver) = take 16 (script_hash receiver')).
Proof.
  intros Hlen Ht Ht' Hl Hl' Hto Hto'. unfold polyjuice_to in *.
  rewrite call_kind in Hto, Hto' by done.
  destruct (bool_decide (tx_args raw !! _ = _)) eqn:E, (bool_decide (tx_args raw' !! _ = _)) eqn:E';
    bool_inv; [done|..].
  - injection Hto as <-. destruct (_ <? _)%nat; [done|]. injection Hto' as Hto'.
    apply app_eq_nil in Hto' as [_ ?]. done.
  - injection Hto' as <-. destruct (_ <? _)%nat; [done|]. injection Hto as Hto.
    apply app_eq_nil in Hto as [_ ?]. done.
  - destruct (_ <? _)%nat in Hto; [done|]. destruct (_ <? _)%nat in Hto'; [done|].
    injection Hto as <-. injection Hto' as Hto'. split; [done|]. intros _.
    apply app_inj_1 in Hto' as [-> Hid]; [|by rewrite !length_take, !Hlen].
    split; [|done]. by apply (le_bytes_inj 4) in Hid.
Qed.
End PolyjuiceArgs.

(** The EIP-712 message of a layer-2 transaction binds what the transaction
    does: two transactions with the same message have the same chain id, nonce,
    arguments, sender address and receiver script, unless Keccak-256 collides on
    what is hashed for them. *)
Theorem tx_message_binds_transaction `{Keccak256, EthAbiLaws}
    (raw raw' : RawL2Transaction) (a a' : RegistryAddress) (to to' m : H256) :
  keccak_ok (tx_preimages (eip_tx raw a to) ++ tx_preimages (eip_tx raw' a' to')) →
  u64 (tx_chain_id raw) → u64 (tx_chain_id raw') → u32 (tx_nonce raw) → u32 (tx_nonce raw') →
  length to = 32%nat → length to' = 32%nat →
  tx_eip712_message raw a to = Ok m → tx_eip712_message raw' a' to' = Ok m →
  tx_chain_id raw = tx_chain_id raw' ∧ tx_nonce raw = tx_nonce raw' ∧
  tx_args raw = tx_args raw' ∧ a = a' ∧ to = to'.
Proof.
  intros Hok Hc Hc' Hn Hn' Ht Ht' Hm Hm'. unfold tx_eip712_message, EipL2Transaction_from_raw in *.
  inv_ok. repeat match goal with E : EipAddress_from_address _ = Ok _ |- _ =>
    apply EipAddress_from_address_Ok in E as (? & ? & ->) end.
  set (t := eip_tx raw a to) in *. set (t' := eip_tx raw' a' to') in *.
  match goal with E : eip712_message _ _ = eip712_message _ _ |- _ =>
    apply (message_inj t t' _ _ _ Hok) in E as Hs; [|set_solver..] end.
  pose proof (struct_inj t t' _ Hok ltac:(set_solver) ltac:(set_solver) Hs) as Hd.
  destruct (tx_data_inj t t' _ Hok ltac:(set_solver) ltac:(set_solver) Ht Ht' Hc Hc' Hn Hn' Hd)
    as (? & Hf & ? & ? & ?).
  apply (address_inj _ _ _ Hok) in Hf; [|done|done|set_solver..]. subst t t'. cbn in *.
  destruct a as [i a], a' as [i' a']. cbn in *. by simplify_eq.
Qed.

(** The EIP-712 message of a withdrawal binds what is withdrawn and by
    whom: two withdrawals with the same message have the same account address,
    nonce, chain id, fee, capacity, token, amount and layer-1 owner lock, unless
    Keccak-256 collides on what is hashed for them. *)
Theorem withdrawal_message_binds_withdrawal `{Keccak256, EthAbiLaws}
    (raw raw' : RawWithdrawalRequest) (owner owner' : Script) (a a' : RegistryAddress) (m : H256) :
  let w := eip_withdrawal raw owner a in
  let w' := eip_withdrawal raw' owner' a' in
  keccak_ok (withdrawal_preimages w ++ withdrawal_preimages w') →
  u32 (w_nonce raw) → u32 (w_nonce raw') → u64 (w_chain_id raw) → u64 (w_chain_id raw') →
  u128 (w_fee raw) → u128 (w_fee raw') →
  asset_in_range (ew_withdraw w) → asset_in_range (ew_withdraw w') →
  length (code_hash owner) = 32%nat → length (code_hash owner') = 32%nat →
  withdrawal_eip712_message raw owner a = Ok m → withdrawal_eip712_message raw' owner' a' = Ok m →
  a = a' ∧ owner = owner' ∧ w_nonce raw = w_nonce raw' ∧ w_chain_id raw = w_chain_id raw' ∧
  w_fee raw = w_fee raw' ∧ w_capacity raw = w_capacity raw' ∧ w_amount raw = w_amount raw' ∧
  w_sudt_script_hash raw = w_sudt_script_hash raw'.
Proof.
  intros w w' Hok Hn Hn' Hc Hc' Hf Hf' Ha Ha' Ho Ho' Hm Hm'.
  destruct (withdrawal_message_Ok _ _ _ _ Hm) as (Hr & Hl & Ht & ->).
  destruct (withdrawal_message_Ok _ _ _ _ Hm') as (Hr' & Hl' & Ht' & E). clear Hm Hm'.
  fold w w' in E.
  apply (message_inj w w' _ _ _ Hok) in E as Hs; [|set_solver..].
  pose proof (struct_inj w w' _ Hok ltac:(set_solver) ltac:(set_solver) Hs) as Hd.
  destruct (withdrawal_data_inj w w' _ Hok Hn Hn' Hc Hc' Hf Hf' Hd) as (Eaddr & ? & ? & ? & Elock & Easset).
  apply (address_inj _ _ _ Hok) in Eaddr; [|done|done|set_solver..].
  apply (script_inj _ _ _ Hok) in Elock; [|set_solver..|done|done].
  apply (asset_inj _ _ _ Hok) in Easset; [|set_solver|set_solver|done|done].
  injection Elock as Ecode Ename Eargs. injection Easset as ? ? ?. injection Eaddr as Eaddr.
  apply hash_type_name_inj in Ename; [|done|done].
  split; [destruct a, a'; cbn in *; congruence|].
  split; [destruct owner, owner'; cbn in *; congruence|]. done.
Qed.

(** The Ethereum transaction a polyjuice transaction is signed as binds it:
    two polyjuice transactions with the same encoding have the same nonce, chain
    id and arguments, except for the call kind byte, which is only bound as far as
    it says whether a contract is created; if it is a call, they also have the
    same receiver id and the same first 16 bytes of the receiver's script hash. *)
Theorem polyjuice_message_binds_transaction `{Blake2b, Molecule, RlpLaws}
    (raw raw' : RawL2Transaction) (receiver receiver' : Script) (data : bytes) :
  (∀ s, length (script_hash s) = 32%nat) →
  u64 (tx_chain_id raw) → u64 (tx_chain_id raw') → u32 (tx_nonce raw) → u32 (tx_nonce raw') →
  u32 (tx_to_id raw) → u32 (tx_to_id raw') →
  try_assemble_polyjuice_args raw receiver = Some data →
  try_assemble_polyjuice_args raw' receiver' = Some data →
  tx_nonce raw = tx_nonce raw' ∧ tx_chain_id raw = tx_chain_id raw' ∧
  take 7 (tx_args raw) = take 7 (tx_args raw') ∧ drop 8 (tx_args raw) = drop 8 (tx_args raw') ∧
  (tx_args raw !! 7%nat = Some x03 ↔ tx_args raw' !! 7%nat = Some x03) ∧
  (tx_args raw !! 7%nat ≠ Some x03 →
     tx_to_id raw = tx_to_id raw' ∧
     take 16 (script_hash receiver) = take 16 (script_hash receiver')).
Proof.
  intros Hlen Hc Hc' Hn Hn' Ht Ht' Hp Hp'.
  destruct (polyjuice_args_Some _ _ _ Hp) as (to & Hto & Hh & Hl & -> & Hpl).
  destruct (polyjuice_args_Some _ _ _ Hp') as (to' & Hto' & Hh' & Hl' & E & Hpl'). clear Hp Hp'.
  apply rlp_list_inj in E; [|repeat constructor; cbn;
    (apply Hn || apply Hn' || apply Hc || apply Hc' || apply le_val_range || done)].
  injection E as E1 E2 E3 -> E5 E6 E7.
  split; [done|]. split; [done|]. split; [congruence|]. split; [by apply polyjuice_args_tail|].
  by apply (polyjuice_to_inj raw raw' receiver receiver' to').
Qed.
