(* ===== verification/SubmitBlock.v ===== *)
(** * Submitting a block

    Models [gwos/contracts/state-validator/src/verifications/submit_block.rs]
    with [mod.rs] and [types.rs]: the checks the rollup's type script makes when
    a transaction moves the rollup to the next block.

    [check_layer2_withdrawal] and [check_layer2_deposit] replay the withdrawals
    and deposits on the state.  They are written against the [State] trait, so
    that what is proved on the reference state holds on the partial state
    ([KVState]) the script really uses. *)
From Stdlib Require Import ZArith Lia Strings.Byte.
From stdpp Require Import prelude list gmap.
From S2P Require Import Prelude Bytes Types State StateSpec Finality Ckb.
Local Open Scope Z_scope.

(** ** Witness roots (merkle_utils.rs)

    [CBMT::build_merkle_tree(leaves).root()] of the [merkle_cbt] crate, for a
    merge function. *)
Class Cbmt := cbmt_root : (H256 → H256 → H256) → list H256 → H256.
Definition merge_h256 `{Blake2b} (left right : H256) : H256 := blake2b (left ++ right).
Definition calculate_ckb_merkle_root `{Blake2b, Cbmt} (leaves : list H256) : H256 :=
  cbmt_root merge_h256 leaves.

(** ** Context (types.rs) *)
Record BlockContext := mkBlockContext {
  ctx_number : Z;
  ctx_timestamp : Z;
  ctx_block_hash : H256;
  ctx_rollup_type_hash : H256;
  ctx_prev_account_root : H256;
  ctx_post_version : Z;
  ctx_finality_time_in_ms : Z;
}.

Definition ctx_finalized_timepoint {E} (c : BlockContext) : outcome E Timepoint :=
  if use_timestamp_as_timepoint (ctx_post_version c)
  then t ← add_w 64 (ctx_timestamp c) (ctx_finality_time_in_ms c); Ok (Timestamp t)
  else Ok (BlockNumber (ctx_number c)).

(** ** [iter().position(p)] followed by [remove(index)] *)
Fixpoint remove_first {E B} (p : B → outcome E bool) (l : list B) : outcome E (option (list B)) :=
  match l with
  | [] => Ok None
  | x :: l =>
      b ← p x;
      if (b : bool) then Ok (Some l)
      else o ← remove_first p l; Ok (option_map (cons x) o)
  end.

(** [for a in cells { let i = pool.iter().position(p(a)).ok_or(e)?; pool.remove(i) }] *)
Definition match_off {E A B} (e : E) (p : A → B → outcome E bool) (cells : list A)
    (pool : list B) : outcome E (list B) :=
  foldM (λ pool a, o ← remove_first (p a) pool; ok_or e o) pool cells.

(** ** Asset maps

    A [BTreeMap<H256, u128>]; iterating it in another order could only change
    which key an equal error is reported for. *)
Abbreviation assets := (gmap H256 Z).
Definition asset (m : assets) (k : H256) : Z := default 0 (m !! k).

Definition add_asset (m : assets) (k : H256) (v : Z) : outcome GwError.t assets :=
  b ← ok_or GwError.AmountOverflow (checked_add 128 (asset m k) v); Ok (<[k := b]> m).

Definition build_assets_map_from_cells (cells : list CellValue) : outcome GwError.t assets :=
  foldM (λ m cell,
    m ← add_asset m (cv_sudt_script_hash cell) (cv_amount cell);
    add_asset m CKB_SUDT_SCRIPT_ARGS (cv_capacity cell)) ∅ cells.

(** [for (k, v) in b { *a.entry(k).or_insert(0) = ..checked_sub(v).ok_or(e)? }] *)
Definition sub_assets (e : GwError.t) (a b : assets) : outcome GwError.t assets :=
  foldM (λ m '(k, v), x ← ok_or e (checked_sub (asset m k) v); Ok (<[k := x]> m))
    a (map_to_list b).

Section SubmitBlock.
Context `{Blake2b, Molecule} {env : CkbEnv} `{SmtC, Cbmt}.
Local Abbreviation M := (outcome GwError.t).

(** ** Shared checks (verifications/mod.rs) *)
Definition check_rollup_lock_cells_except_stake (rth : H256) (config : RollupConfig) : M unit :=
  dep_in ← collect_deposit_locks rth config SrcInput;
  reject_if (negb (bool_decide (length dep_in = 0)%nat)) GwError.InvalidDepositCell ;;
  dep_out ← collect_deposit_locks rth config SrcOutput;
  reject_if (negb (bool_decide (length dep_out = 0)%nat)) GwError.InvalidDepositCell ;;
  wd_in ← collect_withdrawal_locks rth config SrcInput;
  reject_if (negb (bool_decide (length wd_in = 0)%nat)) GwError.InvalidWithdrawalCell ;;
  wd_out ← collect_withdrawal_locks rth config SrcOutput;
  reject_if (negb (bool_decide (length wd_out = 0)%nat)) GwError.InvalidWithdrawalCell ;;
  cu_in ← collect_custodian_locks rth config SrcInput;
  reject_if (negb (bool_decide (length cu_in = 0)%nat)) GwError.InvalidCustodianCell ;;
  cu_out ← collect_custodian_locks rth config SrcOutput;
  reject_if (negb (bool_decide (length cu_out = 0)%nat)) GwError.InvalidCustodianCell.

Definition check_rollup_lock_cells (rth : H256) (config : RollupConfig) : M unit :=
  check_rollup_lock_cells_except_stake rth config ;;
  st_in ← collect_stake_cells rth config SrcInput;
  reject_if (negb (bool_decide (length st_in = 0)%nat)) GwError.InvalidStakeCell ;;
  st_out ← collect_stake_cells rth config SrcOutput;
  reject_if (negb (bool_decide (length st_out = 0)%nat)) GwError.InvalidStakeCell.

Definition check_status (gs : GlobalState) (status : Status) : M unit :=
  reject_if (negb (gs_status gs =? Status_to_u8 status)) GwError.InvalidStatus.

(** ** Cells *)
Definition withdrawal_request_matches (cell : WithdrawalCell) (request : WithdrawalRequest) : bool :=
  let raw := w_raw request in
  bool_decide (w_account_script_hash raw = wl_account_script_hash (wc_args cell))
  && bool_decide (w_sudt_script_hash raw = cv_sudt_script_hash (wc_value cell))
  && (w_amount raw =? cv_amount (wc_value cell))
  && (w_capacity raw =? cv_capacity (wc_value cell)).

Definition check_withdrawal_cells (ctx : BlockContext) (requests : list WithdrawalRequest)
    (cells : list WithdrawalCell) : M unit :=
  rest ← foldM (λ requests cell,
    reject_if (negb (bool_decide (wl_withdrawal_block_hash (wc_args cell) = ctx_block_hash ctx)))
      GwError.InvalidWithdrawalCell ;;
    tp ← ctx_finalized_timepoint ctx;
    reject_if (negb (wl_withdrawal_finalized_timepoint (wc_args cell) =? Timepoint_full_value tp))
      GwError.InvalidWithdrawalCell ;;
    o ← remove_first (λ r, Ok (withdrawal_request_matches cell r)) requests;
    ok_or GwError.InvalidWithdrawalCell o) requests cells;
  reject_if (negb (bool_decide (length rest = 0)%nat)) GwError.InvalidWithdrawalCell.

Definition custodian_is_finalized (config : RollupConfig) (prev : GlobalState)
    (cell : CustodianCell) : bool :=
  is_finalized config prev
    (Timepoint_from_full_value (cl_deposit_finalized_timepoint (cc_args cell))).

Definition reverted_deposit_matches (custodian : CustodianCell) (cell : DepositRequestCell) : bool :=
  bool_decide (cl_deposit_lock_args (cc_args custodian) = dc_args cell)
  && bool_decide (cc_value custodian = dc_value cell).

Definition check_input_custodian_cells (config : RollupConfig) (prev : GlobalState)
    (ctx : BlockContext) (output_withdrawal_cells : list WithdrawalCell) : M assets :=
  custodians ← collect_custodian_locks (ctx_rollup_type_hash ctx) config SrcInput;
  let finalized := filter (λ c, custodian_is_finalized config prev c = true) custodians in
  let unfinalized := filter (λ c, custodian_is_finalized config prev c = false) custodians in
  reverted_deposit_cells ← collect_deposit_locks (ctx_rollup_type_hash ctx) config SrcOutput;
  rest ← match_off GwError.InvalidCustodianCell (λ c d, Ok (reverted_deposit_matches c d))
           unfinalized reverted_deposit_cells;
  reject_if (negb (bool_decide (length rest = 0)%nat)) GwError.InvalidDepositCell ;;
  withdrawal_assets ← build_assets_map_from_cells (wc_value <$> output_withdrawal_cells);
  input_finalized_assets ← build_assets_map_from_cells (cc_value <$> finalized);
  sub_assets GwError.InsufficientInputFinalizedAssets input_finalized_assets withdrawal_assets.

Definition deposit_matches (ctx : BlockContext) (custodian : CustodianCell)
    (cell : DepositRequestCell) : M bool :=
  if bool_decide (cl_deposit_lock_args (cc_args custodian) = dc_args cell)
     && bool_decide (cl_deposit_block_hash (cc_args custodian) = ctx_block_hash ctx)
  then
    tp ← ctx_finalized_timepoint ctx;
    Ok ((cl_deposit_finalized_timepoint (cc_args custodian) =? Timepoint_full_value tp)
        && bool_decide (cc_value custodian = dc_value cell))
  else Ok false.

Definition check_output_custodian_cells (config : RollupConfig) (prev : GlobalState)
    (ctx : BlockContext) (deposit_cells : list DepositRequestCell)
    (input_finalized_assets : assets) : M unit :=
  custodians ← collect_custodian_locks (ctx_rollup_type_hash ctx) config SrcOutput;
  let finalized := filter (λ c, custodian_is_finalized config prev c = true) custodians in
  let unfinalized := filter (λ c, custodian_is_finalized config prev c = false) custodians in
  rest ← match_off GwError.InvalidCustodianCell (deposit_matches ctx) unfinalized deposit_cells;
  reject_if (negb (bool_decide (length rest = 0)%nat)) GwError.InvalidDepositCell ;;
  reverted_withdrawals ← collect_withdrawal_locks (ctx_rollup_type_hash ctx) config SrcInput;
  reverted_withdrawal_assets ← build_assets_map_from_cells (wc_value <$> reverted_withdrawals);
  output_finalized_assets ← build_assets_map_from_cells (cc_value <$> finalized);
  output_finalized_assets ← sub_assets GwError.InsufficientOutputFinalizedAssets
                              output_finalized_assets reverted_withdrawal_assets;
  output_finalized_assets ← sub_assets GwError.InsufficientOutputFinalizedAssets
                              output_finalized_assets input_finalized_assets;
  reject_if (negb (forallb (λ kv, kv.2 =? 0) (map_to_list output_finalized_assets)))
    GwError.InsufficientInputFinalizedAssets.

(** ** Layer 2 *)
Section Layer2.
Context {St : Type} `{StateOps St}.
Local Abbreviation L := (ST St GwError.t).
(** [kv_state.op(..)?] *)
Local Abbreviation call m := (st_map_err of_common m).

Definition find_or_create_eoa (config : RollupConfig) (request : DepositRequestCell) :
    L RegistryAddress :=
  let registry_id := dl_registry_id (dc_args request) in
  o ← call (get_account_id_by_script_hash (dc_account_script_hash request));
  match o with
  | Some _ =>
      a ← call (get_registry_address_by_script_hash registry_id (dc_account_script_hash request));
      lift (ok_or GwError.RegistryAddressNotFound a)
  | None =>
      call (create_account (dc_account_script_hash request)) ;;
      let script := dc_account_script request in
      addr ← lift (map_err of_common
               (extract_registry_address_from_deposit (allowed_eoa_type_hashes config)
                  registry_id (code_hash script) (args script)));
      call (mapping_registry_address_to_script_hash addr (dc_account_script_hash request)) ;;
      mret addr
  end.

Definition check_layer2_deposit_one (rth : H256) (config : RollupConfig)
    (request : DepositRequestCell) : L unit :=
  lift (reject_if (negb (hash_type (dc_account_script request) =? ScriptHashType_to_u8 HashType))
          GwError.UnknownEOAScript) ;;
  address ← find_or_create_eoa config request;
  call (mint_sudt CKB_SUDT_ACCOUNT_ID address
          (CKBCapacity_to_layer2 (CKBCapacity_from_layer1 (cv_capacity (dc_value request))))) ;;
  if bool_decide (cv_sudt_script_hash (dc_value request) = CKB_SUDT_SCRIPT_ARGS) then
    lift (reject_if (negb (cv_amount (dc_value request) =? 0)) GwError.InvalidDepositCell)
  else
    l2_sudt_script ← lift (ok_or GwError.InvalidDepositCell
      (build_l2_sudt_script rth config (cv_sudt_script_hash (dc_value request))));
    let l2_sudt_script_hash := script_hash l2_sudt_script in
    o ← call (get_account_id_by_script_hash l2_sudt_script_hash);
    sudt_id ← match o with
              | Some id => mret id
              | None => call (create_account l2_sudt_script_hash)
              end;
    lift (reject_if (sudt_id =? CKB_SUDT_ACCOUNT_ID) GwError.InvalidDepositCell) ;;
    call (mint_sudt sudt_id address (cv_amount (dc_value request))).

Definition check_layer2_deposit (rth : H256) (config : RollupConfig)
    (deposit_cells : list DepositRequestCell) : L unit :=
  st_for deposit_cells (check_layer2_deposit_one rth config).

Definition pay_fee (payer_address block_producer_address : RegistryAddress) (amount : Z) :
    L unit :=
  call (burn_sudt CKB_SUDT_ACCOUNT_ID payer_address amount) ;;
  call (mint_sudt CKB_SUDT_ACCOUNT_ID block_producer_address amount).

Definition check_layer2_withdrawal_one (rth : H256) (config : RollupConfig)
    (block_producer_address : RegistryAddress) (request : WithdrawalRequest) : L unit :=
  let raw := w_raw request in
  lift (reject_if (negb (w_chain_id raw =? rc_chain_id config)) GwError.InvalidWithdrawalRequest) ;;
  o ← call (get_account_id_by_script_hash (w_account_script_hash raw));
  id ← lift (ok_or (of_common StateError.MissingKey) o);
  a ← call (get_registry_address_by_script_hash (w_registry_id raw) (w_account_script_hash raw));
  address ← lift (ok_or GwError.RegistryAddressNotFound a);
  pay_fee address block_producer_address (w_fee raw) ;;
  call (burn_sudt CKB_SUDT_ACCOUNT_ID address
          (CKBCapacity_to_layer2 (CKBCapacity_from_layer1 (w_capacity raw)))) ;;
  nonce ← call (get_nonce id);
  lift (reject_if (negb (nonce =? w_nonce raw)) GwError.InvalidWithdrawalRequest) ;;
  match build_l2_sudt_script rth config (w_sudt_script_hash raw) with
  | Some script =>
      o ← call (get_account_id_by_script_hash (script_hash script));
      sudt_id ← lift (ok_or (of_common StateError.MissingKey) o);
      call (burn_sudt sudt_id address (w_amount raw))
  | None => lift (reject_if (negb (w_amount raw =? 0)) GwError.InvalidWithdrawalRequest)
  end ;;
  call (set_nonce id (saturating_add 32 nonce 1)).

Definition check_layer2_withdrawal (rth : H256) (config : RollupConfig) (block : L2Block) :
    L unit :=
  match block_withdrawals block with
  | [] => mret tt
  | (_ :: _) as withdrawals =>
      block_producer_address ← lift (ok_or GwError.Encoding
        (RegistryAddress_from_slice (block_producer (block_raw block))));
      st_for withdrawals (check_layer2_withdrawal_one rth config block_producer_address)
  end.

(** ** Transactions *)
Definition check_block_transactions (block : L2Block) (post_version : Z) : L unit :=
  let raw_block := block_raw block in
  let submit := submit_transactions raw_block in
  let txs := block_transactions block in
  lift (reject_if (negb (tx_count submit =? Z.of_nat (length txs) mod 2 ^ 32))
          GwError.InvalidBlock) ;;
  let leaves := imap (λ idx tx, ckb_merkle_leaf_hash (Z.of_nat idx) (tx_witness_hash tx)) txs in
  lift (reject_if (negb (bool_decide (tx_witness_root submit = calculate_ckb_merkle_root leaves)))
          GwError.MerkleProof) ;;
  checkpoint ← call calculate_state_checkpoint;
  lift (reject_if (negb (bool_decide (checkpoint = prev_state_checkpoint submit)))
          GwError.InvalidStateCheckpoint) ;;
  let account := post_account raw_block in
  let block_post_state_root :=
    calculate_state_checkpoint_of (am_merkle_root account) (am_count account) in
  let is_transactions_empty := bool_decide (length txs = 0%nat) in
  lift (reject_if (is_transactions_empty
                   && negb (bool_decide (prev_state_checkpoint submit = block_post_state_root)))
          GwError.InvalidStateCheckpoint) ;;
  if negb is_transactions_empty && enforce_correctness_of_state_checkpoint_list post_version
  then
    last_state_checkpoint ← lift (ok_or GwError.InvalidStateCheckpoint
                                    (last (state_checkpoint_list raw_block)));
    lift (reject_if (negb (bool_decide (last_state_checkpoint = block_post_state_root)))
            GwError.InvalidStateCheckpoint)
  else mret tt.
End Layer2.

(** ** Block header *)
Definition check_state_checkpoints (block : L2Block) : M unit :=
  let raw_block := block_raw block in
  let checkpoint_list := state_checkpoint_list raw_block in
  let transactions := block_transactions block in
  reject_if (negb (length checkpoint_list
                   =? length (block_withdrawals block) + length transactions)%nat)
    GwError.InvalidStateCheckpoint ;;
  last_state_checkpoint ←
    (if bool_decide (length transactions = 0%nat)
     then Ok (prev_state_checkpoint (submit_transactions raw_block))
     else ok_or GwError.InvalidStateCheckpoint (last checkpoint_list));
  let account := post_account raw_block in
  reject_if (negb (bool_decide (last_state_checkpoint
                   = calculate_state_checkpoint_of (am_merkle_root account) (am_count account))))
    GwError.InvalidStateCheckpoint.

Definition check_block_withdrawals (block : L2Block) : M unit :=
  let submit := submit_withdrawals (block_raw block) in
  let withdrawals := block_withdrawals block in
  reject_if (negb (withdrawal_count submit =? Z.of_nat (length withdrawals) mod 2 ^ 32))
    GwError.InvalidBlock ;;
  let leaves :=
    imap (λ idx w, ckb_merkle_leaf_hash (Z.of_nat idx) (withdrawal_witness_hash w)) withdrawals in
  reject_if (negb (bool_decide (withdrawal_witness_root submit
                                = calculate_ckb_merkle_root leaves))) GwError.MerkleProof.

Definition BACKBONE_BIAS : Z := 14400000.

Definition check_block_timestamp (post : GlobalState) (block_timestamp : Z) : M unit :=
  reject_if (negb (block_timestamp =? tip_block_timestamp post)) GwError.InvalidBlock ;;
  (if enforce_block_timestamp_lower_than_since (gs_version post) then
     rollup_input_timestamp ← absolute_timestamp_since 0 SrcGroupInput;
     reject_if (rollup_input_timestamp <=? block_timestamp) GwError.InvalidPostGlobalState
   else Ok tt) ;;
  (if enforce_block_timestamp_in_l1_backbone_range (gs_version post) then
     match Timepoint_from_full_value (last_finalized_timepoint post) with
     | BlockNumber _ => Panic
     | Timestamp backbone =>
         reject_if (negb ((saturating_sub backbone BACKBONE_BIAS <=? block_timestamp)
                          && (block_timestamp <=? saturating_add 64 backbone BACKBONE_BIAS)))
           GwError.InvalidBlock
     end
   else Ok tt).

Definition check_global_state_tip_block_timestamp (prev post : GlobalState) : M unit :=
  reject_if (negb (tip_block_timestamp prev <? tip_block_timestamp post))
    GwError.InvalidPostGlobalState.

Definition check_global_state_last_finalized_timepoint (config : RollupConfig)
    (ctx : BlockContext) (prev post : GlobalState) : M unit :=
  reject_if (last_finalized_timepoint post <? last_finalized_timepoint prev)
    GwError.InvalidPostGlobalState ;;
  match use_timestamp_as_timepoint (ctx_post_version ctx),
        Timepoint_from_full_value (last_finalized_timepoint post) with
  | false, BlockNumber last_finalized_block_number =>
      reject_if (negb (last_finalized_block_number
                       =? saturating_sub (ctx_number ctx) (finality_blocks config)))
        GwError.InvalidPostGlobalState
  | true, Timestamp current_timestamp =>
      rollup_input_timestamp ← absolute_timestamp_since 0 SrcGroupInput;
      reject_if (negb (current_timestamp <? rollup_input_timestamp))
        GwError.InvalidPostGlobalState
  | _, _ => Err GwError.InvalidPostGlobalState
  end.

Definition verify_block_producer (config : RollupConfig) (ctx : BlockContext) (block : L2Block) :
    M unit :=
  let owner_lock_hash := stake_cell_owner_lock_hash (block_raw block) in
  o ← find_block_producer_stake_cell (ctx_rollup_type_hash ctx) config SrcOutput owner_lock_hash;
  output_stake_cell ← ok_or GwError.InvalidStakeCell o;
  reject_if (sc_capacity output_stake_cell <? required_staking_capacity config)
    GwError.InvalidStakeCell ;;
  o ← find_block_producer_stake_cell (ctx_rollup_type_hash ctx) config SrcInput owner_lock_hash;
  match o with
  | None => Ok tt
  | Some input_stake_cell =>
      tp ← ctx_finalized_timepoint ctx;
      let expected := mkStakeLockArgs (sl_owner_lock_hash (sc_args input_stake_cell))
                        (Timepoint_full_value tp) in
      reject_if (negb (bool_decide (expected = sc_args output_stake_cell))
                 || (sc_capacity output_stake_cell <? sc_capacity input_stake_cell))
        GwError.InvalidStakeCell
  end.

(** One key in a fresh tree, verified against a root. *)
Definition verify_single (key value root : H256) (proof : bytes) : M unit :=
  t ← tree_of GwError.MerkleProof 256 [(key, value)];
  tree_verify GwError.MerkleProof t root proof.

Definition load_block_context_and_state (rth : H256) (config : RollupConfig) (l2block : L2Block)
    (prev post : GlobalState) : M (BlockContext * KVState) :=
  let raw_block := block_raw l2block in
  let n := number raw_block in
  reject_if (negb (n =? bm_count (gs_block prev))) GwError.InvalidBlock ;;
  check_block_timestamp post (timestamp raw_block) ;;
  reject_if (negb (bool_decide (parent_block_hash raw_block = tip_block_hash prev)))
    GwError.InvalidBlock ;;
  let block_smt_key := compute_smt_key n in
  verify_single block_smt_key h256_zero (bm_merkle_root (gs_block prev)) (block_proof l2block) ;;
  next ← add_w 64 n 1;
  reject_if (negb (next =? bm_count (gs_block post))) GwError.InvalidBlock ;;
  let block_hash := raw_block_hash raw_block in
  verify_single block_smt_key block_hash (bm_merkle_root (gs_block post)) (block_proof l2block) ;;
  reject_if (negb (bool_decide (prev_account raw_block = gs_account prev))) GwError.InvalidBlock ;;
  reject_if (negb (bool_decide (post_account raw_block = gs_account post)))
    GwError.InvalidPostGlobalState ;;
  let prev_account_root := am_merkle_root (gs_account prev) in
  kv_state ← KVState_build GW_MAX_KV_PAIRS (block_kv_state l2block) (block_kv_state_proof l2block)
               (am_count (gs_account prev)) (Some prev_account_root);
  kv_state ←
    (if KVState_is_empty kv_state then Ok kv_state
     else match calculate_root kv_state with
          | (Ok root, kv_state) =>
              reject_if (negb (bool_decide (root = prev_account_root))) GwError.MerkleProof ;;
              Ok kv_state
          | (Err e, _) => Err (of_common e)
          | (Panic, _) => Panic
          end);
  Ok (mkBlockContext n (timestamp raw_block) block_hash rth prev_account_root (gs_version post)
        (finality_time_in_ms config), kv_state).

(** The global state a block leads to; the post account and block states are
    taken from the block and the post state, which were checked before. *)
Definition submitted_global_state (ctx : BlockContext) (block : L2Block)
    (prev post : GlobalState) : GlobalState :=
  {| rollup_config_hash := rollup_config_hash prev;
     gs_account := post_account (block_raw block);
     gs_block := gs_block post;
     reverted_block_root := reverted_block_root prev;
     tip_block_hash := ctx_block_hash ctx;
     tip_block_timestamp := if ctx_post_version ctx =? 0 then 0 else ctx_timestamp ctx;
     last_finalized_timepoint := last_finalized_timepoint post;
     gs_status := gs_status prev;
     gs_version := ctx_post_version ctx |}.

(** Run a stateful check to its outcome and the state it leaves. *)
Definition run_on {St A} (m : ST St GwError.t A) (s : St) : M (A * St) :=
  match m s with
  | (Ok a, s) => Ok (a, s)
  | (Err e, _) => Err e
  | (Panic, _) => Panic
  end.

Definition submit_block_verify (rth : H256) (config : RollupConfig) (block : L2Block)
    (prev post : GlobalState) : M unit :=
  check_status prev Running ;;
  check_state_checkpoints block ;;
  check_block_withdrawals block ;;
  '(ctx, kv_state) ← load_block_context_and_state rth config block prev post;
  verify_block_producer config ctx block ;;
  withdrawal_cells ← collect_withdrawal_locks (ctx_rollup_type_hash ctx) config SrcOutput;
  deposit_cells ← collect_deposit_locks (ctx_rollup_type_hash ctx) config SrcInput;
  check_withdrawal_cells ctx (block_withdrawals block) withdrawal_cells ;;
  input_finalized_assets ← check_input_custodian_cells config prev ctx withdrawal_cells;
  check_output_custodian_cells config prev ctx deposit_cells input_finalized_assets ;;
  ch_in ← find_challenge_cell rth config SrcInput;
  has_challenge ← (if bool_decide (is_Some ch_in) then Ok true
                   else ch_out ← find_challenge_cell rth config SrcOutput;
                        Ok (bool_decide (is_Some ch_out)));
  reject_if has_challenge GwError.InvalidChallengeCell ;;
  '(_, kv_state) ← run_on (check_layer2_withdrawal rth config block) kv_state;
  '(_, kv_state) ← run_on (check_layer2_deposit rth config deposit_cells) kv_state;
  '(_, kv_state) ← run_on (check_block_transactions block (ctx_post_version ctx)) kv_state;
  check_global_state_tip_block_timestamp prev post ;;
  check_global_state_last_finalized_timepoint config ctx prev post ;;
  reject_if (negb (bool_decide (submitted_global_state ctx block prev post = post)))
    GwError.InvalidPostGlobalState.

Definition verify_reverted_block_hashes (hashes : list H256) (proof : bytes)
    (prev : GlobalState) : M unit :=
  if bool_decide (length hashes = 0%nat) && bool_decide (length proof = 0%nat) then Ok tt
  else
    t ← tree_of GwError.MerkleProof 256 ((λ h, (h, h256_one)) <$> hashes);
    tree_verify GwError.MerkleProof t (reverted_block_root prev) proof.
End SubmitBlock.
