(* ===== verification/Layer2Supply.v ===== *)
(** * The layer-2 supply of CKB follows deposits and withdrawals

    Replaying the withdrawals and deposits of a block
    ([SubmitBlock.check_layer2_withdrawal], [check_layer2_deposit]) changes the
    total supply of layer-2 CKB by exactly the capacity deposited less the
    capacity withdrawn.  The argument runs on the reference state, with a small
    program logic ([moves]) that tracks one key, and is carried to the partial
    state of the scripts by [StateSim]. *)
From Stdlib Require Import ZArith Lia Strings.Byte.
From stdpp Require Import prelude list gmap.
From S2P Require Import Prelude Bytes Types State StateSpec Finality Ckb SubmitBlock.
Local Open Scope Z_scope.

(** ** What a replay hashes

    The preimages of the keys that replaying a block reads and writes, from the
    parties whose registry address it looks up (a registry and a script hash),
    the script hashes it looks up or creates accounts for, and the addresses it
    moves tokens of.  Collision freedom is asked of these only. *)
Inductive hashed (parties : list (Z * H256)) (scripts : list H256)
    (addrs : list RegistryAddress) : bytes → Prop :=
| hashed_supply id : u32 id →
    hashed parties scripts addrs (account_key_preimage id SUDT_TOTAL_SUPPLY_KEY)
| hashed_balance id a : u32 id → a ∈ addrs →
    hashed parties scripts addrs (account_key_preimage id (sudt_key_bytes a))
| hashed_native a : a ∈ addrs →
    hashed parties scripts addrs (account_key_preimage (registry_id a) (native_key_bytes a))
| hashed_party p : p ∈ parties →
    hashed parties scripts addrs
      (account_key_preimage p.1 (build_script_hash_to_registry_address_key p.2))
| hashed_script sh : sh ∈ scripts → hashed parties scripts addrs (script_hash_key_preimage sh).
#[export] Hint Constructors hashed : gw.

(** The address a registry records for a script hash. *)
Definition registry_address_at `{Blake2b} (s : RefState) (p : Z * H256) : option RegistryAddress :=
  let v := kv_get s (hash_to_addr_key p.1 p.2) in
  if h256_is_zero v then None else RegistryAddress_from_slice v.

Section Logic.
Context `{Blake2b, SmtRoot}.
Context (frozen : list H256) (parties : list (Z * H256)) (scripts : list H256).
Context (addrs : list RegistryAddress).
Context (Hcf : collision_free (hashed parties scripts addrs)).
Context (Hfrozen : ∀ sh, sh ∈ frozen → sh ∈ scripts).
Implicit Types (s : RefState).

Definition ckb_supply s : Z := supply s CKB_SUDT_ACCOUNT_ID.

(** The account count is a [u32], the frozen script hashes are not those of
    the CKB token, and the addresses of the parties are the expected ones. *)
Record inv s : Prop := {
  inv_count : u32 (rs_count s);
  inv_frozen sh : sh ∈ frozen → account_id_of s sh ≠ Some CKB_SUDT_ACCOUNT_ID;
  inv_parties p a : p ∈ parties → registry_address_at s p = Some a → a ∈ addrs;
}.

(** Running [m] to a successful end keeps the invariant, moves the CKB supply
    by [d] and returns a value satisfying [Q]. *)
Definition moves {E A} (d : Z) (m : ST RefState E A) (Q : A → Prop) : Prop :=
  ∀ s a s', inv s → m s = (Ok a, s') → inv s' ∧ ckb_supply s' = ckb_supply s + d ∧ Q a.

Lemma moves_bind {E A B} d1 d2 (m : ST RefState E A) (f : A → ST RefState E B) Q R :
  moves d1 m Q → (∀ a, Q a → moves d2 (f a) R) → moves (d1 + d2) (m ≫= f) R.
Proof.
  intros Hm Hf s b s' Hi Hrun. inv_ok.
  destruct (Hm _ _ _ Hi ltac:(eassumption)) as (Hi1 & E1 & Hq).
  destruct (Hf _ Hq _ _ _ Hi1 ltac:(eassumption)) as (Hi2 & E2 & Hr).
  split; [done|]. split; [lia|done].
Qed.
Lemma moves_bind0 {E A B} d (m : ST RefState E A) (f : A → ST RefState E B) Q R :
  moves 0 m Q → (∀ a, Q a → moves d (f a) R) → moves d (m ≫= f) R.
Proof. intros. rewrite <- (Z.add_0_l d). eapply moves_bind; eauto. Qed.
Lemma moves_weaken {E A} d (m : ST RefState E A) (Q R : A → Prop) :
  moves d m Q → (∀ a, Q a → R a) → moves d m R.
Proof. intros Hm HQ s a s' Hi Hrun. destruct (Hm _ _ _ Hi Hrun) as (?&?&?). auto. Qed.
Lemma moves_ret {E A} (a : A) : moves (E:=E) 0 (mret a) (λ b, b = a).
Proof. intros s b s' Hi Hrun. inv_ok. subst. split; [done|]. split; [lia|done]. Qed.
Lemma moves_lift {E A} (m : outcome E A) : moves 0 (lift m) (λ a, m = Ok a).
Proof. intros s b s' Hi Hrun. inv_ok. subst. split; [done|]. split; [lia|done]. Qed.
Lemma moves_map_err {E F A} (f : E → F) d (m : ST RefState E A) Q :
  moves d m Q → moves d (st_map_err f m) Q.
Proof. intros Hm s a s' Hi Hrun. inv_ok. eauto. Qed.
Lemma moves_if {E A} (b : bool) d (m n : ST RefState E A) Q :
  moves d m Q → moves d n Q → moves d (if b then m else n) Q.
Proof. by destruct b. Qed.
Lemma moves_for {E A} (d : A → Z) (f : A → ST RefState E unit) l :
  (∀ a, a ∈ l → moves (d a) (f a) (λ _, True)) →
  moves (sum_over d l) (st_for l f) (λ _, True).
Proof.
  induction l as [|a l IH]; intros Hf; cbn.
  - eapply moves_weaken; [apply moves_ret|done].
  - eapply moves_bind; [apply Hf; left|]. intros _ _. apply IH. intros; apply Hf; by right.
Qed.

(** Keys that do not disturb what is tracked. *)
Record safe_key (k : H256) : Prop := {
  sk_supply : k ≠ supply_key CKB_SUDT_ACCOUNT_ID;
  sk_frozen sh : sh ∈ frozen → k ≠ build_script_hash_to_account_id_key sh;
  sk_parties p : p ∈ parties → k ≠ hash_to_addr_key p.1 p.2;
}.

Lemma hashed_ne x y :
  hashed parties scripts addrs x → hashed parties scripts addrs y → x ≠ y → blake2b x ≠ blake2b y.
Proof. by apply collision_free_ne. Qed.
Lemma ckb_supply_hashed :
  hashed parties scripts addrs (account_key_preimage CKB_SUDT_ACCOUNT_ID SUDT_TOTAL_SUPPLY_KEY).
Proof. by constructor. Qed.
Local Hint Resolve ckb_supply_hashed : gw.

Lemma safe_field_key id t :
  t ∈ [GW_ACCOUNT_NONCE_TYPE; GW_ACCOUNT_SCRIPT_HASH_TYPE] → safe_key (build_account_field_key id t).
Proof. intros Ht. split; intros; apply Hcf; eauto with gw. Qed.

(** The hashed keys are apart by the shape of their preimages. *)
Lemma safe_account_key id key :
  hashed parties scripts addrs (account_key_preimage id key) →
  account_key_preimage id key ≠ account_key_preimage CKB_SUDT_ACCOUNT_ID SUDT_TOTAL_SUPPLY_KEY →
  (∀ sh, key ≠ build_script_hash_to_registry_address_key sh) →
  safe_key (build_account_key id key).
Proof.
  intros Hk Hs Hr. split; intros; (apply hashed_ne; [by eauto with gw..|]).
  - done.
  - apply account_script_preimage_ne.
  - intros E%account_key_preimage_key. by eapply Hr.
Qed.
Lemma safe_balance_key id a :
  u32 id → a ∈ addrs → safe_key (build_account_key id (sudt_key_bytes a)).
Proof.
  intros. apply safe_account_key; [by eauto with gw| |by intros ? [=]].
  intros E%account_key_preimage_key. by eapply sudt_key_not_supply.
Qed.
Lemma safe_supply_key id :
  u32 id → id ≠ CKB_SUDT_ACCOUNT_ID → safe_key (build_account_key id SUDT_TOTAL_SUPPLY_KEY).
Proof.
  intros. apply safe_account_key; [by eauto with gw| |by intros ? [=]].
  intros E. by apply account_key_preimage_inj in E as [? _].
Qed.
Lemma safe_native_key a : a ∈ addrs → safe_key (build_account_key (registry_id a) (native_key_bytes a)).
Proof.
  intros. apply safe_account_key; [by eauto with gw| |by intros ? [=]].
  by intros [=]%account_key_preimage_key.
Qed.
Lemma safe_script_hash_key sh :
  sh ∈ scripts → sh ∉ frozen → safe_key (build_script_hash_to_account_id_key sh).
Proof.
  intros Hin Hni. split; intros; (apply hashed_ne; [by eauto with gw..|]).
  - apply not_eq_sym, account_script_preimage_ne.
  - intros E. unfold script_hash_key_preimage in E. apply app_inv_head in E. injection E as ->. done.
  - apply not_eq_sym, account_script_preimage_ne.
Qed.

(** *** The trait's operations *)
Lemma moves_get_raw k : moves 0 (get_raw k) (λ _, True).
Proof. intros s a s' Hi [= <- <-]. split; [done|]. split; [lia|done]. Qed.
Lemma inv_put s k v : safe_key k → inv s → inv (kv_put k v s).
Proof.
  intros [_ H2 H3] [Hc Hf Hp]. split; [done| |].
  - intros sh Hsh. unfold account_id_of. rewrite kv_get_put_ne by (by apply H2). by apply Hf.
  - intros p a Hin. unfold registry_address_at. rewrite kv_get_put_ne by (by apply H3). by apply Hp.
Qed.
Lemma moves_update_raw k v : safe_key k → moves 0 (update_raw k v) (λ _, True).
Proof.
  intros Hk s a s' Hi [= <- <-]. split; [by apply inv_put|]. split; [|done].
  unfold ckb_supply, supply. rewrite kv_get_put_ne by apply Hk. lia.
Qed.
Lemma moves_get_account_count : moves 0 get_account_count u32.
Proof. intros s a s' Hi [= <- <-]. split; [done|]. split; [lia|apply Hi]. Qed.
Lemma moves_set_account_count c : u32 c → moves 0 (set_account_count c) (λ _, True).
Proof.
  intros Hc s a s' [_ Hf Hp] [= <- <-]. split; [by split|]. split; [|done].
  unfold ckb_supply, supply. cbn. rewrite kv_get_count. lia.
Qed.
Lemma moves_get_value id k : moves 0 (get_value id k) (λ _, True).
Proof. eapply moves_bind0; [apply moves_lift|]. intros. apply moves_get_raw. Qed.
Lemma moves_update_value id k v :
  safe_key (build_account_key id k) → moves 0 (update_value id k v) (λ _, True).
Proof. intros. eapply moves_bind0; [apply moves_lift|]. intros. by apply moves_update_raw. Qed.
Lemma moves_set_nonce id n : moves 0 (set_nonce id n) (λ _, True).
Proof. apply moves_update_raw, safe_field_key. left. Qed.
Lemma moves_get_nonce id : moves 0 (get_nonce id) (λ _, True).
Proof.
  eapply moves_bind0; [apply moves_get_raw|]. intros.
  eapply moves_weaken; [apply moves_ret|done].
Qed.

Lemma moves_get_account_id sh :
  moves 0 (get_account_id_by_script_hash sh)
    (λ o, (∀ id, o = Some id → u32 id) ∧ (sh ∈ frozen → o ≠ Some CKB_SUDT_ACCOUNT_ID)).
Proof.
  intros s a s' Hi Hrun. rewrite get_account_id_run in Hrun. injection Hrun as <- <-.
  split; [done|]. split; [lia|]. split; [|apply Hi].
  intros id. apply account_id_range.
Qed.

Lemma moves_create_account sh : sh ∈ scripts → sh ∉ frozen → moves 0 (create_account sh) u32.
Proof.
  intros Hin Hni. unfold create_account.
  eapply moves_bind0; [apply moves_get_account_id|]. intros o _.
  eapply moves_bind0; [apply moves_lift|]. intros _ _.
  eapply moves_bind0; [apply moves_get_account_count|]. intros id Hid.
  eapply moves_bind0; [apply moves_set_nonce|]. intros _ _.
  eapply moves_bind0; [apply moves_update_raw, safe_field_key; right; left|]. intros _ _.
  eapply moves_bind0; [by apply moves_update_raw, safe_script_hash_key|]. intros _ _.
  eapply moves_bind0; [apply moves_lift|]. intros next Hn.
  unfold add_w in Hn. inv_ok. rewrite checked_add_Some in Hn.
  eapply moves_bind0; [apply moves_set_account_count; unfold in_width in *; lia|]. intros _ _.
  eapply moves_weaken; [apply moves_ret|]. by intros ? ->.
Qed.

(** Writing the CKB supply itself. *)
Lemma inv_put_supply s v : inv s → inv (kv_put (supply_key CKB_SUDT_ACCOUNT_ID) v s).
Proof.
  intros [Hc Hf Hp]. split; [done| |].
  - intros sh Hsh. unfold account_id_of. rewrite kv_get_put_ne; [by apply Hf|].
    apply hashed_ne; [by eauto with gw..|]. apply account_script_preimage_ne.
  - intros p a Hin. unfold registry_address_at. rewrite kv_get_put_ne; [by apply Hp|].
    apply hashed_ne; [by eauto with gw..|]. by intros [=]%account_key_preimage_key.
Qed.

Lemma moves_mint_ckb a n : a ∈ addrs → 0 ≤ n → moves n (mint_sudt CKB_SUDT_ACCOUNT_ID a n) (λ _, True).
Proof.
  intros Ha Hn. unfold mint_sudt. eapply moves_bind0; [apply moves_lift|].
  intros key ->%build_sudt_key_bytes. cbv zeta.
  eapply moves_bind0; [apply moves_get_raw|]. intros b _.
  eapply moves_bind0; [apply moves_lift|]. intros b' _.
  eapply moves_bind0; [by apply moves_update_raw, safe_balance_key|]. intros _ _.
  intros s u s' Hi Hrun. inv_ok.
  match goal with Hg : get_raw _ _ = _ |- _ => cbn in Hg; injection Hg as <- <- end.
  match goal with Hg : update_raw _ _ _ = _ |- _ => cbn in Hg; injection Hg as <- end.
  fold (supply_key CKB_SUDT_ACCOUNT_ID) in *. fold (supply s CKB_SUDT_ACCOUNT_ID) in *.
  rewrite checked_add_Some in *. destruct_and?. subst.
  split; [by apply inv_put_supply|]. split; [|done].
  apply supply_set_supply. pose proof (supply_range s CKB_SUDT_ACCOUNT_ID).
  unfold in_width, ckb_supply in *. lia.
Qed.

Lemma moves_burn_ckb a n : a ∈ addrs → 0 ≤ n → moves (- n) (burn_sudt CKB_SUDT_ACCOUNT_ID a n) (λ _, True).
Proof.
  intros Ha Hn. unfold burn_sudt. eapply moves_bind0; [apply moves_lift|].
  intros key ->%build_sudt_key_bytes. cbv zeta.
  eapply moves_bind0; [apply moves_get_raw|]. intros b _.
  eapply moves_bind0; [apply moves_lift|]. intros b' _.
  eapply moves_bind0; [by apply moves_update_raw, safe_balance_key|]. intros _ _.
  intros s u s' Hi Hrun. inv_ok.
  match goal with Hg : get_raw _ _ = _ |- _ => cbn in Hg; injection Hg as <- <- end.
  match goal with Hg : update_raw _ _ _ = _ |- _ => cbn in Hg; injection Hg as <- end.
  fold (supply_key CKB_SUDT_ACCOUNT_ID) in *. fold (supply s CKB_SUDT_ACCOUNT_ID) in *.
  rewrite checked_sub_Some in *. destruct_and?. subst.
  split; [by apply inv_put_supply|]. split; [|done].
  apply supply_set_supply. pose proof (supply_range s CKB_SUDT_ACCOUNT_ID).
  unfold in_width, ckb_supply in *. lia.
Qed.

(** Another token's operations leave the CKB supply alone. *)
Lemma moves_mint_other id a n :
  a ∈ addrs → u32 id → id ≠ CKB_SUDT_ACCOUNT_ID → moves 0 (mint_sudt id a n) (λ _, True).
Proof.
  intros Ha Hid Hne. unfold mint_sudt. eapply moves_bind0; [apply moves_lift|].
  intros key ->%build_sudt_key_bytes.
  cbv zeta. eapply moves_bind0; [apply moves_get_raw|]. intros b _.
  eapply moves_bind0; [apply moves_lift|]. intros b' _.
  eapply moves_bind0; [by apply moves_update_raw, safe_balance_key|]. intros _ _.
  eapply moves_bind0; [apply moves_get_raw|]. intros c _.
  eapply moves_bind0; [apply moves_lift|]. intros c' _.
  by apply moves_update_raw, safe_supply_key.
Qed.
Lemma moves_burn_other id a n :
  a ∈ addrs → u32 id → id ≠ CKB_SUDT_ACCOUNT_ID → moves 0 (burn_sudt id a n) (λ _, True).
Proof.
  intros Ha Hid Hne. unfold burn_sudt. eapply moves_bind0; [apply moves_lift|].
  intros key ->%build_sudt_key_bytes.
  cbv zeta. eapply moves_bind0; [apply moves_get_raw|]. intros b _.
  eapply moves_bind0; [apply moves_lift|]. intros b' _.
  eapply moves_bind0; [by apply moves_update_raw, safe_balance_key|]. intros _ _.
  eapply moves_bind0; [apply moves_get_raw|]. intros c _.
  eapply moves_bind0; [apply moves_lift|]. intros c' _.
  by apply moves_update_raw, safe_supply_key.
Qed.

Lemma moves_get_registry_address rid sh :
  (rid, sh) ∈ parties →
  moves 0 (get_registry_address_by_script_hash rid sh) (λ o, ∀ a, o = Some a → a ∈ addrs).
Proof.
  intros Hin s o s' Hi Hrun. rewrite get_registry_address_run in Hrun. injection Hrun as Ho <-.
  split; [done|]. split; [lia|]. intros a ->. apply (inv_parties _ Hi _ _ Hin).
  unfold registry_address_at. cbn [fst snd]. by repeat case_match; simplify_eq.
Qed.

Lemma moves_get_script_hash_by_address a :
  moves 0 (get_script_hash_by_registry_address a) (λ _, True).
Proof.
  unfold get_script_hash_by_registry_address.
  eapply moves_bind0; [apply moves_lift|]. intros k _.
  eapply moves_bind0; [apply moves_get_value|]. intros v _.
  apply moves_if; (eapply moves_weaken; [apply moves_ret|done]).
Qed.

(** Recording the address of a party. *)
Lemma moves_record_address a sh v :
  RegistryAddress_from_slice v = Some a → a ∈ addrs → (registry_id a, sh) ∈ parties →
  moves (E:=StateError.t) 0
    (update_value (registry_id a) (build_script_hash_to_registry_address_key sh) v) (λ _, True).
Proof.
  intros Hv Ha Hin. eapply moves_bind0; [apply moves_lift|]. intros _ _ s u s' [Hc Hf Hp] [= <- <-].
  fold (hash_to_addr_key (registry_id a) sh). split; [split; [done| |]|split; [|done]].
  - intros sh' Hsh. unfold account_id_of. rewrite kv_get_put_ne; [by apply Hf|].
    apply hashed_ne; [exact (hashed_party _ _ _ _ Hin)|by eauto with gw|]. apply account_script_preimage_ne.
  - intros p b Hp'. unfold registry_address_at.
    destruct (decide (hash_to_addr_key (registry_id a) sh = hash_to_addr_key p.1 p.2)) as [<-|Hne].
    + rewrite kv_get_put_eq, Hv. cbv zeta. case_match; [done|]. by intros [= <-].
    + rewrite kv_get_put_ne by done. by apply Hp.
  - unfold ckb_supply, supply. rewrite kv_get_put_ne; [lia|].
    apply hashed_ne; [exact (hashed_party _ _ _ _ Hin)|by eauto with gw|].
    by intros [=]%account_key_preimage_key.
Qed.

Lemma moves_mapping a sh :
  a ∈ addrs → (registry_id a, sh) ∈ parties →
  moves 0 (mapping_registry_address_to_script_hash a sh) (λ _, True).
Proof.
  intros Ha Hin. unfold mapping_registry_address_to_script_hash.
  eapply moves_bind0; [apply moves_lift|]. intros u Hlen. inv_ok. bool_inv.
  eapply moves_bind0; [apply moves_lift|]. intros _ _.
  eapply moves_bind0; [apply moves_lift|]. intros u' Hid. inv_ok. bool_inv.
  assert (He : is_eth_address a) by done.
  eapply moves_bind0; [by apply moves_get_registry_address|]. intros o _.
  eapply moves_bind0; [apply moves_lift|]. intros _ _.
  eapply moves_bind0; [apply moves_get_script_hash_by_address|]. intros o' _.
  eapply moves_bind0; [apply moves_lift|]. intros _ _.
  rewrite (addr_buf_Ok a He).
  eapply moves_bind0; [apply moves_lift|]. intros buf [= <-].
  eapply moves_bind0.
  { apply moves_record_address; [|done..]. by apply from_slice_reg_addr_bytes, is_eth_address_wf. }
  intros _ _.
  eapply moves_bind0; [apply moves_lift|]. intros k ->%build_registry_key_bytes.
  by apply moves_update_value, safe_native_key.
Qed.

(** *** Deposits and withdrawals *)
Context `{Molecule}.
Context (rth : H256) (config : RollupConfig).

Definition ckb_of (capacity : Z) : Z := CKBCapacity_to_layer2 (CKBCapacity_from_layer1 capacity).

Lemma ckb_of_nonneg c : 0 ≤ c → 0 ≤ ckb_of c.
Proof. unfold ckb_of, CKBCapacity_to_layer2, CKBCapacity_from_layer1. intros. by apply Z.mul_nonneg_nonneg. Qed.

(** The address a deposit registers when its account is new. *)
Definition deposited_address (request : DepositRequestCell) : option RegistryAddress :=
  match extract_registry_address_from_deposit (allowed_eoa_type_hashes config)
          (dl_registry_id (dc_args request)) (code_hash (dc_account_script request))
          (args (dc_account_script request)) with
  | Ok a => Some a
  | _ => None
  end.
Definition depositor (request : DepositRequestCell) : Z * H256 :=
  (dl_registry_id (dc_args request), dc_account_script_hash request).

Lemma extract_registry_id hashes rid code a_args a :
  extract_registry_address_from_deposit hashes rid code a_args = Ok a → registry_id a = rid.
Proof.
  unfold extract_registry_address_from_deposit. intros Hrun. repeat (inv_ok; try case_match); by simplify_eq.
Qed.

Lemma moves_find_or_create_eoa request :
  dc_account_script_hash request ∈ scripts → dc_account_script_hash request ∉ frozen →
  depositor request ∈ parties → (∀ a, deposited_address request = Some a → a ∈ addrs) →
  moves 0 (find_or_create_eoa config request) (λ a, a ∈ addrs).
Proof.
  intros Hin Hni Hp Ha. unfold find_or_create_eoa. cbv zeta.
  eapply moves_bind0; [apply moves_map_err, moves_get_account_id|]. intros [id|] _.
  - eapply moves_bind0; [by apply moves_map_err, moves_get_registry_address|]. intros o Ho.
    eapply moves_weaken; [apply moves_lift|]. intros a Hok%ok_or_Ok. by apply Ho.
  - eapply moves_bind0; [by apply moves_map_err, moves_create_account|]. intros _ _.
    eapply moves_bind0; [apply moves_lift|]. intros addr He. cbv beta in He. inv_ok.
    assert (Hin' : addr ∈ addrs).
    { apply Ha. unfold deposited_address. by rewrite He. }
    assert (Hp' : (registry_id addr, dc_account_script_hash request) ∈ parties).
    { erewrite extract_registry_id by eassumption. exact Hp. }
    eapply moves_bind0; [by apply moves_map_err, moves_mapping|]. intros _ _.
    eapply moves_weaken; [apply moves_ret|]. by intros ? ->.
Qed.

(** The layer-2 script of the token a deposit carries. *)
Definition deposited_token (request : DepositRequestCell) : option H256 :=
  script_hash <$> build_l2_sudt_script rth config (cv_sudt_script_hash (dc_value request)).

Lemma moves_deposit_one request :
  frozen = [] → 0 ≤ cv_capacity (dc_value request) →
  dc_account_script_hash request ∈ scripts → (∀ h, deposited_token request = Some h → h ∈ scripts) →
  depositor request ∈ parties → (∀ a, deposited_address request = Some a → a ∈ addrs) →
  moves (ckb_of (cv_capacity (dc_value request)))
    (check_layer2_deposit_one rth config request) (λ _, True).
Proof.
  intros Hnil Hcap Hin Htok Hp Ha. unfold check_layer2_deposit_one.
  assert (Hni : ∀ sh, sh ∉ frozen) by (rewrite Hnil; apply not_elem_of_nil).
  eapply moves_bind0; [apply moves_lift|]. intros _ _.
  eapply moves_bind0; [by apply moves_find_or_create_eoa|]. intros addr Haddr.
  rewrite <- (Z.add_0_r (ckb_of _)).
  eapply moves_bind; [by apply moves_map_err, moves_mint_ckb; [|apply ckb_of_nonneg]|]. intros _ _.
  apply moves_if; [eapply moves_weaken; [apply moves_lift|done]|].
  eapply moves_bind0; [apply moves_lift|]. intros script Hs%ok_or_Ok. cbv zeta.
  assert (script_hash script ∈ scripts) by (apply Htok; unfold deposited_token; by rewrite Hs).
  eapply moves_bind0; [apply moves_map_err, moves_get_account_id|]. intros o [Ho _].
  eapply (moves_bind0 _ _ _ u32).
  { destruct o as [id|]; [|by apply moves_map_err, moves_create_account].
    eapply moves_weaken; [apply moves_ret|]. intros ? ->. by apply Ho. }
  intros id Hid. eapply moves_bind0; [apply moves_lift|]. intros u Hu. inv_ok. bool_inv.
  by apply moves_map_err, moves_mint_other.
Qed.

(** The party that withdraws. *)
Definition withdrawer (raw : RawWithdrawalRequest) : Z * H256 :=
  (w_registry_id raw, w_account_script_hash raw).

Lemma moves_withdrawal_one producer request :
  0 ≤ w_capacity (w_raw request) → 0 ≤ w_fee (w_raw request) →
  withdrawer (w_raw request) ∈ parties → producer ∈ addrs →
  (∀ script, build_l2_sudt_script rth config (w_sudt_script_hash (w_raw request)) = Some script →
     script_hash script ∈ frozen) →
  moves (- ckb_of (w_capacity (w_raw request)))
    (check_layer2_withdrawal_one rth config producer request) (λ _, True).
Proof.
  intros Hcap Hfee Hin Hprod Hfr. unfold check_layer2_withdrawal_one, pay_fee. cbv zeta.
  eapply moves_bind0; [apply moves_lift|]. intros _ _.
  eapply moves_bind0; [apply moves_map_err, moves_get_account_id|]. intros o _.
  eapply moves_bind0; [apply moves_lift|]. intros id _.
  eapply moves_bind0; [by apply moves_map_err, moves_get_registry_address|]. intros a Ha.
  eapply moves_bind0; [apply moves_lift|]. intros addr Haddr%ok_or_Ok%Ha.
  eapply moves_bind0.
  { rewrite <- (Z.add_opp_diag_l (w_fee (w_raw request))).
    eapply moves_bind; [by apply moves_map_err, moves_burn_ckb|]. intros _ _.
    by apply moves_map_err, moves_mint_ckb. }
  intros _ _. rewrite <- (Z.add_0_r (- ckb_of _)).
  eapply moves_bind; [by apply moves_map_err, moves_burn_ckb; [|apply ckb_of_nonneg]|]. intros _ _.
  eapply moves_bind0; [apply moves_map_err, moves_get_nonce|]. intros nonce _.
  eapply moves_bind0; [apply moves_lift|]. intros _ _.
  eapply (moves_bind0 _ _ _ (λ _, True)).
  - destruct (build_l2_sudt_script _ _ _) as [script|].
    + eapply moves_bind0; [apply moves_map_err, moves_get_account_id|]. intros o' [Ho Hne].
      eapply moves_bind0; [apply moves_lift|]. intros sid Hsid%ok_or_Ok.
      apply moves_map_err, moves_burn_other; [done|by apply Ho|].
      intros ->. apply Hne; [by apply Hfr|done].
    + eapply moves_weaken; [apply moves_lift|done].
  - intros _ _. apply moves_map_err, moves_set_nonce.
Qed.
End Logic.

(** ** Lifting to the partial state *)
Section Lift.
Context `{Blake2b, Molecule} {St1 St2 : Type} `{StateOps St1, StateOps St2}.
Context (R : St1 → St2 → Prop) `{!StateSim St1 St2 R (λ e, e = StateError.MissingKey)}.
Local Abbreviation F := (λ e : GwError.t, e = GwError.SMTKeyMissing).

Lemma sim_call {A} (m1 : ST St1 StateError.t A) (m2 : ST St2 StateError.t A) :
  sim R (λ e, e = StateError.MissingKey) m1 m2 →
  sim R F (st_map_err of_common m1) (st_map_err of_common m2).
Proof.
  intros Hs s1 s2 HR. unfold st_map_err.
  destruct (Hs s1 s2 HR) as [(e & s1' & -> & ->)|(r & s1' & s2' & -> & -> & HR')].
  - left. by eexists _, _.
  - right. by eexists _, _, _.
Qed.

Local Ltac solve_sim :=
  repeat first
    [ apply sim_bind; [|intros]
    | apply sim_if
    | apply sim_for; intros
    | apply sim_call
    | solve [eauto with gw]
    | case_match
    | progress cbv zeta ].

Lemma sim_check_layer2_deposit rth config cells :
  sim R F (check_layer2_deposit rth config cells) (check_layer2_deposit rth config cells).
Proof.
  unfold check_layer2_deposit, check_layer2_deposit_one, find_or_create_eoa. solve_sim.
Qed.

Lemma sim_check_layer2_withdrawal rth config block :
  sim R F (check_layer2_withdrawal rth config block) (check_layer2_withdrawal rth config block).
Proof.
  unfold check_layer2_withdrawal, check_layer2_withdrawal_one, pay_fee. solve_sim.
Qed.
End Lift.

(** What the requests of a block say about their amounts; they are unsigned. *)
Definition requests_ok (block : L2Block) (cells : list DepositRequestCell) : Prop :=
  Forall (λ r, 0 ≤ w_capacity (w_raw r) ∧ 0 ≤ w_fee (w_raw r)) (block_withdrawals block) ∧
  Forall (λ d, 0 ≤ cv_capacity (dc_value d)) cells.

(** The scripts of the tokens withdrawn. *)
Definition withdrawn_tokens `{Blake2b, Molecule} (rth : H256) (config : RollupConfig)
    (block : L2Block) : list H256 :=
  omap (λ r, script_hash <$> build_l2_sudt_script rth config (w_sudt_script_hash (w_raw r)))
    (block_withdrawals block).

(** *** The keys of a block

    Its parties are the senders of its withdrawals and its depositors; its
    addresses are the producer's, those the state records for the parties and
    those its deposits register. *)
Section BlockKeys.
Context `{Blake2b, Molecule}.
Context (rth : H256) (config : RollupConfig) (block : L2Block) (cells : list DepositRequestCell).

Definition block_parties : list (Z * H256) :=
  (withdrawer ∘ w_raw <$> block_withdrawals block) ++ (depositor <$> cells).
Definition block_scripts : list H256 :=
  withdrawn_tokens rth config block ++ (dc_account_script_hash <$> cells)
  ++ omap (deposited_token rth config) cells.
Definition block_addresses (rs : RefState) : list RegistryAddress :=
  omap id [RegistryAddress_from_slice (block_producer (block_raw block))]
  ++ omap (registry_address_at rs) block_parties ++ omap (deposited_address config) cells.

(** The preimages of every key the replay hashes. *)
Definition block_hashed (rs : RefState) : bytes → Prop :=
  hashed block_parties block_scripts (block_addresses rs).
End BlockKeys.

Section BlockSupply.
Context `{Blake2b, Molecule, SmtRoot}.
Context (rth : H256) (config : RollupConfig) (block : L2Block) (cells : list DepositRequestCell).
Context (rs : RefState).
Local Abbreviation tokens := (withdrawn_tokens rth config block).
Local Abbreviation parties := (block_parties block cells).
Local Abbreviation addrs := (block_addresses config block cells rs).
Context (Hcf : collision_free (block_hashed rth config block cells rs)).
Context (Hreq : requests_ok block cells).

Lemma block_inv :
  (∀ h, h ∈ tokens → account_id_of rs h ≠ Some CKB_SUDT_ACCOUNT_ID) → u32 (rs_count rs) →
  inv tokens parties addrs rs.
Proof.
  intros Htok Hc. split; [done|done|]. intros p a Hp Ha. unfold block_addresses.
  rewrite !elem_of_app, !list_elem_of_omap. eauto.
Qed.

Lemma sum_over_opp {A} (f : A → Z) l : sum_over (λ a, - f a) l = - sum_over f l.
Proof. induction l as [|a l IH]; cbn; lia. Qed.

(** The withdrawals take out of the supply what they withdraw. *)
Lemma withdrawals_move (rs1 : RefState) :
  inv tokens parties addrs rs → check_layer2_withdrawal rth config block rs = (Ok tt, rs1) →
  inv tokens parties addrs rs1 ∧
  ckb_supply rs1 = ckb_supply rs
    - sum_over (λ r, ckb_of (w_capacity (w_raw r))) (block_withdrawals block).
Proof.
  intros Hi Hrun. destruct Hreq as [Hw _]. rewrite Forall_forall in Hw.
  unfold check_layer2_withdrawal in Hrun. destruct (block_withdrawals block) as [|w ws] eqn:Ews.
  { injection Hrun as <-. cbn. split; [done|lia]. }
  rewrite <- Ews in *. inv_ok. rename select (RegistryAddress_from_slice _ = Some _) into Hprod.
  rename select (st_for _ _ _ = _) into Hloop.
  eapply (moves_for tokens parties _ (λ r, - ckb_of (w_capacity (w_raw r)))) in Hloop as (Hi1 & E1 & _);
    [|intros r Hr; apply (moves_withdrawal_one tokens parties (block_scripts rth config block cells));
      try apply (Hw r Hr); try done|exact Hi].
  - split; [done|]. rewrite E1, sum_over_opp. lia.
  - intros h Hh. apply elem_of_app. by left.
  - apply elem_of_app. left. by apply (list_elem_of_fmap_2 (withdrawer ∘ w_raw)).
  - unfold block_addresses. rewrite Hprod. left.
  - intros script Hs. apply list_elem_of_omap. exists r. split; [done|]. by rewrite Hs.
Qed.

(** The deposits add what they deposit. *)
Lemma deposits_move :
  moves [] parties addrs (sum_over (λ d, ckb_of (cv_capacity (dc_value d))) cells)
    (check_layer2_deposit rth config cells) (λ _, True).
Proof.
  destruct Hreq as [_ Hd]. rewrite Forall_forall in Hd.
  apply moves_for. intros d Hdd. pose proof (Hd d Hdd).
  apply (moves_deposit_one [] parties (block_scripts rth config block cells)); try done;
    [by intros ? ?%elem_of_nil|..]; unfold block_scripts, block_parties, block_addresses.
  - rewrite !elem_of_app, list_elem_of_fmap. eauto.
  - intros h Hh. rewrite !elem_of_app, list_elem_of_omap. eauto.
  - rewrite !elem_of_app, !list_elem_of_fmap. eauto.
  - intros a Ha. rewrite !elem_of_app, !list_elem_of_omap. eauto 6.
Qed.

(** Running both replays on a full state. *)
Lemma replay_moves (rs1 rs2 : RefState) :
  (∀ h, h ∈ tokens → account_id_of rs h ≠ Some CKB_SUDT_ACCOUNT_ID) → u32 (rs_count rs) →
  check_layer2_withdrawal rth config block rs = (Ok tt, rs1) →
  check_layer2_deposit rth config cells rs1 = (Ok tt, rs2) →
  ckb_supply rs2 = ckb_supply rs
    - sum_over (λ r, ckb_of (w_capacity (w_raw r))) (block_withdrawals block)
    + sum_over (λ d, ckb_of (cv_capacity (dc_value d))) cells.
Proof.
  intros Htok Hc Hrun1 Hrun2.
  destruct (withdrawals_move rs1 (block_inv Htok Hc) Hrun1) as [[Hc1 _ Hp1] E1].
  destruct (deposits_move rs1 tt rs2) as (_ & E2 & _); [|done|lia].
  split; [done|by intros ? ?%elem_of_nil|done].
Qed.
End BlockSupply.
