(* ===== verification/SubmitBlockProps.v ===== *)
(** * What an accepted block guarantees

    Theorems about [SubmitBlock.submit_block_verify]: assets in custody are
    conserved, withdrawal cells and withdrawal requests correspond one to one,
    so do deposits and the custodian cells they become, the global state moves
    by exactly one block, and the layer-2 supply of CKB follows the deposits and
    withdrawals. *)
From Stdlib Require Import ZArith Lia Strings.Byte.
From stdpp Require Import prelude list gmap.
From S2P Require Import Prelude Bytes Types State StateSpec Finality Ckb SubmitBlock.
From S2P Require Import Layer2Supply.
Local Open Scope Z_scope.

(** ** Asset maps compute sums *)

(** What a cell holds of asset [k]: its token amount, and its capacity for
    CKB. *)
Definition cell_asset (k : H256) (v : CellValue) : Z :=
  (if decide (cv_sudt_script_hash v = k) then cv_amount v else 0)
  + (if decide (CKB_SUDT_SCRIPT_ARGS = k) then cv_capacity v else 0).
Definition total_asset (k : H256) (cells : list CellValue) : Z := sum_over (cell_asset k) cells.

Section Assets.
Implicit Types (m a b c : assets) (k : H256).

Lemma asset_insert m k v k' : asset (<[k := v]> m) k' = if decide (k = k') then v else asset m k'.
Proof. unfold asset. rewrite lookup_insert. by case_decide. Qed.

Lemma add_asset_Ok m k v m' :
  add_asset m k v = Ok m' → ∀ k', asset m' k' = asset m k' + if decide (k = k') then v else 0.
Proof.
  unfold add_asset. intros Hrun. inv_ok. rewrite checked_add_Some in *. destruct_and?. subst.
  intros k'. rewrite asset_insert. case_decide; subst; lia.
Qed.

Lemma build_assets_Ok cells m' :
  build_assets_map_from_cells cells = Ok m' → ∀ k, asset m' k = total_asset k cells.
Proof.
  unfold build_assets_map_from_cells, total_asset.
  assert (∀ m, foldM (λ m cell,
      m ← add_asset m (cv_sudt_script_hash cell) (cv_amount cell);
      add_asset m CKB_SUDT_SCRIPT_ARGS (cv_capacity cell)) m cells = Ok m' →
    ∀ k, asset m' k = asset m k + sum_over (cell_asset k) cells) as Hgen.
  { induction cells as [|v cells IH]; intros m Hrun k; cbn [foldM sum_over] in Hrun |- *; inv_ok;
      [lia|]. erewrite IH by eassumption. unfold cell_asset at 2.
    repeat match goal with H : add_asset _ _ _ = Ok _ |- _ =>
      rewrite (add_asset_Ok _ _ _ _ H k); clear H end. lia. }
  intros Hrun k. rewrite (Hgen _ Hrun). done.
Qed.

Lemma sub_assets_Ok e a b c :
  sub_assets e a b = Ok c → ∀ k, asset c k = asset a k - asset b k.
Proof.
  unfold sub_assets.
  assert (∀ l a, NoDup l.*1 →
    foldM (λ m '(k, v), x ← ok_or e (checked_sub (asset m k) v); Ok (<[k := x]> m)) a l = Ok c →
    ∀ k, asset c k = asset a k - asset (list_to_map l) k) as Hgen.
  { induction l as [|[k v] l IH]; intros a0 Hnd Hrun k'; cbn in Hrun |- *; inv_ok.
    - unfold asset at 3. rewrite lookup_empty. cbn. lia.
    - apply NoDup_cons in Hnd as [Hk Hnd]. apply not_elem_of_list_to_map_1 in Hk. cbn in Hk.
      erewrite IH by eassumption. rewrite checked_sub_Some in *. destruct_and?. subst.
      rewrite !asset_insert. case_decide; subst; [|lia].
      unfold asset at 2. rewrite Hk. cbn. lia. }
  intros Hrun k. rewrite (Hgen _ _ (NoDup_fst_map_to_list b) Hrun).
  by rewrite list_to_map_to_list.
Qed.

Lemma assets_all_zero m :
  forallb (λ kv, kv.2 =? 0) (map_to_list m) = true → ∀ k, asset m k = 0.
Proof.
  intros Hall%Is_true_true_2%forallb_True k. rewrite Forall_forall in Hall. unfold asset.
  destruct (m !! k) as [v|] eqn:E; [|done]. cbn.
  apply elem_of_map_to_list, Hall, Is_true_true_1 in E. cbn in E. lia.
Qed.
End Assets.

(** ** Matching off cells against a pool *)
Section Matching.
Context {E A B : Type}.

Lemma remove_first_Some (p : B → outcome E bool) l l' :
  remove_first p l = Ok (Some l') → ∃ x, p x = Ok true ∧ l ≡ₚ x :: l'.
Proof.
  revert l'. induction l as [|x l IH]; intros l' Hrun; cbn in Hrun; inv_ok; [done|].
  destruct x0; inv_ok.
  - simplify_eq. eauto.
  - destruct x0 as [l0|]; [|done]. simplify_eq. cbn in *. simplify_eq.
    destruct (IH l0) as (y & Hy & Hp); [done|]. exists y. split; [done|]. rewrite Hp.
    by rewrite Permutation_swap.
Qed.

(** A run that leaves nothing over pairs every cell with one element of the
    pool. *)
Lemma match_off_nil (e : E) (p : A → B → outcome E bool) cells pool rest :
  match_off e p cells pool = Ok rest → rest = [] →
  ∃ matched, matched ≡ₚ pool ∧ Forall2 (λ a b, p a b = Ok true) cells matched.
Proof.
  intros Hrun ->. revert pool Hrun. unfold match_off.
  induction cells as [|a cells IH]; intros pool Hrun; cbn in Hrun; inv_ok.
  - exists []. by split.
  - destruct (remove_first_Some _ _ _ ltac:(eassumption)) as (y & Hy & Hp).
    destruct (IH x) as (ms & Hms & Hf); [done|]. exists (y :: ms). split; [by rewrite Hp, Hms|].
    by constructor.
Qed.
End Matching.

Lemma length_zero_nil {A} (l : list A) : negb (bool_decide (length l = 0%nat)) = false → l = [].
Proof. rewrite negb_false_iff, bool_decide_eq_true. apply nil_length_inv. Qed.

(** ** The steps of an accepted submission *)
Section Steps.
Context `{Blake2b, Molecule, CkbEnv, SmtC, Cbmt}.

(** Everything [submit_block_verify] checked, in order. *)
Record submit_steps (rth : H256) (config : RollupConfig) (block : L2Block)
    (prev post : GlobalState) (ctx : BlockContext) (kv0 kv1 kv2 kv3 : KVState)
    (wcells : list WithdrawalCell) (dcells : list DepositRequestCell) (inputs : assets) : Prop := {
  st_status : check_status prev Running = Ok tt;
  st_checkpoints : check_state_checkpoints block = Ok tt;
  st_withdrawals : check_block_withdrawals block = Ok tt;
  st_context : load_block_context_and_state rth config block prev post = Ok (ctx, kv0);
  st_producer : verify_block_producer config ctx block = Ok tt;
  st_wcells : collect_withdrawal_locks (ctx_rollup_type_hash ctx) config SrcOutput = Ok wcells;
  st_dcells : collect_deposit_locks (ctx_rollup_type_hash ctx) config SrcInput = Ok dcells;
  st_check_w : check_withdrawal_cells ctx (block_withdrawals block) wcells = Ok tt;
  st_check_in : check_input_custodian_cells config prev ctx wcells = Ok inputs;
  st_check_out : check_output_custodian_cells config prev ctx dcells inputs = Ok tt;
  st_no_challenge_in : find_challenge_cell rth config SrcInput = Ok None;
  st_no_challenge_out : find_challenge_cell rth config SrcOutput = Ok None;
  st_l2_withdrawal : run_on (check_layer2_withdrawal rth config block) kv0 = Ok (tt, kv1);
  st_l2_deposit : run_on (check_layer2_deposit rth config dcells) kv1 = Ok (tt, kv2);
  st_transactions :
    run_on (check_block_transactions block (ctx_post_version ctx)) kv2 = Ok (tt, kv3);
  st_tip_timestamp : check_global_state_tip_block_timestamp prev post = Ok tt;
  st_finalized : check_global_state_last_finalized_timepoint config ctx prev post = Ok tt;
  st_post : submitted_global_state ctx block prev post = post;
}.

Lemma submit_block_steps rth config block prev post :
  submit_block_verify rth config block prev post = Ok tt →
  ∃ ctx kv0 kv1 kv2 kv3 wcells dcells inputs,
    submit_steps rth config block prev post ctx kv0 kv1 kv2 kv3 wcells dcells inputs.
Proof.
  unfold submit_block_verify. intros Hrun.
  repeat (inv_ok_step; subst; cbn beta in *;
          repeat match goal with p : BlockContext * KVState |- _ => destruct p
                               | p : unit * KVState |- _ => destruct p as [[] ?] end).
  match goal with Hc : (if bool_decide (is_Some ?o) then _ else _) = Ok false |- _ =>
    destruct o; [discriminate Hc|]; cbn in Hc end.
  inv_ok. match goal with Hc : bool_decide (is_Some ?o) = false |- _ =>
    destruct o; [discriminate Hc|] end.
  eexists _, _, _, _, _, _, _, _. split; try eassumption.
  apply (bool_decide_eq_true_1 _). by apply negb_false_iff.
Qed.

Lemma run_on_Ok {St A} (m : ST St GwError.t A) s a s' :
  run_on m s = Ok (a, s') ↔ m s = (Ok a, s').
Proof. unfold run_on. destruct (m s) as [[] ?]; naive_solver. Qed.

(** The context is read off the block and the global states. *)
Lemma load_context_Ok rth config block prev post ctx kv :
  load_block_context_and_state rth config block prev post = Ok (ctx, kv) →
  ctx = mkBlockContext (number (block_raw block)) (timestamp (block_raw block))
          (raw_block_hash (block_raw block)) rth (am_merkle_root (gs_account prev))
          (gs_version post) (finality_time_in_ms config) ∧
  number (block_raw block) = bm_count (gs_block prev) ∧
  bm_count (gs_block post) = number (block_raw block) + 1 ∧
  parent_block_hash (block_raw block) = tip_block_hash prev ∧
  prev_account (block_raw block) = gs_account prev ∧
  post_account (block_raw block) = gs_account post ∧
  check_block_timestamp post (timestamp (block_raw block)) = Ok tt.
Proof.
  unfold load_block_context_and_state. intros Hrun. inv_ok. simplify_eq.
  unfold add_w in *. inv_ok. rewrite checked_add_Some in *. destruct_and?.
  bool_inv. repeat split; try done; lia.
Qed.
End Steps.

(** When the deposits and withdrawals of a block become final: the block number
    before the timestamp fork, the block's timestamp plus the finality period
    after it. *)
Definition block_timepoint (config : RollupConfig) (post : GlobalState) (b : RawL2Block) : Timepoint :=
  if use_timestamp_as_timepoint (gs_version post)
  then Timestamp (timestamp b + finality_time_in_ms config)
  else BlockNumber (number b).

Lemma ctx_finalized_timepoint_Ok {E} config post b h rth root tp :
  ctx_finalized_timepoint (E:=E) (mkBlockContext (number b) (timestamp b) h rth root
    (gs_version post) (finality_time_in_ms config)) = Ok tp →
  tp = block_timepoint config post b.
Proof.
  unfold ctx_finalized_timepoint, block_timepoint. cbn. case_match; intros Hrun.
  - unfold add_w in Hrun. inv_ok. rewrite checked_add_Some in *. destruct_and?. simplify_eq. done.
  - by simplify_eq.
Qed.

Section Cells.
Context `{Blake2b, Molecule, CkbEnv, SmtC, Cbmt}.
Context (rth : H256) (config : RollupConfig) (block : L2Block) (prev post : GlobalState).

Definition finalized_custodians (cells : list CustodianCell) : list CustodianCell :=
  filter (λ c, custodian_is_finalized config prev c = true) cells.
Definition unfinalized_custodians (cells : list CustodianCell) : list CustodianCell :=
  filter (λ c, custodian_is_finalized config prev c = false) cells.

Lemma check_input_custodian_Ok ctx wcells inputs :
  check_input_custodian_cells config prev ctx wcells = Ok inputs →
  ∃ cin din,
    collect_custodian_locks (ctx_rollup_type_hash ctx) config SrcInput = Ok cin ∧
    collect_deposit_locks (ctx_rollup_type_hash ctx) config SrcOutput = Ok din ∧
    (∃ matched, matched ≡ₚ din ∧
       Forall2 (λ c d, reverted_deposit_matches c d = true) (unfinalized_custodians cin) matched) ∧
    ∀ k, asset inputs k
         = total_asset k (cc_value <$> finalized_custodians cin) - total_asset k (wc_value <$> wcells).
Proof.
  unfold check_input_custodian_cells. intros Hrun. inv_ok.
  exists x, x0. split; [done|]. split; [done|]. split.
  - destruct (match_off_nil _ _ _ _ _ ltac:(eassumption)) as (ms & Hp & Hf);
      [by apply length_zero_nil|].
    exists ms. split; [done|]. eapply Forall2_impl; [exact Hf|]. by intros ?? [= ->].
  - intros k. erewrite sub_assets_Ok by eassumption.
    by erewrite !build_assets_Ok by eassumption.
Qed.

Lemma check_output_custodian_Ok ctx dcells inputs :
  check_output_custodian_cells config prev ctx dcells inputs = Ok tt →
  ∃ cout win,
    collect_custodian_locks (ctx_rollup_type_hash ctx) config SrcOutput = Ok cout ∧
    collect_withdrawal_locks (ctx_rollup_type_hash ctx) config SrcInput = Ok win ∧
    (∃ matched, matched ≡ₚ dcells ∧
       Forall2 (λ c d, deposit_matches ctx c d = Ok true) (unfinalized_custodians cout) matched) ∧
    ∀ k, total_asset k (cc_value <$> finalized_custodians cout)
         = total_asset k (wc_value <$> win) + asset inputs k.
Proof.
  unfold check_output_custodian_cells. intros Hrun. inv_ok.
  exists x, x1. split; [done|]. split; [done|]. split.
  - destruct (match_off_nil _ _ _ _ _ ltac:(eassumption)) as (ms & Hp & Hf);
      [by apply length_zero_nil|]. by exists ms.
  - intros k. bool_inv.
    match goal with Hz : forallb _ _ = true |- _ => pose proof (assets_all_zero _ Hz k) as Hzero end.
    repeat (erewrite sub_assets_Ok in Hzero by eassumption).
    repeat (erewrite build_assets_Ok in Hzero by eassumption).
    unfold finalized_custodians. lia.
Qed.

(** Every withdrawal cell belongs to this block and is paired with a
    request. *)
Lemma check_withdrawal_cells_Ok ctx requests cells :
  check_withdrawal_cells ctx requests cells = Ok tt →
  (∃ matched, matched ≡ₚ requests ∧
     Forall2 (λ c r, withdrawal_request_matches c r = true) cells matched) ∧
  Forall (λ c, wl_withdrawal_block_hash (wc_args c) = ctx_block_hash ctx ∧
    ∃ tp, ctx_finalized_timepoint (E:=GwError.t) ctx = Ok tp ∧
          wl_withdrawal_finalized_timepoint (wc_args c) = Timepoint_full_value tp) cells.
Proof.
  unfold check_withdrawal_cells. intros Hrun. inv_ok.
  assert (x = []) as -> by (by apply length_zero_nil). clear H5.
  revert requests H4. induction cells as [|c cells IH]; intros requests Hrun;
    cbn [foldM] in Hrun; inv_ok.
  - split; [by exists []|constructor].
  - bool_inv. destruct (remove_first_Some _ _ _ ltac:(eassumption)) as (r & [= Hr] & Hp).
    destruct (IH _ ltac:(eassumption)) as [(ms & Hms & Hf) Hall]. split.
    + exists (r :: ms). split; [by rewrite Hp, Hms|]. by constructor.
    + constructor; [|done]. eauto.
Qed.
End Cells.

(** C2. Custody is conserved: when a block submission is accepted, for CKB and
    for every token, the finalized custodian cells consumed plus the reverted
    withdrawals taken back equal the finalized custodian cells created plus the
    withdrawals paid out. *)
Theorem submit_block_conserves_assets `{Blake2b, Molecule, CkbEnv, SmtC, Cbmt}
    (rth : H256) (config : RollupConfig) (block : L2Block) (prev post : GlobalState) :
  submit_block_verify rth config block prev post = Ok tt →
  ∃ cin cout win wout,
    collect_custodian_locks rth config SrcInput = Ok cin ∧
    collect_custodian_locks rth config SrcOutput = Ok cout ∧
    collect_withdrawal_locks rth config SrcInput = Ok win ∧
    collect_withdrawal_locks rth config SrcOutput = Ok wout ∧
    ∀ k,
      total_asset k (cc_value <$> finalized_custodians config prev cin)
        + total_asset k (wc_value <$> win)
      = total_asset k (cc_value <$> finalized_custodians config prev cout)
        + total_asset k (wc_value <$> wout).
Proof.
  intros Hrun. destruct (submit_block_steps _ _ _ _ _ Hrun)
    as (ctx & kv0 & kv1 & kv2 & kv3 & wcells & dcells & inputs & Hst).
  destruct (load_context_Ok _ _ _ _ _ _ _ (st_context _ _ _ _ _ _ _ _ _ _ _ _ _ Hst)) as [-> _].
  destruct (check_input_custodian_Ok _ _ _ _ _ (st_check_in _ _ _ _ _ _ _ _ _ _ _ _ _ Hst))
    as (cin & din & E1 & _ & _ & Hin).
  destruct (check_output_custodian_Ok _ _ _ _ _ (st_check_out _ _ _ _ _ _ _ _ _ _ _ _ _ Hst))
    as (cout & win & E2 & E3 & _ & Hout).
  pose proof (st_wcells _ _ _ _ _ _ _ _ _ _ _ _ _ Hst) as E4. cbn in *.
  exists cin, cout, win, wcells. repeat split; try done.
  intros k. rewrite (Hout k), (Hin k). lia.
Qed.

(** C31. Withdrawals are exact: the withdrawal cells an accepted block creates
    are, up to order, one per withdrawal request of the block, for the requested
    account, token, amount and capacity, and each carries the block's hash and
    finalization timepoint. *)
Theorem submit_block_withdrawals_exact `{Blake2b, Molecule, CkbEnv, SmtC, Cbmt}
    (rth : H256) (config : RollupConfig) (block : L2Block) (prev post : GlobalState) :
  submit_block_verify rth config block prev post = Ok tt →
  ∃ wout requests,
    collect_withdrawal_locks rth config SrcOutput = Ok wout ∧
    requests ≡ₚ block_withdrawals block ∧
    Forall2 (λ c r,
      w_account_script_hash (w_raw r) = wl_account_script_hash (wc_args c) ∧
      w_sudt_script_hash (w_raw r) = cv_sudt_script_hash (wc_value c) ∧
      w_amount (w_raw r) = cv_amount (wc_value c) ∧
      w_capacity (w_raw r) = cv_capacity (wc_value c)) wout requests ∧
    Forall (λ c, wl_withdrawal_block_hash (wc_args c) = raw_block_hash (block_raw block) ∧
                 wl_withdrawal_finalized_timepoint (wc_args c)
                 = Timepoint_full_value (block_timepoint config post (block_raw block))) wout.
Proof.
  intros Hrun. destruct (submit_block_steps _ _ _ _ _ Hrun)
    as (ctx & kv0 & kv1 & kv2 & kv3 & wcells & dcells & inputs & Hst).
  destruct (load_context_Ok _ _ _ _ _ _ _ (st_context _ _ _ _ _ _ _ _ _ _ _ _ _ Hst)) as [-> _].
  destruct (check_withdrawal_cells_Ok _ _ _ (st_check_w _ _ _ _ _ _ _ _ _ _ _ _ _ Hst))
    as [(ms & Hp & Hf) Hall].
  exists wcells, ms. split; [exact (st_wcells _ _ _ _ _ _ _ _ _ _ _ _ _ Hst)|].
  split; [done|]. split.
  - eapply Forall2_impl; [exact Hf|]. intros c r Hm. unfold withdrawal_request_matches in Hm.
    by bool_inv.
  - eapply Forall_impl; [exact Hall|]. intros c (? & tp & Htp%ctx_finalized_timepoint_Ok & ?).
    by subst tp.
Qed.

(** C32. Deposits are exact: the unfinalized custodian cells an accepted block
    creates are, up to order, one per deposit cell it consumes, with the same
    lock arguments and value and stamped with the block's hash and finalization
    timepoint; and the unfinalized
    custodian cells it consumes are turned back into deposit cells with the same
    lock arguments and value. *)
Theorem submit_block_deposits_exact `{Blake2b, Molecule, CkbEnv, SmtC, Cbmt}
    (rth : H256) (config : RollupConfig) (block : L2Block) (prev post : GlobalState) :
  submit_block_verify rth config block prev post = Ok tt →
  ∃ cin cout din dout deposits reverted,
    collect_custodian_locks rth config SrcInput = Ok cin ∧
    collect_custodian_locks rth config SrcOutput = Ok cout ∧
    collect_deposit_locks rth config SrcInput = Ok din ∧
    collect_deposit_locks rth config SrcOutput = Ok dout ∧
    deposits ≡ₚ din ∧ reverted ≡ₚ dout ∧
    Forall2 (λ c d, cl_deposit_lock_args (cc_args c) = dc_args d ∧ cc_value c = dc_value d ∧
                    cl_deposit_block_hash (cc_args c) = raw_block_hash (block_raw block) ∧
                    cl_deposit_finalized_timepoint (cc_args c)
                    = Timepoint_full_value (block_timepoint config post (block_raw block)))
      (unfinalized_custodians config prev cout) deposits ∧
    Forall2 (λ c d, cl_deposit_lock_args (cc_args c) = dc_args d ∧ cc_value c = dc_value d)
      (unfinalized_custodians config prev cin) reverted.
Proof.
  intros Hrun. destruct (submit_block_steps _ _ _ _ _ Hrun)
    as (ctx & kv0 & kv1 & kv2 & kv3 & wcells & dcells & inputs & Hst).
  destruct (load_context_Ok _ _ _ _ _ _ _ (st_context _ _ _ _ _ _ _ _ _ _ _ _ _ Hst)) as [-> _].
  destruct (check_input_custodian_Ok _ _ _ _ _ (st_check_in _ _ _ _ _ _ _ _ _ _ _ _ _ Hst))
    as (cin & dout & E1 & E2 & (rv & Hrv & Hf1) & _).
  destruct (check_output_custodian_Ok _ _ _ _ _ (st_check_out _ _ _ _ _ _ _ _ _ _ _ _ _ Hst))
    as (cout & win & E3 & E4 & (ds & Hds & Hf2) & _).
  pose proof (st_dcells _ _ _ _ _ _ _ _ _ _ _ _ _ Hst) as E5. cbn in *.
  exists cin, cout, dcells, dout, ds, rv. repeat split; try done.
  - eapply Forall2_impl; [exact Hf2|]. intros c d Hm. unfold deposit_matches in Hm. cbn in Hm.
    destruct (bool_decide _ && bool_decide _) eqn:Hc; [|done]. inv_ok.
    repeat match goal with E : ctx_finalized_timepoint _ = Ok _ |- _ =>
      apply ctx_finalized_timepoint_Ok in E as -> end. by bool_inv.
  - eapply Forall2_impl; [exact Hf1|]. intros c d Hm. unfold reverted_deposit_matches in Hm.
    by bool_inv.
Qed.

(** An accepted block moves the global state by exactly one block: the
    block is the next number, extends the old tip, becomes the new tip, takes
    the old account state to the new one, and its timestamp is later than the
    old tip's; the rollup configuration, the reverted blocks and the status stay,
    the finalized timepoint never moves back, and the old state was running. *)
Theorem submit_block_post_state `{Blake2b, Molecule, CkbEnv, SmtC, Cbmt}
    (rth : H256) (config : RollupConfig) (block : L2Block) (prev post : GlobalState) :
  submit_block_verify rth config block prev post = Ok tt →
  let b := block_raw block in
  number b = bm_count (gs_block prev) ∧
  bm_count (gs_block post) = bm_count (gs_block prev) + 1 ∧
  parent_block_hash b = tip_block_hash prev ∧ tip_block_hash post = raw_block_hash b ∧
  prev_account b = gs_account prev ∧ post_account b = gs_account post ∧
  tip_block_timestamp prev < tip_block_timestamp post ∧ tip_block_timestamp post = timestamp b ∧
  last_finalized_timepoint prev ≤ last_finalized_timepoint post ∧
  rollup_config_hash post = rollup_config_hash prev ∧
  reverted_block_root post = reverted_block_root prev ∧
  gs_status prev = Status_to_u8 Running ∧ gs_status post = Status_to_u8 Running.
Proof.
  intros Hrun b. destruct (submit_block_steps _ _ _ _ _ Hrun)
    as (ctx & kv0 & kv1 & kv2 & kv3 & wcells & dcells & inputs & Hst).
  destruct (load_context_Ok _ _ _ _ _ _ _ (st_context _ _ _ _ _ _ _ _ _ _ _ _ _ Hst))
    as (-> & Hn & Hc & Hp & Ha & Hpa & Hts).
  destruct Hst as [Hstat _ _ _ _ _ _ _ _ _ _ _ _ _ _ Htip Hfin Hpost]. subst b.
  pose proof (f_equal tip_block_hash Hpost) as P1. pose proof (f_equal rollup_config_hash Hpost) as P2.
  pose proof (f_equal reverted_block_root Hpost) as P3. pose proof (f_equal gs_status Hpost) as P4.
  cbn in P1, P2, P3, P4. clear Hpost.
  unfold check_status, check_global_state_tip_block_timestamp,
    check_global_state_last_finalized_timepoint, check_block_timestamp in *.
  inv_ok. bool_inv. repeat split; try done; try lia; congruence.
Qed.

(** ** The block's witness and the full state *)
Section Witness.
Context `{Blake2b, Molecule, CkbEnv, SmtCLaws, Cbmt, SmtRoot}.

(** A full state that has the values the block's witness claims. *)
Definition state_matches_witness (block : L2Block) (prev : GlobalState) (rs : RefState) : Prop :=
  Forall (λ p, kv_get rs (kv_k p) = kv_v p) (block_kv_state block) ∧
  rs_count rs = am_count (gs_account prev).

Lemma tree_of_fetch {E} (e : E) capacity kvs t (rs : RefState) :
  tree_of e capacity kvs = Ok t → Forall (λ '(k, v), kv_get rs k = v) kvs →
  ∀ k v, smt_state_fetch t k = Ok v → kv_get rs k = v.
Proof.
  unfold tree_of. intros Hrun Hall.
  assert (∀ t0, (∀ k v, smt_state_fetch t0 k = Ok v → kv_get rs k = v) →
    foldM (λ t '(k, v), map_err (λ _, e) (smt_state_insert t k v)) t0 kvs = Ok t →
    ∀ k v, smt_state_fetch t k = Ok v → kv_get rs k = v) as Hgen.
  { clear Hrun. induction Hall as [|[k v] kvs Hkv _ IH]; intros t0 Ht0 Hrun;
      cbn [foldM] in Hrun; inv_ok; [done|].
    eapply IH; [|eassumption]. intros k' v'. erewrite smt_fetch_insert by eassumption.
    case_decide; [intros [= <-]; by subst|apply Ht0]. }
  eapply Hgen; [|exact Hrun]. intros k v Hf. by destruct (smt_fetch_init capacity k v).
Qed.

Lemma load_context_kv_rel rth config block prev post ctx kv rs :
  load_block_context_and_state rth config block prev post = Ok (ctx, kv) →
  state_matches_witness block prev rs → kv_rel kv rs.
Proof.
  unfold load_block_context_and_state. intros Hrun [Hall Hc]. inv_ok. simplify_eq.
  match goal with Hb : KVState_build _ _ _ _ _ = Ok _ |- _ =>
    unfold KVState_build in Hb end. inv_ok.
  match goal with Ht : tree_of _ _ _ = Ok ?t |- _ =>
    is_var t; rename t into tree; rename Ht into Htree end.
  assert (Hf : ∀ k v, smt_state_fetch tree k = Ok v → kv_get rs k = v).
  { eapply tree_of_fetch; [eassumption|]. apply Forall_fmap. eapply Forall_impl; [exact Hall|].
    by intros []. }
  case_match; inv_ok; [by split|].
  unfold calculate_root, KVState_ops, kvs_calculate_root in *.
  repeat case_match; simplify_eq; inv_ok; simplify_eq; try (by split).
  split; [|done]. cbn. intros k v. rewrite smt_fetch_normalize. apply Hf.
Qed.
End Witness.

(** C6. Replaying an accepted block moves the layer-2 supply of CKB by what it
    deposits and withdraws: on any full state that agrees with the witness of the
    accepted block, replaying the block's withdrawals and deposits succeeds, and
    the total supply of layer-2 CKB changes by exactly the capacity deposited less
    the capacity withdrawn, in layer-2 units; fees only change hands.  Conditions:
    the state's account count is a u32 and the amounts are unsigned; no script of
    a withdrawn token is registered as the CKB account; and the preimages of the
    keys this replay hashes ([block_hashed]: the balances of its addresses, the
    supplies, the registry and script entries of its parties and tokens) do not
    collide with each other or with an account field key. *)
Theorem submit_block_ckb_supply `{Blake2b, Molecule, CkbEnv, SmtCLaws, Cbmt, SmtRoot}
    (rth : H256) (config : RollupConfig) (block : L2Block) (prev post : GlobalState)
    (dcells : list DepositRequestCell) (rs : RefState) :
  submit_block_verify rth config block prev post = Ok tt →
  collect_deposit_locks rth config SrcInput = Ok dcells →
  state_matches_witness block prev rs → u32 (rs_count rs) → requests_ok block dcells →
  collision_free (block_hashed rth config block dcells rs) →
  (∀ h, h ∈ withdrawn_tokens rth config block → account_id_of rs h ≠ Some CKB_SUDT_ACCOUNT_ID) →
  ∃ rs1 rs2,
    check_layer2_withdrawal rth config block rs = (Ok tt, rs1) ∧
    check_layer2_deposit rth config dcells rs1 = (Ok tt, rs2) ∧
    ckb_supply rs2 = ckb_supply rs
      - sum_over (λ r, ckb_of (w_capacity (w_raw r))) (block_withdrawals block)
      + sum_over (λ d, ckb_of (cv_capacity (dc_value d))) dcells.
Proof.
  intros Hrun Hdc Hm Hc Hreq Hsup Htok. destruct (submit_block_steps _ _ _ _ _ Hrun)
    as (ctx & kv0 & kv1 & kv2 & kv3 & wcells & dcells' & inputs & Hst).
  pose proof (load_context_kv_rel _ _ _ _ _ _ _ _ (st_context _ _ _ _ _ _ _ _ _ _ _ _ _ Hst) Hm)
    as HR0.
  destruct (load_context_Ok _ _ _ _ _ _ _ (st_context _ _ _ _ _ _ _ _ _ _ _ _ _ Hst)) as [-> _].
  pose proof (st_dcells _ _ _ _ _ _ _ _ _ _ _ _ _ Hst) as Hd. cbn in Hd.
  rewrite Hdc in Hd. injection Hd as <-.
  pose proof (st_l2_withdrawal _ _ _ _ _ _ _ _ _ _ _ _ _ Hst) as Hw%run_on_Ok.
  pose proof (st_l2_deposit _ _ _ _ _ _ _ _ _ _ _ _ _ Hst) as Hdp%run_on_Ok.
  destruct (sim_check_layer2_withdrawal kv_rel rth config block kv0 rs HR0)
    as [(e & s & E & _)|(r & k & rs1 & E1 & E2 & HR1)]; [by rewrite Hw in E|].
  rewrite Hw in E1. simplify_eq.
  destruct (sim_check_layer2_deposit kv_rel rth config dcells k rs1 HR1)
    as [(e & s & E & _)|(r & k' & rs2 & E3 & E4 & HR2)]; [by rewrite Hdp in E|].
  rewrite Hdp in E3. simplify_eq.
  exists rs1, rs2. split; [done|]. split; [done|]. eapply replay_moves; eauto.
Qed.

(** The version decides the time rules of an accepted block, and version 0
    is never accepted.  Version 1: the block's timestamp is before the layer-1
    time of the rollup input, and the finalized timepoint is the block number
    less the finality window.  From version 2 on: the finalized timepoint is a
    timestamp before the layer-1 time, and the block's timestamp is within four
    hours of it. *)
Theorem submit_block_time_rules `{Blake2b, Molecule, CkbEnv, SmtC, Cbmt}
    (rth : H256) (config : RollupConfig) (block : L2Block) (prev post : GlobalState) :
  submit_block_verify rth config block prev post = Ok tt →
  0 ≤ tip_block_timestamp prev → 0 ≤ gs_version post →
  let b := block_raw block in
  let finalized := Timepoint_from_full_value (last_finalized_timepoint post) in
  (gs_version post = 1 ∧
     finalized = BlockNumber (saturating_sub (number b) (finality_blocks config)) ∧
     ∃ l1_time, absolute_timestamp_since 0 SrcGroupInput = Ok l1_time ∧ timestamp b < l1_time) ∨
  (2 ≤ gs_version post ∧
     ∃ backbone l1_time, finalized = Timestamp backbone ∧
       absolute_timestamp_since 0 SrcGroupInput = Ok l1_time ∧ backbone < l1_time ∧
       backbone - BACKBONE_BIAS ≤ timestamp b ≤ backbone + BACKBONE_BIAS).
Proof.
  intros Hrun Htip0 Hver b finalized. destruct (submit_block_steps _ _ _ _ _ Hrun)
    as (ctx & kv0 & kv1 & kv2 & kv3 & wcells & dcells & inputs & Hst).
  destruct (load_context_Ok _ _ _ _ _ _ _ (st_context _ _ _ _ _ _ _ _ _ _ _ _ _ Hst))
    as (-> & _ & _ & _ & _ & _ & Hts).
  destruct Hst as [_ _ _ _ _ _ _ _ _ _ _ _ _ _ _ Htip Hfin Hpost]. subst b finalized.
  unfold check_global_state_tip_block_timestamp in Htip.
  unfold check_global_state_last_finalized_timepoint in Hfin.
  unfold check_block_timestamp, enforce_block_timestamp_lower_than_since,
    enforce_block_timestamp_in_l1_backbone_range in Hts.
  unfold use_timestamp_as_timepoint in *. cbn in Hfin. inv_ok. bool_inv.
  pose proof (f_equal tip_block_timestamp Hpost) as P. cbn in P.
  destruct (Z.eqb_spec (gs_version post) 0) as [Hv|Hv].
  { rewrite <- P in *. lia. }
  destruct (Z.leb_spec 2 (gs_version post)) as [Hv2|Hv2].
  - right. split; [done|]. destruct (Timepoint_from_full_value _) as [|backbone]; [done|].
    inv_ok. bool_inv. unfold saturating_sub, saturating_add in *.
    exists backbone, x. repeat split; try done; lia.
  - left. assert (gs_version post = 1) as Hv1 by lia. rewrite Hv1 in *. cbn in *.
    destruct (Timepoint_from_full_value _) as [n|]; [|done]. inv_ok. bool_inv.
    split; [done|]. split; [by f_equal|]. eauto.
Qed.
