(* ===== verification/RollupScript.v ===== *)
(** * The rollup's type script: challenges, reverts, dispatch

    Models [gwos/contracts/state-validator/src]: [verifications/challenge.rs],
    [verifications/revert.rs] and [entry.rs].  A transaction that spends the
    rollup cell submits a block, enters or cancels a challenge, or reverts
    blocks; [main] picks the check from the action in the witness. *)
From Stdlib Require Import ZArith Lia Strings.Byte.
From stdpp Require Import prelude list gmap.
From S2P Require Import Prelude Bytes Types State StateSpec Finality Ckb SubmitBlock.
Local Open Scope Z_scope.

(** [iter().sum::<u128>()], which panics on overflow *)
Definition sum_u128 {E} (l : list Z) : outcome E Z := foldM (λ a c, add_w 128 a c) 0 l.

Definition with_status (status : Status) (gs : GlobalState) : GlobalState :=
  {| rollup_config_hash := rollup_config_hash gs; gs_account := gs_account gs;
     gs_block := gs_block gs; reverted_block_root := reverted_block_root gs;
     tip_block_hash := tip_block_hash gs; tip_block_timestamp := tip_block_timestamp gs;
     last_finalized_timepoint := last_finalized_timepoint gs;
     gs_status := Status_to_u8 status; gs_version := gs_version gs |}.

Section RollupScript.
Context `{Blake2b, Molecule} {env : CkbEnv} `{SmtC, Cbmt}.
Local Abbreviation M := (outcome GwError.t).

(** ** challenge.rs *)
Definition burned_capacity (config : RollupConfig) : M Z :=
  ins ← collect_burn_cells config SrcInput;
  input_burned ← sum_u128 ((λ c, cv_capacity (bc_value c)) <$> ins);
  outs ← collect_burn_cells config SrcOutput;
  output_burned ← sum_u128 ((λ c, cv_capacity (bc_value c)) <$> outs);
  Ok (saturating_sub output_burned input_burned).

Definition check_cancel_burn (config : RollupConfig) (cell : ChallengeCell) : M unit :=
  let expected_burn_capacity :=
    saturating_mul 128 (cv_capacity (chc_value cell)) (reward_burn_rate config) / 100 in
  burned ← burned_capacity config;
  reject_if (burned <? expected_burn_capacity) GwError.InvalidChallengeReward.

Definition challenge_timepoint (config : RollupConfig) (post : GlobalState)
    (challenged_block : RawL2Block) : M Timepoint :=
  if use_timestamp_as_timepoint (gs_version post)
  then t ← add_w 64 (timestamp challenged_block) (finality_time_in_ms config); Ok (Timestamp t)
  else Ok (BlockNumber (number challenged_block)).

Definition check_target_index (target : ChallengeTarget) (b : RawL2Block) : M unit :=
  match ChallengeTargetType_try_from (ct_target_type target) with
  | Ok TxExecution | Ok TxSignature =>
      reject_if (tx_count (submit_transactions b) <=? ct_target_index target)
        GwError.InvalidChallengeTarget
  | Ok TargetWithdrawal =>
      reject_if (withdrawal_count (submit_withdrawals b) <=? ct_target_index target)
        GwError.InvalidChallengeTarget
  | _ => Err GwError.InvalidChallengeTarget
  end.

Definition verify_enter_challenge (rth : H256) (config : RollupConfig)
    (witness : ChallengeWitness) (prev post : GlobalState) : M unit :=
  check_status prev Running ;;
  input_challenge ← find_challenge_cell rth config SrcInput;
  reject_if (bool_decide (is_Some input_challenge)) GwError.InvalidChallengeCell ;;
  o ← find_challenge_cell rth config SrcOutput;
  challenge_cell ← ok_or GwError.InvalidChallengeCell o;
  let challenged_block := cw_raw_l2block witness in
  block_timepoint ← challenge_timepoint config post challenged_block;
  reject_if (is_finalized config post block_timepoint) GwError.InvalidChallengeTarget ;;
  t ← tree_of GwError.MerkleProof 1
        [(compute_smt_key (number challenged_block), raw_block_hash challenged_block)];
  tree_verify GwError.MerkleProof t (bm_merkle_root (gs_block prev)) (cw_block_proof witness) ;;
  let challenge_target := chl_target (chc_args challenge_cell) in
  reject_if (negb (bool_decide (raw_block_hash challenged_block = ct_block_hash challenge_target)))
    GwError.InvalidChallengeTarget ;;
  check_target_index challenge_target challenged_block ;;
  check_rollup_lock_cells rth config ;;
  reject_if (negb (bool_decide (post = with_status Halting prev))) GwError.InvalidPostGlobalState.

Definition verify_cancel_challenge (rth : H256) (config : RollupConfig)
    (prev post : GlobalState) : M unit :=
  check_status prev Halting ;;
  input_challenge ← find_challenge_cell rth config SrcInput;
  output_challenge ← find_challenge_cell rth config SrcOutput;
  reject_if (negb (bool_decide (is_Some input_challenge)) || bool_decide (is_Some output_challenge))
    GwError.InvalidChallengeCell ;;
  o ← find_challenge_cell rth config SrcInput;
  challenge_cell ← ok_or GwError.InvalidChallengeCell o;
  check_cancel_burn config challenge_cell ;;
  check_rollup_lock_cells rth config ;;
  reject_if (negb (bool_decide (post = with_status Running prev))) GwError.InvalidPostGlobalState.

(** ** revert.rs *)
Definition MAX_REVERTED_BLOCKS : nat := 128.

Definition check_challenge_maturity (config : RollupConfig) (cell : ChallengeCell) : M unit :=
  v ← sys (load_input_since (chc_index cell) SrcInput);
  lv ← since_extract_lock_value v;
  match lv with
  | Some (LockBlockNumber n) =>
      if since_is_relative v && (challenge_maturity_blocks config <=? n) then Ok tt
      else Err GwError.InvalidChallengeCell
  | _ => Err GwError.InvalidChallengeCell
  end.

Definition check_challenge_cell (rth : H256) (config : RollupConfig) (cell : ChallengeCell)
    (revert_target_block_hash : H256) : M unit :=
  check_challenge_maturity config cell ;;
  output_challenge ← find_challenge_cell rth config SrcOutput;
  reject_if (bool_decide (is_Some output_challenge)) GwError.InvalidChallengeCell ;;
  reject_if (negb (bool_decide (ct_block_hash (chl_target (chc_args cell))
                                = revert_target_block_hash))) GwError.InvalidChallengeCell.

Definition get_receiver_cells_capacity (config : RollupConfig) (lock_hash : H256) (src : Source) :
    M Z :=
  indexes ← search_lock_hashes lock_hash src;
  capacities ← collect ((λ index, value ← fetch_capacity_and_sudt_value config index src;
                                  Ok (cv_capacity value)) <$> indexes);
  sum_u128 capacities.

Definition check_rewards (rth : H256) (config : RollupConfig) (reverted_blocks : list RawL2Block)
    (cell : ChallengeCell) : M unit :=
  stake_cells ← collect_stake_cells rth config SrcInput;
  let reverted_block_stake_set : gset H256 :=
    list_to_set (stake_cell_owner_lock_hash <$> reverted_blocks) in
  let reverted_stake_cells_set : gset H256 :=
    list_to_set ((λ c, sl_owner_lock_hash (sc_args c)) <$> stake_cells) in
  reject_if (negb (bool_decide (reverted_block_stake_set = reverted_stake_cells_set)))
    GwError.InvalidStakeCell ;;
  total_stake_capacity ← sum_u128 (sc_capacity <$> stake_cells);
  let expected_reward_capacity :=
    saturating_mul 128 total_stake_capacity (reward_burn_rate config) / 100 in
  let expected_burn_capacity := saturating_sub total_stake_capacity expected_reward_capacity in
  let receiver := script_hash (chl_rewards_receiver_lock (chc_args cell)) in
  input_capacity ← get_receiver_cells_capacity config receiver SrcInput;
  output_capacity ← get_receiver_cells_capacity config receiver SrcOutput;
  let received_capacity := saturating_sub output_capacity input_capacity in
  reject_if (received_capacity
             <? saturating_add 128 expected_reward_capacity (cv_capacity (chc_value cell)))
    GwError.InvalidChallengeReward ;;
  burned ← burned_capacity config;
  reject_if (burned <? expected_burn_capacity) GwError.InvalidChallengeReward.

(** The loop over [reverted_blocks[1..]]: [prev_hash] is set to the parent
    hash of the block just checked. *)
Fixpoint check_continuous (prev_hash : H256) (prev_number : Z) (blocks : list RawL2Block) : M Z :=
  match blocks with
  | [] => Ok prev_number
  | b :: blocks =>
      let hash := parent_block_hash b in
      reject_if (negb (bool_decide (hash = prev_hash))) GwError.InvalidRevertedBlocks ;;
      expected ← add_w 64 prev_number 1;
      reject_if (negb (number b =? expected)) GwError.InvalidRevertedBlocks ;;
      check_continuous hash (number b) blocks
  end.

Definition check_reverted_blocks (config : RollupConfig) (revert_args : RevertArgs)
    (prev post : GlobalState) : M GlobalState :=
  match rv_reverted_blocks revert_args with
  | [] => Err GwError.InvalidRevertedBlocks
  | (first :: rest) as reverted_blocks =>
      reject_if (MAX_REVERTED_BLOCKS <? length reverted_blocks)%nat GwError.InvalidRevertedBlocks ;;
      let hashes := raw_block_hash <$> reverted_blocks in
      let smt_keys := (λ b, compute_smt_key (number b)) <$> reverted_blocks in
      last_number ← check_continuous (raw_block_hash first) (number first) rest;
      tip_number ← sub_w (bm_count (gs_block prev)) 1;
      reject_if (negb (last_number =? tip_number)) GwError.InvalidRevertedBlocks ;;
      (* the reverted blocks are in the main chain *)
      t ← tree_of GwError.MerkleProof MAX_REVERTED_BLOCKS (zip smt_keys hashes);
      tree_verify GwError.InvalidRevertedBlocks t (bm_merkle_root (gs_block prev))
        (rv_block_proof revert_args) ;;
      (* they were not reverted before *)
      t ← tree_of GwError.MerkleProof MAX_REVERTED_BLOCKS ((λ h, (h, h256_zero)) <$> hashes);
      tree_verify GwError.InvalidRevertedBlocks t (reverted_block_root prev)
        (rv_reverted_block_proof revert_args) ;;
      (* they are reverted after *)
      t ← tree_of GwError.MerkleProof MAX_REVERTED_BLOCKS ((λ h, (h, h256_one)) <$> hashes);
      tree_verify GwError.InvalidRevertedBlocks t (reverted_block_root post)
        (rv_reverted_block_proof revert_args) ;;
      (* the block root without them *)
      t ← tree_of GwError.MerkleProof MAX_REVERTED_BLOCKS ((λ k, (k, h256_zero)) <$> smt_keys);
      block_root ← map_err (λ _, GwError.InvalidRevertedBlocks)
                     (smt_calculate_root t (rv_block_proof revert_args));
      last_finalized ←
        (if use_timestamp_as_timepoint (gs_version post) then
           l1_timestamp ← absolute_timestamp_since 0 SrcGroupInput; Ok (Timestamp l1_timestamp)
         else Ok (BlockNumber (saturating_sub (saturating_sub (number first) 1)
                                 (finality_blocks config))));
      let new_tip_block := rv_new_tip_block revert_args in
      reject_if (negb (bool_decide (raw_block_hash new_tip_block = parent_block_hash first)))
        GwError.InvalidRevertedBlocks ;;
      Ok {| rollup_config_hash := rollup_config_hash prev;
            gs_account := prev_account first;
            gs_block := mkBlockMerkleState block_root (number first);
            reverted_block_root := reverted_block_root post;
            tip_block_hash := parent_block_hash first;
            tip_block_timestamp := timestamp new_tip_block;
            last_finalized_timepoint := Timepoint_full_value last_finalized;
            gs_status := Status_to_u8 Running;
            gs_version := gs_version prev |}
  end.

Definition revert_verify (rth : H256) (config : RollupConfig) (revert_args : RevertArgs)
    (prev post : GlobalState) : M unit :=
  check_status prev Halting ;;
  check_rollup_lock_cells_except_stake rth config ;;
  output_stakes ← collect_stake_cells rth config SrcOutput;
  reject_if (negb (bool_decide (length output_stakes = 0%nat))) GwError.InvalidStakeCell ;;
  let reverted_blocks := rv_reverted_blocks revert_args in
  o ← find_challenge_cell rth config SrcInput;
  challenge_cell ← ok_or GwError.InvalidChallengeCell o;
  challenged_block ← ok_or GwError.InvalidRevertedBlocks (head reverted_blocks);
  check_challenge_cell rth config challenge_cell (raw_block_hash challenged_block) ;;
  check_rewards rth config reverted_blocks challenge_cell ;;
  reverted_global_state ← check_reverted_blocks config revert_args prev post;
  reject_if (negb (bool_decide (post = reverted_global_state))) GwError.InvalidPostGlobalState.

(** ** entry.rs *)
Definition MAX_ROLLUP_VERSION : Z := 2.

Definition parse_global_state (src : Source) : M GlobalState :=
  data ← sys (load_cell_data 0 src);
  ok_or GwError.Encoding (decode_global_state data).

Definition check_initialization : M bool :=
  if is_ok (load_cell_capacity 0 SrcGroupInput) then Ok false
  else
    post ← parse_global_state SrcGroupOutput;
    load_rollup_config (rollup_config_hash post) ;;
    Ok true.

(** The check of one action against the two global states. *)
Definition verify_action (rth : H256) (config : RollupConfig) (action : RollupAction)
    (prev post : GlobalState) : M unit :=
  match action with
  | RollupSubmitBlock a =>
      submit_block_verify rth config (sb_block a) prev post ;;
      verify_reverted_block_hashes (sb_reverted_block_hashes a) (sb_reverted_block_proof a) prev
  | RollupEnterChallenge w => verify_enter_challenge rth config w prev post
  | RollupCancelChallenge => verify_cancel_challenge rth config prev post
  | RollupRevert a => revert_verify rth config a prev post
  end.

Definition state_validator_main : M unit :=
  script ← sys load_script;
  reject_if (length (args script) <? TYPE_ID_SIZE)%nat GwError.InvalidTypeID ;;
  check_type_id (take TYPE_ID_SIZE (args script)) ;;
  init ← check_initialization;
  if (init : bool) then Ok tt
  else
    reject_if (negb (bool_decide (load_cell_lock_hash 0 SrcGroupInput
                                  = load_cell_lock_hash 0 SrcGroupOutput))) GwError.InvalidOutput ;;
    prev ← parse_global_state SrcGroupInput;
    post ← parse_global_state SrcGroupOutput;
    config ← load_rollup_config (rollup_config_hash prev);
    rth ← sys load_script_hash;
    reject_if (MAX_ROLLUP_VERSION <? gs_version post) GwError.InvalidPostGlobalState ;;
    reject_if (gs_version post <? gs_version prev) GwError.InvalidPostGlobalState ;;
    action ← parse_rollup_action 0 SrcGroupOutput;
    verify_action rth config action prev post.
End RollupScript.
