(* ===== verification/RollupProps.v ===== *)
(** * What accepted challenges and reverts guarantee

    Theorems about [RollupScript.verify_enter_challenge],
    [verify_cancel_challenge] and [revert_verify]: which blocks can be
    challenged, how the stake of reverted blocks is shared between the
    challenger and the burn lock, and which lists of blocks can be reverted. *)
From Stdlib Require Import ZArith Lia Strings.Byte.
From stdpp Require Import prelude list gmap.
From S2P Require Import Prelude Bytes Types State StateSpec Finality Ckb SubmitBlock.
From S2P Require Import SubmitBlockProps RollupScript.
Local Open Scope Z_scope.

(** ** Challenges *)
Section Challenge.
Context `{Blake2b, Molecule} {env : CkbEnv} `{SmtC, Cbmt}.
Implicit Types (config : RollupConfig) (prev post : GlobalState).

(** No deposit, withdrawal, custodian or stake cell is consumed or created. *)
Definition no_rollup_cells (rth : H256) config : Prop :=
  ∀ src, src = SrcInput ∨ src = SrcOutput →
    collect_deposit_locks rth config src = Ok [] ∧ collect_withdrawal_locks rth config src = Ok [] ∧
    collect_custodian_locks rth config src = Ok [] ∧ collect_stake_cells rth config src = Ok [].

Lemma check_rollup_lock_cells_Ok rth config :
  check_rollup_lock_cells rth config = Ok tt → no_rollup_cells rth config.
Proof.
  unfold check_rollup_lock_cells, check_rollup_lock_cells_except_stake. intros Hrun. inv_ok.
  bool_inv. repeat match goal with Hl : length ?l = 0%nat |- _ =>
    apply nil_length_inv in Hl; subst l end.
  by intros src [-> | ->].
Qed.

Lemma check_target_index_Ok target b :
  check_target_index target b = Ok tt →
  ∃ ty, ChallengeTargetType_try_from (ct_target_type target) = Ok ty ∧
    ct_target_index target <
      match ty with
      | TargetWithdrawal => withdrawal_count (submit_withdrawals b)
      | _ => tx_count (submit_transactions b)
      end.
Proof.
  unfold check_target_index. intros Hrun.
  destruct (ChallengeTargetType_try_from _) as [[]|e|]; inv_ok; bool_inv;
    eexists; split; try done.
Qed.

(** The timepoint a challenge is judged by is the one stamped on the cells the
    block created. *)
Lemma challenge_timepoint_stamp config post b rth h root tp :
  challenge_timepoint config post b = Ok tp →
  ctx_finalized_timepoint (E:=GwError.t)
    (mkBlockContext (number b) (timestamp b) h rth root (gs_version post)
       (finality_time_in_ms config)) = Ok tp.
Proof. done. Qed.

Lemma enter_Ok rth config w prev post :
  verify_enter_challenge rth config w prev post = Ok tt →
  let b := cw_raw_l2block w in
  ∃ cell tp t,
    gs_status prev = Status_to_u8 Running ∧ post = with_status Halting prev ∧
    find_challenge_cell rth config SrcInput = Ok None ∧
    find_challenge_cell rth config SrcOutput = Ok (Some cell) ∧
    challenge_timepoint config post b = Ok tp ∧ is_finalized config post tp = false ∧
    tree_of GwError.MerkleProof 1 [(compute_smt_key (number b), raw_block_hash b)] = Ok t ∧
    smt_verify t (bm_merkle_root (gs_block prev)) (cw_block_proof w) = Ok tt ∧
    ct_block_hash (chl_target (chc_args cell)) = raw_block_hash b ∧
    check_target_index (chl_target (chc_args cell)) b = Ok tt ∧ no_rollup_cells rth config.
Proof.
  unfold verify_enter_challenge, check_status, tree_verify. intros Hrun. inv_ok. bool_inv. subst.
  repeat match goal with Hs : ¬ is_Some ?o |- _ => apply eq_None_not_Some in Hs; subst o end.
  do 3 eexists. repeat split; try eassumption; try done.
  - by apply check_rollup_lock_cells_Ok.
  - by apply check_rollup_lock_cells_Ok.
  - by apply check_rollup_lock_cells_Ok.
  - by apply check_rollup_lock_cells_Ok.
Qed.

Lemma cancel_Ok rth config prev post :
  verify_cancel_challenge rth config prev post = Ok tt →
  ∃ cell burned,
    gs_status prev = Status_to_u8 Halting ∧ post = with_status Running prev ∧
    find_challenge_cell rth config SrcInput = Ok (Some cell) ∧
    find_challenge_cell rth config SrcOutput = Ok None ∧
    burned_capacity config = Ok burned ∧
    saturating_mul 128 (cv_capacity (chc_value cell)) (reward_burn_rate config) / 100 ≤ burned ∧
    no_rollup_cells rth config.
Proof.
  unfold verify_cancel_challenge, check_status, check_cancel_burn. intros Hrun. inv_ok. bool_inv.
  subst. match goal with Hs : ¬ is_Some ?o |- _ => apply eq_None_not_Some in Hs; subst o end.
  do 2 eexists. split; [done|]. split; [done|]. split; [eassumption|].
  split; [eassumption|]. split; [eassumption|]. split; [lia|].
  by apply check_rollup_lock_cells_Ok.
Qed.
End Challenge.

(** A challenge can only be opened on a running rollup, against a block of
    the main chain whose deposits and withdrawals are not final yet (by the
    timepoint the block stamps on its cells), at an index inside the block, and
    with the challenge cell naming that block; apart from the status, which
    becomes halting, the global state stays, and no deposit, withdrawal,
    custodian or stake cell moves. *)
Theorem enter_challenge_targets_unfinalized_block `{Blake2b, Molecule, CkbEnv, SmtC, Cbmt}
    (rth : H256) (config : RollupConfig) (w : ChallengeWitness) (prev post : GlobalState) :
  verify_enter_challenge rth config w prev post = Ok tt →
  let b := cw_raw_l2block w in
  gs_status prev = Status_to_u8 Running ∧ post = with_status Halting prev ∧
  no_rollup_cells rth config ∧
  (∃ cell ty,
    find_challenge_cell rth config SrcOutput = Ok (Some cell) ∧
    ct_block_hash (chl_target (chc_args cell)) = raw_block_hash b ∧
    ChallengeTargetType_try_from (ct_target_type (chl_target (chc_args cell))) = Ok ty ∧
    ct_target_index (chl_target (chc_args cell)) <
      match ty with
      | TargetWithdrawal => withdrawal_count (submit_withdrawals b)
      | _ => tx_count (submit_transactions b)
      end) ∧
  (∃ t, tree_of GwError.MerkleProof 1 [(compute_smt_key (number b), raw_block_hash b)] = Ok t ∧
        smt_verify t (bm_merkle_root (gs_block prev)) (cw_block_proof w) = Ok tt) ∧
  is_finalized config post (block_timepoint config post b) = false.
Proof.
  intros Hrun b. destruct (enter_Ok _ _ _ _ _ Hrun)
    as (cell & tp & t & Hs & Hp & _ & Hc & Htp & Hf & Ht & Hv & Hh & Hi & Hn).
  destruct (check_target_index_Ok _ _ Hi) as (ty & Hty & Hlt).
  split; [done|]. split; [done|]. split; [done|]. split; [by exists cell, ty|].
  split; [by exists t|].
  pose proof (challenge_timepoint_stamp _ _ _ [] [] [] _ Htp) as ->%ctx_finalized_timepoint_Ok. done.
Qed.

(** A cancelled challenge undoes an entered one: whatever transactions
    carry the two steps, the global state after entering and cancelling is the
    one before, and cancelling consumes the challenge cell, leaves no other, and
    burns at least the configured share of its capacity. *)
Theorem cancel_challenge_restores_state `{Blake2b, Molecule, SmtC, Cbmt} (env1 env2 : CkbEnv)
    (rth : H256) (config : RollupConfig) (w : ChallengeWitness) (gs halted gs' : GlobalState) :
  verify_enter_challenge (env := env1) rth config w gs halted = Ok tt →
  verify_cancel_challenge (env := env2) rth config halted gs' = Ok tt →
  gs' = gs ∧
  ∃ cell burned,
    find_challenge_cell (env := env2) rth config SrcInput = Ok (Some cell) ∧
    find_challenge_cell (env := env2) rth config SrcOutput = Ok None ∧
    burned_capacity (env := env2) config = Ok burned ∧
    saturating_mul 128 (cv_capacity (chc_value cell)) (reward_burn_rate config) / 100 ≤ burned.
Proof.
  intros He Hc. destruct (enter_Ok _ _ _ _ _ He) as (_ & _ & _ & Hs & -> & _).
  destruct (cancel_Ok _ _ _ _ Hc) as (cell & burned & _ & -> & Hin & Hout & Hb & Hle & _).
  split; [|eauto 10]. destruct gs. cbn in *. by rewrite Hs.
Qed.

(** ** Reverts *)
Section Revert.
Context `{Blake2b, Molecule} {env : CkbEnv} `{SmtC, Cbmt}.
Implicit Types (config : RollupConfig) (prev post : GlobalState).

Lemma sum_u128_Ok {E} l n : sum_u128 (E:=E) l = Ok n → n = sum_over id l.
Proof.
  unfold sum_u128. assert (∀ a, foldM (λ a c, add_w (E:=E) 128 a c) a l = Ok n →
    n = a + sum_over id l) as Hgen.
  { induction l as [|x l IH]; intros a Hrun; cbn in Hrun |- *; inv_ok; [lia|].
    unfold add_w in *. inv_ok. rewrite checked_add_Some in *. destruct_and?. subst.
    erewrite (IH (a + x)) by eassumption. unfold id. lia. }
  intros Hrun%Hgen. lia.
Qed.

(** The reverted blocks that pass have consecutive numbers and, after the
    first, all name the first block as their parent. *)
Lemma check_continuous_Ok h n blocks last :
  check_continuous h n blocks = Ok last →
  last = n + Z.of_nat (length blocks) ∧
  (∀ i b, blocks !! i = Some b → number b = n + 1 + Z.of_nat i ∧ parent_block_hash b = h).
Proof.
  revert h n. induction blocks as [|b blocks IH]; intros h n Hrun; cbn in Hrun; inv_ok.
  - split; [cbn; lia|done].
  - bool_inv. unfold add_w in *. inv_ok. rewrite checked_add_Some in *. destruct_and?. subst.
    match goal with Hr : check_continuous _ _ _ = Ok _ |- _ => apply IH in Hr as [-> Hall] end.
    split; [cbn [length]; lia|]. intros [|i] b' Hi; cbn in Hi; simplify_eq; [split; [lia|congruence]|].
    destruct (Hall i b' Hi). split; [lia|done].
Qed.

(** Everything [revert_verify] checked. *)
Record revert_steps (rth : H256) config (a : RevertArgs) prev post
    (first : RawL2Block) (rest : list RawL2Block) (cell : ChallengeCell) (block_root : H256)
    (t1 t2 t3 t4 : smt_state) (fin : Timepoint) : Prop := {
  rv_status : gs_status prev = Status_to_u8 Halting;
  rv_blocks : rv_reverted_blocks a = first :: rest;
  rv_length : (length (first :: rest) ≤ MAX_REVERTED_BLOCKS)%nat;
  rv_cell : find_challenge_cell rth config SrcInput = Ok (Some cell);
  rv_check_cell : check_challenge_cell rth config cell (raw_block_hash first) = Ok tt;
  rv_rewards : check_rewards rth config (first :: rest) cell = Ok tt;
  rv_continuous : check_continuous (raw_block_hash first) (number first) rest
                  = Ok (bm_count (gs_block prev) - 1);
  rv_count_pos : 1 ≤ bm_count (gs_block prev);
  rv_t1 : tree_of GwError.MerkleProof MAX_REVERTED_BLOCKS
            (zip ((λ b, compute_smt_key (number b)) <$> first :: rest)
                 (raw_block_hash <$> first :: rest)) = Ok t1;
  rv_v1 : smt_verify t1 (bm_merkle_root (gs_block prev)) (rv_block_proof a) = Ok tt;
  rv_t2 : tree_of GwError.MerkleProof MAX_REVERTED_BLOCKS
            ((λ h, (h, h256_zero)) <$> (raw_block_hash <$> first :: rest)) = Ok t2;
  rv_v2 : smt_verify t2 (reverted_block_root prev) (rv_reverted_block_proof a) = Ok tt;
  rv_t3 : tree_of GwError.MerkleProof MAX_REVERTED_BLOCKS
            ((λ h, (h, h256_one)) <$> (raw_block_hash <$> first :: rest)) = Ok t3;
  rv_v3 : smt_verify t3 (reverted_block_root post) (rv_reverted_block_proof a) = Ok tt;
  rv_t4 : tree_of GwError.MerkleProof MAX_REVERTED_BLOCKS
            ((λ k, (k, h256_zero)) <$> ((λ b, compute_smt_key (number b)) <$> first :: rest)) = Ok t4;
  rv_root : smt_calculate_root t4 (rv_block_proof a) = Ok block_root;
  rv_new_tip : raw_block_hash (rv_new_tip_block a) = parent_block_hash first;
  rv_post : post = {| rollup_config_hash := rollup_config_hash prev;
            gs_account := prev_account first;
            gs_block := mkBlockMerkleState block_root (number first);
            reverted_block_root := reverted_block_root post;
            tip_block_hash := parent_block_hash first;
            tip_block_timestamp := timestamp (rv_new_tip_block a);
            last_finalized_timepoint := Timepoint_full_value fin;
            gs_status := Status_to_u8 Running;
            gs_version := gs_version prev |};
}.

Lemma revert_steps_of rth config a prev post :
  revert_verify rth config a prev post = Ok tt →
  ∃ first rest cell root t1 t2 t3 t4 fin,
    revert_steps rth config a prev post first rest cell root t1 t2 t3 t4 fin.
Proof.
  unfold revert_verify, check_status, check_reverted_blocks, tree_verify. intros Hrun. inv_ok.
  destruct (rv_reverted_blocks a) as [|first rest] eqn:Hb; inv_ok.
  bool_inv. unfold sub_w in *. inv_ok. rewrite checked_sub_Some in *. destruct_and?. subst.
  cbn [head] in *. simplify_eq.
  do 9 eexists. constructor; try eassumption; try done.
Qed.
End Revert.

(** A revert settles the stakes: the stake cells it consumes belong to
    exactly the producers of the reverted blocks; the challenger's lock receives
    at least its challenge capacity and the configured share of the total stake,
    the burn lock receives at least the rest, so nothing of the stake is left to
    the producers. *)
Theorem revert_pays_whole_stake `{Blake2b, Molecule, CkbEnv, SmtC, Cbmt}
    (rth : H256) (config : RollupConfig) (a : RevertArgs) (prev post : GlobalState)
    (stakes : list StakeCell) :
  revert_verify rth config a prev post = Ok tt →
  collect_stake_cells rth config SrcInput = Ok stakes →
  let total := sum_over sc_capacity stakes in
  let reward := total * reward_burn_rate config / 100 in
  0 ≤ total * reward_burn_rate config < 2 ^ 128 → 0 ≤ total →
  collect_stake_cells rth config SrcOutput = Ok [] ∧
  (∀ h, h ∈ stake_cell_owner_lock_hash <$> rv_reverted_blocks a ↔
        h ∈ (λ c, sl_owner_lock_hash (sc_args c)) <$> stakes) ∧
  ∃ cell received_in received_out burned,
    find_challenge_cell rth config SrcInput = Ok (Some cell) ∧
    let receiver := script_hash (chl_rewards_receiver_lock (chc_args cell)) in
    get_receiver_cells_capacity config receiver SrcInput = Ok received_in ∧
    get_receiver_cells_capacity config receiver SrcOutput = Ok received_out ∧
    burned_capacity config = Ok burned ∧
    (reward + cv_capacity (chc_value cell) < 2 ^ 128 → 0 < reward + cv_capacity (chc_value cell) →
       reward + cv_capacity (chc_value cell) ≤ received_out - received_in ∧
       total + cv_capacity (chc_value cell) ≤ received_out - received_in + burned).
Proof.
  intros Hrun Hst total reward Hov Htot.
  assert (collect_stake_cells rth config SrcOutput = Ok []) as Hout.
  { unfold revert_verify in Hrun. inv_ok. bool_inv.
    by match goal with Hl : length ?l = 0%nat |- _ => apply nil_length_inv in Hl; subst l end. }
  destruct (revert_steps_of _ _ _ _ _ Hrun)
    as (first & rest & cell & root & t1 & t2 & t3 & t4 & fin & S).
  pose proof (rv_rewards _ _ _ _ _ _ _ _ _ _ _ _ _ _ S) as Hr.
  unfold check_rewards in Hr. rewrite Hst in Hr. cbn [mbind outcome_bind] in Hr. inv_ok. bool_inv.
  match goal with Hs : sum_u128 _ = Ok _ |- _ => apply sum_u128_Ok in Hs; subst end.
  assert (sum_over id (sc_capacity <$> stakes) = total) as Etot.
  { subst total. clear. induction stakes as [|c l IH]; cbn; [done|]. by rewrite IH. }
  rewrite Etot in *. unfold saturating_mul in *. rewrite Z.min_l in * by lia.
  split; [done|]. split.
  { rewrite (rv_blocks _ _ _ _ _ _ _ _ _ _ _ _ _ _ S). intros h.
    match goal with Hset : _ = _ :> gset H256 |- _ => rename Hset into Hset' end.
    rewrite <- !(elem_of_list_to_set (C := gset H256)). by rewrite Hset'. }
  do 4 eexists. split; [exact (rv_cell _ _ _ _ _ _ _ _ _ _ _ _ _ _ S)|].
  split; [eassumption|]. split; [eassumption|]. split; [eassumption|].
  unfold saturating_add, saturating_sub in *. subst reward. intros. split; lia.
Qed.

(** A defect of the continuity check: the loop compares each block's parent
    hash with the parent hash of the block before it, not with that block's own
    hash, so a list of properly linked blocks with different hashes is only
    accepted when it has at most two blocks; three or more linked blocks can
    never be reverted in one transaction, although the limit is 128. *)
Theorem revert_rejects_three_linked_blocks `{Blake2b, Molecule, CkbEnv, SmtC, Cbmt}
    (rth : H256) (config : RollupConfig) (a : RevertArgs) (prev post : GlobalState) :
  (∀ i b b', rv_reverted_blocks a !! i = Some b → rv_reverted_blocks a !! S i = Some b' →
     parent_block_hash b' = raw_block_hash b) →
  NoDup (raw_block_hash <$> rv_reverted_blocks a) →
  (3 ≤ length (rv_reverted_blocks a))%nat →
  ¬ revert_verify rth config a prev post = Ok tt.
Proof.
  intros Hlink Hnd Hlen Hrun. destruct (revert_steps_of _ _ _ _ _ Hrun)
    as (first & rest & cell & root & t1 & t2 & t3 & t4 & fin & S).
  rewrite (rv_blocks _ _ _ _ _ _ _ _ _ _ _ _ _ _ S) in *.
  destruct (check_continuous_Ok _ _ _ _ (rv_continuous _ _ _ _ _ _ _ _ _ _ _ _ _ _ S)) as [_ Hall].
  destruct rest as [|b2 [|b3 rest]]; cbn in Hlen; [lia..|].
  destruct (Hall 1%nat b3 eq_refl) as [_ Hp3]. pose proof (Hlink 1%nat b2 b3 eq_refl eq_refl) as Hl3.
  cbn in Hnd. apply NoDup_cons in Hnd as [Hni _]. apply Hni. rewrite <- Hp3, Hl3. by left.
Qed.
