(* ===== verification/RollupChain.v ===== *)
(** * The rollup as a chain of blocks

    The abstract specification of [gwos/contracts/state-validator]: a rollup is
    a chain of linked blocks, the set of block hashes ever reverted and a
    status.  Submitting appends a block, entering and cancelling a challenge
    switch the status, reverting cuts the chain back and records what was cut.
    The global state in the rollup cell only has roots and counters;
    [represents] says when it stands for such a chain, and every step the type
    script accepts is a step of the chain.

    Two assumptions on code outside the repository are used: the hashes of the
    blocks that occur in the run ([known]) do not collide and are not zero, and
    the roots of the sparse merkle tree commit to its leaves ([SmtCommits]). *)
From Stdlib Require Import ZArith Lia Strings.Byte.
From stdpp Require Import prelude list gmap.
From S2P Require Import Prelude Bytes Types State StateSpec Finality Ckb SubmitBlock.
From S2P Require Import Layer2Supply SubmitBlockProps RollupScript RollupProps.
Local Open Scope Z_scope.

(** ** Roots as commitments *)

(** The leaves of a tree after some pairs were written. *)
Definition write_leaves (kvs : list (H256 * H256)) (f : H256 → H256) (k : H256) : H256 :=
  default (f k) ((list_to_map kvs : gmap H256 H256) !! k).

(** No key has two values. *)
Definition functional_pairs (kvs : list (H256 * H256)) : Prop :=
  ∀ k v v', (k, v) ∈ kvs → (k, v') ∈ kvs → v = v'.

Lemma NoDup_functional_pairs kvs : NoDup kvs.*1 → functional_pairs kvs.
Proof. intros Hnd k v v' Hv Hv'. apply (elem_of_list_to_map (M := gmap H256)) in Hv, Hv'; [congruence|done..]. Qed.

(** A root commits to the leaves of one tree.  A verified proof of some pairs
    shows leaves of that tree, and the root computed with the same proof for new
    values of the same keys commits to the tree with those leaves written.
    [smt_verify] computes the root and compares. *)
Class SmtCommits `{SmtC} := {
  commits : H256 → (H256 → H256) → Prop;
  commits_verify {E} (e : E) n kvs t root proof f :
    functional_pairs kvs → tree_of e n kvs = Ok t → smt_verify t root proof = Ok tt →
    commits root f → Forall (λ kv, f kv.1 = kv.2) kvs;
  commits_update {E} (e : E) n kvs kvs' t t' root root' proof f :
    NoDup kvs.*1 → kvs'.*1 = kvs.*1 → tree_of e n kvs = Ok t → tree_of e n kvs' = Ok t' →
    smt_verify t root proof = Ok tt → smt_calculate_root t' proof = Ok root' →
    commits root f → commits root' (write_leaves kvs' f);
  smt_verify_root t root proof :
    smt_verify t root proof = Ok tt → smt_calculate_root t proof = Ok root;
}.

(** ** The abstract rollup *)
Record Rollup := mkRollup {
  chain : list RawL2Block;
  reverted : gset H256;
  r_status : Status;
}.

Section Spec.
Context `{Blake2b, Molecule}.

(** Blocks are numbered from 0, the first has no parent, and every block
    continues from the block before it. *)
Record linked (c : list RawL2Block) : Prop := {
  linked_number i b : c !! i = Some b → number b = Z.of_nat i;
  linked_genesis b : c !! 0%nat = Some b → parent_block_hash b = h256_zero;
  linked_next i b b' : c !! i = Some b → c !! S i = Some b' →
    parent_block_hash b' = raw_block_hash b ∧ prev_account b' = post_account b;
}.

Inductive chain_step : Rollup → Rollup → Prop :=
| chain_submit c rv tip b :
    last c = Some tip → number b = Z.of_nat (length c) →
    parent_block_hash b = raw_block_hash tip → prev_account b = post_account tip →
    timestamp tip < timestamp b →
    chain_step (mkRollup c rv Running) (mkRollup (c ++ [b]) rv Running)
| chain_enter c rv b :
    b ∈ c → chain_step (mkRollup c rv Running) (mkRollup c rv Halting)
| chain_cancel c rv :
    chain_step (mkRollup c rv Halting) (mkRollup c rv Running)
| chain_revert c rv n :
    (0 < n < length c)%nat → (∀ b, b ∈ drop n c → raw_block_hash b ∉ rv) →
    chain_step (mkRollup c rv Halting)
      (mkRollup (take n c) (list_to_set (raw_block_hash <$> drop n c) ∪ rv) Running).

Lemma linked_take c n : linked c → linked (take n c).
Proof.
  intros [H1 H2 H3]. split.
  - intros i b [Hi _]%lookup_take_Some. by apply H1.
  - intros b [Hi _]%lookup_take_Some. by apply H2.
  - intros i b b' [Hi _]%lookup_take_Some [Hi' _]%lookup_take_Some. by apply (H3 i).
Qed.

Lemma linked_snoc c tip b :
  linked c → last c = Some tip → number b = Z.of_nat (length c) →
  parent_block_hash b = raw_block_hash tip → prev_account b = post_account tip →
  linked (c ++ [b]).
Proof.
  intros [H1 H2 H3] Hl Hn Hp Ha. rewrite last_lookup in Hl.
  destruct c as [|g c]; [done|]. cbn [length Nat.pred] in *. split.
  - intros i b0. rewrite lookup_app_Some, list_lookup_singleton_Some. naive_solver lia.
  - intros b0. apply H2.
  - intros i b0 b1. rewrite !lookup_app_Some, !list_lookup_singleton_Some.
    intros [E0|[? [E0 <-]]] [E1|[? [E1 <-]]]; try (cbn [length] in *; lia).
    + by apply (H3 i).
    + cbn [length] in *. assert (i = length c) as -> by lia. simplify_eq. done.
    + apply lookup_lt_Some in E1. cbn [length] in *. lia.
Qed.
End Spec.

(** ** Steps of the type script *)
Section Steps.
Context `{Blake2b, Molecule} `{SmtC, Cbmt}.

(** The blocks that occur in an action. *)
Definition action_blocks (action : RollupAction) : list RawL2Block :=
  match action with
  | RollupSubmitBlock a => [block_raw (sb_block a)]
  | RollupEnterChallenge w => [cw_raw_l2block w]
  | RollupCancelChallenge => []
  | RollupRevert a => rv_new_tip_block a :: rv_reverted_blocks a
  end.

(** The type script runs [verify_action] on what the rollup cells decode to. *)
Lemma state_validator_main_Ok (env : CkbEnv) capacity :
  state_validator_main = Ok tt → load_cell_capacity 0 SrcGroupInput = Ok capacity →
  ∃ rth config action prev post,
    parse_global_state SrcGroupInput = Ok prev ∧ parse_global_state SrcGroupOutput = Ok post ∧
    parse_rollup_action 0 SrcGroupOutput = Ok action ∧
    load_rollup_config (rollup_config_hash prev) = Ok config ∧
    gs_version post ≤ MAX_ROLLUP_VERSION ∧ gs_version prev ≤ gs_version post ∧
    verify_action rth config action prev post = Ok tt.
Proof.
  unfold state_validator_main, check_initialization. intros Hrun Hcap. rewrite Hcap in Hrun.
  cbn [is_ok] in Hrun. inv_ok. bool_inv. eauto 20.
Qed.

(** Some layer-1 transaction spends the rollup cell holding [prev], creates
    one holding [post], and passes the rollup's type script.  Its blocks are
    [known] ones, and their numbers, decoded from [u64] fields, are in range. *)
Inductive rollup_step (known : RawL2Block → Prop) (prev post : GlobalState) : Prop :=
| rollup_step_intro (env : CkbEnv) (capacity : Z) :
    load_cell_capacity 0 SrcGroupInput = Ok capacity →
    parse_global_state SrcGroupInput = Ok prev → parse_global_state SrcGroupOutput = Ok post →
    (∀ action, parse_rollup_action 0 SrcGroupOutput = Ok action →
       Forall (λ b, known b ∧ u64 (number b)) (action_blocks action)) →
    state_validator_main = Ok tt → rollup_step known prev post.
End Steps.

Section Refinement.
Context `{Blake2b, Molecule} `{SmtCommits, Cbmt}.
(** The hashes of the known blocks do not collide and are not zero. *)
Context (known : RawL2Block → Prop)
        (hash_inj : ∀ b b', known b → known b' → raw_block_hash b = raw_block_hash b' → b = b')
        (hash_nonzero : ∀ b, known b → raw_block_hash b ≠ h256_zero).

Definition block_hash_at (c : list RawL2Block) (i : Z) : H256 :=
  default h256_zero (raw_block_hash <$> c !! Z.to_nat i).
Definition reverted_leaf (rv : gset H256) (h : H256) : H256 :=
  if decide (h ∈ rv) then h256_one else h256_zero.

Record represents (a : Rollup) (gs : GlobalState) (f g : H256 → H256) (tip : RawL2Block) : Prop := {
  rep_linked : linked (chain a);
  rep_known : Forall known (chain a);
  rep_block_root : commits (bm_merkle_root (gs_block gs)) f;
  rep_blocks i : u64 i → f (compute_smt_key i) = block_hash_at (chain a) i;
  rep_reverted_root : commits (reverted_block_root gs) g;
  rep_reverted h : g h = reverted_leaf (reverted a) h;
  rep_count : bm_count (gs_block gs) = Z.of_nat (length (chain a));
  rep_count_range : u64 (bm_count (gs_block gs));
  rep_last : last (chain a) = Some tip;
  rep_tip_hash : tip_block_hash gs = raw_block_hash tip;
  rep_account : gs_account gs = post_account tip;
  rep_timestamp : tip_block_timestamp gs = timestamp tip;
  rep_timestamps : Forall (λ b, 0 ≤ timestamp b) (chain a);
  rep_status : gs_status gs = Status_to_u8 (r_status a);
}.

(** [represents] with the trees hidden: the global state stands for the
    chain. *)
Definition stands_for (gs : GlobalState) (a : Rollup) : Prop :=
  ∃ f g tip, represents a gs f g tip.

(** *** Submitting *)
Lemma load_context_roots (env : CkbEnv) rth config block prev post ctx kv :
  load_block_context_and_state rth config block prev post = Ok (ctx, kv) →
  let b := block_raw block in
  number b + 1 < 2 ^ 64 ∧
  verify_single (compute_smt_key (number b)) h256_zero (bm_merkle_root (gs_block prev))
    (block_proof block) = Ok tt ∧
  verify_single (compute_smt_key (number b)) (raw_block_hash b) (bm_merkle_root (gs_block post))
    (block_proof block) = Ok tt.
Proof.
  unfold load_block_context_and_state. intros Hrun. inv_ok. unfold add_w in *. inv_ok.
  rewrite checked_add_Some in *. destruct_and?. done.
Qed.

Lemma verify_single_update k v v' root root' proof f :
  verify_single k v root proof = Ok tt → verify_single k v' root' proof = Ok tt →
  commits root f → commits root' (write_leaves [(k, v')] f).
Proof.
  unfold verify_single, tree_verify. intros Hv1 Hv2 Hc. inv_ok.
  eapply (commits_update GwError.MerkleProof 256 [(k, v)] [(k, v')]);
    [by apply NoDup_singleton|done|eassumption..|by eapply smt_verify_root|done].
Qed.

Lemma write_one k v f k' : write_leaves [(k, v)] f k' = if decide (k = k') then v else f k'.
Proof. unfold write_leaves. cbn. rewrite lookup_insert. case_decide; done. Qed.

Lemma block_hash_at_snoc c b i :
  block_hash_at (c ++ [b]) i
  = if decide (Z.to_nat i = length c) then raw_block_hash b else block_hash_at c i.
Proof.
  unfold block_hash_at. case_decide as E.
  - by rewrite lookup_app_r, E, Nat.sub_diag by lia.
  - destruct (decide (Z.to_nat i < length c)%nat).
    + by rewrite lookup_app_l.
    + rewrite (lookup_ge_None_2 (c ++ [b])), (lookup_ge_None_2 c); [done|lia|].
      rewrite length_app. cbn. lia.
Qed.

Lemma submit_refines (env : CkbEnv) rth config block prev post a f g tip :
  submit_block_verify rth config block prev post = Ok tt → known (block_raw block) →
  represents a prev f g tip →
  ∃ a' f', chain_step a a' ∧ represents a' post f' g (block_raw block).
Proof.
  intros Hrun Hk R. destruct (submit_block_steps _ _ _ _ _ Hrun)
    as (ctx & kv0 & kv1 & kv2 & kv3 & wcells & dcells & inputs & Hst).
  pose proof (st_context _ _ _ _ _ _ _ _ _ _ _ _ _ Hst) as Hctx.
  destruct (load_context_Ok _ _ _ _ _ _ _ Hctx) as (-> & Hn & Hc & Hp & Ha & Hpa & _).
  destruct (load_context_roots _ _ _ _ _ _ _ _ Hctx) as (Hov & Hr1 & Hr2).
  destruct Hst as [Hstat _ _ _ _ _ _ _ _ _ _ _ _ _ _ Htip _ Hpost].
  set (b := block_raw block) in *. destruct R. destruct a as [c rv st]. cbn [chain reverted r_status] in *.
  unfold check_status, check_global_state_tip_block_timestamp in *. inv_ok. bool_inv.
  assert (st = Running) as -> by (destruct st; [done|]; cbn in *; congruence).
  pose proof (f_equal tip_block_hash Hpost) as P1. pose proof (f_equal gs_status Hpost) as P2.
  pose proof (f_equal reverted_block_root Hpost) as P3.
  pose proof (f_equal tip_block_timestamp Hpost) as P4. cbn in P1, P2, P3, P4. clear Hpost.
  assert (0 ≤ timestamp tip) as Hpos.
  { rewrite Forall_forall in rep_timestamps0. apply rep_timestamps0. by apply last_Some_elem_of. }
  destruct (gs_version post =? 0); [lia|]. fold b in P1, P4.
  assert (chain_step (mkRollup c rv Running) (mkRollup (c ++ [b]) rv Running)) as Hstep.
  { apply (chain_submit _ _ tip); try congruence; lia. }
  eexists _, _. split; [exact Hstep|]. split; cbn [chain reverted r_status].
  - apply (linked_snoc _ tip); try congruence.
  - apply Forall_app. split; [done|]. by constructor.
  - exact (verify_single_update _ _ _ _ _ _ _ Hr1 Hr2 rep_block_root0).
  - intros i Hi. rewrite write_one, block_hash_at_snoc. cbn beta.
    destruct (decide (i = number b)) as [->|Hne].
    + rewrite decide_True by done. by rewrite decide_True by lia.
    + rewrite decide_False; [rewrite decide_False; [by apply rep_blocks0|]|].
      * unfold in_width in Hi. lia.
      * intros E%compute_smt_key_inj; [by apply Hne|split; lia|done].
  - by rewrite <- P3.
  - done.
  - rewrite length_app. cbn. lia.
  - unfold in_width in *. lia.
  - by rewrite last_snoc.
  - done.
  - done.
  - done.
  - apply Forall_app. split; [done|]. constructor; [lia|done].
  - congruence.
Qed.

(** *** Challenges *)
Lemma represents_status a gs f g tip st :
  represents a gs f g tip →
  represents (mkRollup (chain a) (reverted a) st) (with_status st gs) f g tip.
Proof. intros []. by split. Qed.

Lemma status_eq (st st' : Status) : Status_to_u8 st = Status_to_u8 st' → st = st'.
Proof. by destruct st, st'. Qed.

Lemma enter_refines (env : CkbEnv) rth config w prev post a f g tip :
  verify_enter_challenge rth config w prev post = Ok tt →
  known (cw_raw_l2block w) → u64 (number (cw_raw_l2block w)) →
  represents a prev f g tip →
  ∃ a', chain_step a a' ∧ represents a' post f g tip.
Proof.
  intros Hrun Hk Hn R. destruct (enter_Ok _ _ _ _ _ Hrun)
    as (cell & tp & t & Hs & -> & _ & _ & _ & _ & Ht & Hv & _).
  assert (cw_raw_l2block w ∈ chain a) as Hin.
  { pose proof (λ nd, commits_verify _ _ _ _ _ _ _ nd Ht Hv (rep_block_root _ _ _ _ _ R)) as Hf.
    specialize (Hf (NoDup_functional_pairs [_] (NoDup_singleton _))). apply Forall_cons_1 in Hf as [Hf _]. cbn [fst snd] in Hf.
    rewrite (rep_blocks _ _ _ _ _ R) in Hf by done. unfold block_hash_at in Hf.
    destruct (chain a !! _) as [b|] eqn:E; cbn in Hf.
    - pose proof (list_elem_of_lookup_2 _ _ _ E) as Hb.
      apply hash_inj in Hf as ->; [done| |done].
      by apply (proj1 (Forall_forall _ _) (rep_known _ _ _ _ _ R)).
    - by destruct (hash_nonzero (cw_raw_l2block w)). }
  exists (mkRollup (chain a) (reverted a) Halting). split; [|by apply represents_status].
  rewrite (rep_status _ _ _ _ _ R) in Hs. apply status_eq in Hs. destruct a as [c rv st].
  cbn in *. subst. by apply (chain_enter _ _ (cw_raw_l2block w)).
Qed.

Lemma cancel_refines (env : CkbEnv) rth config prev post a f g tip :
  verify_cancel_challenge rth config prev post = Ok tt → represents a prev f g tip →
  ∃ a', chain_step a a' ∧ represents a' post f g tip.
Proof.
  intros Hrun R. destruct (cancel_Ok _ _ _ _ Hrun) as (cell & burned & Hs & -> & _).
  exists (mkRollup (chain a) (reverted a) Running). split; [|by apply represents_status].
  rewrite (rep_status _ _ _ _ _ R) in Hs. apply status_eq in Hs. destruct a as [c rv st].
  cbn in *. subst. constructor.
Qed.

(** *** Reverting *)
Lemma write_const ks v f k :
  write_leaves ((λ k, (k, v)) <$> ks) f k = if decide (k ∈ ks) then v else f k.
Proof.
  unfold write_leaves. case_decide as Hk.
  - destruct (list_to_map _ !! k) as [v'|] eqn:E; cbn.
    + apply elem_of_list_to_map_2, list_elem_of_fmap in E. naive_solver.
    + apply not_elem_of_list_to_map in E. exfalso. apply E.
      rewrite <- list_fmap_compose. cbn. by rewrite list_fmap_id.
  - rewrite not_elem_of_list_to_map_1; [done|].
    rewrite <- list_fmap_compose. cbn. by rewrite list_fmap_id.
Qed.

Section RevertedBlocks.
Context (c : list RawL2Block) (first : RawL2Block) (rest : list RawL2Block).
Local Abbreviation blocks := (first :: rest).
Local Abbreviation keys := ((λ b, compute_smt_key (number b)) <$> blocks).
Context (Hnum : ∀ i b, blocks !! i = Some b → number b = number first + Z.of_nat i).
Context (Hrange : Forall (λ b, u64 (number b)) blocks).
Context (Hknown : Forall known blocks) (Hchain : Forall known c).
Context (Hlast : number first + Z.of_nat (length rest) = Z.of_nat (length c) - 1).

Lemma reverted_keys_elem i :
  u64 i → compute_smt_key i ∈ keys ↔ number first ≤ i < Z.of_nat (length c).
Proof.
  intros Hi. rewrite list_elem_of_fmap. split.
  - intros (b & E & Hb). assert (u64 (number b)) as Hu.
    { rewrite Forall_forall in Hrange. by apply Hrange. }
    apply compute_smt_key_inj in E as ->; [|done..].
    apply list_elem_of_lookup in Hb as [j Hj]. rewrite (Hnum j b Hj).
    apply lookup_lt_Some in Hj. cbn in Hj. lia.
  - intros Hr. destruct (lookup_lt_is_Some_2 blocks (Z.to_nat (i - number first))) as [b Hb].
    { cbn. lia. }
    exists b. split; [|by eapply list_elem_of_lookup_2]. rewrite (Hnum _ _ Hb). f_equal. lia.
Qed.

Lemma reverted_keys_NoDup : NoDup keys.
Proof.
  apply NoDup_fmap_2_strong.
  - intros b b' Hb Hb' E. rewrite Forall_forall in Hrange.
    apply compute_smt_key_inj in E; [|by apply Hrange..].
    apply list_elem_of_lookup in Hb as [j Hj], Hb' as [j' Hj'].
    rewrite (Hnum _ _ Hj), (Hnum _ _ Hj') in E. assert (j = j') as -> by lia. by simplify_eq.
  - apply NoDup_alt. intros i j b Hi Hj. pose proof (Hnum _ _ Hi). pose proof (Hnum _ _ Hj). lia.
Qed.

(** Blocks proved to be in the chain at their numbers are its end. *)
Lemma reverted_suffix :
  Forall (λ b, block_hash_at c (number b) = raw_block_hash b) blocks →
  drop (Z.to_nat (number first)) c = blocks.
Proof.
  intros Hall. assert (0 ≤ number first) as Hpos.
  { apply Forall_cons_1 in Hrange as [[??] _]. done. }
  apply list_eq. intros i. rewrite lookup_drop.
  destruct (blocks !! i) as [b|] eqn:Hi.
  - rewrite Forall_forall in Hall. pose proof (Hall b (list_elem_of_lookup_2 _ _ _ Hi)) as Hb.
    rewrite (Hnum _ _ Hi) in Hb. unfold block_hash_at in Hb.
    rewrite Z2Nat.inj_add, Nat2Z.id in Hb by lia.
    rewrite Forall_lookup in Hknown, Hchain. pose proof (Hknown _ _ Hi) as Hk.
    destruct (c !! _) as [b'|] eqn:E; cbn in Hb.
    + apply hash_inj in Hb as ->; [done|by eapply Hchain|done].
    + by destruct (hash_nonzero b).
  - apply lookup_ge_None in Hi. apply lookup_ge_None. cbn in Hi. lia.
Qed.
End RevertedBlocks.

Lemma zip_fst {A B C} (h : A → B) (k : A → C) l : (zip (h <$> l) (k <$> l)).*1 = h <$> l.
Proof. rewrite fst_zip; [done|]. by rewrite !length_fmap. Qed.

Lemma const_fst {A B} (v : B) (l : list A) : ((λ k, (k, v)) <$> l).*1 = l.
Proof. rewrite <- list_fmap_compose. cbn. by rewrite list_fmap_id. Qed.

Lemma h256_one_ne_zero : h256_one ≠ h256_zero.
Proof. done. Qed.

(** What the merkle proofs of a revert show. *)
Lemma revert_proofs (env : CkbEnv) rth config args prev post first rest cell root t1 t2 t3 t4 fin
    a f g tip :
  revert_steps rth config args prev post first rest cell root t1 t2 t3 t4 fin →
  Forall known (first :: rest) → Forall (λ b, u64 (number b)) (first :: rest) →
  represents a prev f g tip →
  let blocks := first :: rest in
  let n := Z.to_nat (number first) in
  drop n (chain a) = blocks ∧ Z.of_nat n = number first ∧ (n < length (chain a))%nat ∧
  (∀ b, b ∈ blocks → raw_block_hash b ∉ reverted a) ∧
  commits root (write_leaves ((λ k, (k, h256_zero))
                  <$> ((λ b, compute_smt_key (number b)) <$> blocks)) f) ∧
  commits (reverted_block_root post)
    (write_leaves ((λ h, (h, h256_one)) <$> (raw_block_hash <$> blocks)) g) ∧
  (∀ i, u64 i → compute_smt_key i ∈ (λ b, compute_smt_key (number b)) <$> blocks
                ↔ number first ≤ i < Z.of_nat (length (chain a))).
Proof.
  intros [Hstat Hblk Hlen Hcell Hck Hrew Hcont Hcp Ht1 Hv1 Ht2 Hv2 Ht3 Hv3 Ht4 Hroot Htip Hpost]
    Hk Hu R blocks n.
  destruct (check_continuous_Ok _ _ _ _ Hcont) as [Hlast Hall].
  assert (∀ i b, blocks !! i = Some b → number b = number first + Z.of_nat i) as Hnum.
  { intros [|i] b Hb; cbn in Hb; [simplify_eq; lia|]. rewrite (proj1 (Hall i b Hb)). lia. }
  assert (number first + Z.of_nat (length rest) = Z.of_nat (length (chain a)) - 1) as Hl.
  { rewrite <- (rep_count _ _ _ _ _ R). lia. }
  pose proof (reverted_keys_NoDup (chain a) first rest Hnum Hu) as Hnd. fold blocks in Hnd.
  assert (NoDup (zip ((λ b, compute_smt_key (number b)) <$> blocks) (raw_block_hash <$> blocks)).*1)
    as Hndz by (by rewrite zip_fst).
  pose proof (commits_verify _ _ _ _ _ _ f (NoDup_functional_pairs _ Hndz) Ht1 Hv1 (rep_block_root _ _ _ _ _ R)) as Hin.
  assert (drop n (chain a) = blocks) as Hdrop.
  { apply (reverted_suffix _ _ _ Hnum Hu Hk (rep_known _ _ _ _ _ R) Hl). apply Forall_lookup_2. intros i b Hb.
    rewrite Forall_lookup in Hin.
    specialize (Hin i (compute_smt_key (number b), raw_block_hash b)). cbn [fst snd] in Hin.
    rewrite <- (rep_blocks _ _ _ _ _ R) by (rewrite Forall_lookup in Hu; by eapply Hu).
    apply Hin. rewrite lookup_zip_with, !list_lookup_fmap. subst blocks. by rewrite Hb. }
  assert (NoDup (raw_block_hash <$> blocks)) as Hndh.
  { apply NoDup_fmap_2_strong.
    { intros b b' Hb Hb'. rewrite Forall_forall in Hk. by apply hash_inj; apply Hk. }
    apply NoDup_alt. intros i j b Hi Hj. pose proof (Hnum _ _ Hi). pose proof (Hnum _ _ Hj). lia. }
  assert (0 ≤ number first) as Hpos by (by apply Forall_cons_1 in Hu as [[??] _]).
  split; [done|]. split; [subst n; lia|]. split; [subst n; lia|]. split_and!.
  - assert (NoDup ((λ h, (h, h256_zero)) <$> (raw_block_hash <$> blocks)).*1) as Hndr
      by (by rewrite const_fst).
    pose proof (commits_verify _ _ _ _ _ _ g (NoDup_functional_pairs _ Hndr) Ht2 Hv2 (rep_reverted_root _ _ _ _ _ R)) as Hz.
    intros b Hb Hr. rewrite Forall_forall in Hz.
    specialize (Hz (raw_block_hash b, h256_zero)). cbn [fst snd] in Hz.
    rewrite (rep_reverted _ _ _ _ _ R) in Hz. unfold reverted_leaf in Hz.
    rewrite decide_True in Hz by done. apply h256_one_ne_zero, Hz.
    apply list_elem_of_fmap. eexists. split; [done|]. apply list_elem_of_fmap. eauto.
  - eapply (commits_update GwError.MerkleProof); [exact Hndz| |exact Ht1|exact Ht4|exact Hv1
      |exact Hroot|exact (rep_block_root _ _ _ _ _ R)]. by rewrite const_fst, zip_fst.
  - eapply (commits_update GwError.MerkleProof); [| |exact Ht2|exact Ht3|exact Hv2
      |by apply smt_verify_root|exact (rep_reverted_root _ _ _ _ _ R)]; by rewrite !const_fst.
  - intros i Hi. by apply reverted_keys_elem.
Qed.

Lemma block_hash_at_take c n i :
  u64 i → block_hash_at (take n c) i
          = if decide (i < Z.of_nat n) then block_hash_at c i else h256_zero.
Proof.
  intros [Hi _]. unfold block_hash_at. case_decide.
  - by rewrite lookup_take_lt by lia.
  - by rewrite lookup_take_ge by lia.
Qed.

Lemma revert_refines (env : CkbEnv) rth config args prev post a f g tip :
  revert_verify rth config args prev post = Ok tt →
  known (rv_new_tip_block args) → Forall known (rv_reverted_blocks args) →
  Forall (λ b, u64 (number b)) (rv_reverted_blocks args) → represents a prev f g tip →
  ∃ a' f' g' tip', chain_step a a' ∧ represents a' post f' g' tip'.
Proof.
  intros Hrun Hkt Hk Hu R. destruct (revert_steps_of _ _ _ _ _ Hrun)
    as (first & rest & cell & root & t1 & t2 & t3 & t4 & fin & S).
  rewrite (rv_blocks _ _ _ _ _ _ _ _ _ _ _ _ _ _ S) in Hk, Hu.
  destruct (revert_proofs _ _ _ _ _ _ _ _ _ _ _ _ _ _ _ _ _ _ _ S Hk Hu R)
    as (Hdrop & Hn & Hlt & Hfresh & Hroot & Hrroot & Hkeys).
  set (n := Z.to_nat (number first)) in *. destruct R. destruct a as [c rv st].
  cbn [chain reverted r_status] in *.
  assert (c !! n = Some first) as Hfirst.
  { rewrite <- (Nat.add_0_r n), <- lookup_drop, Hdrop. done. }
  assert (st = Halting) as ->.
  { apply status_eq. rewrite <- rep_status0. exact (rv_status _ _ _ _ _ _ _ _ _ _ _ _ _ _ S). }
  pose proof (rv_new_tip _ _ _ _ _ _ _ _ _ _ _ _ _ _ S) as Htip.
  pose proof (rv_post _ _ _ _ _ _ _ _ _ _ _ _ _ _ S) as Hpost. clear S Hrun.
  destruct n as [|m].
  { rewrite (linked_genesis _ rep_linked0 _ Hfirst) in Htip. by destruct (hash_nonzero _ Hkt). }
  destruct (lookup_lt_is_Some_2 c m) as [p Hp]; [lia|].
  destruct (linked_next _ rep_linked0 _ _ _ Hp Hfirst) as [Hpar Hacc].
  rewrite Hpar in Htip.
  apply hash_inj in Htip; [|done|by eapply (proj1 (Forall_lookup _ _) rep_known0)].
  set (a' := mkRollup (take (S m) c) (list_to_set (raw_block_hash <$> drop (S m) c) ∪ rv) Running).
  exists a', (write_leaves ((λ k, (k, h256_zero))
                  <$> ((λ b, compute_smt_key (number b)) <$> first :: rest)) f),
    (write_leaves ((λ h, (h, h256_one)) <$> (raw_block_hash <$> first :: rest)) g), p.
  split; [apply chain_revert; [lia|by rewrite Hdrop]|].
  split; cbn [chain reverted r_status a'].
  - by apply linked_take.
  - by apply Forall_take.
  - by rewrite Hpost.
  - intros i Hi. rewrite write_const, block_hash_at_take by done. rewrite <- (rep_blocks0 i Hi).
    pose proof (Hkeys i Hi) as Hki. destruct (decide (i < Z.of_nat (S m))).
    + rewrite decide_False; [done|]. rewrite Hki. lia.
    + case_decide as Hin; [done|]. rewrite (rep_blocks0 i Hi). unfold block_hash_at.
      rewrite lookup_ge_None_2; [done|]. rewrite Hki in Hin. lia.
  - done.
  - intros h. rewrite write_const, rep_reverted0, Hdrop. unfold reverted_leaf.
    repeat case_decide; set_solver.
  - rewrite Hpost. cbn [gs_block bm_count]. rewrite length_take. lia.
  - rewrite Hpost. cbn [gs_block bm_count]. unfold in_width in *. lia.
  - rewrite last_lookup, length_take. replace (Nat.pred _) with m by lia.
    by rewrite lookup_take_lt by lia.
  - by rewrite Hpost.
  - by rewrite Hpost.
  - rewrite Hpost. cbn. by rewrite Htip.
  - by apply Forall_take.
  - by rewrite Hpost.
Qed.

Lemma rollup_step_refines prev post a :
  rollup_step known prev post → stands_for prev a →
  ∃ a', chain_step a a' ∧ stands_for post a'.
Proof.
  intros [env capacity Hcap Hin Hout Hrange Hmain] (f & g & tip & R).
  destruct (state_validator_main_Ok _ _ Hmain Hcap)
    as (rth & config & action & prev' & post' & Hin' & Hout' & Ha & _ & _ & _ & Hrun).
  pose proof (Hrange _ Ha) as Hr. rewrite Hin in Hin'. rewrite Hout in Hout'. simplify_eq.
  rewrite Forall_and in Hr. destruct Hr as [Hk Hu].
  destruct action as [sb|w| |rv]; cbn [action_blocks] in Hk, Hu; cbn in Hrun;
    rewrite ?Forall_cons in Hk, Hu; destruct_and?; inv_ok.
  - edestruct submit_refines as (a' & f' & Hs & R'); [eassumption..|]. exists a'. split; [done|].
    by exists f', g, (block_raw (sb_block sb)).
  - edestruct enter_refines as (a' & Hs & R'); [eassumption..|]. exists a'. split; [done|].
    by exists f, g, tip.
  - edestruct cancel_refines as (a' & Hs & R'); [eassumption..|]. exists a'. split; [done|].
    by exists f, g, tip.
  - edestruct revert_refines as (a' & f' & g' & tip' & Hs & R'); [eassumption..|].
    exists a'. split; [done|]. by exists f', g', tip'.
Qed.
End Refinement.

(** ** What follows for every reachable state *)
Section Reachable.
Context `{Blake2b, Molecule} `{SmtC, Cbmt}.

(** Facts about one accepted step that hold whatever the global state stands
    for. *)
Lemma rollup_step_local known prev post :
  rollup_step known prev post →
  rollup_config_hash post = rollup_config_hash prev ∧
  gs_version prev ≤ gs_version post ≤ MAX_ROLLUP_VERSION ∧
  (gs_status prev = Status_to_u8 Running ∨ gs_status prev = Status_to_u8 Halting) ∧
  (gs_status post = Status_to_u8 Running ∨ gs_status post = Status_to_u8 Halting) ∧
  (gs_status prev = Status_to_u8 Halting → gs_status post = Status_to_u8 Running).
Proof.
  intros [env capacity Hcap Hin Hout _ Hmain].
  destruct (state_validator_main_Ok _ _ Hmain Hcap)
    as (rth & config & action & prev' & post' & Hin' & Hout' & _ & _ & Hmax & Hver & Hrun).
  rewrite Hin in Hin'. rewrite Hout in Hout'. simplify_eq.
  destruct action as [sb|w| |rv]; cbn in Hrun; inv_ok.
  - destruct (submit_block_steps _ _ _ _ _ ltac:(eassumption))
      as (ctx & kv0 & kv1 & kv2 & kv3 & wcells & dcells & inputs & []).
    rewrite <- st_post at 1. unfold check_status in *. inv_ok. bool_inv.
    pose proof (f_equal gs_status st_post) as P. cbn in P.
    split; [done|]. split; [done|]. rewrite <- P. split; [by left|]. split; [by left|]. done.
  - destruct (enter_Ok _ _ _ _ _ Hrun) as (_ & _ & _ & Hs & -> & _). cbn.
    rewrite Hs. split; [done|]. split; [done|]. split; [by left|]. split; [by right|]. done.
  - destruct (cancel_Ok _ _ _ _ Hrun) as (_ & _ & Hs & -> & _). cbn.
    split; [done|]. split; [done|]. split; [by right|]. split; [by left|]. done.
  - destruct (revert_steps_of _ _ _ _ _ Hrun)
      as (first & rest & cell & root & t1 & t2 & t3 & t4 & fin & []).
    rewrite rv_post at 1. pose proof (f_equal gs_status rv_post) as P. cbn in P.
    split; [done|]. split; [done|]. split; [by right|]. split; [by left|]. done.
Qed.

(** The chain keeps its first block and never forgets a reverted one. *)
Lemma chain_step_local (a a' : Rollup) :
  chain_step a a' → chain a !! 0%nat = chain a' !! 0%nat ∧ reverted a ⊆ reverted a'.
Proof.
  intros Hs. destruct Hs as [c rv tip b Hl|c rv b|c rv|c rv n Hn]; cbn [chain reverted]; try done.
  - split; [|done]. destruct c; [done|]. done.
  - split; [|set_solver]. by rewrite lookup_take_lt by lia.
Qed.
End Reachable.

(** C1. The type script refines the chain of blocks: if the rollup cell's
    global state stands for a chain, then any sequence of accepted layer-1
    transactions, over blocks whose hashes do not collide, is a sequence of chain steps (append a block that continues the
    tip, enter or cancel a challenge against a block of the chain, cut back to an
    earlier block), and the global state reached stands for the chain reached. *)
Theorem rollup_refines_chain `{Blake2b, Molecule} `{SmtCommits, Cbmt}
    (known : RawL2Block → Prop)
    (hash_inj : ∀ b b', known b → known b' → raw_block_hash b = raw_block_hash b' → b = b')
    (hash_nonzero : ∀ b, known b → raw_block_hash b ≠ h256_zero)
    (gs gs' : GlobalState) (a : Rollup) :
  rtc (rollup_step known) gs gs' → stands_for known gs a →
  ∃ a', rtc chain_step a a' ∧ stands_for known gs' a'.
Proof.
  intros Hsteps. revert a. induction Hsteps as [gs|gs gs1 gs' Hs _ IH]; intros a R.
  - exists a. split; [constructor|done].
  - destruct (rollup_step_refines known hash_inj hash_nonzero _ _ _ Hs R) as (a1 & Hc1 & R1).
    destruct (IH a1 R1) as (a' & Hc & R'). exists a'. split; [by eapply rtc_l|done].
Qed.

(** C5. Invariants of every rollup state reachable from one that stands for a
    chain: the configuration never changes, the version never decreases and
    stays below the maximum the script knows, the status is running or halting,
    and the account state in the cell is the post state of the last block of a
    chain that is linked (numbers, parent hashes and account states continue
    from block to block), still starts with the same first block, and has as
    many blocks as the count in the cell; no reverted block is forgotten. *)
Theorem rollup_reachable_invariants `{Blake2b, Molecule} `{SmtCommits, Cbmt}
    (known : RawL2Block → Prop)
    (hash_inj : ∀ b b', known b → known b' → raw_block_hash b = raw_block_hash b' → b = b')
    (hash_nonzero : ∀ b, known b → raw_block_hash b ≠ h256_zero)
    (gs gs' : GlobalState) (a : Rollup) :
  tc (rollup_step known) gs gs' → stands_for known gs a →
  rollup_config_hash gs' = rollup_config_hash gs ∧
  gs_version gs ≤ gs_version gs' ≤ MAX_ROLLUP_VERSION ∧
  (gs_status gs' = Status_to_u8 Running ∨ gs_status gs' = Status_to_u8 Halting) ∧
  ∃ a' tip, stands_for known gs' a' ∧ linked (chain a') ∧ last (chain a') = Some tip ∧
    gs_account gs' = post_account tip ∧ tip_block_hash gs' = raw_block_hash tip ∧
    bm_count (gs_block gs') = Z.of_nat (length (chain a')) ∧
    chain a' !! 0%nat = chain a !! 0%nat ∧ reverted a ⊆ reverted a'.
Proof.
  intros Hsteps R.
  assert (∃ a', stands_for known gs' a' ∧ chain a' !! 0%nat = chain a !! 0%nat ∧ reverted a ⊆ reverted a')
    as (a' & (f & g & tip & R') & Hg & Hrv).
  { revert a R. induction Hsteps as [gs gs' Hs|gs gs1 gs' Hs _ IH]; intros a R;
      destruct (rollup_step_refines known hash_inj hash_nonzero _ _ _ Hs R) as (a1 & Hc1 & R1);
      destruct (chain_step_local _ _ Hc1) as [Hg1 Hr1]; [by exists a1|].
    destruct (IH a1 R1) as (a' & R' & Hg' & Hr'). exists a'. split; [done|].
    split; [congruence|set_solver]. }
  assert (rollup_config_hash gs' = rollup_config_hash gs ∧
    gs_version gs ≤ gs_version gs' ≤ MAX_ROLLUP_VERSION ∧
    (gs_status gs' = Status_to_u8 Running ∨ gs_status gs' = Status_to_u8 Halting)) as (? & ? & ?).
  { clear R R' Hg. induction Hsteps as [gs gs' Hs|gs gs1 gs' Hs _ IH];
      destruct (rollup_step_local _ _ _ Hs) as (? & ? & ? & ? & _); [done|].
    destruct IH as (? & ? & ?); [done..|]. split; [congruence|]. split; [lia|done]. }
  do 3 (split; [done|]). exists a', tip. split; [by exists f, g, tip|]. by destruct R'.
Qed.
