(* ===== verification/Locks.v ===== *)
(** * The lock scripts of the rollup's cells

    Models [gwos/contracts/{deposit,custodian,withdrawal,stake}-lock/src/entry.rs]:
    when a transaction may spend a deposit request, the assets in custody, a
    withdrawal or a producer's stake.  Each [main] is a function of the
    transaction it runs in ([Ckb.CkbEnv]); the theorems say what an accepted
    spend guarantees to the owner and to the rollup. *)
From Stdlib Require Import ZArith Lia Strings.Byte.
From stdpp Require Import prelude list gmap.
From S2P Require Import Prelude Bytes Types State StateSpec Finality Ckb.
Local Open Scope Z_scope.

Section Locks.
Context `{Blake2b, Molecule} {env : CkbEnv}.
Local Abbreviation M := (outcome GwError.t).

(** args: rollup_type_hash | lock args *)
Definition parse_rollup_lock {A} (decode : bytes → option A) (script_args : bytes) : M (H256 * A) :=
  reject_if (length script_args <? 32)%nat GwError.InvalidArgs ;;
  a ← ok_or GwError.InvalidArgs (decode (drop 32 script_args));
  Ok (take 32 script_args, a).

(** ** deposit-lock *)
Definition deposit_lock_main : M unit :=
  script ← sys load_script;
  '(rollup_type_hash, lock_args) ← parse_rollup_lock dec_DepositLockArgs (args script);
  rollup ← search_rollup_cell rollup_type_hash SrcInput;
  if bool_decide (is_Some rollup) then Ok tt
  else
    input_since ← sys (load_input_since 0 SrcGroupInput);
    let cancel_timeout := dl_cancel_timeout lock_args in
    reject_if (negb (since_flags input_since =? since_flags cancel_timeout)
               || (input_since <? cancel_timeout)) GwError.InvalidSince ;;
    owner ← search_lock_hash (dl_owner_lock_hash lock_args) SrcInput;
    match owner with
    | Some _ => Ok tt
    | None => Err GwError.OwnerCellNotFound
    end.

(** ** stake-lock *)
Definition stake_lock_main : M unit :=
  script ← sys load_script;
  '(rollup_type_hash, lock_args) ← parse_rollup_lock dec_StakeLockArgs (args script);
  dep ← sys (search_rollup_state rollup_type_hash SrcCellDep);
  by_user ←
    match dep with
    | Some global_state =>
        config ← load_rollup_config (rollup_config_hash global_state);
        if is_finalized config global_state
             (Timepoint_from_full_value (sl_stake_finalized_timepoint lock_args))
        then owner ← search_lock_hash (sl_owner_lock_hash lock_args) SrcInput;
             Ok (bool_decide (is_Some owner))
        else Ok false
    | None => Ok false
    end;
  if (by_user : bool) then Ok tt
  else
    rollup ← search_rollup_cell rollup_type_hash SrcInput;
    if bool_decide (is_Some rollup) then Ok tt else Err GwError.InvalidStakeCellUnlock.

(** ** The action of the rollup cell in the outputs

    [reverted_block_hashes().iter().any(|hash| hash == h)] *)
Definition check_block_reverted (rollup_type_hash h : H256) : M unit :=
  o ← search_rollup_cell rollup_type_hash SrcOutput;
  index ← ok_or GwError.RollupCellNotFound o;
  action ← parse_rollup_action index SrcOutput;
  match action with
  | RollupSubmitBlock a =>
      reject_if (negb (existsb (λ hash, bool_decide (hash = h)) (sb_reverted_block_hashes a)))
        GwError.InvalidRevertedBlocks
  | _ => Err GwError.InvalidRevertedBlocks
  end.

(** The lock of an output cell, checked to belong to the rollup and decoded. *)
Definition output_rollup_lock {A} (decode : bytes → option A) (rollup_type_hash : H256)
    (index : nat) : M (Script * A) :=
  lock ← sys (load_cell_lock index SrcOutput);
  reject_if (length (args lock) <? 32)%nat GwError.InvalidArgs ;;
  reject_if (negb (bool_decide (take 32 (args lock) = rollup_type_hash))) GwError.InvalidArgs ;;
  a ← ok_or GwError.InvalidOutput (decode (drop 32 (args lock)));
  Ok (lock, a).

(** ** custodian-lock *)
Definition custodian_lock_main : M unit :=
  script ← sys load_script;
  '(rollup_type_hash, lock_args) ← parse_rollup_lock dec_CustodianLockArgs (args script);
  state ← sys (search_rollup_state rollup_type_hash SrcInput);
  global_state ← ok_or GwError.RollupCellNotFound state;
  config ← load_rollup_config (rollup_config_hash global_state);
  if is_finalized config global_state
       (Timepoint_from_full_value (cl_deposit_finalized_timepoint lock_args))
  then Ok tt
  else
    config ← load_rollup_config (rollup_config_hash global_state);
    witness_args ← sys (load_witness_args 0 SrcGroupInput);
    data ← ok_or GwError.InvalidArgs (wa_lock witness_args);
    deposit_lock_hash ← ok_or GwError.InvalidArgs (dec_UnlockCustodianViaRevertWitness data);
    o ← search_lock_hash deposit_lock_hash SrcOutput;
    deposit_cell_index ← ok_or GwError.InvalidOutput o;
    '(deposit_lock, deposit_lock_args) ←
      output_rollup_lock dec_DepositLockArgs rollup_type_hash deposit_cell_index;
    reject_if (negb (bool_decide (code_hash deposit_lock = deposit_script_type_hash config))
               || negb (hash_type deposit_lock =? ScriptHashType_to_u8 HashType)
               || negb (bool_decide (deposit_lock_args = cl_deposit_lock_args lock_args)))
      GwError.InvalidOutput ;;
    check_block_reverted rollup_type_hash (cl_deposit_block_hash lock_args).

(** ** withdrawal-lock *)
Definition FINALIZED_BLOCK_TIMEPOINT : Z := 0.
Definition FINALIZED_BLOCK_HASH : H256 := zeros 32.

Definition withdrawal_parse_lock_args (script : Script) :
    M (H256 * WithdrawalLockArgs * H256) :=
  reject_if (length (args script) <? 32)%nat GwError.InvalidArgs ;;
  '(lock_args, owner_lock) ← parse_withdrawal_lock_args (args script);
  Ok (take 32 (args script), lock_args, script_hash owner_lock).

Definition check_output_cell_has_same_content (input_index : nat) (input_source : Source)
    (output_index : nat) : M unit :=
  c1 ← sys (load_cell_capacity input_index input_source);
  c2 ← sys (load_cell_capacity output_index SrcOutput);
  reject_if (negb (c1 =? c2)) GwError.InvalidOutput ;;
  d1 ← sys (load_cell_data input_index input_source);
  d2 ← sys (load_cell_data output_index SrcOutput);
  reject_if (negb (bool_decide (d1 = d2))) GwError.InvalidOutput ;;
  t1 ← sys (load_cell_type_hash input_index input_source);
  t2 ← sys (load_cell_type_hash output_index SrcOutput);
  reject_if (negb (bool_decide (t1 = t2))) GwError.InvalidOutput.

Definition assert_timestamp_le_since (timestamp : Z) : M unit :=
  since_absolute_timestamp ← absolute_timestamp_since 0 SrcGroupInput;
  if timestamp <=? since_absolute_timestamp then Ok tt else Err GwError.NotFinalized.

Definition unlock_withdrawal_via_revert (rollup_type_hash : H256)
    (lock_args : WithdrawalLockArgs) (custodian_lock_hash : H256) : M unit :=
  check_block_reverted rollup_type_hash (wl_withdrawal_block_hash lock_args) ;;
  o ← search_lock_hash custodian_lock_hash SrcOutput;
  custodian_cell_index ← ok_or GwError.InvalidOutput o;
  '(custodian_lock, custodian_lock_args) ←
    output_rollup_lock dec_CustodianLockArgs rollup_type_hash custodian_cell_index;
  state ← sys (search_rollup_state rollup_type_hash SrcInput);
  global_state ← ok_or GwError.RollupCellNotFound state;
  config ← load_rollup_config (rollup_config_hash global_state);
  reject_if (negb (bool_decide (code_hash custodian_lock = custodian_script_type_hash config))
             || negb (hash_type custodian_lock =? ScriptHashType_to_u8 HashType)
             || negb (bool_decide (cl_deposit_block_hash custodian_lock_args = FINALIZED_BLOCK_HASH))
             || negb (cl_deposit_finalized_timepoint custodian_lock_args
                      =? FINALIZED_BLOCK_TIMEPOINT))
    GwError.InvalidOutput ;;
  check_output_cell_has_same_content 0 SrcGroupInput custodian_cell_index.

(** The timepoint of the withdrawal is final: by the rollup state for a block
    number, by the [since] of the input for a timestamp. *)
Definition check_withdrawal_finalized (rollup_type_hash : H256) (tp : Timepoint) : M unit :=
  match tp with
  | BlockNumber _ =>
      dep ← sys (search_rollup_state rollup_type_hash SrcCellDep);
      global_state ←
        match dep with
        | Some state => Ok state
        | None => input ← sys (search_rollup_state rollup_type_hash SrcInput);
                  ok_or GwError.RollupCellNotFound input
        end;
      config ← load_rollup_config (rollup_config_hash global_state);
      reject_if (negb (is_finalized config global_state tp)) GwError.NotFinalized
  | Timestamp finalized_timestamp => assert_timestamp_le_since finalized_timestamp
  end.

(** One step of the loop over the inputs with this lock: [true] when the
    output at the same index is not the same cell with the owner's lock. *)
Definition invalid_output_at (withdrawal_lock_hash owner_lock_hash : H256) (index : nat)
    (lock_hash : H256) : M bool :=
  if negb (bool_decide (lock_hash = withdrawal_lock_hash)) then Ok false
  else match check_output_cell_has_same_content index SrcInput index with
       | Panic => Panic
       | Err _ => Ok true
       | Ok _ => Ok (negb (bool_decide (load_cell_lock_hash index SrcOutput = Ok owner_lock_hash)))
       end.

Definition unlock_withdrawal_via_finalize (rollup_type_hash : H256)
    (lock_args : WithdrawalLockArgs) (owner_lock_hash : H256) : M unit :=
  check_withdrawal_finalized rollup_type_hash
    (Timepoint_from_full_value (wl_withdrawal_finalized_timepoint lock_args)) ;;
  withdrawal_lock_hash ← sys (load_cell_lock_hash 0 SrcGroupInput);
  invalid_output_found ←
    query_until load_cell_lock_hash SrcInput id
      (λ _ index lock_hash,
        invalid_output_at withdrawal_lock_hash owner_lock_hash index lock_hash) false;
  if negb invalid_output_found then Ok tt
  else
    owner ← search_lock_hash (wl_owner_lock_hash lock_args) SrcInput;
    match owner with
    | Some _ => Ok tt
    | None => Err GwError.OwnerCellNotFound
    end.

Definition withdrawal_lock_main : M unit :=
  script ← sys load_script;
  '(rollup_type_hash, lock_args, owner_lock_hash) ← withdrawal_parse_lock_args script;
  witness_args ← sys (load_witness_args 0 SrcGroupInput);
  unlock_args ← ok_or GwError.InvalidArgs (wa_lock witness_args);
  unlock ← ok_or GwError.ProofNotFound (dec_UnlockWithdrawalWitness unlock_args);
  match unlock with
  | UnlockWithdrawalViaRevert custodian_lock_hash =>
      unlock_withdrawal_via_revert rollup_type_hash lock_args custodian_lock_hash
  | UnlockWithdrawalViaFinalize =>
      unlock_withdrawal_via_finalize rollup_type_hash lock_args owner_lock_hash
  end.
End Locks.

(** ** Loops over the cells of a source *)
Section QueryLemmas.
Context {env : CkbEnv} {E A : Type}.
Implicit Types (load : nat → Source → outcome SysError A).

(** A search that ends with [false] looked at every cell. *)
Lemma query_until_false load src (f : nat → A → outcome E bool) n i :
  query_from load src id (λ _, f) n i false = Ok false →
  ∀ j, (i ≤ j < i + n)%nat → (∀ j', (i ≤ j' ≤ j)%nat → is_ok (load j' src) = true) →
  ∀ a, load j src = Ok a → f j a = Ok false.
Proof.
  revert i. induction n as [|n IH]; intros i Hrun j Hj Hok a Ha; [lia|].
  cbn [query_from] in Hrun. cbn beta in Hrun. change (id false) with false in Hrun. cbv iota in Hrun.
  pose proof (Hok i ltac:(lia)) as Hi. destruct (load i src) as [a0|e|] eqn:Ei; try done.
  apply bind_Ok in Hrun as (b & Hb & Hrun).
  destruct b.
  { exfalso. by destruct n; cbv [query_from id] in Hrun. }
  destruct (decide (j = i)) as [->|Hne]; [rewrite Ei in Ha; by simplify_eq|].
  apply (IH (S i) Hrun j); [lia| |done]. intros j' Hj'. apply Hok. lia.
Qed.
End QueryLemmas.

(** Masks split a 64-bit [since] into its flags and its value. *)
Lemma since_split v :
  u64 v → v = since_flags v + Z.land v SINCE_VALUE_MASK.
Proof.
  intros Hv. unfold since_flags.
  assert (Z.land SINCE_FLAGS_MASK SINCE_VALUE_MASK = 0) as Hd by reflexivity.
  assert (Z.lor SINCE_FLAGS_MASK SINCE_VALUE_MASK = 2 ^ 64 - 1) as Hu by reflexivity.
  rewrite Z.add_nocarry_lxor, Z.lxor_lor.
  - rewrite <- Z.land_lor_distr_r, Hu. change (2 ^ 64 - 1) with (Z.ones 64).
    by rewrite Z.land_ones, Z.mod_small by (unfold in_width in Hv; lia).
  - rewrite (Z.land_comm v SINCE_VALUE_MASK), Z.land_assoc, <- (Z.land_assoc v), Hd, Z.land_0_r.
    apply Z.land_0_l.
  - rewrite (Z.land_comm v SINCE_VALUE_MASK), Z.land_assoc, <- (Z.land_assoc v), Hd, Z.land_0_r.
    apply Z.land_0_l.
Qed.

Section LockLemmas.
Context `{Blake2b, Molecule} {env : CkbEnv}.

Lemma parse_rollup_lock_Ok {A} (decode : bytes → option A) bs rth a :
  parse_rollup_lock decode bs = Ok (rth, a) →
  rth = take 32 bs ∧ decode (drop 32 bs) = Some a.
Proof. unfold parse_rollup_lock. intros Hrun. inv_ok. by simplify_eq. Qed.

Lemma check_block_reverted_Ok rth hash :
  check_block_reverted rth hash = Ok tt →
  ∃ index a, search_rollup_cell (E:=GwError.t) rth SrcOutput = Ok (Some index) ∧
    parse_rollup_action index SrcOutput = Ok (RollupSubmitBlock a) ∧
    hash ∈ sb_reverted_block_hashes a.
Proof.
  unfold check_block_reverted. intros Hrun. inv_ok. destruct x1; inv_ok. bool_inv. subst.
  do 2 eexists. split; [eassumption|]. split; [eassumption|].
  match goal with Hx : existsb _ _ = true |- _ => apply existsb_exists in Hx as (x & Hx & E) end.
  apply bool_decide_eq_true in E as ->.
  by apply list_elem_of_In.
Qed.

Lemma output_rollup_lock_Ok {A} (decode : bytes → option A) rth i lock a :
  output_rollup_lock decode rth i = Ok (lock, a) →
  load_cell_lock i SrcOutput = Ok lock ∧ take 32 (args lock) = rth ∧
  decode (drop 32 (args lock)) = Some a.
Proof.
  unfold output_rollup_lock. intros Hrun. inv_ok. bool_inv. simplify_eq.
  repeat split; try done. destruct (load_cell_lock i SrcOutput) as [|[]|]; cbn in *; by simplify_eq.
Qed.

(** The output at [o] is the input at [i] but for its lock. *)
Definition same_content (i : nat) (src : Source) (o : nat) : Prop :=
  load_cell_capacity i src = load_cell_capacity o SrcOutput ∧
  load_cell_data i src = load_cell_data o SrcOutput ∧
  load_cell_type_hash i src = load_cell_type_hash o SrcOutput.

Lemma sys_Ok {A} (m : outcome SysError A) a : sys m = Ok a ↔ m = Ok a.
Proof. destruct m as [|[]|]; cbn; naive_solver. Qed.

Lemma check_output_same_content i src o :
  check_output_cell_has_same_content i src o = Ok tt → same_content i src o.
Proof.
  unfold check_output_cell_has_same_content. intros Hrun. inv_ok. bool_inv. subst.
  repeat match goal with Hs : sys _ = Ok _ |- _ => apply sys_Ok in Hs end.
  split; [congruence|]. split; congruence.
Qed.

Lemma parse_withdrawal_owner bs a owner :
  parse_withdrawal_lock_args bs = Ok (a, owner) → script_hash owner = wl_owner_lock_hash a.
Proof.
  unfold parse_withdrawal_lock_args. intros Hrun. repeat case_match; inv_ok; try discriminate.
  repeat case_match; inv_ok; try discriminate. repeat case_match; inv_ok; try discriminate.
  simplify_eq. bool_inv. done.
Qed.
End LockLemmas.

(** What final means to the withdrawal lock.  A block number: the rollup cell among the
    cell dependencies, or else among the inputs, has a tip at least the finality window
    above it.  A time: the input's since is an absolute timestamp not before it. *)
Definition final_on_chain `{Blake2b, Molecule} {env : CkbEnv} (rth : H256) (tp : Timepoint) : Prop :=
  match tp with
  | BlockNumber n => ∃ gs config,
      (search_rollup_state rth SrcCellDep = Ok (Some gs) ∨
       search_rollup_state rth SrcCellDep = Ok None ∧
       search_rollup_state rth SrcInput = Ok (Some gs)) ∧
      load_rollup_config (rollup_config_hash gs) = Ok config ∧
      saturating_add 64 n (finality_blocks config) ≤ saturating_sub (bm_count (gs_block gs)) 1
  | Timestamp t => ∃ since ms,
      load_input_since 0 SrcGroupInput = Ok since ∧ since_is_absolute since = true ∧
      since_extract_lock_value (E:=GwError.t) since = Ok (Some (LockTimestamp ms)) ∧ t ≤ ms
  end.
Lemma check_withdrawal_finalized_Ok `{Blake2b, Molecule} {env : CkbEnv} rth tp :
  check_withdrawal_finalized rth tp = Ok tt → final_on_chain rth tp.
Proof.
  unfold check_withdrawal_finalized, final_on_chain. destruct tp as [n|t]; intros Hrun; inv_ok.
  - repeat match goal with Hx : sys _ = Ok _ |- _ => apply sys_Ok in Hx end.
    match goal with Hr : load_rollup_config (rollup_config_hash ?g) = Ok ?c |- _ => exists g, c end.
    split; [|split; [done|bool_inv; unfold is_finalized, is_block_number_finalized in *; lia]].
    match goal with o : option GlobalState |- _ => destruct o end; inv_ok; simplify_eq; [by left|].
    right. repeat match goal with Hx : sys _ = Ok _ |- _ => apply sys_Ok in Hx end.
    by simplify_eq/=.
  - unfold assert_timestamp_le_since, absolute_timestamp_since in Hrun. inv_ok.
    repeat match goal with Hx : sys _ = Ok _ |- _ => apply sys_Ok in Hx end.
    repeat case_match; inv_ok; simplify_eq; try done. do 2 eexists. split_and!; try eassumption. lia.
Qed.

(** C39. Only the owner gets a finalized withdrawal: when the withdrawal lock is
    unlocked as finalized, its timepoint is final on chain (by block number: the rollup
    state in the transaction has a tip the finality window above it; by time: the
    transaction can only be committed after it), and either every input cell
    under this lock is paid, at its own index, to an output with the same
    capacity, data and type under the owner's lock, or a cell of the owner is
    among the inputs.  The owner is the one named in the lock arguments. *)
Theorem withdrawal_lock_pays_owner `{Blake2b, Molecule} {env : CkbEnv}
    (script : Script) (w : WitnessArgs) (bs : bytes) (a : WithdrawalLockArgs) (owner : Script)
    (own : H256) :
  (∀ i, (i < cell_count SrcInput)%nat → is_ok (load_cell_lock_hash i SrcInput) = true) →
  load_script = Ok script → load_witness_args 0 SrcGroupInput = Ok w → wa_lock w = Some bs →
  dec_UnlockWithdrawalWitness bs = Some UnlockWithdrawalViaFinalize →
  parse_withdrawal_lock_args (args script) = Ok (a, owner) →
  load_cell_lock_hash 0 SrcGroupInput = Ok own →
  withdrawal_lock_main = Ok tt →
  final_on_chain (take 32 (args script))
    (Timepoint_from_full_value (wl_withdrawal_finalized_timepoint a)) ∧
  ((∀ i, (i < cell_count SrcInput)%nat → load_cell_lock_hash i SrcInput = Ok own →
      same_content i SrcInput i ∧ load_cell_lock_hash i SrcOutput = Ok (wl_owner_lock_hash a)) ∨
   ∃ i, search_lock_hash (wl_owner_lock_hash a) SrcInput = Ok (Some i)).
Proof.
  intros Hcells Hs Hw Hl Hd Hp Hown Hrun. pose proof (parse_withdrawal_owner _ _ _ Hp) as Ho.
  unfold withdrawal_lock_main, withdrawal_parse_lock_args in Hrun.
  rewrite Hs, Hw in Hrun. cbn [sys mbind outcome_bind] in Hrun. rewrite Hp in Hrun. inv_ok. simplify_eq.
  unfold unlock_withdrawal_via_finalize in *. rewrite Hown in *. cbn [sys] in *. inv_ok.
  split; [by apply check_withdrawal_finalized_Ok|]. match goal with Hq : query_until _ _ _ _ _ = Ok ?b |- _ =>
    rename Hq into Hloop; destruct b end; cbn [negb] in *; inv_ok.
  - right. match goal with Ho' : match ?o with _ => _ end = Ok _ |- _ => destruct o; [|done] end.
    eauto.
  - left. intros i Hi Hlock.
    pose proof (query_until_false _ _ _ _ _ Hloop i ltac:(lia)) as Hat. cbn beta in Hat.
    specialize (Hat ltac:(intros j' Hj'; apply Hcells; lia) _ Hlock).
    unfold invalid_output_at in Hat. rewrite bool_decide_true in Hat by done. cbn [negb] in Hat.
    destruct (check_output_cell_has_same_content i SrcInput i) as [[]|e|] eqn:Hc; try done.
    apply check_output_same_content in Hc. split; [done|].
    apply (inj Ok) in Hat. bool_inv. by rewrite Hat, Ho.
Qed.

(** A withdrawal is only taken back when its block was reverted: unlocking
    the withdrawal lock by a revert needs a rollup cell in the outputs whose
    action submits a block and lists the withdrawal's block as reverted, and
    moves the cell, with the same capacity, data and type, to the custodian lock
    of the rollup, marked as finalized. *)
Theorem withdrawal_lock_revert_returns_custody `{Blake2b, Molecule} {env : CkbEnv}
    (script : Script) (w : WitnessArgs) (bs : bytes) (a : WithdrawalLockArgs) (owner : Script)
    (custodian_lock_hash : H256) :
  load_script = Ok script → load_witness_args 0 SrcGroupInput = Ok w → wa_lock w = Some bs →
  dec_UnlockWithdrawalWitness bs = Some (UnlockWithdrawalViaRevert custodian_lock_hash) →
  parse_withdrawal_lock_args (args script) = Ok (a, owner) →
  withdrawal_lock_main = Ok tt →
  let rth := take 32 (args script) in
  (∃ index sb, search_rollup_cell (E:=GwError.t) rth SrcOutput = Ok (Some index) ∧
     parse_rollup_action index SrcOutput = Ok (RollupSubmitBlock sb) ∧
     wl_withdrawal_block_hash a ∈ sb_reverted_block_hashes sb) ∧
  ∃ i gs config lock c,
    search_lock_hash custodian_lock_hash SrcOutput = Ok (Some i) ∧
    search_rollup_state rth SrcInput = Ok (Some gs) ∧
    load_rollup_config (rollup_config_hash gs) = Ok config ∧
    load_cell_lock i SrcOutput = Ok lock ∧ take 32 (args lock) = rth ∧
    code_hash lock = custodian_script_type_hash config ∧
    hash_type lock = ScriptHashType_to_u8 HashType ∧
    dec_CustodianLockArgs (drop 32 (args lock)) = Some c ∧
    cl_deposit_block_hash c = FINALIZED_BLOCK_HASH ∧
    cl_deposit_finalized_timepoint c = FINALIZED_BLOCK_TIMEPOINT ∧
    same_content 0 SrcGroupInput i.
Proof.
  intros Hs Hw Hl Hd Hp Hrun rth.
  unfold withdrawal_lock_main, withdrawal_parse_lock_args in Hrun.
  rewrite Hs, Hw in Hrun. cbn [sys mbind outcome_bind] in Hrun. rewrite Hp in Hrun. inv_ok. simplify_eq.
  unfold unlock_withdrawal_via_revert in *. inv_ok.
  split; [by apply check_block_reverted_Ok|].
  match goal with p : Script * CustodianLockArgs |- _ => destruct p as [lock c] end. inv_ok.
  match goal with Ho : output_rollup_lock _ _ _ = Ok _ |- _ =>
    apply output_rollup_lock_Ok in Ho as (? & ? & ?) end.
  match goal with Hst : sys (search_rollup_state _ _) = Ok _ |- _ => apply sys_Ok in Hst end.
  bool_inv. subst. do 5 eexists. repeat (split; [eassumption|]).
  by apply check_output_same_content.
Qed.

(** C40. Assets leave custody only through the rollup: the custodian lock needs
    the rollup cell in the inputs, and if the deposit is not final yet, the
    transaction must recreate a deposit cell of this rollup with the original
    deposit arguments and submit a block that lists the deposit's block as
    reverted. *)
Theorem custodian_lock_guards_custody `{Blake2b, Molecule} {env : CkbEnv}
    (script : Script) (a : CustodianLockArgs) :
  load_script = Ok script → dec_CustodianLockArgs (drop 32 (args script)) = Some a →
  custodian_lock_main = Ok tt →
  let rth := take 32 (args script) in
  ∃ gs config,
    search_rollup_state rth SrcInput = Ok (Some gs) ∧
    load_rollup_config (rollup_config_hash gs) = Ok config ∧
    (is_finalized config gs (Timepoint_from_full_value (cl_deposit_finalized_timepoint a)) = true ∨
     (∃ i lock, load_cell_lock i SrcOutput = Ok lock ∧ take 32 (args lock) = rth ∧
        code_hash lock = deposit_script_type_hash config ∧
        hash_type lock = ScriptHashType_to_u8 HashType ∧
        dec_DepositLockArgs (drop 32 (args lock)) = Some (cl_deposit_lock_args a)) ∧
     (∃ index sb, search_rollup_cell (E:=GwError.t) rth SrcOutput = Ok (Some index) ∧
        parse_rollup_action index SrcOutput = Ok (RollupSubmitBlock sb) ∧
        cl_deposit_block_hash a ∈ sb_reverted_block_hashes sb)).
Proof.
  intros Hs Hd Hrun rth. unfold custodian_lock_main, parse_rollup_lock in Hrun.
  rewrite Hs in Hrun. cbn [sys mbind outcome_bind] in Hrun. inv_ok. simplify_eq.
  repeat match goal with Hx : sys _ = Ok _ |- _ => apply sys_Ok in Hx end.
  do 2 eexists. split; [eassumption|]. split; [eassumption|].
  destruct (is_finalized _ _ _) eqn:Hf; [by left|]. right. inv_ok.
  match goal with p : Script * DepositLockArgs |- _ => destruct p as [lock d] end. inv_ok.
  match goal with Ho : output_rollup_lock _ _ _ = Ok _ |- _ =>
    apply output_rollup_lock_Ok in Ho as (? & ? & ?) end.
  bool_inv. subst. simplify_eq. split; [|by apply check_block_reverted_Ok].
  do 2 eexists. do 2 (split; [eassumption|]). split; [congruence|]. done.
Qed.

(** A depositor can only cancel late, and only the depositor can: without
    the rollup cell in the inputs, the deposit lock needs a [since] with the
    metric and mode of the cancel timeout (the same flag bits) and a value not
    below it, and a cell of the owner in the inputs. *)
Theorem deposit_lock_cancel_rules `{Blake2b, Molecule} {env : CkbEnv}
    (script : Script) (a : DepositLockArgs) (since : Z) :
  load_script = Ok script → dec_DepositLockArgs (drop 32 (args script)) = Some a →
  search_rollup_cell (E:=GwError.t) (take 32 (args script)) SrcInput = Ok None →
  load_input_since 0 SrcGroupInput = Ok since → u64 since → u64 (dl_cancel_timeout a) →
  deposit_lock_main = Ok tt →
  since_flags since = since_flags (dl_cancel_timeout a) ∧
  Z.land (dl_cancel_timeout a) SINCE_VALUE_MASK ≤ Z.land since SINCE_VALUE_MASK ∧
  ∃ i, search_lock_hash (dl_owner_lock_hash a) SrcInput = Ok (Some i).
Proof.
  intros Hs Hd Hr Hsi Hu Hu' Hrun. unfold deposit_lock_main, parse_rollup_lock in Hrun.
  rewrite Hs in Hrun. cbn [sys mbind outcome_bind] in Hrun. inv_ok. simplify_eq.
  repeat match goal with Hx : search_rollup_cell _ _ = Ok ?o |- _ =>
    is_var o; rewrite Hr in Hx; apply (inj Ok) in Hx; subst o end.
  rewrite bool_decide_false in * by (by intros []). rewrite Hsi in *. cbn [sys] in *. inv_ok. bool_inv.
  split; [done|]. pose proof (since_split _ Hu). pose proof (since_split _ Hu'). split; [lia|].
  match goal with Ho : match ?o with _ => _ end = Ok _ |- _ => destruct o; [|done] end. eauto.
Qed.

(** A producer's stake is free only once it is final: without the rollup
    cell in the inputs, the stake lock needs the rollup state as a dependency,
    the stake's timepoint final in that state, and a cell of the owner in the
    inputs. *)
Theorem stake_lock_release_rules `{Blake2b, Molecule} {env : CkbEnv}
    (script : Script) (a : StakeLockArgs) :
  load_script = Ok script → dec_StakeLockArgs (drop 32 (args script)) = Some a →
  search_rollup_cell (E:=GwError.t) (take 32 (args script)) SrcInput = Ok None →
  stake_lock_main = Ok tt →
  ∃ gs config i,
    search_rollup_state (take 32 (args script)) SrcCellDep = Ok (Some gs) ∧
    load_rollup_config (rollup_config_hash gs) = Ok config ∧
    is_finalized config gs (Timepoint_from_full_value (sl_stake_finalized_timepoint a)) = true ∧
    search_lock_hash (sl_owner_lock_hash a) SrcInput = Ok (Some i).
Proof.
  intros Hs Hd Hr Hrun. unfold stake_lock_main, parse_rollup_lock in Hrun.
  rewrite Hs in Hrun. cbn [sys mbind outcome_bind] in Hrun. inv_ok. simplify_eq.
  repeat match goal with Hx : sys _ = Ok _ |- _ => apply sys_Ok in Hx end.
  rewrite Hr in *. cbn [mbind outcome_bind] in *. rewrite bool_decide_false in * by (by intros []).
  match goal with Hb : (if ?b then _ else _) = Ok tt |- _ => destruct b; [|done] end.
  match goal with Hm : match ?o with _ => _ end = Ok true |- _ => destruct o as [gs|]; [|done] end.
  inv_ok. destruct (is_finalized _ _ _) eqn:Hf; [|done]. inv_ok.
  match goal with Hb : bool_decide (is_Some ?o) = true |- _ =>
    apply bool_decide_eq_true in Hb as [i ->] end.
  eauto 10.
Qed.
