(* ===== verification/Settlement.v ===== *)
(** * How the lock scripts and the type script work together

    A withdrawal or an unfinalized deposit may be taken back by a transaction
    that submits a block and lists the block it belonged to as reverted
    ([Locks.check_block_reverted]).  The lock scripts do not check that list;
    the rollup's type script does ([SubmitBlock.verify_reverted_block_hashes]).
    Here the two are put together over the chain of [RollupChain]. *)
From Stdlib Require Import ZArith Lia Strings.Byte.
From stdpp Require Import prelude list gmap.
From S2P Require Import Prelude Bytes Types State StateSpec Finality Ckb SubmitBlock.
From S2P Require Import Layer2Supply SubmitBlockProps RollupScript RollupProps RollupChain Locks.
Local Open Scope Z_scope.

Section Settlement.
Context `{Blake2b, Molecule} `{SmtCommits, Cbmt}.

Lemma const_functional (v : H256) (ks : list H256) : functional_pairs ((λ k, (k, v)) <$> ks).
Proof.
  intros k v1 v2. rewrite !list_elem_of_fmap. intros (? & [= -> ->] & _) (? & [= _ ->] & _). done.
Qed.

(** The listed hashes are leaves of the reverted tree. *)
Lemma verify_reverted_block_hashes_Ok hashes proof prev known a f g tip h :
  verify_reverted_block_hashes hashes proof prev = Ok tt → represents known a prev f g tip →
  h ∈ hashes → h ∈ reverted a.
Proof.
  unfold verify_reverted_block_hashes, tree_verify. intros Hrun R Hin.
  destruct hashes as [|h0 hashes]; [by apply elem_of_nil in Hin|]. cbn [length] in Hrun.
  rewrite bool_decide_false in Hrun by done. cbn [andb] in Hrun. inv_ok.
  pose proof (commits_verify _ _ _ _ _ _ g (const_functional _ _) ltac:(eassumption)
                ltac:(eassumption) (rep_reverted_root _ _ _ _ _ _ R)) as Hall.
  rewrite Forall_forall in Hall. specialize (Hall (h, h256_one)). cbn [fst snd] in Hall.
  rewrite (rep_reverted _ _ _ _ _ _ R) in Hall. unfold reverted_leaf in Hall.
  destruct (decide (h ∈ reverted a)); [done|].
  exfalso. apply h256_one_ne_zero. symmetry. apply Hall, list_elem_of_fmap. eauto.
Qed.
End Settlement.

(** Nothing is taken back from a block that was not reverted: if in one
    transaction a withdrawal or custodian lock accepts that the block [h] is
    reverted, and the rollup's type script accepts the rollup cell's step, then
    [h] is one of the blocks the rollup has cut from its chain. *)
Theorem reverted_claim_is_genuine `{Blake2b, Molecule} `{SmtCommits, Cbmt}
    (known : RawL2Block → Prop) (type_env lock_env : CkbEnv) (capacity : Z) (rth h : H256) (prev : GlobalState) (a : Rollup) :
  stands_for known prev a →
  load_cell_capacity (CkbEnv := type_env) 0 SrcGroupInput = Ok capacity →
  parse_global_state (env := type_env) SrcGroupInput = Ok prev →
  state_validator_main (env := type_env) = Ok tt →
  (∀ i, search_rollup_cell (env := lock_env) (E := GwError.t) rth SrcOutput = Ok (Some i) →
     parse_rollup_action (env := lock_env) i SrcOutput
     = parse_rollup_action (env := type_env) 0 SrcGroupOutput) →
  check_block_reverted (env := lock_env) rth h = Ok tt →
  h ∈ reverted a.
Proof.
  intros (f & g & tip & R) Hcap Hprev Hmain Hsame Hlock.
  destruct (check_block_reverted_Ok _ _ Hlock) as (i & sb & Hi & Hact & Hin).
  rewrite (Hsame i Hi) in Hact.
  destruct (state_validator_main_Ok _ _ Hmain Hcap)
    as (rth' & config & action & prev' & post & Hin' & _ & Ha & _ & _ & _ & Hrun).
  rewrite Hprev in Hin'. rewrite Hact in Ha. apply (inj Ok) in Ha, Hin'. subst prev' action.
  cbn [verify_action] in Hrun. apply bind_Ok in Hrun as ([] & _ & Hrev).
  eapply verify_reverted_block_hashes_Ok; eassumption.
Qed.

(** A block is reverted at most once: a revert that includes a block whose
    hash is already in the set of reverted blocks is rejected, whatever proofs
    come with it. *)
Theorem reverted_block_not_reverted_again `{Blake2b, Molecule} `{SmtCommits, Cbmt} {env : CkbEnv}
    (known : RawL2Block → Prop) (rth : H256) (config : RollupConfig) (args : RevertArgs) (prev post : GlobalState) (a : Rollup)
    (b : RawL2Block) :
  stands_for known prev a → raw_block_hash b ∈ reverted a → b ∈ rv_reverted_blocks args →
  ¬ revert_verify rth config args prev post = Ok tt.
Proof.
  intros (f & g & tip & R) Hrev Hb Hrun. destruct (revert_steps_of _ _ _ _ _ Hrun)
    as (first & rest & cell & root & t1 & t2 & t3 & t4 & fin & S).
  pose proof (commits_verify _ _ _ _ _ _ g (const_functional _ _)
    (rv_t2 _ _ _ _ _ _ _ _ _ _ _ _ _ _ S) (rv_v2 _ _ _ _ _ _ _ _ _ _ _ _ _ _ S)
    (rep_reverted_root _ _ _ _ _ _ R)) as Hall.
  rewrite <- (rv_blocks _ _ _ _ _ _ _ _ _ _ _ _ _ _ S) in Hall. rewrite Forall_forall in Hall.
  specialize (Hall (raw_block_hash b, h256_zero)). cbn [fst snd] in Hall.
  rewrite (rep_reverted _ _ _ _ _ _ R) in Hall. unfold reverted_leaf in Hall.
  rewrite decide_True in Hall by done. apply h256_one_ne_zero, Hall.
  apply list_elem_of_fmap. eexists. split; [done|]. apply list_elem_of_fmap. eauto.
Qed.
