(* ===== verification/ChallengeLock.v ===== *)
(** * The challenge lock: what cancels a challenge

    Models [gwos/contracts/challenge-lock/src/entry.rs] and its
    [verifications/{context,tx_execution,tx_signature,withdrawal}.rs].  A
    challenge is cancelled by showing, on layer 1, the challenged transaction or
    withdrawal, the state it ran on and a cell that carries its signature or runs
    its contract.  The theorems say what an accepted cancellation has shown.

    Beyond the parameters of [Ckb] and [Eip712], the proofs of the [merkle_cbt]
    crate are the parameter [CbmtProof], and the codecs of the three witness
    tables are [ChallengeCodec]. *)
From Stdlib Require Import ZArith Lia Strings.Byte.
From stdpp Require Import prelude list gmap.
From S2P Require Import Prelude Bytes Types State StateSpec Finality Ckb.
From S2P Require Import SubmitBlock SubmitBlockProps Layer2Supply Locks Eip712.
Local Open Scope Z_scope.

(** ** Witnesses (godwoken.mol) *)
Record CKBMerkleProof := mkCKBMerkleProof { mp_indices : list Z; mp_lemmas : list H256 }.
Record CCTransactionWitness := mkCCTransactionWitness {
  cct_l2tx : L2Transaction; cct_raw_l2block : RawL2Block; cct_tx_proof : CKBMerkleProof;
  cct_kv_state_proof : bytes; cct_account_count : Z; cct_kv_state : list KVPair;
  cct_scripts : list Script;
}.
Record CCTransactionSignatureWitness := mkCCTransactionSignatureWitness {
  ccs_raw_l2block : RawL2Block; ccs_l2tx : L2Transaction; ccs_tx_proof : CKBMerkleProof;
  ccs_kv_state : list KVPair; ccs_kv_state_proof : bytes; ccs_account_count : Z;
  ccs_sender : Script; ccs_receiver : Script;
}.
Record CCWithdrawalWitness := mkCCWithdrawalWitness {
  ccw_raw_l2block : RawL2Block; ccw_withdrawal : WithdrawalRequest; ccw_sender : Script;
  ccw_owner_lock : Script; ccw_withdrawal_proof : CKBMerkleProof; ccw_kv_state_proof : bytes;
  ccw_kv_state : list KVPair; ccw_account_count : Z;
}.

Class ChallengeCodec := {
  dec_CCTransactionWitness : bytes → option CCTransactionWitness;
  dec_CCTransactionSignatureWitness : bytes → option CCTransactionSignatureWitness;
  dec_CCWithdrawalWitness : bytes → option CCWithdrawalWitness;
}.

(** [CBMTMerkleProof::new(indices, lemmas).verify(root, leaves)] *)
Class CbmtProof :=
  cbmt_verify : (H256 → H256 → H256) → list Z → list H256 → H256 → list H256 → bool.

Section ChallengeLock.
Context `{Blake2b, Molecule} {env : CkbEnv} `{SmtC, CbmtProof, ChallengeCodec, Keccak256, EthAbi, Rlp}.
Local Abbreviation M := (outcome GwError.t).
Local Abbreviation K := (ST KVState GwError.t).
Local Abbreviation call m := (st_map_err of_common m).

Definition merkle_proof_valid (p : CKBMerkleProof) (root leaf : H256) : bool :=
  cbmt_verify merge_h256 (mp_indices p) (mp_lemmas p) root [leaf].

(** ** context.rs *)
Record TxContext := mkTxContext {
  sender_script_hash : H256;
  receiver_script_hash : H256;
  sender : Script;
  receiver : Script;
  sender_address : RegistryAddress;
}.

Definition find_script (h : H256) (scripts : list Script) : M Script :=
  ok_or GwError.ScriptNotFound (snd <$> list_find (λ s, script_hash s = h) scripts).

Definition check_account_script (e : GwError.t) (allowed : list AllowedTypeHash) (s : Script) : M unit :=
  reject_if (negb (hash_type s =? ScriptHashType_to_u8 HashType)) e ;;
  reject_if (negb (existsb (λ th, bool_decide (ath_hash th = code_hash s)) allowed)) e.

(** The checkpoint of the state a transaction runs on. *)
Definition tx_prev_state_checkpoint (raw_block : RawL2Block) (tx_index : Z) : M H256 :=
  match checked_sub tx_index 1 with
  | Some i =>
      offset ← add_w 32 (withdrawal_count (submit_withdrawals raw_block)) i;
      ok_or GwError.InvalidStateCheckpoint (state_checkpoint_list raw_block !! Z.to_nat offset)
  | None => Ok (prev_state_checkpoint (submit_transactions raw_block))
  end.

Definition verify_tx_context (tx : L2Transaction) (scripts : list Script) (raw_block : RawL2Block)
    (config : RollupConfig) (target : ChallengeTarget) (tx_proof : CKBMerkleProof) : K TxContext :=
  let raw_tx := tx_raw tx in
  let sender_id := tx_from_id raw_tx in
  sender_script_hash ← st_map_err (λ _, GwError.SMTKeyMissing) (get_script_hash sender_id);
  receiver_script_hash ← st_map_err (λ _, GwError.SMTKeyMissing) (get_script_hash (tx_to_id raw_tx));
  sender_nonce ← call (get_nonce sender_id);
  lift (reject_if (negb (tx_nonce raw_tx =? sender_nonce)) GwError.UnexpectedTxNonce) ;;
  sender_script ← lift (find_script sender_script_hash scripts);
  receiver_script ← lift (find_script receiver_script_hash scripts);
  lift (check_account_script GwError.UnknownEOAScript (allowed_eoa_type_hashes config) sender_script) ;;
  lift (check_account_script GwError.UnknownContractScript (allowed_contract_type_hashes config)
          receiver_script) ;;
  lift (reject_if (negb (bool_decide (raw_block_hash raw_block = ct_block_hash target)))
          GwError.InvalidBlock) ;;
  let tx_index := ct_target_index target in
  let leaf := ckb_merkle_leaf_hash tx_index (tx_witness_hash tx) in
  lift (reject_if (negb (merkle_proof_valid tx_proof
                           (tx_witness_root (submit_transactions raw_block)) leaf))
          GwError.MerkleProof) ;;
  prev_state_checkpoint ← lift (tx_prev_state_checkpoint raw_block tx_index);
  state_root ← st_map_err (λ _, GwError.MerkleProof) calculate_root;
  account_count ← call get_account_count;
  lift (reject_if (negb (bool_decide (prev_state_checkpoint
                     = calculate_state_checkpoint_of state_root account_count)))
          GwError.MerkleProof) ;;
  address ← call (get_registry_address_by_script_hash ETH_REGISTRY_ACCOUNT_ID sender_script_hash);
  sender_address ← lift (ok_or GwError.RegistryAddressNotFound address);
  mret (mkTxContext sender_script_hash receiver_script_hash sender_script receiver_script
          sender_address).

(** ** tx_execution.rs: the witness is read into a buffer *)
Definition verify_tx_execution (config : RollupConfig) (lock_args : ChallengeLockArgs) : M unit :=
  buf ← sys (load_witness_raw MAX_ROLLUP_WITNESS_SIZE 0 0 SrcGroupInput);
  witness_args ← ok_or GwError.Encoding (dec_WitnessArgs buf);
  lock ← ok_or GwError.InvalidArgs (wa_lock witness_args);
  unlock_args ← ok_or GwError.InvalidArgs (dec_CCTransactionWitness lock);
  kv_state ← KVState_build GW_MAX_KV_PAIRS (cct_kv_state unlock_args)
               (cct_kv_state_proof unlock_args) (cct_account_count unlock_args) None;
  '(ctx, _) ← run_on (verify_tx_context (cct_l2tx unlock_args) (cct_scripts unlock_args)
                        (cct_raw_l2block unlock_args) config (chl_target lock_args)
                        (cct_tx_proof unlock_args)) kv_state;
  cell ← search_lock_hash (receiver_script_hash ctx) SrcInput;
  match cell with
  | Some _ => Ok tt
  | None => Err GwError.AccountScriptCellNotFound
  end.

(** ** tx_signature.rs *)
Definition tx_signing_message (raw_tx : RawL2Transaction) (ctx : TxContext) : M H256 :=
  match try_assemble_polyjuice_args raw_tx (receiver ctx) with
  | Some rlp_data => Ok (keccak256 rlp_data)
  | None => tx_eip712_message raw_tx (sender_address ctx) (receiver_script_hash ctx)
  end.

Definition load_unlock_args {A} (decode : bytes → option A) : M A :=
  witness_args ← sys (load_witness_args 0 SrcGroupInput);
  lock ← ok_or GwError.InvalidArgs (wa_lock witness_args);
  ok_or GwError.InvalidArgs (decode lock).

Definition verify_tx_signature (config : RollupConfig) (lock_args : ChallengeLockArgs) : M unit :=
  unlock_args ← load_unlock_args dec_CCTransactionSignatureWitness;
  let tx := ccs_l2tx unlock_args in
  reject_if (negb (rc_chain_id config =? tx_chain_id (tx_raw tx))) GwError.WrongSignature ;;
  kv_state ← KVState_build GW_MAX_KV_PAIRS (ccs_kv_state unlock_args)
               (ccs_kv_state_proof unlock_args) (ccs_account_count unlock_args) None;
  '(ctx, _) ← run_on (verify_tx_context tx [ccs_sender unlock_args; ccs_receiver unlock_args]
                        (ccs_raw_l2block unlock_args) config (chl_target lock_args)
                        (ccs_tx_proof unlock_args)) kv_state;
  message ← tx_signing_message (tx_raw tx) ctx;
  check_l2_account_signature_cell (sender_script_hash ctx) SigningRaw message.

(** ** withdrawal.rs *)
Record WithdrawalContext := mkWithdrawalContext {
  wx_withdrawal : WithdrawalRequest;
  wx_sender_script_hash : H256;
  wx_withdrawal_address : RegistryAddress;
  wx_owner_lock : Script;
}.

Definition verify_withdrawal_proof (lock_args : ChallengeLockArgs) : M WithdrawalContext :=
  unlock_args ← load_unlock_args dec_CCWithdrawalWitness;
  let withdrawal := ccw_withdrawal unlock_args in
  let sender_hash := w_account_script_hash (w_raw withdrawal) in
  let owner_lock := ccw_owner_lock unlock_args in
  reject_if (negb (bool_decide (script_hash (ccw_sender unlock_args) = sender_hash)))
    GwError.InvalidArgs ;;
  reject_if (negb (bool_decide (script_hash owner_lock = w_owner_lock_hash (w_raw withdrawal))))
    GwError.InvalidArgs ;;
  let raw_block := ccw_raw_l2block unlock_args in
  reject_if (negb (bool_decide (raw_block_hash raw_block = ct_block_hash (chl_target lock_args))))
    GwError.InvalidBlock ;;
  let leaf := ckb_merkle_leaf_hash (ct_target_index (chl_target lock_args))
                (withdrawal_witness_hash withdrawal) in
  reject_if (negb (merkle_proof_valid (ccw_withdrawal_proof unlock_args)
                     (withdrawal_witness_root (submit_withdrawals raw_block)) leaf))
    GwError.MerkleProof ;;
  kv_state ← KVState_build GW_MAX_KV_PAIRS (ccw_kv_state unlock_args)
               (ccw_kv_state_proof unlock_args) (ccw_account_count unlock_args) None;
  '(address, _) ← run_on (call (get_registry_address_by_script_hash ETH_REGISTRY_ACCOUNT_ID
                                   sender_hash)) kv_state;
  withdrawal_address ← ok_or GwError.RegistryAddressNotFound address;
  Ok (mkWithdrawalContext withdrawal sender_hash withdrawal_address owner_lock).

Definition verify_withdrawal (config : RollupConfig) (lock_args : ChallengeLockArgs) : M unit :=
  ctx ← verify_withdrawal_proof lock_args;
  let raw := w_raw (wx_withdrawal ctx) in
  reject_if (negb (rc_chain_id config =? w_chain_id raw)) GwError.WrongSignature ;;
  message ← withdrawal_eip712_message raw (wx_owner_lock ctx) (wx_withdrawal_address ctx);
  check_l2_account_signature_cell (wx_sender_script_hash ctx) SigningRaw message.

(** ** entry.rs *)
Definition challenge_lock_main : M unit :=
  script ← sys load_script;
  '(rollup_script_hash, lock_args) ← parse_rollup_lock dec_ChallengeLockArgs (args script);
  cell ← search_rollup_cell rollup_script_hash SrcOutput;
  index ← ok_or GwError.RollupCellNotFound cell;
  action ← parse_rollup_action index SrcOutput;
  match action with
  | RollupEnterChallenge _ | RollupRevert _ => Ok tt
  | RollupCancelChallenge =>
      state ← sys (search_rollup_state rollup_script_hash SrcInput);
      prev_global_state ← ok_or GwError.RollupCellNotFound state;
      config ← load_rollup_config (rollup_config_hash prev_global_state);
      target_type ← map_err (λ _, GwError.InvalidArgs)
                      (ChallengeTargetType_try_from (ct_target_type (chl_target lock_args)));
      match target_type with
      | TxExecution => verify_tx_execution config lock_args
      | TxSignature => verify_tx_signature config lock_args
      | TargetWithdrawal => verify_withdrawal config lock_args
      end
  | RollupSubmitBlock _ => Err GwError.InvalidArgs
  end.
End ChallengeLock.

(** What is collected from a source satisfies what each collected item does. *)
Lemma query_filter_map_Forall `{CkbEnv} {E A B} (load : nat → Source → outcome SysError A) src limit
    (g : nat → A → option (outcome E B)) (P : B → Prop) l :
  (∀ i a m b, load i src = Ok a → g i a = Some m → m = Ok b → P b) →
  query_filter_map load src limit g = Ok l → Forall P l.
Proof.
  intros Hg. unfold query_filter_map, query_until. set (step := λ acc i a, _).
  assert (∀ n i acc, Forall P acc → query_from load src (λ acc, bool_decide (limit = Some (length acc)))
    step n i acc = Ok l → Forall P l) as Hgen; [|by apply Hgen].
  induction n as [|n IH]; intros i acc Hacc; cbn [query_from]; intros Hrun;
    [by injection Hrun as <-|].
  destruct (bool_decide _); [by injection Hrun as <-|].
  destruct (load i src) as [a|e|] eqn:Ea; [|destruct e; [by injection Hrun as <-|done..]|done].
  apply bind_Ok in Hrun as (acc' & Hacc' & Hrun). eapply IH; [|exact Hrun].
  subst step. cbn beta in Hacc'. destruct (g i a) as [m|] eqn:Em; [|by injection Hacc' as <-].
  apply bind_Ok in Hacc' as (b & Hb & [= <-]). apply Forall_app. split; [done|].
  constructor; [by eapply Hg|done].
Qed.

(** ** What an accepted cancellation shows *)
Section Shown.
Context `{Blake2b, Molecule} {env : CkbEnv} `{SmtC, CbmtProof, ChallengeCodec, Keccak256, EthAbi, Rlp}.

(** The transaction [tx] is in the challenged block, and the state [kv] it runs
    on is the one the block commits to just before it; there, the sender and the
    receiver are the accounts named by the transaction, of a kind the rollup
    allows, and the nonce is the sender's next one. *)
Record shows_tx (config : RollupConfig) (target : ChallengeTarget) (kv : KVState)
    (raw_block : RawL2Block) (tx : L2Transaction) (proof : CKBMerkleProof) (ctx : TxContext) : Prop := {
  shown_block : raw_block_hash raw_block = ct_block_hash target;
  shown_member : merkle_proof_valid proof (tx_witness_root (submit_transactions raw_block))
    (ckb_merkle_leaf_hash (ct_target_index target) (tx_witness_hash tx)) = true;
  shown_state : ∃ root kv' checkpoint, kvs_calculate_root kv = (Ok root, kv') ∧
    tx_prev_state_checkpoint raw_block (ct_target_index target) = Ok checkpoint ∧
    checkpoint = calculate_state_checkpoint_of root (kv_account_count kv) ∧
    (get_registry_address_by_script_hash ETH_REGISTRY_ACCOUNT_ID (sender_script_hash ctx) kv').1
    = Ok (Some (sender_address ctx));
  shown_nonce : get_nonce (tx_from_id (tx_raw tx)) kv = (Ok (tx_nonce (tx_raw tx)), kv);
  shown_sender_hash : get_script_hash (tx_from_id (tx_raw tx)) kv = (Ok (sender_script_hash ctx), kv);
  shown_sender : script_hash (sender ctx) = sender_script_hash ctx;
  shown_sender_type : hash_type (sender ctx) = ScriptHashType_to_u8 HashType;
  shown_sender_code : code_hash (sender ctx) ∈ ath_hash <$> allowed_eoa_type_hashes config;
  shown_receiver_hash : get_script_hash (tx_to_id (tx_raw tx)) kv = (Ok (receiver_script_hash ctx), kv);
  shown_receiver : script_hash (receiver ctx) = receiver_script_hash ctx;
  shown_receiver_type : hash_type (receiver ctx) = ScriptHashType_to_u8 HashType;
  shown_receiver_code : code_hash (receiver ctx) ∈ ath_hash <$> allowed_contract_type_hashes config;
}.

(** Reads do not change the state. *)
Lemma kvs_get_raw_same k (kv kv' : KVState) v :
  get_raw k kv = (Ok v, kv') → kv' = kv.
Proof. intros E. cbn in E. unfold kvs_get_raw in E. by simplify_eq. Qed.
Lemma get_script_hash_same id (kv kv' : KVState) v : get_script_hash id kv = (Ok v, kv') → kv' = kv.
Proof. apply kvs_get_raw_same. Qed.
Lemma get_nonce_same id (kv kv' : KVState) v : get_nonce id kv = (Ok v, kv') → kv' = kv.
Proof. unfold get_nonce. intros Hrun. inv_ok. by eapply kvs_get_raw_same. Qed.

Lemma kvs_calculate_root_count (kv kv' : KVState) root :
  kvs_calculate_root kv = (Ok root, kv') → kv_account_count kv' = kv_account_count kv.
Proof. unfold kvs_calculate_root. by case_match; intros [= _ <-]. Qed.

Lemma find_script_Ok h scripts s : find_script h scripts = Ok s → script_hash s = h.
Proof.
  unfold find_script. intros Hrun. inv_ok. apply fmap_Some in Hrun as ([i s'] & Hf & ->).
  by apply list_find_Some in Hf as (_ & ? & _).
Qed.

Lemma check_account_script_Ok e allowed s :
  check_account_script e allowed s = Ok tt →
  hash_type s = ScriptHashType_to_u8 HashType ∧ code_hash s ∈ ath_hash <$> allowed.
Proof.
  unfold check_account_script. intros Hrun. inv_ok. bool_inv. split; [done|].
  match goal with Hx : existsb _ _ = true |- _ => apply existsb_exists in Hx as (th & Hth & E) end.
  apply bool_decide_eq_true in E as <-. apply list_elem_of_fmap. exists th. split; [done|].
  by apply list_elem_of_In.
Qed.

Lemma verify_tx_context_Ok config target (kv kv' : KVState) raw_block tx scripts proof ctx :
  verify_tx_context tx scripts raw_block config target proof kv = (Ok ctx, kv') →
  shows_tx config target kv raw_block tx proof ctx.
Proof.
  unfold verify_tx_context. intros Hrun. inv_ok. bool_inv.
  repeat match goal with
  | Hx : get_script_hash _ ?k = (Ok _, ?k') |- _ =>
      lazymatch k' with k => fail | _ => pose proof (get_script_hash_same _ _ _ _ Hx); subst k' end
  | Hx : get_nonce _ ?k = (Ok _, ?k') |- _ =>
      lazymatch k' with k => fail | _ => pose proof (get_nonce_same _ _ _ _ Hx); subst k' end
  | Hx : find_script _ _ = Ok _ |- _ => apply find_script_Ok in Hx
  | Hx : check_account_script _ _ _ = Ok _ |- _ => apply check_account_script_Ok in Hx as [? ?]
  end.
  match goal with Hx : calculate_root _ = (Ok _, _) |- _ => cbn in Hx end.
  match goal with Hx : get_account_count _ = (Ok _, _) |- _ => cbn in Hx; injection Hx as ? ? end.
  subst. split; try done. do 3 eexists. split; [eassumption|]. split; [eassumption|].
  split; [f_equal; by eapply kvs_calculate_root_count|].
  match goal with Hx : get_registry_address_by_script_hash _ _ _ = _ |- _ => cbn [sender_script_hash sender_address]; by rewrite Hx end.
Qed.

(** A cell of the account carries the signature of the message: the lock of that
    cell checks it. *)
Definition signed_by (account message : H256) : Prop :=
  ∃ i, load_cell_lock_hash i SrcInput = Ok account ∧
       load_cell_data_raw 33 32 i SrcInput = Ok (x00 :: message).

Lemma search_lock_hashes_Ok h src l i :
  search_lock_hashes h src = Ok l → i ∈ l → load_cell_lock_hash i src = Ok h.
Proof.
  intros Hrun. revert i. apply Forall_forall. revert Hrun. apply query_filter_map_Forall.
  intros i a m b Ha. case_bool_decide; [|done]. intros [= <-] [= <-]. congruence.
Qed.

Lemma check_signature_cells_Ok ty message l :
  check_signature_cells ty message l = Ok tt →
  ∃ i b, i ∈ l ∧ load_cell_data_raw 33 32 i SrcInput = Ok (b :: message) ∧
    SigningType_try_from (Z_of_byte b) = Ok ty.
Proof.
  induction l as [|i l IH]; [done|]. cbn [check_signature_cells]. intros Hrun.
  assert (check_signature_cells ty message l = Ok tt →
    ∃ j b, j ∈ i :: l ∧ load_cell_data_raw 33 32 j SrcInput = Ok (b :: message) ∧
      SigningType_try_from (Z_of_byte b) = Ok ty) as Hnext.
  { intros Hl. destruct (IH Hl) as (j & b & Hj & ?). exists j, b. split; [by right|done]. }
  apply bind_Ok in Hrun as (data & Hd & Hrun). apply sys_Ok in Hd.
  destruct data as [|b data]; [by apply Hnext|]. destruct (negb _); [by apply Hnext|].
  destruct (SigningType_try_from (Z_of_byte b)) as [ty'|e|] eqn:Et; [|by apply Hnext..].
  destruct (bool_decide (ty' = ty)) eqn:E1; cbn [negb] in Hrun; [|by apply Hnext].
  destruct (bool_decide (data = message)) eqn:E2; [|by apply Hnext].
  bool_inv. subst. exists i, b. split; [left|done].
Qed.

Lemma signing_raw_byte b : SigningType_try_from (Z_of_byte b) = Ok SigningRaw → b = x00.
Proof. by destruct b. Qed.

Lemma signature_cell_Ok account message :
  check_l2_account_signature_cell account SigningRaw message = Ok tt → signed_by account message.
Proof.
  unfold check_l2_account_signature_cell. intros Hrun. inv_ok.
  destruct (check_signature_cells_Ok _ _ _ ltac:(eassumption)) as (i & b & Hi & Hd & Hb).
  apply signing_raw_byte in Hb as ->. exists i. split; [by eapply search_lock_hashes_Ok|done].
Qed.

(** The three ways to cancel a challenge. *)
Definition cancelled_by_execution (config : RollupConfig) (target : ChallengeTarget) : Prop :=
  ∃ w kv ctx i,
    KVState_build GW_MAX_KV_PAIRS (cct_kv_state w) (cct_kv_state_proof w) (cct_account_count w) None
    = Ok kv ∧
    shows_tx config target kv (cct_raw_l2block w) (cct_l2tx w) (cct_tx_proof w) ctx ∧
    search_lock_hash (receiver_script_hash ctx) SrcInput = Ok (Some i).

Definition cancelled_by_tx_signature (config : RollupConfig) (target : ChallengeTarget) : Prop :=
  ∃ w kv ctx message,
    KVState_build GW_MAX_KV_PAIRS (ccs_kv_state w) (ccs_kv_state_proof w) (ccs_account_count w) None
    = Ok kv ∧
    shows_tx config target kv (ccs_raw_l2block w) (ccs_l2tx w) (ccs_tx_proof w) ctx ∧
    tx_chain_id (tx_raw (ccs_l2tx w)) = rc_chain_id config ∧
    tx_signing_message (tx_raw (ccs_l2tx w)) ctx = Ok message ∧
    signed_by (sender_script_hash ctx) message.

(** The withdrawal is in the challenged block. *)
Definition shows_withdrawal (target : ChallengeTarget) (raw_block : RawL2Block)
    (w : WithdrawalRequest) (proof : CKBMerkleProof) : Prop :=
  raw_block_hash raw_block = ct_block_hash target ∧
  merkle_proof_valid proof (withdrawal_witness_root (submit_withdrawals raw_block))
    (ckb_merkle_leaf_hash (ct_target_index target) (withdrawal_witness_hash w)) = true.

Definition cancelled_by_withdrawal_signature (config : RollupConfig) (target : ChallengeTarget) : Prop :=
  ∃ w a message,
    shows_withdrawal target (ccw_raw_l2block w) (ccw_withdrawal w) (ccw_withdrawal_proof w) ∧
    let raw := w_raw (ccw_withdrawal w) in
    script_hash (ccw_owner_lock w) = w_owner_lock_hash raw ∧
    w_chain_id raw = rc_chain_id config ∧
    withdrawal_eip712_message raw (ccw_owner_lock w) a = Ok message ∧
    signed_by (w_account_script_hash raw) message.

Lemma verify_tx_execution_Ok config lock_args :
  verify_tx_execution config lock_args = Ok tt →
  cancelled_by_execution config (chl_target lock_args).
Proof.
  unfold verify_tx_execution. intros Hrun. inv_ok. destruct x4 as [ctx kv']. inv_ok.
  destruct x4 as [i|]; [|done]. rewrite run_on_Ok in *.
  eexists _, _, ctx, i. split; [eassumption|]. split; [by eapply verify_tx_context_Ok|done].
Qed.

Lemma verify_tx_signature_Ok config lock_args :
  verify_tx_signature config lock_args = Ok tt →
  cancelled_by_tx_signature config (chl_target lock_args).
Proof.
  unfold verify_tx_signature. intros Hrun. inv_ok. destruct x1 as [ctx kv']. inv_ok. bool_inv.
  rewrite run_on_Ok in *. eexists _, _, ctx, _. split; [eassumption|].
  split; [by eapply verify_tx_context_Ok|]. split; [done|]. split; [eassumption|].
  by apply signature_cell_Ok.
Qed.

Lemma verify_withdrawal_Ok config lock_args :
  verify_withdrawal config lock_args = Ok tt →
  cancelled_by_withdrawal_signature config (chl_target lock_args).
Proof.
  unfold verify_withdrawal, verify_withdrawal_proof. intros Hrun. inv_ok. bool_inv.
  match goal with Hx : run_on _ _ = Ok ?p |- _ => destruct p as [a kv'] end. inv_ok.
  eexists _, _, _. split; [by split|]. split; [done|]. split; [done|]. split; [eassumption|].
  by apply signature_cell_Ok.
Qed.
End Shown.

(** C36. A challenge ends only in one of three ways.  The challenge lock needs
    the rollup cell in the outputs and rejects a transaction that submits a
    block; entering and reverting are left to the type script; and to cancel,
    the transaction shows the challenged transaction in the challenged block
    together with the state before it, and either runs the receiver's contract
    in the same layer-1 transaction or carries the sender's signature of the
    transaction's message, or it shows the challenged withdrawal and carries its
    account's signature. *)
Theorem challenge_lock_cancel_rules `{Blake2b, Molecule} {env : CkbEnv}
    `{SmtC, CbmtProof, ChallengeCodec, Keccak256, EthAbi, Rlp}
    (script : Script) (lock_args : ChallengeLockArgs) :
  load_script = Ok script → dec_ChallengeLockArgs (drop 32 (args script)) = Some lock_args →
  challenge_lock_main = Ok tt →
  let rth := take 32 (args script) in
  let target := chl_target lock_args in
  ∃ index action,
    search_rollup_cell (E:=GwError.t) rth SrcOutput = Ok (Some index) ∧
    parse_rollup_action index SrcOutput = Ok action ∧
    match action with
    | RollupSubmitBlock _ => False
    | RollupEnterChallenge _ | RollupRevert _ => True
    | RollupCancelChallenge =>
        ∃ gs config, search_rollup_state rth SrcInput = Ok (Some gs) ∧
          load_rollup_config (rollup_config_hash gs) = Ok config ∧
          match ChallengeTargetType_try_from (ct_target_type target) with
          | Ok TxExecution => cancelled_by_execution config target
          | Ok TxSignature => cancelled_by_tx_signature config target
          | Ok TargetWithdrawal => cancelled_by_withdrawal_signature config target
          | _ => False
          end
    end.
Proof.
  intros Hs Hd Hrun. cbv zeta. unfold challenge_lock_main in Hrun. rewrite Hs in Hrun.
  cbn [sys mbind outcome_bind] in Hrun. unfold parse_rollup_lock in Hrun. rewrite Hd in Hrun. inv_ok.
  match goal with Hx : Some _ = Some _ |- _ => injection Hx as <- end.
  match goal with Hx : parse_rollup_action ?i _ = Ok ?x |- _ =>
    exists i, x; split; [done|]; split; [done|]; destruct x end; inv_ok; try done.
  repeat match goal with Hx : sys _ = Ok _ |- _ => apply sys_Ok in Hx end.
  do 2 eexists. split; [eassumption|]. split; [eassumption|].
  match goal with Hx : ChallengeTargetType_try_from _ = Ok _ |- _ => rewrite Hx end.
  match goal with Hx : match ?ty with _ => _ end = Ok tt |- _ => destruct ty end.
  - by apply verify_tx_execution_Ok.
  - by apply verify_tx_signature_Ok.
  - by apply verify_withdrawal_Ok.
Qed.

(** ** The challenged item is the submitted one *)

(** The nodes of a merkle tree. *)
Inductive cbmt_node (merge : H256 → H256 → H256) (leaves : list H256) : H256 → Prop :=
| node_leaf x : x ∈ leaves → cbmt_node merge leaves x
| node_inner l r : cbmt_node merge leaves l → cbmt_node merge leaves r →
    cbmt_node merge leaves (merge l r).

(** A proof for one item verifies against the root of a tree only if the item is
    a node of the tree: a leaf, or also an inner node. *)
Class CbmtLaws `{Blake2b, Cbmt, CbmtProof} :=
  cbmt_verify_sound indices lemmas leaves x :
    leaves ≠ [] → cbmt_verify merge_h256 indices lemmas (cbmt_root merge_h256 leaves) [x] = true →
    cbmt_node merge_h256 leaves x.

Lemma count_nonempty {A} (l : list A) count i :
  count = Z.of_nat (length l) mod 2 ^ 32 → i < count → 0 ≤ i → l ≠ [].
Proof. intros -> Hi H0 ->. change (Z.of_nat (length []) mod 2 ^ 32) with 0 in Hi. lia. Qed.

Section Membership.
Context `{CbmtLaws} {A : Type} (item_hash : A → H256).

Definition leaves_of (items : list A) : list H256 :=
  imap (λ i x, ckb_merkle_leaf_hash (Z.of_nat i) (item_hash x)) items.

(** No hash collision of the leaf of [x] at [index] with the tree of [items]. *)
Definition leaf_hash_ok (items : list A) (index : Z) (x : A) : Prop :=
  let leaf := ckb_merkle_leaf_hash index (item_hash x) in
  (∀ i y, items !! i = Some y → ckb_merkle_leaf_hash (Z.of_nat i) (item_hash y) = leaf →
     le_bytes 4 (Z.of_nat i) ++ item_hash y = le_bytes 4 index ++ item_hash x) ∧
  (∀ y, y ∈ items → item_hash y = item_hash x → y = x) ∧
  (∀ l r, cbmt_node merge_h256 (leaves_of items) l → cbmt_node merge_h256 (leaves_of items) r →
     merge_h256 l r ≠ leaf).

Lemma merkle_member_at items index x proof :
  items ≠ [] → Z.of_nat (length items) < 2 ^ 32 → u32 index → leaf_hash_ok items index x →
  merkle_proof_valid proof (calculate_ckb_merkle_root (leaves_of items))
    (ckb_merkle_leaf_hash index (item_hash x)) = true →
  items !! Z.to_nat index = Some x.
Proof.
  intros Hne Hlen Hi (Hleaf & Hitem & Hinner) Hv.
  unfold merkle_proof_valid, calculate_ckb_merkle_root in Hv. apply cbmt_verify_sound in Hv.
  2:{ intros E. apply (f_equal length) in E. unfold leaves_of in E. rewrite length_imap in E.
      by destruct items. }
  inversion Hv as [y Hy E|l r Hl Hr E]; [|by destruct (Hinner l r)]. subst y.
  apply list_elem_of_lookup in Hy as [j Hj]. unfold leaves_of in Hj.
  rewrite list_lookup_imap in Hj. apply fmap_Some in Hj as (y & Hy & E). symmetry in E.
  apply (Hleaf j y Hy) in E. apply app_inj_1 in E as [E1 E2]; [|by rewrite !le_bytes_length].
  apply lookup_lt_Some in Hy as Hlt. apply (le_bytes_inj 4) in E1; [|unfold in_width in *; lia|done].
  subst index. rewrite Nat2Z.id. rewrite Hy. f_equal. apply Hitem; [|done].
  by eapply list_elem_of_lookup_2.
Qed.
End Membership.

(** C38. A cancellation is about the challenged item: if the challenged block was
    accepted by the type script, a transaction shown for the target is the block's
    transaction at the target's index, and a withdrawal shown is the block's
    withdrawal at that index, unless a hash collides.  That the index is part of
    the hashed leaf is what rules out another position. *)
Theorem cancellation_shows_challenged_item `{CbmtLaws, Molecule} {env : CkbEnv} `{SmtC}
    (rth : H256) (config : RollupConfig) (block : L2Block) (prev post : GlobalState)
    (target : ChallengeTarget) (b : RawL2Block) (proof : CKBMerkleProof) :
  submit_block_verify rth config block prev post = Ok tt →
  ct_block_hash target = raw_block_hash (block_raw block) →
  (raw_block_hash b = raw_block_hash (block_raw block) → b = block_raw block) →
  u32 (ct_target_index target) →
  Z.of_nat (length (block_transactions block)) < 2 ^ 32 →
  Z.of_nat (length (block_withdrawals block)) < 2 ^ 32 →
  (∀ tx kv ctx,
     shows_tx config target kv b tx proof ctx →
     ct_target_index target < tx_count (submit_transactions (block_raw block)) →
     leaf_hash_ok tx_witness_hash (block_transactions block) (ct_target_index target) tx →
     block_transactions block !! Z.to_nat (ct_target_index target) = Some tx) ∧
  (∀ w,
     shows_withdrawal target b w proof →
     ct_target_index target < withdrawal_count (submit_withdrawals (block_raw block)) →
     leaf_hash_ok withdrawal_witness_hash (block_withdrawals block) (ct_target_index target) w →
     block_withdrawals block !! Z.to_nat (ct_target_index target) = Some w).
Proof.
  intros Hrun Ht Hinj Hi Hlt Hlw. destruct (submit_block_steps _ _ _ _ _ Hrun)
    as (ctx0 & kv0 & kv1 & kv2 & kv3 & wcells & dcells & inputs & Hst).
  split.
  - intros tx kv ctx [Hb Hm _ _ _ _ _ _ _ _ _ _] Hidx Hok. rewrite Ht in Hb.
    apply Hinj in Hb as ->. pose proof (st_transactions _ _ _ _ _ _ _ _ _ _ _ _ _ Hst) as Htx.
    apply run_on_Ok in Htx. unfold check_block_transactions in Htx. inv_ok. bool_inv.
    apply (merkle_member_at tx_witness_hash _ _ _ proof); [|done..|].
    + eapply count_nonempty; [eassumption..|]. apply Hi.
    + rewrite <- Hm. f_equal. done.
  - intros w [Hb Hm] Hidx Hok. rewrite Ht in Hb. apply Hinj in Hb as ->.
    pose proof (st_withdrawals _ _ _ _ _ _ _ _ _ _ _ _ _ Hst) as Hw.
    unfold check_block_withdrawals in Hw. inv_ok. bool_inv.
    apply (merkle_member_at withdrawal_witness_hash _ _ _ proof); [|done..|].
    + eapply count_nonempty; [eassumption..|]. apply Hi.
    + rewrite <- Hm. f_equal. done.
Qed.
