(* ===== verification/Samples.v ===== *)
(** * Concrete parameters

    The hash function, the sparse merkle tree, the store iterator and the
    layer-1 environment are parameters of the development.  This file has one
    executable instance of each that satisfies the laws the theorems assume, and
    a short history of a rollup: a block with a deposit is submitted, challenged,
    and the challenge is cancelled or the block reverted.  The witnesses evaluate
    the model on it. *)
From Stdlib Require Import ZArith Lia Strings.Byte.
From stdpp Require Import prelude list gmap countable sorting.
From S2P Require Import Prelude Bytes Types State StateSpec StateDB History Finality.
From S2P Require Import Ckb SubmitBlock Layer2Supply SubmitBlockProps RollupScript RollupProps RollupChain Locks.
Local Open Scope Z_scope.

(** ** A hash without collisions

    The input with a mark at its end: it is never zero and never one of the
    unhashed account field keys. *)
Module SampleHash.
#[export] Instance sample_blake2b : Blake2b := λ bs, bs ++ [x01].

Lemma sample_hash_inj x y : blake2b x = blake2b y → x = y.
Proof. unfold blake2b, sample_blake2b. intros E. by apply (inj (.++ [x01])) in E. Qed.

Lemma zeros_last n : last (zeros n) ≠ Some x01.
Proof.
  unfold zeros. rewrite last_lookup. intros E%list_elem_of_lookup_2.
  apply elem_of_replicate in E as [? _]. done.
Qed.

Lemma sample_hash_nonzero x : blake2b x ≠ h256_zero.
Proof.
  unfold blake2b, sample_blake2b. intros E. apply (f_equal last) in E.
  rewrite last_snoc in E. by apply (zeros_last 32).
Qed.

Lemma sample_hash_not_field x id t : build_account_field_key id t ≠ blake2b x.
Proof.
  unfold blake2b, sample_blake2b. intros E. apply (f_equal last) in E.
  rewrite last_snoc in E. unfold build_account_field_key in E.
  rewrite (assoc_L app), last_app in E. change (last (zeros 27)) with (Some x00) in E. done.
Qed.

Lemma sample_collision_free P : collision_free P.
Proof. split; [intros; by apply sample_hash_inj|intros; apply sample_hash_not_field]. Qed.
Lemma sample_hash_ok l : hash_ok l.
Proof. apply sample_collision_free. Qed.
End SampleHash.

(** ** A self-delimiting encoding of lists of byte strings *)
Module SampleCodec.
Fixpoint escape (bs rest : bytes) : bytes :=
  match bs with
  | [] => x00 :: rest
  | [a] => x01 :: a :: rest
  | [a; b] => x02 :: a :: b :: rest
  | [a; b; c] => x03 :: a :: b :: c :: rest
  | a :: b :: c :: d :: bs => x04 :: a :: b :: c :: d :: escape bs rest
  end.
Definition pack (l : list bytes) : bytes := foldr escape [] l.
Fixpoint unpack_from (cur bs : bytes) : list bytes :=
  match bs with
  | x00 :: bs => reverse cur :: unpack_from [] bs
  | x01 :: a :: bs => reverse (a :: cur) :: unpack_from [] bs
  | x02 :: a :: b :: bs => reverse (b :: a :: cur) :: unpack_from [] bs
  | x03 :: a :: b :: c :: bs => reverse (c :: b :: a :: cur) :: unpack_from [] bs
  | x04 :: a :: b :: c :: d :: bs => unpack_from (d :: c :: b :: a :: cur) bs
  | _ => []
  end.
Definition unpack : bytes → list bytes := unpack_from [].

Lemma unpack_escape cur bs rest :
  unpack_from cur (escape bs rest) = (reverse cur ++ bs) :: unpack rest.
Proof.
  revert cur. induction bs as [bs IH] using (induction_ltof1 _ length). intros cur.
  destruct bs as [|a [|b [|c [|d bs]]]]; cbn [escape unpack_from]; rewrite ?reverse_cons.
  1-4: by rewrite ?app_nil_r, <- ?(assoc_L app).
  rewrite IH by (unfold ltof; cbn; lia). by rewrite !reverse_cons, <- !(assoc_L app).
Qed.
Lemma unpack_pack l : unpack (pack l) = l.
Proof.
  induction l as [|bs l IH]; [done|]. unfold unpack at 1. cbn [pack foldr].
  rewrite unpack_escape. fold (pack l). by rewrite IH.
Qed.
#[export] Instance pack_inj : Inj (=) (=) pack.
Proof. intros l l' E. by rewrite <- (unpack_pack l), E, unpack_pack. Qed.

(** Integers: the bits of their encoding. *)
Fixpoint pos_bytes (p : positive) : bytes :=
  match p with xH => [] | xO p => x00 :: pos_bytes p | xI p => x01 :: pos_bytes p end.
#[export] Instance pos_bytes_inj : Inj (=) (=) pos_bytes.
Proof. intros p. induction p; intros [] E; cbn in E; simplify_eq; try done; f_equal; by apply IHp. Qed.
Definition z_bytes (z : Z) : bytes := pos_bytes (encode z).
#[export] Instance z_bytes_inj : Inj (=) (=) z_bytes.
Proof. intros a b E. unfold z_bytes in E. by apply (inj pos_bytes), (inj encode) in E. Qed.

(** Maps: their pairs. *)
Fixpoint pairs (l : list bytes) : list (bytes * bytes) :=
  match l with k :: v :: l => (k, v) :: pairs l | _ => [] end.
Definition flat (l : list (bytes * bytes)) : list bytes := mjoin ((λ kv, [kv.1; kv.2]) <$> l).
Lemma pairs_flat l : pairs (flat l) = l.
Proof. induction l as [|[k v] l IH]; [done|]. cbn. f_equal. exact IH. Qed.
Definition map_bytes (m : gmap bytes bytes) : bytes := pack (flat (map_to_list m)).
Definition bytes_map (bs : bytes) : gmap bytes bytes := list_to_map (pairs (unpack bs)).
Lemma bytes_map_bytes m : bytes_map (map_bytes m) = m.
Proof. unfold bytes_map, map_bytes. by rewrite unpack_pack, pairs_flat, list_to_map_to_list. Qed.
#[export] Instance map_bytes_inj : Inj (=) (=) map_bytes.
Proof. intros m m' E. by rewrite <- (bytes_map_bytes m), E, bytes_map_bytes. Qed.

Definition block_bytes (b : RawL2Block) : bytes := pack [
  z_bytes (number b); block_producer b; parent_block_hash b; stake_cell_owner_lock_hash b;
  z_bytes (timestamp b); am_merkle_root (prev_account b); z_bytes (am_count (prev_account b));
  am_merkle_root (post_account b); z_bytes (am_count (post_account b));
  pack (state_checkpoint_list b);
  withdrawal_witness_root (submit_withdrawals b); z_bytes (withdrawal_count (submit_withdrawals b));
  tx_witness_root (submit_transactions b); z_bytes (tx_count (submit_transactions b));
  prev_state_checkpoint (submit_transactions b)].
#[export] Instance block_bytes_inj : Inj (=) (=) block_bytes.
Proof.
  intros b b' E. apply (inj pack) in E.
  destruct b as [? ? ? ? ? [] [] ? [] []], b' as [? ? ? ? ? [] [] ? [] []].
  injection E. clear E. intros.
  repeat match goal with
  | H : z_bytes _ = z_bytes _ |- _ => apply (inj z_bytes) in H
  | H : pack _ = pack _ |- _ => apply (inj pack) in H
  end. cbn in *.
  by subst.
Qed.
End SampleCodec.

(** ** A sparse merkle tree whose root is its contents

    The state is a map; a proof is the rest of the tree. *)
Module SampleSmt.
Import SampleCodec.
Abbreviation tree := (gmap H256 H256).
Definition canonical (m : tree) : tree := filter (λ kv, kv.2 ≠ h256_zero) m.
Definition root_of (m : tree) : H256 := map_bytes (canonical m).
Definition calc (t : tree) (proof : bytes) : outcome Z H256 :=
  Ok (root_of (t ∪ bytes_map proof)).

#[export] Instance sample_smt : SmtC := {|
  smt_state := tree;
  smt_state_init := λ _, ∅;
  smt_state_insert := λ s k v, Ok (<[k := v]> s);
  smt_state_fetch := λ s k, ok_or 1 (s !! k);
  smt_state_normalize := id;
  smt_calculate_root := calc;
  smt_verify := λ t root proof,
    root' ← calc t proof; if bool_decide (root' = root) then Ok tt else Err 1;
  smt_state_len := λ s, size s;
|}.

#[export] Instance sample_smt_laws : SmtCLaws.
Proof.
  split; cbn.
  - intros s k v s' k' [= <-]. rewrite lookup_insert. by case_decide.
  - done.
  - intros n k v. by rewrite lookup_empty.
  - done.
  - intros s k. by destruct (s !! k).
Qed.

Definition leaf (m : tree) (k : H256) : H256 := default h256_zero (m !! k).

Lemma canonical_leaf m k : leaf (canonical m) k = leaf m k.
Proof.
  unfold leaf, canonical. rewrite map_lookup_filter. destruct (m !! k) as [v|]; [|done]. cbn.
  case_guard; [done|]. cbn. destruct (decide (v = h256_zero)); [done|]. by exfalso.
Qed.
Lemma root_of_leaf m m' k : root_of m = root_of m' → leaf m k = leaf m' k.
Proof.
  unfold root_of. intros E%(inj map_bytes). rewrite <- (canonical_leaf m), <- (canonical_leaf m').
  by rewrite E.
Qed.

Lemma sample_tree_of {E} (e : E) (n : nat) (kvs : list (H256 * H256)) (t : tree) :
  NoDup kvs.*1 → tree_of e n kvs = Ok t → t = list_to_map kvs.
Proof.
  unfold tree_of. intros Hnd.
  assert (∀ m0 : tree, foldM (λ t '(k, v), map_err (λ _ : Z, e) (smt_state_insert t k v)) m0 kvs = Ok t →
    t = list_to_map kvs ∪ m0) as Hgen.
  { induction kvs as [|[k v] kvs IH]; intros m0 Hrun; cbn [foldM] in Hrun.
    - injection Hrun as <-. rewrite list_to_map_nil. symmetry. exact (map_empty_union _).
    - cbn in Hrun. apply NoDup_cons in Hnd as [Hk Hnd]. cbn in Hk.
      rewrite (IH Hnd _ Hrun). cbn. rewrite <- insert_union_r; [|by apply not_elem_of_list_to_map_1].
      by rewrite insert_union_l. }
  intros Hrun. etransitivity; [exact (Hgen ∅ Hrun)|].
  exact (map_union_empty _).
Qed.

Lemma sample_tree_lookup {E} (e : E) (n : nat) (kvs : list (H256 * H256)) (t : tree) k v :
  functional_pairs kvs → tree_of e n kvs = Ok t → (k, v) ∈ kvs → t !! k = Some v.
Proof.
  unfold tree_of. intros Hf Hrun Hin.
  assert (∀ m0 : tree, foldM (λ t '(k, v), map_err (λ _ : Z, e) (smt_state_insert t k v)) m0 kvs = Ok t →
    (k, v) ∈ kvs ∨ m0 !! k = Some v ∧ k ∉ kvs.*1 → t !! k = Some v) as Hgen.
  { clear Hrun Hin. induction kvs as [|[k0 v0] kvs IH]; intros m0 Hrun Hk; cbn [foldM] in Hrun.
    - injection Hrun as <-. destruct Hk as [[]%elem_of_nil|[? _]]. done.
    - cbn in Hrun. apply (IH ltac:(intros ????? ; eapply Hf; by right) _ Hrun).
      destruct (decide (k ∈ kvs.*1)) as [Hi|Hi].
      + left. apply list_elem_of_fmap in Hi as ([k' v'] & -> & Hi). cbn in *.
        destruct Hk as [Hk|[_ Hk]].
        * by rewrite (Hf k' v v' Hk ltac:(by right)).
        * exfalso. apply Hk. right. apply list_elem_of_fmap. by exists (k', v').
      + right. split; [|done]. destruct Hk as [[[= -> ->]|Hk]%elem_of_cons|[Hm Hk]].
        * by rewrite lookup_insert_eq.
        * exfalso. apply Hi, list_elem_of_fmap. by exists (k, v).
        * cbn in Hk. rewrite lookup_insert_ne; [done|]. intros ->. apply Hk. left. }
  apply (Hgen ∅ Hrun). by left.
Qed.

Lemma sample_verify (t : tree) root proof :
  smt_verify t root proof = Ok tt → root = root_of (t ∪ bytes_map proof).
Proof. cbn. by case_bool_decide. Qed.

#[export] Program Instance sample_smt_commits : SmtCommits := {|
  commits root f := ∃ m : tree, root = root_of m ∧ ∀ k, f k = leaf m k;
|}.
Next Obligation.
  intros E e n kvs t root proof f Hnd Ht Hv (m & -> & Hf).
  pose proof (sample_verify _ _ _ Hv) as Hr. apply Forall_forall. intros [k v] Hin. cbn.
  rewrite Hf, (root_of_leaf _ _ k Hr). unfold leaf.
  rewrite lookup_union, (sample_tree_lookup e n kvs t k v Hnd Ht Hin). by rewrite union_Some_l.
Qed.
Next Obligation.
  intros E e n kvs kvs' t t' root root' proof f Hnd Hks Ht Ht' Hv Hc (m & -> & Hf).
  apply sample_tree_of in Ht as ->; [|done]. apply sample_tree_of in Ht' as ->; [|by rewrite Hks].
  pose proof (sample_verify _ _ _ Hv) as Hr. injection Hc as <-.
  exists (list_to_map kvs' ∪ bytes_map proof). split; [done|].
  intros k. unfold write_leaves. rewrite Hf, (root_of_leaf _ _ k Hr). unfold leaf.
  rewrite !lookup_union. destruct (list_to_map kvs' !! k) eqn:E1.
  - rewrite union_Some_l. done.
  - apply not_elem_of_list_to_map in E1. rewrite Hks in E1. apply not_elem_of_list_to_map in E1.
    by rewrite E1.
Qed.
Next Obligation.
  intros t root proof Hv. by rewrite (sample_verify _ _ _ Hv).
Qed.
End SampleSmt.

(** ** An ordered store: the keys of a map, sorted *)
Module SampleStore.
#[export] Instance bytes_le_dec : RelDecision bytes_le.
Proof. intros a b. unfold bytes_le. apply _. Defined.

#[export] Instance bytes_le_trans : Transitive bytes_le.
Proof.
  intros a. induction a as [|x a IH]; intros [|y b] [|z c]; unfold bytes_le in *; cbn; try done.
  intros Hab Hbc. destruct (Z.compare_spec (Z_of_byte x) (Z_of_byte z)) as [E|?|?]; [|done|].
  - destruct (Z.compare_spec (Z_of_byte x) (Z_of_byte y)) as [E1|?|?],
      (Z.compare_spec (Z_of_byte y) (Z_of_byte z)) as [E2|?|?]; try done; try lia. by apply (IH b).
  - destruct (Z.compare_spec (Z_of_byte x) (Z_of_byte y)) as [E1|?|?],
      (Z.compare_spec (Z_of_byte y) (Z_of_byte z)) as [E2|?|?]; try done; lia.
Qed.
#[export] Instance bytes_le_total : Total bytes_le.
Proof.
  intros a b. unfold bytes_le. rewrite (bytes_compare_antisym a b).
  destruct (bytes_compare a b); cbn; auto.
Qed.

Definition sorted_keys (m : gmap bytes bytes) : list bytes := merge_sort bytes_le (map_to_list m).*1.

Lemma sorted_keys_elem m x : x ∈ sorted_keys m ↔ is_Some (m !! x).
Proof.
  unfold sorted_keys. rewrite merge_sort_Permutation, list_elem_of_fmap. split.
  - intros ([k v] & -> & Hin). apply elem_of_map_to_list in Hin. by eexists.
  - intros [v Hv]. exists (x, v). split; [done|]. by apply elem_of_map_to_list.
Qed.

Lemma sorted_keys_sorted m : StronglySorted (λ a b, bytes_compare a b = Lt) (sorted_keys m).
Proof.
  assert (NoDup (sorted_keys m)) as Hnd.
  { unfold sorted_keys. rewrite merge_sort_Permutation. apply NoDup_fst_map_to_list. }
  assert (StronglySorted bytes_le (sorted_keys m)) as Hs by apply (StronglySorted_merge_sort _).
  induction Hs as [|x l Hs IH Hx]; [constructor|]. apply NoDup_cons in Hnd as [Hni Hnd].
  constructor; [by apply IH|]. rewrite Forall_forall in Hx. apply Forall_forall. intros y Hy.
  pose proof (Hx y Hy) as Hle. unfold bytes_le in Hle.
  destruct (bytes_compare x y) eqn:E; [|done|done].
  apply bytes_compare_eq in E as ->. done.
Qed.

Lemma filter_sorted {A} (R : relation A) (P : A → Prop) `{∀ x, Decision (P x)} l :
  StronglySorted R l → StronglySorted R (filter P l).
Proof.
  induction 1 as [|x l Hs IH Hx]; [constructor|]. rewrite filter_cons. case_decide; [|done].
  constructor; [done|]. rewrite Forall_forall in Hx. apply Forall_forall.
  intros y [_ Hy]%list_elem_of_filter. by apply Hx.
Qed.

#[export] Program Instance sample_rocks : RocksIter := {|
  rocks_seek m k := filter (λ x, bytes_le k x) (sorted_keys m);
  rocks_seek_for_prev m k := last (filter (λ x, bytes_le x k) (sorted_keys m));
|}.
Next Obligation. intros m k. apply filter_sorted, sorted_keys_sorted. Qed.
Next Obligation. intros m k x. rewrite list_elem_of_filter, sorted_keys_elem. tauto. Qed.
Next Obligation.
  intros m k x Hl. pose proof (last_Some_elem_of _ _ Hl) as Hin.
  apply list_elem_of_filter in Hin as [Hxk Hx]. split; [by apply sorted_keys_elem|].
  split; [done|]. intros y Hy Hyk.
  assert (y ∈ filter (λ x, bytes_le x k) (sorted_keys m)) as Hin
    by (apply list_elem_of_filter; split; [done|by apply sorted_keys_elem]).
  pose proof (filter_sorted _ (λ x, bytes_le x k) _ (sorted_keys_sorted m)) as Hs.
  apply last_Some in Hl as [l' Hl]. rewrite Hl in Hin, Hs.
  apply elem_of_app in Hin as [Hin| ->%list_elem_of_singleton].
  - pose proof (StronglySorted_app_1_elem_of _ _ _ _ _ Hs Hin (list_elem_of_here x [])) as E.
    unfold bytes_le. by rewrite E.
  - unfold bytes_le. by rewrite bytes_compare_refl.
Qed.
Next Obligation.
  intros m k Hl y Hy Hyk. apply last_None in Hl.
  assert (y ∈ filter (λ x, bytes_le x k) (sorted_keys m)) as Hin
    by (apply list_elem_of_filter; split; [done|by apply sorted_keys_elem]).
  rewrite Hl in Hin. by apply elem_of_nil in Hin.
Qed.
End SampleStore.

(** ** A layer-1 transaction as an environment *)
Module SampleTx.
Record Cell := mkCell { cell_capacity : Z; cell_lock : Script; cell_type : option Script; cell_data : bytes }.
#[export] Instance Cell_eq_dec : EqDecision Cell.
Proof. solve_decision. Defined.

Record Tx := mkTx {
  tx_inputs : list (Cell * Z);
  tx_outputs : list Cell;
  tx_deps : list Cell;
  tx_witness : WitnessArgs;
  tx_witness_bytes : bytes;
  tx_script : Script;
}.

Section Env.
Context (hash_script : Script → H256) (hash_data : bytes → H256) (tx : Tx).

Definition in_group (c : Cell) : bool :=
  bool_decide (cell_type c = Some (tx_script tx)) || bool_decide (cell_lock c = tx_script tx).
Definition cells (src : Source) : list Cell :=
  match src with
  | SrcInput => (tx_inputs tx).*1
  | SrcOutput => tx_outputs tx
  | SrcCellDep => tx_deps tx
  | SrcHeaderDep => []
  | SrcGroupInput => filter (λ c, in_group c = true) (tx_inputs tx).*1
  | SrcGroupOutput => filter (λ c, in_group c = true) (tx_outputs tx)
  end.
Definition field {A} (f : Cell → A) (i : nat) (src : Source) : outcome SysError A :=
  match cells src !! i with Some c => Ok (f c) | None => Err SysIndexOutOfBound end.
Definition sinces (src : Source) : list Z :=
  match src with
  | SrcInput => (tx_inputs tx).*2
  | SrcGroupInput => (filter (λ cs, in_group cs.1 = true) (tx_inputs tx)).*2
  | _ => []
  end.

Definition tx_env : CkbEnv := {|
  cell_count src := length (cells src);
  load_cell_capacity := field cell_capacity;
  load_cell_lock := field cell_lock;
  load_cell_lock_hash := field (λ c, hash_script (cell_lock c));
  load_cell_type := field cell_type;
  load_cell_type_hash := field (λ c, hash_script <$> cell_type c);
  load_cell_data := field cell_data;
  load_cell_data_hash := field (λ c, hash_data (cell_data c));
  load_script := Ok (tx_script tx);
  load_script_hash := Ok (hash_script (tx_script tx));
  load_input_since i src :=
    match sinces src !! i with Some s => Ok s | None => Err SysIndexOutOfBound end;
  load_witness_args i src :=
    match i with O => Ok (tx_witness tx) | _ => Err SysIndexOutOfBound end;
  load_cell_raw _ _ := field cell_data;
  load_cell_data_raw _ off := field (λ c, drop off (cell_data c));
  load_input_raw _ _ i src :=
    match cells src !! i with Some c => Ok (cell_data c) | None => Err SysIndexOutOfBound end;
  load_witness_raw _ _ i src :=
    match i with O => Ok (tx_witness_bytes tx) | _ => Err SysIndexOutOfBound end;
|}.
End Env.
End SampleTx.

(** ** A rollup of two blocks *)
Module SampleRollup.
Import SampleHash SampleCodec SampleSmt SampleTx.

Definition h (b : byte) : H256 := replicate 32 b.
#[export] Instance sample_cbmt : Cbmt := λ merge l,
  match l with [] => h256_zero | x :: l => foldl merge x l end.
#[export] Instance sample_smt_root : SmtRoot := root_of.

Definition rth : H256 := h xaa.
Definition rollup_script : Script := mkScript (h xab) 1 (h xac).
Definition enc_script (s : Script) : bytes := take 1 (code_hash s).
Definition script_hash_of (s : Script) : H256 :=
  if bool_decide (s = rollup_script) then rth else blake2b (enc_script s).
Definition block_hash (b : RawL2Block) : H256 := blake2b (block_bytes b).

Definition config : RollupConfig := {|
  l1_sudt_script_type_hash := h x01;
  custodian_script_type_hash := h x02;
  deposit_script_type_hash := h x03;
  withdrawal_script_type_hash := h x04;
  challenge_script_type_hash := h x05;
  stake_script_type_hash := h x06;
  l2_sudt_validator_script_type_hash := h x07;
  burn_lock_hash := blake2b (enc_script (mkScript (h x08) 1 []));
  required_staking_capacity := 100;
  challenge_maturity_blocks := 10;
  finality_blocks := 2;
  reward_burn_rate := 50;
  rc_chain_id := 1;
  allowed_eoa_type_hashes := [mkAllowedTypeHash 1 (h x09)];
  allowed_contract_type_hashes := [mkAllowedTypeHash 2 (h x1a)];
|}.

(** The locks of the rollup: the type hash of the rollup, then one byte the
    decoders recognise. *)
Definition lock_of (type_hash : H256) (tag : bytes) : Script := mkScript type_hash 1 (rth ++ tag).

(** *** The deposit and the account it creates *)
Definition eoa : Script := mkScript (h x09) 1 (rth ++ replicate 20 x0e).
Definition eoa_hash : H256 := blake2b (enc_script eoa).
Definition eoa_address : RegistryAddress := mkRegistryAddress 2 (replicate 20 x0e).
Definition owner_script : Script := mkScript (h x0b) 1 [].
Definition deposit_args : DepositLockArgs :=
  mkDepositLockArgs (blake2b (enc_script owner_script)) eoa 100 2.
Definition deposit_value : CellValue := mkCellValue h256_zero 0 400.
Definition deposit_request : DepositRequestCell :=
  mkDepositRequestCell 1 deposit_args deposit_value eoa eoa_hash.

(** The contract of account 1. *)
Definition contract : Script := mkScript (h x1a) 1 [].
Definition contract_hash : H256 := blake2b (enc_script contract).

Definition kv0 : list KVPair := [
  mkKVPair (build_account_field_key 1 GW_ACCOUNT_SCRIPT_HASH_TYPE) contract_hash;
  mkKVPair (supply_key 1) (h256_from_u256 5000);
  mkKVPair (balance_key 1 eoa_address) h256_zero;
  mkKVPair (build_script_hash_to_account_id_key eoa_hash) h256_zero;
  mkKVPair (build_account_field_key 3 GW_ACCOUNT_NONCE_TYPE) h256_zero;
  mkKVPair (build_account_field_key 3 GW_ACCOUNT_SCRIPT_HASH_TYPE) h256_zero;
  mkKVPair (hash_to_addr_key 2 eoa_hash) h256_zero;
  mkKVPair (addr_to_hash_key eoa_address) h256_zero].
Definition kv_map : tree := list_to_map ((λ p, (kv_k p, kv_v p)) <$> kv0).
Definition empty_proof : bytes := map_bytes ∅.
Definition account0 : AccountMerkleState := mkAccountMerkleState (root_of kv_map) 3.
Definition state0 : RefState := mkRefState kv_map 3.

(** *** Decoders *)
Definition tagged {A} (table : list (byte * A)) (bs : bytes) : option A :=
  match bs with [b] => snd <$> list_find (λ p, p.1 = b) table ≫= λ p, Some p.2 | _ => None end.

Definition custodian_args (hash : H256) (tp : Timepoint) : CustodianLockArgs :=
  mkCustodianLockArgs hash (Timepoint_full_value tp) deposit_args.
Definition withdrawal_args (hash : H256) : WithdrawalLockArgs :=
  mkWithdrawalLockArgs hash (Timepoint_full_value (Timestamp 1672000)) eoa_hash
    (blake2b (enc_script owner_script)).
Definition producer_script : Script := mkScript (h x0c) 1 [].
Definition producer_hash : H256 := blake2b (enc_script producer_script).
Definition stake_args : StakeLockArgs :=
  mkStakeLockArgs producer_hash (Timepoint_full_value (Timestamp 1400000)).
Definition challenge_args (hash : H256) (target_type : Z) : ChallengeLockArgs :=
  mkChallengeLockArgs (mkChallengeTarget hash 0 target_type) (mkScript (h x0f) 1 []).

Definition molecule (block1_hash : H256) (states : list (byte * GlobalState))
    (actions : list (byte * RollupAction)) : Molecule := {|
  enc_Script := enc_script;
  enc_RawL2Block b := block_bytes b;
  enc_L2Transaction t :=
    pack [z_bytes (tx_chain_id (tx_raw t)); z_bytes (tx_from_id (tx_raw t));
          z_bytes (tx_to_id (tx_raw t)); z_bytes (tx_nonce (tx_raw t)); tx_args (tx_raw t);
          tx_signature t];
  enc_WithdrawalRequest w := w_signature w;
  dec_Script := tagged [(x0f, owner_script)];
  dec_GlobalState := tagged states;
  dec_GlobalStateV0 _ := None;
  dec_RollupConfig := tagged [(x10, config)];
  dec_WitnessArgs bs := Some (mkWitnessArgs None None (Some bs));
  dec_RollupAction := tagged actions;
  dec_DepositLockArgs := tagged [(x01, deposit_args)];
  dec_CustodianLockArgs :=
    tagged [(x02, custodian_args block1_hash (Timestamp 1672000));
            (x05, custodian_args h256_zero (BlockNumber 0))];
  dec_WithdrawalLockArgs bs :=
    if decide (bs = zeros 104) then Some (withdrawal_args block1_hash) else None;
  dec_StakeLockArgs := tagged [(x03, stake_args)];
  dec_ChallengeLockArgs :=
    tagged [(x04, challenge_args block1_hash 0); (x06, challenge_args block1_hash 1)];
  dec_UnlockWithdrawalWitness :=
    tagged [(x40, UnlockWithdrawalViaFinalize);
            (x41, UnlockWithdrawalViaRevert (blake2b (enc_script (lock_of (h x02) []))))];
  dec_UnlockCustodianViaRevertWitness :=
    tagged [(x42, blake2b (enc_script (lock_of (h x03) [])))];
|}.
Definition base_molecule : Molecule := molecule h256_zero [] [].

(** *** Blocks *)
Definition account1 : AccountMerkleState :=
  let s := (check_layer2_deposit (H0 := base_molecule) rth config [deposit_request] state0).2 in
  mkAccountMerkleState (root_of (rs_kv s)) (rs_count s).
Definition checkpoint1 : H256 :=
  calculate_state_checkpoint_of (am_merkle_root account1) (am_count account1).
Definition genesis : RawL2Block := {|
  number := 0; block_producer := []; parent_block_hash := h256_zero;
  stake_cell_owner_lock_hash := h256_zero; timestamp := 1000000;
  prev_account := mkAccountMerkleState h256_zero 0; post_account := account0;
  state_checkpoint_list := [];
  submit_withdrawals := mkSubmitWithdrawals h256_zero 0;
  submit_transactions := mkSubmitTransactions h256_zero 0 h256_zero |}.
Definition tx1 : L2Transaction := mkL2Transaction (mkRawL2Transaction 1 3 1 0 []) [].
Definition block1 : RawL2Block := {|
  number := 1; block_producer := []; parent_block_hash := block_hash genesis;
  stake_cell_owner_lock_hash := producer_hash; timestamp := 1600000;
  prev_account := account0; post_account := account1;
  state_checkpoint_list := [checkpoint1];
  submit_withdrawals := mkSubmitWithdrawals h256_zero 0;
  submit_transactions :=
    mkSubmitTransactions (ckb_merkle_leaf_hash 0 (tx_witness_hash (H0 := base_molecule) tx1)) 1
      checkpoint1 |}.

Definition chain0 : tree := {[ compute_smt_key 0 := block_hash genesis ]}.
Definition chain1 : tree := <[ compute_smt_key 1 := block_hash block1 ]> chain0.
Definition reverted1 : tree := {[ block_hash block1 := h256_one ]}.
Definition l2block1 : L2Block := {|
  block_raw := block1; block_kv_state := kv0; block_kv_state_proof := empty_proof;
  block_transactions := [tx1]; block_proof := map_bytes chain0; block_withdrawals := [] |}.

(** *** Global states *)
Definition config_hash : H256 := blake2b [x10].
Definition gs0 : GlobalState := {|
  rollup_config_hash := config_hash; gs_account := account0;
  gs_block := mkBlockMerkleState (root_of chain0) 1; reverted_block_root := root_of ∅;
  tip_block_hash := block_hash genesis; tip_block_timestamp := 1000000;
  last_finalized_timepoint := Timepoint_full_value (Timestamp 1000000);
  gs_status := 0; gs_version := 2 |}.
Definition gs1 : GlobalState := {|
  rollup_config_hash := config_hash; gs_account := account1;
  gs_block := mkBlockMerkleState (root_of chain1) 2; reverted_block_root := root_of ∅;
  tip_block_hash := block_hash block1; tip_block_timestamp := 1600000;
  last_finalized_timepoint := Timepoint_full_value (Timestamp 1500000);
  gs_status := 0; gs_version := 2 |}.
Definition gs2 : GlobalState := with_status Halting gs1.
Definition gs3 : GlobalState := {|
  rollup_config_hash := config_hash; gs_account := account0;
  gs_block := mkBlockMerkleState (root_of chain0) 1; reverted_block_root := root_of reverted1;
  tip_block_hash := block_hash genesis; tip_block_timestamp := 1000000;
  last_finalized_timepoint := Timepoint_full_value (Timestamp 1600000);
  gs_status := 0; gs_version := 2 |}.

(** The reverted block is submitted once more, unchanged, and challenged. *)
Definition gs4 : GlobalState := {|
  rollup_config_hash := config_hash; gs_account := account1;
  gs_block := mkBlockMerkleState (root_of chain1) 2; reverted_block_root := root_of reverted1;
  tip_block_hash := block_hash block1; tip_block_timestamp := 1600000;
  last_finalized_timepoint := Timepoint_full_value (Timestamp 1650000);
  gs_status := 0; gs_version := 2 |}.

Definition gs5 : GlobalState := with_status Halting gs4.

(** *** Actions and transactions *)
Definition submit_args : SubmitBlockArgs := mkSubmitBlockArgs l2block1 [] [].
Definition resubmit_args : SubmitBlockArgs :=
  mkSubmitBlockArgs l2block1 [block_hash block1] empty_proof.
Definition challenge_witness : ChallengeWitness := mkChallengeWitness block1 (map_bytes chain0).
Definition revert_args : RevertArgs := mkRevertArgs [block1] (map_bytes chain0) empty_proof genesis.

#[export] Instance sample_molecule : Molecule :=
  molecule (block_hash block1)
    [(x20, gs0); (x21, gs1); (x22, gs2); (x23, gs3); (x24, gs4); (x25, gs5)]
    [(x30, RollupSubmitBlock submit_args); (x31, RollupEnterChallenge challenge_witness);
     (x32, RollupCancelChallenge); (x33, RollupRevert revert_args);
     (x34, RollupSubmitBlock resubmit_args)].

Definition plain_lock : Script := mkScript (h x0d) 1 [].
Definition rollup_cell (tag : byte) : Cell := mkCell 1000 plain_lock (Some rollup_script) [tag].
Definition config_cell : Cell := mkCell 1000 plain_lock None [x10].
Definition deposit_cell : Cell := mkCell 400 (lock_of (h x03) [x01]) None [].
Definition custodian_cell : Cell := mkCell 400 (lock_of (h x02) [x02]) None [].
Definition stake_cell : Cell := mkCell 200 (lock_of (h x06) [x03]) None [].
Definition challenge_cell : Cell := mkCell 50 (lock_of (h x05) [x04]) None [].
Definition burn_cell (capacity : Z) : Cell := mkCell capacity (mkScript (h x08) 1 []) None [].
Definition reward_cell : Cell := mkCell 150 (mkScript (h x0f) 1 []) None [].

Definition rollup_env (action : byte) (inputs : list (Cell * Z)) (outputs : list Cell) : CkbEnv :=
  tx_env script_hash_of (λ d, blake2b d) {|
    tx_inputs := inputs; tx_outputs := outputs; tx_deps := [config_cell];
    tx_witness := mkWitnessArgs None None (Some [action]); tx_witness_bytes := [action];
    tx_script := rollup_script |}.

Definition submit_env : CkbEnv :=
  rollup_env x30 [(rollup_cell x20, since_new_timestamp_seconds 2000); (deposit_cell, 0)]
    [rollup_cell x21; stake_cell; custodian_cell].
Definition enter_env : CkbEnv :=
  rollup_env x31 [(rollup_cell x21, 0)] [rollup_cell x22; challenge_cell].
Definition cancel_env : CkbEnv :=
  rollup_env x32 [(rollup_cell x22, 0); (challenge_cell, 0)] [rollup_cell x21; burn_cell 25].
Definition revert_env : CkbEnv :=
  rollup_env x33 [(rollup_cell x22, since_new_timestamp_seconds 1600); (stake_cell, 0);
                  (challenge_cell, SINCE_LOCK_TYPE_FLAG + 10)]
    [rollup_cell x23; reward_cell; burn_cell 100].

Definition resubmit_env : CkbEnv :=
  rollup_env x34 [(rollup_cell x23, since_new_timestamp_seconds 2300); (deposit_cell, 0)]
    [rollup_cell x24; stake_cell; custodian_cell].
Definition enter_again_env : CkbEnv :=
  rollup_env x31 [(rollup_cell x24, 0)] [rollup_cell x25; challenge_cell].

(** Transactions seen by a lock script. *)
Definition lock_env (script : Script) (unlock action : byte) (inputs : list (Cell * Z))
    (outputs deps : list Cell) : CkbEnv :=
  tx_env script_hash_of (λ d, blake2b d) {|
    tx_inputs := inputs; tx_outputs := outputs; tx_deps := config_cell :: deps;
    tx_witness := mkWitnessArgs (Some [unlock]) None None; tx_witness_bytes := [action];
    tx_script := script |}.

Definition withdrawal_lock : Script :=
  lock_of (h x04) (zeros 104 ++ be_bytes 4 1 ++ [x0f]).
Definition withdrawal_cell : Cell := mkCell 300 withdrawal_lock None [].
Definition owner_cell : Cell := mkCell 300 owner_script None [].

Definition withdraw_env : CkbEnv :=
  lock_env withdrawal_lock x40 x00 [(withdrawal_cell, since_new_timestamp_seconds 2000)] [owner_cell] [].
Definition take_back_env : CkbEnv :=
  lock_env withdrawal_lock x41 x34 [(rollup_cell x23, 0); (withdrawal_cell, 0)]
    [rollup_cell x24; mkCell 300 (lock_of (h x02) [x05]) None []] [].
Definition custodian_env : CkbEnv :=
  lock_env (lock_of (h x02) [x02]) x42 x34 [(rollup_cell x21, 0); (custodian_cell, 0)]
    [rollup_cell x24; deposit_cell] [].
Definition cancel_deposit_env : CkbEnv :=
  lock_env (lock_of (h x03) [x01]) x00 x00 [(deposit_cell, 150); (owner_cell, 0)] [owner_cell] [].
Definition unstake_env : CkbEnv :=
  lock_env (lock_of (h x06) [x03]) x00 x00
    [(stake_cell, 0); (mkCell 1 producer_script None [], 0)] [owner_cell] [rollup_cell x21].

Lemma submit_accepted : submit_block_verify (env := submit_env) rth config l2block1 gs0 gs1 = Ok tt.
Proof. vm_compute. reflexivity. Qed.
Lemma enter_accepted :
  verify_enter_challenge (env := enter_env) rth config challenge_witness gs1 gs2 = Ok tt.
Proof. vm_compute. reflexivity. Qed.
Lemma cancel_accepted : verify_cancel_challenge (env := cancel_env) rth config gs2 gs1 = Ok tt.
Proof. vm_compute. reflexivity. Qed.
Lemma revert_accepted : revert_verify (env := revert_env) rth config revert_args gs2 gs3 = Ok tt.
Proof. vm_compute. reflexivity. Qed.

(** The blocks of the sample run; their hashes do not collide. *)
Definition sample_known (b : RawL2Block) : Prop := b = genesis ∨ b = block1.

Lemma sample_block_hash_inj b b' :
  sample_known b → sample_known b' → raw_block_hash b = raw_block_hash b' → b = b'.
Proof. intros _ _ E%sample_hash_inj. by apply (inj block_bytes). Qed.
Lemma sample_block_hash_nonzero b : sample_known b → raw_block_hash b ≠ h256_zero.
Proof. intros _. apply sample_hash_nonzero. Qed.

Lemma block1_known : sample_known block1 ∧ u64 (number block1).
Proof. split; [by right|]. vm_compute. split; [discriminate|reflexivity]. Qed.
Lemma genesis_known : sample_known genesis ∧ u64 (number genesis).
Proof. split; [by left|]. vm_compute. split; [discriminate|reflexivity]. Qed.

(** The type script accepts the transactions. *)
Ltac sample_step env :=
  apply (rollup_step_intro _ _ _ env 1000);
  [reflexivity..|intros action [= <-]|vm_compute; reflexivity];
  repeat (apply Forall_cons_2; [first [exact block1_known|exact genesis_known]|]);
  apply Forall_nil_2.

Lemma step_submit : rollup_step sample_known gs0 gs1.
Proof. sample_step submit_env. Qed.
Lemma step_enter : rollup_step sample_known gs1 gs2.
Proof. sample_step enter_env. Qed.
Lemma step_cancel : rollup_step sample_known gs2 gs1.
Proof. sample_step cancel_env. Qed.
Lemma step_revert : rollup_step sample_known gs2 gs3.
Proof. sample_step revert_env. Qed.
Lemma step_resubmit : rollup_step sample_known gs3 gs4.
Proof. sample_step resubmit_env. Qed.
Lemma step_enter_again : rollup_step sample_known gs4 gs5.
Proof. sample_step enter_again_env. Qed.

End SampleRollup.
