(* ===== verification/Witnesses.v ===== *)
(** * Witnesses

    Each theorem with hypotheses is applied to a concrete input on which they
    hold, with the parameters of the development instantiated as in
    [Samples.v]. *)
From Stdlib Require Import ZArith Lia Strings.Byte.
From stdpp Require Import prelude list gmap countable sorting.
From S2P Require Import Prelude Bytes Types State StateSpec StateDB History SmtSerde.
From S2P Require Import Finality Ckb SubmitBlock Layer2Supply SubmitBlockProps RollupScript RollupProps RollupChain.
From S2P Require Import Locks Settlement Samples.
Local Open Scope Z_scope.

Import SampleHash SampleCodec SampleSmt SampleStore SampleTx SampleRollup.

(** A run whose outcome is computed and whose final state is not written out. *)
Lemma run_pair {A B} (p : A * B) a : p.1 = a → p = (a, p.2).
Proof. by destruct p; cbn; intros ->. Qed.

(** ** The state trait *)
Definition alice : RegistryAddress := mkRegistryAddress 2 (replicate 20 x0a).
Definition bob : RegistryAddress := mkRegistryAddress 2 (replicate 20 x0b).
Definition empty_state : RefState := mkRefState ∅ 0.
Definition transfer_ops : list sudt_op := [OpMint alice 10; OpBurn alice 4; OpMint bob 4].

Lemma sudt_ops_keep_backing_witness :
  sudt_backed 1 [alice; bob] (st_for transfer_ops (run_sudt_op 1) empty_state).2.
Proof.
  apply (sudt_ops_keep_backing 1 [alice; bob] transfer_ops empty_state).
  - split; [by vm_compute|]. split; [by apply (bool_decide_unpack _); vm_compute|].
    split; [repeat constructor; by vm_compute|]. apply sample_hash_ok.
  - repeat constructor; cbn; try lia; set_solver.
  - reflexivity.
  - apply run_pair. vm_compute. reflexivity.
Defined.

Lemma create_account_extends_table_witness :
  ∃ s', create_account (h x0a) empty_state = (Ok 0, s') ∧ accounts_ok s' [h x0a] ∧
    (∀ i, u32 i → nonce_at s' i = if decide (i = 0) then 0 else nonce_at empty_state i) ∧
    create_account (h x0a) s' = (Err StateError.DuplicatedScriptHash, s').
Proof.
  apply (create_account_extends_table empty_state [] (h x0a)).
  - by split.
  - done.
  - apply sample_hash_ok.
  - reflexivity.
Defined.

Lemma mapping_registry_address_bidirectional_witness :
  ∃ s', mapping_registry_address_to_script_hash alice (h x0a) empty_state = (Ok tt, s') ∧
    get_registry_address_by_script_hash 2 (h x0a) s' = (Ok (Some alice), s') ∧
    get_script_hash_by_registry_address alice s' = (Ok (Some (h x0a)), s') ∧
    (∀ b, is_eth_address b → mapping_registry_address_to_script_hash b (h x0a) s'
                             = (Err StateError.DuplicatedRegistryAddress, s')).
Proof.
  apply (mapping_registry_address_bidirectional empty_state alice (h x0a)); try reflexivity.
  - by split.
  - apply sample_hash_ok.
Defined.

(** ** The journaled database over an in-memory tree *)
#[local] Program Instance sample_map_iter : MapIter := {| map_iter A m := map_to_list m |}.
Next Obligation. done. Qed.

Definition mem0 : MemStateTree := mkMemStateTree {[ h x01 := h x02 ]} 3 ∅ ∅.
Definition db0 : StateDB MemStateTree := mkStateDB mem0 [] 0 [] no_dirty None (smt_root (mst_tree mem0)).
Definition db1 : StateDB MemStateTree := (snapshot db0).2.
Definition db_ops : list db_op :=
  [DbUpdateRaw (h x01) (h x03); DbSnapshot; DbSetAccountCount 4; DbInsertData (h x05) [];
   DbRevert 1; DbAppendLog (mkLogItem 1 0 []); DbInsertScript (h x06) eoa; DbGetRaw (h x01)].
Definition db2 : StateDB MemStateTree := (st_for db_ops run_db_op db1).2.

Lemma revert_restores_snapshot_witness :
  ∃ db3, revert 0 db2 = (Ok tt, db3) ∧
    db_state db3 = db_state db0 ∧ db_journal db3 = db_journal db0 ∧
    revisions db3 = revisions db0 ∧ db_dirty db3 = db_dirty db0 ∧
    last_state_root db3 = last_state_root db0.
Proof.
  apply (revert_restores_snapshot (λ _, eoa) (λ _, []) db0 db1 db2 0 db_ops).
  - split; [done|done|by split; [constructor|..]|by split].
  - reflexivity.
  - repeat constructor.
  - repeat constructor; intros i [=]; subst; lia.
  - unfold db2. apply run_pair. vm_compute. reflexivity.
Defined.

Lemma finalise_preserves_view_witness :
  ∃ db', finalise db2 = (Ok tt, db') ∧
    is_dirty db' = false ∧ view_ok (db_state db') ∧ db_view db' ≡ db_view db2 ∧
    last_state_root db' = view_root (db_state db') ∧
    calculate_root db' = (Ok (last_state_root db'), db').
Proof. apply (finalise_preserves_view db2); [done|]. intros Hd. vm_compute in Hd. discriminate. Defined.

Definition sample_calls : list trait_call :=
  [CallCreateAccount (h x0a); CallMintSudt 1 alice 5; CallBurnSudt 1 alice 9; CallGetSudtBalance 1 alice].
Lemma statedb_refines_reference_witness :
  ∃ out db' rs',
    run_calls sample_calls db0 = (out, db') ∧
    run_calls sample_calls (mkRefState (mst_tree mem0) 3) = (out, rs') ∧ db_rel db' rs' ∧
    (calculate_root db').1 = Err StateError.Store.
Proof.
  destruct (statedb_refines_reference sample_calls db0 (mkRefState (mst_tree mem0) 3) ltac:(done))
    as (out & db' & rs' & P1 & P2 & P3 & P4 & _).
  exists out, db', rs'. split; [exact P1|]. split; [exact P2|]. split; [exact P3|].
  assert (Hd : is_dirty (run_calls sample_calls db0).2 = true) by (vm_compute; reflexivity).
  rewrite P1 in Hd. cbn in Hd. rewrite Hd in P4. exact P4.
Defined.

(** ** History *)
Definition empty_db : HistoryDb := mkHistoryDb ∅ ∅ ∅ ∅.

Lemma empty_hist_ok : hist_ok empty_db ∅.
Proof.
  split.
  - intros b k v Hl. by rewrite lookup_empty in Hl.
  - intros key v. cbn. rewrite lookup_empty. split; [done|]. intros (b & k & _ & Hl). by rewrite lookup_empty in Hl.
  - intros key. cbn. rewrite lookup_empty. split; [by intros []|].
    intros (b & k & _ & [v Hl]). by rewrite lookup_empty in Hl.
Qed.

(** Blocks 1 and 3 wrote the key, so at block 2 its value is the one of block 1. *)
Definition hist_db : HistoryDb :=
  record_block_state 3 (h x01) (h x03) (record_block_state 1 (h x01) (h x02) empty_db).
Definition hist_map : hist := <[(3, h x01) := h x03]> (<[(1, h x01) := h x02]> ∅).
Lemma hist_db_ok : hist_ok hist_db hist_map.
Proof. unfold hist_db, hist_map. repeat apply record_hist_ok; try done; apply empty_hist_ok. Qed.

Lemma get_history_state_latest_witness :
  get_history_state (E:=StateError.t) 2 (h x01) hist_db = Ok (Some (h x02)) ∧
  is_latest hist_map 2 (h x01) (Some (h x02)).
Proof.
  assert (u64 2) as H2 by (by vm_compute).
  assert (get_history_state (E:=StateError.t) 2 (h x01) hist_db = Ok (Some (h x02))) as E
    by (vm_compute; reflexivity).
  split; [exact E|].
  exact (proj1 (get_history_state_latest hist_db hist_map 2 (h x01) (Some (h x02))
                  hist_db_ok H2 eq_refl) E).
Defined.

Definition hs0 : HistoryState := mkHistoryState 3 ∅ empty_db (RWConfig_attach_block 1).
Definition block_writes : list (H256 * H256) := [(h x01, h x02); (h x03, h x04); (h x01, h x05)].
Definition hs1 : HistoryState := (st_for block_writes (λ '(k, v), update_raw k v) hs0).2.

Lemma detach_undoes_attach_witness :
  ∃ s2, detach_block_state 1
          (mkHistoryState (hs_account_count hs1) (hs_tree hs1) (hs_db hs1) RWConfig_detach_block)
        = (Ok tt, s2) ∧
    (∀ k, tree_get (hs_tree s2) k = tree_get (hs_tree hs0) k) ∧
    hist_ok (hs_db s2) ∅ ∧ hs_account_count s2 = hs_account_count hs0.
Proof.
  apply (detach_undoes_attach 1 hs0 hs1 ∅ block_writes).
  - by vm_compute.
  - lia.
  - done.
  - exact empty_hist_ok.
  - intros k. apply lookup_empty.
  - intros k [v|] _ Hl; [|done]. destruct Hl as (b & _ & Hl & _). by rewrite lookup_empty in Hl.
  - repeat constructor.
  - unfold hs1. apply run_pair. vm_compute. reflexivity.
Defined.

(** ** Finality *)
Lemma offchain_finality_matches_onchain_witness :
  compatible_is_finalized (compatible_from_global_state gs1 (finality_blocks config))
    (Timestamp 1400000)
  = is_finalized config gs1 (Timestamp 1400000)
    || bool_decide (Timestamp 1400000 = BlockNumber 0 ∧ tip_number gs1 < finality_blocks config).
Proof.
  apply (offchain_finality_matches_onchain config gs1 (Timestamp 1400000)); by vm_compute.
Defined.

(** Blocks one per 100 seconds, with a finality window of 36 seconds. *)
Definition range_config : RollupConfig := {|
  l1_sudt_script_type_hash := []; custodian_script_type_hash := []; deposit_script_type_hash := [];
  withdrawal_script_type_hash := []; challenge_script_type_hash := []; stake_script_type_hash := [];
  l2_sudt_validator_script_type_hash := []; burn_lock_hash := []; required_staking_capacity := 0;
  challenge_maturity_blocks := 0; finality_blocks := 1; reward_burn_rate := 0; rc_chain_id := 1;
  allowed_eoa_type_hashes := []; allowed_contract_type_hashes := [] |}.
Definition range_block (n : Z) : L2Block := {|
  block_raw := {| number := n; block_producer := []; parent_block_hash := [byte_of_Z (n - 1)];
    stake_cell_owner_lock_hash := []; timestamp := 100000 * n;
    prev_account := mkAccountMerkleState [] 0; post_account := mkAccountMerkleState [] 0;
    state_checkpoint_list := []; submit_withdrawals := mkSubmitWithdrawals [] 0;
    submit_transactions := mkSubmitTransactions [] 0 [] |};
  block_kv_state := []; block_kv_state_proof := []; block_transactions := []; block_proof := [];
  block_withdrawals := [] |}.
Definition range_state (n finalized : Z) : GlobalState := {|
  rollup_config_hash := []; gs_account := mkAccountMerkleState [] 0;
  gs_block := mkBlockMerkleState [] (n + 1); reverted_block_root := []; tip_block_hash := [];
  tip_block_timestamp := 100000 * n;
  last_finalized_timepoint := Timepoint_full_value (Timestamp finalized);
  gs_status := 0; gs_version := 2 |}.
Definition range_db : ChainDb := {|
  get_block_hash_by_number n := Some [byte_of_Z n];
  get_block hash := match hash with [b] => Some (range_block (Z_of_byte b)) | _ => None end;
  get_block_post_global_state hash :=
    if decide (hash = raw_block_hash (block_raw (range_block 3))) then Some (range_state 3 150000)
    else if decide (hash = raw_block_hash (block_raw (range_block 4))) then Some (range_state 4 250000)
    else None |}.
Definition range_fork : ForkConfig := mkForkConfig None (Some 1).

Lemma calc_finalizing_range_exact_witness :
  ∃ a b, calc_finalizing_range range_config range_fork range_db (range_block 4) = Some (Ok (a, b)) ∧
    ∀ X, 1 ≤ X < 3 →
      (a ≤ X < b ↔
       block_final range_config (λ n, 100000 * n)
         (compatible_from_global_state (range_state 3 150000) 1) X = false ∧
       block_final range_config (λ n, 100000 * n)
         (compatible_from_global_state (range_state 4 250000) 1) X = true).
Proof.
  apply (calc_finalizing_range_exact range_config range_fork range_db 1 (λ n, 100000 * n)
           (range_block 3) (range_block 4) (range_state 3 150000) (range_state 4 250000)).
  - split; [done|by vm_compute| | |].
    + intros n Hn. eexists _, _. split; [reflexivity|]. split; [reflexivity|]. cbn in *.
      rewrite Z_of_byte_of_Z, Z.mod_small by lia. done.
    + intros n m Hnm Hm. lia.
    + intros n Hn. cbn in *. change (finality_time_in_ms range_config) with 36000. lia.
  - lia.
  - cbn. lia.
  - cbn. lia.
  - cbn. lia.
  - vm_compute. reflexivity.
  - reflexivity.
  - split; [vm_compute; reflexivity|by vm_compute].
  - split; [vm_compute; reflexivity|by vm_compute].
Defined.

(** ** Submitting a block *)
Section Submit.
#[local] Existing Instance submit_env.

Lemma submit_block_conserves_assets_witness :
  ∃ cin cout win wout,
    collect_custodian_locks rth config SrcInput = Ok cin ∧
    collect_custodian_locks rth config SrcOutput = Ok cout ∧
    collect_withdrawal_locks rth config SrcInput = Ok win ∧
    collect_withdrawal_locks rth config SrcOutput = Ok wout ∧
    ∀ k,
      total_asset k (cc_value <$> finalized_custodians config gs0 cin)
        + total_asset k (wc_value <$> win)
      = total_asset k (cc_value <$> finalized_custodians config gs0 cout)
        + total_asset k (wc_value <$> wout).
Proof. exact (submit_block_conserves_assets rth config l2block1 gs0 gs1 submit_accepted). Defined.

Lemma submit_block_withdrawals_exact_witness :
  ∃ wout requests,
    collect_withdrawal_locks rth config SrcOutput = Ok wout ∧
    requests ≡ₚ block_withdrawals l2block1 ∧
    Forall2 (λ c r,
      w_account_script_hash (w_raw r) = wl_account_script_hash (wc_args c) ∧
      w_sudt_script_hash (w_raw r) = cv_sudt_script_hash (wc_value c) ∧
      w_amount (w_raw r) = cv_amount (wc_value c) ∧
      w_capacity (w_raw r) = cv_capacity (wc_value c)) wout requests ∧
    Forall (λ c, wl_withdrawal_block_hash (wc_args c) = raw_block_hash (block_raw l2block1) ∧
                 wl_withdrawal_finalized_timepoint (wc_args c)
                 = Timepoint_full_value (block_timepoint config gs1 (block_raw l2block1))) wout.
Proof. exact (submit_block_withdrawals_exact rth config l2block1 gs0 gs1 submit_accepted). Defined.

Lemma submit_block_deposits_exact_witness :
  ∃ cin cout din dout deposits reverted,
    collect_custodian_locks rth config SrcInput = Ok cin ∧
    collect_custodian_locks rth config SrcOutput = Ok cout ∧
    collect_deposit_locks rth config SrcInput = Ok din ∧
    collect_deposit_locks rth config SrcOutput = Ok dout ∧
    deposits ≡ₚ din ∧ reverted ≡ₚ dout ∧
    Forall2 (λ c d, cl_deposit_lock_args (cc_args c) = dc_args d ∧ cc_value c = dc_value d ∧
                    cl_deposit_block_hash (cc_args c) = raw_block_hash (block_raw l2block1) ∧
                    cl_deposit_finalized_timepoint (cc_args c)
                    = Timepoint_full_value (block_timepoint config gs1 (block_raw l2block1)))
      (unfinalized_custodians config gs0 cout) deposits ∧
    Forall2 (λ c d, cl_deposit_lock_args (cc_args c) = dc_args d ∧ cc_value c = dc_value d)
      (unfinalized_custodians config gs0 cin) reverted.
Proof. exact (submit_block_deposits_exact rth config l2block1 gs0 gs1 submit_accepted). Defined.

Lemma submit_block_post_state_witness :
  number block1 = bm_count (gs_block gs0) ∧ tip_block_hash gs1 = raw_block_hash block1.
Proof.
  pose proof (submit_block_post_state rth config l2block1 gs0 gs1 submit_accepted) as P.
  cbv zeta in P. destruct P as (P1 & _ & _ & P4 & _). split; [exact P1|exact P4].
Defined.

(** The sample block deposits 400 shannons, 4 * 10^12 in layer-2 units. *)
Lemma submit_block_ckb_supply_witness :
  ∃ rs1 rs2,
    check_layer2_withdrawal rth config l2block1 state0 = (Ok tt, rs1) ∧
    check_layer2_deposit rth config [deposit_request] rs1 = (Ok tt, rs2) ∧
    ckb_supply rs2 = ckb_supply state0 - 0 + sum_over (λ d, ckb_of (cv_capacity (dc_value d))) [deposit_request].
Proof.
  apply (submit_block_ckb_supply rth config l2block1 gs0 gs1 [deposit_request] state0).
  - exact submit_accepted.
  - vm_compute. reflexivity.
  - split; [|vm_compute; reflexivity].
    repeat (apply Forall_cons_2; [vm_compute; reflexivity|]). apply Forall_nil_2.
  - by vm_compute.
  - split; [apply Forall_nil_2|]. apply Forall_singleton. cbn. lia.
  - apply sample_collision_free.
  - intros x Hx. by apply elem_of_nil in Hx.
Defined.

Lemma submit_block_time_rules_witness :
  let finalized := Timepoint_from_full_value (last_finalized_timepoint gs1) in
  (gs_version gs1 = 1 ∧
     finalized = BlockNumber (saturating_sub (number block1) (finality_blocks config)) ∧
     ∃ l1_time, absolute_timestamp_since 0 SrcGroupInput = Ok l1_time ∧ timestamp block1 < l1_time) ∨
  (2 ≤ gs_version gs1 ∧
     ∃ backbone l1_time, finalized = Timestamp backbone ∧
       absolute_timestamp_since 0 SrcGroupInput = Ok l1_time ∧ backbone < l1_time ∧
       backbone - BACKBONE_BIAS ≤ timestamp block1 ≤ backbone + BACKBONE_BIAS).
Proof.
  apply (submit_block_time_rules rth config l2block1 gs0 gs1 submit_accepted); cbn; lia.
Defined.
End Submit.

(** ** Challenges and reverts *)
Lemma enter_challenge_targets_unfinalized_block_witness :
  gs_status gs1 = Status_to_u8 Running ∧
  is_finalized config gs2 (block_timepoint config gs2 block1) = false.
Proof.
  pose proof (enter_challenge_targets_unfinalized_block (H1 := enter_env) rth config
                challenge_witness gs1 gs2 enter_accepted) as P.
  cbv zeta in P. destruct P as (P1 & _ & _ & _ & _ & P2). split; [exact P1|exact P2].
Defined.

Lemma cancel_challenge_restores_state_witness :
  gs1 = gs1 ∧
  ∃ cell burned,
    find_challenge_cell (env := cancel_env) rth config SrcInput = Ok (Some cell) ∧
    find_challenge_cell (env := cancel_env) rth config SrcOutput = Ok None ∧
    burned_capacity (env := cancel_env) config = Ok burned ∧
    saturating_mul 128 (cv_capacity (chc_value cell)) (reward_burn_rate config) / 100 ≤ burned.
Proof.
  exact (cancel_challenge_restores_state enter_env cancel_env rth config challenge_witness gs1 gs2 gs1
           enter_accepted cancel_accepted).
Defined.

Definition sample_stakes : list StakeCell := [mkStakeCell 1 stake_args 200].
Lemma revert_pays_whole_stake_witness :
  collect_stake_cells (env := revert_env) rth config SrcOutput = Ok [] ∧
  (∀ x, x ∈ [producer_hash] ↔ x ∈ [producer_hash]).
Proof.
  assert (collect_stake_cells (env := revert_env) rth config SrcInput = Ok sample_stakes) as Hs
    by (vm_compute; reflexivity).
  assert (0 ≤ sum_over sc_capacity sample_stakes * reward_burn_rate config < 2 ^ 128) as Hb
    by (cbn; lia).
  assert (0 ≤ sum_over sc_capacity sample_stakes) as H0 by (cbn; lia).
  destruct (revert_pays_whole_stake (H1 := revert_env) rth config revert_args gs2 gs3
              sample_stakes revert_accepted Hs Hb H0) as (P1 & P2 & _).
  split; [exact P1|exact P2].
Defined.

Definition link (n : Z) (parent : H256) : RawL2Block := {|
  number := n; block_producer := []; parent_block_hash := parent;
  stake_cell_owner_lock_hash := []; timestamp := n;
  prev_account := mkAccountMerkleState [] 0; post_account := mkAccountMerkleState [] 0;
  state_checkpoint_list := []; submit_withdrawals := mkSubmitWithdrawals [] 0;
  submit_transactions := mkSubmitTransactions [] 0 [] |}.
Definition link1 : RawL2Block := link 1 h256_zero.
Definition link2 : RawL2Block := link 2 (raw_block_hash link1).
Definition link3 : RawL2Block := link 3 (raw_block_hash link2).
Lemma revert_rejects_three_linked_blocks_witness :
  ¬ revert_verify (env := revert_env) rth config (mkRevertArgs [link1; link2; link3] [] [] link1) gs2 gs3
    = Ok tt.
Proof.
  apply (revert_rejects_three_linked_blocks (H1 := revert_env)).
  - intros [|[|[|i]]] b b' Hb Hb'; cbn [lookup list_lookup rv_reverted_blocks] in Hb, Hb';
      [| |discriminate|discriminate];
      apply (inj Some) in Hb; apply (inj Some) in Hb'; rewrite <- Hb, <- Hb'; reflexivity.
  - apply (bool_decide_unpack _). vm_compute. exact I.
  - cbn. lia.
Defined.

(** ** The chain *)
Definition rollup0 : Rollup := mkRollup [genesis] ∅ Running.

Lemma leaf_singleton k v k' : leaf {[ k := v ]} k' = if decide (k = k') then v else h256_zero.
Proof.
  unfold leaf. case_decide as E; [rewrite E; by rewrite lookup_singleton_eq|].
  by rewrite lookup_singleton_ne.
Qed.

Lemma chain0_leaf i : u64 i → leaf chain0 (compute_smt_key i) = block_hash_at [genesis] i.
Proof.
  intros Hi. unfold chain0. rewrite leaf_singleton. case_decide as E.
  - apply compute_smt_key_inj in E as <-; [reflexivity|by vm_compute|done].
  - unfold block_hash_at. rewrite lookup_ge_None_2; [reflexivity|]. cbn [length].
    assert (i ≠ 0) by (intros ->; by apply E). unfold in_width in Hi. lia.
Qed.

Lemma gs0_stands_for : stands_for sample_known gs0 rollup0.
Proof.
  exists (leaf chain0), (λ _, h256_zero), genesis. split; cbn [chain reverted r_status rollup0].
  - split.
    + intros [|i] b Hb; [by apply (inj Some) in Hb as <-|done].
    + intros b Hb. by apply (inj Some) in Hb as <-.
    + intros i b b' Hb Hb'. by destruct i.
  - apply Forall_singleton. by left.
  - exists chain0. by split.
  - exact chain0_leaf.
  - by exists ∅.
  - intros x. unfold reverted_leaf. by rewrite decide_False by set_solver.
  - reflexivity.
  - by vm_compute.
  - reflexivity.
  - reflexivity.
  - reflexivity.
  - reflexivity.
  - apply Forall_singleton. cbn. lia.
  - reflexivity.
Qed.

Lemma rollup_refines_chain_witness :
  ∃ a', rtc chain_step rollup0 a' ∧ stands_for sample_known gs3 a'.
Proof.
  apply (rollup_refines_chain sample_known sample_block_hash_inj sample_block_hash_nonzero gs0 gs3 rollup0).
  - eapply rtc_l; [exact step_submit|]. eapply rtc_l; [exact step_enter|].
    eapply rtc_l; [exact step_revert|]. apply rtc_refl.
  - exact gs0_stands_for.
Defined.

Lemma rollup_reachable_invariants_witness :
  rollup_config_hash gs2 = rollup_config_hash gs0 ∧
  ∃ a' tip, stands_for sample_known gs2 a' ∧ linked (chain a') ∧ last (chain a') = Some tip ∧
    gs_account gs2 = post_account tip.
Proof.
  assert (tc (rollup_step sample_known) gs0 gs2) as Hs
    by (eapply tc_l; [exact step_submit|apply tc_once; exact step_enter]).
  destruct (rollup_reachable_invariants sample_known sample_block_hash_inj sample_block_hash_nonzero
              gs0 gs2 rollup0 Hs gs0_stands_for)
    as (P1 & _ & _ & a' & tip & P2 & P3 & P4 & P5 & _).
  split; [exact P1|]. exists a', tip. split; [exact P2|]. split; [exact P3|].
  split; [exact P4|exact P5].
Defined.

(** ** Lock scripts *)
Lemma withdrawal_lock_pays_owner_witness :
  (∀ i, (i < cell_count (CkbEnv := withdraw_env) SrcInput)%nat →
     load_cell_lock_hash (CkbEnv := withdraw_env) i SrcInput = Ok (script_hash withdrawal_lock) →
     same_content (env := withdraw_env) i SrcInput i ∧
     load_cell_lock_hash (CkbEnv := withdraw_env) i SrcOutput = Ok (script_hash owner_script)) ∨
  ∃ i, search_lock_hash (env := withdraw_env) (script_hash owner_script) SrcInput = Ok (Some i).
Proof.
  apply (withdrawal_lock_pays_owner (env := withdraw_env) withdrawal_lock
           (mkWitnessArgs (Some [x40]) None None) [x40] (withdrawal_args (block_hash block1))
           owner_script (script_hash withdrawal_lock)); try reflexivity.
  intros [|i] Hi; [reflexivity|]. cbn in Hi. lia.
Defined.

Lemma withdrawal_lock_revert_returns_custody_witness :
  ∃ index sb, search_rollup_cell (env := take_back_env) (E:=GwError.t) rth SrcOutput = Ok (Some index) ∧
    parse_rollup_action (env := take_back_env) index SrcOutput = Ok (RollupSubmitBlock sb) ∧
    block_hash block1 ∈ sb_reverted_block_hashes sb.
Proof.
  apply (withdrawal_lock_revert_returns_custody (env := take_back_env) withdrawal_lock
           (mkWitnessArgs (Some [x41]) None None) [x41] (withdrawal_args (block_hash block1))
           owner_script (blake2b (enc_script (lock_of (h x02) [])))); reflexivity.
Defined.

Lemma custodian_lock_guards_custody_witness :
  ∃ gs cfg, search_rollup_state (env := custodian_env) rth SrcInput = Ok (Some gs) ∧
    load_rollup_config (env := custodian_env) (rollup_config_hash gs) = Ok cfg.
Proof.
  assert (custodian_lock_main (env := custodian_env) = Ok tt) as Hrun by (vm_compute; reflexivity).
  assert (dec_CustodianLockArgs (drop 32 (args (lock_of (h x02) [x02])))
          = Some (custodian_args (block_hash block1) (Timestamp 1672000))) as Hd by reflexivity.
  destruct (custodian_lock_guards_custody (env := custodian_env) (lock_of (h x02) [x02])
              (custodian_args (block_hash block1) (Timestamp 1672000)) eq_refl Hd Hrun)
    as (gs & cfg & P1 & P2 & _).
  exists gs, cfg. split; [exact P1|exact P2].
Defined.

Lemma deposit_lock_cancel_rules_witness :
  since_flags 150 = since_flags 100 ∧
  Z.land 100 SINCE_VALUE_MASK ≤ Z.land 150 SINCE_VALUE_MASK ∧
  ∃ i, search_lock_hash (env := cancel_deposit_env) (script_hash owner_script) SrcInput = Ok (Some i).
Proof.
  apply (deposit_lock_cancel_rules (env := cancel_deposit_env) (lock_of (h x03) [x01]) deposit_args 150);
    try reflexivity.
  - split; [lia|reflexivity].
  - split; [cbn; lia|reflexivity].
Defined.

Lemma stake_lock_release_rules_witness :
  ∃ gs cfg i,
    search_rollup_state (env := unstake_env) rth SrcCellDep = Ok (Some gs) ∧
    load_rollup_config (env := unstake_env) (rollup_config_hash gs) = Ok cfg ∧
    is_finalized cfg gs (Timepoint_from_full_value (sl_stake_finalized_timepoint stake_args)) = true ∧
    search_lock_hash (env := unstake_env) producer_hash SrcInput = Ok (Some i).
Proof.
  apply (stake_lock_release_rules (env := unstake_env) (lock_of (h x06) [x03]) stake_args);
    reflexivity.
Defined.

(** ** Settlement *)
Definition rollup3 : Rollup := mkRollup [genesis] {[ block_hash block1 ]} Running.

Lemma gs3_stands_for : stands_for sample_known gs3 rollup3.
Proof.
  exists (leaf chain0), (leaf reverted1), genesis. split; cbn [chain reverted r_status rollup3].
  - split.
    + intros [|i] b Hb; [by apply (inj Some) in Hb as <-|done].
    + intros b Hb. by apply (inj Some) in Hb as <-.
    + intros i b b' Hb Hb'. by destruct i.
  - apply Forall_singleton. by left.
  - exists chain0. by split.
  - exact chain0_leaf.
  - exists reverted1. by split.
  - intros x. unfold reverted1, reverted_leaf. rewrite leaf_singleton.
    destruct (decide (block_hash block1 = x)) as [E|E].
    + rewrite decide_True; [reflexivity|]. rewrite E. by apply elem_of_singleton.
    + rewrite decide_False; [reflexivity|]. rewrite elem_of_singleton. intros ->. by apply E.
  - reflexivity.
  - by vm_compute.
  - reflexivity.
  - reflexivity.
  - reflexivity.
  - reflexivity.
  - apply Forall_singleton. cbn. lia.
  - reflexivity.
Qed.

Lemma reverted_claim_is_genuine_witness : block_hash block1 ∈ reverted rollup3.
Proof.
  apply (reverted_claim_is_genuine sample_known resubmit_env take_back_env 1000 rth (block_hash block1) gs3 rollup3).
  - exact gs3_stands_for.
  - reflexivity.
  - reflexivity.
  - vm_compute. reflexivity.
  - intros i Hi. assert (i = 0%nat) as -> by (vm_compute in Hi; congruence). reflexivity.
  - vm_compute. reflexivity.
Defined.

(** The reverted block was submitted again and challenged again; it cannot be
    reverted a second time. *)
Lemma reverted_block_not_reverted_again_witness :
  ¬ revert_verify (env := revert_env) rth config revert_args gs5 gs3 = Ok tt.
Proof.
  destruct (rollup_step_refines sample_known sample_block_hash_inj sample_block_hash_nonzero _ _ _
              step_resubmit gs3_stands_for) as (a4 & S4 & R4).
  destruct (rollup_step_refines sample_known sample_block_hash_inj sample_block_hash_nonzero _ _ _
              step_enter_again R4) as (a5 & S5 & R5).
  apply (reverted_block_not_reverted_again (env := revert_env) sample_known rth config revert_args gs5 gs3 a5 block1).
  - exact R5.
  - refine (elem_of_weaken _ _ _ (elem_of_weaken _ _ _ _ (proj2 (chain_step_local _ _ S4)))
              (proj2 (chain_step_local _ _ S5))).
    exact (proj2 (elem_of_singleton (C := gset H256) (block_hash block1) (block_hash block1)) eq_refl).
  - apply list_elem_of_singleton. reflexivity.
Defined.
