(* ===== verification/SignatureWitnesses.v ===== *)
(** * Signatures and challenges on concrete inputs

    Executable instances of the parameters of [Eip712] and [ChallengeLock], and
    the theorems of those files applied to two transactions, two withdrawals, two
    polyjuice transactions and the sample block of [Samples]. *)
From Stdlib Require Import ZArith Lia Strings.Byte.
From stdpp Require Import prelude list gmap countable sorting.
From S2P Require Import Prelude Bytes Types State StateSpec Finality Ckb Eip712.
From S2P Require Import SubmitBlock Layer2Supply SubmitBlockProps RollupScript Locks ChallengeLock Samples.
Local Open Scope Z_scope.
Import SampleHash SampleCodec SampleSmt SampleTx SampleRollup.

(** ** Parameters *)

(** A polynomial hash with 32-byte results. *)
Definition poly_hash (bs : bytes) : H256 :=
  le_bytes 32 (foldl (λ a b, (a * 257 + Z_of_byte b + 1) mod (2 ^ 61 - 1)) 7 bs).
#[export] Instance sample_keccak : Keccak256 := poly_hash.

Lemma poly_hash_length x : length (poly_hash x) = 32%nat.
Proof. apply le_bytes_length. Qed.

#[export] Instance sample_abi : EthAbi := {|
  abi_uint := be_bytes 32;
  abi_address a := zeros 12 ++ a;
|}.
#[export] Instance sample_abi_laws : EthAbiLaws.
Proof. by split. Qed.

Definition rlp_item (i : RlpItem) : bytes :=
  match i with RlpUint x => z_bytes x | RlpBytes bs => bs end.
#[export] Instance sample_rlp : Rlp := λ l, pack (rlp_item <$> l).
#[export] Instance sample_rlp_laws : RlpLaws.
Proof.
  intros l l' Hk E. apply (inj pack) in E. induction Hk as [|i j l l' Hij Hl IH]; [done|].
  cbn in E. injection E as Ei El. rewrite IH by done. f_equal.
  destruct i, j; try done; cbn in Ei; [f_equal; by apply (inj z_bytes)|by subst].
Qed.

(** A proof without lemmas: the item is the root. *)
#[export] Instance sample_cbmt_proof : CbmtProof := λ _ _ lemmas root leaves,
  bool_decide (lemmas = []) && bool_decide (leaves = [root]).
#[export] Instance sample_cbmt_laws : CbmtLaws.
Proof.
  intros indices lemmas leaves x Hne Hv. apply andb_true_iff in Hv as [_ Hv].
  apply bool_decide_eq_true in Hv. injection Hv as ->.
  destruct leaves as [|y leaves]; [done|]. clear Hne. unfold cbmt_root, sample_cbmt.
  assert (∀ all acc l, (∀ z, z ∈ l → z ∈ all) → cbmt_node merge_h256 all acc →
    cbmt_node merge_h256 all (foldl merge_h256 acc l)) as Hgen.
  { intros all acc l. revert acc. induction l as [|z l IH]; intros acc Hin Hacc; [done|].
    apply IH; [intros; apply Hin; by right|]. apply node_inner; [done|]. apply node_leaf, Hin. left. }
  apply Hgen; [intros; by right|]. apply node_leaf. left.
Qed.

(** Freedom from collisions of a concrete list. *)
Definition no_collision (l : list bytes) : bool :=
  let hashed := (λ x, (x, keccak256 x)) <$> l in
  forallb (λ p, forallb (λ q, negb (bool_decide (p.2 = q.2)) || bool_decide (p.1 = q.1)) hashed) hashed.
Lemma no_collision_ok l : no_collision l = true → keccak_ok l.
Proof.
  intros Hl. split; [exact poly_hash_length|]. intros x y Hx Hy E.
  unfold no_collision in Hl. rewrite forallb_forall in Hl.
  assert (∀ z, z ∈ l → In (z, keccak256 z) ((λ x, (x, keccak256 x)) <$> l)) as Hin.
  { intros z Hz. apply list_elem_of_In, list_elem_of_fmap. by exists z. }
  specialize (Hl _ (Hin x Hx)). rewrite forallb_forall in Hl. specialize (Hl _ (Hin y Hy)).
  apply orb_true_iff in Hl as [Hl|Hl].
  - apply negb_true_iff, bool_decide_eq_false in Hl. done.
  - by apply bool_decide_eq_true in Hl.
Qed.

(** ** Messages *)

(** Account ids are not part of the message, the accounts' addresses are. *)
Definition raw_a : RawL2Transaction := mkRawL2Transaction 1 3 4 7 [x01; x02].
Definition raw_b : RawL2Transaction := mkRawL2Transaction 1 9 8 7 [x01; x02].

Lemma tx_message_binds_transaction_witness :
  tx_chain_id raw_a = tx_chain_id raw_b ∧ tx_nonce raw_a = tx_nonce raw_b ∧
  tx_args raw_a = tx_args raw_b ∧ eoa_address = eoa_address ∧ h x05 = h x05.
Proof.
  apply (tx_message_binds_transaction raw_a raw_b eoa_address eoa_address (h x05) (h x05)
           (match tx_eip712_message raw_a eoa_address (h x05) with Ok m => m | _ => [] end)).
  - apply no_collision_ok. vm_compute. reflexivity.
  - cbn. unfold in_width. lia.
  - cbn. unfold in_width. lia.
  - cbn. unfold in_width. lia.
  - cbn. unfold in_width. lia.
  - reflexivity.
  - reflexivity.
  - vm_compute. reflexivity.
  - vm_compute. reflexivity.
Defined.

(** The account's script hash is not part of the message of a withdrawal. *)
Definition raw_w (account : H256) : RawWithdrawalRequest :=
  mkRawWithdrawalRequest 5 1 40000 12 (h x07) account 2 (h x08) 3.
Definition owner_w : Script := mkScript (h x0b) 1 [x33].

Lemma withdrawal_message_binds_withdrawal_witness :
  eoa_address = eoa_address ∧ owner_w = owner_w ∧ w_nonce (raw_w (h x01)) = w_nonce (raw_w (h x02)) ∧
  w_chain_id (raw_w (h x01)) = w_chain_id (raw_w (h x02)) ∧
  w_fee (raw_w (h x01)) = w_fee (raw_w (h x02)) ∧
  w_capacity (raw_w (h x01)) = w_capacity (raw_w (h x02)) ∧
  w_amount (raw_w (h x01)) = w_amount (raw_w (h x02)) ∧
  w_sudt_script_hash (raw_w (h x01)) = w_sudt_script_hash (raw_w (h x02)).
Proof.
  apply (withdrawal_message_binds_withdrawal (raw_w (h x01)) (raw_w (h x02)) owner_w owner_w
           eoa_address eoa_address
           (match withdrawal_eip712_message (raw_w (h x01)) owner_w eoa_address with
            | Ok m => m | _ => [] end)).
  - apply no_collision_ok. vm_compute. reflexivity.
  - cbn. unfold in_width. lia.
  - cbn. unfold in_width. lia.
  - cbn. unfold in_width. lia.
  - cbn. unfold in_width. lia.
  - cbn. unfold in_width. lia.
  - cbn. unfold in_width. lia.
  - unfold asset_in_range. cbn. unfold in_width. lia.
  - unfold asset_in_range. cbn. unfold in_width. lia.
  - reflexivity.
  - reflexivity.
  - vm_compute. reflexivity.
  - vm_compute. reflexivity.
Defined.

(** Two call kinds that are not contract creation have the same message. *)
Definition poly_args (kind : byte) : bytes :=
  POLYJUICE_HEADER ++ [kind] ++ le_bytes 8 21000 ++ le_bytes 16 1 ++ le_bytes 16 100
  ++ le_bytes 4 2 ++ [xaa; xbb].
Definition raw_p (kind : byte) (from_id : Z) : RawL2Transaction :=
  mkRawL2Transaction 1 from_id 6 0 (poly_args kind).
Definition poly_receiver : Script := mkScript (h x1b) 1 (zeros 56).

Lemma polyjuice_message_binds_transaction_witness :
  drop 8 (tx_args (raw_p x00 3)) = drop 8 (tx_args (raw_p x01 4)) ∧
  tx_to_id (raw_p x00 3) = tx_to_id (raw_p x01 4).
Proof.
  destruct (polyjuice_message_binds_transaction (H := poly_hash) (H0 := base_molecule)
    (raw_p x00 3) (raw_p x01 4) poly_receiver poly_receiver
    (default [] (try_assemble_polyjuice_args (H := poly_hash) (H0 := base_molecule)
                   (raw_p x00 3) poly_receiver))) as (_ & _ & _ & Htail & _ & Hto).
  - intros s. apply poly_hash_length.
  - cbn. unfold in_width. lia.
  - cbn. unfold in_width. lia.
  - cbn. unfold in_width. lia.
  - cbn. unfold in_width. lia.
  - cbn. unfold in_width. lia.
  - cbn. unfold in_width. lia.
  - vm_compute. reflexivity.
  - vm_compute. reflexivity.
  - split; [exact Htail|]. apply Hto. vm_compute. discriminate.
Defined.

(** ** Cancelling the challenge of the sample block *)
Definition state1 : RefState :=
  (check_layer2_deposit rth config [deposit_request] state0).2.
Definition sig_witness : CCTransactionSignatureWitness := {|
  ccs_raw_l2block := block1; ccs_l2tx := tx1; ccs_tx_proof := mkCKBMerkleProof [0] [];
  ccs_kv_state := (λ kv, mkKVPair kv.1 kv.2) <$> map_to_list (rs_kv state1);
  ccs_kv_state_proof := empty_proof; ccs_account_count := rs_count state1;
  ccs_sender := eoa; ccs_receiver := contract |}.
#[export] Instance sample_challenge_codec : ChallengeCodec := {|
  dec_CCTransactionWitness _ := None;
  dec_CCTransactionSignatureWitness := tagged [(x50, sig_witness)];
  dec_CCWithdrawalWitness _ := None;
|}.
Definition sig_message : H256 :=
  match tx_eip712_message (tx_raw tx1) eoa_address contract_hash with Ok m => m | _ => [] end.
Definition signature_cell : Cell := mkCell 100 eoa None (zeros 32 ++ [x00] ++ sig_message).
Definition challenge_script : Script := lock_of (h x05) [x06].
Definition cancel_sig_env : CkbEnv :=
  lock_env challenge_script x50 x32
    [(rollup_cell x22, 0); (mkCell 50 challenge_script None [], 0); (signature_cell, 0)]
    [rollup_cell x21] [].
Definition sig_args : ChallengeLockArgs := challenge_args (block_hash block1) 1.

Lemma challenge_lock_cancel_rules_witness :
  ∃ index action,
    search_rollup_cell (env := cancel_sig_env) (E:=GwError.t) rth SrcOutput = Ok (Some index) ∧
    parse_rollup_action (env := cancel_sig_env) index SrcOutput = Ok action ∧
    match action with
    | RollupSubmitBlock _ => False
    | RollupEnterChallenge _ | RollupRevert _ => True
    | RollupCancelChallenge =>
        ∃ gs config, search_rollup_state (env := cancel_sig_env) rth SrcInput = Ok (Some gs) ∧
          load_rollup_config (env := cancel_sig_env) (rollup_config_hash gs) = Ok config ∧
          cancelled_by_tx_signature (env := cancel_sig_env) config (chl_target sig_args)
    end.
Proof.
  apply (challenge_lock_cancel_rules (env := cancel_sig_env) challenge_script sig_args).
  - reflexivity.
  - vm_compute. reflexivity.
  - vm_compute. reflexivity.
Defined.

(** The transaction shown is the block's transaction at the target's index. *)
Definition sig_kv : KVState :=
  match KVState_build GW_MAX_KV_PAIRS (ccs_kv_state sig_witness) empty_proof (rs_count state1) None with
  | Ok kv => kv
  | _ => mkKVState ∅ [] 0 None
  end.
Definition sig_ctx : TxContext := mkTxContext eoa_hash contract_hash eoa contract eoa_address.

Lemma sig_shows :
  shows_tx config (chl_target sig_args) sig_kv block1 tx1 (ccs_tx_proof sig_witness) sig_ctx.
Proof.
  destruct (verify_tx_context tx1 [eoa; contract] block1 config (chl_target sig_args)
              (ccs_tx_proof sig_witness) sig_kv) as [o kv'] eqn:E.
  apply (verify_tx_context_Ok _ _ _ kv' _ _ [eoa; contract]). rewrite E. f_equal.
  apply (f_equal fst) in E. rewrite <- (E : _ = o). vm_compute. reflexivity.
Qed.

Lemma merge_length l r : length (merge_h256 l r) = S (length l + length r).
Proof. unfold merge_h256, blake2b, sample_blake2b. rewrite !length_app. cbn. lia. Qed.

Lemma sample_leaf_hash_ok : leaf_hash_ok tx_witness_hash (block_transactions l2block1) 0 tx1.
Proof.
  assert (∀ x, cbmt_node merge_h256 (leaves_of tx_witness_hash [tx1]) x →
    (length (ckb_merkle_leaf_hash 0 (tx_witness_hash tx1)) <= length x)%nat) as Hlen.
  { intros x Hx. induction Hx as [x Hx|l r _ IHl _ IHr].
    - apply list_elem_of_singleton in Hx as ->. done.
    - rewrite merge_length. lia. }
  split_and!.
  - intros [|i] y Hy E; [|done]. injection Hy as <-. done.
  - intros y Hy _. by apply list_elem_of_singleton in Hy.
  - intros l r Hl Hr E. apply (f_equal length) in E. pose proof (Hlen l Hl). pose proof (Hlen r Hr).
    rewrite merge_length in E. lia.
Qed.

Lemma cancellation_shows_challenged_item_witness :
  block_transactions l2block1 !! 0%nat = Some tx1.
Proof.
  destruct (cancellation_shows_challenged_item (env := submit_env) rth config l2block1 gs0 gs1
    (chl_target sig_args) block1 (ccs_tx_proof sig_witness)) as [Htx _].
  - exact submit_accepted.
  - reflexivity.
  - intros _. reflexivity.
  - cbn. unfold in_width. lia.
  - cbn. lia.
  - cbn. lia.
  - apply (Htx tx1 sig_kv sig_ctx sig_shows); [cbn; lia|]. exact sample_leaf_hash_ok.
Defined.
