(* ===== verification/NodeUtils.v ===== *)
(** * Parsers and builders of the node

    Models the byte formats of [crates/utils/src]: the arguments of a polyjuice
    transaction ([polyjuice_parser.rs]), the logs a backend appends
    ([script_log.rs]), the arguments of a withdrawal lock ([withdrawal.rs]) and
    the fee of a gasless transaction ([gasless.rs]); and the typed transactions
    of [crates/generator/src/typed_transaction/types.rs].

    The theorems: a polyjuice system log is read back as it was written, a log
    parser that rejects or panics on exactly the inputs the code does, and the
    cost the generator checks a sender's balance against is an upper bound of
    what a transaction that fails can consume. *)
From Stdlib Require Import ZArith Lia Strings.Byte.
From stdpp Require Import prelude list gmap.
From S2P Require Import Prelude Bytes Types State StateSpec StateDB Ckb Eip712.
Local Open Scope Z_scope.

(** ** Polyjuice arguments (polyjuice_parser.rs)

    [PolyjuiceParser] wraps the argument bytes; [from_raw_l2_tx] is its only
    constructor, so every accessor reads at least 52 bytes. *)
Module PolyjuiceParser.
Record t := mk { raw : bytes }.

Definition data_size (p : t) : nat := Z.to_nat (le_val (sub_bytes 48 4 (raw p))).
Definition from_raw_l2_tx (raw_tx : RawL2Transaction) : option t :=
  let a := tx_args raw_tx in
  let args_len := length a in
  if (args_len <? 52)%nat then None
  else if negb (bool_decide (take 7 a = POLYJUICE_HEADER)) then None
  else
    let parser := mk a in
    if negb (args_len =? 52 + data_size parser)%nat
       && negb (args_len =? 52 + data_size parser + 20)%nat
    then None else Some parser.

Definition gas (p : t) : Z := le_val (sub_bytes 8 8 (raw p)).
Definition gas_price (p : t) : Z := le_val (sub_bytes 16 16 (raw p)).
Definition call_kind (p : t) : Z := le_val (sub_bytes 7 1 (raw p)).
Definition is_create (p : t) : bool := call_kind p =? 3.
Definition is_call (p : t) : bool := call_kind p =? 0.
Definition value (p : t) : Z := le_val (sub_bytes 32 16 (raw p)).
Definition data (p : t) : bytes := sub_bytes 52 (data_size p) (raw p).
Definition to_address (p : t) : option bytes :=
  if (length (raw p) =? 52 + data_size p + 20)%nat
  then Some (sub_bytes (52 + data_size p) 20 (raw p)) else None.
Definition is_native_transfer (p : t) : bool :=
  is_call p && bool_decide (is_Some (to_address p)).
End PolyjuiceParser.

(** ** Logs (script_log.rs) *)
Definition GW_LOG_SUDT_TRANSFER : Z := 0.
Definition GW_LOG_SUDT_PAY_FEE : Z := 1.
Definition GW_LOG_POLYJUICE_SYSTEM : Z := 2.
Definition GW_LOG_POLYJUICE_USER : Z := 3.

Inductive GwLog :=
| SudtTransfer (sudt_id : Z) (from_address to_address : RegistryAddress) (amount : Z)
| SudtPayFee (sudt_id : Z) (from_address block_producer_address : RegistryAddress) (amount : Z)
| PolyjuiceSystem (gas_used cumulative_gas_used : Z) (created_address : bytes) (status_code : Z)
| PolyjuiceUser (user_address : bytes) (user_data : bytes) (topics : list H256).

(** The messages of the [anyhow] errors. *)
Inductive LogError :=
| LogDataTooShort | LogFromAddress | LogToAddress | LogDataLength | LogUserDataLength
| LogUserDataSize | LogUserData | LogTooManyBytes | LogServiceFlag.
#[export] Instance LogError_eq_dec : EqDecision LogError.
Proof. solve_decision. Defined.

(** [data.get(a..b)] *)
Definition get_range (a b : nat) (data : bytes) : option bytes :=
  if (a <=? b)%nat && (b <=? length data)%nat then Some (sub_bytes a (b - a) data) else None.

Section Logs.
Local Abbreviation M := (outcome LogError).

(** The size of the address that starts at [start]: an empty one or one of 20
    bytes. *)
Definition sudt_address_end (start : nat) (data : bytes) : M nat :=
  size ← ok_or LogDataTooShort (get_range (start + 4) (start + 8) data);
  Ok (start + (if (le_val size =? 0)%Z then 8 else 28))%nat.

Definition parse_sudt_log_data (data : bytes) : M (RegistryAddress * RegistryAddress * Z) :=
  end_ ← sudt_address_end 0 data;
  from_slice ← ok_or LogDataTooShort (get_range 0 end_ data);
  from_address ← ok_or LogFromAddress (RegistryAddress_from_slice from_slice);
  let start := end_ in
  end_ ← sudt_address_end start data;
  to_slice ← ok_or LogDataTooShort (get_range start end_ data);
  to_address ← ok_or LogToAddress (RegistryAddress_from_slice to_slice);
  u256_bytes ← ok_or LogDataTooShort (get_range end_ (end_ + 32) data);
  Ok (from_address, to_address, le_val u256_bytes).

Definition is_sudt_log_length (n : nat) : bool := (n =? 88)%nat || (n =? 68)%nat || (n =? 48)%nat.

(** [for _ in 0..topics_count] *)
Fixpoint parse_topics (data : bytes) (count : nat) (offset : nat) : M (list H256 * nat) :=
  match count with
  | O => Ok ([], offset)
  | S count =>
      if (length data <? offset + 32)%nat then Err LogUserData
      else
        topic ← slice offset (offset + 32) data;
        '(topics, offset) ← parse_topics data count (offset + 32);
        Ok (topic :: topics, offset)
  end.

Definition parse_user_log (data : bytes) : M GwLog :=
  if (length data <? 24)%nat then Err LogUserDataLength
  else
    address ← slice 0 20 data;
    data_size_bytes ← slice 20 24 data;
    let data_size := Z.to_nat (le_val data_size_bytes) in
    if (length data <? 24 + data_size)%nat then Err LogUserDataSize
    else
      log_data ← slice 24 (24 + data_size) data;
      let offset := (24 + data_size)%nat in
      topics_count_bytes ← slice offset (offset + 4) data;
      '(topics, offset) ←
        parse_topics data (Z.to_nat (le_val topics_count_bytes)) (offset + 4);
      if negb (offset =? length data)%nat then Err LogTooManyBytes
      else Ok (PolyjuiceUser address log_data topics).

Definition parse_log (item : LogItem) : M GwLog :=
  let service_flag := log_service_flag item in
  let data := log_data item in
  if service_flag =? GW_LOG_SUDT_TRANSFER then
    if negb (is_sudt_log_length (length data)) then Err LogDataLength
    else
      '(from_address, to_address, amount) ← parse_sudt_log_data data;
      Ok (SudtTransfer (log_account_id item) from_address to_address amount)
  else if service_flag =? GW_LOG_SUDT_PAY_FEE then
    if negb (is_sudt_log_length (length data)) then Err LogDataLength
    else
      '(from_address, block_producer_address, amount) ← parse_sudt_log_data data;
      Ok (SudtPayFee (log_account_id item) from_address block_producer_address amount)
  else if service_flag =? GW_LOG_POLYJUICE_SYSTEM then
    if negb (length data =? 8 + 8 + 20 + 4)%nat then Err LogDataLength
    else
      gas_used ← slice 0 8 data;
      cumulative_gas_used ← slice 8 16 data;
      created_address ← slice 16 36 data;
      status_code ← slice 36 40 data;
      Ok (PolyjuiceSystem (le_val gas_used) (le_val cumulative_gas_used) created_address
            (le_val status_code))
  else if service_flag =? GW_LOG_POLYJUICE_USER then parse_user_log data
  else Err LogServiceFlag.

(** [status_code] is an [i32], written in two's complement. *)
Definition generate_polyjuice_system_log (account_id gas_used cumulative_gas_used : Z)
    (created_address : bytes) (status_code : Z) : LogItem :=
  mkLogItem account_id GW_LOG_POLYJUICE_SYSTEM
    (le_bytes 8 gas_used ++ le_bytes 8 cumulative_gas_used ++ created_address
       ++ le_bytes 4 (status_code mod 2 ^ 32)).
End Logs.

(** ** Withdrawal lock arguments (withdrawal.rs) *)
Record ParsedWithdrawalLockArgs := mkParsedWithdrawalLockArgs {
  pw_rollup_type_hash : H256;
  pw_lock_args : WithdrawalLockArgs;
  pw_owner_lock : Script;
}.
Inductive LockArgsError :=
| BadArgsLen | BadLockArgs | BadOwnerLockLen | BadOwnerLock | BadOwnerLockHash.
#[export] Instance LockArgsError_eq_dec : EqDecision LockArgsError.
Proof. solve_decision. Defined.

Definition parse_lock_args `{Blake2b, Molecule} (script_args : bytes) :
    outcome LockArgsError ParsedWithdrawalLockArgs :=
  let lock_args_start := 32%nat in
  let lock_args_end := (lock_args_start + WithdrawalLockArgs_TOTAL_SIZE)%nat in
  let args_len := length script_args in
  if (args_len <? lock_args_end)%nat then Err BadArgsLen
  else
    rollup_type_hash ← slice 0 32 script_args;
    raw_args ← slice lock_args_start lock_args_end script_args;
    lock_args ← ok_or BadLockArgs (dec_WithdrawalLockArgs raw_args);
    let owner_lock_start := (lock_args_end + 4)%nat in
    if (args_len <=? owner_lock_start)%nat then Err BadArgsLen
    else
      owner_lock_len_buf ← slice lock_args_end owner_lock_start script_args;
      let owner_lock_len := Z.to_nat (be_val owner_lock_len_buf) in
      let owner_lock_end := (owner_lock_start + owner_lock_len)%nat in
      if negb (owner_lock_end =? args_len)%nat then Err BadOwnerLockLen
      else
        raw_script ← slice owner_lock_start owner_lock_end script_args;
        owner_lock ← ok_or BadOwnerLock (dec_Script raw_script);
        if negb (bool_decide (script_hash owner_lock = wl_owner_lock_hash lock_args))
        then Err BadOwnerLockHash
        else Ok (mkParsedWithdrawalLockArgs rollup_type_hash lock_args owner_lock).

(** ** Gasless transactions (gasless.rs)

    [ethabi::decode] of the [UserOperation] tuple is a parameter. *)
Record UserOperation := mkUserOperation {
  call_contract : bytes; call_data : bytes; call_gas_limit : Z; verification_gas_limit : Z;
  max_fee_per_gas : Z; max_priority_fee_per_gas : Z; paymaster_and_data : bytes;
}.
Class UserOpDecode := decode_user_operation : bytes → option UserOperation.

Record GaslessFee := mkGaslessFee { gf_gas_limit : Z; gf_gas_price : Z }.
Inductive GaslessError := GlDecode | GlGasLimitOverflow | GlGasPriceOverflow.

(** [GaslessTxSupportConfig]: its entrypoint address. *)
Definition is_gasless_tx (config : option bytes) (tx : PolyjuiceParser.t) : bool :=
  (PolyjuiceParser.gas_price tx =? 0)
  && bool_decide (is_Some (PolyjuiceParser.to_address tx))
  && bool_decide (PolyjuiceParser.to_address tx = config).

Definition ENTRYPOINT_HANDLE_OP_SIG : bytes := [xfb; x43; x50; xd8].

(** [x.try_into()] to a narrower unsigned type *)
Definition try_into (w x : Z) : option Z := if x <? 2 ^ w then Some x else None.

Definition gasless_tx_fee `{UserOpDecode} (data : bytes) : outcome GaslessError GaslessFee :=
  reject_if (negb (bool_decide (take 4 data = ENTRYPOINT_HANDLE_OP_SIG))) GlDecode ;;
  op ← ok_or GlDecode (decode_user_operation (drop 4 data));
  gas_limit ← ok_or GlGasLimitOverflow
    (v3 ← checked_mul 256 (verification_gas_limit op) 3;
     total ← checked_add 256 v3 (call_gas_limit op);
     try_into 64 total);
  gas_price ← ok_or GlGasPriceOverflow (try_into 128 (max_fee_per_gas op));
  Ok (mkGaslessFee gas_limit gas_price).

(** ** Typed transactions (typed_transaction/types.rs)

    The arguments of the built-in contracts are molecule unions; their readers
    are parameters. *)
Record Fee := mkFee { fee_registry_id : Z; fee_amount : Z }.
Inductive MetaContractArgs :=
| CreateAccount (script : Script) (fee : Fee)
| BatchCreateEthAccounts (scripts : list Script) (fee : Fee).
Inductive ETHAddrRegArgs :=
| EthToGw (eth_address : bytes)
| GwToEth (gw_script_hash : H256)
| SetMapping (gw_script_hash : H256) (fee : Fee)
| BatchSetMapping (gw_script_hashes : list H256) (fee : Fee).
Inductive SUDTArgs :=
| SUDTQuery (query_address : bytes)
| SUDTTransfer (to_address : bytes) (transfer_amount : Z) (fee : Fee).

Class ContractArgs := {
  dec_MetaContractArgs : bytes → option MetaContractArgs;
  dec_ETHAddrRegArgs : bytes → option ETHAddrRegArgs;
  dec_SUDTArgs : bytes → option SUDTArgs;
}.

(** What a molecule reader guarantees: the integers it returns have the width
    of their fields. *)
Definition fee_ok (f : Fee) : Prop := u32 (fee_registry_id f) ∧ u128 (fee_amount f).
Class ContractArgsLaws `{ContractArgs} : Prop := {
  meta_args_ok b a : dec_MetaContractArgs b = Some a →
    match a with CreateAccount _ f | BatchCreateEthAccounts _ f => fee_ok f end;
  eth_addr_reg_args_ok b a : dec_ETHAddrRegArgs b = Some a →
    match a with SetMapping _ f | BatchSetMapping _ f => fee_ok f | _ => True end;
  sudt_args_ok b a : dec_SUDTArgs b = Some a →
    match a with SUDTTransfer _ amount f => u256 amount ∧ fee_ok f | _ => True end;
}.

Inductive TypedRawTransaction :=
| TypedEthAddrReg (tx : RawL2Transaction)
| TypedMeta (tx : RawL2Transaction)
| TypedSimpleUDT (tx : RawL2Transaction)
| TypedPolyjuice (tx : RawL2Transaction).

Definition TypedRawTransaction_from_tx (raw_tx : RawL2Transaction) (type_ : AllowedContractType) :
    option TypedRawTransaction :=
  match type_ with
  | ContractEthAddrReg => Some (TypedEthAddrReg raw_tx)
  | ContractMeta => Some (TypedMeta raw_tx)
  | ContractSudt => Some (TypedSimpleUDT raw_tx)
  | ContractPolyjuice => Some (TypedPolyjuice raw_tx)
  | ContractUnknown => None
  end.

Section Typed.
Context `{ContractArgs}.

Definition EthAddrRegTx_consumed (tx : RawL2Transaction) : option Z :=
  args ← dec_ETHAddrRegArgs (tx_args tx);
  match args with
  | EthToGw _ | GwToEth _ => None
  | SetMapping _ fee | BatchSetMapping _ fee => Some (fee_amount fee)
  end.
Definition EthAddrRegTx_cost := EthAddrRegTx_consumed.

Definition MetaTx_consumed (tx : RawL2Transaction) : option Z :=
  args ← dec_MetaContractArgs (tx_args tx);
  match args with CreateAccount _ fee | BatchCreateEthAccounts _ fee => Some (fee_amount fee) end.
Definition MetaTx_cost := MetaTx_consumed.

Definition SimpleUDTTx_consumed (tx : RawL2Transaction) : option Z :=
  args ← dec_SUDTArgs (tx_args tx);
  match args with
  | SUDTQuery _ => None
  | SUDTTransfer _ _ fee => Some (fee_amount fee)
  end.
Definition SimpleUDTTx_cost (tx : RawL2Transaction) : option Z :=
  args ← dec_SUDTArgs (tx_args tx);
  match args with
  | SUDTQuery _ => None
  | SUDTTransfer _ value fee =>
      if tx_to_id tx =? CKB_SUDT_ACCOUNT_ID
      then checked_add 256 value (fee_amount fee)
      else Some (fee_amount fee)
  end.

Definition PolyjuiceTx_parser := PolyjuiceParser.from_raw_l2_tx.
Definition PolyjuiceTx_cost (tx : RawL2Transaction) : option Z :=
  p ← PolyjuiceTx_parser tx;
  fee ← checked_mul 128 (PolyjuiceParser.gas_price p) (PolyjuiceParser.gas p);
  checked_add 128 (PolyjuiceParser.value p) fee.

Definition MIN_TX_GAS : Z := 21000.
Definition MIN_CONTRACT_CREATION_TX_GAS : Z := 53000.
Definition DATA_NONE_ZERO_GAS : Z := 16.
Definition DATA_ZERO_GAS : Z := 4.

Definition count_non_zeros (data : bytes) : Z :=
  Z.of_nat (length (filter (λ b, b ≠ x00) data)).

Definition PolyjuiceTx_intrinsic_gas (tx : RawL2Transaction) : option Z :=
  p ← PolyjuiceTx_parser tx;
  let gas := if PolyjuiceParser.is_create p
             then MIN_CONTRACT_CREATION_TX_GAS else MIN_TX_GAS in
  if (0 <? PolyjuiceParser.data_size p)%nat then
    let non_zeros := count_non_zeros (PolyjuiceParser.data p) in
    non_zero_gas ← checked_mul 64 non_zeros DATA_NONE_ZERO_GAS;
    gas ← checked_add 64 gas non_zero_gas;
    let zeros := Z.of_nat (PolyjuiceParser.data_size p) - non_zeros in
    zero_gas ← checked_mul 64 zeros DATA_ZERO_GAS;
    checked_add 64 gas zero_gas
  else Some gas.

Definition TypedRawTransaction_cost (tx : TypedRawTransaction) : option Z :=
  match tx with
  | TypedEthAddrReg tx => EthAddrRegTx_cost tx
  | TypedMeta tx => MetaTx_cost tx
  | TypedSimpleUDT tx => SimpleUDTTx_cost tx
  | TypedPolyjuice tx => PolyjuiceTx_cost tx
  end.
End Typed.

#[local] Arguments le_val : simpl never.
#[local] Arguments le_bytes : simpl never.

(** ** Lemmas *)
Lemma slice_within {E} a b (bs : bytes) :
  (a ≤ b)%nat → (b ≤ length bs)%nat → slice (E:=E) a b bs = Ok (sub_bytes a (b - a) bs).
Proof. intros. unfold slice. by rewrite bool_decide_true. Qed.

Section LogLemmas.
Context (account_id gas_used cumulative_gas_used status_code : Z) (created_address : bytes).
Context (Hg : u64 gas_used) (Hc : u64 cumulative_gas_used).
Context (Ha : length created_address = 20%nat).

(** A system log is read back as it was written; the status code as the [u32]
    of the same bits. *)
Lemma parse_system_log :
  parse_log (generate_polyjuice_system_log account_id gas_used cumulative_gas_used
               created_address status_code)
  = Ok (PolyjuiceSystem gas_used cumulative_gas_used created_address (status_code mod 2 ^ 32)).
Proof.
  unfold parse_log, generate_polyjuice_system_log. cbn [log_service_flag log_data].
  set (d := _ ++ _). assert (Hd : length d = 40%nat).
  { unfold d. rewrite !length_app, !le_bytes_length, Ha. done. }
  change (GW_LOG_POLYJUICE_SYSTEM =? _) with false at 1.
  change (GW_LOG_POLYJUICE_SYSTEM =? _) with false at 1.
  change (GW_LOG_POLYJUICE_SYSTEM =? _) with true at 1. cbn iota.
  rewrite Hd. cbn [Nat.eqb Nat.add negb]. rewrite !slice_within by lia.
  cbn [mbind outcome_bind Nat.sub]. unfold d.
  rewrite (sub_bytes_app_l 8) by apply le_bytes_length.
  rewrite (sub_bytes_app_r 8), le_bytes_length, (sub_bytes_app_l 8) by (rewrite ?le_bytes_length; lia).
  rewrite (sub_bytes_app_r 16), le_bytes_length, (sub_bytes_app_r _ 20), le_bytes_length
    by (rewrite ?le_bytes_length; lia).
  rewrite (sub_bytes_app_l 20) by done.
  rewrite (sub_bytes_app_r 36), le_bytes_length, (sub_bytes_app_r _ 4), le_bytes_length,
    (sub_bytes_app_r _ 4), Ha, (sub_bytes_all 4) by (rewrite ?le_bytes_length; lia).
  rewrite !le_val_bytes_small; try done. cbn. pose proof (Z.mod_pos_bound status_code (2^32)). lia.
Qed.
End LogLemmas.

(** The user-log parser indexes the topic count without a length check. *)
Lemma parse_user_log_panics :
  parse_log (mkLogItem 0 GW_LOG_POLYJUICE_USER (zeros 24)) = Panic.
Proof. reflexivity. Qed.

Lemma polyjuice_parser_inv tx p :
  PolyjuiceParser.from_raw_l2_tx tx = Some p →
  p = PolyjuiceParser.mk (tx_args tx) ∧ (52 + PolyjuiceParser.data_size p ≤ length (tx_args tx))%nat.
Proof.
  unfold PolyjuiceParser.from_raw_l2_tx. intros Hp. repeat case_match; try done.
  injection Hp as <-. split; [done|].
  match goal with Hb : negb _ && negb _ = false |- _ =>
    apply andb_false_iff in Hb; destruct Hb as [Hb|Hb]; bool_inv end; lia.
Qed.

Lemma le_val_sub_range a n bs w : w = 8 * Z.of_nat n → in_width w (le_val (sub_bytes a n bs)).
Proof.
  intros ->. pose proof (le_val_range (sub_bytes a n bs)) as Hr. unfold in_width, sub_bytes in *.
  rewrite length_take in Hr. split; [lia|]. eapply Z.lt_le_trans; [apply Hr|].
  apply Z.pow_le_mono_r; lia.
Qed.

Section PolyjuiceRanges.
Implicit Types p : PolyjuiceParser.t.
Lemma polyjuice_gas_range p : u64 (PolyjuiceParser.gas p).
Proof. by apply le_val_sub_range. Qed.
Lemma polyjuice_gas_price_range p : u128 (PolyjuiceParser.gas_price p).
Proof. by apply le_val_sub_range. Qed.
Lemma polyjuice_value_range p : u128 (PolyjuiceParser.value p).
Proof. by apply le_val_sub_range. Qed.
Lemma polyjuice_data_size_range p : u32 (Z.of_nat (PolyjuiceParser.data_size p)).
Proof.
  unfold PolyjuiceParser.data_size. pose proof (le_val_sub_range 48 4 (PolyjuiceParser.raw p) 32 eq_refl).
  unfold in_width in *. lia.
Qed.
End PolyjuiceRanges.

Lemma count_non_zeros_le data : 0 ≤ count_non_zeros data ≤ Z.of_nat (length data).
Proof. unfold count_non_zeros. pose proof (length_filter (λ b : byte, b ≠ x00) data). lia. Qed.

(** The intrinsic gas of a parsed transaction never overflows: the payload is
    shorter than [2^32]. *)
Lemma intrinsic_gas_total tx p :
  PolyjuiceTx_parser tx = Some p →
  PolyjuiceTx_intrinsic_gas tx
  = Some ((if PolyjuiceParser.is_create p then MIN_CONTRACT_CREATION_TX_GAS else MIN_TX_GAS)
          + DATA_NONE_ZERO_GAS * count_non_zeros (PolyjuiceParser.data p)
          + DATA_ZERO_GAS * (Z.of_nat (PolyjuiceParser.data_size p)
                             - count_non_zeros (PolyjuiceParser.data p))).
Proof.
  intros Hp. unfold PolyjuiceTx_intrinsic_gas. rewrite Hp. cbn [mbind option_bind].
  destruct (polyjuice_parser_inv _ _ Hp) as [E Hl].
  pose proof (polyjuice_data_size_range p) as Hs. pose proof (count_non_zeros_le (PolyjuiceParser.data p)) as Hn.
  assert (Hd : length (PolyjuiceParser.data p) = PolyjuiceParser.data_size p).
  { unfold PolyjuiceParser.data, sub_bytes. rewrite length_take, length_drop.
    rewrite E at 2. cbn [PolyjuiceParser.raw]. lia. }
  rewrite Hd in Hn. unfold in_width in Hs.
  set (nz := count_non_zeros _) in *. set (size := PolyjuiceParser.data_size p) in *.
  set (base := if PolyjuiceParser.is_create p then _ else _).
  assert (Hb : 0 ≤ base ≤ 53000) by (subst base; unfold MIN_CONTRACT_CREATION_TX_GAS, MIN_TX_GAS; case_match; lia).
  unfold DATA_NONE_ZERO_GAS, DATA_ZERO_GAS, checked_mul, checked_add in *.
  destruct (Nat.ltb_spec 0 size); [|f_equal; lia].
  repeat (rewrite (proj2 (Z.ltb_lt _ _)) by lia; cbn [mbind option_bind]). f_equal. lia.
Qed.

(** *** What a failed transaction consumes is within its cost *)
Section Cost.
Context `{ContractArgsLaws}.

(** [consumed] of the built-in contracts, as [handle_failed_transaction] uses
    it; a polyjuice transaction consumes at most its gas limit. *)
Definition builtin_consumed (tx : TypedRawTransaction) : option Z :=
  match tx with
  | TypedEthAddrReg tx => EthAddrRegTx_consumed tx
  | TypedMeta tx => MetaTx_consumed tx
  | TypedSimpleUDT tx => SimpleUDTTx_consumed tx
  | TypedPolyjuice tx =>
      p ← PolyjuiceTx_parser tx;
      checked_mul 256 (PolyjuiceParser.gas p) (PolyjuiceParser.gas_price p)
  end.

Lemma cost_covers_consumed tx c :
  TypedRawTransaction_cost tx = Some c → ∃ n, builtin_consumed tx = Some n ∧ 0 ≤ n ≤ c.
Proof.
  destruct tx as [tx|tx|tx|tx]; cbn [TypedRawTransaction_cost builtin_consumed]; intros Hc.
  - exists c. split; [done|]. unfold EthAddrRegTx_cost, EthAddrRegTx_consumed in Hc.
    destruct (dec_ETHAddrRegArgs _) as [a|] eqn:E; [|done]. apply eth_addr_reg_args_ok in E.
    cbn in Hc. unfold fee_ok, in_width in E. destruct a; simplify_eq; lia.
  - exists c. split; [done|]. unfold MetaTx_cost, MetaTx_consumed in Hc.
    destruct (dec_MetaContractArgs _) as [a|] eqn:E; [|done]. apply meta_args_ok in E.
    cbn in Hc. unfold fee_ok, in_width in E. destruct a; simplify_eq; lia.
  - unfold SimpleUDTTx_cost, SimpleUDTTx_consumed in *.
    destruct (dec_SUDTArgs _) as [a|] eqn:E; [|done]. apply sudt_args_ok in E.
    cbn in *. unfold fee_ok, in_width in E. destruct a; [done|]. eexists. split; [done|].
    case_match; [apply checked_add_Some in Hc|simplify_eq]; lia.
  - unfold PolyjuiceTx_cost in Hc. destruct (PolyjuiceTx_parser tx) as [p|]; [|done].
    cbn [mbind option_bind] in *.
    destruct (checked_mul 128 _ _) as [f|] eqn:Ef; [|done]. apply checked_mul_Some in Ef as [-> Hf].
    cbn in Hc. apply checked_add_Some in Hc.
    pose proof (polyjuice_gas_range p) as Hg. pose proof (polyjuice_gas_price_range p) as Hpr.
    pose proof (polyjuice_value_range p) as Hv. unfold in_width in *.
    eexists. split; [apply checked_mul_Some; split; [done|]|].
    + eapply Z.lt_trans; [|apply (Z.pow_lt_mono_r 2 128 256); lia]. lia.
    + nia.
Qed.
End Cost.
