(* ===== verification/NodeState.v ===== *)
(** * The node's changes of the account state

    Models [crates/generator/src/traits.rs] ([StateExt]: how the node applies
    deposits, withdrawals and fees), [sudt.rs], the errors of [error.rs] and the
    [JournalDB] trait of [crates/store/src/state/traits.rs].

    The main result: what the rollup script accepts on chain
    ([SubmitBlock.check_layer2_withdrawal], [check_layer2_deposit]), the node
    can apply, and both arrive at the same account state. *)
From Stdlib Require Import ZArith Lia Strings.Byte.
From stdpp Require Import prelude list gmap.
From S2P Require Import Prelude Bytes Types State StateSpec StateDB Ckb.
From S2P Require Import Finality SubmitBlock Layer2Supply.
Local Open Scope Z_scope.

(** ** Errors (error.rs); the texts inside messages are dropped *)
Inductive VMError := CyclesExceeded | Unexpected | VMOther (code : Z).
Inductive LockAlgorithmError :=
| InvalidLockArgs | InvalidSignature | UnknownAccountLock | InvalidTransactionArgs.
Inductive DepositError := DepositFakedCKB | DepositUnknownEoALock.
Module WithdrawalError.
Inductive t :=
| Overdraft
| Nonce (expected actual : Z)
| WithdrawFakedCKB
| NonPositiveSUDTAmount
| OwnerLock (h : H256)
| InsufficientCapacity (expected actual : Z)
| ExceededMaxWithdrawalSize (max_size withdrawal_size : Z)
| NonceOverflow.
End WithdrawalError.
Inductive AccountError :=
| InvalidSUDTOperation | UnknownSUDT | UnknownAccount | UnknownScript
| ScriptNotFound (account_id : Z) | RegistryAddressNotFound.
Record CycleMeter := mkCycleMeter { cm_execution : Z; cm_virtual : Z }.
Module TransactionError.
Inductive t :=
| VM (e : VMError)
| Nonce (account_id expected actual : Z)
| State (e : StateError.t)
| BackendNotFound (script_hash : H256)
| ExceededMaxTotalReadData (max_bytes used_bytes : Z)
| ExceededMaxWriteData (max_bytes used_bytes : Z)
| BackendMustIncreaseNonce
| ScriptHashNotFound
| ExceededMaxTxSize (max_size tx_size : Z)
| InsufficientBalance
| NoCost
| NonceOverflow
| IntrinsicGas
| InsufficientPoolCycles (cycles : CycleMeter) (limit : Z)
| ExceededMaxBlockCycles (cycles : CycleMeter) (limit : Z)
| Utf8Error
| NativeTransferInvalidToId (id : Z)
| PolyjuiceCreatorIdNotFound
| UnknownTxType (exit_code : Z).
End TransactionError.
Inductive BlockError :=
| InvalidCheckpoint (expected_checkpoint block_checkpoint : H256) (index : nat)
| CheckpointNotFound (index : nat)
| BlockProducerNotExists.

Module GenError.
Inductive t :=
| Transaction (e : TransactionError.t)
| State (e : StateError.t)
| Account (e : AccountError)
| Unlock (e : LockAlgorithmError)
| Deposit (e : DepositError)
| Withdrawal (e : WithdrawalError.t)
| Block (e : BlockError).
End GenError.

(** ** [JournalDB] *)
Class JournalOps (St : Type) := {
  j_snapshot : ST St StateError.t Z;
  j_revert : Z → ST St StateError.t unit;
  j_appended_logs : St → list LogItem;
  j_append_log : LogItem → St → St;
  j_finalise : ST St StateError.t unit;
  j_set_state_tracker : StateTracker → St → St;
  j_take_state_tracker : St → option StateTracker * St;
}.
#[export] Instance StateDB_journal_ops {S} `{StateOps S, CodeOps S, MapIter} :
  JournalOps (StateDB S) := {
  j_snapshot := snapshot;
  j_revert := revert;
  j_appended_logs := appended_logs;
  j_append_log := append_log;
  j_finalise := finalise;
  j_set_state_tracker := set_state_tracker;
  j_take_state_tracker := take_state_tracker;
}.

(** ** Requests *)
Record DepositRequest := mkDepositRequest {
  dr_capacity : Z; dr_amount : Z; dr_sudt_script_hash : H256; dr_script : Script;
  dr_registry_id : Z;
}.
Record WithdrawalReceipt := mkWithdrawalReceipt { wr_post_state : AccountMerkleState }.

(** [RollupContext] (utils/src/rollup_context.rs) *)
Record RollupContext := mkRollupContext {
  rollup_script_hash : H256; rollup_config : RollupConfig; fork_config : ForkConfig;
}.

(** sudt.rs: unlike the script's, this one has a layer-2 script for CKB too. *)
Definition l2_sudt_script (ctx : RollupContext) (l1_sudt_script_hash : H256) : Script :=
  mkScript (l2_sudt_validator_script_type_hash (rollup_config ctx))
    (ScriptHashType_to_u8 HashType) (rollup_script_hash ctx ++ l1_sudt_script_hash).

(** ** [StateExt] (traits.rs) *)
Section StateExt.
Context `{Blake2b, Molecule} {St : Type} `{StateOps St, CodeOps St, JournalOps St}.
Local Abbreviation M := (ST St GenError.t).
(** [self.op(..)?] *)
Local Abbreviation call m := (st_map_err GenError.State m).

Definition create_account_from_script (script : Script) : M Z :=
  lift (reject_if (negb (hash_type script =? ScriptHashType_to_u8 HashType))
          (GenError.Account UnknownScript)) ;;
  modify (insert_script (script_hash script) script) ;;
  call (create_account (script_hash script)).

Definition calculate_merkle_state : M AccountMerkleState :=
  account_root ← call calculate_root;
  account_count ← call get_account_count;
  mret (mkAccountMerkleState account_root account_count).

Definition node_pay_fee (payer block_producer : RegistryAddress) (sudt_id amount : Z) : M unit :=
  call (burn_sudt sudt_id payer amount) ;;
  call (mint_sudt sudt_id block_producer amount).

(** The account a deposit goes to, created and registered when it is new. *)
Definition deposit_address (ctx : RollupContext) (request : DepositRequest) : M RegistryAddress :=
  let account_script_hash := script_hash (dr_script request) in
  o ← call (get_account_id_by_script_hash account_script_hash);
  match o with
  | Some _ =>
      a ← call (get_registry_address_by_script_hash (dr_registry_id request) account_script_hash);
      lift (ok_or (GenError.Account RegistryAddressNotFound) a)
  | None =>
      modify (insert_script account_script_hash (dr_script request)) ;;
      call (create_account account_script_hash) ;;
      addr ← lift (map_err GenError.State
               (extract_registry_address_from_deposit
                  (allowed_eoa_type_hashes (rollup_config ctx)) (dr_registry_id request)
                  (code_hash (dr_script request)) (args (dr_script request))));
      call (mapping_registry_address_to_script_hash addr account_script_hash) ;;
      mret addr
  end.

Definition apply_deposit_request (ctx : RollupContext) (request : DepositRequest) : M unit :=
  address ← deposit_address ctx request;
  call (mint_sudt CKB_SUDT_ACCOUNT_ID address
          (CKBCapacity_to_layer2 (CKBCapacity_from_layer1 (dr_capacity request)))) ;;
  if negb (bool_decide (dr_sudt_script_hash request = CKB_SUDT_SCRIPT_ARGS)) then
    let sudt_script := l2_sudt_script ctx (dr_sudt_script_hash request) in
    let sudt_hash := script_hash sudt_script in
    o ← call (get_account_id_by_script_hash sudt_hash);
    sudt_id ← match o with
              | Some id => mret id
              | None =>
                  modify (insert_script sudt_hash sudt_script) ;;
                  call (create_account sudt_hash)
              end;
    lift (reject_if (sudt_id =? CKB_SUDT_ACCOUNT_ID) (GenError.Account InvalidSUDTOperation)) ;;
    call (mint_sudt sudt_id address (dr_amount request))
  else lift (reject_if (negb (dr_amount request =? 0)) (GenError.Deposit DepositFakedCKB)).

Definition apply_withdrawal_request (ctx : RollupContext) (block_producer : RegistryAddress)
    (request : WithdrawalRequest) : M WithdrawalReceipt :=
  let raw := w_raw request in
  let sudt_hash := script_hash (l2_sudt_script ctx (w_sudt_script_hash raw)) in
  a ← call (get_registry_address_by_script_hash (w_registry_id raw) (w_account_script_hash raw));
  withdrawal_address ← lift (ok_or (GenError.Account RegistryAddressNotFound) a);
  o ← call (get_account_id_by_script_hash (w_account_script_hash raw));
  id ← lift (ok_or (GenError.Account UnknownAccount) o);
  node_pay_fee withdrawal_address block_producer CKB_SUDT_ACCOUNT_ID (w_fee raw) ;;
  call (burn_sudt CKB_SUDT_ACCOUNT_ID withdrawal_address
          (CKBCapacity_to_layer2 (CKBCapacity_from_layer1 (w_capacity raw)))) ;;
  o ← call (get_account_id_by_script_hash sudt_hash);
  sudt_id ← lift (ok_or (GenError.Account UnknownSUDT) o);
  (if negb (sudt_id =? CKB_SUDT_ACCOUNT_ID)
   then call (burn_sudt sudt_id withdrawal_address (w_amount raw))
   else lift (reject_if (negb (w_amount raw =? 0))
                (GenError.Withdrawal WithdrawalError.WithdrawFakedCKB))) ;;
  nonce ← call (get_nonce id);
  new_nonce ← lift (ok_or (GenError.Withdrawal WithdrawalError.NonceOverflow)
                      (checked_add 32 nonce 1));
  call (set_nonce id new_nonce) ;;
  call j_finalise ;;
  account_root ← call calculate_root;
  account_count ← call get_account_count;
  mret (mkWithdrawalReceipt (mkAccountMerkleState account_root account_count)).
End StateExt.

(** ** Running the node's state beside the reference state *)
Lemma sim_run {St1 St2 E A} (R : St1 → St2 → Prop) (m1 : ST St1 E A) (m2 : ST St2 E A) s1 s2 a s2' :
  sim R (λ _, False) m1 m2 → R s1 s2 → m2 s2 = (Ok a, s2') →
  ∃ s1', m1 s1 = (Ok a, s1') ∧ R s1' s2'.
Proof.
  intros Hs HR E2. destruct (Hs s1 s2 HR) as [(?&?&?&[])|(r&s1'&s2''&E1&E2'&HR')].
  rewrite E2 in E2'. injection E2' as <- <-. eauto.
Qed.

Section NodeDb.
Context `{Blake2b, SmtRoot} {S : Type} `{StateView S, MapIter}.
Implicit Types (db : StateDB S) (rs : RefState).

(** A trait call whose effect on the reference state is known. *)
Lemma node_call {A E} (f : StateError.t → E) (m1 : ST (StateDB S) StateError.t A)
    (m2 : ST RefState StateError.t A) db rs a rs' :
  sim db_rel (λ _, False) m1 m2 → db_rel db rs → m2 rs = (Ok a, rs') →
  ∃ db', st_map_err f m1 db = (Ok a, db') ∧ db_rel db' rs'.
Proof.
  intros Hs HR E2. destruct (sim_run _ _ _ _ _ _ _ Hs HR E2) as (db' & E1 & HR').
  exists db'. split; [|done]. by apply st_map_err_Ok.
Qed.

Lemma db_rel_insert_script db rs h sc : db_rel db rs → db_rel (insert_script h sc db) rs.
Proof. intros (Hok & Hk & Hc). by split. Qed.

Lemma update_raw_dirty k v db db' : update_raw k v db = (Ok tt, db') → is_dirty db' = true.
Proof.
  intros [= <-]. unfold is_dirty. cbn. rewrite bool_decide_false; [done|].
  by destruct (db_journal db).
Qed.

(** [finalise] of a changed database keeps the state and leaves it clean. *)
Lemma node_finalise db rs :
  db_rel db rs → is_dirty db = true →
  ∃ db', finalise db = (Ok tt, db') ∧ db_rel db' rs ∧ is_dirty db' = false ∧
    calculate_root db' = (Ok (last_state_root db'), db') ∧
    get_account_count db' = (Ok (rs_count rs), db').
Proof.
  intros (Hok & Hk & Hc) Hd.
  destruct (finalise_dirty_run db Hok Hd) as (db' & E & Hd' & Hok' & Hv & _ & Hroot).
  destruct Hv as (Hv1 & Hv2 & _).
  assert (HR : db_rel db' rs).
  { split; [done|]. split; [intros k; rewrite Hv1; apply Hk|by rewrite Hv2]. }
  exists db'. split; [done|]. split; [done|]. split; [done|]. split; [done|].
  apply not_dirty_clean in Hd' as (Ed & _). destruct HR as (_ & _ & Hc').
  cbn. unfold db_get_account_count, inner. rewrite Ed. cbn.
  rewrite view_get_account_count by done. unfold db_view in Hc'. rewrite Ed in Hc'. cbn in Hc'.
  rewrite Hc'. by destruct db'.
Qed.
End NodeDb.

(** ** Keys a run leaves alone *)
Section Keeps.
Context `{Blake2b, SmtRoot}.
Context (k : H256).

Definition keeps {E A} (m : ST RefState E A) : Prop :=
  ∀ s a s', m s = (Ok a, s') → kv_get s' k = kv_get s k.

Lemma keeps_bind {E A B} (m : ST RefState E A) (f : A → ST RefState E B) :
  keeps m → (∀ a, keeps (f a)) → keeps (m ≫= f).
Proof.
  intros Hm Hf s b s' Hrun. inv_ok.
  rewrite (Hf _ _ _ _ ltac:(eassumption)). by eapply Hm.
Qed.
Lemma keeps_lift {E A} (m : outcome E A) : keeps (lift m).
Proof. intros s a s' Hrun. by inv_ok. Qed.
Lemma keeps_get_raw key : keeps (get_raw key).
Proof. by intros s a s' [= <- <-]. Qed.
Lemma keeps_update_raw key v : k ≠ key → keeps (update_raw key v).
Proof. intros Hne s a s' [= <- <-]. by rewrite kv_get_put_ne. Qed.

(** Only the balance and the supply of the token are written. *)
Definition apart_from_token (id : Z) (a : RegistryAddress) : Prop :=
  k ≠ build_account_key id (sudt_key_bytes a) ∧ k ≠ build_account_key id SUDT_TOTAL_SUPPLY_KEY.

Lemma keeps_key {E A} a (f : bytes → ST RefState E A) :
  keeps (f (sudt_key_bytes a)) → keeps (key ← lift (build_sudt_key SUDT_KEY_FLAG_BALANCE a); f key).
Proof.
  intros Hf s b s' Hrun. inv_ok.
  match goal with Hk : build_sudt_key _ _ = Ok _ |- _ => apply build_sudt_key_bytes in Hk as -> end.
  by eapply Hf.
Qed.
Local Ltac keeps_steps :=
  repeat first [apply keeps_bind; [|intros] | apply keeps_lift | apply keeps_get_raw
               | by apply keeps_update_raw | progress cbv zeta].
Lemma keeps_mint id a n : apart_from_token id a → keeps (mint_sudt id a n).
Proof. intros []. apply keeps_key. keeps_steps. Qed.
Lemma keeps_burn id a n : apart_from_token id a → keeps (burn_sudt id a n).
Proof. intros []. apply keeps_key. keeps_steps. Qed.
End Keeps.

(** ** The node applies what the script accepts *)

(** The request the node reads from a deposit cell. *)
Definition deposit_request_of (cell : DepositRequestCell) : DepositRequest :=
  mkDepositRequest (cv_capacity (dc_value cell)) (cv_amount (dc_value cell))
    (cv_sudt_script_hash (dc_value cell)) (dc_account_script cell) (dl_registry_id (dc_args cell)).

(** The tokens of the node's view: of the scripts of the given tokens, the one
    of layer-2 CKB, and only that one, is account 1. *)
Definition tokens_ok `{Blake2b, Molecule} (ctx : RollupContext) (hashes : list H256)
    (rs : RefState) : Prop :=
  ∀ h, h ∈ hashes →
    account_id_of rs (script_hash (l2_sudt_script ctx h)) = Some CKB_SUDT_ACCOUNT_ID
    ↔ h = CKB_SUDT_SCRIPT_ARGS.

(** The preimages of the keys hashed while the withdrawals of a block are
    applied: the entries of their senders and tokens, and the balances and
    supplies of the senders' addresses and the producer's. *)
Definition withdrawals_hashed `{Blake2b, Molecule} (ctx : RollupContext) (producer : RegistryAddress)
    (ws : list WithdrawalRequest) (rs : RefState) : bytes → Prop :=
  let parties := withdrawer ∘ w_raw <$> ws in
  hashed parties
    ((λ w, script_hash (l2_sudt_script ctx (w_sudt_script_hash (w_raw w)))) <$> ws)
    (producer :: omap (registry_address_at rs) parties).

Section Agreement.
Context `{Blake2b, Molecule, SmtRoot} {S : Type} `{StateView S, MapIter}.
Context (ctx : RollupContext).
Implicit Types (db : StateDB S) (rs : RefState).
Local Abbreviation rth := (rollup_script_hash ctx).
Local Abbreviation config := (rollup_config ctx).

Lemma onchain_sudt_script h :
  build_l2_sudt_script rth config h
  = if bool_decide (h = CKB_SUDT_SCRIPT_ARGS) then None else Some (l2_sudt_script ctx h).
Proof. done. Qed.

(** Run the next call of the node beside the step of the script named by the
    hypothesis [Hs]. *)
Local Ltac node_step Hs db' HR' :=
  match goal with
  | HR : db_rel ?db _ |- context [(st_map_err GenError.State ?m ≫= _) ?db] =>
      let E := fresh "E" in
      edestruct (node_call GenError.State m) as (db' & E & HR');
        [|exact HR|exact Hs|]; [solve [eauto with gw typeclass_instances]|];
      rewrite (st_bind_run _ _ _ _ _ E); clear E
  end.

Lemma node_deposit_address cell db rs addr rs' :
  dc_account_script_hash cell = script_hash (dc_account_script cell) →
  db_rel db rs → find_or_create_eoa config cell rs = (Ok addr, rs') →
  ∃ db', deposit_address ctx (deposit_request_of cell) db = (Ok addr, db') ∧ db_rel db' rs'.
Proof.
  intros Hh HR Hrun. unfold find_or_create_eoa in Hrun. rewrite Hh in Hrun. inv_ok.
  rename select (get_account_id_by_script_hash _ _ = _) into Hid.
  unfold deposit_address. cbn [dr_script dr_registry_id deposit_request_of].
  node_step Hid db1 HR1. destruct x as [id|]; inv_ok.
  - rename select (get_registry_address_by_script_hash _ _ _ = _) into Ha.
    node_step Ha db2 HR2. subst. eexists. split; [by erewrite lift_Ok|done].
  - rename select (create_account _ _ = _) into Hc.
    rename select (mapping_registry_address_to_script_hash _ _ _ = _) into Hm.
    erewrite st_bind_run by reflexivity.
    apply (db_rel_insert_script _ _ (script_hash (dc_account_script cell)) (dc_account_script cell)) in HR1.
    node_step Hc db2 HR2. erewrite st_lift_run by (apply map_err_Ok; eassumption).
    node_step Hm db3 HR3. by eexists.
Qed.

Lemma node_token_account o script db rs id rs' :
  db_rel db rs →
  match o with
  | Some id => mret id
  | None => st_map_err of_common (create_account (script_hash script))
  end rs = (Ok id, rs') →
  ∃ db', match o with
         | Some id => mret id
         | None =>
             modify (insert_script (script_hash script) script) ;;
             st_map_err GenError.State (create_account (script_hash script))
         end db = (Ok id, db') ∧ db_rel db' rs'.
Proof.
  intros HR Hrun. destruct o; inv_ok; [subst; by eexists|].
  erewrite st_bind_run by reflexivity.
  eapply node_call; [eauto with gw typeclass_instances| |eassumption].
  by apply db_rel_insert_script.
Qed.

Lemma node_deposit cell db rs rs' :
  dc_account_script_hash cell = script_hash (dc_account_script cell) →
  db_rel db rs → check_layer2_deposit_one rth config cell rs = (Ok tt, rs') →
  ∃ db', apply_deposit_request ctx (deposit_request_of cell) db = (Ok tt, db') ∧ db_rel db' rs'.
Proof.
  intros Hh HR Hrun. unfold check_layer2_deposit_one in Hrun. inv_ok.
  rename select (find_or_create_eoa _ _ _ = _) into Hf.
  rename select (mint_sudt CKB_SUDT_ACCOUNT_ID _ _ _ = _) into Hm.
  unfold apply_deposit_request.
  destruct (node_deposit_address _ _ _ _ _ Hh HR Hf) as (db1 & E1 & HR1).
  rewrite (st_bind_run _ _ _ _ _ E1). clear E1 HR. cbn [deposit_request_of dr_capacity].
  node_step Hm db2 HR2. clear HR1. cbn [deposit_request_of dr_sudt_script_hash dr_amount].
  rewrite onchain_sudt_script in *.
  case_bool_decide; cbn [negb] in *; inv_ok; bool_inv.
  { eexists. split; [|done]. apply lift_Ok. split; [|done]. apply reject_if_Ok.
    apply negb_false_iff. by apply Z.eqb_eq. }
  simplify_eq. rename select (get_account_id_by_script_hash _ _ = _) into Hid.
  rename select (mint_sudt _ _ (cv_amount _) _ = _) into Hm2. cbv zeta.
  node_step Hid db3 HR3. clear HR2.
  edestruct node_token_account as (db4 & E4 & HR4); [exact HR3|eassumption|].
  rewrite (st_bind_run _ _ _ _ _ E4). clear E4 HR3.
  rewrite (st_lift_run _ _ _ tt) by (by apply reject_if_Ok, Z.eqb_neq).
  eapply node_call; [eauto with gw typeclass_instances|exact HR4|exact Hm2].
Qed.

(** What the script did when it accepted a withdrawal. *)
Definition withdrawal_steps (producer : RegistryAddress) (raw : RawWithdrawalRequest)
    (rs s1 s2 s3 s4 rs' : RefState) (id : Z) (addr : RegistryAddress) : Prop :=
  get_account_id_by_script_hash (w_account_script_hash raw) rs = (Ok (Some id), rs) ∧
  get_registry_address_by_script_hash (w_registry_id raw) (w_account_script_hash raw) rs
    = (Ok (Some addr), rs) ∧
  burn_sudt CKB_SUDT_ACCOUNT_ID addr (w_fee raw) rs = (Ok tt, s1) ∧
  mint_sudt CKB_SUDT_ACCOUNT_ID producer (w_fee raw) s1 = (Ok tt, s2) ∧
  burn_sudt CKB_SUDT_ACCOUNT_ID addr
    (CKBCapacity_to_layer2 (CKBCapacity_from_layer1 (w_capacity raw))) s2 = (Ok tt, s3) ∧
  nonce_at s3 id = w_nonce raw ∧
  (if bool_decide (w_sudt_script_hash raw = CKB_SUDT_SCRIPT_ARGS)
   then w_amount raw = 0 ∧ s4 = s3
   else ∃ sid, account_id_of s3 (script_hash (l2_sudt_script ctx (w_sudt_script_hash raw))) = Some sid
               ∧ burn_sudt sid addr (w_amount raw) s3 = (Ok tt, s4)) ∧
  set_nonce id (saturating_add 32 (w_nonce raw) 1) s4 = (Ok tt, rs').

Lemma onchain_withdrawal_steps producer request rs rs' :
  check_layer2_withdrawal_one rth config producer request rs = (Ok tt, rs') →
  ∃ s1 s2 s3 s4 id addr, withdrawal_steps producer (w_raw request) rs s1 s2 s3 s4 rs' id addr.
Proof.
  intros Hrun. unfold check_layer2_withdrawal_one, pay_fee in Hrun.
  rewrite onchain_sudt_script in Hrun. cbv zeta in Hrun. inv_ok. bool_inv.
  rename select (get_account_id_by_script_hash _ _ = _) into Hid.
  rename select (get_registry_address_by_script_hash _ _ _ = _) into Ha.
  rename select (get_nonce _ _ = _) into Hn. rename select (set_nonce _ _ _ = _) into Hset.
  pose proof Hid as Hid'. rewrite get_account_id_run in Hid'. injection Hid' as Eid <-.
  pose proof Ha as Ha'. rewrite get_registry_address_run in Ha'. injection Ha' as Ea <-.
  rewrite get_nonce_run in Hn. injection Hn as En <-.
  match type of Hset with context [saturating_add 32 ?n 1] =>
    replace n with (w_nonce (w_raw request)) in Hset by congruence end.
  match goal with
  | H1 : burn_sudt _ _ (w_fee _) _ = (Ok tt, ?a), H2 : mint_sudt _ _ _ _ = (Ok tt, ?b),
    H3 : burn_sudt _ _ _ ?b = (Ok tt, ?c) |- _ =>
      exists a, b, c end.
  eexists _, _, _. repeat (split; [eassumption|]). split; [congruence|].
  split; [|exact Hset]. clear Hset. case_bool_decide; inv_ok; bool_inv; [by split|].
  rename select (get_account_id_by_script_hash _ _ = _) into Ht. rewrite get_account_id_run in Ht.
  injection Ht as Et <-. eexists. by split.
Qed.

Lemma registry_address_run_at rs p a :
  get_registry_address_by_script_hash p.1 p.2 rs = (Ok (Some a), rs) →
  registry_address_at rs p = Some a.
Proof.
  intros Ha. rewrite get_registry_address_run in Ha. injection Ha as Ha.
  unfold registry_address_at. by repeat case_match; simplify_eq.
Qed.
Lemma steps_address producer raw rs s1 s2 s3 s4 rs' id addr :
  withdrawal_steps producer raw rs s1 s2 s3 s4 rs' id addr →
  registry_address_at rs (withdrawer raw) = Some addr.
Proof.
  intros (_ & Ha & _). by apply registry_address_run_at.
Qed.

(** Such a withdrawal writes the balances and supplies of its tokens and the
    nonce, nothing else. *)
Lemma withdrawal_steps_keep producer raw rs s1 s2 s3 s4 rs' id addr k :
  withdrawal_steps producer raw rs s1 s2 s3 s4 rs' id addr →
  (∀ sid a, u32 sid → a ∈ [addr; producer] → apart_from_token k sid a) →
  kv_get s3 k = kv_get rs k ∧ kv_get s4 k = kv_get s3 k ∧
  (k ≠ build_account_field_key id GW_ACCOUNT_NONCE_TYPE → kv_get rs' k = kv_get rs k).
Proof.
  intros (_ & _ & H1' & H2' & H3' & _ & H4' & H5') Hk.
  assert (Ha : ∀ sid, u32 sid → apart_from_token k sid addr) by (intros; apply Hk; [done|left]).
  apply (keeps_burn k) in H1'; [|by apply Ha]. apply (keeps_burn k) in H3'; [|by apply Ha].
  apply (keeps_mint k) in H2'; [|apply Hk; [done|right; left]].
  assert (E4 : kv_get s4 k = kv_get s3 k).
  { case_bool_decide; [by destruct H4' as [_ ->]|]. destruct H4' as (sid & Hsid & Hb).
    apply (keeps_burn k) in Hb; [done|]. by apply Ha, (account_id_range s3 _ _ Hsid). }
  split; [congruence|]. split; [done|]. intros Hf.
  apply (keeps_update_raw k _ _ Hf) in H5'. congruence.
Qed.

(** The keys of parties, of scripts and of nonces stay apart from the tokens of
    the addresses, when the hashed preimages do not collide. *)
Section Apart.
Context (parties : list (Z * H256)) (scripts : list H256) (addrs : list RegistryAddress).
Context (Hcf : collision_free (hashed parties scripts addrs)).
Local Hint Extern 1 (hashed _ _ _ _) => (econstructor; eassumption) : core.

Lemma script_key_apart sh sid a :
  sh ∈ scripts → u32 sid → a ∈ addrs →
  apart_from_token (build_script_hash_to_account_id_key sh) sid a.
Proof.
  intros. split; (eapply collision_free_ne; [exact Hcf|eauto..|]);
    apply not_eq_sym, account_script_preimage_ne.
Qed.
Lemma party_key_apart p sid a :
  p ∈ parties → u32 sid → a ∈ addrs → apart_from_token (hash_to_addr_key p.1 p.2) sid a.
Proof.
  intros. split; (eapply collision_free_ne; [exact Hcf|eauto..|]); by intros [=]%account_key_preimage_key.
Qed.
Lemma nonce_key_apart id sid a :
  u32 sid → a ∈ addrs → apart_from_token (build_account_field_key id GW_ACCOUNT_NONCE_TYPE) sid a.
Proof. intros. split; (eapply Hcf; [eauto|left]). Qed.

(** What the withdrawals of a block rely on: their senders' addresses are among
    the known ones, and their tokens are the expected accounts. *)
Record withdrawals_view (hashes : list H256) rs : Prop := {
  wv_parties p a : p ∈ parties → registry_address_at rs p = Some a → a ∈ addrs;
  wv_tokens : tokens_ok ctx hashes rs;
}.

Lemma withdrawals_view_keep hashes producer raw rs s1 s2 s3 s4 rs' id addr :
  (∀ h, h ∈ hashes → script_hash (l2_sudt_script ctx h) ∈ scripts) →
  addr ∈ addrs → producer ∈ addrs → withdrawals_view hashes rs →
  withdrawal_steps producer raw rs s1 s2 s3 s4 rs' id addr →
  withdrawals_view hashes s3 ∧ withdrawals_view hashes rs'.
Proof.
  intros Hin Ha Hp [Hpt Htok] Hst.
  assert (Hkeep : ∀ k, (∀ sid a, u32 sid → a ∈ addrs → apart_from_token k sid a) →
    k ≠ build_account_field_key id GW_ACCOUNT_NONCE_TYPE →
    kv_get s3 k = kv_get rs k ∧ kv_get rs' k = kv_get rs k).
  { intros k Hk Hf. edestruct withdrawal_steps_keep as (E3 & _ & E5); [exact Hst| |by eauto].
    intros sid a Hs Hm. apply Hk; [done|]. by set_unfold; destruct_or?; subst. }
  assert (Hs : ∀ h, h ∈ hashes → account_id_of s3 (script_hash (l2_sudt_script ctx h))
      = account_id_of rs (script_hash (l2_sudt_script ctx h)) ∧
    account_id_of rs' (script_hash (l2_sudt_script ctx h))
      = account_id_of rs (script_hash (l2_sudt_script ctx h))).
  { intros h Hh. unfold account_id_of.
    edestruct (Hkeep (build_script_hash_to_account_id_key (script_hash (l2_sudt_script ctx h))))
      as [-> ->]; [intros; apply script_key_apart; eauto| |done].
    apply not_eq_sym. apply Hcf; [|left]. by apply hashed_script, Hin. }
  assert (Hr : ∀ p, p ∈ parties → registry_address_at s3 p = registry_address_at rs p ∧
    registry_address_at rs' p = registry_address_at rs p).
  { intros p Hpp. unfold registry_address_at.
    edestruct (Hkeep (hash_to_addr_key p.1 p.2)) as [-> ->]; [intros; by apply party_key_apart| |done].
    apply not_eq_sym. apply Hcf; [|left]. by apply hashed_party. }
  split; (split; [intros p a Hpp|intros h Hh]);
    [rewrite (proj1 (Hr p Hpp))|rewrite (proj1 (Hs h Hh))|rewrite (proj2 (Hr p Hpp))|rewrite (proj2 (Hs h Hh))];
    eauto.
Qed.

(** One withdrawal of the block, from what it relies on. *)
Lemma withdrawal_step_view hashes producer raw rs s1 s2 s3 s4 rs' id addr :
  (∀ h, h ∈ hashes → script_hash (l2_sudt_script ctx h) ∈ scripts) →
  withdrawer raw ∈ parties → producer ∈ addrs → withdrawals_view hashes rs →
  withdrawal_steps producer raw rs s1 s2 s3 s4 rs' id addr →
  (∀ sid a, u32 sid → a ∈ [addr; producer] →
     apart_from_token (build_account_field_key id GW_ACCOUNT_NONCE_TYPE) sid a) ∧
  withdrawals_view hashes s3 ∧ withdrawals_view hashes rs'.
Proof.
  intros Hin Hw Hprod Hv Hst.
  assert (Ha : addr ∈ addrs) by (eapply wv_parties; [exact Hv|exact Hw|by eapply steps_address]).
  split; [|eapply withdrawals_view_keep; [exact Hin|exact Ha|exact Hprod|exact Hv|exact Hst]].
  intros sid a Hs Hm. apply nonce_key_apart; [done|]. by set_unfold; destruct_or?; subst.
Qed.
End Apart.

(** The token part of the node's withdrawal. *)
Lemma node_withdrawal_token producer raw db rs s1 s2 s3 s4 rs' id addr {A} (f : unit → ST (StateDB S) GenError.t A) :
  withdrawal_steps producer raw rs s1 s2 s3 s4 rs' id addr →
  tokens_ok ctx [w_sudt_script_hash raw] s3 → db_rel db s3 →
  ∃ db', db_rel db' s4 ∧
   (o ← st_map_err GenError.State (get_account_id_by_script_hash
          (script_hash (l2_sudt_script ctx (w_sudt_script_hash raw))));
    sudt_id ← lift (ok_or (GenError.Account UnknownSUDT) o);
    (if negb (sudt_id =? CKB_SUDT_ACCOUNT_ID)
     then st_map_err GenError.State (burn_sudt sudt_id addr (w_amount raw))
     else lift (reject_if (negb (w_amount raw =? 0))
                  (GenError.Withdrawal WithdrawalError.WithdrawFakedCKB))) ≫= f) db = f tt db'.
Proof.
  intros (_ & _ & _ & _ & _ & _ & Ht & _) Htok HR.
  specialize (Htok (w_sudt_script_hash raw) ltac:(left)).
  pose proof (get_account_id_run s3 (script_hash (l2_sudt_script ctx (w_sudt_script_hash raw)))) as Hid.
  node_step Hid db1 HR1. clear HR. case_bool_decide as Eh.
  - destruct Ht as [Ea ->]. exists db1. split; [done|]. rewrite (proj2 Htok Eh).
    rewrite (st_lift_run _ _ _ CKB_SUDT_ACCOUNT_ID) by done. rewrite Z.eqb_refl. cbn [negb].
    rewrite (st_lift_run _ _ _ tt); [done|]. by rewrite Ea.
  - destruct Ht as (sid & Esid & Hb). rewrite Esid. rewrite (st_lift_run _ _ _ sid) by done.
    rewrite Esid in Htok. rewrite (proj2 (Z.eqb_neq _ _)) by (intros ->; by apply Eh, Htok). cbn [negb].
    node_step Hb db2 HR2. by exists db2.
Qed.

(** The end of [apply_withdrawal_request]: raise the nonce and close the entry. *)
Definition withdrawal_end (id nonce : Z) : ST (StateDB S) GenError.t WithdrawalReceipt :=
  new_nonce ← lift (ok_or (GenError.Withdrawal WithdrawalError.NonceOverflow)
                      (checked_add 32 nonce 1));
  st_map_err GenError.State (set_nonce id new_nonce) ;;
  st_map_err GenError.State j_finalise ;;
  account_root ← st_map_err GenError.State calculate_root;
  account_count ← st_map_err GenError.State get_account_count;
  mret (mkWithdrawalReceipt (mkAccountMerkleState account_root account_count)).

(** Up to there the node follows the script. *)
Lemma node_withdrawal_start producer request db rs s1 s2 s3 s4 rs' id addr :
  (∀ sid a, u32 sid → a ∈ [addr; producer] →
     apart_from_token (build_account_field_key id GW_ACCOUNT_NONCE_TYPE) sid a) →
  tokens_ok ctx [w_sudt_script_hash (w_raw request)] s3 → db_rel db rs →
  withdrawal_steps producer (w_raw request) rs s1 s2 s3 s4 rs' id addr →
  ∃ db', db_rel db' s4 ∧
    apply_withdrawal_request ctx producer request db = withdrawal_end id (w_nonce (w_raw request)) db'.
Proof.
  intros Hap Htok HR Hst. pose proof Hst as (Hid & Ha & Hb1 & Hm & Hb2 & Hnonce & _ & _).
  unfold apply_withdrawal_request, node_pay_fee. cbv zeta.
  node_step Ha db1 HR1. clear HR. rewrite (st_lift_run _ _ _ addr) by done.
  node_step Hid db2 HR2. clear HR1. rewrite (st_lift_run _ _ _ id) by done.
  edestruct (node_call GenError.State (burn_sudt CKB_SUDT_ACCOUNT_ID addr (w_fee (w_raw request))))
    as (db3 & E3 & HR3); [|exact HR2|exact Hb1|]; [eauto with gw typeclass_instances|].
  edestruct (node_call GenError.State (mint_sudt CKB_SUDT_ACCOUNT_ID producer (w_fee (w_raw request))))
    as (db4 & E4 & HR4); [|exact HR3|exact Hm|]; [eauto with gw typeclass_instances|].
  rewrite (st_bind_run _ _ _ tt db4) by (by rewrite (st_bind_run _ _ _ _ _ E3)).
  clear HR2 E3 HR3 E4. node_step Hb2 db5 HR5. clear HR4.
  edestruct node_withdrawal_token as (db6 & HR6 & ->); [exact Hst|exact Htok|exact HR5|]. clear HR5.
  assert (En : nonce_at s4 id = w_nonce (w_raw request)).
  { rewrite <- Hnonce. unfold nonce_at. f_equal.
    apply (withdrawal_steps_keep _ _ _ _ _ _ _ _ _ _
      (build_account_field_key id GW_ACCOUNT_NONCE_TYPE) Hst). exact Hap. }
  pose proof (get_nonce_run s4 id) as Hg. rewrite En in Hg. node_step Hg db7 HR7. by exists db7.
Qed.

Lemma node_withdrawal producer request db rs s1 s2 s3 s4 rs' id addr :
  (∀ sid a, u32 sid → a ∈ [addr; producer] →
     apart_from_token (build_account_field_key id GW_ACCOUNT_NONCE_TYPE) sid a) →
  tokens_ok ctx [w_sudt_script_hash (w_raw request)] s3 →
  0 ≤ w_nonce (w_raw request) < u32_max → db_rel db rs →
  withdrawal_steps producer (w_raw request) rs s1 s2 s3 s4 rs' id addr →
  ∃ db', apply_withdrawal_request ctx producer request db
         = (Ok (mkWithdrawalReceipt (mkAccountMerkleState (last_state_root db') (rs_count rs'))), db')
    ∧ db_rel db' rs' ∧ is_dirty db' = false.
Proof.
  intros Hap Htok Hn HR Hst. pose proof Hst as (_ & _ & _ & _ & _ & _ & _ & Hset).
  destruct (node_withdrawal_start _ _ _ _ _ _ _ _ _ _ _ Hap Htok HR Hst) as (db7 & HR7 & ->).
  unfold withdrawal_end, u32_max in *.
  rewrite (st_lift_run _ _ _ (w_nonce (w_raw request) + 1))
    by (unfold checked_add; rewrite (proj2 (Z.ltb_lt _ _)) by lia; done).
  unfold saturating_add in Hset. rewrite Z.min_l in Hset by lia.
  edestruct (node_call GenError.State (set_nonce id (w_nonce (w_raw request) + 1)))
    as (db8 & E8 & HR8); [|exact HR7|exact Hset|]; [eauto with gw typeclass_instances|].
  rewrite (st_bind_run _ _ _ _ _ E8). apply st_map_err_Ok, update_raw_dirty in E8.
  destruct (node_finalise db8 rs' HR8 E8) as (db9 & E9 & HR9 & Hd & Hroot & Hcount).
  rewrite (st_bind_run _ _ _ tt db9) by (by apply st_map_err_Ok).
  rewrite (st_bind_run _ _ _ _ db9) by (by apply st_map_err_Ok).
  rewrite (st_bind_run _ _ _ _ db9) by (by apply st_map_err_Ok). by exists db9.
Qed.

Lemma withdrawals_view_incl parties addrs l l' rs :
  (∀ x, x ∈ l' → x ∈ l) → withdrawals_view parties addrs l rs → withdrawals_view parties addrs l' rs.
Proof. intros Hi [Hp Ht]. split; [done|]. intros h Hh. by apply Ht, Hi. Qed.

Lemma node_withdrawals parties scripts addrs producer ws db rs rs' :
  collision_free (hashed parties scripts addrs) →
  Forall (λ w, withdrawer (w_raw w) ∈ parties ∧
               script_hash (l2_sudt_script ctx (w_sudt_script_hash (w_raw w))) ∈ scripts) ws →
  producer ∈ addrs →
  withdrawals_view parties addrs (w_sudt_script_hash ∘ w_raw <$> ws) rs →
  Forall (λ w, u32 (w_nonce (w_raw w)) ∧ w_nonce (w_raw w) ≠ u32_max) ws → db_rel db rs →
  st_for ws (check_layer2_withdrawal_one rth config producer) rs = (Ok tt, rs') →
  ∃ db', st_for ws (λ w, apply_withdrawal_request ctx producer w ;; mret tt) db = (Ok tt, db')
    ∧ db_rel db' rs'.
Proof.
  intros Hcf Hin Hprod. revert db rs.
  induction ws as [|w ws IH]; intros db rs Hv Hn HR Hrun; cbn [st_for] in *.
  { inv_ok. subst. by exists db. }
  pose proof Hin as Hin'. apply Forall_cons in Hin' as [[Hw _] Hins].
  apply Forall_cons in Hn as [Hn Hns]. inv_ok.
  rename select (check_layer2_withdrawal_one _ _ _ _ _ = _) into Hone.
  apply onchain_withdrawal_steps in Hone as (s1 & s2 & s3 & s4 & id & addr & Hst).
  edestruct (withdrawal_step_view parties scripts addrs Hcf) as (Hap & Hv3 & Hv');
    [|exact Hw|exact Hprod|exact Hv|exact Hst|].
  { intros h Hh. apply list_elem_of_fmap in Hh as (w' & -> & Hw'). rewrite Forall_forall in Hin.
    by apply (Hin w' Hw'). }
  edestruct (node_withdrawal producer w db rs) as (db1 & E1 & HR1 & _);
    [exact Hap| | |exact HR|exact Hst|].
  { intros h ->%list_elem_of_singleton. apply Hv3. left. }
  { unfold in_width, u32_max in *. lia. }
  rewrite (st_bind_run _ _ _ tt db1) by (by rewrite (st_bind_run _ _ _ _ _ E1)).
  eapply IH; [done| |done|exact HR1|done].
  eapply withdrawals_view_incl; [|exact Hv']. intros y Hy. by right.
Qed.

(** The state before the block gives what its withdrawals rely on. *)
Lemma withdrawals_view_start producer ws rs :
  tokens_ok ctx (w_sudt_script_hash ∘ w_raw <$> ws) rs →
  withdrawals_view (withdrawer ∘ w_raw <$> ws)
    (producer :: omap (registry_address_at rs) (withdrawer ∘ w_raw <$> ws))
    (w_sudt_script_hash ∘ w_raw <$> ws) rs.
Proof.
  intros Ht. split; [|done]. intros p a Hp Ha. right. apply list_elem_of_omap. eauto.
Qed.

Lemma node_deposits cells db rs rs' :
  Forall (λ c, dc_account_script_hash c = script_hash (dc_account_script c)) cells →
  db_rel db rs → check_layer2_deposit rth config cells rs = (Ok tt, rs') →
  ∃ db', st_for cells (λ c, apply_deposit_request ctx (deposit_request_of c)) db = (Ok tt, db')
    ∧ db_rel db' rs'.
Proof.
  unfold check_layer2_deposit. revert db rs.
  induction cells as [|c cells IH]; intros db rs Hc HR Hrun; cbn [st_for] in *.
  { inv_ok. subst. by exists db. }
  apply Forall_cons in Hc as [Hc Hcs]. inv_ok.
  rename select (check_layer2_deposit_one _ _ _ _ = _) into Hone.
  destruct (node_deposit _ _ _ _ Hc HR Hone) as (db1 & E1 & HR1).
  rewrite (st_bind_run _ _ _ _ _ E1). by eapply IH.
Qed.
End Agreement.

(** C24. What the rollup script accepts, the node can apply: from related
    states, when the script replays the withdrawals and deposits of a block on
    the partial state of its witness, the node's loops over
    [apply_withdrawal_request] and [apply_deposit_request] run to the end
    without an error or a panic, and the two end in related states again, so
    every account, balance, nonce and address mapping the script can see is the
    node's.  Conditions: no withdrawal carries the last nonce, u32::MAX, where
    script and node part ([last_nonce_diverges]); of the scripts of the withdrawn
    tokens, that of layer-2 CKB and only that one is account 1; the script hash
    of a deposit is that of its script; and the preimages of the keys the
    withdrawals hash do not collide with each other or with an account field
    key. *)
Theorem node_applies_accepted_requests `{Blake2b, Molecule, SmtCLaws, SmtRoot} {S : Type}
    `{StateView S, MapIter} (ctx : RollupContext) (block : L2Block)
    (cells : list DepositRequestCell) (producer : RegistryAddress) (ks ks1 ks2 : KVState)
    (db : StateDB S) (rs : RefState) :
  RegistryAddress_from_slice (block_producer (block_raw block)) = Some producer →
  collision_free (withdrawals_hashed ctx producer (block_withdrawals block) rs) →
  tokens_ok ctx (w_sudt_script_hash ∘ w_raw <$> block_withdrawals block) rs →
  Forall (λ w, u32 (w_nonce (w_raw w)) ∧ w_nonce (w_raw w) ≠ u32_max) (block_withdrawals block) →
  Forall (λ c, dc_account_script_hash c = script_hash (dc_account_script c)) cells →
  kv_rel ks rs → db_rel db rs →
  check_layer2_withdrawal (rollup_script_hash ctx) (rollup_config ctx) block ks = (Ok tt, ks1) →
  check_layer2_deposit (rollup_script_hash ctx) (rollup_config ctx) cells ks1 = (Ok tt, ks2) →
  ∃ db1 db2 rs2,
    st_for (block_withdrawals block)
      (λ w, apply_withdrawal_request ctx producer w ;; mret tt) db = (Ok tt, db1) ∧
    st_for cells (λ c, apply_deposit_request ctx (deposit_request_of c)) db1 = (Ok tt, db2) ∧
    kv_rel ks2 rs2 ∧ db_rel db2 rs2.
Proof.
  intros Hp Hcf Htok Hn Hc HK HD Hrun1 Hrun2.
  destruct (sim_check_layer2_withdrawal kv_rel (rollup_script_hash ctx) (rollup_config ctx) block
    ks rs HK) as [(e & k1' & E & ->)|(r & k1' & rs1 & E & E1 & HK1)]; [congruence|].
  rewrite Hrun1 in E. injection E as <- <-.
  destruct (sim_check_layer2_deposit kv_rel (rollup_script_hash ctx) (rollup_config ctx) cells
    ks1 rs1 HK1) as [(e & k2' & E & ->)|(r & k2' & rs2 & E & E2 & HK2)]; [congruence|].
  rewrite Hrun2 in E. injection E as <- <-.
  assert (E1' : st_for (block_withdrawals block) (check_layer2_withdrawal_one
    (rollup_script_hash ctx) (rollup_config ctx) producer) rs = (Ok tt, rs1)).
  { unfold check_layer2_withdrawal in E1. destruct (block_withdrawals block) as [|w ws]; [done|].
    rewrite Hp in E1. by rewrite (st_lift_run _ _ _ producer) in E1. }
  edestruct (node_withdrawals ctx) as (db1 & Ew & HD1);
    [exact Hcf| |left|by apply withdrawals_view_start|exact Hn|exact HD|exact E1'|].
  { apply Forall_forall. intros w Hw. split; apply list_elem_of_fmap; by exists w. }
  destruct (node_deposits ctx cells db1 rs1 rs2) as (db2 & Ed & HD2); try done.
  by exists db1, db2, rs2.
Qed.

(** C25. At the last nonce the script and the node part: when the script replays a
    withdrawal whose nonce is u32::MAX, [saturating_add] leaves the nonce there, while the
    node's [apply_withdrawal_request] on a related state returns [NonceOverflow].  As in
    [node_applies_accepted_requests], the token's script is account 1 exactly when it is
    that of layer-2 CKB, and the preimages of the keys the withdrawal hashes do not
    collide with each other or with an account field key. *)
Theorem last_nonce_diverges `{Blake2b, Molecule, SmtRoot} {S : Type} `{StateView S, MapIter}
    (ctx : RollupContext) (producer : RegistryAddress) (request : WithdrawalRequest)
    (db : StateDB S) (rs rs' : RefState) :
  let raw := w_raw request in
  collision_free (withdrawals_hashed ctx producer [request] rs) →
  tokens_ok ctx [w_sudt_script_hash raw] rs → w_nonce raw = u32_max → db_rel db rs →
  check_layer2_withdrawal_one (rollup_script_hash ctx) (rollup_config ctx) producer request rs
    = (Ok tt, rs') →
  (∃ id, account_id_of rs (w_account_script_hash raw) = Some id ∧ nonce_at rs' id = u32_max) ∧
  (apply_withdrawal_request ctx producer request db).1
    = Err (GenError.Withdrawal WithdrawalError.NonceOverflow).
Proof.
  intros raw Hcf Htok Hn HR Hrun.
  apply onchain_withdrawal_steps in Hrun as (s1 & s2 & s3 & s4 & id & addr & Hst).
  edestruct (withdrawal_step_view ctx) as (Hap & [_ Htok3] & _);
    [exact Hcf| |left|left|by apply (withdrawals_view_start ctx producer [request])|exact Hst|].
  { intros h ->%list_elem_of_singleton. left. }
  destruct (node_withdrawal_start ctx producer request db rs s1 s2 s3 s4 rs' id addr)
    as (db7 & HR7 & ->); [done..|]. fold raw. rewrite Hn. split; [|done].
  destruct Hst as (Hid & _ & _ & _ & _ & _ & _ & Hset). exists id.
  rewrite get_account_id_run in Hid. injection Hid as Hid. split; [done|].
  unfold nonce_at. fold raw in Hset. rewrite Hn in Hset. injection Hset as <-.
  by rewrite kv_get_put_eq.
Qed.
