(* ===== verification/AccountLocks.v ===== *)
(** * Account locks of the node

    Models [crates/generator/src/account_lock_manage]: the [LockAlgorithm]
    trait, its implementations [AlwaysSuccess] and [Secp256k1Eth], and the table
    of algorithms ([mod.rs], [always_success.rs], [secp256k1.rs]).  The EIP-712
    types of [account_lock_manage/eip712] are those of the challenge lock
    ([Eip712]).  Recovering a public key is a parameter.

    The theorems compare the message the node verifies a signature against with
    the message the challenge lock builds on chain
    ([ChallengeLock.tx_signing_message], [Eip712.withdrawal_eip712_message]). *)
From Stdlib Require Import ZArith Lia Strings.Byte.
From stdpp Require Import prelude list gmap.
From S2P Require Import Prelude Bytes Types State StateSpec StateDB Ckb Eip712 NodeUtils.
From S2P Require Import SubmitBlock Locks ChallengeLock NodeState.
Local Open Scope Z_scope.

(** [SECP256K1.recover_ecdsa] of a compact signature, with
    [RecoverableSignature::from_compact] and [Message::from_slice]: the 65 bytes
    of the uncompressed key. *)
Class Secp256k1 := recover_ecdsa : H256 → bytes → Z → option bytes.

Record WithdrawalRequestExtra := mkWithdrawalRequestExtra {
  we_request : WithdrawalRequest; we_owner_lock : Script;
}.

(** ** The trait *)
Record LockAlgorithm := mkLockAlgorithm {
  la_recover : H256 → bytes → outcome LockAlgorithmError bytes;
  la_verify_tx : RollupContext → RegistryAddress → Script → Script → L2Transaction →
                 outcome LockAlgorithmError unit;
  la_verify_withdrawal : RollupContext → Script → WithdrawalRequestExtra → RegistryAddress →
                         outcome LockAlgorithmError unit;
}.
Record AccountLockManage := mkAccountLockManage { locks : gmap H256 LockAlgorithm }.

Definition register_lock_algorithm (code_hash : H256) (lock_algo : LockAlgorithm)
    (m : AccountLockManage) : AccountLockManage :=
  mkAccountLockManage (<[code_hash := lock_algo]> (locks m)).
Definition get_lock_algorithm (code_hash : H256) (m : AccountLockManage) : option LockAlgorithm :=
  locks m !! code_hash.

Definition AlwaysSuccess : LockAlgorithm :=
  mkLockAlgorithm (λ _ _, Ok []) (λ _ _ _ _ _, Ok tt) (λ _ _ _ _, Ok tt).

(** [RawL2Transaction::is_chain_id_protected] (types/src/extension.rs) *)
Definition is_chain_id_protected (raw_tx : RawL2Transaction) : bool := negb (tx_chain_id raw_tx =? 0).

(** ** [Secp256k1Eth] (secp256k1.rs) *)
Section Secp256k1Eth.
Context `{Blake2b, Molecule, Keccak256, EthAbi, Rlp, Secp256k1}.
Local Abbreviation M := (outcome LockAlgorithmError).

Definition convert_signature_to_byte65 (signature : bytes) : M bytes :=
  if (length signature =? 65)%nat then Ok signature else Err InvalidSignature.

Definition extract_rec_id (rec_id : Z) : Z :=
  if rec_id =? 27 then 0 else if rec_id =? 28 then 1 else rec_id.

(** [RecoveryId::from_i32] *)
Definition recovery_id (id : Z) : M Z := if id <? 4 then Ok id else Err InvalidSignature.

Definition secp256k1_recover (message : H256) (signature : bytes) : M bytes :=
  signature ← convert_signature_to_byte65 signature;
  rec_byte ← slice 64 65 signature;
  recid ← recovery_id (extract_rec_id (le_val rec_byte));
  data ← slice 0 64 signature;
  pubkey ← ok_or InvalidSignature (recover_ecdsa message data recid);
  Ok (drop 12 (keccak256 (drop 1 pubkey))).

Definition verify_alone (lock_args signature : bytes) (message : H256) : M unit :=
  reject_if (negb (length lock_args =? 52)%nat) InvalidLockArgs ;;
  pubkey_hash ← secp256k1_recover message signature;
  expected ← slice 32 52 lock_args;
  reject_if (negb (bool_decide (pubkey_hash = expected))) InvalidSignature.

(** The Ethereum transaction behind a polyjuice one; the [to] address of a call
    is in the arguments of the receiver's script. *)
Definition node_try_assemble_polyjuice_args (raw_tx : RawL2Transaction) (receiver_script : Script) :
    option bytes :=
  p ← PolyjuiceParser.from_raw_l2_tx raw_tx;
  to ← (if PolyjuiceParser.is_create p then Some []
        else if PolyjuiceParser.is_native_transfer p then PolyjuiceParser.to_address p
        else if negb (length (args receiver_script) =? 56)%nat then None
        else Some (drop 36 (args receiver_script)));
  Some (rlp_list ([RlpUint (tx_nonce raw_tx); RlpUint (PolyjuiceParser.gas_price p);
                   RlpUint (PolyjuiceParser.gas p); RlpBytes to;
                   RlpUint (PolyjuiceParser.value p); RlpBytes (PolyjuiceParser.data p)]
                  ++ (if is_chain_id_protected raw_tx
                      then [RlpUint (tx_chain_id raw_tx); RlpUint 0; RlpUint 0] else []))).

(** Why building a message failed. *)
Inductive SigningError := MismatchTxChainId | InvalidPolyjuiceArgs | BadTypedTx.

Definition polyjuice_tx_signing_message (chain_id : Z) (raw_tx : RawL2Transaction)
    (receiver_script : Script) : outcome SigningError H256 :=
  reject_if (is_chain_id_protected raw_tx && negb (chain_id =? tx_chain_id raw_tx))
    MismatchTxChainId ;;
  rlp_data ← ok_or InvalidPolyjuiceArgs (node_try_assemble_polyjuice_args raw_tx receiver_script);
  Ok (keccak256 rlp_data).

Definition eip712_signing_message (chain_id : Z) (raw_tx : RawL2Transaction)
    (sender_registry_address : RegistryAddress) (to_script_hash : H256) : outcome SigningError H256 :=
  typed_tx ← map_err (λ _, BadTypedTx)
               (EipL2Transaction_from_raw raw_tx sender_registry_address to_script_hash);
  Ok (eip712_message typed_tx (hash_struct (domain_with_chain_id chain_id))).

Definition secp256k1_verify_tx (ctx : RollupContext) (sender_address : RegistryAddress)
    (sender_script receiver_script : Script) (tx : L2Transaction) : M unit :=
  let raw_tx := tx_raw tx in
  let is_protected := is_chain_id_protected raw_tx in
  reject_if (is_protected && negb (rc_chain_id (rollup_config ctx) =? tx_chain_id raw_tx))
    InvalidTransactionArgs ;;
  match node_try_assemble_polyjuice_args raw_tx receiver_script with
  | Some rlp_data => verify_alone (args sender_script) (tx_signature tx) (keccak256 rlp_data)
  | None =>
      reject_if (negb is_protected) InvalidTransactionArgs ;;
      typed_tx ← map_err (λ _, InvalidSignature)
                   (EipL2Transaction_from_raw raw_tx sender_address (script_hash receiver_script));
      verify_alone (args sender_script) (tx_signature tx)
        (eip712_message typed_tx (hash_struct (domain_with_chain_id (tx_chain_id raw_tx))))
  end.

Definition secp256k1_verify_withdrawal (ctx : RollupContext) (sender_script : Script)
    (withdrawal : WithdrawalRequestExtra) (address : RegistryAddress) : M unit :=
  let raw := w_raw (we_request withdrawal) in
  reject_if (negb (rc_chain_id (rollup_config ctx) =? w_chain_id raw)) InvalidSignature ;;
  typed_message ← map_err (λ _, InvalidSignature)
                    (EipWithdrawal_from_raw raw (we_owner_lock withdrawal) address);
  verify_alone (args sender_script) (w_signature (we_request withdrawal))
    (eip712_message typed_message (hash_struct (domain_with_chain_id (w_chain_id raw)))).

Definition Secp256k1Eth : LockAlgorithm :=
  mkLockAlgorithm secp256k1_recover secp256k1_verify_tx secp256k1_verify_withdrawal.
End Secp256k1Eth.

(** ** The message of the node and the message of the challenge lock *)
#[local] Arguments le_val : simpl never.

Section Agree.
Context `{Blake2b, Molecule, Keccak256, EthAbi, Rlp, Secp256k1}.
Implicit Types (raw : RawL2Transaction) (receiver : Script).

(** Neither side reads the sender of a contract creation from elsewhere: the
    two Ethereum transactions are the same bytes, and for anything that is not
    a polyjuice transaction there is none on either side. *)
Lemma polyjuice_args_agree raw receiver :
  is_chain_id_protected raw = true →
  (∀ p, PolyjuiceParser.from_raw_l2_tx raw = Some p →
     PolyjuiceParser.is_create p = true ∧ PolyjuiceParser.to_address p = None) →
  node_try_assemble_polyjuice_args raw receiver = try_assemble_polyjuice_args raw receiver.
Proof.
  intros Hprot Hp. unfold node_try_assemble_polyjuice_args, try_assemble_polyjuice_args.
  unfold PolyjuiceParser.from_raw_l2_tx, PolyjuiceParser.data_size in *. cbv zeta in *.
  cbn [PolyjuiceParser.raw] in *.
  destruct (length (tx_args raw) <? 52)%nat; [done|].
  destruct (negb (bool_decide _)); [done|].
  set (size := Z.to_nat (le_val (sub_bytes 48 4 (tx_args raw)))) in *.
  destruct (Nat.eqb_spec (length (tx_args raw)) (52 + size)) as [El|Hl]; cbn [negb andb] in *.
  - destruct (Hp _ eq_refl) as [Hc _]. cbn [mbind option_bind].
    unfold PolyjuiceParser.is_create, PolyjuiceParser.call_kind in *. cbn [PolyjuiceParser.raw] in *.
    change EVMC_CREATE with 3. rewrite Hc, Hprot. cbn [mbind option_bind app].
    unfold PolyjuiceParser.data, PolyjuiceParser.data_size. cbn [PolyjuiceParser.raw]. fold size.
    assert (Ed : sub_bytes 52 size (tx_args raw) = drop 52 (tx_args raw)).
    { unfold sub_bytes. by rewrite take_ge by (rewrite length_drop; lia). }
    by rewrite Ed.
  - assert (Hnone : ∀ o : option bytes, (o ≫= λ _, None) = (None : option bytes)) by (by intros []).
    destruct (Nat.eqb_spec (length (tx_args raw)) (52 + size + 20)) as [El|]; cbn [negb mbind option_bind].
    + destruct (Hp _ eq_refl) as [_ Ht]. unfold PolyjuiceParser.to_address, PolyjuiceParser.data_size in Ht.
      cbn [PolyjuiceParser.raw] in Ht. fold size in Ht. rewrite El, Nat.eqb_refl in Ht. done.
    + symmetry. apply Hnone.
Qed.

(** A polyjuice call: both sides build an Ethereum transaction, and they agree
    only if the address in the receiver's script is the one the lock makes of
    the script hash and the account id. *)
Lemma polyjuice_call_messages_differ `{!RlpLaws} raw receiver d d' :
  node_try_assemble_polyjuice_args raw receiver = Some d →
  try_assemble_polyjuice_args raw receiver = Some d' →
  (∀ p, PolyjuiceParser.from_raw_l2_tx raw = Some p → PolyjuiceParser.is_create p = false) →
  drop 36 (args receiver) ≠ take 16 (script_hash receiver) ++ le_bytes 4 (tx_to_id raw) →
  is_chain_id_protected raw = true → 0 ≤ tx_nonce raw → 0 ≤ tx_chain_id raw → d ≠ d'.
Proof.
  unfold node_try_assemble_polyjuice_args, try_assemble_polyjuice_args.
  intros Hd Hd' Hc Hne Hprot Hn Hch <-. rewrite Hprot in Hd.
  destruct (PolyjuiceParser.from_raw_l2_tx raw) as [p|] eqn:Ep; [|done].
  specialize (Hc p eq_refl). pose proof Hc as Hc'. cbn [mbind option_bind] in Hd. rewrite Hc in Hd.
  destruct (polyjuice_parser_inv _ _ Ep) as [-> _].
  unfold PolyjuiceParser.is_create, PolyjuiceParser.call_kind in Hc'. cbn [PolyjuiceParser.raw] in Hc'.
  cbv zeta in Hd'. change EVMC_CREATE with 3 in Hd'. rewrite Hc' in Hd'.
  destruct (length (tx_args raw) <? 52)%nat; [done|].
  destruct (negb (bool_decide _)); [done|].
  destruct (length (args receiver) <? 36)%nat eqn:E36; cbn [mbind option_bind] in Hd'; [done|].
  destruct (negb (length (tx_args raw) =? _)%nat) eqn:El; [done|].
  apply negb_false_iff, Nat.eqb_eq in El.
  assert (Hnt : PolyjuiceParser.is_native_transfer (PolyjuiceParser.mk (tx_args raw)) = false).
  { unfold PolyjuiceParser.is_native_transfer, PolyjuiceParser.to_address, PolyjuiceParser.data_size.
    cbn [PolyjuiceParser.raw]. rewrite El.
    rewrite (proj2 (Nat.eqb_neq _ _)) by lia. apply andb_false_r. }
  rewrite Hnt in Hd. destruct (negb (length (args receiver) =? 56)%nat); [done|].
  cbn [mbind option_bind app] in Hd. apply (inj Some) in Hd. apply (inj Some) in Hd'.
  rewrite <- Hd' in Hd. apply rlp_list_inj in Hd; [congruence|].
  repeat (constructor; try done); apply le_val_range.
Qed.
End Agree.

Lemma verify_alone_Ok `{Keccak256, Secp256k1} lock_args signature message :
  verify_alone lock_args signature message = Ok tt →
  length lock_args = 52%nat ∧ secp256k1_recover message signature = Ok (drop 32 lock_args).
Proof.
  unfold verify_alone. intros Hrun. inv_ok. bool_inv. split; [done|].
  rename select (slice _ _ _ = _) into Hs. rewrite slice_within in Hs by lia. injection Hs as <-.
  unfold sub_bytes in *. rewrite take_ge in * by (rewrite length_drop; lia). congruence.
Qed.

(** A signature the node accepts answers a challenge on chain: when
    [verify_tx] accepts a transaction with a protected chain id that is not a
    polyjuice call, or [verify_withdrawal] accepts a withdrawal, the message the
    challenge lock builds for it is one whose signature recovers to the address
    in the sender's script, and the chain id is the rollup's. *)
Theorem node_signature_answers_challenge
    `{Blake2b, Molecule, Keccak256, EthAbi, Rlp, Secp256k1}
    (ctx : RollupContext) (address : RegistryAddress) (sender_script : Script) :
  (∀ receiver_script tx txctx,
     secp256k1_verify_tx ctx address sender_script receiver_script tx = Ok tt →
     is_chain_id_protected (tx_raw tx) = true →
     (∀ p, PolyjuiceParser.from_raw_l2_tx (tx_raw tx) = Some p →
        PolyjuiceParser.is_create p = true ∧ PolyjuiceParser.to_address p = None) →
     receiver txctx = receiver_script → receiver_script_hash txctx = script_hash receiver_script →
     sender_address txctx = address →
     ∃ message, tx_signing_message (tx_raw tx) txctx = Ok message ∧
       tx_chain_id (tx_raw tx) = rc_chain_id (rollup_config ctx) ∧
       length (args sender_script) = 52%nat ∧
       secp256k1_recover message (tx_signature tx) = Ok (drop 32 (args sender_script))) ∧
  (∀ withdrawal,
     secp256k1_verify_withdrawal ctx sender_script withdrawal address = Ok tt →
     let raw := w_raw (we_request withdrawal) in
     ∃ message, withdrawal_eip712_message raw (we_owner_lock withdrawal) address = Ok message ∧
       w_chain_id raw = rc_chain_id (rollup_config ctx) ∧
       length (args sender_script) = 52%nat ∧
       secp256k1_recover message (w_signature (we_request withdrawal))
         = Ok (drop 32 (args sender_script))).
Proof.
  split.
  - intros receiver_script tx txctx Hv Hprot Hp Er Eh Ea. unfold secp256k1_verify_tx in Hv. cbv zeta in Hv.
    rewrite Hprot in Hv. cbn [andb] in Hv. inv_ok. bool_inv. unfold tx_signing_message. rewrite Eh.
    rewrite polyjuice_args_agree in * by done.
    destruct (try_assemble_polyjuice_args _ _) as [d|]; inv_ok.
    + eexists. split; [done|]. split; [done|]. by apply verify_alone_Ok.
    + unfold tx_eip712_message. rename select (EipL2Transaction_from_raw _ _ _ = _) into E. rewrite E.
      eexists. split; [done|]. split; [done|]. by apply verify_alone_Ok.
  - intros withdrawal Hv. unfold secp256k1_verify_withdrawal in Hv. cbv zeta in Hv. inv_ok. bool_inv.
    unfold withdrawal_eip712_message. rename select (EipWithdrawal_from_raw _ _ _ = _) into E. rewrite E.
    eexists. split; [done|]. split; [done|]. by apply verify_alone_Ok.
Qed.
