(* ===== verification/Backends.v ===== *)
(** * Backends by block height

    Models [crates/generator/src/backend_manage.rs] and the fork configuration
    of [crates/config/src/fork_config.rs]: which generator and validator binary
    runs a contract depends on the block number; every fork inherits the
    backends of the one before it and overrides or adds some.

    The cache of ahead-of-time compiled code is left out: it never changes
    which backend is used. *)
From Stdlib Require Import ZArith Lia Strings.Byte.
From stdpp Require Import prelude list gmap sorting.
From S2P Require Import Prelude Bytes Types State StateDB Finality NodeState.
Local Open Scope Z_scope.

(** ** Limits (constants.rs); the fork configuration is in [Finality] *)
Definition MAX_TX_SIZE : Z := 50000.
Definition MAX_WITHDRAWAL_SIZE : Z := 50000.
Definition MAX_WRITE_DATA_BYTES : Z := 25 * 1024.
Definition MAX_TOTAL_READ_DATA_BYTES : Z := 1024 * 1024 * 2.

(** ** Data *)
Inductive BackendType := BkMeta | BkSudt | BkPolyjuice | BkEthAddrReg | BkUnknown.
#[export] Instance BackendType_eq_dec : EqDecision BackendType.
Proof. solve_decision. Defined.

Record BackendConfig := mkBackendConfig {
  validator_path : bytes; generator_path : bytes;
  bc_validator_script_type_hash : H256; bc_backend_type : BackendType;
}.
Record SUDTProxyConfig := mkSUDTProxyConfig {
  permit_sudt_transfer_from_dangerous_contract : bool; address_list : list bytes;
}.
Record BackendForkConfig := mkBackendForkConfig {
  fork_height : Z; fc_backends : list BackendConfig; fc_sudt_proxy : SUDTProxyConfig;
}.

Record BackendCheckSum := mkBackendCheckSum { validator_sum : H256; generator_sum : H256 }.
Record Backend := mkBackend {
  bk_validator : bytes; bk_generator : bytes; bk_validator_script_type_hash : H256;
  bk_type : BackendType; bk_checksum : BackendCheckSum;
}.
Record BlockConsensus := mkBlockConsensus {
  sudt_proxy : SUDTProxyConfig; backends : gmap H256 Backend;
}.
Record BackendManage := mkBackendManage { backend_forks : list (Z * BlockConsensus) }.
Definition no_backends : BackendManage := mkBackendManage [].

Inductive BackendError := ForkHeightNotIncreasing | LoadValidator | LoadGenerator.

(** The file system: [fs::read]. *)
Class Files := read_file : bytes → option bytes.

Section Manage.
Context `{Blake2b, Files}.
Local Abbreviation M := (outcome BackendError).

Definition Backend_new (type_ : BackendType) (script_type_hash : H256)
    (validator generator : bytes) : Backend :=
  mkBackend validator generator script_type_hash type_
    (mkBackendCheckSum (blake2b validator) (blake2b generator)).

Definition load_backend (config : BackendConfig) : M Backend :=
  validator ← ok_or LoadValidator (read_file (validator_path config));
  generator ← ok_or LoadGenerator (read_file (generator_path config));
  Ok (Backend_new (bc_backend_type config) (bc_validator_script_type_hash config)
        validator generator).

Definition register_backend_fork (config : BackendForkConfig) (m : BackendManage) :
    M BackendManage :=
  (match last (backend_forks m) with
   | Some (height, _) => reject_if (fork_height config <=? height) ForkHeightNotIncreasing
   | None => Ok tt
   end) ;;
  let inherited := match last (backend_forks m) with
                   | Some (_, consensus) => backends consensus
                   | None => ∅
                   end in
  registered ← foldM (λ acc config,
    backend ← load_backend config;
    Ok (<[bk_validator_script_type_hash backend := backend]> acc)) inherited (fc_backends config);
  Ok (mkBackendManage (backend_forks m
        ++ [(fork_height config, mkBlockConsensus (fc_sudt_proxy config) registered)])).

Definition BackendManage_from_config (configs : list BackendForkConfig) : M BackendManage :=
  foldM (λ m config, register_backend_fork config m) no_backends configs.
End Manage.

Definition get_block_consensus_at_height (block_number : Z) (m : BackendManage) :
    option (Z * BlockConsensus) :=
  snd <$> list_find (λ f, f.1 ≤ block_number) (reverse (backend_forks m)).

Definition get_backend (block_number : Z) (code_hash : H256) (m : BackendManage) : option Backend :=
  f ← get_block_consensus_at_height block_number m; backends f.2 !! code_hash.

(** ** The reference: the last registration at or before a height *)
Section Spec.
Context `{Blake2b, Files}.

(** The backends configured up to a height, in order. *)
Definition configs_upto (block_number : Z) (configs : list BackendForkConfig) : list BackendConfig :=
  mjoin (fc_backends <$> filter (λ c, fork_height c ≤ block_number) configs).

Definition registered_at (block_number : Z) (code_hash : H256) (configs : list BackendForkConfig) :
    option BackendConfig :=
  last (filter (λ c, bc_validator_script_type_hash c = code_hash)
          (configs_upto block_number configs)).

Definition backend_loaded (o : option BackendConfig) : option Backend :=
  c ← o; match load_backend c with Ok b => Some b | _ => None end.

(** What a table of backends holds after registering [l] in order. *)
Definition table_ok (l : list BackendConfig) (t : gmap H256 Backend) : Prop :=
  ∀ h, t !! h = backend_loaded (last (filter (λ c, bc_validator_script_type_hash c = h) l)).

Lemma load_backend_hash c b :
  load_backend c = Ok b → bk_validator_script_type_hash b = bc_validator_script_type_hash c.
Proof. unfold load_backend. intros Hl. inv_ok. subst. done. Qed.

Lemma register_table l l' t t' :
  table_ok l t →
  foldM (λ acc config,
    backend ← load_backend config;
    Ok (<[bk_validator_script_type_hash backend := backend]> acc)) t l' = Ok t' →
  table_ok (l ++ l') t'.
Proof.
  revert l t. induction l' as [|c l' IH]; intros l t Ht Hf; cbn in Hf.
  { injection Hf as <-. by rewrite app_nil_r. }
  inv_ok. rename select (load_backend c = _) into Hl.
  rewrite cons_middle, (assoc_L app). eapply IH; [|eassumption]. intros h.
  rewrite filter_app, lookup_insert. pose proof (load_backend_hash _ _ Hl) as E.
  unfold filter at 2. cbn. case_decide as D; case_decide as D'; try congruence.
  - rewrite last_snoc. cbn. by rewrite Hl.
  - rewrite app_nil_r. apply Ht.
Qed.

(** The forks of a manager built from [configs]: increasing heights, and each
    with the table of everything registered up to it. *)
Definition forks_ok (configs : list BackendForkConfig) (forks : list (Z * BlockConsensus)) : Prop :=
  Forall2 (λ c f, f.1 = fork_height c) configs forks ∧
  StronglySorted (λ c c', fork_height c < fork_height c') configs ∧
  ∀ i f, forks !! i = Some f →
    table_ok (mjoin (fc_backends <$> take (S i) configs)) (backends f.2) ∧
    ∃ c, configs !! i = Some c ∧ sudt_proxy f.2 = fc_sudt_proxy c.

Lemma sorted_snoc {A} (R : relation A) l y :
  StronglySorted R (l ++ [y]) ↔ StronglySorted R l ∧ Forall (λ x, R x y) l.
Proof.
  induction l as [|x l IH]; cbn.
  - split; [by repeat constructor|]. intros _. by repeat constructor.
  - split.
    + intros Hs. apply StronglySorted_inv in Hs as [Hs Hf]. apply IH in Hs as [Hs Hy].
      apply Forall_app in Hf as [Hf Hxy]. apply Forall_cons in Hxy as [Hxy _].
      by split; constructor.
    + intros [Hs Hf]. apply StronglySorted_inv in Hs as [Hs Hx]. apply Forall_cons in Hf as [Hxy Hf].
      constructor; [by apply IH|]. apply Forall_app. split; [done|]. by apply Forall_singleton.
Qed.

Lemma filter_all {A} (P : A → Prop) `{∀ x, Decision (P x)} l : Forall P l → filter P l = l.
Proof.
  induction 1 as [|x l Hx _ IH]; [done|]. by rewrite filter_cons_True, IH.
Qed.

Lemma forks_ok_nil : forks_ok [] [].
Proof. split; [constructor|]. split; [constructor|]. done. Qed.

(** Taking the last fork off. *)
Lemma forks_ok_snoc configs c forks f :
  forks_ok (configs ++ [c]) (forks ++ [f]) →
  forks_ok configs forks ∧ f.1 = fork_height c ∧
  Forall (λ c', fork_height c' < fork_height c) configs ∧
  table_ok (mjoin (fc_backends <$> configs ++ [c])) (backends f.2).
Proof.
  intros (Hh & Hs & Ht). apply Forall2_app_inv_l in Hh as (forks' & fs & Hh & H1 & E).
  apply Forall2_cons_inv_l in H1 as (f' & fs' & Hf & Hnil & ->).
  apply Forall2_nil_inv_l in Hnil as ->. apply app_inj_tail in E as [-> ->].
  apply sorted_snoc in Hs as [Hs Hall]. pose proof (Forall2_length _ _ _ Hh) as Hlen.
  split; [split; [done|]; split; [done|]|split; [done|]; split; [done|]].
  - intros i g Hg. destruct (Ht i g) as [Htab (c' & Hc & Hp)]; [by apply lookup_app_l_Some|].
    pose proof (lookup_lt_Some _ _ _ Hg) as Hi.
    rewrite take_app_le in Htab by lia. split; [done|]. exists c'. split; [|done].
    by rewrite lookup_app_l in Hc by lia.
  - destruct (Ht (length forks') f') as [Htab _]; [by apply list_lookup_middle|].
    rewrite take_ge in Htab by (rewrite length_app; cbn; lia). done.
Qed.

(** What [register_backend_fork] appends. *)
Lemma register_forks_ok configs config m m' :
  forks_ok configs (backend_forks m) → register_backend_fork config m = Ok m' →
  forks_ok (configs ++ [config]) (backend_forks m').
Proof.
  intros Hok Hr. unfold register_backend_fork in Hr. inv_ok. subst. cbn [backend_forks].
  rename select (foldM _ _ _ = _) into Hfold.
  match type of Hfold with foldM _ ?i _ = _ => set (inherited := i) in Hfold end.
  assert (table_ok (mjoin (fc_backends <$> configs)) inherited ∧
          Forall (λ c, fork_height c < fork_height config) configs) as [Hinh Hlt].
  { subst inherited. destruct (backend_forks m) as [|f forks _] eqn:Ef using rev_ind.
    - destruct Hok as (Hh & _ & _). apply Forall2_nil_inv_r in Hh as ->.
      split; [by intros h|constructor].
    - rewrite last_snoc in *. destruct f as [height consensus]. inv_ok. bool_inv.
      destruct configs as [|c configs _] using rev_ind.
      { destruct Hok as (Hh & _ & _). apply Forall2_nil_inv_l in Hh. by destruct forks. }
      apply forks_ok_snoc in Hok as (_ & Hhc & Hall & Ht). cbn in Hhc, Ht. split; [done|].
      apply Forall_app. split; [|apply Forall_singleton; lia].
      eapply Forall_impl; [done|]. intros c'. cbn. lia. }
  pose proof (register_table _ _ _ _ Hinh Hfold) as Hnew.
  destruct Hok as (Hh & Hs & Ht). pose proof (Forall2_length _ _ _ Hh) as Hlen.
  split; [by apply Forall2_app; [|constructor]|]. split; [by apply sorted_snoc|].
  intros i f [Hf|[Hi Hf]]%lookup_app_Some.
  - destruct (Ht i f Hf) as [Htab (c & Hc & Hp)]. pose proof (lookup_lt_Some _ _ _ Hf).
    rewrite take_app_le by lia. split; [done|]. exists c. split; [|done].
    by apply lookup_app_l_Some.
  - apply list_lookup_singleton_Some in Hf as [Hz <-]. cbn [snd backends sudt_proxy].
    rewrite take_ge by (rewrite length_app; cbn; lia).
    rewrite fmap_app, join_app. cbn. rewrite app_nil_r. split; [done|].
    exists config. split; [|done]. replace i with (length configs) by lia.
    by apply list_lookup_middle.
Qed.

Lemma from_config_forks_ok configs m :
  BackendManage_from_config configs = Ok m → forks_ok configs (backend_forks m).
Proof.
  unfold BackendManage_from_config. intros Hf.
  assert (Hgen : ∀ done_ m0, forks_ok done_ (backend_forks m0) →
    foldM (λ m config, register_backend_fork config m) m0 configs = Ok m →
    forks_ok (done_ ++ configs) (backend_forks m)).
  { clear Hf. induction configs as [|c configs IH]; intros done_ m0 Hok Hf; cbn in Hf.
    - injection Hf as <-. by rewrite app_nil_r.
    - inv_ok. rewrite cons_middle, (assoc_L app). eapply IH; [|eassumption].
      by eapply register_forks_ok. }
  apply (Hgen [] no_backends); [apply forks_ok_nil|done].
Qed.

Lemma get_backend_spec configs forks n h :
  forks_ok configs forks →
  get_backend n h (mkBackendManage forks) = backend_loaded (registered_at n h configs).
Proof.
  revert forks. induction configs as [|c configs IH] using rev_ind; intros forks Hok.
  { destruct Hok as (Hh & _ & _). by apply Forall2_nil_inv_l in Hh as ->. }
  destruct forks as [|f forks _] using rev_ind.
  { destruct Hok as (Hh & _ & _). apply Forall2_nil_inv_r in Hh. by destruct configs. }
  apply forks_ok_snoc in Hok as (Hok & Hf & Hall & Htab). specialize (IH forks Hok).
  unfold get_backend, get_block_consensus_at_height, registered_at, configs_upto in *.
  cbn [backend_forks] in *. rewrite reverse_snoc, filter_app. cbn [list_find].
  unfold filter at 3. cbn [list_filter]. rewrite Hf. case_decide as Hn; cbn.
  - rewrite Htab. do 3 f_equal. rewrite !fmap_app. f_equal.
    rewrite filter_all; [done|]. eapply Forall_impl; [exact Hall|]. cbn. lia.
  - rewrite app_nil_r, <- IH. by destruct (list_find _ _) as [[? ?]|].
Qed.
End Spec.

(** The backend of a contract at a height is the last one configured at or
    before it: when the configuration loads, fork heights strictly increase, and
    [get_backend] finds, for every block number and code hash, the binaries of
    the last registration of that hash among the forks at or below the number,
    and nothing when there is none. *)
Theorem backend_at_height `{Blake2b, Files} (configs : list BackendForkConfig) (m : BackendManage) :
  BackendManage_from_config configs = Ok m →
  StronglySorted (λ c c', fork_height c < fork_height c') configs ∧
  ∀ block_number code_hash,
    get_backend block_number code_hash m
    = backend_loaded (registered_at block_number code_hash configs).
Proof.
  intros Hm%from_config_forks_ok. split; [apply Hm|]. intros n h.
  destruct m as [forks]. by apply get_backend_spec.
Qed.
