(* ===== verification/Syscalls.v ===== *)
(** * System calls of the layer-2 virtual machine

    Models [crates/generator/src/syscalls] ([mod.rs], [bn.rs],
    [error_codes.rs]), the cost model ([vm_cost_model.rs]) and the cycles pool of
    [generator.rs]: a backend runs in CKB-VM and reaches the account state only
    through [L2Syscalls::ecall].

    CKB-VM is a parameter ([Machine]): registers, fallible memory accesses, a
    cycle counter, and a step that runs instructions up to the next event.  The
    elliptic curve arithmetic of the [substrate_bn] crate is a parameter too.

    The theorems: a run of the machine stops within as many system calls as its
    cycle limit allows, whatever a backend does; its effect on the state is a
    sequence of journaled operations; and [SYS_CREATE] is [State::create_account]
    with its checks. *)
From Stdlib Require Import ZArith Lia Strings.Byte.
From stdpp Require Import prelude list gmap.
From S2P Require Import Prelude Bytes Types State StateSpec StateDB.
From S2P Require Import NodeUtils NodeState AccountLocks Backends.
Local Open Scope Z_scope.
Create HintDb sysdb.

(** ** Error codes (error_codes.rs) *)
Definition SUCCESS : Z := 0.
Definition GW_FATAL_UNKNOWN_ARGS : Z := 54.
Definition GW_ERROR_DUPLICATED_SCRIPT_HASH : Z := 80.
Definition GW_ERROR_UNKNOWN_SCRIPT_CODE_HASH : Z := 81.
Definition GW_ERROR_INVALID_ACCOUNT_SCRIPT : Z := 82.
Definition GW_ERROR_NOT_FOUND : Z := 83.
Definition GW_ERROR_RECOVER : Z := 84.
Definition GW_ERROR_ACCOUNT_NOT_FOUND : Z := 85.
Definition GW_SUDT_ERROR_UNPERMITTED_ADDRESS : Z := 94.

(** ** System call numbers (mod.rs) *)
Definition MAX_SET_RETURN_DATA_SIZE : Z := 1024 * 128.
Definition SYS_CREATE : Z := 3100.
Definition SYS_STORE : Z := 3101.
Definition SYS_LOAD : Z := 3102.
Definition SYS_LOAD_ACCOUNT_SCRIPT : Z := 3105.
Definition SYS_SET_RETURN_DATA : Z := 3201.
Definition SYS_STORE_DATA : Z := 3301.
Definition SYS_LOAD_DATA : Z := 3302.
Definition SYS_LOAD_ROLLUP_CONFIG : Z := 3401.
Definition SYS_LOAD_TRANSACTION : Z := 3402.
Definition SYS_LOAD_BLOCKINFO : Z := 3403.
Definition SYS_GET_BLOCK_HASH : Z := 3404.
Definition SYS_PAY_FEE : Z := 3501.
Definition SYS_LOG : Z := 3502.
Definition SYS_RECOVER_ACCOUNT : Z := 3503.
Definition SYS_BN_ADD : Z := 3601.
Definition SYS_BN_MUL : Z := 3602.
Definition SYS_BN_PAIRING : Z := 3603.
Definition SYS_SNAPSHOT : Z := 3701.
Definition SYS_REVERT : Z := 3702.
Definition SYS_CHECK_SUDT_ADDRESS : Z := 3801.
Definition DEBUG_PRINT_SYSCALL_NUMBER : Z := 2177.

(** ** Cost model (vm_cost_model.rs) *)
Inductive Opcode :=
| OP_JALR | OP_LD | OP_LW | OP_LH | OP_LB | OP_LWU | OP_LHU | OP_LBU | OP_SB | OP_SH | OP_SW
| OP_SD | OP_BEQ | OP_BGE | OP_BGEU | OP_BLT | OP_BLTU | OP_BNE | OP_EBREAK | OP_ECALL | OP_JAL
| OP_MUL | OP_MULW | OP_MULH | OP_MULHU | OP_MULHSU | OP_DIV | OP_DIVW | OP_DIVU | OP_DIVUW
| OP_REM | OP_REMW | OP_REMU | OP_REMUW | OP_OTHER.

Definition instruction_cycles (op : Opcode) : Z :=
  match op with
  | OP_LD | OP_SD => 2
  | OP_JALR | OP_LW | OP_LH | OP_LB | OP_LWU | OP_LHU | OP_LBU | OP_SB | OP_SH | OP_SW
  | OP_BEQ | OP_BGE | OP_BGEU | OP_BLT | OP_BLTU | OP_BNE | OP_JAL => 3
  | OP_EBREAK | OP_ECALL => 500
  | OP_MUL | OP_MULW | OP_MULH | OP_MULHU | OP_MULHSU => 5
  | OP_DIV | OP_DIVW | OP_DIVU | OP_DIVUW | OP_REM | OP_REMW | OP_REMU | OP_REMUW => 32
  | OP_OTHER => 1
  end.

(** ** The machine *)
Inductive Reg := A0 | A1 | A2 | A3 | A4 | A5 | A7.

(** What executing one instruction comes to: an instruction that is no system call, a
    system call other than exit, the exit code, or an error. *)
Inductive VmEvent (Mac : Type) :=
| VmInstr (op : Opcode) (m : Mac)
| VmEcall (m : Mac)
| VmExit (code : Z) (m : Mac)
| VmFault (e : VMError) (m : Mac).
Arguments VmInstr {Mac} _ _.
Arguments VmEcall {Mac} _.
Arguments VmExit {Mac} _ _.
Arguments VmFault {Mac} _ _.

Class Machine (Mac : Type) := {
  get_reg : Reg → Mac → Z;
  set_reg : Reg → Z → Mac → Mac;
  mac_cycles : Mac → Z;
  mac_max_cycles : Mac → Z;
  load8 : Z → ST Mac VMError Z;
  load64 : Z → ST Mac VMError Z;
  store32 : Z → Z → ST Mac VMError unit;
  store64 : Z → Z → ST Mac VMError unit;
  store_bytes : Z → bytes → ST Mac VMError unit;
  load_program : bytes → Z → outcome VMError Mac;
  machine_step : Mac → VmEvent Mac;
  memory_size : nat;
}.

(** ** The cycles pool (generator.rs, config.rs) *)
Record SyscallCyclesConfig := mkSyscallCyclesConfig {
  sys_store_cycles : Z; sys_load_cycles : Z; sys_create_cycles : Z;
  sys_load_account_script_cycles : Z; sys_store_data_cycles : Z; sys_load_data_cycles : Z;
  sys_get_block_hash_cycles : Z; sys_recover_account_cycles : Z; sys_log_cycles : Z;
  sys_bn_add_cycles : Z; sys_bn_mul_cycles : Z; sys_bn_fixed_pairing_cycles : Z;
  sys_bn_per_pairing_cycles : Z; sys_snapshot_cycles : Z; sys_revert_cycles : Z;
}.
Definition default_syscall_cycles : SyscallCyclesConfig :=
  mkSyscallCyclesConfig 50000 5000 50000 5000 50000 5000 50000 50000 50000
    450 18000 135000 102000 2000 2000.

Record CyclesPool := mkCyclesPool {
  pool_limit : Z; available_cycles : Z; pool_syscall_config : SyscallCyclesConfig;
}.
Definition CyclesPool_new (limit : Z) (config : SyscallCyclesConfig) : CyclesPool :=
  mkCyclesPool limit limit config.
Definition cycles_used {E} (p : CyclesPool) : outcome E Z := sub_w (pool_limit p) (available_cycles p).
Definition consume_cycles (cycles : Z) (p : CyclesPool) : option Z * CyclesPool :=
  let opt_available_cycles := checked_sub (available_cycles p) cycles in
  (opt_available_cycles,
   mkCyclesPool (pool_limit p) (default 0 opt_available_cycles) (pool_syscall_config p)).

(** [CycleMeter::total] *)
Definition cycle_total (c : CycleMeter) : Z := saturating_add 64 (cm_execution c) (cm_virtual c).

Record RunContext := mkRunContext {
  cycle_meter : CycleMeter; return_data : bytes; exit_code : Z; debug_log_buf : bytes;
}.
Definition default_context : RunContext := mkRunContext (mkCycleMeter 0 0) [] 0 [].
Definition is_success (c : RunContext) : bool := exit_code c =? 0.

Definition get_syscall_cycles (syscall : Z) (config : SyscallCyclesConfig) : Z :=
  if syscall =? SYS_STORE then sys_store_cycles config
  else if syscall =? SYS_LOAD then sys_load_cycles config
  else if syscall =? SYS_CREATE then sys_create_cycles config
  else if syscall =? SYS_LOAD_ACCOUNT_SCRIPT then sys_load_account_script_cycles config
  else if syscall =? SYS_STORE_DATA then sys_store_data_cycles config
  else if syscall =? SYS_LOAD_DATA then sys_load_data_cycles config
  else if syscall =? SYS_GET_BLOCK_HASH then sys_get_block_hash_cycles config
  else if syscall =? SYS_RECOVER_ACCOUNT then sys_recover_account_cycles config
  else if syscall =? SYS_LOG then sys_log_cycles config
  else if syscall =? SYS_BN_ADD then sys_bn_add_cycles config
  else if syscall =? SYS_BN_MUL then sys_bn_mul_cycles config
  else if syscall =? SYS_BN_PAIRING then sys_bn_fixed_pairing_cycles config
  else if syscall =? SYS_SNAPSHOT then sys_snapshot_cycles config
  else if syscall =? SYS_REVERT then sys_revert_cycles config
  else 0.

(** ** The pairing-friendly curve (bn.rs) *)
Class SubstrateBn := {
  Fq : Type; Fr : Type; G1 : Type; Fq2 : Type; G2 : Type;
  fq_from_slice : bytes → option Fq;
  fq_is_zero : Fq → bool;
  fr_from_slice : bytes → option Fr;
  g1_zero : G1; g2_zero : G2;
  affine_g1_new : Fq → Fq → option G1;
  fq2_new : Fq → Fq → Fq2;
  fq2_is_zero : Fq2 → bool;
  affine_g2_new : Fq2 → Fq2 → option G2;
  g1_add : G1 → G1 → G1;
  g1_mul : G1 → Fr → G1;
  g1_to_affine_be : G1 → option (bytes * bytes);
  pairing_batch_is_one : list (G1 * G2) → bool;
}.

Section Bn.
Context `{SubstrateBn}.

Definition pad_input (n : nat) (input : bytes) : bytes :=
  if (length input <? n)%nat then input ++ zeros (n - length input) else take n input.

Definition g1_of (px py : Fq) : option G1 :=
  if fq_is_zero px && fq_is_zero py then Some g1_zero else affine_g1_new px py.

Definition read_pt (buf : bytes) : option G1 :=
  px ← fq_from_slice (sub_bytes 0 32 buf);
  py ← fq_from_slice (sub_bytes 32 32 buf);
  g1_of px py.

Definition g1_bytes (p : G1) : bytes :=
  match g1_to_affine_be p with Some (x, y) => x ++ y | None => zeros 64 end.

Definition bn_add (input : bytes) : option bytes :=
  let buffer := pad_input 128 input in
  p1 ← read_pt (sub_bytes 0 64 buffer);
  p2 ← read_pt (sub_bytes 64 64 buffer);
  Some (g1_bytes (g1_add p1 p2)).

Definition bn_mul (input : bytes) : option bytes :=
  let buffer := pad_input 96 input in
  pt ← read_pt (sub_bytes 0 64 buffer);
  fr ← fr_from_slice (sub_bytes 64 32 buffer);
  Some (g1_bytes (g1_mul pt fr)).

(** One (a, b) pair, from its 192 bytes. *)
Definition read_pair (chunk : bytes) : option (G1 * G2) :=
  a_x ← fq_from_slice (sub_bytes 0 32 chunk);
  a_y ← fq_from_slice (sub_bytes 32 32 chunk);
  b_a_y ← fq_from_slice (sub_bytes 64 32 chunk);
  b_a_x ← fq_from_slice (sub_bytes 96 32 chunk);
  b_b_y ← fq_from_slice (sub_bytes 128 32 chunk);
  b_b_x ← fq_from_slice (sub_bytes 160 32 chunk);
  let b_a := fq2_new b_a_x b_a_y in
  let b_b := fq2_new b_b_x b_b_y in
  b ← (if fq2_is_zero b_a && fq2_is_zero b_b then Some g2_zero else affine_g2_new b_a b_b);
  a ← g1_of a_x a_y;
  Some (a, b).

Definition bn_pairing (input : bytes) : option bytes :=
  if negb (length input mod 192 =? 0)%nat then None
  else
    let elements := (length input / 192)%nat in
    ret ← (if bool_decide (input = []) then Some 1
           else
             vals ← mapM (λ idx, read_pair (sub_bytes (idx * 192) 192 input)) (seq 0 elements);
             Some (if pairing_batch_is_one vals then 1 else 0));
    Some (be_bytes 32 ret).
End Bn.

(** ** [L2Syscalls] *)
Record BlockInfo := mkBlockInfo { bi_block_producer : bytes; bi_number : Z; bi_timestamp : Z }.

(** [ChainView] (traits/src/lib.rs): the hash, or an I/O error. *)
Class ChainView := get_block_hash_by_number : Z → outcome unit (option H256).

(** Molecule encodings the machine can read. *)
Class SyscallCodec := {
  enc_BlockInfo : BlockInfo → bytes;
  enc_RawL2Transaction : RawL2Transaction → bytes;
  enc_RollupConfig : RollupConfig → bytes;
}.

(** What a transaction runs with and does not change. *)
Record L2Env := mkL2Env {
  env_rollup_context : RollupContext;
  env_account_lock_manage : AccountLockManage;
  env_block_info : BlockInfo;
  env_block_consensus : BlockConsensus;
  env_raw_tx : RawL2Transaction;
}.

(** The machine, the account state, and the rest of what a call may change. *)
Record Sys (Mac St : Type) := mkSys {
  sys_mac : Mac; sys_state : St; sys_context : RunContext; sys_pool : option CyclesPool;
}.
Arguments mkSys {Mac St}.
Arguments sys_mac {Mac St}.
Arguments sys_state {Mac St}.
Arguments sys_context {Mac St}.
Arguments sys_pool {Mac St}.

(** [a * b] of [u64], which panics when it overflows *)
Definition mul_w {E} (w a b : Z) : outcome E Z := unwrap (checked_mul w a b).

Section Ecall.
Context {Mac St : Type} `{Machine Mac, StateOps St, CodeOps St, JournalOps St}.
Context `{Blake2b, Molecule, SubstrateBn, ChainView, SyscallCodec}.
Context (env : L2Env).
Local Abbreviation M := (ST (Sys Mac St) VMError).

Definition on_mac {A} (m : ST Mac VMError A) : M A := λ s,
  let (r, mac) := m (sys_mac s) in (r, mkSys mac (sys_state s) (sys_context s) (sys_pool s)).
(** [self.state.op(..).map_err(|err| VMError::Unexpected(..))?] *)
Definition on_state {A} (m : ST St StateError.t A) : M A := λ s,
  let (r, st) := m (sys_state s) in
  (map_err (λ _, Unexpected) r, mkSys (sys_mac s) st (sys_context s) (sys_pool s)).
Definition on_context (f : RunContext → RunContext) : M unit := λ s,
  (Ok tt, mkSys (sys_mac s) (sys_state s) (f (sys_context s)) (sys_pool s)).
Definition reg (r : Reg) : M Z := λ s, (Ok (get_reg r (sys_mac s)), s).
Definition set_register (r : Reg) (v : Z) : M unit := λ s,
  (Ok tt, mkSys (set_reg r v (sys_mac s)) (sys_state s) (sys_context s) (sys_pool s)).

(** [load_bytes], [load_data_h256]: byte by byte; addresses wrap around. *)
Fixpoint load_from (addr : Z) (len : nat) : M bytes :=
  match len with
  | O => mret []
  | S len =>
      b ← on_mac (load8 (addr mod 2 ^ 64));
      bs ← load_from (addr + 1) len;
      mret (byte_of_Z b :: bs)
  end.
Definition load_bytes (addr len : Z) : M bytes := load_from addr (Z.to_nat len).
Definition load_data_h256 (addr : Z) : M H256 := load_from addr 32.

Definition store_data (data : bytes) : M Z :=
  addr ← reg A0;
  size_addr ← reg A1;
  a2 ← reg A2;
  let data_len := Z.of_nat (length data) in
  let offset := Z.min data_len a2 in
  size ← on_mac (load64 size_addr);
  let full_size := data_len - offset in
  let real_size := Z.min size full_size in
  on_mac (store64 size_addr full_size) ;;
  on_mac (store_bytes addr (sub_bytes (Z.to_nat offset) (Z.to_nat real_size) data)) ;;
  mret real_size.

Definition add_virtual (cycles : Z) (c : RunContext) : RunContext :=
  mkRunContext
    (mkCycleMeter (cm_execution (cycle_meter c))
       (saturating_add 64 (cm_virtual (cycle_meter c)) cycles))
    (return_data c) (exit_code c) (debug_log_buf c).

(** Charge virtual cycles to the context and the pool, when there is one. *)
Definition charge_cycles (cycles : Z) : M unit := λ s,
  match sys_pool s with
  | None => (Ok tt, s)
  | Some pool =>
      let context := add_virtual cycles (sys_context s) in
      let execution_and_virtual :=
        saturating_add 64 (mac_cycles (sys_mac s)) (cm_virtual (cycle_meter context)) in
      let (left, pool) := consume_cycles cycles pool in
      let s := mkSys (sys_mac s) (sys_state s) context (Some pool) in
      match left with
      | None => (Err Unexpected, s)
      | Some _ =>
          if pool_limit pool <? execution_and_virtual then (Err Unexpected, s) else (Ok tt, s)
      end
  end.

Definition charge_syscall (code : Z) : M unit := λ s,
  match sys_pool s with
  | None => (Ok tt, s)
  | Some pool =>
      let syscall_cycles := get_syscall_cycles code (pool_syscall_config pool) in
      if negb (syscall_cycles =? 0) then charge_cycles syscall_cycles s else (Ok tt, s)
  end.

Definition charge_pairings (input_size : Z) : M unit := λ s,
  match sys_pool s with
  | None => (Ok tt, s)
  | Some pool =>
      let k := input_size / 192 in
      if 0 <? k then
        (additional_cycles ←
           lift (mul_w 64 k (sys_bn_per_pairing_cycles (pool_syscall_config pool)));
         charge_cycles additional_cycles) s
      else (Ok tt, s)
  end.

(** [set_register(A0, code); Ok(true)] *)
Definition done_with (code : Z) : M bool := set_register A0 code ;; mret true.

Definition sys_store : M bool :=
  key_addr ← reg A0; key ← load_data_h256 key_addr;
  value_addr ← reg A1; value ← load_data_h256 value_addr;
  on_state (update_raw key value) ;;
  done_with SUCCESS.

Definition sys_load : M bool :=
  key_addr ← reg A0; key ← load_data_h256 key_addr;
  value_addr ← reg A1;
  value ← on_state (get_raw key);
  on_mac (store_bytes value_addr value) ;;
  done_with SUCCESS.

Definition sys_set_return_data : M bool :=
  data_addr ← reg A0; len ← reg A1;
  lift (reject_if (MAX_SET_RETURN_DATA_SIZE <? len) Unexpected) ;;
  data ← load_bytes data_addr len;
  on_context (λ c, mkRunContext (cycle_meter c) data (exit_code c) (debug_log_buf c)) ;;
  done_with SUCCESS.

Definition is_allowed_hash (allowed : list AllowedTypeHash) (h : H256) : bool :=
  existsb (λ th, bool_decide (ath_hash th = h)) allowed.

Definition sys_get_account_id_by_script_hash (sh : H256) : M (option Z) :=
  value ← on_state (get_raw (build_script_hash_to_account_id_key sh));
  mret (if h256_is_zero value then None else Some (h256_to_u32 value)).

(** The checks [SYS_CREATE] makes of a script, and the code it returns. *)
Definition check_new_script (script : Script) : option Z :=
  let ctx := env_rollup_context env in
  if negb (hash_type script =? ScriptHashType_to_u8 HashType)
  then Some GW_ERROR_UNKNOWN_SCRIPT_CODE_HASH
  else if negb (is_allowed_hash (allowed_eoa_type_hashes (rollup_config ctx)) (code_hash script))
          && negb (is_allowed_hash (allowed_contract_type_hashes (rollup_config ctx))
                     (code_hash script))
  then Some GW_ERROR_UNKNOWN_SCRIPT_CODE_HASH
  else if (length (args script) <? 32)%nat then Some GW_ERROR_INVALID_ACCOUNT_SCRIPT
  else if negb (bool_decide (take 32 (args script) = rollup_script_hash ctx))
  then Some GW_ERROR_INVALID_ACCOUNT_SCRIPT
  else None.

Definition sys_create : M bool :=
  script_addr ← reg A0; script_len ← reg A1; account_id_addr ← reg A2;
  script_data ← load_bytes script_addr script_len;
  match dec_Script script_data with
  | None => done_with GW_ERROR_INVALID_ACCOUNT_SCRIPT
  | Some script =>
      let sh := script_hash script in
      existing ← sys_get_account_id_by_script_hash sh;
      if bool_decide (is_Some existing) then done_with GW_ERROR_DUPLICATED_SCRIPT_HASH
      else
        match check_new_script script with
        | Some code => done_with code
        | None =>
            id ← on_state get_account_count;
            on_state (update_raw (build_account_field_key id GW_ACCOUNT_NONCE_TYPE) h256_zero) ;;
            on_state (update_raw (build_account_field_key id GW_ACCOUNT_SCRIPT_HASH_TYPE) sh) ;;
            on_state (update_raw (build_script_hash_to_account_id_key sh)
                        (script_hash_to_id_value id)) ;;
            on_state (modify (insert_script sh script)) ;;
            next ← lift (add_w 32 id 1);
            on_state (set_account_count next) ;;
            on_mac (store32 account_id_addr id) ;;
            done_with SUCCESS
        end
  end.

Definition sys_load_slice (data : bytes) : M bool := store_data data ;; done_with SUCCESS.

Definition sys_load_account_script : M bool :=
  a3 ← reg A3;
  let account_id := a3 mod 2 ^ 32 in
  sh ← on_state (get_raw (build_account_field_key account_id GW_ACCOUNT_SCRIPT_HASH_TYPE));
  if h256_is_zero sh then done_with GW_ERROR_ACCOUNT_NOT_FOUND
  else
    found ← on_state (gets (get_script sh));
    script ← lift (ok_or Unexpected found);
    sys_load_slice (enc_Script script).

Definition sys_store_data : M bool :=
  data_len ← reg A0; data_addr ← reg A1;
  data ← load_bytes data_addr data_len;
  let data_hash := blake2b data in
  on_state (update_raw (build_data_hash_key data_hash) h256_one) ;;
  on_state (modify (insert_data data_hash data)) ;;
  done_with SUCCESS.

Definition sys_load_data : M bool :=
  data_hash_addr ← reg A3;
  data_hash ← load_data_h256 data_hash_addr;
  found ← on_state (λ st, let (o, st) := get_data data_hash st in (Ok o, st));
  match found with
  | None => done_with GW_ERROR_NOT_FOUND
  | Some data => sys_load_slice data
  end.

Definition sys_get_block_hash : M bool :=
  block_hash_addr ← reg A0; number ← reg A1;
  found ← lift (map_err (λ _, Unexpected) (get_block_hash_by_number number));
  match found with
  | Some hash => on_mac (store_bytes block_hash_addr hash) ;; done_with SUCCESS
  | None => done_with 0xff
  end.

Definition sys_recover_account : M bool :=
  script_addr ← reg A0; script_len_addr ← reg A1; msg_addr ← reg A2;
  signature_addr ← reg A3; signature_len ← reg A4; code_hash_addr ← reg A5;
  msg ← load_data_h256 msg_addr;
  signature ← load_bytes signature_addr signature_len;
  ch ← load_data_h256 code_hash_addr;
  match get_lock_algorithm ch (env_account_lock_manage env) with
  | Some lock_algo =>
      match la_recover lock_algo msg signature with
      | Ok lock_args =>
          let account_script :=
            mkScript ch (ScriptHashType_to_u8 HashType)
              (rollup_script_hash (env_rollup_context env) ++ lock_args) in
          on_mac (store64 script_len_addr (Z.of_nat (length (enc_Script account_script)))) ;;
          on_mac (store_bytes script_addr (enc_Script account_script)) ;;
          done_with SUCCESS
      | Err _ => done_with GW_ERROR_RECOVER
      | Panic => lift Panic
      end
  | None => done_with GW_FATAL_UNKNOWN_ARGS
  end.

Definition sys_log : M bool :=
  a0 ← reg A0; a1 ← reg A1; data_len ← reg A2; data_addr ← reg A3;
  data ← load_bytes data_addr data_len;
  on_state (modify (j_append_log (mkLogItem (a0 mod 2 ^ 32) (a1 mod 2 ^ 8) data))) ;;
  done_with SUCCESS.

(** The fee was transferred by the backend; the call only reads its arguments. *)
Definition sys_pay_fee : M bool :=
  payer_addr ← reg A0; payer_addr_len ← reg A1;
  lift (reject_if (negb (payer_addr_len =? 28)) Unexpected) ;;
  payer_addr_bytes ← load_bytes payer_addr payer_addr_len;
  _ ← lift (ok_or Unexpected (RegistryAddress_from_slice payer_addr_bytes));
  amount_addr ← reg A3;
  _ ← load_data_h256 amount_addr;
  done_with SUCCESS.

Definition sys_bn (op : bytes → option bytes) (charge : Z → M unit) : M bool :=
  input_addr ← reg A3; input_size ← reg A4;
  input ← load_bytes input_addr input_size;
  charge input_size ;;
  output ← lift (ok_or Unexpected (op input));
  sys_load_slice output.

Definition sys_snapshot : M bool :=
  snapshot_addr ← reg A0;
  snapshot_id ← on_state j_snapshot;
  on_mac (store32 snapshot_addr (snapshot_id mod 2 ^ 32)) ;;
  done_with SUCCESS.

Definition sys_revert : M bool :=
  a0 ← reg A0;
  on_state (j_revert (a0 mod 2 ^ 32)) ;;
  done_with SUCCESS.

Definition sys_check_sudt_address : M bool :=
  sudt_proxy_addr ← reg A0;
  address ← load_bytes sudt_proxy_addr 20;
  let proxy := sudt_proxy (env_block_consensus env) in
  if permit_sudt_transfer_from_dangerous_contract proxy
     || bool_decide (address ∈ address_list proxy)
  then done_with SUCCESS else done_with GW_SUDT_ERROR_UNPERMITTED_ADDRESS.

(** [output_debug]: bytes up to a zero; [addr += 1] panics at the end of the
    address space. *)
Fixpoint debug_bytes (fuel : nat) (addr : Z) : M bytes :=
  match fuel with
  | O => lift Panic
  | S fuel =>
      b ← on_mac (load8 addr);
      if b =? 0 then mret []
      else
        next ← lift (add_w 64 addr 1);
        bs ← debug_bytes fuel next;
        mret (byte_of_Z b :: bs)
  end.
Definition output_debug : M unit :=
  addr ← reg A0;
  buffer ← debug_bytes (S memory_size) addr;
  on_context (λ c, mkRunContext (cycle_meter c) (return_data c) (exit_code c)
                     (debug_log_buf c ++ [x0a] ++ buffer)).

Definition ecall : M bool :=
  code ← reg A7;
  charge_syscall code ;;
  if code =? SYS_STORE then sys_store
  else if code =? SYS_LOAD then sys_load
  else if code =? SYS_SET_RETURN_DATA then sys_set_return_data
  else if code =? SYS_CREATE then sys_create
  else if code =? SYS_LOAD_BLOCKINFO then sys_load_slice (enc_BlockInfo (env_block_info env))
  else if code =? SYS_LOAD_TRANSACTION then sys_load_slice (enc_RawL2Transaction (env_raw_tx env))
  else if code =? SYS_LOAD_ACCOUNT_SCRIPT then sys_load_account_script
  else if code =? SYS_STORE_DATA then sys_store_data
  else if code =? SYS_LOAD_DATA then sys_load_data
  else if code =? SYS_GET_BLOCK_HASH then sys_get_block_hash
  else if code =? SYS_RECOVER_ACCOUNT then sys_recover_account
  else if code =? SYS_LOG then sys_log
  else if code =? SYS_LOAD_ROLLUP_CONFIG
  then sys_load_slice (enc_RollupConfig (rollup_config (env_rollup_context env)))
  else if code =? SYS_PAY_FEE then sys_pay_fee
  else if code =? SYS_BN_ADD then sys_bn bn_add (λ _, mret tt)
  else if code =? SYS_BN_MUL then sys_bn bn_mul (λ _, mret tt)
  else if code =? SYS_BN_PAIRING then sys_bn bn_pairing charge_pairings
  else if code =? SYS_SNAPSHOT then sys_snapshot
  else if code =? SYS_REVERT then sys_revert
  else if code =? SYS_CHECK_SUDT_ADDRESS then sys_check_sudt_address
  else if code =? DEBUG_PRINT_SYSCALL_NUMBER then output_debug ;; mret true
  else mret false.

(** [DefaultMachine::run]: instruction by instruction, system calls through [ecall],
    an error for a call no handler knows. *)
Definition vm_step (s : Sys Mac St) : Sys Mac St + (outcome VMError Z * Sys Mac St) :=
  let with_mac m := mkSys m (sys_state s) (sys_context s) (sys_pool s) in
  match machine_step (sys_mac s) with
  | VmInstr _ m => inl (with_mac m)
  | VmExit code m => inr (Ok code, with_mac m)
  | VmFault e m => inr (Err e, with_mac m)
  | VmEcall m =>
      match ecall (with_mac m) with
      | (Ok true, s) => inl s
      | (Ok false, s) => inr (Err (VMOther (get_reg A7 (sys_mac s))), s)
      | (Err e, s) => inr (Err e, s)
      | (Panic, s) => inr (Panic, s)
      end
  end.
(** [None] when [fuel] instructions were not enough *)
Definition vm_run (fuel : positive) (s : Sys Mac St) : option (outcome VMError Z * Sys Mac St) :=
  match run_pos vm_step fuel s with inl _ => None | inr r => Some r end.
End Ecall.

(** ** What CKB-VM guarantees

    Memory and register accesses cost nothing by themselves; an instruction costs
    what the function given to [instruction_cycle_func] says ([instruction_cycles]);
    the counter stays within the limit (otherwise the step is a fault); reading
    outside the memory is an error. *)
Definition mac_close `{Machine Mac} (m m' : Mac) : Prop :=
  mac_cycles m' = mac_cycles m ∧ mac_max_cycles m' = mac_max_cycles m.

Class MachineLaws (Mac : Type) `{Machine Mac} : Prop := {
  set_reg_close r v m : mac_close m (set_reg r v m);
  load8_close a m : mac_close m (load8 a m).2;
  load64_close a m : mac_close m (load64 a m).2;
  store32_close a v m : mac_close m (store32 a v m).2;
  store64_close a v m : mac_close m (store64 a v m).2;
  store_bytes_close a v m : mac_close m (store_bytes a v m).2;
  load_program_cycles p max m :
    load_program p max = Ok m → mac_cycles m = 0 ∧ mac_max_cycles m = max;
  step_instr_cycles op m m' : machine_step m = VmInstr op m' →
    mac_cycles m' = mac_cycles m + instruction_cycles op ∧ mac_cycles m' ≤ mac_max_cycles m' ∧
    mac_max_cycles m' = mac_max_cycles m;
  step_ecall_cycles m m' : machine_step m = VmEcall m' →
    mac_cycles m' = mac_cycles m + instruction_cycles OP_ECALL ∧ mac_cycles m' ≤ mac_max_cycles m' ∧
    mac_max_cycles m' = mac_max_cycles m;
  load8_bounds a m : Z.of_nat memory_size ≤ a → ∃ e, (load8 a m).1 = Err e;
  load8_returns a m : (load8 a m).1 ≠ Panic;
}.

(** ** Words

    What the node writes as a key or a value: 32 bytes, or a digest. *)
Definition word `{Blake2b} (x : H256) : Prop := length x = 32%nat ∨ ∃ y, x = blake2b y.

Section Words.
Context `{Blake2b}.
Lemma word_length x : length x = 32%nat → word x.
Proof. by left. Qed.
Lemma word_digest y : word (blake2b y).
Proof. right. by exists y. Qed.
Lemma word_account_key id key : word (build_account_key id key).
Proof. apply word_digest. Qed.
Lemma word_field_key id ty : word (build_account_field_key id ty).
Proof. apply word_length. unfold build_account_field_key. by rewrite !length_app, le_bytes_length. Qed.
Lemma word_script_id_key sh : word (build_script_hash_to_account_id_key sh).
Proof. apply word_digest. Qed.
Lemma word_data_key dh : word (build_data_hash_key dh).
Proof. apply word_digest. Qed.
Lemma word_script_hash `{Molecule} s : word (script_hash s).
Proof. apply word_digest. Qed.
Lemma word_zero : word h256_zero.
Proof. by apply word_length. Qed.
Lemma word_u32 n : word (h256_from_u32 n).
Proof. apply word_length, h256_from_u32_length. Qed.
Lemma word_u256 n : word (h256_from_u256 n).
Proof. apply word_length, h256_from_u256_length. Qed.
Lemma word_id_value id : word (script_hash_to_id_value id).
Proof. apply word_length. unfold script_hash_to_id_value. rewrite length_insert. apply h256_from_u32_length. Qed.
End Words.
Create HintDb words.
#[export] Hint Resolve word_account_key word_field_key word_script_id_key word_data_key
  word_script_hash word_zero word_u32 word_u256 word_id_value : words.

(** ** Relations every system call respects

    [P] relates the system before and after; it need only hold of the single
    accesses, the calls are built from them. *)
Section Respect.
Context {Mac St : Type} `{MachineLaws Mac} `{StateOps St, CodeOps St, JournalOps St}.
Context `{Blake2b, Molecule, SubstrateBn, ChainView, SyscallCodec}.
Context (P : relation (Sys Mac St)).

Definition put_state (s : Sys Mac St) (st : St) : Sys Mac St :=
  mkSys (sys_mac s) st (sys_context s) (sys_pool s).

Record sys_relation : Prop := {
  sr_pre : PreOrder P;
  sr_mac s m : mac_close (sys_mac s) m → P s (mkSys m (sys_state s) (sys_context s) (sys_pool s));
  sr_meter s c p : P s (mkSys (sys_mac s) (sys_state s) c p);
  sr_get_raw s k : P s (put_state s (get_raw k (sys_state s)).2);
  sr_update_raw s k v : word k → word v → P s (put_state s (update_raw k v (sys_state s)).2);
  sr_get_account_count s : P s (put_state s (get_account_count (sys_state s)).2);
  sr_set_account_count s c : P s (put_state s (set_account_count c (sys_state s)).2);
  sr_insert_script s x : P s (put_state s (insert_script (script_hash x) x (sys_state s)));
  sr_insert_data s d : P s (put_state s (insert_data (blake2b d) d (sys_state s)));
  sr_get_data s d : P s (put_state s (get_data d (sys_state s)).2);
  sr_append_log s l : P s (put_state s (j_append_log l (sys_state s)));
  sr_snapshot s : P s (put_state s (j_snapshot (sys_state s)).2);
  sr_revert s i : P s (put_state s (j_revert i (sys_state s)).2);
}.

Definition respects {A} (m : ST (Sys Mac St) VMError A) : Prop := ∀ s, P s (m s).2.

Context (HP : sys_relation).
Let pre : PreOrder P := sr_pre HP.
Local Existing Instance pre.

Lemma respects_bind {A B} (m : ST (Sys Mac St) VMError A) (f : A → ST (Sys Mac St) VMError B) :
  respects m → (∀ a, respects (f a)) → respects (m ≫= f).
Proof.
  intros Hm Hf s. unfold mbind, ST_bind. specialize (Hm s). destruct (m s) as [[a|e|] s1]; cbn in *.
  - etrans; [exact Hm|apply Hf].
  - done.
  - done.
Qed.
(** With what the first step is known to return. *)
Lemma respects_bind_of {A B} (Q : A → Prop) (m : ST (Sys Mac St) VMError A)
    (f : A → ST (Sys Mac St) VMError B) :
  respects m → (∀ s a s', m s = (Ok a, s') → Q a) → (∀ a, Q a → respects (f a)) → respects (m ≫= f).
Proof.
  intros Hm HQ Hf s. unfold mbind, ST_bind. specialize (Hm s).
  destruct (m s) as [[a|e|] s1] eqn:E; cbn in *; [|done..].
  etrans; [exact Hm|]. apply Hf. by eapply HQ.
Qed.
Lemma respects_ret {A} (a : A) : respects (mret a).
Proof. intros s. cbn. reflexivity. Qed.
Lemma respects_lift {A} (m : outcome VMError A) : respects (lift m).
Proof. intros s. cbn. reflexivity. Qed.
Lemma respects_if {A} (b : bool) (m n : ST (Sys Mac St) VMError A) :
  respects m → respects n → respects (if b then m else n).
Proof. by destruct b. Qed.
Lemma respects_reg r : respects (reg r).
Proof. intros s. cbn. reflexivity. Qed.
Lemma respects_set_register r v : respects (set_register r v).
Proof. intros s. apply (sr_mac HP), set_reg_close. Qed.
Lemma respects_mac {A} (m : ST Mac VMError A) : (∀ x, mac_close x (m x).2) → respects (on_mac m).
Proof.
  intros Hm s. unfold on_mac. specialize (Hm (sys_mac s)). destruct (m (sys_mac s)) as [r mac].
  by apply (sr_mac HP).
Qed.
Lemma respects_state {A} (m : ST St StateError.t A) :
  (∀ s, P s (put_state s (m (sys_state s)).2)) → respects (on_state m).
Proof.
  intros Hm s. unfold on_state. specialize (Hm s). by destruct (m (sys_state s)) as [r st].
Qed.
Lemma respects_context f : respects (on_context f).
Proof. intros s. apply (sr_meter HP). Qed.
Lemma respects_charge_cycles c : respects (charge_cycles c).
Proof.
  intros s. unfold charge_cycles. destruct (sys_pool s) as [p|]; [|reflexivity].
  cbv zeta. destruct (consume_cycles c p) as [[l|] p']; [case_match|]; apply (sr_meter HP).
Qed.
Lemma respects_charge_syscall c : respects (charge_syscall c).
Proof.
  intros s. unfold charge_syscall. destruct (sys_pool s) as [p|]; [|reflexivity].
  cbv zeta. case_match; [apply respects_charge_cycles|reflexivity].
Qed.
Lemma respects_charge_pairings n : respects (charge_pairings n).
Proof.
  intros s. unfold charge_pairings. destruct (sys_pool s) as [p|]; [|reflexivity].
  cbv zeta. case_match; [|reflexivity].
  apply respects_bind; [apply respects_lift|apply respects_charge_cycles].
Qed.
Hint Resolve respects_ret respects_lift respects_reg respects_set_register respects_context
  respects_charge_cycles respects_charge_syscall respects_charge_pairings
  set_reg_close load8_close load64_close store32_close store64_close store_bytes_close
  sr_get_raw sr_update_raw sr_get_account_count sr_set_account_count sr_insert_script
  sr_insert_data sr_append_log sr_snapshot sr_revert
  word_account_key word_field_key word_script_id_key word_data_key word_script_hash word_zero
  word_u32 word_id_value : sysdb.

Local Ltac respect :=
  repeat first
    [ apply respects_bind; [|intros]
    | apply respects_if
    | solve [eauto with sysdb]
    | apply respects_mac; solve [eauto with sysdb]
    | apply respects_state; intros; apply (sr_update_raw HP); solve [eauto with sysdb]
    | apply respects_state; solve [intros; cbn; eauto with sysdb]
    | progress cbv zeta ].

Lemma respects_load_from addr len : respects (load_from addr len).
Proof. revert addr. induction len as [|len IH]; intros addr; cbn [load_from]; respect. Qed.
Hint Resolve respects_load_from : sysdb.
Lemma load_from_length addr len s bs s' :
  load_from (Mac:=Mac) (St:=St) addr len s = (Ok bs, s') → length bs = len.
Proof.
  revert addr s bs s'. induction len as [|len IH]; intros addr s bs s' E; cbn [load_from] in E.
  - by injection E as <- _.
  - inv_ok. cbn. f_equal. by eapply IH.
Qed.
Lemma respects_store_data data : respects (store_data data).
Proof. unfold store_data. respect. Qed.
Lemma respects_debug_bytes fuel addr : respects (debug_bytes fuel addr).
Proof. revert addr. induction fuel as [|fuel IH]; intros addr; cbn [debug_bytes]; respect. Qed.
Lemma respects_done_with c : respects (done_with c).
Proof. unfold done_with. respect. Qed.
Hint Resolve respects_store_data respects_debug_bytes respects_done_with : sysdb.
Lemma respects_sys_store : respects sys_store.
Proof.
  unfold sys_store, load_data_h256. apply respects_bind; [respect|intros ka].
  apply (respects_bind_of (λ k, length k = 32%nat)); [respect|apply load_from_length|intros k Hk].
  apply respects_bind; [respect|intros va].
  apply (respects_bind_of (λ v, length v = 32%nat)); [respect|apply load_from_length|intros v Hv].
  apply respects_bind; [|respect]. apply respects_state. intros s.
  apply (sr_update_raw HP); by apply word_length.
Qed.
Lemma respects_load_slice d : respects (sys_load_slice d).
Proof. unfold sys_load_slice. respect. Qed.
Hint Resolve respects_load_slice : sysdb.

Lemma respects_create env : respects (sys_create env).
Proof.
  unfold sys_create, load_bytes, sys_get_account_id_by_script_hash. respect.
  destruct (dec_Script _) as [script|]; respect.
  destruct (check_new_script env script); respect.
Qed.
Lemma respects_load_account_script : respects sys_load_account_script.
Proof.
  unfold sys_load_account_script. respect. apply respects_state. intros s.
  destruct s. cbn. reflexivity.
Qed.
Lemma respects_sys_load_data : respects sys_load_data.
Proof.
  unfold sys_load_data, load_data_h256. respect.
  - apply respects_state. intros s. pose proof (sr_get_data HP s a0) as Hd.
    by destruct (get_data a0 (sys_state s)).
  - case_match; respect.
Qed.
Lemma respects_recover env : respects (sys_recover_account env).
Proof.
  unfold sys_recover_account, load_data_h256, load_bytes. respect.
  destruct (get_lock_algorithm _ _) as [algo|]; [|respect].
  destruct (la_recover algo _ _); respect.
Qed.
Lemma respects_get_block_hash : respects sys_get_block_hash.
Proof. unfold sys_get_block_hash. respect. case_match; respect. Qed.
Lemma respects_bn op charge : (∀ n, respects (charge n)) → respects (sys_bn op charge).
Proof. intros Hc. unfold sys_bn, load_bytes. respect. Qed.
Hint Resolve respects_create respects_load_account_script respects_sys_load_data
  respects_recover respects_get_block_hash : sysdb.

(** Every system call respects such a relation. *)
Lemma ecall_respects env : respects (ecall env).
Proof.
  unfold ecall. apply respects_bind; [apply respects_reg|intros code].
  apply respects_bind; [apply respects_charge_syscall|intros _].
  repeat match goal with |- respects (if _ then _ else _) => apply respects_if end.
  all: lazymatch goal with
    | |- respects (sys_create _) => apply respects_create
    | |- respects sys_store => apply respects_sys_store
    | |- respects sys_load_account_script => apply respects_load_account_script
    | |- respects sys_load_data => apply respects_sys_load_data
    | |- respects (sys_recover_account _) => apply respects_recover
    | |- respects sys_get_block_hash => apply respects_get_block_hash
    | |- respects (sys_load_slice _) => apply respects_load_slice
    | |- respects (sys_bn _ charge_pairings) => apply respects_bn, respects_charge_pairings
    | |- respects (sys_bn _ _) => apply respects_bn; intros; apply respects_ret
    | |- _ =>
        unfold sys_load, sys_set_return_data, sys_store_data, sys_log, sys_pay_fee,
          sys_snapshot, sys_revert, sys_check_sudt_address, output_debug, load_bytes,
          load_data_h256; respect
    end.
Qed.
End Respect.

(** ** Termination *)
Section Termination.
Context {Mac St : Type} `{MachineLaws Mac} `{StateOps St, CodeOps St, JournalOps St}.
Context `{Blake2b, Molecule, SubstrateBn, ChainView, SyscallCodec}.
Implicit Types (s : Sys Mac St).

Lemma close_relation : sys_relation (St:=St) (λ s s', mac_close (sys_mac s) (sys_mac s')).
Proof.
  split; try done. split; [done|]. intros s1 s2 s3 [E1 E2] [E3 E4]. split; congruence.
Qed.

Lemma ecall_close env s : mac_close (sys_mac s) (sys_mac (ecall env s).2).
Proof. apply (ecall_respects _ close_relation env s). Qed.

(** Enough instructions for a cycle limit: each costs at least one cycle. *)
Definition vm_fuel (max_cycles : Z) : positive := Z.to_pos (max_cycles + 2).
Lemma instruction_costs op : 1 ≤ instruction_cycles op.
Proof. destruct op; cbn; lia. Qed.

Definition cycles_left s : Z := mac_max_cycles (sys_mac s) - mac_cycles (sys_mac s).
Lemma vm_step_left env s s' : vm_step env s = inl s' → 0 ≤ cycles_left s' < cycles_left s.
Proof.
  unfold vm_step, cycles_left. destruct (machine_step (sys_mac s)) as [op m|m|code m|e m] eqn:Hstep; intros Hrun; [| |done|done].
  - injection Hrun as <-. cbn. destruct (step_instr_cycles _ _ _ Hstep) as (E & Hle & Hm). pose proof (instruction_costs op). lia.
  - destruct (step_ecall_cycles _ _ Hstep) as (E & Hle & Hm). pose proof (instruction_costs OP_ECALL).
    set (s1 := mkSys m (sys_state s) (sys_context s) (sys_pool s)) in *.
    pose proof (ecall_close env s1) as [Hc Hmx]. cbn in Hc, Hmx.
    destruct (ecall env s1) as [[[]|e|] s2]; simplify_eq. cbn [snd] in *. lia.
Qed.
Lemma vm_run_total env max_cycles program mac st ctx pool :
  0 ≤ max_cycles → load_program program max_cycles = Ok mac →
  ∃ r, ∀ n, (vm_fuel max_cycles ≤ n)%positive → vm_run env n (mkSys mac st ctx pool) = Some r.
Proof.
  intros Hm Hl. destruct (load_program_cycles _ _ _ Hl) as [E0 Emax].
  destruct (run_pos_ends (vm_step env) (λ _, True) cycles_left (mkSys mac st ctx pool)) as [r Hr];
    [|done|].
  { intros s s' _ Hstep. split; [done|by eapply vm_step_left]. }
  exists r. intros n Hn. unfold vm_run. rewrite Hr; [done|]. unfold cycles_left, vm_fuel in *. cbn [sys_mac].
  rewrite E0, Emax. lia.
Qed.
(** What the instructions and the calls of a run keep, the run keeps. *)
Lemma vm_run_inv env n s r s' (P : Sys Mac St → Prop) :
  (∀ m s, P s → P (mkSys m (sys_state s) (sys_context s) (sys_pool s))) →
  (∀ s, P s → P (ecall env s).2) →
  P s → vm_run env n s = Some (r, s') → P s'.
Proof.
  intros Hmac Hcall Hs Hrun. unfold vm_run in Hrun.
  pose proof (run_pos_inv (vm_step env) P (λ x, P x.2) n s) as Hinv.
  destruct (run_pos _ n s) as [?|x]; simplify_eq. apply Hinv; [|done]. clear -Hmac Hcall. intros s Hs.
  unfold vm_step. destruct (machine_step (sys_mac s)) as [op m|m|code m|e m]; cbn; [by apply Hmac| |by apply Hmac..].
  pose proof (Hcall _ (Hmac m s Hs)) as Hc. by destruct (ecall _ _) as [[[]|e|] s2].
Qed.

(** Printing stops at the end of the memory. *)
Lemma debug_bytes_returns (fuel : nat) addr s :
  0 ≤ addr → Z.of_nat memory_size - addr ≤ Z.of_nat fuel → Z.of_nat memory_size < 2 ^ 64 →
  (debug_bytes (S fuel) addr s).1 ≠ Panic.
Proof.
  intros Ha Hf Hmem. revert addr s Ha Hf. induction fuel as [|fuel IH]; intros addr s Ha Hf;
    [|remember (S fuel) as n eqn:En].
  all: pose proof (load8_returns addr (sys_mac s)) as Hr.
  all: pose proof (load8_bounds addr (sys_mac s)) as Hb.
  all: cbn [debug_bytes]; unfold mbind, ST_bind, on_mac.
  all: destruct (load8 addr (sys_mac s)) as [[b|e|] m]; cbn in Hr, Hb; try done.
  - destruct Hb as [e He]; [lia|done].
  - case_match; [done|]. unfold add_w, checked_add.
    destruct (Z.ltb_spec addr (Z.of_nat memory_size)); [|destruct Hb as [e He]; [lia|done]].
    rewrite (proj2 (Z.ltb_lt _ _)) by lia. cbn [unwrap lift].
    specialize (IH (addr + 1) (mkSys m (sys_state s) (sys_context s) (sys_pool s))
      ltac:(lia) ltac:(lia)).
    by destruct (debug_bytes n _ _) as [[] ?].
Qed.
End Termination.

(** C33. Running a backend terminates: whatever the program does, a machine loaded with
    a cycle limit comes to an end within [vm_fuel] instructions, since every
    instruction costs at least one cycle by the cost model (loops without system calls
    included): an exit code, an error (too many cycles, an unknown call, a fault) or a
    panic inside a system call; more fuel gives the same end.  Printing a string that
    has no end stops at the end of the memory instead of running on. *)
Theorem machine_run_terminates {Mac St : Type} `{MachineLaws Mac, StateOps St, CodeOps St, JournalOps St}
    `{Blake2b, Molecule, SubstrateBn, ChainView, SyscallCodec}
    (env : L2Env) (max_cycles : Z) (program : bytes) (mac : Mac) (st : St) (ctx : RunContext)
    (pool : option CyclesPool) :
  0 ≤ max_cycles → load_program program max_cycles = Ok mac →
  (∃ result final, ∀ n, (vm_fuel max_cycles ≤ n)%positive →
     vm_run env n (mkSys mac st ctx pool) = Some (result, final)) ∧
  (∀ s : Sys Mac St, 0 ≤ get_reg A0 (sys_mac s) → Z.of_nat memory_size < 2 ^ 64 →
     (output_debug s).1 ≠ Panic).
Proof.
  intros Hm Hl. split.
  - destruct (vm_run_total env _ _ _ st ctx pool Hm Hl) as [[r s'] Hr]. by exists r, s'.
  - intros s Ha Hmem. unfold output_debug. erewrite st_bind_run by reflexivity.
    assert (Hd : (debug_bytes (S memory_size) (get_reg A0 (sys_mac s)) s).1 ≠ Panic)
      by (apply debug_bytes_returns; [done|lia|done]).
    unfold mbind at 1, ST_bind at 1. destruct (debug_bytes _ _ s) as [[b|e|] s1]; done.
Qed.

(** ** The effect of a run on the journaled state *)
Section Effects.
Context {Mac S : Type} `{MachineLaws Mac} `{StateView S, MapIter}.
Context `{Blake2b, Molecule, SubstrateBn, ChainView, SyscallCodec}.
Implicit Types (s : Sys Mac (StateDB S)) (db : StateDB S).

(** [db'] comes from [db] by journaled operations, each inserting contents
    under their own hash. *)
Definition journaled (db db' : StateDB S) : Prop :=
  view_ok (db_state db) →
  view_ok (db_state db') ∧
  ∃ ops, Forall (op_content_ok own_script own_data) ops ∧ st_for ops run_db_op db = (Ok tt, db').

#[export] Instance journaled_preorder : PreOrder journaled.
Proof.
  split.
  - intros db Hv. split; [done|]. by exists [].
  - intros a b c H1' H2' Hv. destruct (H1' Hv) as [Hb (ops1 & Hc1 & E1)].
    destruct (H2' Hb) as [Hc (ops2 & Hc2 & E2)]. split; [done|].
    exists (ops1 ++ ops2). split; [by apply Forall_app|]. clear -E1 E2.
    revert a E1. induction ops1 as [|o ops1 IH]; intros a E1; cbn [app st_for] in *.
    + by injection E1 as ->.
    + inv_ok. erewrite st_bind_run by eassumption. by apply IH.
Qed.

Lemma journaled_op o db db' :
  op_content_ok own_script own_data o → db_state db' = db_state db →
  run_db_op o db = (Ok tt, db') → journaled db db'.
Proof.
  intros Ho Es Hrun Hv. split; [by rewrite Es|]. exists [o]. split; [by apply Forall_singleton|].
  cbn [st_for]. by erewrite st_bind_run by eassumption.
Qed.

Lemma journaled_same db db' : db' = db → journaled db db'.
Proof. by intros ->. Qed.

Lemma journaled_reverted i db : journaled db (revert i db).2.
Proof.
  destruct (revert i db) as [[u|e|] db'] eqn:E; cbn.
  - destruct u. apply (journaled_op (DbRevert i)); [done| |done].
    unfold revert in E. repeat case_match; simplify_eq; done.
  - apply journaled_same. unfold revert in E. repeat case_match; simplify_eq; done.
  - apply journaled_same. unfold revert in E. repeat case_match; simplify_eq; done.
Qed.

Lemma journaled_snapshot db : journaled db (snapshot db).2.
Proof.
  destruct (snapshot db) as [[id|e|] db'] eqn:E; cbn.
  - apply (journaled_op DbSnapshot); [done| |by cbn; erewrite st_bind_run by eassumption].
    unfold snapshot in E. repeat case_match; simplify_eq; done.
  - apply journaled_same. unfold snapshot in E. repeat case_match; simplify_eq; done.
  - apply journaled_same. unfold snapshot in E. repeat case_match; simplify_eq; done.
Qed.

Lemma get_raw_run k db :
  view_ok (db_state db) → ∃ v, get_raw k db = (Ok v, with_tracker (touch_key k) db).
Proof.
  intros Hv. cbn. unfold db_get_raw. cbn. destruct (dirty_state _ !! k) as [v|]; [by exists v|].
  unfold inner. cbn. rewrite view_get_raw by done. by eexists.
Qed.

Lemma journaled_relation :
  sys_relation (Mac:=Mac) (λ s s', journaled (sys_state s) (sys_state s')).
Proof.
  split; try (intros; reflexivity).
  - split; [intros s; cbn; reflexivity|]. intros a b c Hab Hbc. by etrans.
  - intros s k Hv. destruct (get_raw_run k (sys_state s) Hv) as [v E].
    unfold put_state. rewrite E. apply (journaled_op (DbGetRaw k)); [done|done| |done].
    cbn [run_db_op]. by erewrite st_bind_run by exact E.
  - intros s k v _ _. by apply (journaled_op (DbUpdateRaw k v)).
  - intros s Hv. assert (E : (get_account_count (sys_state s)).2 = sys_state s).
    { cbn. unfold db_get_account_count. destruct (dirty_account_count _); [done|].
      unfold inner. rewrite view_get_account_count by done. by destruct (sys_state s). }
    unfold put_state. rewrite E. by apply (reflexivity (R:=journaled)).
  - intros s c. by apply (journaled_op (DbSetAccountCount c)).
  - intros s x. apply (journaled_op (DbInsertScript (script_hash x) x)); [|done|done].
    done.
  - intros s d. apply (journaled_op (DbInsertData (blake2b d) d)); [|done|done].
    done.
  - intros s d Hv. apply (journaled_op (DbGetData d)); [done| |done|done].
    cbn. unfold db_get_data. destruct (dirty_data _ !! d) as [b|]; [done|].
    rewrite view_get_data by done. by destruct (v_data _ d).
  - intros s l. by apply (journaled_op (DbAppendLog l)).
  - intros s. apply journaled_snapshot.
  - intros s i. apply journaled_reverted.
Qed.

(** A whole run of the machine. *)
Lemma vm_run_journaled env n s r s' :
  vm_run env n s = Some (r, s') → journaled (sys_state s) (sys_state s').
Proof.
  intros Hrun. apply (vm_run_inv env n s r s' (λ s2, journaled (sys_state s) (sys_state s2))); [done| |done|done].
  intros s1 Hs1. etrans; [exact Hs1|]. apply (ecall_respects _ journaled_relation env s1).
Qed.
End Effects.

(** ** [SYS_CREATE] is [State::create_account] *)
Section Create.
Context {Mac S : Type} `{MachineLaws Mac} `{StateView S, MapIter}.
Context `{Blake2b, Molecule, SubstrateBn, ChainView, SyscallCodec, SmtRoot}.
Implicit Types (s : Sys Mac (StateDB S)).

Lemma on_state_ref {A} (m1 : ST (StateDB S) StateError.t A) (m2 : ST RefState StateError.t A) s s' a rs :
  sim db_rel (λ _, False) m1 m2 → db_rel (sys_state s) rs → on_state m1 s = (Ok a, s') →
  ∃ rs', m2 rs = (Ok a, rs') ∧ db_rel (sys_state s') rs'.
Proof.
  intros Hs HR Hrun. unfold on_state in Hrun. destruct (m1 (sys_state s)) as [r db'] eqn:E.
  destruct (Hs _ _ HR) as [(?&?&?&[])|(r'&db''&rs'&E1&E2&HR')].
  rewrite E in E1. injection E1 as <- <-.
  destruct r; cbn in Hrun; simplify_eq. by exists rs'.
Qed.
Lemma on_mac_state {A} (m : ST Mac VMError A) s r s' :
  on_mac m s = (r, s') → sys_state s' = sys_state s.
Proof. unfold on_mac. destruct (m (sys_mac s)). by intros [= <- <-]. Qed.
Lemma load_from_state addr len s bs s' :
  load_from addr len s = (Ok bs, s') → sys_state s' = sys_state s.
Proof.
  revert addr s bs s'. induction len as [|len IH]; intros addr s bs s' Hrun; cbn [load_from] in Hrun; inv_ok;
    [by subst|]. subst. erewrite IH by eassumption. by eapply on_mac_state.
Qed.
Lemma done_with_state c s b s' :
  done_with c s = (Ok b, s') → sys_state s' = sys_state s.
Proof. unfold done_with, set_register. intros Hrun. by inv_ok; simplify_eq. Qed.

(** The account the call created, or the untouched state. *)
Lemma sys_create_effect env s s' b rs :
  db_rel (sys_state s) rs → sys_create env s = (Ok b, s') →
  db_rel (sys_state s') rs ∨
  ∃ script id rs', check_new_script env script = None ∧
    create_account (script_hash script) rs = (Ok id, rs') ∧ db_rel (sys_state s') rs' ∧
    get_script (script_hash script) (sys_state s') = Some script.
Proof.
  intros HR Hrun. unfold sys_create, reg, load_bytes in Hrun. inv_ok. simplify_eq.
  rename select (load_from _ _ _ = _) into Hl. apply load_from_state in Hl.
  rewrite <- Hl in HR. clear Hl.
  destruct (dec_Script _) as [script|]; [|left; by erewrite done_with_state].
  unfold sys_get_account_id_by_script_hash in *. inv_ok. simplify_eq.
  rename select (on_state (get_raw _) _ = _) into Hg.
  eapply on_state_ref in Hg as (rs1 & Eg & HR1); [|eauto with gw typeclass_instances|exact HR].
  cbn in Eg. injection Eg as <- <-. clear HR.
  match goal with Hif : context [bool_decide (is_Some ?o)] |- _ =>
    change o with (account_id_of rs (script_hash script)) in Hif end.
  destruct (account_id_of rs (script_hash script)) as [i|] eqn:Eid.
  { rewrite bool_decide_true in * by done. left. by erewrite done_with_state. }
  rewrite bool_decide_false in * by (by intros [? ?]).
  destruct (check_new_script env script) eqn:Hchk; [left; by erewrite done_with_state|].
  inv_ok. right.
  repeat match goal with
  | Hop : on_state ?m ?x = (Ok _, _), HR : db_rel (sys_state ?x) _ |- _ =>
      eapply on_state_ref in Hop as (? & Hop & ?); [|eauto with gw typeclass_instances|exact HR];
      injection Hop as ?; clear HR; subst
  end.
  rename select (on_state (modify _) _ = _) into Hins. unfold on_state, modify in Hins.
  injection Hins as <-.
  rename select (add_w _ _ _ = _) into Hadd. unfold add_w in Hadd.
  apply unwrap_Ok, checked_add_Some in Hadd as [-> Hadd].
  rename select (on_mac _ _ = _) into Hmac. apply on_mac_state in Hmac.
  rename select (done_with _ _ = _) into Hdone. apply done_with_state in Hdone.
  rename select (on_state (set_account_count _) _ = _) into Hset.
  unfold on_state in Hset. cbn [sys_state sys_mac sys_context sys_pool] in Hset.
  injection Hset as <-. rewrite Hdone, Hmac. cbn [sys_state].
  eexists script, _, _. split; [done|].
  rewrite create_account_run by done. rewrite Eid. split; [done|].
  match goal with HR : db_rel (sys_state ?x) ?r |- _ =>
    pose proof (db_rel_insert_script _ _ (script_hash script) script HR) as (Hok & Hk & Hc) end.
  split; [split; [exact Hok|]; split; [exact Hk|done]|].
  cbn. unfold db_get_script. cbn. by rewrite lookup_insert_eq.
Qed.
End Create.

(** [SYS_CREATE] creates accounts the way [State::create_account] does: a
    call that returns normally either leaves the account state as it was, or has
    done exactly what [create_account] does for a script that passes its checks
    (script hash type, an allowed code hash, arguments that start with the
    rollup's script hash) and made that script readable under its hash. *)
Theorem sys_create_is_create_account {Mac S : Type} `{MachineLaws Mac, StateView S, MapIter}
    `{Blake2b, Molecule, SubstrateBn, ChainView, SyscallCodec, SmtRoot}
    (env : L2Env) (s s' : Sys Mac (StateDB S)) (b : bool) (rs : RefState) :
  db_rel (sys_state s) rs → sys_create env s = (Ok b, s') →
  db_rel (sys_state s') rs ∨
  ∃ script id rs',
    (hash_type script = 1 ∧
     (is_allowed_hash (allowed_eoa_type_hashes (rollup_config (env_rollup_context env)))
        (code_hash script) = true ∨
      is_allowed_hash (allowed_contract_type_hashes (rollup_config (env_rollup_context env)))
        (code_hash script) = true) ∧
     take 32 (args script) = rollup_script_hash (env_rollup_context env)) ∧
    create_account (script_hash script) rs = (Ok id, rs') ∧ db_rel (sys_state s') rs' ∧
    get_script (script_hash script) (sys_state s') = Some script.
Proof.
  intros HR Hrun. destruct (sys_create_effect env s s' b rs HR Hrun)
    as [?|(script & id & rs' & Hchk & ?)]; [by left|]. right. exists script, id, rs'. split; [|done].
  unfold check_new_script in Hchk. repeat case_match; try done. bool_inv.
  split; [done|]. split; [|done].
  match goal with Hb : negb _ && negb _ = false |- _ =>
    apply andb_false_iff in Hb as [Hb|Hb]; apply negb_false_iff in Hb; auto end.
Qed.
