(* ===== verification/Generator.v ===== *)
(** * The generator

    Models [crates/generator/src/generator.rs] and [utils.rs]: running one
    transaction on a backend ([machine_run], [execute_transaction]), charging a
    failed one ([handle_failed_transaction]), checking signatures, and applying a
    whole block ([verify_and_apply_block]) with its three outcomes; and the
    verifiers of [verification/transaction.rs] and [withdrawal.rs].

    The state is any implementation of [State], [CodeStore] and [JournalDB]; the
    machine is the one of [Syscalls].  Timing, logging and tracing are left out.
    An [anyhow] error is either a [TransactionError], which the caller can
    recover by downcasting, or something else. *)
From Stdlib Require Import ZArith Lia Strings.Byte.
From stdpp Require Import prelude list gmap.
From S2P Require Import Prelude Bytes Types State StateSpec StateDB Finality Ckb.
From S2P Require Import NodeUtils NodeState AccountLocks Backends Syscalls.
Local Open Scope Z_scope.

(** ** [std::str::from_utf8] *)
Definition in_range (lo hi : Z) (b : byte) : bool := (lo <=? Z_of_byte b) && (Z_of_byte b <=? hi).
Definition is_cont (b : byte) : bool := in_range 0x80 0xbf b.
Fixpoint is_utf8 (bs : bytes) : bool :=
  match bs with
  | [] => true
  | b :: bs =>
      if in_range 0 0x7f b then is_utf8 bs
      else if in_range 0xc2 0xdf b then
        match bs with c :: bs => is_cont c && is_utf8 bs | _ => false end
      else if in_range 0xe0 0xef b then
        match bs with
        | c :: d :: bs =>
            (if Z_of_byte b =? 0xe0 then in_range 0xa0 0xbf c
             else if Z_of_byte b =? 0xed then in_range 0x80 0x9f c
             else is_cont c) && is_cont d && is_utf8 bs
        | _ => false
        end
      else if in_range 0xf0 0xf4 b then
        match bs with
        | c :: d :: e :: bs =>
            (if Z_of_byte b =? 0xf0 then in_range 0x90 0xbf c
             else if Z_of_byte b =? 0xf4 then in_range 0x80 0x8f c
             else is_cont c) && is_cont d && is_cont e && is_utf8 bs
        | _ => false
        end
      else false
  end.

(** ** Data *)
Inductive ContractLogConfig := LogVerbose | LogError_.
Record Generator := mkGenerator {
  g_backend_manage : BackendManage;
  g_account_lock_manage : AccountLockManage;
  g_rollup_context : RollupContext;
  g_contract_log_config : ContractLogConfig;
  g_polyjuice_creator_id : option Z;
}.

Inductive AnyError :=
| AnyTx (e : TransactionError.t)
| AnyOther (e : GenError.t).

Record RunResult := mkRunResult {
  rr_return_data : bytes; rr_logs : list LogItem; rr_exit_code : Z; rr_cycles : CycleMeter;
  rr_read_data_hashes : list H256; rr_write_data_hashes : list H256; rr_debug_log_buf : bytes;
}.
Record TxReceipt := mkTxReceipt {
  tr_tx_witness_hash : H256; tr_post_state : AccountMerkleState;
  tr_read_data_hashes : list H256; tr_logs : list LogItem; tr_exit_code : Z;
}.
(** [TxReceipt::build_receipt] (types/src/offchain/extension.rs) *)
Definition build_receipt (tx_witness_hash : H256) (r : RunResult) (post_state : AccountMerkleState) :
    TxReceipt :=
  mkTxReceipt tx_witness_hash post_state (rr_read_data_hashes r) (rr_logs r)
    (rr_exit_code r mod 2 ^ 8).

Definition get_block_info (raw : RawL2Block) : BlockInfo :=
  mkBlockInfo (block_producer raw) (number raw) (timestamp raw).
Definition build_challenge_target (block_hash : H256) (target_type : ChallengeTargetType)
    (target_index : Z) : ChallengeTarget :=
  mkChallengeTarget block_hash target_index (ChallengeTargetType_to_u8 target_type).

Definition read_polyjuice_gas_used {E} (system_log : LogItem) : outcome E (option Z) :=
  match parse_log system_log with
  | Ok (PolyjuiceSystem gas_used _ _ _) => Ok (Some gas_used)
  | Ok _ | Err _ => Ok None
  | Panic => Panic
  end.

Section Generator.
Context {Mac St : Type} `{Machine Mac, StateOps St, CodeOps St, JournalOps St}.
Context `{Blake2b, Molecule, ContractArgs, SubstrateBn, ChainView, SyscallCodec, MapIter}.
Context (g : Generator).
Local Abbreviation ctx := (g_rollup_context g).

(** ** One run of the machine *)
Definition INVALID_CYCLES_EXIT_CODE : Z := -1.

(** Charge the execution cycles to the pool; a transaction that can never fit in
    a block gets its cycles back. *)
Definition settle_pool (org_pool pool : option CyclesPool) (execution_cycles virtual_cycles : Z) :
    outcome TransactionError.t unit * option CyclesPool :=
  match pool with
  | None => (Ok tt, None)
  | Some p =>
      let (left, p) := consume_cycles execution_cycles p in
      match left with
      | Some _ => (Ok tt, Some p)
      | None =>
          let cycles := mkCycleMeter execution_cycles virtual_cycles in
          let limit := pool_limit p in
          if limit <? cycle_total cycles
          then (Err (TransactionError.ExceededMaxBlockCycles cycles limit), org_pool)
          else (Err (TransactionError.InsufficientPoolCycles cycles limit), Some p)
      end
  end.

Definition machine_run (block_info : BlockInfo) (block_consensus : BlockConsensus)
    (raw_tx : RawL2Transaction) (max_cycles : Z) (backend : Backend) :
    ST (St * option CyclesPool) TransactionError.t RunContext := λ '(state, pool),
  let env := mkL2Env ctx (g_account_lock_manage g) block_info block_consensus raw_tx in
  match load_program (bk_generator backend) max_cycles with
  | Err e => (Err (TransactionError.VM e), (state, pool))
  | Panic => (Panic, (state, pool))
  | Ok machine =>
      match vm_run env (vm_fuel max_cycles) (mkSys machine state default_context pool) with
      | None => (Panic, (state, pool))
      | Some (Panic, s) => (Panic, (sys_state s, sys_pool s))
      | Some (maybe_ok, s) =>
          let execution_cycles := mac_cycles (sys_mac s) in
          let context := sys_context s in
          let (settled, pool') :=
            settle_pool pool (sys_pool s) execution_cycles (cm_virtual (cycle_meter context)) in
          match settled with
          | Err e => (Err e, (sys_state s, pool'))
          | Panic => (Panic, (sys_state s, pool'))
          | Ok _ =>
              match (match maybe_ok with
                     | Ok code => Ok (code, execution_cycles)
                     | Err CyclesExceeded => Ok (INVALID_CYCLES_EXIT_CODE, max_cycles)
                     | Err e => Err e
                     | Panic => Panic
                     end) with
              | Err e => (Err (TransactionError.VM e), (sys_state s, pool))
              | Panic => (Panic, (sys_state s, pool'))
              | Ok (code, used_cycles) =>
                  if ((match g_contract_log_config g with LogVerbose => true | _ => false end)
                      || negb (code =? 0)) && negb (is_utf8 (debug_log_buf context))
                  then (Err TransactionError.Utf8Error, (sys_state s, pool'))
                  else
                    (Ok (mkRunContext
                           (mkCycleMeter used_cycles (cm_virtual (cycle_meter context)))
                           (return_data context) code (debug_log_buf context)),
                     (sys_state s, pool'))
              end
          end
      end
  end.

(** ** Looking up what runs a transaction *)
Local Abbreviation M := (ST St AnyError).
(** [state.op(..)?] *)
Local Abbreviation call m := (st_map_err (λ e, AnyOther (GenError.State e)) m).

Definition load_backend_and_block_consensus (block_number : Z) (sh : H256) (state : St) :
    option (Backend * BlockConsensus) :=
  script ← get_script sh state;
  if hash_type script =? ScriptHashType_to_u8 HashType then
    f ← get_block_consensus_at_height block_number (g_backend_manage g);
    backend ← backends f.2 !! code_hash script;
    Some (backend, f.2)
  else None.

(** utils.rs *)
Definition get_tx_type (raw_tx : RawL2Transaction) : M AllowedContractType :=
  receiver_script_hash ← call (get_script_hash (tx_to_id raw_tx));
  found ← gets (get_script receiver_script_hash);
  receiver_script ← lift (ok_or (AnyTx TransactionError.ScriptHashNotFound) found);
  let allowed := allowed_contract_type_hashes (rollup_config ctx) in
  match list_find (λ th, ath_hash th = code_hash receiver_script) allowed with
  | Some (_, th) =>
      mret (match AllowedContractType_try_from (ath_type th) with
            | Ok t => t
            | _ => ContractUnknown
            end)
  | None => lift (Err (AnyTx (TransactionError.BackendNotFound receiver_script_hash)))
  end.

Definition get_polyjuice_creator_id : ST St StateError.t (option Z) :=
  match get_block_consensus_at_height u64_max (g_backend_manage g) with
  | None => mret None
  | Some (_, consensus) =>
      match list_find (λ kb, bk_type kb.2 = BkPolyjuice) (map_iter (backends consensus)) with
      | None => mret None
      | Some (_, (_, backend)) =>
          get_account_id_by_script_hash
            (script_hash (mkScript (bk_validator_script_type_hash backend)
               (ScriptHashType_to_u8 HashType)
               (rollup_script_hash ctx ++ le_bytes 4 CKB_SUDT_ACCOUNT_ID)))
      end
  end.

(** ** A failed transaction *)
Definition ERROR_EVM_INTERNAL : Z := -1.

(** The fee a failed polyjuice transaction pays, after appending its system
    log. *)
Definition failed_polyjuice_fee (raw_tx : RawL2Transaction) (last_run_result_log : option LogItem) :
    M (option Z) :=
  system_log ←
    match (l ← last_run_result_log;
           if log_service_flag l =? GW_LOG_POLYJUICE_SYSTEM then Some l else None) with
    | Some l => mret l
    | None =>
        p ← lift (ok_or (AnyTx TransactionError.NoCost) (PolyjuiceTx_parser raw_tx));
        mret (generate_polyjuice_system_log (tx_to_id raw_tx) (PolyjuiceParser.gas p)
                (PolyjuiceParser.gas p) (zeros 20) ERROR_EVM_INTERNAL)
    end;
  parser ← lift (ok_or (AnyTx TransactionError.NoCost) (PolyjuiceTx_parser raw_tx));
  gas ← lift (read_polyjuice_gas_used system_log);
  let gas_used := default (PolyjuiceParser.gas parser) gas in
  modify (j_append_log system_log) ;;
  mret (checked_mul 256 gas_used (PolyjuiceParser.gas_price parser)).

Definition failed_tx_fee (raw_tx : RawL2Transaction) (last_run_result_log : option LogItem)
    (tx : TypedRawTransaction) : M (option Z) :=
  match tx with
  | TypedEthAddrReg tx => mret (EthAddrRegTx_consumed tx)
  | TypedMeta tx => mret (MetaTx_consumed tx)
  | TypedSimpleUDT tx => mret (SimpleUDTTx_consumed tx)
  | TypedPolyjuice tx => failed_polyjuice_fee raw_tx last_run_result_log
  end.

Definition default_address : RegistryAddress := mkRegistryAddress 0 [].

Definition handle_failed_transaction (origin_snapshot nonce_before : Z) (block_info : BlockInfo)
    (raw_tx : RawL2Transaction) (run_ctx : RunContext) : M unit :=
  let sender_id := tx_from_id raw_tx in
  last_run_result_log ← gets (λ st, last (j_appended_logs st));
  call (j_revert origin_snapshot) ;;
  sender_script_hash ← call (get_script_hash sender_id);
  found ← call (get_registry_address_by_script_hash ETH_REGISTRY_ACCOUNT_ID sender_script_hash);
  payer ← lift (ok_or (AnyTx TransactionError.ScriptHashNotFound) found);
  let producer := default default_address
                    (RegistryAddress_from_slice (bi_block_producer block_info)) in
  tx_type ← get_tx_type raw_tx;
  typed_tx ← lift (ok_or (AnyTx (TransactionError.UnknownTxType (exit_code run_ctx)))
                     (TypedRawTransaction_from_tx raw_tx tx_type));
  fee ← failed_tx_fee raw_tx last_run_result_log typed_tx;
  tx_fee ← lift (ok_or (AnyTx TransactionError.NoCost) fee);
  st_map_err (λ _, AnyTx TransactionError.InsufficientBalance)
    (node_pay_fee payer producer CKB_SUDT_ACCOUNT_ID tx_fee) ;;
  let raw_key := build_account_key CKB_SUDT_ACCOUNT_ID SUDT_TOTAL_SUPPLY_KEY in
  value ← call (get_raw raw_key);
  total_supply ← lift (ok_or (AnyTx TransactionError.InsufficientBalance)
                         (checked_add 256 (h256_to_u256 value) tx_fee));
  call (update_raw raw_key (h256_from_u256 total_supply)) ;;
  nonce ← lift (ok_or (AnyTx TransactionError.NonceOverflow) (checked_add 32 nonce_before 1));
  call (set_nonce sender_id nonce).

(** ** One transaction *)
Definition no_tracker : StateTracker := mkStateTracker ∅ ∅ ∅.

(** The limits on what a transaction wrote and read. *)
Definition check_data_limits (tracker : StateTracker) : outcome AnyError unit :=
  match list_find (λ kv, MAX_WRITE_DATA_BYTES < Z.of_nat (length kv.2))
          (map_iter (write_data tracker)) with
  | Some (_, (_, data)) =>
      Err (AnyTx (TransactionError.ExceededMaxWriteData MAX_WRITE_DATA_BYTES
                    (Z.of_nat (length data))))
  | None =>
      let read_data_bytes :=
        sum_over (λ kv, Z.of_nat (length kv.2)) (map_iter (read_data tracker)) in
      reject_if (MAX_TOTAL_READ_DATA_BYTES <? read_data_bytes)
        (AnyTx (TransactionError.ExceededMaxTotalReadData MAX_TOTAL_READ_DATA_BYTES
                  read_data_bytes))
  end.

(** [self.machine_run(args).map_err(|err| { state.revert(snap).expect(..); err })?] *)
Definition run_or_revert (snap : Z) (m : ST (St * option CyclesPool) TransactionError.t RunContext) :
    ST (St * option CyclesPool) AnyError RunContext := λ s,
  match m s with
  | (Ok c, s) => (Ok c, s)
  | (Panic, s) => (Panic, s)
  | (Err e, (state, pool)) =>
      match j_revert snap state with
      | (Ok _, state) => (Err (AnyTx e), (state, pool))
      | (_, state) => (Panic, (state, pool))
      end
  end.

(** A step on the state alone. *)
Definition on_st {A} (m : M A) : ST (St * option CyclesPool) AnyError A := λ '(state, pool),
  let (r, state) := m state in (r, (state, pool)).

Definition take_tracker : M StateTracker := λ state,
  let (t, state) := j_take_state_tracker state in (unwrap t, state).

(** After the run: the nonce must have grown, or the failure is charged; then the
    limits on the data, and the result. *)
Definition finish_transaction (snap nonce_before : Z) (block_info : BlockInfo)
    (raw_tx : RawL2Transaction) (run_context : RunContext) : M RunResult :=
  (if is_success run_context then
     nonce_after ← call (get_nonce (tx_from_id raw_tx));
     lift (reject_if (nonce_after <=? nonce_before)
             (AnyTx TransactionError.BackendMustIncreaseNonce))
   else handle_failed_transaction snap nonce_before block_info raw_tx run_context) ;;
  tracker ← take_tracker;
  lift (check_data_limits tracker) ;;
  logs ← gets j_appended_logs;
  mret (mkRunResult (return_data run_context) logs (exit_code run_context)
          (cycle_meter run_context) (map_iter (read_data tracker)).*1
          (map_iter (write_data tracker)).*1 (debug_log_buf run_context)).

Definition execute_transaction (block_info : BlockInfo) (raw_tx : RawL2Transaction)
    (override_max_cycles : option Z) : ST (St * option CyclesPool) AnyError RunResult :=
  let block_number := bi_number block_info in
  let sender_id := tx_from_id raw_tx in
  sh ← on_st (call (get_script_hash (tx_to_id raw_tx)));
  loaded ← on_st (gets (load_backend_and_block_consensus block_number sh));
  '(backend, block_consensus) ← lift (ok_or (AnyTx (TransactionError.BackendNotFound sh)) loaded);
  snap ← on_st (call j_snapshot);
  nonce_before ← on_st (call (get_nonce sender_id));
  on_st (modify (j_set_state_tracker no_tracker)) ;;
  let max_cycles := default (max_l2_tx_cycles (fork_config ctx) block_number) override_max_cycles in
  run_context ← run_or_revert snap
    (machine_run block_info block_consensus raw_tx max_cycles backend);
  on_st (finish_transaction snap nonce_before block_info raw_tx run_context).

(** ** Signatures *)
Definition check_withdrawal_signature (withdrawal : WithdrawalRequestExtra) : ST St GenError.t unit :=
  let raw := w_raw (we_request withdrawal) in
  found ← gets (get_script (w_account_script_hash raw));
  account_script ← lift (ok_or (GenError.State StateError.MissingKey) found);
  lock_algo ← lift (ok_or (GenError.Unlock UnknownAccountLock)
                      (get_lock_algorithm (code_hash account_script) (g_account_lock_manage g)));
  a ← st_map_err GenError.State
        (get_registry_address_by_script_hash (w_registry_id raw) (w_account_script_hash raw));
  address ← lift (ok_or (GenError.Account RegistryAddressNotFound) a);
  lift (map_err GenError.Unlock
          (la_verify_withdrawal lock_algo ctx account_script withdrawal address)).

Definition check_transaction_signature (tx : L2Transaction) : ST St GenError.t unit :=
  let raw_tx := tx_raw tx in
  let sender_id := tx_from_id raw_tx in
  let receiver_id := tx_to_id raw_tx in
  sh ← st_map_err GenError.State (get_script_hash sender_id);
  lift (reject_if (h256_is_zero sh) (GenError.Account (ScriptNotFound sender_id))) ;;
  found ← gets (get_script sh);
  script ← lift (unwrap found);
  receiver_sh ← st_map_err GenError.State (get_script_hash receiver_id);
  lift (reject_if (h256_is_zero receiver_sh) (GenError.Account (ScriptNotFound receiver_id))) ;;
  found ← gets (get_script receiver_sh);
  receiver_script ← lift (unwrap found);
  lock_algo ← lift (ok_or (GenError.Unlock UnknownAccountLock)
                      (get_lock_algorithm (code_hash script) (g_account_lock_manage g)));
  a ← st_map_err GenError.State (get_registry_address_by_script_hash ETH_REGISTRY_ACCOUNT_ID sh);
  sender_address ← lift (ok_or (GenError.Account RegistryAddressNotFound) a);
  lift (map_err GenError.Unlock
          (la_verify_tx lock_algo ctx sender_address script receiver_script tx)).

(** ** Applying a block *)
Record ApplyBlockArgs := mkApplyBlockArgs {
  aa_l2block : L2Block;
  aa_deposits : list DepositRequest;
  aa_withdrawals : list WithdrawalRequestExtra;
}.
Record BlockSuccess := mkBlockSuccess {
  bs_withdrawal_receipts : list WithdrawalReceipt;
  bs_prev_txs_state : AccountMerkleState;
  bs_tx_receipts : list TxReceipt;
  bs_offchain_used_cycles : Z;
}.
(** The early returns. *)
Inductive ApplyStop :=
| StopChallenge (target : ChallengeTarget) (error : GenError.t)
| StopError (error : GenError.t).
Inductive ApplyBlockResult :=
| ApplySuccess (r : BlockSuccess)
| ApplyChallenge (target : ChallengeTarget) (error : GenError.t)
| ApplyError (error : GenError.t).

Local Abbreviation B := (ST St ApplyStop).
(** [match m { Ok(x) => x, Err(err) => return ApplyBlockResult::Error(err) }] *)
Local Abbreviation or_error m := (st_map_err StopError m).
(** [m.expect(..)] *)
Definition st_expect {A E} (m : ST St StateError.t A) : ST St E A := λ st,
  match m st with
  | (Ok a, st) => (Ok a, st)
  | (_, st) => (Panic, st)
  end.

(** [assert_eq!] of the root and the account count *)
Definition check_account_state (account : AccountMerkleState) : B unit :=
  root ← st_expect calculate_root;
  lift (assert_that (bool_decide (root = am_merkle_root account))) ;;
  count ← st_expect get_account_count;
  lift (assert_that (count =? am_count account)).

Definition apply_withdrawals_from (block_hash : H256) (raw_block : RawL2Block)
    (producer : RegistryAddress) : nat → list WithdrawalRequestExtra → B (list WithdrawalReceipt) :=
  fix loop wth_idx withdrawals :=
    match withdrawals with
    | [] => mret []
    | request :: rest =>
        st_map_err (StopChallenge (build_challenge_target block_hash TargetWithdrawal
                                     (Z.of_nat wth_idx mod 2 ^ 32)))
          (check_withdrawal_signature request) ;;
        receipt ← or_error (apply_withdrawal_request ctx producer (we_request request));
        (if fork_enforce_state_checkpoint_list (fork_config ctx) (number raw_block) then
           expected_checkpoint ← st_expect calculate_state_checkpoint;
           block_checkpoint ←
             lift (ok_or (StopError (GenError.Block (CheckpointNotFound wth_idx)))
                     (state_checkpoint_list raw_block !! wth_idx));
           lift (assert_that (bool_decide (block_checkpoint = expected_checkpoint)))
         else mret tt) ;;
        receipts ← loop (S wth_idx) rest;
        mret (receipt :: receipts)
    end.

(** [execute_transaction] of a committed block has no cycles pool. *)
Definition execute_in_block (block_info : BlockInfo) (raw_tx : RawL2Transaction) (max_cycles : Z) :
    M RunResult := λ state,
  let '(r, (state, _)) := execute_transaction block_info raw_tx (Some max_cycles) (state, None) in
  (r, state).

Definition any_error_stop (target : ChallengeTarget) (e : AnyError) : ApplyStop :=
  match e with
  | AnyTx e => StopChallenge target (GenError.Transaction e)
  | AnyOther e => StopError e
  end.

Definition apply_tx (block_hash : H256) (raw_block : RawL2Block) (skip_checkpoint_check : bool)
    (withdrawal_count max_cycles : Z) (tx_index : nat) (tx : L2Transaction) : B (TxReceipt * Z) :=
  let target t := build_challenge_target block_hash t (Z.of_nat tx_index mod 2 ^ 32) in
  let raw_tx := tx_raw tx in
  st_map_err (StopChallenge (target TxSignature)) (check_transaction_signature tx) ;;
  expected_nonce ← or_error (st_map_err GenError.State (get_nonce (tx_from_id raw_tx)));
  lift (reject_if (negb (tx_nonce raw_tx =? expected_nonce))
          (StopChallenge (target TxExecution)
             (GenError.Transaction (TransactionError.Nonce (tx_from_id raw_tx) expected_nonce
                                      (tx_nonce raw_tx))))) ;;
  run_result ← st_map_err (any_error_stop (target TxExecution))
    (execute_in_block (get_block_info raw_block) raw_tx max_cycles);
  or_error (st_map_err GenError.State j_finalise) ;;
  (if negb skip_checkpoint_check
      && fork_enforce_state_checkpoint_list (fork_config ctx) (number raw_block) then
     expected_checkpoint ← st_expect calculate_state_checkpoint;
     let checkpoint_index := (Z.to_nat withdrawal_count + tx_index)%nat in
     block_checkpoint ←
       lift (ok_or (StopError (GenError.Block (CheckpointNotFound checkpoint_index)))
               (state_checkpoint_list raw_block !! checkpoint_index));
     lift (reject_if (negb (bool_decide (block_checkpoint = expected_checkpoint)))
             (StopChallenge (target TxExecution)
                (GenError.Block (InvalidCheckpoint expected_checkpoint block_checkpoint
                                   checkpoint_index))))
   else mret tt) ;;
  post_state ← or_error calculate_merkle_state;
  mret (build_receipt (tx_witness_hash tx) run_result post_state, cm_execution (rr_cycles run_result)).

Definition apply_txs_from (block_hash : H256) (raw_block : RawL2Block) (skip_checkpoint_check : bool)
    (withdrawal_count max_cycles : Z) : nat → list L2Transaction → Z → B (list TxReceipt * Z) :=
  fix loop tx_index txs offchain_used_cycles :=
    match txs with
    | [] => mret ([], offchain_used_cycles)
    | tx :: rest =>
        '(receipt, used_cycles) ←
          apply_tx block_hash raw_block skip_checkpoint_check withdrawal_count max_cycles tx_index tx;
        '(receipts, cycles) ←
          loop (S tx_index) rest (saturating_add 64 offchain_used_cycles used_cycles);
        mret (receipt :: receipts, cycles)
    end.

Definition apply_block (args : ApplyBlockArgs) (skipped_invalid_block_list : list H256) :
    B BlockSuccess :=
  let block := aa_l2block args in
  let raw_block := block_raw block in
  let block_hash := raw_block_hash raw_block in
  lift (assert_that (length (block_withdrawals block) =? length (aa_withdrawals args))%nat) ;;
  let skip_checkpoint_check := bool_decide (block_hash ∈ skipped_invalid_block_list) in
  (if negb skip_checkpoint_check then check_account_state (prev_account raw_block) else mret tt) ;;
  producer ← lift (ok_or (StopError (GenError.Block BlockProducerNotExists))
                     (RegistryAddress_from_slice (block_producer raw_block)));
  withdrawal_receipts ←
    apply_withdrawals_from block_hash raw_block producer 0 (aa_withdrawals args);
  st_for (aa_deposits args) (λ req, or_error (apply_deposit_request ctx req)) ;;
  or_error (st_map_err GenError.State j_finalise) ;;
  prev_txs_state ← or_error calculate_merkle_state;
  let max_cycles := max_l2_tx_cycles (fork_config ctx) (number raw_block) in
  '(tx_receipts, offchain_used_cycles) ←
    apply_txs_from block_hash raw_block skip_checkpoint_check
      (Z.of_nat (length withdrawal_receipts)) max_cycles 0 (block_transactions block) 0;
  (if negb skip_checkpoint_check then check_account_state (post_account raw_block) else mret tt) ;;
  mret (mkBlockSuccess withdrawal_receipts prev_txs_state tx_receipts offchain_used_cycles).

(** The state is the one [BlockStateDB::from_store] opens for the block. *)
Definition verify_and_apply_block (args : ApplyBlockArgs) (skipped_invalid_block_list : list H256)
    (state : St) : outcome Empty_set ApplyBlockResult * St :=
  match apply_block args skipped_invalid_block_list state with
  | (Ok r, state) => (Ok (ApplySuccess r), state)
  | (Err (StopChallenge target error), state) => (Ok (ApplyChallenge target error), state)
  | (Err (StopError error), state) => (Ok (ApplyError error), state)
  | (Panic, state) => (Panic, state)
  end.
End Generator.
