(* ===== verification/GeneratorProps.v ===== *)
(** * Correctness of the generator

    Failed and aborted transactions ([execute_transaction] and
    [handle_failed_transaction]) against the reference state, and what each
    outcome of [verify_and_apply_block] says about the block. *)
From Stdlib Require Import ZArith Lia Strings.Byte.
From stdpp Require Import prelude list gmap.
From S2P Require Import Prelude Bytes Types State StateSpec StateDB Finality Ckb.
From S2P Require Import RollupScript NodeUtils NodeState AccountLocks Backends Syscalls Generator.
Local Open Scope Z_scope.

(** ** Steps on the state and the cycles pool *)
Section Steps.
Context `{Blake2b, SmtRoot} {S : Type} `{StateView S, MapIter}.
Implicit Types (db : StateDB S) (rs : RefState).

Lemma on_st_Ok {St A} (m : ST St AnyError A) (s : St * option CyclesPool) a s' :
  on_st m s = (Ok a, s') ↔ m s.1 = (Ok a, s'.1) ∧ s'.2 = s.2.
Proof.
  destruct s as [st p], s' as [st' p']. unfold on_st. cbn. destruct (m st) as [r st1]. naive_solver.
Qed.

(** A trait call inside a transaction succeeds, or ends it with an error that is
    no [TransactionError]. *)
Lemma on_st_call {St A B} (m : ST St StateError.t A)
    (f : A → ST (St * option CyclesPool) AnyError B) st pool :
  let call := st_map_err (λ e, AnyOther (GenError.State e)) m in
  (∃ a st1, call st = (Ok a, st1) ∧ (on_st call ≫= f) (st, pool) = f a (st1, pool)) ∨
  (∃ o st1, (on_st call ≫= f) (st, pool) = (o, (st1, pool)) ∧
     match o with Ok _ | Err (AnyTx _) => False | _ => True end).
Proof.
  cbv zeta. unfold mbind, ST_bind, on_st, st_map_err.
  destruct (m st) as [[a|e|] st1]; cbn; [left|right..];
    by eexists _, _.
Qed.

(** A trait call seen from the reference state. *)
Lemma db_ran {A} (R : StateDB S → RefState → Prop) (m1 : ST (StateDB S) StateError.t A)
    (m2 : ST RefState StateError.t A) db db' rs a :
  sim R (λ _, False) m1 m2 → R db rs → m1 db = (Ok a, db') →
  ∃ rs', m2 rs = (Ok a, rs') ∧ R db' rs'.
Proof.
  intros Hs HR Hrun. destruct (Hs _ _ HR) as [(?&?&?&[])|(r&db1&rs'&E1&E2&HR')].
  rewrite Hrun in E1. injection E1 as <- <-. eauto.
Qed.
Lemma db_call {A E} (R : StateDB S → RefState → Prop) (f : StateError.t → E)
    (m1 : ST (StateDB S) StateError.t A) (m2 : ST RefState StateError.t A) db db' rs a :
  sim R (λ _, False) m1 m2 → R db rs → st_map_err f m1 db = (Ok a, db') →
  ∃ rs', m2 rs = (Ok a, rs') ∧ R db' rs'.
Proof. intros Hs HR Hrun%st_map_err_Ok. by eapply db_ran. Qed.

(** The same with the logs, which no trait call touches. *)
Definition db_rel_logs (logs : list LogItem) (db : StateDB S) (rs : RefState) : Prop :=
  db_rel db rs ∧ appended_logs db = logs.

#[export] Instance StateDB_logs_sim logs :
  StateSim (StateDB S) RefState (db_rel_logs logs) (λ _, False).
Proof.
  split.
  - intros k db rs [HR Hl]. right. destruct (sim_get_raw k db rs HR) as [(?&?&?&[])|(r&db1&rs'&E1&E2&HR')].
    exists r, db1, rs'. repeat (split; [done|]).
    apply get_raw_same in E1 as (_&_&_&_&_&E); [|apply HR]. unfold appended_logs. by rewrite E.
  - intros k v db rs [HR Hl]. right.
    destruct (sim_update_raw k v db rs HR) as [(?&?&?&[])|(r&db1&rs'&E1&E2&HR')].
    exists r, db1, rs'. repeat (split; [done|]). by injection E1 as <- <-.
  - intros db rs [HR Hl]. right.
    destruct (sim_get_account_count db rs HR) as [(?&?&?&[])|(r&db1&rs'&E1&E2&HR')].
    exists r, db1, rs'. repeat (split; [done|]). cbn in E1.
    unfold db_get_account_count, inner in E1. rewrite view_get_account_count in E1 by apply HR.
    by case_match; simplify_eq.
  - intros c db rs [HR Hl]. right.
    destruct (sim_set_account_count c db rs HR) as [(?&?&?&[])|(r&db1&rs'&E1&E2&HR')].
    exists r, db1, rs'. repeat (split; [done|]). by injection E1 as <- <-.
Qed.

(** States that agree but for the tracker represent the same reference state. *)
Lemma db_rel_same db db' rs :
  db_state db' = db_state db → db_dirty db' = db_dirty db → db_rel db rs → db_rel db' rs.
Proof. intros E1 E2 (Hok & Hk & Hc). unfold db_rel, db_view. by rewrite E1, E2. Qed.
(** The accounts do not depend on the contents kept under a hash. *)
Lemma db_rel_equiv db db' rs :
  db_state db' = db_state db → db_dirty db' ≡ db_dirty db → db_rel db rs → db_rel db' rs.
Proof.
  intros E1 (Es & Ec & _) (Hok & Hk & Hc). unfold db_rel, db_view, overlay in *. cbn in *.
  by rewrite E1, Es, Ec.
Qed.
Lemma logs_equiv db db' : db_dirty db' ≡ db_dirty db → appended_logs db' = appended_logs db.
Proof. by intros (_ & _ & El & _). Qed.
End Steps.

(** ** A run between a snapshot and a revert *)
Section Rollback.
Context {Mac S : Type} `{MachineLaws Mac} `{StateView S, MapIter}.
Context `{Blake2b, Molecule, ContractArgs, SubstrateBn, ChainView, SyscallCodec, SmtRoot}.
Context (g : Generator).
Implicit Types (db : StateDB S) (rs : RefState).

(** [machine_run] changes the state by journaled operations only. *)
Lemma machine_run_journaled info consensus raw_tx max backend db pool r db' pool' :
  machine_run (Mac:=Mac) g info consensus raw_tx max backend (db, pool) = (r, (db', pool')) →
  journaled db db'.
Proof.
  intros Hrun. unfold machine_run in Hrun.
  destruct (load_program _ _) as [mac|e|]; [|by simplify_eq..].
  destruct (vm_run _ _ _) as [[o s]|] eqn:Hvm; [|by simplify_eq].
  apply vm_run_journaled in Hvm. cbn [sys_state] in Hvm.
  assert (db' = sys_state s) as ->; [|done].
  destruct o; repeat case_match; by simplify_eq.
Qed.

Lemma rolled_back base db db1 db2 :
  since own_script own_data base db → journaled db db1 →
  revert (next_revision_id base) db1 = (Ok tt, db2) →
  db_state db2 = db_state base ∧ db_dirty db2 ≡ db_dirty base.
Proof.
  intros Hs Hj Hrev. destruct Hj as [_ (ops & Hc & Hrun)]; [apply Hs|].
  eapply tracked_ops in Hrun; [|by left|done]. by apply (tracked_end own_script own_data) in Hrev as (?&_&_&?&_).
Qed.

(** Up to the run: the state is a snapshot of one that represents [rs]. *)
Lemma execute_prefix raw_tx db rs db1 db2 db3 sh snap nonce :
  db_wf own_script own_data db → db_rel db rs →
  st_map_err (λ e, AnyOther (GenError.State e)) (get_script_hash (tx_to_id raw_tx)) db
    = (Ok sh, db1) →
  st_map_err (λ e, AnyOther (GenError.State e)) snapshot db1 = (Ok snap, db2) →
  st_map_err (λ e, AnyOther (GenError.State e)) (get_nonce (tx_from_id raw_tx)) db2
    = (Ok nonce, db3) →
  snap = next_revision_id db1 ∧ db_rel db1 rs ∧ nonce = nonce_at rs (tx_from_id raw_tx) ∧
  since own_script own_data db1 (set_state_tracker no_tracker db3).
Proof.
  intros Hwf HR Hsh Hsnap Hnonce.
  assert (Hwf1 : db_wf own_script own_data db1).
  { apply st_map_err_Ok in Hsh. unfold get_script_hash in Hsh. inv_ok.
    eapply same_wf; [done|]. eapply get_raw_same; [apply Hwf|eassumption]. }
  eapply (db_call db_rel) in Hsh as (rs1 & Er & HR1); [|eauto with gw typeclass_instances|done].
  rewrite get_script_hash_run in Er. injection Er as _ <-.
  apply st_map_err_Ok in Hsnap. destruct (since_start _ _ _ _ _ Hwf1 Hsnap) as [Hs ->].
  assert (HR2 : db_rel db2 rs).
  { rewrite snapshot_run in Hsnap by (by eapply snapshot_Ok). injection Hsnap as <-. done. }
  pose proof Hnonce as Hn. eapply (db_call db_rel) in Hn as (rs2 & Er & _);
    [|eauto with gw typeclass_instances|exact HR2].
  rewrite get_nonce_run in Er. injection Er as -> _.
  apply st_map_err_Ok in Hnonce. unfold get_nonce in Hnonce. inv_ok.
  rename select (get_raw _ _ = _) into Hv. apply get_raw_same in Hv; [|apply Hs].
  repeat (split; [done|]). eapply since_same; [|done]. by eapply since_same.
Qed.
End Rollback.

(** ** Failed transactions *)

(** What a failed transaction does to the state: the fee moves from the sender
    to the block producer, the total supply of CKB grows by it, and the sender's
    nonce by one. *)
Definition charge_failure `{Blake2b, SmtRoot} (payer producer : RegistryAddress) (sender fee : Z)
    (rs rs' : RefState) : Prop :=
  ∃ rs1 rs2,
    burn_sudt CKB_SUDT_ACCOUNT_ID payer fee rs = (Ok tt, rs1) ∧
    mint_sudt CKB_SUDT_ACCOUNT_ID producer fee rs1 = (Ok tt, rs2) ∧
    supply rs2 CKB_SUDT_ACCOUNT_ID + fee < 2 ^ 256 ∧
    set_nonce sender (nonce_at rs sender + 1)
      (set_supply CKB_SUDT_ACCOUNT_ID (supply rs2 CKB_SUDT_ACCOUNT_ID + fee) rs2) = (Ok tt, rs').

(** The fee of a failed transaction: fixed by the built-in transactions, the gas
    used for a polyjuice one; the logs it leaves. *)
Definition failure_fee `{ContractArgs} (raw_tx : RawL2Transaction) (typed : TypedRawTransaction) (fee : Z)
    (system : list LogItem) : Prop :=
  match typed with
  | TypedEthAddrReg tx => EthAddrRegTx_consumed tx = Some fee ∧ system = []
  | TypedMeta tx => MetaTx_consumed tx = Some fee ∧ system = []
  | TypedSimpleUDT tx => SimpleUDTTx_consumed tx = Some fee ∧ system = []
  | TypedPolyjuice _ => ∃ parser gas_used log,
      PolyjuiceTx_parser raw_tx = Some parser ∧
      read_polyjuice_gas_used (E:=AnyError) log = Ok gas_used ∧
      fee = default (PolyjuiceParser.gas parser) gas_used * PolyjuiceParser.gas_price parser ∧
      system = [log] ∧ log_service_flag log = GW_LOG_POLYJUICE_SYSTEM
  end.

Section Failure.
Context {S : Type} `{StateView S, MapIter}.
Context `{Blake2b, Molecule, ContractArgs, SmtRoot}.
Context (g : Generator).
Implicit Types (db : StateDB S) (rs : RefState).

Lemma failed_polyjuice_fee_Ok raw_tx l db rs logs fee db' :
  db_rel_logs logs db rs → failed_polyjuice_fee raw_tx l db = (Ok (Some fee), db') →
  ∃ parser gas_used log,
    PolyjuiceTx_parser raw_tx = Some parser ∧
    read_polyjuice_gas_used (E:=AnyError) log = Ok gas_used ∧
    fee = default (PolyjuiceParser.gas parser) gas_used * PolyjuiceParser.gas_price parser ∧
    log_service_flag log = GW_LOG_POLYJUICE_SYSTEM ∧ db_rel_logs (logs ++ [log]) db' rs.
Proof.
  intros [HR Hl] Hrun. unfold failed_polyjuice_fee in Hrun.
  apply st_bind_Ok in Hrun as (log & db1 & Hlog & Hrun).
  assert (log_service_flag log = GW_LOG_POLYJUICE_SYSTEM ∧ db1 = db) as [Hf ->].
  { destruct l as [l|]; cbn in Hlog; [|by inv_ok].
    destruct (Z.eqb_spec (log_service_flag l) GW_LOG_POLYJUICE_SYSTEM); by inv_ok. }
  inv_ok. rename select (modify _ _ = _) into Hmod. injection Hmod as <-.
  rename select (checked_mul _ _ _ = _) into Hmul. apply checked_mul_Some in Hmul as [-> _].
  eexists _, _, log. by repeat (split; [done|]).
Qed.

Lemma failed_tx_fee_Ok raw_tx l typed db rs logs fee db' :
  db_rel_logs logs db rs → failed_tx_fee raw_tx l typed db = (Ok (Some fee), db') →
  ∃ system, failure_fee raw_tx typed fee system ∧ db_rel_logs (logs ++ system) db' rs.
Proof.
  intros HR Hrun. destruct typed; cbn [failed_tx_fee] in Hrun.
  1-3: inv_ok; exists []; rewrite app_nil_r; done.
  apply (failed_polyjuice_fee_Ok _ _ _ _ _ _ _ HR) in Hrun as (parser & gas & log & ?).
  exists [log]. naive_solver.
Qed.

Lemma get_tx_type_Ok raw_tx db rs logs t db' :
  db_rel_logs logs db rs → get_tx_type g raw_tx db = (Ok t, db') → db_rel_logs logs db' rs.
Proof.
  intros HR Hrun. unfold get_tx_type in Hrun.
  apply st_bind_Ok in Hrun as (sh & db1 & Hsh & Hrun).
  eapply (db_call (db_rel_logs logs)) in Hsh as (rs1 & Er & HR1);
    [|eauto with gw typeclass_instances|done].
  rewrite get_script_hash_run in Er. injection Er as _ <-.
  apply st_bind_Ok in Hrun as (o & db2 & Hg & Hrun). injection Hg as <- <-.
  inv_ok. destruct (list_find _ _) as [[? ?]|]; by inv_ok; subst.
Qed.

(** Run the next trait call of a successful run on the reference state. *)
Local Ltac ref_step Hrun HR :=
  let Hop := fresh "Hop" in
  apply st_bind_Ok in Hrun as (? & ? & Hop & Hrun);
  eapply (db_call (db_rel_logs _)) in Hop as (? & Hop & ?); [|eauto with gw typeclass_instances|exact HR];
  clear HR; rename select (db_rel_logs _ _ _) into HR.

Lemma handle_failed_reverts snap nonce info raw_tx c db db' :
  handle_failed_transaction g snap nonce info raw_tx c db = (Ok tt, db') →
  ∃ db1, revert snap db = (Ok tt, db1).
Proof.
  intros Hrun. unfold handle_failed_transaction in Hrun. cbv zeta in Hrun.
  apply st_bind_Ok in Hrun as (l & db0 & Hg & Hrun). injection Hg as <- <-.
  apply st_bind_Ok in Hrun as ([] & db1 & Hrev & _). apply st_map_err_Ok in Hrev. by exists db1.
Qed.

Lemma handle_failed_effect snap info raw_tx c db db1 rs logs db' :
  revert snap db = (Ok tt, db1) → db_rel_logs logs db1 rs →
  handle_failed_transaction g snap (nonce_at rs (tx_from_id raw_tx)) info raw_tx c db = (Ok tt, db') →
  ∃ payer ty typed fee system rs',
    get_registry_address_by_script_hash ETH_REGISTRY_ACCOUNT_ID (script_hash_at rs (tx_from_id raw_tx)) rs
      = (Ok (Some payer), rs) ∧
    TypedRawTransaction_from_tx raw_tx ty = Some typed ∧ failure_fee raw_tx typed fee system ∧
    charge_failure payer
      (default default_address (RegistryAddress_from_slice (bi_block_producer info)))
      (tx_from_id raw_tx) fee rs rs' ∧
    db_rel_logs (logs ++ system) db' rs'.
Proof.
  intros Hrev HR Hrun. unfold handle_failed_transaction in Hrun. cbv zeta in Hrun.
  apply st_bind_Ok in Hrun as (l & db0 & Hg & Hrun). injection Hg as <- <-.
  rewrite (st_bind_run _ _ _ tt db1) in Hrun by (by apply st_map_err_Ok).
  ref_step Hrun HR. rewrite get_script_hash_run in Hop. injection Hop as <- <-.
  ref_step Hrun HR. pose proof Hop as Hreg. rewrite get_registry_address_run in Hop.
  injection Hop as _ <-. inv_ok.
  rename select (get_tx_type _ _ _ = _) into Hty.
  rename select (failed_tx_fee _ _ _ _ = _) into Hfee.
  eapply get_tx_type_Ok in Hty; [|exact HR].
  eapply failed_tx_fee_Ok in Hfee as (system & Hfee & HR1); [|exact Hty]. clear HR Hty.
  unfold node_pay_fee in *. inv_ok.
  rename select (burn_sudt _ _ _ _ = _) into Hburn. rename select (mint_sudt _ _ _ _ = _) into Hmint.
  eapply (db_ran (db_rel_logs _)) in Hburn as (rs1 & Eb & HR2);
    [|eauto with gw typeclass_instances|exact HR1].
  eapply (db_ran (db_rel_logs _)) in Hmint as (rs2 & Em & HR3);
    [|eauto with gw typeclass_instances|exact HR2].
  rename select (get_raw _ _ = _) into Hget. rename select (update_raw _ _ _ = _) into Hput.
  eapply (db_ran (db_rel_logs _)) in Hget as (rs3 & Eg & HR4);
    [|eauto with gw typeclass_instances|exact HR3].
  injection Eg as <- <-.
  eapply (db_ran (db_rel_logs _)) in Hput as (rs4 & Ep & HR5);
    [|eauto with gw typeclass_instances|exact HR4].
  injection Ep as <-. rename select (set_nonce _ _ _ = _) into Hn.
  eapply (db_ran (db_rel_logs _)) in Hn as (rs' & En & HR6);
    [|eauto with gw typeclass_instances|exact HR5].
  autorewrite with gw_arith in *. destruct_and!. subst.
  eexists _, _, _, _, system, rs'. repeat (split; [done|]). split; [|done].
  exists rs1, rs2. by repeat (split; [done|]).
Qed.
End Failure.

Section Execute.
Context {Mac S : Type} `{MachineLaws Mac} `{StateView S, MapIter}.
Context `{Blake2b, Molecule, ContractArgs, SubstrateBn, ChainView, SyscallCodec, SmtRoot}.
Context (g : Generator).
Implicit Types (db : StateDB S) (rs : RefState).

Lemma run_or_revert_Ok snap (m : ST (StateDB S * option CyclesPool) TransactionError.t RunContext) s c s' :
  run_or_revert snap m s = (Ok c, s') → m s = (Ok c, s').
Proof. unfold run_or_revert. intros. by repeat case_match; simplify_eq. Qed.
Lemma run_or_revert_Err snap (m : ST (StateDB S * option CyclesPool) TransactionError.t RunContext) s e s' :
  run_or_revert snap m s = (Err e, s') →
  ∃ err db1, m s = (Err err, (db1, s'.2)) ∧ e = AnyTx err ∧ revert snap db1 = (Ok tt, s'.1).
Proof.
  unfold run_or_revert. intros Hrun. repeat case_match; simplify_eq. cbn in *.
  eexists _, _. split; [done|]. split; [done|]. by destruct a.
Qed.

(** A finished failed transaction: what was charged, and the result. *)
Lemma finish_failed snap nonce info raw_tx c db result db' :
  finish_transaction g snap nonce info raw_tx c db = (Ok result, db') →
  rr_exit_code result ≠ 0 →
  ∃ db1, handle_failed_transaction g snap nonce info raw_tx c db = (Ok tt, db1) ∧
    db_state db' = db_state db1 ∧ db_dirty db' = db_dirty db1 ∧ rr_logs result = appended_logs db1.
Proof.
  intros Hrun Hcode. unfold finish_transaction in Hrun.
  apply st_bind_Ok in Hrun as ([] & db1 & Hh & Hrun).
  apply st_bind_Ok in Hrun as (t & db2 & Ht & Hrun). cbn in Ht. injection Ht as Ht <-. inv_ok.
  rename select (gets _ _ = _) into Hg. injection Hg as <- <-. exists db1.
  unfold is_success in Hh. rewrite (proj2 (Z.eqb_neq _ _)) in Hh by exact Hcode. done.
Qed.

(** Errors that come out of the run itself, after which the transaction is
    rolled back. *)
Definition aborts (e : TransactionError.t) : bool :=
  match e with
  | TransactionError.VM _ | TransactionError.ExceededMaxBlockCycles _ _
  | TransactionError.InsufficientPoolCycles _ _ | TransactionError.Utf8Error => true
  | _ => false
  end.

Definition not_abort (e : AnyError) : Prop :=
  match e with AnyTx e => aborts e = false | AnyOther _ => True end.

Lemma finish_never_aborts snap nonce info raw_tx c :
  errs not_abort (finish_transaction (St:=StateDB S) g snap nonce info raw_tx c).
Proof.
  unfold finish_transaction, handle_failed_transaction, get_tx_type, failed_tx_fee,
    failed_polyjuice_fee, take_tracker. solve_errs.
  all: intros s e s' Hs.
  - by injection Hs as <- <-.
  - unfold lift, read_polyjuice_gas_used in Hs. repeat case_match; congruence.
  - cbn in Hs. by destruct (state_tracker s).
  - unfold lift, check_data_limits, reject_if in Hs. by repeat case_match; simplify_eq.
Qed.

Local Ltac call_step a db' E :=
  match goal with
  | |- context [(on_st (st_map_err _ ?m) ≫= ?f) (?st, ?p)] =>
      let o := fresh "o" in let Ho := fresh "Ho" in
      destruct (on_st_call m f st p) as [(a & db' & E & ->)|(o & db' & -> & Ho)];
        [|left; exists o, db'; by destruct o as [|[]|]]
  end.

(** A transaction up to its run: an early error, or the run from a snapshot. *)
Lemma execute_cases info raw_tx max db pool rs :
  db_wf own_script own_data db → db_rel db rs →
  (∃ o db', execute_transaction (Mac:=Mac) g info raw_tx max (db, pool) = (o, (db', pool)) ∧
     match o with Ok _ => False | Err (AnyTx e) => aborts e = false | _ => True end) ∨
  ∃ base db1 backend consensus,
    db_rel base rs ∧ appended_logs base = appended_logs db ∧ since own_script own_data base db1 ∧
    execute_transaction (Mac:=Mac) g info raw_tx max (db, pool) =
      (c ← run_or_revert (next_revision_id base)
             (machine_run (Mac:=Mac) g info consensus raw_tx
                (default (max_l2_tx_cycles (fork_config (g_rollup_context g)) (bi_number info)) max)
                backend);
       on_st (finish_transaction g (next_revision_id base) (nonce_at rs (tx_from_id raw_tx)) info
                raw_tx c)) (db1, pool).
Proof.
  intros Hwf HR. unfold execute_transaction. cbv zeta.
  call_step sh db1 Esh. erewrite (st_bind_run (on_st (gets _))) by reflexivity. cbv beta.
  destruct (load_backend_and_block_consensus _ _ _ _) as [[backend consensus]|];
    [|left; by eexists _, db1].
  erewrite st_lift_run by reflexivity. cbv beta iota.
  call_step snap db2 Esnap. call_step nonce db3 Enonce.
  destruct (execute_prefix _ _ _ _ _ _ _ _ _ Hwf HR Esh Esnap Enonce)
    as (-> & HR1 & -> & Hs).
  right. exists db1, (set_state_tracker no_tracker db3), backend, consensus.
  split; [done|]. split; [|by split].
  apply st_map_err_Ok in Esh. unfold get_script_hash in Esh.
  apply get_raw_same in Esh as (_&_&_&_&_&E); [|apply Hwf]. unfold appended_logs. by rewrite E.
Qed.
End Execute.

(** C28. A transaction whose backend exits with an error changes nothing but its
    price: whatever the run wrote, created, logged, snapshotted or reverted, the
    state ends as it was before, with the fee moved from the sender's registered
    address to the block producer, the CKB total supply raised by the fee and the
    sender's nonce raised by one; the logs are the earlier ones, plus the system
    log of a failed polyjuice transaction. *)
Theorem failed_transaction_effect {Mac S : Type} `{MachineLaws Mac, StateView S, MapIter}
    `{Blake2b, Molecule, ContractArgs, SubstrateBn, ChainView, SyscallCodec, SmtRoot}
    (g : Generator) (info : BlockInfo)
    (raw_tx : RawL2Transaction) (max : option Z) (db db' : StateDB S) (rs : RefState)
    (pool pool' : option CyclesPool) (result : RunResult) :
  db_wf own_script own_data db → db_rel db rs →
  execute_transaction (Mac:=Mac) g info raw_tx max (db, pool) = (Ok result, (db', pool')) →
  rr_exit_code result ≠ 0 →
  ∃ payer ty typed fee system rs',
    get_registry_address_by_script_hash ETH_REGISTRY_ACCOUNT_ID
      (script_hash_at rs (tx_from_id raw_tx)) rs = (Ok (Some payer), rs) ∧
    TypedRawTransaction_from_tx raw_tx ty = Some typed ∧ failure_fee raw_tx typed fee system ∧
    charge_failure payer
      (default default_address (RegistryAddress_from_slice (bi_block_producer info)))
      (tx_from_id raw_tx) fee rs rs' ∧
    db_rel db' rs' ∧ rr_logs result = appended_logs db ++ system.
Proof.
  intros Hwf HR Hrun Hcode.
  destruct (execute_cases (Mac:=Mac) g info raw_tx max db pool rs Hwf HR)
    as [(o & db1 & E & Ho)|(base & db1 & backend & consensus & HRb & Hl & Hs & E)];
    rewrite E in Hrun; clear E; [by simplify_eq|].
  apply st_bind_Ok in Hrun as (c & [db2 pool2] & Hc & Hrun). apply run_or_revert_Ok in Hc.
  apply machine_run_journaled in Hc as Hj.
  apply on_st_Ok in Hrun as [Hrun _].
  apply finish_failed in Hrun as (db3 & Hh & E1 & E2 & ->); [|done].
  destruct (handle_failed_reverts _ _ _ _ _ _ _ _ Hh) as [db4 Hrev].
  destruct (rolled_back _ _ _ _ Hs Hj Hrev) as [Es Ed].
  assert (HR4 : db_rel_logs (appended_logs db) db4 rs).
  { split; [by eapply db_rel_equiv|]. by rewrite (logs_equiv _ _ Ed). }
  destruct (handle_failed_effect g _ _ _ _ _ _ _ _ _ Hrev HR4 Hh)
    as (payer & ty & typed & fee & system & rs' & ? & ? & ? & ? & [HR' Hlogs]).
  exists payer, ty, typed, fee, system, rs'. repeat (split; [done|]).
  split; [by eapply db_rel_same|done].
Qed.

(** A transaction that the machine could not finish leaves no trace: after a
    machine error, an exhausted cycles pool or an unprintable log, the state is
    the one before the transaction, logs included. *)
Theorem aborted_transaction_untouched {Mac S : Type} `{MachineLaws Mac, StateView S, MapIter}
    `{Blake2b, Molecule, ContractArgs, SubstrateBn, ChainView, SyscallCodec, SmtRoot}
    (g : Generator) (info : BlockInfo)
    (raw_tx : RawL2Transaction) (max : option Z) (db db' : StateDB S) (rs : RefState)
    (pool pool' : option CyclesPool) (e : TransactionError.t) :
  db_wf own_script own_data db → db_rel db rs →
  execute_transaction (Mac:=Mac) g info raw_tx max (db, pool) = (Err (AnyTx e), (db', pool')) →
  aborts e = true →
  db_rel db' rs ∧ appended_logs db' = appended_logs db.
Proof.
  intros Hwf HR Hrun He.
  destruct (execute_cases (Mac:=Mac) g info raw_tx max db pool rs Hwf HR)
    as [(o & db1 & E & Ho)|(base & db1 & backend & consensus & HRb & Hl & Hs & E)];
    rewrite E in Hrun; clear E; [simplify_eq; congruence|].
  apply st_bind_Err in Hrun as [Hrun|(c & [db2 pool2] & _ & Hrun)].
  - apply run_or_revert_Err in Hrun as (err & db2 & Hm & [= <-] & Hrev). cbn in Hm, Hrev.
    apply machine_run_journaled in Hm as Hj.
    destruct (rolled_back _ _ _ _ Hs Hj Hrev) as [Es Ed].
    split; [by eapply db_rel_equiv|]. by rewrite (logs_equiv _ _ Ed).
  - exfalso. unfold on_st in Hrun. destruct (finish_transaction _ _ _ _ _ _ _) as [r db3] eqn:Hf.
    simplify_eq. apply (finish_never_aborts g) in Hf. cbn in Hf. congruence.
Qed.

(** The fee of a failed transaction is counted twice in the CKB total
    supply: from a state whose supply is the sum of the balances, charging the
    failure leaves the sum of the balances unchanged but the recorded supply
    higher by the fee, so the books no longer balance. *)
Theorem failed_fee_inflates_supply `{Blake2b, SmtRoot} (holders : list RegistryAddress)
    (payer producer : RegistryAddress) (sender fee : Z) (rs rs' : RefState) :
  holders_ok CKB_SUDT_ACCOUNT_ID holders → payer ∈ holders → producer ∈ holders →
  0 ≤ fee → sudt_backed CKB_SUDT_ACCOUNT_ID holders rs →
  charge_failure payer producer sender fee rs rs' →
  sum_over (balance rs' CKB_SUDT_ACCOUNT_ID) holders
    = sum_over (balance rs CKB_SUDT_ACCOUNT_ID) holders ∧
  supply rs' CKB_SUDT_ACCOUNT_ID
    = sum_over (balance rs' CKB_SUDT_ACCOUNT_ID) holders + fee.
Proof.
  unfold charge_failure. generalize CKB_SUDT_ACCOUNT_ID as ckb. intros ckb.
  intros Hok Hp Hq Hfee Hb (rs1 & rs2 & Eb & Em & Hlt & En).
  pose proof Eb as Hb1. eapply burn_sudt_backed in Hb1; [|done..].
  pose proof Em as Hb2. eapply mint_sudt_backed in Hb2; [|done..].
  pose proof Hok as (Hid & _ & _ & Hh).
  destruct (holders_elim _ _ _ Hok Hp) as (Hwp & _ & Hhp).
  destruct (holders_elim _ _ _ Hok Hq) as (Hwq & _ & Hhq).
  assert (Hsup : supply rs2 ckb = supply rs ckb).
  { rewrite burn_sudt_backed_run with (holders := holders) in Eb by done.
    rewrite mint_sudt_run in Em by done.
    pose proof (backed_balance_le _ _ _ _ Hb Hp). pose proof (balance_range rs ckb payer) as [].
    pose proof (supply_range rs ckb) as []. pose proof (supply_range rs1 ckb) as [].
    destruct (Z.leb_spec fee (balance rs ckb payer)); [|done].
    destruct (Z.ltb_spec (balance rs1 ckb producer + fee) (2 ^ 256)); [|done].
    destruct (Z.ltb_spec (supply rs1 ckb + fee) (2 ^ 256)); [|done].
    injection Em as <-. injection Eb as E.
    rewrite supply_set_supply by (unfold in_width; lia). rewrite <- E.
    rewrite supply_set_supply by (unfold in_width; lia). lia. }
  assert (Hbal : ∀ x, x ∈ holders →
    balance rs' ckb x = balance rs2 ckb x).
  { intros x Hx. injection En as <-. unfold balance at 1.
    rewrite kv_get_put_ne by (apply Hh; [right; by apply (list_elem_of_fmap_2 (account_key_preimage _ ∘ _))|left]).
    apply balance_set_supply. exact (balance_key_ne_supply _ holders _ Hid Hh Hx). }
  rewrite (sum_over_ext _ _ _ Hbal). unfold sudt_backed in *. split; [congruence|].
  injection En as <-. unfold supply at 1. rewrite kv_get_put_ne by (apply Hh; left).
  change (supply (set_supply ckb
    (supply rs2 ckb + fee) rs2) ckb = sum_over (balance rs2 ckb) holders + fee).
  pose proof (supply_range rs2 ckb) as [].
  rewrite supply_set_supply by (unfold in_width; lia). congruence.
Qed.

(** ** The challenge a bad block gets *)
Section Challenge.
Context {Mac St : Type} `{Machine Mac, StateOps St, CodeOps St, JournalOps St}.
Context `{Blake2b, Molecule, ContractArgs, SubstrateBn, ChainView, SyscallCodec, MapIter}.
Context (g : Generator) (block : L2Block).
Local Abbreviation raw_block := (block_raw block).

(** The header counts its transactions and withdrawals. *)
Definition counts_ok : Prop :=
  tx_count (submit_transactions raw_block) = Z.of_nat (length (block_transactions block)) ∧
  withdrawal_count (submit_withdrawals raw_block) = Z.of_nat (length (block_withdrawals block)) ∧
  tx_count (submit_transactions raw_block) < 2 ^ 32 ∧
  withdrawal_count (submit_withdrawals raw_block) < 2 ^ 32.

(** A target that [verify_enter_challenge] accepts for this block. *)
Definition target_ok (target : ChallengeTarget) : Prop :=
  ct_block_hash target = raw_block_hash raw_block ∧ check_target_index target raw_block = Ok tt.
Definition stop_ok (e : ApplyStop) : Prop :=
  match e with StopChallenge target _ => target_ok target | StopError _ => True end.

Context (Hcounts : counts_ok).

Lemma withdrawal_target_ok (i : nat) :
  (i < length (block_withdrawals block))%nat →
  target_ok (build_challenge_target (raw_block_hash raw_block) TargetWithdrawal
               (Z.of_nat i mod 2 ^ 32)).
Proof.
  destruct Hcounts as (_ & Ew & _ & Hw). intros Hi. split; [done|]. unfold check_target_index. cbn.
  apply reject_if_Ok, Z.leb_gt. rewrite Z.mod_small; lia.
Qed.
Lemma tx_target_ok (i : nat) ty :
  (i < length (block_transactions block))%nat → ty = TxSignature ∨ ty = TxExecution →
  target_ok (build_challenge_target (raw_block_hash raw_block) ty (Z.of_nat i mod 2 ^ 32)).
Proof.
  destruct Hcounts as (Et & _ & Ht & _). intros Hi Hty. split; [done|].
  assert (Hlt : Z.of_nat i mod 2 ^ 32 < tx_count (submit_transactions raw_block))
    by (rewrite Z.mod_small; lia).
  unfold check_target_index. destruct Hty as [-> | ->]; cbn; by apply reject_if_Ok, Z.leb_gt.
Qed.

Lemma errs_st_expect {E A} (P : E → Prop) (m : ST St StateError.t A) : errs P (st_expect m).
Proof. intros s e s'. unfold st_expect. by destruct (m s) as [[]]. Qed.
Lemma errs_check_account_state account : errs stop_ok (check_account_state (St:=St) account).
Proof.
  unfold check_account_state. repeat (apply errs_bind; intros);
    auto using errs_st_expect, errs_assert.
Qed.

Lemma withdrawals_targets_ok producer (i : nat) (ws : list WithdrawalRequestExtra) :
  (i + length ws ≤ length (block_withdrawals block))%nat →
  errs stop_ok (apply_withdrawals_from (St:=St) g (raw_block_hash raw_block) raw_block producer i ws).
Proof.
  revert i. induction ws as [|w ws IH]; intros i Hi; cbn [apply_withdrawals_from] in *;
    [apply errs_ret|]. cbn [length] in Hi.
  apply errs_bind; [apply errs_map_err; intros e; apply withdrawal_target_ok; lia|intros _].
  apply errs_bind; [apply errs_map_err; done|intros receipt].
  apply errs_bind.
  { apply errs_if; [|apply errs_ret]. apply errs_bind; [apply errs_st_expect|intros]. solve_errs. }
  intros _. apply errs_bind; [|intros; apply errs_ret]. apply (IH (S i)). lia.
Qed.

Lemma tx_targets_ok skip wc max (i : nat) tx :
  (i < length (block_transactions block))%nat →
  errs stop_ok (apply_tx (Mac:=Mac) (St:=St) g (raw_block_hash raw_block) raw_block skip wc max i tx).
Proof.
  intros Hi. unfold apply_tx. cbv zeta.
  apply errs_bind; [apply errs_map_err; intros; apply tx_target_ok; auto|intros _].
  apply errs_bind; [apply errs_map_err; done|intros nonce].
  apply errs_bind; [apply errs_reject; apply tx_target_ok; auto|intros _].
  apply errs_bind.
  { apply errs_map_err. intros [e|e]; [apply tx_target_ok; auto|done]. }
  intros result. apply errs_bind; [apply errs_map_err; done|intros _].
  apply errs_bind.
  { apply errs_if; [|apply errs_ret]. apply errs_bind; [apply errs_st_expect|intros].
    apply errs_bind; [apply errs_ok_or; done|intros]. apply errs_reject, tx_target_ok; auto. }
  intros _. apply errs_bind; [apply errs_map_err; done|intros]. apply errs_ret.
Qed.

Lemma txs_targets_ok skip wc max (i : nat) txs used :
  (i + length txs ≤ length (block_transactions block))%nat →
  errs stop_ok (apply_txs_from (Mac:=Mac) (St:=St) g (raw_block_hash raw_block) raw_block skip wc max
                  i txs used).
Proof.
  revert i used. induction txs as [|tx txs IH]; intros i used Hi; cbn [apply_txs_from] in *;
    [apply errs_ret|]. cbn [length] in Hi.
  apply errs_bind; [apply tx_targets_ok; lia|intros [receipt cycles]].
  apply errs_bind; [apply (IH (S i)); lia|intros [receipts total]]. apply errs_ret.
Qed.

Lemma block_targets_ok args skipped :
  aa_l2block args = block → errs stop_ok (apply_block (Mac:=Mac) (St:=St) g args skipped).
Proof.
  intros Eb. unfold apply_block. rewrite Eb. cbv zeta.
  intros st e st' Hrun. apply st_bind_Err in Hrun as [Hrun|([] & st1 & Hlen & Hrun)].
  { by apply (errs_assert stop_ok) in Hrun. }
  apply lift_Ok in Hlen as [Hlen <-]. apply assert_that_Ok, Nat.eqb_eq in Hlen.
  revert Hrun. match goal with |- ?m st = _ → _ => enough (Herr : errs stop_ok m) by apply Herr end.
  apply errs_bind; [apply errs_if; [apply errs_check_account_state|apply errs_ret]|intros _].
  apply errs_bind; [apply errs_ok_or; done|intros producer].
  apply errs_bind; [apply withdrawals_targets_ok; lia|intros receipts].
  apply errs_bind; [apply errs_for; intros; apply errs_map_err; done|intros _].
  do 2 (apply errs_bind; [apply errs_map_err; done|intros ?]).
  apply errs_bind; [apply txs_targets_ok; lia|intros [txs used]].
  apply errs_bind; [apply errs_if; [apply errs_check_account_state|apply errs_ret]|intros _].
  apply errs_ret.
Qed.
End Challenge.

(** C26. When the node finds a block invalid it knows what to challenge: the target it
    returns carries the block's hash and the index of one of the block's own transactions or
    withdrawals, so the rollup script's check of the target on entering the challenge
    accepts it.  The header of the block counts its transactions and withdrawals
    correctly ([counts_ok], which the rollup script enforces). *)
Theorem challenge_target_accepted {Mac St : Type} `{Machine Mac, StateOps St, CodeOps St, JournalOps St}
    `{Blake2b, Molecule, ContractArgs, SubstrateBn, ChainView, SyscallCodec, MapIter}
    (g : Generator) (args : ApplyBlockArgs) (skipped : list H256) (st st' : St)
    (target : ChallengeTarget) (error : GenError.t) :
  counts_ok (aa_l2block args) →
  verify_and_apply_block (Mac:=Mac) g args skipped st = (Ok (ApplyChallenge target error), st') →
  ct_block_hash target = raw_block_hash (block_raw (aa_l2block args)) ∧
  check_target_index target (block_raw (aa_l2block args)) = Ok tt.
Proof.
  intros Hc Hrun. unfold verify_and_apply_block in Hrun.
  destruct (apply_block g args skipped st) as [[r|e|] st1] eqn:E; [done| |done].
  apply (block_targets_ok g _ Hc) in E; [|done]. by destruct e; simplify_eq.
Qed.

(** ** What a successful block says *)

(** Reading the root or the account count borrows the state immutably. *)
Class ReadOnlyRoot (St : Type) `{StateOps St} : Prop := {
  root_read_only (s : St) : (calculate_root s).2 = s;
  count_read_only (s : St) : (get_account_count s).2 = s;
}.
#[export] Instance StateDB_read_only {S} `{ReadOnlyRoot S, CodeOps S, MapIter} :
  ReadOnlyRoot (StateDB S).
Proof.
  split; intros db; cbn.
  - unfold db_calculate_root, inner. case_match; [done|]. pose proof (root_read_only (db_state db)).
    destruct (calculate_root (db_state db)). cbn in *. subst. by destruct db.
  - unfold db_get_account_count, inner. case_match; [done|].
    pose proof (count_read_only (db_state db)).
    destruct (get_account_count (db_state db)). cbn in *. subst. by destruct db.
Qed.

Section Success.
Context {Mac St : Type} `{Machine Mac} `{ReadOnlyRoot St, CodeOps St, JournalOps St}.
Context `{Blake2b, Molecule, ContractArgs, SubstrateBn, ChainView, SyscallCodec, MapIter}.
Context (g : Generator) (raw_block : RawL2Block).
Implicit Types st : St.

(** The account root and count of a state. *)
Definition has_account (account : AccountMerkleState) st : Prop :=
  calculate_root st = (Ok (am_merkle_root account), st) ∧
  get_account_count st = (Ok (am_count account), st).

Definition checkpoint_of (account : AccountMerkleState) : H256 :=
  calculate_state_checkpoint_of (am_merkle_root account) (am_count account).

Lemma root_run st r st' : calculate_root st = (r, st') → st' = st.
Proof. intros E. pose proof (root_read_only st) as Hr. by rewrite E in Hr. Qed.
Lemma count_run st r st' : get_account_count st = (r, st') → st' = st.
Proof. intros E. pose proof (count_read_only st) as Hr. by rewrite E in Hr. Qed.

Lemma st_expect_Ok {E A} (m : ST St StateError.t A) st a st' :
  st_expect (E:=E) m st = (Ok a, st') ↔ m st = (Ok a, st').
Proof. unfold st_expect. destruct (m st) as [[]]; naive_solver. Qed.

Lemma check_account_state_Ok account st st' :
  check_account_state account st = (Ok tt, st') → has_account account st ∧ st' = st.
Proof.
  intros Hrun. unfold check_account_state in Hrun.
  apply st_bind_Ok in Hrun as (root & st1 & Hr & Hrun). apply st_expect_Ok in Hr.
  pose proof (root_run _ _ _ Hr) as ->. inv_ok. bool_inv. subst.
  rename select (st_expect _ _ = _) into Hc. apply st_expect_Ok in Hc.
  pose proof (count_run _ _ _ Hc) as ->. done.
Qed.

Lemma calculate_merkle_state_Ok account st st' :
  calculate_merkle_state st = (Ok account, st') → has_account account st ∧ st' = st.
Proof.
  intros Hrun. unfold calculate_merkle_state in Hrun. inv_ok.
  rename select (calculate_root _ = _) into Hr. rename select (get_account_count _ = _) into Hc.
  pose proof (root_run _ _ _ Hr) as ->. pose proof (count_run _ _ _ Hc) as ->. done.
Qed.

Lemma calculate_state_checkpoint_Ok account st c st' :
  has_account account st → calculate_state_checkpoint st = (Ok c, st') →
  c = checkpoint_of account ∧ st' = st.
Proof.
  intros [Hr Hc] Hrun. unfold calculate_state_checkpoint in Hrun.
  rewrite (st_bind_run _ _ _ _ _ Hr), (st_bind_run _ _ _ _ _ Hc) in Hrun. inv_ok. by subst.
Qed.

Lemma apply_withdrawal_receipt producer request st r st' :
  apply_withdrawal_request (g_rollup_context g) producer request st = (Ok r, st') →
  has_account (wr_post_state r) st'.
Proof.
  intros Hrun. unfold apply_withdrawal_request in Hrun. cbv zeta in Hrun. inv_ok.
  rename select (calculate_root _ = _) into Hr. rename select (get_account_count _ = _) into Hc.
  pose proof (root_run _ _ _ Hr) as ->. pose proof (count_run _ _ _ Hc) as ->. done.
Qed.

Local Abbreviation enforced := (fork_enforce_state_checkpoint_list (fork_config (g_rollup_context g))
                                  (number raw_block)).

Lemma withdrawal_receipts_checkpoints hash producer i ws st rs st' :
  apply_withdrawals_from g hash raw_block producer i ws st = (Ok rs, st') →
  length rs = length ws ∧
  (enforced = true → ∀ j r, rs !! j = Some r →
     state_checkpoint_list raw_block !! (i + j)%nat = Some (checkpoint_of (wr_post_state r))).
Proof.
  revert i st rs. induction ws as [|w ws IH]; intros i st rs Hrun; cbn [apply_withdrawals_from] in Hrun.
  { inv_ok. by subst. }
  inv_ok. rename select (apply_withdrawal_request _ _ _ _ = _) into Hw.
  apply apply_withdrawal_receipt in Hw.
  rename select (apply_withdrawals_from _ _ _ _ _ _ _ = _) into Hrest.
  apply IH in Hrest as [Hlen Hcp]. split; [cbn; congruence|].
  intros He [|j] r Hj; cbn in Hj; [|rewrite Nat.add_succ_r; by apply (Hcp He j)].
  injection Hj as <-. rewrite Nat.add_0_r. rewrite He in *. inv_ok. bool_inv. subst.
  rename select (st_expect _ _ = _) into Hs. apply st_expect_Ok in Hs.
  eapply calculate_state_checkpoint_Ok in Hs as [Ec _]; [by rewrite <- Ec|exact Hw].
Qed.

Lemma apply_tx_receipt hash skip (wc : nat) max i tx st r used st' :
  apply_tx (Mac:=Mac) g hash raw_block skip (Z.of_nat wc) max i tx st = (Ok (r, used), st') →
  tr_tx_witness_hash r = tx_witness_hash tx ∧
  (skip = false → enforced = true →
     state_checkpoint_list raw_block !! (wc + i)%nat = Some (checkpoint_of (tr_post_state r))).
Proof.
  intros Hrun. unfold apply_tx in Hrun. cbv zeta in Hrun. inv_ok.
  rename select (calculate_merkle_state _ = _) into Hm.
  apply calculate_merkle_state_Ok in Hm as [Ha ->].
  rename select ((_, _) = (_, _)) into Er. injection Er as <- _. split; [done|].
  intros -> He. rewrite He in *. cbn [negb andb] in *. inv_ok. bool_inv. subst.
  rename select (st_expect _ _ = _) into Hs. apply st_expect_Ok in Hs. rewrite Nat2Z.id in *.
  assert (Est := Hs). unfold calculate_state_checkpoint in Est. inv_ok.
  rename select (calculate_root _ = _) into Hr. rename select (get_account_count _ = _) into Hc.
  apply root_run in Hr as ->. apply count_run in Hc as ->.
  eapply calculate_state_checkpoint_Ok in Hs as [Ec _]; [by rewrite <- Ec|exact Ha].
Qed.

Lemma tx_receipts_checkpoints hash skip (wc : nat) max i txs used st rs total st' :
  apply_txs_from (Mac:=Mac) g hash raw_block skip (Z.of_nat wc) max i txs used st
    = (Ok (rs, total), st') →
  tr_tx_witness_hash <$> rs = tx_witness_hash <$> txs ∧
  (skip = false → enforced = true → ∀ j r, rs !! j = Some r →
     state_checkpoint_list raw_block !! (wc + (i + j))%nat = Some (checkpoint_of (tr_post_state r))).
Proof.
  revert i used st rs total. induction txs as [|tx txs IH]; intros i used st rs total Hrun;
    cbn [apply_txs_from] in Hrun.
  { inv_ok. by simplify_eq. }
  apply st_bind_Ok in Hrun as ([r c] & st1 & Htx & Hrun).
  apply st_bind_Ok in Hrun as ([rest cs] & st2 & Hrest & Hrun). inv_ok. simplify_eq.
  apply apply_tx_receipt in Htx as [Hw Hcp]. apply IH in Hrest as [Hws Hcps].
  split; [cbn; congruence|].
  intros Hsk He [|j] r' Hj; cbn in Hj; [|rewrite Nat.add_succ_r; by apply (Hcps Hsk He j)].
  injection Hj as <-. rewrite Nat.add_0_r. auto.
Qed.
End Success.

(** C27. A block the node applies, unless it is on the list of invalid blocks to skip,
    is a block whose header tells the truth: the
    state it starts from has the root and account count of [prev_account], the one it
    ends in those of [post_account], there is one receipt per withdrawal and per
    transaction, in order and under the transaction's witness hash, and once
    checkpoints are enforced the state after each withdrawal and then after each
    transaction has exactly the checkpoint the header lists for it. *)
Theorem applied_block_matches_header {Mac St : Type} `{Machine Mac, ReadOnlyRoot St, CodeOps St, JournalOps St}
    `{Blake2b, Molecule, ContractArgs, SubstrateBn, ChainView, SyscallCodec, MapIter}
    (g : Generator) (args : ApplyBlockArgs) (skipped : list H256) (st st' : St) (r : BlockSuccess) :
  let block := aa_l2block args in
  let raw_block := block_raw block in
  let states := (wr_post_state <$> bs_withdrawal_receipts r) ++ (tr_post_state <$> bs_tx_receipts r) in
  raw_block_hash raw_block ∉ skipped →
  verify_and_apply_block (Mac:=Mac) g args skipped st = (Ok (ApplySuccess r), st') →
  has_account (prev_account raw_block) st ∧ has_account (post_account raw_block) st' ∧
  length (bs_withdrawal_receipts r) = length (block_withdrawals block) ∧
  tr_tx_witness_hash <$> bs_tx_receipts r = tx_witness_hash <$> block_transactions block ∧
  (fork_enforce_state_checkpoint_list (fork_config (g_rollup_context g)) (number raw_block) = true →
   ∀ i s, states !! i = Some s → state_checkpoint_list raw_block !! i = Some (checkpoint_of s)).
Proof.
  intros block raw_block states Hskip Hrun. unfold verify_and_apply_block in Hrun.
  destruct (apply_block g args skipped st) as [[r'|[]|] st1] eqn:E; [|done..].
  injection Hrun as -> ->. unfold apply_block in E. fold block raw_block in E. cbv zeta in E.
  rewrite bool_decide_false in E by done. cbn [negb] in E. inv_ok. bool_inv.
  rename select (check_account_state (prev_account _) _ = _) into Hpre.
  apply check_account_state_Ok in Hpre as [Hpre ->].
  rename select (apply_withdrawals_from _ _ _ _ _ _ _ = _) into Hw.
  apply withdrawal_receipts_checkpoints in Hw as [Hlen Hwc].
  match goal with Hx : apply_txs_from _ _ _ _ _ _ _ _ _ _ = (Ok ?p, _) |- _ =>
    rename Hx into Ht; destruct p as [txs used] end.
  apply tx_receipts_checkpoints in Ht as [Hwit Htc]. inv_ok.
  rename select (check_account_state _ _ = _) into Hpost.
  apply check_account_state_Ok in Hpost as [Hpost ->]. cbn in *.
  split; [done|]. split; [done|]. split; [congruence|]. split; [done|].
  intros He i s [Hs|[Hge Hs]]%lookup_app_Some; rewrite list_lookup_fmap in Hs;
    apply fmap_Some in Hs as (x' & Hx & ->); [by apply (Hwc He i)|].
  rewrite length_fmap in *. pose proof (Htc eq_refl He _ _ Hx) as Hcp.
  by rewrite Nat.add_sub_assoc, Nat.add_comm, Nat.add_sub in Hcp by lia.
Qed.
