(* ===== verification/BlockEffect.v ===== *)
(** * What applying a block can do to the state

    A predicate on the state that the single operations of the state traits keep
    (writes of words only: 32-byte keys and values) is kept by everything the
    generator runs: system calls, transactions, deposits, withdrawals and whole
    blocks, whatever they return. *)
From Stdlib Require Import ZArith Lia Strings.Byte.
From stdpp Require Import prelude list gmap.
From S2P Require Import Prelude Bytes Types State StateSpec StateDB Finality Ckb.
From S2P Require Import NodeUtils NodeState AccountLocks Backends Syscalls Generator.
Local Open Scope Z_scope.

(** ** Keeping a predicate *)
Section Kept.
Context {St : Type} (P : St → Prop).

Definition kept {E A} (m : ST St E A) : Prop := ∀ s, P s → P (m s).2.

Lemma kept_bind {E A B} (m : ST St E A) (f : A → ST St E B) :
  kept m → (∀ a, kept (f a)) → kept (m ≫= f).
Proof.
  intros Hm Hf s Hs. unfold mbind, ST_bind. specialize (Hm s Hs).
  destruct (m s) as [[a|e|] s1]; cbn in *; [by apply Hf|done..].
Qed.
(** With what the first step is known to return. *)
Lemma kept_bind_of {E A B} (Q : A → Prop) (m : ST St E A) (f : A → ST St E B) :
  kept m → (∀ s a s', m s = (Ok a, s') → Q a) → (∀ a, Q a → kept (f a)) → kept (m ≫= f).
Proof.
  intros Hm HQ Hf s Hs. unfold mbind, ST_bind. specialize (Hm s Hs).
  destruct (m s) as [[a|e|] s1] eqn:E1; cbn in *; [|done..]. apply Hf; [by eapply HQ|done].
Qed.
Lemma kept_ret {E A} (a : A) : kept (E:=E) (mret a).
Proof. by intros s. Qed.
Lemma kept_lift {E A} (m : outcome E A) : kept (lift m).
Proof. by intros s. Qed.
Lemma kept_if {E A} (b : bool) (m n : ST St E A) : kept m → kept n → kept (if b then m else n).
Proof. by destruct b. Qed.
Lemma kept_gets {E A} (f : St → A) : kept (E:=E) (gets f).
Proof. by intros s. Qed.
Lemma kept_modify {E} (f : St → St) : (∀ s, P s → P (f s)) → kept (E:=E) (modify f).
Proof. intros Hf s Hs. by apply Hf. Qed.
Lemma kept_map_err {E E' A} (f : E → E') (m : ST St E A) : kept m → kept (st_map_err f m).
Proof. intros Hm s Hs. unfold st_map_err. specialize (Hm s Hs). by destruct (m s) as [[] ?]. Qed.
Lemma kept_expect {E A} (m : ST St StateError.t A) : kept m → kept (E:=E) (st_expect m).
Proof. intros Hm s Hs. unfold st_expect. specialize (Hm s Hs). by destruct (m s) as [[] ?]. Qed.
Lemma kept_for {E A} (l : list A) (f : A → ST St E unit) : (∀ a, kept (f a)) → kept (st_for l f).
Proof. intros Hf. induction l; cbn [st_for]; [apply kept_ret|by apply kept_bind]. Qed.
(** Keeping it only when an error is returned *)
Definition err_kept {E A} (m : ST St E A) : Prop := ∀ s e s', P s → m s = (Err e, s') → P s'.
Lemma err_kept_bind {E A B} (m : ST St E A) (f : A → ST St E B) :
  kept m → (∀ a, err_kept (f a)) → err_kept (m ≫= f).
Proof.
  intros Hm Hf s e s' Hs. unfold mbind, ST_bind. specialize (Hm s Hs).
  destruct (m s) as [[a|e'|] s1]; cbn in *; [by apply Hf|by intros [= <- <-]|done].
Qed.
Lemma kept_on_st {A} (m : ST St AnyError A) :
  kept m → ∀ s, P s.1 → P (on_st m s).2.1.
Proof. intros Hm [s pool] Hs. specialize (Hm s Hs). unfold on_st. by destruct (m s). Qed.
End Kept.

Create HintDb kept.
#[export] Hint Resolve kept_ret kept_lift kept_gets : kept.

(** ** The operations of the traits *)
Section Operations.
Context {Mac St : Type} `{MachineLaws Mac, StateOps St, CodeOps St, JournalOps St}.
Context `{Blake2b, Molecule, ContractArgs, SubstrateBn, ChainView, SyscallCodec, MapIter}.
Context (P : St → Prop).

(** The operations without [finalise], and with it *)
Record ops_kept : Prop := {
  sk_get_raw k : kept P (get_raw k);
  sk_update_raw k v : word k → word v → kept P (update_raw k v);
  sk_get_account_count : kept P get_account_count;
  sk_set_account_count c : kept P (set_account_count c);
  sk_calculate_root : kept P calculate_root;
  sk_insert_script x s : P s → P (insert_script (script_hash x) x s);
  sk_insert_data d s : P s → P (insert_data (blake2b d) d s);
  sk_get_data d s : P s → P (get_data d s).2;
  sk_append_log l s : P s → P (j_append_log l s);
  sk_snapshot : kept P j_snapshot;
  sk_revert i : kept P (j_revert i);
  sk_set_tracker t s : P s → P (j_set_state_tracker t s);
  sk_take_tracker s : P s → P (j_take_state_tracker s).2;
}.
Record state_kept : Prop := {
  sk_ops :> ops_kept;
  sk_finalise : kept P j_finalise;
}.

Context (HP : ops_kept).

Hint Resolve sk_get_raw sk_update_raw sk_get_account_count sk_set_account_count sk_calculate_root
  sk_insert_script sk_insert_data sk_get_data sk_append_log sk_snapshot sk_revert
  sk_set_tracker sk_take_tracker kept_map_err kept_expect kept_modify : kept.

Local Ltac keep :=
  repeat first
    [ solve [eauto with kept words]
    | apply kept_bind; [|intros]
    | apply kept_if
    | apply kept_map_err
    | apply kept_expect
    | progress cbv zeta
    | case_match ].

Lemma kept_get_value id key : kept P (get_value id key).
Proof. unfold get_value. keep. Qed.
Lemma kept_update_value id key v : word v → kept P (update_value id key v).
Proof. intros Hv. unfold update_value. keep. Qed.
Lemma kept_get_script_hash id : kept P (get_script_hash id).
Proof. unfold get_script_hash. keep. Qed.
Lemma kept_get_nonce id : kept P (get_nonce id).
Proof. unfold get_nonce. keep. Qed.
Lemma kept_set_nonce id n : kept P (set_nonce id n).
Proof. unfold set_nonce. keep. Qed.
Lemma kept_get_id sh : kept P (get_account_id_by_script_hash sh).
Proof. unfold get_account_id_by_script_hash. keep. Qed.
Hint Resolve kept_get_value kept_update_value kept_get_script_hash kept_get_nonce kept_set_nonce
  kept_get_id : kept.
Lemma kept_create_account sh : word sh → kept P (create_account sh).
Proof. intros Hsh. unfold create_account. keep. Qed.
Lemma kept_mint id a n : kept P (mint_sudt id a n).
Proof. unfold mint_sudt. keep. Qed.
Lemma kept_burn id a n : kept P (burn_sudt id a n).
Proof. unfold burn_sudt. keep. Qed.
Lemma kept_checkpoint : kept P calculate_state_checkpoint.
Proof. unfold calculate_state_checkpoint. keep. Qed.
Lemma kept_hash_by_address a : kept P (get_script_hash_by_registry_address a).
Proof. unfold get_script_hash_by_registry_address. keep. Qed.
Lemma kept_address_by_hash r sh : kept P (get_registry_address_by_script_hash r sh).
Proof. unfold get_registry_address_by_script_hash. keep. Qed.
Hint Resolve kept_create_account kept_mint kept_burn kept_checkpoint kept_hash_by_address
  kept_address_by_hash : kept.

Lemma address_buffer_length a b :
  unwrap_write (E:=StateError.t) (RegistryAddress_write_to_slice a (zeros 32)) = Ok b →
  length b = 32%nat.
Proof.
  unfold unwrap_write, RegistryAddress_write_to_slice, zeros. rewrite length_replicate.
  destruct (Nat.ltb_spec 32 (RegistryAddress_len a)) as [|Hl]; [done|]. cbn [orb].
  destruct (u32_max <? _); [done|]. intros E.
  apply (f_equal (λ o, match o with Ok b => length b | _ => 0%nat end)) in E. rewrite <- E.
  unfold RegistryAddress_len in *. rewrite !length_app, !le_bytes_length, length_drop, length_replicate. lia.
Qed.
Lemma kept_mapping a sh : word sh → kept P (mapping_registry_address_to_script_hash a sh).
Proof.
  intros Hsh. unfold mapping_registry_address_to_script_hash.
  do 7 (apply kept_bind; [keep|intros]).
  apply (kept_bind_of P (λ b, length b = 32%nat)); [keep| |].
  { intros s b s' E. injection E as E _. by apply address_buffer_length in E. }
  intros b Hb%word_length. keep.
Qed.
Hint Resolve kept_mapping : kept.

(** ** [StateExt] *)
Lemma kept_merkle_state : kept P calculate_merkle_state.
Proof. unfold calculate_merkle_state. keep. Qed.
Lemma kept_pay_fee p b s a : kept P (node_pay_fee p b s a).
Proof. unfold node_pay_fee. keep. Qed.
Lemma kept_deposit_address ctx r : kept P (deposit_address ctx r).
Proof. unfold deposit_address. keep. Qed.
Hint Resolve kept_merkle_state kept_pay_fee kept_deposit_address : kept.
Lemma kept_create_from_script script : kept P (create_account_from_script script).
Proof. unfold create_account_from_script. keep. Qed.
Lemma kept_store_data_hash dh : kept P (store_data_hash dh).
Proof. unfold store_data_hash. apply sk_update_raw; auto with words. by apply word_u32. Qed.
Lemma kept_deposit ctx r : kept P (apply_deposit_request ctx r).
Proof. unfold apply_deposit_request. keep. Qed.
Hint Resolve kept_deposit : kept.

(** An error of a withdrawal comes before [finalise]. *)
Definition receipt_of_state : ST St GenError.t WithdrawalReceipt :=
  st_map_err GenError.State j_finalise ;;
  account_root ← st_map_err GenError.State calculate_root;
  account_count ← st_map_err GenError.State get_account_count;
  mret (mkWithdrawalReceipt (mkAccountMerkleState account_root account_count)).
Lemma err_kept_withdrawal ctx b r :
  (∀ s e s', P s → receipt_of_state s ≠ (Err e, s')) → err_kept P (apply_withdrawal_request ctx b r).
Proof.
  intros Htail. unfold apply_withdrawal_request. cbv zeta.
  do 12 (apply err_kept_bind; [keep|intros]). intros s e s' Hs Hrun. by destruct (Htail s e s' Hs).
Qed.

(** ** A transaction *)
Context (g : Generator).

Lemma kept_relation : sys_relation (Mac:=Mac) (λ s s', P (sys_state s) → P (sys_state s')).
Proof.
  split; cbn; try done; eauto with kept.
  - split; [by intros s Hs|]. intros a b c Hab Hbc Ha. auto.
  - intros s k. apply (sk_get_raw HP).
  - intros s k v Hk Hv. by apply (sk_update_raw HP).
  - intros s. apply (sk_get_account_count HP).
  - intros s c. apply (sk_set_account_count HP).
  - intros s. apply (sk_snapshot HP).
  - intros s i. apply (sk_revert HP).
Qed.

Lemma kept_vm_run env n (s : Sys Mac St) r s' :
  vm_run env n s = Some (r, s') → P (sys_state s) → P (sys_state s').
Proof.
  intros Hrun Hs. apply (vm_run_inv env n s r s' (λ s2, P (sys_state s2))); [done| |done|done].
  intros s1. apply (ecall_respects _ kept_relation env s1).
Qed.

Lemma kept_machine_run info consensus raw_tx max backend s :
  P s.1 → P (machine_run (Mac:=Mac) g info consensus raw_tx max backend s).2.1.
Proof.
  destruct s as [st pool]. cbn [fst]. intros Hs. unfold machine_run.
  destruct (load_program _ _) as [mac|e|]; [|done..].
  destruct (vm_run _ _ _) as [[o s]|] eqn:Hvm; [|done].
  apply kept_vm_run in Hvm; [|done]. destruct o; repeat case_match; done.
Qed.

Lemma kept_get_tx_type raw_tx : kept P (get_tx_type g raw_tx).
Proof. unfold get_tx_type. keep. Qed.
Lemma kept_failed_fee raw_tx l t : kept P (failed_tx_fee raw_tx l t).
Proof. unfold failed_tx_fee, failed_polyjuice_fee. keep. Qed.
Hint Resolve kept_get_tx_type kept_failed_fee : kept.
Lemma kept_handle_failed snap nonce info raw_tx c :
  kept P (handle_failed_transaction g snap nonce info raw_tx c).
Proof. unfold handle_failed_transaction. keep. Qed.
Lemma kept_take_tracker : kept P take_tracker.
Proof.
  intros s Hs. unfold take_tracker. pose proof (sk_take_tracker HP s Hs) as Ht.
  by destruct (j_take_state_tracker s).
Qed.
Hint Resolve kept_handle_failed kept_take_tracker : kept.
Lemma kept_finish snap nonce info raw_tx c : kept P (finish_transaction g snap nonce info raw_tx c).
Proof. unfold finish_transaction. keep. Qed.
Hint Resolve kept_finish : kept.

Lemma kept_run_or_revert snap (m : ST (St * option CyclesPool) TransactionError.t RunContext) s :
  P (m s).2.1 → P (run_or_revert snap m s).2.1.
Proof.
  unfold run_or_revert. destruct (m s) as [[c|e|] [st pool]]; cbn; [done| |done].
  intros Hs. pose proof (sk_revert HP snap st Hs) as Hr. by destruct (j_revert snap st) as [[] ?].
Qed.

(** The state beside the cycles pool *)
Lemma kept_execute info raw_tx max :
  kept (λ s : St * option CyclesPool, P s.1) (execute_transaction (Mac:=Mac) g info raw_tx max).
Proof.
  assert (Hon : ∀ A (m : ST St AnyError A), kept P m →
    kept (λ s : St * option CyclesPool, P s.1) (on_st m)) by (intros A m Hm s; by apply kept_on_st).
  unfold execute_transaction.
  repeat first [ apply kept_bind; [|intros] | apply Hon; keep | progress cbv zeta
               | apply kept_lift | case_match ].
  intros s Hs. by apply kept_run_or_revert, kept_machine_run.
Qed.

Lemma kept_execute_in_block info raw_tx max :
  kept P (execute_in_block (Mac:=Mac) g info raw_tx max).
Proof.
  intros s Hs. unfold execute_in_block.
  pose proof (kept_execute info raw_tx (Some max) (s, None) Hs) as He.
  by destruct (execute_transaction _ _ _ _ _) as [r [st pool]].
Qed.

(** ** A block *)
Lemma kept_withdrawal_signature w : kept P (check_withdrawal_signature g w).
Proof. unfold check_withdrawal_signature. keep. Qed.
Lemma kept_tx_signature tx : kept P (check_transaction_signature g tx).
Proof. unfold check_transaction_signature. keep. Qed.
Lemma kept_check_account a : kept P (check_account_state a).
Proof. unfold check_account_state. keep. Qed.
Hint Resolve kept_execute_in_block kept_withdrawal_signature kept_tx_signature kept_check_account :
  kept.
Context (Hfinalise : kept P j_finalise).
Hint Resolve Hfinalise : kept.
Lemma kept_withdrawal ctx b r : kept P (apply_withdrawal_request ctx b r).
Proof. unfold apply_withdrawal_request. keep. Qed.
Hint Resolve kept_withdrawal : kept.
Lemma kept_withdrawals h raw producer i ws :
  kept P (apply_withdrawals_from g h raw producer i ws).
Proof. revert i. induction ws as [|w ws IH]; intros i; cbn [apply_withdrawals_from]; keep. Qed.
Lemma kept_apply_tx h raw skip wc max i tx :
  kept P (apply_tx (Mac:=Mac) g h raw skip wc max i tx).
Proof. unfold apply_tx. keep. Qed.
Hint Resolve kept_withdrawals kept_apply_tx : kept.
Lemma kept_apply_txs h raw skip wc max i txs used :
  kept P (apply_txs_from (Mac:=Mac) g h raw skip wc max i txs used).
Proof. revert i used. induction txs as [|tx txs IH]; intros i used; cbn [apply_txs_from]; keep. Qed.
Hint Resolve kept_apply_txs : kept.

Lemma kept_block args skipped : kept P (apply_block (Mac:=Mac) g args skipped).
Proof.
  unfold apply_block. keep; try (apply kept_for; intros; keep).
Qed.
End Operations.

Lemma kept_apply_block {Mac St : Type} `{MachineLaws Mac, StateOps St, CodeOps St, JournalOps St}
    `{Blake2b, Molecule, ContractArgs, SubstrateBn, ChainView, SyscallCodec, MapIter} (P : St → Prop) :
  state_kept P → ∀ g args skipped, kept P (apply_block (Mac:=Mac) g args skipped).
Proof. intros [Hops Hfin] g args skipped. by apply kept_block. Qed.
