(* ===== verification/FeeQueue.v ===== *)
(** * The fee queue of the memory pool

    Models [crates/mem-pool/src/fee/types.rs] and [queue.rs]: entries with their
    order, the fee of a transaction, and the queue that hands out transactions
    and withdrawals by fee rate and nonce.

    The [BTreeMap] is its list of entries in ascending order; what it does with
    keys that are not totally ordered is not specified, so the invariant of the
    queue is stated for sets of entries the order is lawful on ([lawful]), and
    [distinct_orders_lawful] gives such sets.  Spans and logs are left out. *)
From Stdlib Require Import ZArith Lia Strings.Byte.
From stdpp Require Import prelude list gmap countable sorting.
From S2P Require Import Prelude Bytes Types State NodeUtils AccountLocks Backends.
Local Open Scope Z_scope.

(** ** types.rs *)
Inductive FeeItemKind := KindTx | KindPendingCreateSenderTx | KindWithdrawal.
Inductive FeeItem :=
| ItemTx (tx : L2Transaction)
| ItemWithdrawal (withdrawal : WithdrawalRequestExtra).

(** [as_slice] of a withdrawal with its owner lock *)
Class ExtraCodec := enc_WithdrawalRequestExtra : WithdrawalRequestExtra → bytes.

Inductive FeeItemSender := AccountId (id : Z) | PendingCreate (hash : H256).
#[export] Instance FeeItemSender_eq_dec : EqDecision FeeItemSender.
Proof. solve_decision. Defined.
#[export] Program Instance FeeItemSender_countable : Countable FeeItemSender :=
  inj_countable' (λ s, match s with AccountId id => inl id | PendingCreate h => inr h end)
    (λ x, match x with inl id => AccountId id | inr h => PendingCreate h end) _.
Next Obligation. by intros []. Qed.

Record FeeEntry := mkFeeEntry {
  fe_item : FeeItem; fe_order : Z; fe_sender : FeeItemSender; fe_fee : Z; fe_cycles_limit : Z;
}.
Record FeeConfig := mkFeeConfig {
  meta_cycles_limit : Z; sudt_cycles_limit : Z; eth_addr_reg_cycles_limit : Z;
  withdraw_cycles_limit : Z;
}.
Record L2Fee := mkL2Fee { lf_fee : Z; lf_cycles_limit : Z }.
Inductive FeeError := BadContractArgs | BadPolyjuiceArgs | GaslessFeeError (e : GaslessError)
  | GaslessGasMismatch | FoundUnknownBackendType.

Definition item_nonce (i : FeeItem) : Z :=
  match i with
  | ItemTx tx => tx_nonce (tx_raw tx)
  | ItemWithdrawal w => w_nonce (w_raw (we_request w))
  end.
Definition item_kind (i : FeeItem) : FeeItemKind :=
  match i with
  | ItemTx tx => if tx_from_id (tx_raw tx) =? 0 then KindPendingCreateSenderTx else KindTx
  | ItemWithdrawal _ => KindWithdrawal
  end.

Section Order.
Context `{Molecule, ExtraCodec}.

Definition inner_slice (i : FeeItem) : bytes :=
  match i with
  | ItemTx tx => enc_L2Transaction tx
  | ItemWithdrawal w => enc_WithdrawalRequestExtra w
  end.

Definition item_cmp (a b : FeeItem) : comparison :=
  match item_nonce a ?= item_nonce b with
  | Eq => Eq
  | _ => bytes_compare (inner_slice a) (inner_slice b)
  end.

Definition rate_cmp (a b : FeeEntry) : comparison :=
  saturating_mul 128 (fe_fee a) (fe_cycles_limit b)
  ?= saturating_mul 128 (fe_fee b) (fe_cycles_limit a).

Definition entry_cmp (a b : FeeEntry) : comparison :=
  match rate_cmp a b with
  | Eq =>
      match fe_order b ?= fe_order a with
      | Eq =>
          match fe_cycles_limit b ?= fe_cycles_limit a with
          | Eq => item_cmp (fe_item b) (fe_item a)
          | o => o
          end
      | o => o
      end
  | o => o
  end.
End Order.

(** ** Fees *)
Section Fees.
Context `{Blake2b, ContractArgs, UserOpDecode}.
Local Abbreviation M := (outcome FeeError).

Definition parse_withdraw_fee_rate (fee_config : FeeConfig) (raw : RawWithdrawalRequest) : M L2Fee :=
  Ok (mkL2Fee (w_fee raw) (withdraw_cycles_limit fee_config)).

Definition parse_l2tx_fee_rate (gasless_tx_support_config : option bytes) (fee_config : FeeConfig)
    (raw_l2tx : RawL2Transaction) (backend_type : BackendType) : M L2Fee :=
  let raw_l2tx_args := tx_args raw_l2tx in
  match backend_type with
  | BkMeta =>
      meta_args ← ok_or BadContractArgs (dec_MetaContractArgs raw_l2tx_args);
      let fee := match meta_args with
                 | CreateAccount _ fee | BatchCreateEthAccounts _ fee => fee_amount fee
                 end in
      Ok (mkL2Fee fee (meta_cycles_limit fee_config))
  | BkEthAddrReg =>
      eth_addr_reg_args ← ok_or BadContractArgs (dec_ETHAddrRegArgs raw_l2tx_args);
      let fee := match eth_addr_reg_args with
                 | EthToGw _ | GwToEth _ => 0
                 | SetMapping _ fee | BatchSetMapping _ fee => fee_amount fee
                 end in
      Ok (mkL2Fee fee (eth_addr_reg_cycles_limit fee_config))
  | BkSudt =>
      sudt_args ← ok_or BadContractArgs (dec_SUDTArgs raw_l2tx_args);
      let fee := match sudt_args with
                 | SUDTQuery _ => 0
                 | SUDTTransfer _ _ fee => fee_amount fee
                 end in
      Ok (mkL2Fee fee (sudt_cycles_limit fee_config))
  | BkPolyjuice =>
      poly_args ← ok_or BadPolyjuiceArgs (PolyjuiceParser.from_raw_l2_tx raw_l2tx);
      '(gas_limit, gas_price) ←
        (if (0 <? PolyjuiceParser.gas_price poly_args)
            || negb (is_gasless_tx gasless_tx_support_config poly_args)
         then Ok (PolyjuiceParser.gas poly_args, PolyjuiceParser.gas_price poly_args)
         else
           fee ← map_err GaslessFeeError (gasless_tx_fee (PolyjuiceParser.data poly_args));
           reject_if (negb (PolyjuiceParser.gas poly_args =? gf_gas_limit fee)) GaslessGasMismatch ;;
           Ok (gf_gas_limit fee, gf_gas_price fee));
      Ok (mkL2Fee (saturating_mul 128 gas_price gas_limit) gas_limit)
  | BkUnknown => Err FoundUnknownBackendType
  end.

Definition FeeEntry_from_tx (tx : L2Transaction) (gasless_tx_support_config : option bytes)
    (fee_config : FeeConfig) (backend_type : BackendType) (order : Z) : M FeeEntry :=
  fee ← parse_l2tx_fee_rate gasless_tx_support_config fee_config (tx_raw tx) backend_type;
  let sender := if tx_from_id (tx_raw tx) =? 0
                then PendingCreate (blake2b (tx_signature tx))
                else AccountId (tx_from_id (tx_raw tx)) in
  Ok (mkFeeEntry (ItemTx tx) order sender (lf_fee fee) (lf_cycles_limit fee)).

Definition FeeEntry_from_withdrawal (withdrawal : WithdrawalRequestExtra) (sender : Z)
    (fee_config : FeeConfig) (order : Z) : M FeeEntry :=
  fee ← parse_withdraw_fee_rate fee_config (w_raw (we_request withdrawal));
  Ok (mkFeeEntry (ItemWithdrawal withdrawal) order (AccountId sender) (lf_fee fee)
        (lf_cycles_limit fee)).
End Fees.

(** ** queue.rs *)
Definition MAX_QUEUE_SIZE : nat := Z.to_nat 100000.
Definition DROP_SIZE : nat := 100.
#[global] Arguments MAX_QUEUE_SIZE : simpl never.
#[global] Opaque MAX_QUEUE_SIZE.

Section Queue.
Context {T : Type} `{Molecule, ExtraCodec}.
Local Abbreviation FeeQueue := (list (FeeEntry * T)).

(** [BTreeMap::insert]: an equal key keeps its place and takes the new value. *)
Fixpoint btree_insert (entry : FeeEntry) (handle : T) (queue : FeeQueue) : FeeQueue :=
  match queue with
  | [] => [(entry, handle)]
  | (e, t) :: rest =>
      match entry_cmp entry e with
      | Lt => (entry, handle) :: queue
      | Eq => (e, handle) :: rest
      | Gt => (e, t) :: btree_insert entry handle rest
      end
  end.

(** [BTreeMap::split_off]: what is not below the key. *)
Fixpoint split_off (key : FeeEntry) (queue : FeeQueue) : FeeQueue :=
  match queue with
  | [] => []
  | (e, t) :: rest => match entry_cmp e key with Lt => split_off key rest | _ => queue end
  end.

Definition is_full (queue : FeeQueue) : bool := (MAX_QUEUE_SIZE <? length queue)%nat.

Definition add (entry : FeeEntry) (handle : T) (queue : FeeQueue) : FeeQueue :=
  let queue := btree_insert entry handle queue in
  if is_full queue then
    match queue !! (DROP_SIZE + 1)%nat with
    | Some (first_to_keep, _) => split_off first_to_keep queue
    | None => queue
    end
  else queue.

Definition pop_last (queue : FeeQueue) : option ((FeeEntry * T) * FeeQueue) :=
  match reverse queue with
  | [] => None
  | x :: rest => Some (x, reverse rest)
  end.

(** What a fetch has gathered. *)
Record Fetching := mkFetching {
  fetched_items : FeeQueue; fetched_senders : gmap FeeItemSender Z; future_queue : FeeQueue;
}.
Definition no_fetching : Fetching := mkFetching [] ∅ [].

Context (nonce_of : Z → outcome StateError.t Z).

Definition sender_nonce (senders : gmap FeeItemSender Z) (sender : FeeItemSender) :
    outcome StateError.t Z :=
  match senders !! sender with
  | Some nonce => Ok nonce
  | None => match sender with PendingCreate _ => Ok 0 | AccountId id => nonce_of id end
  end.

(** One popped entry: fetched, kept for later, or dropped as stale. *)
Definition fetch_step (x : FeeEntry * T) (f : Fetching) : outcome StateError.t Fetching :=
  let sender := fe_sender x.1 in
  nonce ← sender_nonce (fetched_senders f) sender;
  Ok (match item_nonce (fe_item x.1) ?= nonce with
      | Eq => mkFetching (fetched_items f ++ [x])
                (<[sender := saturating_add 32 nonce 1]> (fetched_senders f)) (future_queue f)
      | Gt => mkFetching (fetched_items f) (fetched_senders f) (future_queue f ++ [x])
      | Lt => f
      end).

(** The loop ends by itself: every round pops an entry. *)
Fixpoint fetch_loop (fuel : nat) (count : nat) (f : Fetching) :
    ST FeeQueue StateError.t Fetching := λ queue,
  match fuel with
  | O => (Ok f, queue)
  | S fuel =>
      match pop_last queue with
      | None => (Ok f, queue)
      | Some (x, queue) =>
          match fetch_step x f with
          | Err e => (Err e, queue)
          | Panic => (Panic, queue)
          | Ok f =>
              if (count <=? length (fetched_items f))%nat then (Ok f, queue)
              else fetch_loop fuel count f queue
          end
      end
  end.

Definition add_back (senders : gmap FeeItemSender Z) (queue : FeeQueue) (x : FeeEntry * T) : FeeQueue :=
  if bool_decide (is_Some (senders !! fe_sender x.1)) then add x.1 x.2 queue else queue.

Definition fetch (count : nat) : ST FeeQueue StateError.t FeeQueue := λ queue,
  match fetch_loop (length queue) count no_fetching queue with
  | (Ok f, queue) =>
      (Ok (fetched_items f), foldl (add_back (fetched_senders f)) queue (future_queue f))
  | (Err e, queue) => (Err e, queue)
  | (Panic, queue) => (Panic, queue)
  end.
End Queue.

(** ** The loop, entry by entry from the last one *)
Section Loop.
Context {T : Type} `{Molecule, ExtraCodec} (nonce_of : Z → outcome StateError.t Z).
Implicit Types (q popped : list (FeeEntry * T)) (x : FeeEntry * T) (f : @Fetching T).

Definition step_all f popped : outcome StateError.t Fetching :=
  foldM (λ f x, fetch_step nonce_of x f) f popped.

Lemma pop_last_snoc q x : pop_last (q ++ [x]) = Some (x, q).
Proof. unfold pop_last. by rewrite reverse_snoc, reverse_involutive. Qed.

(** A successful loop has popped some entries from the end, and stopped because
    it had enough or because none was left. *)
Lemma fetch_loop_Ok fuel count f q f' q' :
  (length q ≤ fuel)%nat → fetch_loop nonce_of fuel count f q = (Ok f', q') →
  ∃ popped, q = q' ++ reverse popped ∧ step_all f popped = Ok f' ∧
    (q' = [] ∨ (count ≤ length (fetched_items f'))%nat ∧ popped ≠ []) ∧
    (∀ p x, popped = p ++ [x] → p ≠ [] → ∃ g, step_all f p = Ok g ∧ (length (fetched_items g) < count)%nat).
Proof.
  revert f q. induction fuel as [|fuel IH]; intros f q Hlen Hrun; cbn [fetch_loop] in Hrun.
  { injection Hrun as <- <-. exists []. destruct q; cbn in Hlen; [|lia].
    split; [done|]. split; [done|]. split; [by left|]. by intros [] ?. }
  destruct q as [|y q _] using rev_ind.
  { injection Hrun as <- <-. exists []. split; [done|]. split; [done|]. split; [by left|]. by intros [] ?. }
  rewrite pop_last_snoc in Hrun. rewrite length_app in Hlen. cbn [length] in Hlen.
  destruct (fetch_step nonce_of y f) as [g| |] eqn:Hs; [|done..].
  destruct (Nat.leb_spec count (length (fetched_items g))).
  - injection Hrun as <- <-. exists [y]. split; [done|]. unfold step_all. cbn. rewrite Hs.
    split; [done|]. split; [by right|]. intros p x E Hp. destruct p as [|? []]; done.
  - apply IH in Hrun as (popped & -> & Hall & Hend & Hcnt); [|lia].
    exists (y :: popped). split; [by rewrite reverse_cons, (assoc_L app)|].
    unfold step_all in *. cbn. rewrite Hs. split; [done|]. split.
    { destruct Hend as [?|[? ?]]; [by left|right]. by split. }
    intros [|p0 p] x E Hp; [done|]. cbn in E. injection E as -> E. cbn. rewrite Hs.
    destruct p as [|p1 p]; [by exists g|]. by apply (Hcnt (p1 :: p) x).
Qed.

(** *** Nonces *)
Definition start_nonce (sender : FeeItemSender) : outcome StateError.t Z :=
  match sender with PendingCreate _ => Ok 0 | AccountId id => nonce_of id end.

(** The entries of a sender, in the order they come. *)
Definition of_sender (sender : FeeItemSender) q : list (FeeEntry * T) :=
  filter (λ x, fe_sender x.1 = sender) q.

(** The nonces count up from [n], stopping at the largest [u32]. *)
Definition count_up (n : Z) q : Prop :=
  ∀ (i : nat) x, q !! i = Some x → item_nonce (fe_item x.1) = Z.min (n + Z.of_nat i) u32_max.

Definition senders_ok f : Prop := ∀ sender,
  let mine := of_sender sender (fetched_items f) in
  match fetched_senders f !! sender with
  | None => mine = []
  | Some n => ∃ n0, start_nonce sender = Ok n0 ∧ mine ≠ [] ∧ count_up n0 mine ∧
      n = Z.min (n0 + Z.of_nat (length mine)) u32_max
  end.

Context (Hnonce : ∀ id n, nonce_of id = Ok n → u32 n).

Lemma start_nonce_u32 sender n : start_nonce sender = Ok n → u32 n.
Proof. destruct sender; cbn; [apply Hnonce|]. intros [= <-]. by vm_compute. Qed.

Lemma count_up_snoc n q x :
  count_up n q → item_nonce (fe_item x.1) = Z.min (n + Z.of_nat (length q)) u32_max →
  count_up n (q ++ [x]).
Proof.
  intros Hc Hx i y [Hi|[Hge Hi]]%lookup_app_Some; [by apply Hc|].
  apply list_lookup_singleton_Some in Hi as [Hi ->]. by replace i with (length q) by lia.
Qed.

Lemma fetch_step_ok f x f' :
  senders_ok f → fetch_step nonce_of x f = Ok f' → senders_ok f'.
Proof.
  intros Hok Hs. unfold fetch_step in Hs. inv_ok.
  destruct (item_nonce (fe_item x.1) ?= x0) eqn:Hc; [|done|exact Hok].
  apply Z.compare_eq in Hc. intros sender. cbn. unfold of_sender. rewrite filter_app.
  destruct (decide (fe_sender x.1 = sender)) as [<-|Hne].
  - rewrite lookup_insert_eq, filter_cons_True, filter_nil by done.
    specialize (Hok (fe_sender x.1)). cbn in Hok. rename select (sender_nonce _ _ _ = _) into Hn.
    unfold sender_nonce in Hn.
    assert (∃ n0, start_nonce (fe_sender x.1) = Ok n0
              ∧ x0 = Z.min (n0 + Z.of_nat (length (of_sender (fe_sender x.1) (fetched_items f)))) u32_max
              ∧ count_up n0 (of_sender (fe_sender x.1) (fetched_items f)))
      as (n0 & E0 & Ex & Hup).
    { destruct (fetched_senders f !! _) as [n|].
      - injection Hn as ->. destruct Hok as (n0 & ? & _ & ? & ?). by exists n0.
      - exists x0. split; [done|]. rewrite Hok. split; [|intros i y; by rewrite lookup_nil].
        apply start_nonce_u32 in Hn. unfold in_width, u32_max in *. cbn. lia. }
    exists n0. split; [done|]. split; [by destruct (filter _ _)|].
    split; [apply count_up_snoc; [done|by rewrite Hc, Ex]|].
    rewrite length_app. cbn [length]. fold (of_sender (fe_sender x.1) (fetched_items f)).
    unfold saturating_add. rewrite Ex. unfold u32_max in *. lia.
  - rewrite lookup_insert_ne, filter_cons_False, filter_nil, app_nil_r by done. apply (Hok sender).
Qed.

Lemma step_all_ok popped f f' : senders_ok f → step_all f popped = Ok f' → senders_ok f'.
Proof.
  unfold step_all. revert f. induction popped as [|x popped IH]; intros f Hok Hrun; cbn in Hrun; inv_ok;
    eauto using fetch_step_ok.
Qed.

(** *** Where the entries go *)
Lemma fetch_step_where f x f' :
  fetch_step nonce_of x f = Ok f' →
  (fetched_items f' = fetched_items f ++ [x] ∧ future_queue f' = future_queue f) ∨
  (fetched_items f' = fetched_items f ∧ future_queue f' `sublist_of` future_queue f ++ [x]).
Proof.
  intros Hs. unfold fetch_step in Hs. inv_ok.
  destruct (_ ?= _); cbn; [by left|right..]; split; [done|by apply sublist_inserts_r|done|done].
Qed.

Lemma step_all_where popped f f' :
  step_all f popped = Ok f' →
  ∃ taken kept, fetched_items f' = fetched_items f ++ taken ∧ taken `sublist_of` popped ∧
    future_queue f' `sublist_of` future_queue f ++ kept ∧ kept `sublist_of` popped ∧
    (length taken + length kept ≤ length popped)%nat.
Proof.
  unfold step_all. revert f. induction popped as [|x popped IH]; intros f Hrun; cbn in Hrun; inv_ok.
  { exists [], []. by rewrite !app_nil_r. }
  rename select (fetch_step _ _ _ = _) into Hs. apply fetch_step_where in Hs.
  rename select (foldM _ _ _ = _) into Hr. apply IH in Hr as (taken & kept & E1 & H1' & H2' & H3' & Hl).
  destruct Hs as [[E2 E3]|[E2 E3]].
  - exists (x :: taken), kept. rewrite E1, E2, <- (assoc_L app). rewrite E3 in H2'. cbn.
    repeat split; try done; [by apply sublist_skip|by apply sublist_cons|lia].
  - exists taken, (x :: kept). rewrite E1, E2. cbn.
    repeat split; try done; [by apply sublist_cons| |by apply sublist_skip|lia].
    etrans; [exact H2'|]. change (x :: kept) with ([x] ++ kept). rewrite (assoc_L app).
    by apply sublist_app.
Qed.
End Loop.

(** ** Fetching *)
Section Fetch.
Context {T : Type} `{Molecule, ExtraCodec} (nonce_of : Z → outcome StateError.t Z).
Context (Hnonce : ∀ id n, nonce_of id = Ok n → u32 n).
Implicit Types (q popped : list (FeeEntry * T)) (x : FeeEntry * T) (f : @Fetching T).

Lemma no_fetching_ok : senders_ok (T:=T) nonce_of no_fetching.
Proof. intros sender. cbn. by rewrite lookup_empty. Qed.

Lemma split_off_length key q : (length (split_off key q) ≤ length q)%nat.
Proof. induction q as [|[e t] q IH]; cbn; [done|]. case_match; cbn; lia. Qed.
Lemma btree_insert_length e t q : (length (btree_insert e t q) ≤ S (length q))%nat.
Proof. induction q as [|[e' t'] q IH]; cbn; [done|]. case_match; cbn; lia. Qed.
Lemma add_length e t q : (length (add e t q) ≤ S (length q))%nat.
Proof.
  unfold add. pose proof (btree_insert_length e t q). repeat case_match; try done.
  etrans; [apply split_off_length|done].
Qed.
Lemma add_back_length senders q l :
  (length (foldl (add_back senders) q l) ≤ length q + length l)%nat.
Proof.
  revert q. induction l as [|x l IH]; intros q; cbn; [lia|]. etrans; [apply IH|].
  unfold add_back. case_bool_decide; [pose proof (add_length x.1 x.2 q)|]; lia.
Qed.
Lemma add_back_none q l : foldl (add_back ∅) q l = q.
Proof. induction l as [|x l IH]; cbn; [done|]. unfold add_back at 2. by rewrite lookup_empty. Qed.

Lemma nothing_fetched f : senders_ok nonce_of f → fetched_items f = [] → fetched_senders f = ∅.
Proof.
  intros Hok E. apply map_empty. intros s. specialize (Hok s). rewrite E in Hok. cbn in Hok.
  destruct (fetched_senders f !! s); [|done]. destruct Hok as (n0 & _ & Hne & _). done.
Qed.

(** A fetch taken apart. *)
Lemma fetch_Ok count q items q' :
  fetch nonce_of count q = (Ok items, q') →
  ∃ rest popped f, q = rest ++ reverse popped ∧ step_all nonce_of no_fetching popped = Ok f ∧
    senders_ok nonce_of f ∧ items = fetched_items f ∧
    q' = foldl (add_back (fetched_senders f)) rest (future_queue f) ∧
    (rest = [] ∨ (count ≤ length items)%nat ∧ popped ≠ []) ∧
    (length items ≤ Nat.max count 1)%nat.
Proof.
  intros Hrun. unfold fetch in Hrun.
  destruct (fetch_loop _ _ _ _ q) as [[f|e|] rest] eqn:Hl; [|done..]. injection Hrun as <- <-.
  apply fetch_loop_Ok in Hl as (popped & -> & Hall & Hend & Hcnt); [|done].
  exists rest, popped, f. repeat (split; [done|]).
  split; [by eapply step_all_ok; eauto using no_fetching_ok|]. repeat (split; [done|]).
  destruct popped as [|x p _] using rev_ind; [cbn in Hall; injection Hall as <-; cbn; lia|].
  unfold step_all in Hall. rewrite foldM_app in Hall. cbn in Hall. inv_ok.
  rename select (foldM _ _ p = _) into Hp. rename select (fetch_step _ _ _ = _) into Hs.
  apply fetch_step_where in Hs.
  assert (length (fetched_items f) ≤ S (length (fetched_items x0)))%nat.
  { destruct Hs as [[-> _]|[-> _]]; [rewrite length_app; cbn|]; lia. }
  destruct p as [|y p]; [cbn in Hp; injection Hp as <-; cbn in *; lia|].
  destruct (Hcnt _ _ eq_refl) as (g & Hg & Hlt); [done|]. unfold step_all in Hg.
  rewrite Hp in Hg. injection Hg as ->. lia.
Qed.

Lemma fetch_shrinks count q items q' :
  fetch nonce_of count q = (Ok items, q') → q ≠ [] → (length q' < length q)%nat.
Proof.
  intros Hrun Hne. apply fetch_Ok in Hrun as (rest & popped & f & -> & Hall & Hok & -> & -> & Hend & _).
  apply step_all_where in Hall as (taken & kept & E & _ & Hk & _ & Hl). cbn in E, Hk.
  rewrite length_app, length_reverse in *.
  assert (Hp : (0 < length popped)%nat).
  { destruct popped; [|cbn; lia]. destruct Hend as [->|[_ ?]]; done. }
  destruct (fetched_items f) as [|x l] eqn:Ef.
  - rewrite (nothing_fetched f Hok Ef), add_back_none. lia.
  - apply sublist_length in Hk. pose proof (add_back_length (fetched_senders f) rest (future_queue f)).
    subst taken. cbn in Hl. lia.
Qed.

Lemma fetch_returns count q :
  (∀ id, ∃ n, nonce_of id = Ok n) → ∃ items q', fetch nonce_of count q = (Ok items, q').
Proof.
  intros Hn. unfold fetch.
  assert (Hloop : ∀ fuel f q, ∃ f' q', fetch_loop nonce_of fuel count f q = (Ok f', q')).
  { induction fuel as [|fuel IH]; intros f q0; cbn; [by eexists _, _|].
    destruct (pop_last q0) as [[x q1]|]; [|by eexists _, _].
    destruct (fetch_step nonce_of x f) as [f1|e|] eqn:Hs.
    - case_match; [by eexists _, _|apply IH].
    - unfold fetch_step, sender_nonce in Hs. destruct (_ !! _); [done|].
      destruct (fe_sender x.1) as [id|]; [|done]. destruct (Hn id) as [n En]. by rewrite En in Hs.
    - unfold fetch_step, sender_nonce in Hs. destruct (_ !! _); [done|].
      destruct (fe_sender x.1) as [id|]; [|done]. destruct (Hn id) as [n En]. by rewrite En in Hs. }
  destruct (Hloop (length q) no_fetching q) as (f & q' & ->). by eexists _, _.
Qed.
End Fetch.

(** ** Order *)
Section Sorted.
Context {T : Type} `{Molecule, ExtraCodec}.
Implicit Types (q : list (FeeEntry * T)).

(** A set of entries on which the comparison is a strict total order up to
    ties. *)
Record lawful (P : FeeEntry → Prop) : Prop := {
  lawful_sym a b : P a → P b → entry_cmp b a = CompOpp (entry_cmp a b);
  lawful_trans a b c : P a → P b → P c →
    entry_cmp a b = Lt → entry_cmp b c = Lt → entry_cmp a c = Lt;
}.

(** Entries whose fee rates compare without saturation. *)
Definition rate_ok (max_cycles : Z) (e : FeeEntry) : Prop :=
  0 ≤ fe_fee e ∧ 0 < fe_cycles_limit e ≤ max_cycles ∧ fe_fee e * max_cycles < 2 ^ 128.

Lemma rate_cmp_exact m a b :
  rate_ok m a → rate_ok m b →
  rate_cmp a b = (fe_fee a * fe_cycles_limit b ?= fe_fee b * fe_cycles_limit a).
Proof.
  intros (? & ? & ?) (? & ? & ?). unfold rate_cmp, saturating_mul. by rewrite !Z.min_l by nia.
Qed.

Lemma rate_trans m a b c :
  rate_ok m a → rate_ok m b → rate_ok m c → rate_cmp a b ≠ Gt → rate_cmp b c ≠ Gt →
  rate_cmp a c ≠ Gt ∧ (rate_cmp a c = Eq → rate_cmp a b = Eq ∧ rate_cmp b c = Eq).
Proof.
  intros Ha Hb Hc. rewrite !(rate_cmp_exact m) by done. rewrite !Z.compare_eq_iff.
  change (∀ x y, (x ?= y) ≠ Gt) with (∀ x y, x ≤ y) in *.
  destruct Ha as (? & [? _] & _), Hb as (? & [? _] & _), Hc as (? & [? _] & _).
  set (fa := fe_fee a) in *. set (fb := fe_fee b) in *. set (fc := fe_fee c) in *.
  set (ca := fe_cycles_limit a) in *. set (cb := fe_cycles_limit b) in *. set (cc := fe_cycles_limit c) in *.
  intros H1' H2'. change (fa * cb ≤ fb * ca) in H1'. change (fb * cc ≤ fc * cb) in H2'.
  assert (fa * cc * cb ≤ fb * ca * cc) by nia. assert (fb * cc * ca ≤ fc * cb * ca) by nia.
  split; [change (fa * cc ≤ fc * ca); nia|]. intros E. split; nia.
Qed.

(** Entries with different places in the queue are totally ordered. *)
Lemma distinct_orders_lawful m (es : list FeeEntry) :
  Forall (rate_ok m) es →
  (∀ a b, a ∈ es → b ∈ es → fe_order a = fe_order b → a = b) → lawful (λ e, e ∈ es).
Proof.
  intros Hr Hd. rewrite Forall_forall in Hr.
  assert (Hcmp : ∀ a b, a ∈ es → b ∈ es → a ≠ b →
    entry_cmp a b = match rate_cmp a b with Eq => fe_order b ?= fe_order a | o => o end).
  { intros a b Ha Hb Hne. unfold entry_cmp. destruct (rate_cmp a b); try done.
    destruct (fe_order b ?= fe_order a) eqn:E; try done. apply Z.compare_eq in E.
    destruct Hne. by apply Hd. }
  assert (Hrefl : ∀ a, a ∈ es → entry_cmp a a = Eq).
  { intros a Ha. unfold entry_cmp, rate_cmp, item_cmp. by rewrite !Z.compare_refl. }
  assert (Hdec : ∀ a b, a ∈ es → b ∈ es → a = b ∨ a ≠ b).
  { intros a b Ha Hb. destruct (decide (fe_order a = fe_order b)); [left; by apply Hd|right; congruence]. }
  split.
  - intros a b Ha Hb. destruct (Hdec a b Ha Hb) as [->|Hne]; [by rewrite Hrefl|].
    rewrite !Hcmp by auto. unfold rate_cmp.
    rewrite (Z.compare_antisym (saturating_mul _ (fe_fee a) _)).
    destruct (_ ?= saturating_mul 128 (fe_fee b) _); cbn; try done. apply Z.compare_antisym.
  - intros a b c Ha Hb Hc H1' H2'.
    assert (Hab : a ≠ b) by (intros ->; by rewrite Hrefl in H1').
    assert (Hbc : b ≠ c) by (intros ->; by rewrite Hrefl in H2').
    rewrite Hcmp in H1', H2' by done.
    destruct (rate_trans m a b c) as [Hle Heq]; eauto;
      [intros E; by rewrite E in H1'|intros E; by rewrite E in H2'|].
    destruct (rate_cmp a c) eqn:Eac; [| |done].
    + destruct (Heq eq_refl) as [E1 E2]. rewrite E1 in H1'. rewrite E2 in H2'.
      rewrite Z.compare_lt_iff in H1', H2'.
      rewrite Hcmp, Eac by (done || intros ->; lia). apply Z.compare_lt_iff. lia.
    + rewrite Hcmp, Eac; [done..|]. intros ->. unfold rate_cmp in Eac. by rewrite Z.compare_refl in Eac.
Qed.

(** *** The queue stays sorted and bounded *)
Definition entry_lt (x y : FeeEntry * T) : Prop := entry_cmp x.1 y.1 = Lt.
Record queue_ok (P : FeeEntry → Prop) q : Prop := {
  queue_sorted : StronglySorted entry_lt q;
  queue_entries : Forall (λ x, P x.1) q;
  queue_size : (length q ≤ MAX_QUEUE_SIZE)%nat;
}.

Context (P : FeeEntry → Prop) (Hlaw : lawful P).

Lemma btree_insert_entries e t q :
  P e → Forall (λ x, P x.1) q → Forall (λ x, P x.1) (btree_insert e t q).
Proof.
  intros He Hq. induction Hq as [|[e' t'] q Hx Hq IH]; cbn; [by constructor|].
  case_match; by repeat constructor.
Qed.

Lemma btree_insert_above y e t q :
  entry_cmp y e = Lt → Forall (λ x, entry_cmp y x.1 = Lt) q →
  Forall (λ x, entry_cmp y x.1 = Lt) (btree_insert e t q).
Proof.
  intros He Hq. induction Hq as [|[e' t'] q Hx Hq IH]; cbn; [by constructor|].
  case_match; by repeat constructor.
Qed.

Lemma btree_insert_sorted e t q :
  P e → Forall (λ x, P x.1) q → StronglySorted entry_lt q →
  StronglySorted entry_lt (btree_insert e t q).
Proof.
  intros He Hq Hs. induction Hs as [|[e' t'] q Hs IH Hf]; cbn; [by repeat constructor|].
  apply Forall_cons in Hq as [He' Hq]. cbn in He'.
  destruct (entry_cmp e e') eqn:Ec.
  - by constructor.
  - constructor; [by constructor|]. constructor; [done|]. rewrite Forall_forall in Hf, Hq.
    apply Forall_forall. intros x Hx. eapply (lawful_trans P Hlaw); [done|exact He'|by apply Hq|done|].
    by apply Hf.
  - constructor; [by apply IH|]. apply btree_insert_above; [|done].
    cbn [fst]. rewrite (lawful_sym P Hlaw e e') by done. by rewrite Ec.
Qed.

(** Splitting a sorted queue at one of its keys drops what comes before. *)
Lemma split_off_sorted q i x :
  StronglySorted entry_lt q → q !! i = Some x → entry_cmp x.1 x.1 = Eq →
  split_off x.1 q = drop i q.
Proof.
  intros Hs. revert i. induction Hs as [|[e t] q Hs IH Hf]; intros i Hi Hx; [done|].
  destruct i as [|i]; cbn in *.
  - injection Hi as <-. cbn in *. by rewrite Hx.
  - rewrite Forall_forall in Hf.
    assert (entry_cmp e x.1 = Lt) as -> by (apply (Hf x); by eapply list_elem_of_lookup_2). by apply IH.
Qed.

Lemma sorted_suffix q1 q2 : StronglySorted entry_lt (q1 ++ q2) → StronglySorted entry_lt q2.
Proof. induction q1 as [|x q1 IH]; cbn; [done|]. intros Hs. apply IH. by inversion Hs. Qed.
Lemma sorted_prefix q1 q2 : StronglySorted entry_lt (q1 ++ q2) → StronglySorted entry_lt q1.
Proof.
  induction q1 as [|x q1 IH]; cbn; [constructor|]. intros Hs. inversion Hs as [|?? Hs' Hf]; subst.
  constructor; [by apply IH|]. by apply Forall_app in Hf as [? _].
Qed.

Lemma entry_cmp_refl e : entry_cmp e e = Eq.
Proof. unfold entry_cmp, rate_cmp, item_cmp. by rewrite !Z.compare_refl. Qed.

(** Adding: the entry goes to its place, and when that makes the queue too long
    the [DROP_SIZE + 1] cheapest entries go. *)
Lemma add_run e t q :
  P e → queue_ok P q →
  add e t q = (let q' := btree_insert e t q in
               if (length q' <=? MAX_QUEUE_SIZE)%nat then q' else drop (S DROP_SIZE) q').
Proof.
  intros He [Hs Hq Hl]. unfold add, is_full. cbv zeta.
  pose proof (btree_insert_sorted e t q He Hq Hs) as Hs'.
  rewrite Nat.ltb_antisym. destruct (Nat.leb_spec (length (btree_insert e t q)) MAX_QUEUE_SIZE); [done|].
  cbn [negb]. destruct (_ !! _) as [[k t']|] eqn:Hk.
  - rewrite (split_off_sorted _ (DROP_SIZE + 1) (k, t')); [by rewrite Nat.add_1_r|done|done|].
    apply entry_cmp_refl.
  - apply lookup_ge_None in Hk. exfalso. unfold DROP_SIZE in Hk.
    assert (MAX_QUEUE_SIZE = Z.to_nat 100000) as Hm by reflexivity. lia.
Qed.

Lemma add_ok e t q : P e → queue_ok P q → queue_ok P (add e t q).
Proof.
  intros He Hok. rewrite add_run by done. destruct Hok as [Hs Hq Hl]. cbv zeta.
  pose proof (btree_insert_sorted e t q He Hq Hs) as Hs'.
  pose proof (btree_insert_entries e t q He Hq) as Hq'.
  pose proof (btree_insert_length e t q) as Hl'.
  destruct (Nat.leb_spec (length (btree_insert e t q)) MAX_QUEUE_SIZE); [by split|].
  split; [|by apply Forall_drop|rewrite length_drop; unfold DROP_SIZE; lia].
  eapply (sorted_suffix (take (S DROP_SIZE) _)). by rewrite take_drop.
Qed.

Lemma fetch_ok nonce_of count q items q' :
  (∀ id n, nonce_of id = Ok n → u32 n) →
  queue_ok P q → fetch nonce_of count q = (Ok items, q') → queue_ok P q'.
Proof.
  intros Hn [Hs Hq Hl] Hrun.
  apply fetch_Ok in Hrun as (rest & popped & f & -> & Hall & _ & _ & -> & _); [|done].
  apply step_all_where in Hall as (taken & kept & _ & _ & Hk & Hk' & _). cbn in Hk.
  apply Forall_app in Hq as [Hr Hp]. apply sorted_prefix in Hs. rewrite length_app in Hl.
  assert (Hf : Forall (λ x, P x.1) (future_queue f)).
  { rewrite Forall_forall in Hp |- *. intros x Hx. apply Hp, elem_of_reverse.
    by eapply elem_of_sublist; [eapply elem_of_sublist|]. }
  assert (Hok : queue_ok P rest) by (split; [done|done|lia]). clear Hs Hr Hp Hl Hk Hk'.
  revert rest Hok. induction Hf as [|x l Hx Hf IH]; intros rest Hok; cbn; [done|]. apply IH.
  unfold add_back. case_bool_decide; [by apply add_ok|done].
Qed.
End Sorted.

(** The fee queue hands out transactions that can run: the items of a fetch
    come in descending priority, at most [count] of them (one when [count] is
    zero), and the items of each sender carry consecutive nonces starting at the
    sender's nonce in the state (zero for a sender still to be created). *)
Theorem fetch_respects_nonces {T : Type} `{Molecule, ExtraCodec}
    (nonce_of : Z → outcome StateError.t Z) (count : nat) (q q' items : list (FeeEntry * T)) :
  (∀ id n, nonce_of id = Ok n → u32 n) →
  fetch nonce_of count q = (Ok items, q') →
  items `sublist_of` reverse q ∧ (length items ≤ Nat.max count 1)%nat ∧
  ∀ sender n, start_nonce nonce_of sender = Ok n → count_up n (of_sender sender items).
Proof.
  intros Hn Hrun. apply fetch_Ok in Hrun
    as (rest & popped & f & -> & Hall & Hok & -> & _ & _ & Hlen); [|done].
  apply step_all_where in Hall as (taken & kept & E & Ht & _). cbn in E. rewrite E in *.
  split; [|split; [done|]].
  - rewrite reverse_app, reverse_involutive. by apply sublist_inserts_r.
  - intros sender n Hst. specialize (Hok sender). cbn in Hok. rewrite E in Hok.
    destruct (fetched_senders f !! sender) as [m|].
    + destruct Hok as (n0 & E0 & _ & Hup & _). rewrite Hst in E0. by injection E0 as ->.
    + rewrite Hok. intros i x Hi. by rewrite lookup_nil in Hi.
Qed.


(** Every nonce can be read, and fits its width. *)
Definition readable (nonce_of : Z → outcome StateError.t Z) : Prop :=
  ∀ id, ∃ n, nonce_of id = Ok n ∧ u32 n.

(** C34. Nothing waits forever in the queue: as long as nonces can be read, every fetch
    returns, and one on a queue that is not empty leaves it shorter; so after any
    fetches, as many as the queue has entries, each with its own count and with whatever
    nonces the accounts have by then, the queue is empty. *)
Theorem fee_queue_drains {T : Type} `{Molecule, ExtraCodec} (q : list (FeeEntry * T)) :
  (∀ nonce_of count, readable nonce_of →
     ∃ items q', fetch nonce_of count q = (Ok items, q') ∧ (q ≠ [] → (length q' < length q)%nat)) ∧
  ∀ fetches : list ((Z → outcome StateError.t Z) * nat),
    Forall (λ f, readable f.1) fetches → (length q ≤ length fetches)%nat →
    foldl (λ q f, (fetch f.1 f.2 q).2) q fetches = [].
Proof.
  assert (Hfetch : ∀ (q : list (FeeEntry * T)) nonce_of count, readable nonce_of →
    ∃ items q', fetch nonce_of count q = (Ok items, q') ∧ (q ≠ [] → (length q' < length q)%nat)).
  { intros q0 nonce_of count Hn. assert (Hu : ∀ id n, nonce_of id = Ok n → u32 n).
    { intros id n E. destruct (Hn id) as (m & E' & ?). rewrite E in E'. by injection E' as ->. }
    destruct (fetch_returns nonce_of count q0) as (items & q' & E).
    { intros id. destruct (Hn id) as (m & ? & _). by exists m. }
    exists items, q'. split; [done|]. intros Hne. by eapply (fetch_shrinks nonce_of Hu). }
  split; [apply Hfetch|]. intros fetches Hf. revert q. induction Hf as [|f fetches Hn _ IH]; intros q Hlen; cbn in *.
  - by destruct q; [|cbn in Hlen; lia].
  - destruct (Hfetch q f.1 f.2 Hn) as (items & q' & E & Hlt). rewrite E. apply IH. cbn [snd].
    destruct q as [|x q]; [|specialize (Hlt ltac:(done)); cbn in *; lia].
    unfold fetch in E. cbn in E. injection E as _ <-. cbn. lia.
Qed.
