(* ===== verification/Verifiers.v ===== *)
(** * Checking transactions and withdrawals before they enter the pool

    Models [crates/generator/src/verification/transaction.rs] and
    [withdrawal.rs] and [build_withdrawal_cell_output] of [utils.rs], and shows
    what passing them buys: the transaction can pay for its own failure, the
    withdrawal can be applied, and the cell the node builds for it is one the
    withdrawal lock can read.

    The verifiers borrow the state immutably; they are run as state operations so
    that the trait calls are the ones of [State].  The minimal capacity of a cell
    is computed by the CKB types library ([CkbTypes]). *)
From Stdlib Require Import ZArith Lia Strings.Byte.
From stdpp Require Import prelude list gmap.
From S2P Require Import Prelude Bytes Types State StateSpec StateDB Finality Ckb Layer2Supply.
From S2P Require Import NodeUtils NodeState AccountLocks Backends Syscalls Generator GeneratorProps FeeQueue.
Local Open Scope Z_scope.

(** ** Data *)
Record CellOutput := mkCellOutput { co_capacity : Z; co_lock : Script; co_type : option Script }.
(** [CellOutput::occupied_capacity], [None] on overflow *)
Class CkbTypes := occupied_capacity : CellOutput → nat → option Z.

Inductive WithdrawalCellError := MinCapacity (min req : Z) | CellOwnerLock (h : H256).
Definition WithdrawalCellError_into (e : WithdrawalCellError) : GenError.t :=
  GenError.Withdrawal (match e with
                       | MinCapacity min req => WithdrawalError.InsufficientCapacity min req
                       | CellOwnerLock h => WithdrawalError.OwnerLock h
                       end).

(** The fixed layout of the molecule struct [WithdrawalLockArgs] *)
Definition enc_WithdrawalLockArgs (a : WithdrawalLockArgs) : bytes :=
  wl_withdrawal_block_hash a ++ le_bytes 8 (wl_withdrawal_finalized_timepoint a)
  ++ wl_account_script_hash a ++ wl_owner_lock_hash a.

Section Verifiers.
Context `{Blake2b, Molecule, ExtraCodec, CkbTypes}.

Definition build_withdrawal_cell_output (ctx : RollupContext) (req : WithdrawalRequestExtra)
    (block_hash : H256) (finalized_timepoint : Timepoint) (opt_asset_script : option Script) :
    outcome WithdrawalCellError (CellOutput * bytes) :=
  let raw := w_raw (we_request req) in
  let withdrawal_capacity := w_capacity raw in
  let withdrawal_lock_args :=
    mkWithdrawalLockArgs block_hash (Timepoint_full_value finalized_timepoint)
      (w_account_script_hash raw) (w_owner_lock_hash raw) in
  let owner_lock := we_owner_lock req in
  reject_if (negb (bool_decide (w_owner_lock_hash raw = script_hash owner_lock)))
    (CellOwnerLock (w_owner_lock_hash raw)) ;;
  let lock_args :=
    rollup_script_hash ctx ++ enc_WithdrawalLockArgs withdrawal_lock_args
    ++ be_bytes 4 (Z.of_nat (length (enc_Script owner_lock)) mod 2 ^ 32)
    ++ enc_Script owner_lock in
  let lock := mkScript (withdrawal_script_type_hash (rollup_config ctx))
                (ScriptHashType_to_u8 HashType) lock_args in
  let data := match opt_asset_script with Some _ => le_bytes 16 (w_amount raw) | None => [] end in
  let output := mkCellOutput withdrawal_capacity lock opt_asset_script in
  match occupied_capacity output (length data) with
  | Some min_capacity =>
      if withdrawal_capacity <? min_capacity
      then Err (MinCapacity min_capacity withdrawal_capacity)
      else Ok (output, data)
  | None => Err (MinCapacity (u64_max + 1) withdrawal_capacity)
  end.

Context {St : Type} `{StateOps St, CodeOps St, JournalOps St} `{ContractArgs}.
Context (g : Generator).
Local Abbreviation ctx := (g_rollup_context g).
Local Abbreviation M := (ST St GenError.t).
Local Abbreviation call m := (st_map_err GenError.State m).

(** The error of [get_tx_type] is a [TransactionError], or the [expect] fails. *)
Definition downcast_tx {A} (m : ST St AnyError A) : M A := λ st,
  match m st with
  | (Ok a, st) => (Ok a, st)
  | (Err (AnyTx e), st) => (Err (GenError.Transaction e), st)
  | (Err (AnyOther _), st) | (Panic, st) => (Panic, st)
  end.

Definition check_polyjuice (polyjuice_creator_id : option Z) (raw_tx : RawL2Transaction)
    (tx : RawL2Transaction) : outcome GenError.t unit :=
  let fail e := GenError.Transaction e in
  p ← ok_or (fail TransactionError.IntrinsicGas) (PolyjuiceTx_parser tx);
  intrinsic_gas ← ok_or (fail TransactionError.IntrinsicGas) (PolyjuiceTx_intrinsic_gas tx);
  reject_if (PolyjuiceParser.gas p <? intrinsic_gas) (fail TransactionError.IntrinsicGas) ;;
  if PolyjuiceParser.is_native_transfer p then
    match polyjuice_creator_id with
    | None => Err (fail TransactionError.PolyjuiceCreatorIdNotFound)
    | Some id => reject_if (negb (tx_to_id raw_tx =? id))
                   (fail (TransactionError.NativeTransferInvalidToId (tx_to_id raw_tx)))
    end
  else Ok tt.

(** [TransactionVerifier::verify] *)
Definition verify_transaction (polyjuice_creator_id : option Z) (tx : L2Transaction)
    (block_number : Z) : M unit :=
  let raw_tx := tx_raw tx in
  let sender_id := tx_from_id raw_tx in
  let fail e := GenError.Transaction e in
  let tx_size := Z.of_nat (length (enc_L2Transaction tx)) in
  lift (reject_if (MAX_TX_SIZE <? tx_size)
          (fail (TransactionError.ExceededMaxTxSize MAX_TX_SIZE tx_size))) ;;
  account_nonce ← call (get_nonce sender_id);
  lift (reject_if (negb (tx_nonce raw_tx =? account_nonce))
          (fail (TransactionError.Nonce sender_id account_nonce (tx_nonce raw_tx)))) ;;
  sender_script_hash ← call (get_script_hash sender_id);
  a ← call (get_registry_address_by_script_hash ETH_REGISTRY_ACCOUNT_ID sender_script_hash);
  sender_address ← lift (ok_or (GenError.Account RegistryAddressNotFound) a);
  balance ← call (get_sudt_balance CKB_SUDT_ACCOUNT_ID sender_address);
  tx_type ← downcast_tx (get_tx_type g raw_tx);
  typed_tx ← lift (ok_or (GenError.Account UnknownScript) (TypedRawTransaction_from_tx raw_tx tx_type));
  tx_cost ← lift (ok_or (fail TransactionError.NoCost) (TypedRawTransaction_cost typed_tx));
  lift (reject_if (balance <? tx_cost) (fail TransactionError.InsufficientBalance)) ;;
  match typed_tx with
  | TypedPolyjuice tx => lift (check_polyjuice polyjuice_creator_id raw_tx tx)
  | _ => mret tt
  end.

(** [WithdrawalVerifier::verify] *)
Definition verify_withdrawal_request (withdrawal : WithdrawalRequestExtra)
    (asset_script : option Script) (block_number : Z) : M unit :=
  let fail e := GenError.Withdrawal e in
  let withdrawal_size := Z.of_nat (length (enc_WithdrawalRequestExtra withdrawal)) in
  lift (reject_if (MAX_WITHDRAWAL_SIZE <? withdrawal_size)
          (fail (WithdrawalError.ExceededMaxWithdrawalSize MAX_WITHDRAWAL_SIZE withdrawal_size))) ;;
  let raw := w_raw (we_request withdrawal) in
  a ← call (get_registry_address_by_script_hash (w_registry_id raw) (w_account_script_hash raw));
  registry_address ← lift (ok_or (GenError.Account UnknownAccount) a);
  lift (map_err WithdrawalCellError_into
          (build_withdrawal_cell_output ctx withdrawal (le_bytes 32 1) (BlockNumber 1) asset_script)) ;;
  o ← call (get_account_id_by_script_hash (w_account_script_hash raw));
  id ← lift (ok_or (GenError.Account UnknownAccount) o);
  expected_nonce ← call (get_nonce id);
  lift (reject_if (negb (w_nonce raw =? expected_nonce))
          (fail (WithdrawalError.Nonce expected_nonce (w_nonce raw)))) ;;
  ckb_balance ← call (get_sudt_balance CKB_SUDT_ACCOUNT_ID registry_address);
  let required_ckb_capacity :=
    saturating_add 256 (CKBCapacity_to_layer2 (CKBCapacity_from_layer1 (w_capacity raw))) (w_fee raw) in
  lift (reject_if (ckb_balance <? required_ckb_capacity) (fail WithdrawalError.Overdraft)) ;;
  o ← call (get_account_id_by_script_hash (script_hash (l2_sudt_script ctx (w_sudt_script_hash raw))));
  sudt_id ← lift (ok_or (GenError.Account UnknownSUDT) o);
  if negb (sudt_id =? CKB_SUDT_ACCOUNT_ID) then
    lift (reject_if (w_amount raw =? 0) (fail WithdrawalError.NonPositiveSUDTAmount)) ;;
    balance ← call (get_sudt_balance sudt_id registry_address);
    lift (reject_if (balance <? w_amount raw) (fail WithdrawalError.Overdraft))
  else
    lift (reject_if (negb (w_amount raw =? 0)) (fail WithdrawalError.WithdrawFakedCKB)).
End Verifiers.

(** ** The withdrawal cell can be read back *)

(** What the molecule readers and builders of the lock arguments guarantee: they
    invert each other, and a table is never empty. *)
Class WithdrawalCodecLaws `{Molecule} : Prop := {
  dec_enc_WithdrawalLockArgs a :
    u64 (wl_withdrawal_finalized_timepoint a) → length (wl_withdrawal_block_hash a) = 32%nat →
    length (wl_account_script_hash a) = 32%nat → length (wl_owner_lock_hash a) = 32%nat →
    dec_WithdrawalLockArgs (enc_WithdrawalLockArgs a) = Some a;
  dec_enc_Script s : dec_Script (enc_Script s) = Some s;
  enc_Script_nonempty s : (0 < length (enc_Script s))%nat;
}.

Section ReadBack.
Context `{Blake2b, Molecule, !WithdrawalCodecLaws}.
Context (rollup : H256) (a : WithdrawalLockArgs) (owner : Script).
Context (Hrollup : length rollup = 32%nat) (Ht : u64 (wl_withdrawal_finalized_timepoint a)).
Context (Hb : length (wl_withdrawal_block_hash a) = 32%nat).
Context (Ha : length (wl_account_script_hash a) = 32%nat) (Ho : length (wl_owner_lock_hash a) = 32%nat).
Context (Howner : script_hash owner = wl_owner_lock_hash a).
Context (Hs : Z.of_nat (length (enc_Script owner)) < 2 ^ 32).
Local Abbreviation len := (be_bytes 4 (Z.of_nat (length (enc_Script owner)) mod 2 ^ 32)).
Local Abbreviation lock_args := (rollup ++ enc_WithdrawalLockArgs a ++ len ++ enc_Script owner).

Lemma enc_WithdrawalLockArgs_length : length (enc_WithdrawalLockArgs a) = 104%nat.
Proof. unfold enc_WithdrawalLockArgs. rewrite !length_app, le_bytes_length. lia. Qed.

Lemma lock_args_length : length lock_args = (140 + length (enc_Script owner))%nat.
Proof.
  rewrite !length_app, enc_WithdrawalLockArgs_length, be_bytes_length. lia.
Qed.

Lemma lock_args_parts :
  sub_bytes 0 32 lock_args = rollup ∧ sub_bytes 32 104 lock_args = enc_WithdrawalLockArgs a ∧
  be_val (sub_bytes 136 4 lock_args) = Z.of_nat (length (enc_Script owner)) ∧
  sub_bytes 140 (length (enc_Script owner)) lock_args = enc_Script owner.
Proof.
  pose proof enc_WithdrawalLockArgs_length as Hl.
  split; [by apply sub_bytes_app_l|]. split; [|split].
  - rewrite sub_bytes_app_r, Hrollup by lia. by apply sub_bytes_app_l.
  - rewrite sub_bytes_app_r, Hrollup by lia. rewrite sub_bytes_app_r, Hl by lia.
    rewrite sub_bytes_app_l by apply be_bytes_length. rewrite Z.mod_small by lia.
    apply be_val_bytes_small. lia.
  - rewrite sub_bytes_app_r, Hrollup by lia. rewrite sub_bytes_app_r, Hl by lia.
    rewrite sub_bytes_app_r by (rewrite be_bytes_length; lia). rewrite be_bytes_length.
    by apply sub_bytes_all.
Qed.

Lemma parse_built_args :
  parse_withdrawal_lock_args lock_args = Ok (a, owner) ∧
  parse_lock_args lock_args = Ok (mkParsedWithdrawalLockArgs rollup a owner).
Proof.
  destruct lock_args_parts as (E1 & E2 & E3 & E4). pose proof lock_args_length as Hl.
  pose proof (enc_Script_nonempty owner) as Hpos.
  assert (Hdec : dec_WithdrawalLockArgs (enc_WithdrawalLockArgs a) = Some a)
    by (by apply dec_enc_WithdrawalLockArgs).
  assert (Hown : negb (bool_decide (script_hash owner = wl_owner_lock_hash a)) = false)
    by (by rewrite bool_decide_true).
  unfold parse_withdrawal_lock_args, parse_lock_args, WithdrawalLockArgs_TOTAL_SIZE. cbv zeta.
  rewrite Hl. change (32 + 104)%nat with 136%nat. change (136 + 4)%nat with 140%nat. rewrite !(proj2 (Nat.ltb_ge _ _)) by lia.
  rewrite !(proj2 (Nat.leb_gt _ _)) by lia.
  rewrite !slice_within by (rewrite ?Hl; lia). cbn [mbind outcome_bind].
  change (32 - 0)%nat with 32%nat. change (136 - 32)%nat with 104%nat. change (140 - 136)%nat with 4%nat.
  rewrite E1, E2, Hdec. cbn [ok_or mbind outcome_bind]. rewrite E3, Nat2Z.id.
  rewrite Nat.eqb_refl. cbn [negb]. rewrite !slice_within by (rewrite ?Hl; lia).
  cbn [mbind outcome_bind]. replace (140 + length (enc_Script owner) - 140)%nat with (length (enc_Script owner)) by lia.
  rewrite E4, dec_enc_Script. cbn [ok_or mbind outcome_bind]. by rewrite Hown.
Qed.
End ReadBack.

(** The withdrawal cell the node builds is one the scripts can read: its
    lock arguments parse, on chain ([parse_withdrawal_lock_args]) and in the node
    ([parse_lock_args]), to the rollup, the account, the block and the timepoint
    they were built from and to the owner lock of the request; the cell holds the
    requested capacity, at least the minimum CKB asks for, and the amount. *)
Theorem withdrawal_cell_reads_back `{Blake2b, Molecule, !WithdrawalCodecLaws, CkbTypes}
    (ctx : RollupContext) (req : WithdrawalRequestExtra) (block_hash : H256) (t : Timepoint)
    (asset : option Script) (output : CellOutput) (data : bytes) :
  let raw := w_raw (we_request req) in
  let lock_args := mkWithdrawalLockArgs block_hash (Timepoint_full_value t)
                     (w_account_script_hash raw) (w_owner_lock_hash raw) in
  length (rollup_script_hash ctx) = 32%nat → length block_hash = 32%nat →
  length (w_account_script_hash raw) = 32%nat → length (w_owner_lock_hash raw) = 32%nat →
  u64 (Timepoint_full_value t) → Z.of_nat (length (enc_Script (we_owner_lock req))) < 2 ^ 32 →
  build_withdrawal_cell_output ctx req block_hash t asset = Ok (output, data) →
  parse_withdrawal_lock_args (args (co_lock output)) = Ok (lock_args, we_owner_lock req) ∧
  parse_lock_args (args (co_lock output))
    = Ok (mkParsedWithdrawalLockArgs (rollup_script_hash ctx) lock_args (we_owner_lock req)) ∧
  co_capacity output = w_capacity raw ∧
  (∃ min, occupied_capacity output (length data) = Some min ∧ min ≤ w_capacity raw) ∧
  co_type output = asset ∧ data = match asset with Some _ => le_bytes 16 (w_amount raw) | None => [] end.
Proof.
  intros raw lock_args Hr Hb Ha Ho Ht Hs Hrun. unfold build_withdrawal_cell_output in Hrun.
  fold raw lock_args in Hrun. cbv zeta in Hrun. inv_ok. bool_inv.
  destruct (occupied_capacity _ _) as [min|] eqn:Hmin; [|done].
  destruct (Z.ltb_spec (w_capacity raw) min); [done|]. inv_ok. simplify_eq.
  cbn [co_lock args].
  destruct (parse_built_args (rollup_script_hash ctx) lock_args (we_owner_lock req)) as [E1 E2];
    [done..|]. split; [exact E1|]. split; [exact E2|]. split; [done|]. split; [by exists min|]. by destruct asset.
Qed.

(** ** A verified transaction can pay for its failure *)
Section Pay.
Context `{Blake2b, Molecule, ExtraCodec, CkbTypes, SmtRoot} {S : Type} `{StateView S, MapIter}.
Context `{ContractArgsLaws} (g : Generator).
Implicit Types (db : StateDB S) (rs : RefState).

(** The fee of a failure is within the cost, provided a polyjuice contract does
    not report more gas than the transaction allows. *)
Definition gas_within (raw_tx : RawL2Transaction) (system : list LogItem) : Prop :=
  ∀ log p gas, system = [log] → PolyjuiceTx_parser raw_tx = Some p →
    read_polyjuice_gas_used (E:=AnyError) log = Ok (Some gas) → gas ≤ PolyjuiceParser.gas p.

Lemma failure_fee_within_cost raw_tx ty typed fee system cost :
  TypedRawTransaction_from_tx raw_tx ty = Some typed → TypedRawTransaction_cost typed = Some cost →
  failure_fee raw_tx typed fee system → gas_within raw_tx system → fee ≤ cost.
Proof.
  intros Hty Hcost Hfee Hgas. destruct (cost_covers_consumed typed cost Hcost) as (n & Hn & Hle).
  destruct typed as [tx|tx|tx|tx]; cbn [failure_fee builtin_consumed] in *;
    [destruct Hfee; simplify_eq; lia..|].
  destruct Hfee as (p & used & log & Hp & Hread & -> & -> & _).
  assert (tx = raw_tx) as ->.
  { unfold TypedRawTransaction_from_tx in Hty. by destruct ty; simplify_eq. }
  rewrite Hp in Hn. cbn [mbind option_bind] in Hn. apply checked_mul_Some in Hn as [-> _].
  pose proof (polyjuice_gas_price_range p) as Hpr. unfold in_width in Hpr.
  destruct used as [gas|]; cbn [default from_option]; unfold id; [|lia].
  specialize (Hgas log p gas eq_refl Hp Hread). nia.
Qed.

Lemma downcast_tx_Ok {A} (m : ST (StateDB S) AnyError A) db a db' :
  downcast_tx m db = (Ok a, db') → m db = (Ok a, db').
Proof. unfold downcast_tx. intros. by repeat case_match; simplify_eq. Qed.

(** Run the next trait call of a successful run on the reference state. *)
Local Ltac ref_call Hrun HR :=
  let Hop := fresh "Hop" in
  apply st_bind_Ok in Hrun as (? & ? & Hop & Hrun);
  eapply (db_call (db_rel_logs _)) in Hop as (? & Hop & ?); [|eauto with gw typeclass_instances|exact HR];
  clear HR; rename select (db_rel_logs _ _ _) into HR.

(** What a verified transaction has shown. *)
Lemma verify_transaction_Ok creator tx number db rs db' :
  db_rel db rs → verify_transaction g creator tx number db = (Ok tt, db') →
  nonce_at rs (tx_from_id (tx_raw tx)) = tx_nonce (tx_raw tx) ∧
  ∃ payer ty typed cost bal rs1,
    get_registry_address_by_script_hash ETH_REGISTRY_ACCOUNT_ID
      (script_hash_at rs (tx_from_id (tx_raw tx))) rs = (Ok (Some payer), rs) ∧
    TypedRawTransaction_from_tx (tx_raw tx) ty = Some typed ∧
    TypedRawTransaction_cost typed = Some cost ∧
    get_sudt_balance CKB_SUDT_ACCOUNT_ID payer rs = (Ok bal, rs1) ∧ cost ≤ bal.
Proof.
  intros HR0 Hrun. assert (HR : db_rel_logs (appended_logs db) db rs) by done. clear HR0.
  unfold verify_transaction in Hrun. cbv zeta in Hrun.
  apply st_bind_Ok in Hrun as ([] & db0 & Hsize & Hrun). apply lift_Ok in Hsize as [_ <-].
  ref_call Hrun HR. rewrite get_nonce_run in Hop. injection Hop as <- <-.
  apply st_bind_Ok in Hrun as ([] & db1 & Hn & Hrun). apply lift_Ok in Hn as [Hn <-].
  apply reject_if_Ok, negb_false_iff, Z.eqb_eq in Hn. split; [done|].
  ref_call Hrun HR. rewrite get_script_hash_run in Hop. injection Hop as <- <-.
  ref_call Hrun HR. pose proof Hop as Hreg. rewrite get_registry_address_run in Hop.
  injection Hop as _ <-.
  apply st_bind_Ok in Hrun as (payer & db2 & Hp & Hrun).
  apply lift_Ok in Hp as [->%ok_or_Ok <-].
  ref_call Hrun HR. inv_ok. bool_inv. eexists payer, _, _, _, _, _. repeat (split; [eassumption|]).
  done.
Qed.
End Pay.

(** A transaction that passed verification can pay for its failure: it
    carries the sender's nonce, and whatever fee [handle_failed_transaction] may
    ask for it (a polyjuice contract reporting no more gas than the limit), on a
    state whose CKB is backed the sender's balance covers it and the burn
    succeeds. *)
Theorem verified_transaction_can_pay `{Blake2b, Molecule, ExtraCodec, CkbTypes, SmtRoot} {S : Type}
    `{StateView S, MapIter} `{ContractArgsLaws} (g : Generator) (creator : option Z)
    (tx : L2Transaction) (number : Z) (holders : list RegistryAddress) (db db' : StateDB S)
    (rs : RefState) :
  holders_ok CKB_SUDT_ACCOUNT_ID holders → sudt_backed CKB_SUDT_ACCOUNT_ID holders rs →
  db_rel db rs → verify_transaction g creator tx number db = (Ok tt, db') →
  nonce_at rs (tx_from_id (tx_raw tx)) = tx_nonce (tx_raw tx) ∧
  ∃ payer typed,
    get_registry_address_by_script_hash ETH_REGISTRY_ACCOUNT_ID
      (script_hash_at rs (tx_from_id (tx_raw tx))) rs = (Ok (Some payer), rs) ∧
    (∃ ty, TypedRawTransaction_from_tx (tx_raw tx) ty = Some typed) ∧
    ∀ fee system, payer ∈ holders → failure_fee (tx_raw tx) typed fee system →
      gas_within (tx_raw tx) system →
      ∃ rs1, burn_sudt CKB_SUDT_ACCOUNT_ID payer fee rs = (Ok tt, rs1).
Proof.
  intros Hok Hb HR Hrun. apply (verify_transaction_Ok g _ _ _ _ rs) in Hrun
    as (Hn & payer & ty & typed & cost & bal & rs1 & Hreg & Hty & Hcost & Hbal & Hle); [|done].
  split; [done|]. exists payer, typed. split; [done|]. split; [by exists ty|].
  intros fee system Hin Hfee Hgas. destruct (holders_elim _ _ _ Hok Hin) as (Hwf & _).
  rewrite get_sudt_balance_run in Hbal by done. injection Hbal as <- _.
  pose proof (failure_fee_within_cost _ _ _ _ _ _ Hty Hcost Hfee Hgas).
  rewrite (burn_sudt_backed_run _ holders) by done.
  rewrite (proj2 (Z.leb_le _ _)) by lia. by eexists.
Qed.

(** ** A verified withdrawal can be applied *)
Section PayAndBurn.
Context `{Blake2b, SmtRoot} (id : Z) (holders : list RegistryAddress).
Context (Hok : holders_ok id holders).
Implicit Types rs : RefState.

Lemma balance_after_burn addr n rs rs' :
  addr ∈ holders → sudt_backed id holders rs → 0 ≤ n → burn_sudt id addr n rs = (Ok tt, rs') →
  balance rs' id addr = balance rs id addr - n ∧ supply rs' id = supply rs id - n.
Proof.
  intros Ha Hb Hn Hrun. rewrite (burn_sudt_backed_run _ holders) in Hrun by done.
  destruct (Z.leb_spec n (balance rs id addr)); [|done]. injection Hrun as <-.
  pose proof (balance_range rs id addr) as []. pose proof (supply_range rs id) as [].
  pose proof (backed_balance_le _ _ _ _ Hb Ha). destruct Hok as (Hid & _ & _ & Hh).
  rewrite balance_set_supply by exact (balance_key_ne_supply _ holders _ Hid Hh Ha).
  rewrite balance_set_balance, supply_set_supply by (unfold in_width; lia). done.
Qed.

Lemma mint_runs addr n rs :
  addr ∈ holders → sudt_backed id holders rs → 0 ≤ n → supply rs id + n < 2 ^ 256 →
  ∃ rs', mint_sudt id addr n rs = (Ok tt, rs') ∧
    ∀ a, a ∈ holders → balance rs id a ≤ balance rs' id a.
Proof.
  intros Ha Hb Hn Hlt. destruct (holders_elim _ _ _ Hok Ha) as (Hwf & Hid & Hh).
  pose proof (backed_balance_le _ _ _ _ Hb Ha). pose proof (balance_range rs id addr) as [].
  rewrite mint_sudt_run by done. rewrite !(proj2 (Z.ltb_lt _ _)) by lia. eexists. split; [done|].
  intros a Ha'. destruct Hok as (_ & _ & Hwfs & Hh'). rewrite Forall_forall in Hwfs.
  rewrite balance_set_supply by exact (balance_key_ne_supply _ holders _ Hid Hh' Ha').
  destruct (decide (a = addr)) as [->|Hne].
  - rewrite balance_set_balance by (unfold in_width; lia). lia.
  - rewrite balance_set_balance_ne; [done|].
    apply (balance_key_inj id holders); auto.
Qed.

(** Paying a fee to the producer and burning an amount. *)
Lemma pay_and_burn addr producer fee n rs :
  addr ∈ holders → producer ∈ holders → sudt_backed id holders rs → 0 ≤ fee → 0 ≤ n →
  fee + n ≤ balance rs id addr →
  ∃ s1 s2 s3, burn_sudt id addr fee rs = (Ok tt, s1) ∧ mint_sudt id producer fee s1 = (Ok tt, s2) ∧
    burn_sudt id addr n s2 = (Ok tt, s3).
Proof.
  intros Ha Hp Hb Hf Hn Hle. pose proof (supply_range rs id) as [].
  assert (∃ s1, burn_sudt id addr fee rs = (Ok tt, s1)) as [s1 E1].
  { rewrite (burn_sudt_backed_run _ holders) by done. rewrite (proj2 (Z.leb_le _ _)) by lia. by eexists. }
  destruct (balance_after_burn _ _ _ _ Ha Hb Hf E1) as [Eb1 Es1].
  pose proof (burn_sudt_backed _ _ _ _ _ _ Hok Ha Hf Hb E1) as Hb1.
  destruct (mint_runs producer fee s1) as (s2 & E2 & Hmono); [done..|lia|].
  pose proof (mint_sudt_backed _ _ _ _ _ _ Hok Hp Hf Hb1 E2) as Hb2.
  specialize (Hmono addr Ha). exists s1, s2. eexists. split; [done|]. split; [done|].
  rewrite (burn_sudt_backed_run _ holders) by done. by rewrite (proj2 (Z.leb_le _ _)) by lia.
Qed.
End PayAndBurn.

Lemma get_sudt_balance_same `{Blake2b, SmtRoot} id a (rs rs' : RefState) b :
  get_sudt_balance id a rs = (Ok b, rs') → rs' = rs.
Proof.
  unfold get_sudt_balance, get_value. intros Hrun. inv_ok.
  rename select (get_raw _ _ = _) into Hg. by injection Hg as _ <-.
Qed.

Section Apply.
Context `{Blake2b, Molecule, ExtraCodec, CkbTypes, SmtRoot} {S : Type} `{StateView S, MapIter}.
Context (g : Generator).
Implicit Types (db : StateDB S) (rs : RefState).
Local Abbreviation ctx := (g_rollup_context g).
Local Abbreviation token_hash raw := (script_hash (l2_sudt_script ctx (w_sudt_script_hash raw))).

Local Ltac ref_call Hrun HR :=
  let Hop := fresh "Hop" in
  apply st_bind_Ok in Hrun as (? & ? & Hop & Hrun);
  eapply (db_call db_rel) in Hop as (? & Hop & ?); [|eauto with gw typeclass_instances|exact HR];
  clear HR; rename select (db_rel _ _) into HR.
Local Ltac pure_step Hrun Hp :=
  let a := fresh "a" in let db := fresh "db" in
  apply st_bind_Ok in Hrun as (a & db & Hp & Hrun); apply lift_Ok in Hp as [Hp <-].

(** The sender can pay for the withdrawal: its fee, the capacity and the amount. *)
Record withdrawal_verified (raw : RawWithdrawalRequest) rs (addr : RegistryAddress) (id sid : Z) : Prop := {
  wv_id : get_account_id_by_script_hash (w_account_script_hash raw) rs = (Ok (Some id), rs);
  wv_addr : get_registry_address_by_script_hash (w_registry_id raw) (w_account_script_hash raw) rs
            = (Ok (Some addr), rs);
  wv_nonce : nonce_at rs id = w_nonce raw;
  wv_ckb : RegistryAddress_wf addr →
    saturating_add 256 (CKBCapacity_to_layer2 (CKBCapacity_from_layer1 (w_capacity raw))) (w_fee raw)
      ≤ balance rs CKB_SUDT_ACCOUNT_ID addr;
  wv_token : account_id_of rs (token_hash raw) = Some sid;
  wv_amount : if sid =? CKB_SUDT_ACCOUNT_ID then w_amount raw = 0
              else RegistryAddress_wf addr → w_amount raw ≤ balance rs sid addr;
}.

Lemma verify_withdrawal_request_Ok withdrawal asset number db rs db' :
  db_rel db rs → verify_withdrawal_request g withdrawal asset number db = (Ok tt, db') →
  ∃ addr id sid, withdrawal_verified (w_raw (we_request withdrawal)) rs addr id sid.
Proof.
  intros HR Hrun. unfold verify_withdrawal_request in Hrun. cbv zeta in Hrun. pure_step Hrun Hsize.
  ref_call Hrun HR. pose proof Hop as Ha. rewrite get_registry_address_run in Hop. injection Hop as _ <-.
  pure_step Hrun Haddr. apply ok_or_Ok in Haddr as ->. pure_step Hrun Hcell.
  ref_call Hrun HR. pose proof Hop as Hid. rewrite get_account_id_run in Hop. injection Hop as _ <-.
  pure_step Hrun Hid'. apply ok_or_Ok in Hid' as ->.
  ref_call Hrun HR. rewrite get_nonce_run in Hop. injection Hop as <- <-. pure_step Hrun Hn.
  apply reject_if_Ok, negb_false_iff, Z.eqb_eq in Hn.
  ref_call Hrun HR. rename Hop into Hbal. pure_step Hrun Hle. apply reject_if_Ok, Z.ltb_ge in Hle.
  pose proof (get_sudt_balance_same _ _ _ _ _ Hbal) as ->.
  ref_call Hrun HR. rewrite get_account_id_run in Hop. injection Hop as Ht <-.
  pure_step Hrun Hsid. apply ok_or_Ok in Hsid. subst.
  match goal with Ht : account_id_of _ _ = Some ?s |- _ => rename Ht into Htok; rename s into sid end.
  eexists _, _, sid. split; try done.
  - intros Hwf. rewrite get_sudt_balance_run in Hbal by done. by injection Hbal as <-.
  - destruct (Z.eqb_spec sid CKB_SUDT_ACCOUNT_ID) as [_|Hne]; cbn [negb] in Hrun.
    + apply lift_Ok in Hrun as [Hrun _]. by apply reject_if_Ok, negb_false_iff, Z.eqb_eq in Hrun.
    + pure_step Hrun Hpos. ref_call Hrun HR. apply lift_Ok in Hrun as [Hrun _].
      apply reject_if_Ok, Z.ltb_ge in Hrun. intros Hwf. rewrite get_sudt_balance_run in Hop by done.
      injection Hop as <- _. done.
Qed.

(** The widths the molecule fields have. *)
Definition withdrawal_widths (raw : RawWithdrawalRequest) : Prop :=
  u64 (w_capacity raw) ∧ u128 (w_fee raw) ∧ u128 (w_amount raw) ∧ u32 (w_nonce raw).

(** Running the CKB part of a withdrawal keeps the keys apart from it. *)
Lemma ckb_part_keeps addr producer fee cap rs s1 s2 s3 k :
  apart_from_token k CKB_SUDT_ACCOUNT_ID addr → apart_from_token k CKB_SUDT_ACCOUNT_ID producer →
  burn_sudt CKB_SUDT_ACCOUNT_ID addr fee rs = (Ok tt, s1) →
  mint_sudt CKB_SUDT_ACCOUNT_ID producer fee s1 = (Ok tt, s2) →
  burn_sudt CKB_SUDT_ACCOUNT_ID addr cap s2 = (Ok tt, s3) →
  kv_get s3 k = kv_get rs k.
Proof.
  intros Ha Hp E1 E2 E3. apply (keeps_burn k) in E1; [|done]. apply (keeps_mint k) in E2; [|done].
  apply (keeps_burn k) in E3; [|done]. congruence.
Qed.

(** The keys of another token are apart from those of CKB. *)
Lemma other_token_apart parties scripts addrs sid key a :
  collision_free (hashed parties scripts addrs) →
  hashed parties scripts addrs (account_key_preimage sid key) →
  u32 sid → sid ≠ CKB_SUDT_ACCOUNT_ID → a ∈ addrs →
  apart_from_token (build_account_key sid key) CKB_SUDT_ACCOUNT_ID a.
Proof.
  intros Hcf Hk Hsid Hne Ha. split; (eapply collision_free_ne; [exact Hcf|exact Hk|by constructor|]);
    intros E; by apply account_key_preimage_inj in E as [? _].
Qed.

(** Burning the token after the CKB part. *)
Lemma burn_token parties scripts addrs sid addr producer fee cap amount rs s1 s2 s3 holders :
  collision_free (hashed parties scripts addrs) → addr ∈ addrs → producer ∈ addrs →
  u32 sid → sid ≠ CKB_SUDT_ACCOUNT_ID → holders_ok sid holders → addr ∈ holders →
  sudt_backed sid holders rs → amount ≤ balance rs sid addr →
  burn_sudt CKB_SUDT_ACCOUNT_ID addr fee rs = (Ok tt, s1) →
  mint_sudt CKB_SUDT_ACCOUNT_ID producer fee s1 = (Ok tt, s2) →
  burn_sudt CKB_SUDT_ACCOUNT_ID addr cap s2 = (Ok tt, s3) →
  ∃ s4, burn_sudt sid addr amount s3 = (Ok tt, s4).
Proof.
  intros Hcf Ha' Hp' Hsid Hne Hok Ha Hb Hle E1 E2 E3.
  assert (Hkeep : ∀ key, hashed parties scripts addrs (account_key_preimage sid key) →
    kv_get s3 (build_account_key sid key) = kv_get rs (build_account_key sid key)).
  { intros key Hk. eapply (ckb_part_keeps addr producer); [by eapply other_token_apart..|done|done|done]. }
  destruct (holders_elim _ _ _ Hok Ha) as (Hwf & _ & Hh).
  pose proof (backed_balance_le _ _ _ _ Hb Ha) as Hsup.
  unfold balance, supply, balance_key, supply_key in *. rewrite <- !Hkeep in * by (by constructor).
  eexists. rewrite burn_sudt_run by done. unfold balance, supply, balance_key, supply_key.
  rewrite !(proj2 (Z.leb_le _ _)) by lia. reflexivity.
Qed.

(** The steps the script would take, from what was verified. *)
Lemma verified_steps producer request holders rs addr id sid :
  let raw := w_raw request in
  collision_free (withdrawals_hashed ctx producer [request] rs) →
  tokens_ok ctx [w_sudt_script_hash raw] rs → withdrawal_widths raw →
  holders_ok CKB_SUDT_ACCOUNT_ID holders → sudt_backed CKB_SUDT_ACCOUNT_ID holders rs →
  withdrawal_verified raw rs addr id sid →
  addr ∈ holders → holders_ok sid holders → sudt_backed sid holders rs → producer ∈ holders →
  ∃ s1 s2 s3 s4 rs', withdrawal_steps ctx producer raw rs s1 s2 s3 s4 rs' id addr.
Proof.
  intros raw Hcf Htok (Hcap & Hfee & Hamt & _) Hok Hb [Hid Haddr Hn Hckb Ht Ham] Ha Hoks Hbs Hprod.
  unfold withdrawals_hashed in Hcf. fold raw in Hid, Haddr, Hn, Hckb, Ht, Ham.
  set (addrs := producer :: _) in Hcf.
  assert (Hprod' : producer ∈ addrs) by left.
  assert (Haddr' : addr ∈ addrs).
  { right. apply list_elem_of_omap. exists (withdrawer raw). split; [left|].
    by apply registry_address_run_at. }
  destruct (holders_elim _ _ _ Hok Ha) as (Hwf & _ & _). specialize (Hckb Hwf).
  unfold CKBCapacity_to_layer2, CKBCapacity_from_layer1, saturating_add, in_width in *.
  assert (0 ≤ w_capacity raw * CKB_DECIMAL_POWER_TEN < 2 ^ 128).
  { change CKB_DECIMAL_POWER_TEN with 10000000000. lia. }
  destruct (pay_and_burn CKB_SUDT_ACCOUNT_ID holders Hok addr producer (w_fee raw)
    (w_capacity raw * CKB_DECIMAL_POWER_TEN) rs) as (s1 & s2 & s3 & E1 & E2 & E3); [done..|lia|lia|lia|].
  assert (∃ s4, if bool_decide (w_sudt_script_hash raw = CKB_SUDT_SCRIPT_ARGS)
    then w_amount raw = 0 ∧ s4 = s3
    else ∃ sid, account_id_of s3 (script_hash (l2_sudt_script ctx (w_sudt_script_hash raw))) = Some sid
           ∧ burn_sudt sid addr (w_amount raw) s3 = (Ok tt, s4)) as [s4 Htoken].
  { specialize (Htok (w_sudt_script_hash raw) ltac:(left)). rewrite Ht in Htok. case_bool_decide as Eh.
    - exists s3. split; [|done]. apply Htok in Eh as [= ->]. done.
    - assert (sid ≠ CKB_SUDT_ACCOUNT_ID) by (intros ->; by apply Eh, Htok).
      rewrite (proj2 (Z.eqb_neq _ _)) in Ham by done. pose proof (account_id_range _ _ _ Ht) as Hsid.
      edestruct (burn_token _ _ _ sid addr producer (w_fee raw) (w_capacity raw * CKB_DECIMAL_POWER_TEN)
        (w_amount raw) rs s1 s2 s3 holders Hcf) as [s4 E4]; eauto.
      exists s4, sid. split; [|done]. unfold account_id_of in *.
      erewrite (ckb_part_keeps addr producer); [done| | |exact E1|exact E2|exact E3];
        (eapply script_key_apart; [exact Hcf|left|done|done]). }
  exists s1, s2, s3, s4. eexists. repeat (split; [eassumption|]). split; [|split; [eassumption|reflexivity]].
  unfold nonce_at in *. erewrite (ckb_part_keeps addr producer); [done| | |exact E1|exact E2|exact E3];
    (eapply nonce_key_apart; [exact Hcf|done|done]).
Qed.
End Apply.

(** C29. A withdrawal that passed verification can be applied: on a state whose
    CKB and token are backed, with the sender and the producer among the holders,
    the node's [apply_withdrawal_request] on the same state runs to the end
    without an error or a panic, and takes the fee, the capacity and the amount
    from the sender and raises its nonce.  Conditions: the nonce is not the last
    one, u32::MAX, where applying returns NonceOverflow ([last_nonce_diverges]); the token's script is account 1 exactly
    when it is that of layer-2 CKB; and the preimages of the keys the withdrawal
    and the holders' balances hash do not collide with each other or with an
    account field key. *)
Theorem verified_withdrawal_applies `{Blake2b, Molecule, ExtraCodec, CkbTypes, SmtRoot} {S : Type}
    `{StateView S, MapIter} (g : Generator) (withdrawal : WithdrawalRequestExtra)
    (asset : option Script) (number : Z) (producer : RegistryAddress)
    (holders : list RegistryAddress) (db db' : StateDB S) (rs : RefState) :
  let ctx := g_rollup_context g in
  let raw := w_raw (we_request withdrawal) in
  collision_free (withdrawals_hashed ctx producer [we_request withdrawal] rs) →
  tokens_ok ctx [w_sudt_script_hash raw] rs → withdrawal_widths raw → w_nonce raw ≠ u32_max →
  holders_ok CKB_SUDT_ACCOUNT_ID holders → sudt_backed CKB_SUDT_ACCOUNT_ID holders rs →
  (∀ addr sid,
     get_registry_address_by_script_hash (w_registry_id raw) (w_account_script_hash raw) rs
       = (Ok (Some addr), rs) →
     account_id_of rs (script_hash (l2_sudt_script ctx (w_sudt_script_hash raw))) = Some sid →
     addr ∈ holders ∧ holders_ok sid holders ∧ sudt_backed sid holders rs) →
  producer ∈ holders → db_rel db rs →
  verify_withdrawal_request g withdrawal asset number db = (Ok tt, db') →
  ∃ db1 receipt addr id s1 s2 s3 s4 rs',
    apply_withdrawal_request ctx producer (we_request withdrawal) db = (Ok receipt, db1) ∧
    db_rel db1 rs' ∧ withdrawal_steps ctx producer raw rs s1 s2 s3 s4 rs' id addr.
Proof.
  intros ctx raw Hcf Htok Hwd Hlast Hok Hb Hhold Hprod HR Hrun. unfold withdrawals_hashed in Hcf.
  apply (verify_withdrawal_request_Ok g _ _ _ _ rs) in Hrun as (addr & id & sid & Hv); [|done].
  fold raw in Hv. pose proof Hv as [_ Haddr _ _ Ht _].
  destruct (Hhold addr sid Haddr Ht) as (Ha & Hoks & Hbs).
  destruct (verified_steps g producer (we_request withdrawal) holders rs addr id sid)
    as (s1 & s2 & s3 & s4 & rs' & Hst); [done..|].
  edestruct (withdrawal_step_view ctx) as (Hap & [_ Htok3] & _);
    [exact Hcf| |left|left|by apply (withdrawals_view_start ctx producer [we_request withdrawal])|exact Hst|].
  { intros h ->%list_elem_of_singleton. left. }
  destruct (node_withdrawal ctx producer (we_request withdrawal) db rs s1 s2 s3 s4 rs' id addr)
    as (db1 & Erun & HR1 & _); [done..| |done|done|].
  { destruct Hwd as (_ & _ & _ & Hn). fold raw. unfold in_width, u32_max in *. lia. }
  by eexists db1, _, addr, id, s1, s2, s3, s4, rs'.
Qed.
