(* ===== verification/Store.v ===== *)
(** * The store: blocks, indices and merkle trees of the node

    Models [crates/store/src/transaction/store_transaction.rs] (writes),
    [crates/store/src/traits/chain_store.rs] (reads), [schema.rs], [chain_view.rs]
    and the types of [gwos/crates/types/src/offchain] they store.

    The database is a map from a column and a key to a value.  Values are
    molecule entities; a molecule entity is its bytes, so the model keeps the
    entity itself ([Entity]) and a read at the wrong type panics, as
    [from_slice_should_be_ok] does.  Keys and the values that are plain bytes
    (hashes, block numbers) are byte strings, laid out as in the code.

    The leaves of the two block trees are kept as maps; their branches belong to
    the library [sparse_merkle_tree], whose root is the parameter [SmtRoot].
    Database failures are not modelled: the code treats them as fatal. *)
From Stdlib Require Import ZArith Lia Strings.Byte.
From Stdlib Require Import (notations) String.
From stdpp Require Import prelude list gmap.
From S2P Require Import Prelude Bytes Types State StateSpec StateDB History Finality Ckb Eip712.
From S2P Require Import NodeState AccountLocks Syscalls Generator Verifiers.
Local Open Scope Z_scope.

(** ** Data *)
Record OutPoint := mkOutPoint { op_tx_hash : H256; op_index : Z }.
Record CellInput := mkCellInput { ci_since : Z; ci_previous_output : OutPoint }.
(** A layer-1 transaction; [l1_rest] holds the parts the node only copies
    (version, dependencies). *)
Record L1Transaction := mkL1Transaction {
  l1_inputs : list CellInput; l1_outputs : list CellOutput; l1_outputs_data : list bytes;
  l1_witnesses : list bytes; l1_rest : bytes;
}.
Record CellInfo := mkCellInfo {
  cell_out_point : OutPoint; cell_output : CellOutput; cell_data : bytes;
}.
Record DepositInfo := mkDepositInfo { di_request : DepositRequest; di_cell : CellInfo }.
Record FinalizedCustodianCapacity := mkFinalizedCustodianCapacity {
  fc_capacity : Z; fc_sudt : gmap H256 (Z * Script);
}.
Record NumberHash := mkNumberHash { nh_number : Z; nh_block_hash : H256 }.
(** [TransactionInfo] and [WithdrawalInfo] *)
Record ItemInfo := mkItemInfo { info_block_number : Z; info_key : bytes }.
Record SMTRevertedBlockHashes := mkRevertedHashes { rh_prev_smt_root : H256; rh_block_hashes : list H256 }.
Inductive BlockStatus := Confirmed | Submitted | Local.

Inductive Entity :=
| EBytes (bs : bytes)
| EBlock (b : L2Block)
| EGlobalState (g : GlobalState)
| ETransaction (tx : L2Transaction)
| EReceipt (r : TxReceipt)
| EWithdrawal (w : WithdrawalRequestExtra)
| EInfo (i : ItemInfo)
| EDeposits (ds : list DepositInfo)
| ECapacity (c : FinalizedCustodianCapacity)
| ENumberHash (nh : NumberHash)
| EScript (s : Script)
| ETarget (t : ChallengeTarget)
| EHashes (hs : list H256)
| EL1Transaction (tx : L1Transaction).

(** ** Columns and keys (schema.rs) *)
Definition COLUMN_META : Z := 0.
Definition COLUMN_INDEX : Z := 1.
Definition COLUMN_BLOCK : Z := 2.
Definition COLUMN_BAD_BLOCK : Z := 3.
Definition COLUMN_BLOCK_GLOBAL_STATE : Z := 4.
Definition COLUMN_TRANSACTION : Z := 5.
Definition COLUMN_TRANSACTION_RECEIPT : Z := 6.
Definition COLUMN_BLOCK_SUBMIT_TX_HASH : Z := 7.
Definition COLUMN_TRANSACTION_INFO : Z := 8.
Definition COLUMN_BLOCK_DEPOSIT_INFO_VEC : Z := 16.
Definition COLUMN_MEM_POOL_TRANSACTION_RECEIPT : Z := 17.
Definition COLUMN_BAD_BLOCK_CHALLENGE_TARGET : Z := 23.
Definition COLUMN_REVERTED_BLOCK_SMT_ROOT : Z := 24.
Definition COLUMN_ASSET_SCRIPT : Z := 25.
Definition COLUMN_MEM_POOL_TRANSACTION : Z := 26.
Definition COLUMN_MEM_POOL_WITHDRAWAL : Z := 27.
Definition COLUMN_WITHDRAWAL : Z := 33.
Definition COLUMN_WITHDRAWAL_INFO : Z := 34.
Definition COLUMN_BLOCK_SUBMIT_TX : Z := 35.
Definition COLUMN_BLOCK_POST_FINALIZED_CUSTODIAN_CAPACITY : Z := 36.

Definition META_CHAIN_ID_KEY : bytes := ascii "CHAIN_ID".
Definition META_TIP_BLOCK_HASH_KEY : bytes := ascii "TIP_BLOCK_HASH".
Definition META_BLOCK_SMT_ROOT_KEY : bytes := ascii "BLOCK_SMT_ROOT_KEY".
Definition META_REVERTED_BLOCK_SMT_ROOT_KEY : bytes :=
  ascii "REVERTED_BLOCK_SMT_ROOT_KEY".
Definition META_LAST_VALID_TIP_BLOCK_HASH_KEY : bytes :=
  ascii "LAST_VALID_TIP_BLOCK_HASH".
Definition META_LAST_CONFIRMED_BLOCK_NUMBER_HASH_KEY : bytes :=
  ascii "LAST_CONFIRMED_BLOCK_NUMBER".
Definition META_LAST_SUBMITTED_BLOCK_NUMBER_HASH_KEY : bytes :=
  ascii "LAST_SUBMITTED_BLOCK_NUMBER".

(** Encodings that only serve as preimages of hashes. *)
Class HashCodec := {
  enc_RawWithdrawalRequest : RawWithdrawalRequest → bytes;
  enc_RawTransaction : L1Transaction → bytes;
}.

(** [TransactionKey::build_transaction_key], [WithdrawalKey::build_withdrawal_key] *)
Definition build_item_key (block_hash : H256) (index : Z) : bytes := block_hash ++ be_bytes 4 index.

(** ** The database *)
Record StoreDb := mkStoreDb {
  sd_columns : gmap (Z * bytes) Entity;
  sd_block_leaves : gmap H256 H256;
  sd_reverted_leaves : gmap H256 H256;
  sd_account_tree : gmap H256 H256;
  sd_account_history : HistoryDb;
}.

Definition with_columns (f : gmap (Z * bytes) Entity → gmap (Z * bytes) Entity) (db : StoreDb) :
    StoreDb :=
  mkStoreDb (f (sd_columns db)) (sd_block_leaves db) (sd_reverted_leaves db) (sd_account_tree db)
    (sd_account_history db).
Definition with_block_leaves (l : gmap H256 H256) (db : StoreDb) : StoreDb :=
  mkStoreDb (sd_columns db) l (sd_reverted_leaves db) (sd_account_tree db) (sd_account_history db).
Definition with_reverted_leaves (l : gmap H256 H256) (db : StoreDb) : StoreDb :=
  mkStoreDb (sd_columns db) (sd_block_leaves db) l (sd_account_tree db) (sd_account_history db).
Definition with_account (tree : gmap H256 H256) (history : HistoryDb) (db : StoreDb) : StoreDb :=
  mkStoreDb (sd_columns db) (sd_block_leaves db) (sd_reverted_leaves db) tree history.

(** A sparse merkle tree has no leaf where the value is zero. *)
Definition leaf_put (k v : H256) (leaves : gmap H256 H256) : gmap H256 H256 :=
  if h256_is_zero v then delete k leaves else <[k := v]> leaves.

Inductive StoreError := UnexpectedPrevTxState | UnexpectedNoTxPostState | ForkedChain.

(** ** Reads and writes of one key *)
Section Access.
Context {E : Type}.
Local Abbreviation M := (ST StoreDb E).

Definition insert_raw (col : Z) (key : bytes) (value : Entity) : M unit :=
  modify (with_columns (insert (col, key) value)).
Definition delete_raw (col : Z) (key : bytes) : M unit :=
  modify (with_columns (delete (col, key))).

(** [self.get(col, key).map(|slice| T::from_slice_should_be_ok(slice))] *)
Definition get_as {A} (as_type : Entity → option A) (col : Z) (key : bytes) : M (option A) := λ db,
  (match sd_columns db !! (col, key) with
   | None => Ok None
   | Some e => match as_type e with Some a => Ok (Some a) | None => Panic end
   end, db).
(** [.expect(..)] *)
Definition st_unwrap {A} (m : M (option A)) : M A := o ← m; lift (unwrap o).

Definition as_bytes (e : Entity) : option bytes := match e with EBytes b => Some b | _ => None end.
Definition as_block (e : Entity) : option L2Block := match e with EBlock b => Some b | _ => None end.
Definition as_global_state (e : Entity) : option GlobalState :=
  match e with EGlobalState g => Some g | _ => None end.
Definition as_transaction (e : Entity) : option L2Transaction :=
  match e with ETransaction t => Some t | _ => None end.
Definition as_receipt (e : Entity) : option TxReceipt :=
  match e with EReceipt r => Some r | _ => None end.
Definition as_withdrawal (e : Entity) : option WithdrawalRequestExtra :=
  match e with EWithdrawal w => Some w | _ => None end.
Definition as_info (e : Entity) : option ItemInfo := match e with EInfo i => Some i | _ => None end.
Definition as_deposits (e : Entity) : option (list DepositInfo) :=
  match e with EDeposits d => Some d | _ => None end.
Definition as_capacity (e : Entity) : option FinalizedCustodianCapacity :=
  match e with ECapacity c => Some c | _ => None end.
Definition as_number_hash (e : Entity) : option NumberHash :=
  match e with ENumberHash n => Some n | _ => None end.
Definition as_script (e : Entity) : option Script := match e with EScript s => Some s | _ => None end.
Definition as_target (e : Entity) : option ChallengeTarget :=
  match e with ETarget t => Some t | _ => None end.
Definition as_hashes (e : Entity) : option (list H256) :=
  match e with EHashes h => Some h | _ => None end.
Definition as_l1_transaction (e : Entity) : option L1Transaction :=
  match e with EL1Transaction t => Some t | _ => None end.
End Access.

(** ** [ChainStore] (chain_store.rs) *)
Section ChainStore.
Context {E : Type}.
Local Abbreviation M := (ST StoreDb E).

Definition get_meta_hash (key : bytes) : M H256 := st_unwrap (get_as as_bytes COLUMN_META key).
Definition get_chain_id : M H256 := get_meta_hash META_CHAIN_ID_KEY.
Definition get_block_smt_root : M H256 := get_meta_hash META_BLOCK_SMT_ROOT_KEY.
Definition get_reverted_block_smt_root : M H256 := get_meta_hash META_REVERTED_BLOCK_SMT_ROOT_KEY.
Definition get_last_valid_tip_block_hash : M H256 :=
  get_meta_hash META_LAST_VALID_TIP_BLOCK_HASH_KEY.
Definition get_tip_block_hash : M H256 := get_meta_hash META_TIP_BLOCK_HASH_KEY.

Definition get_prev_reverted_block_smt_root (root : H256) : M (option H256) :=
  block_hashes ← get_as as_hashes COLUMN_REVERTED_BLOCK_SMT_ROOT root;
  mret (block_hashes ≫= head).

Definition get_block (block_hash : H256) : M (option L2Block) :=
  get_as as_block COLUMN_BLOCK block_hash.
Definition get_bad_block (block_hash : H256) : M (option L2Block) :=
  get_as as_block COLUMN_BAD_BLOCK block_hash.
Definition get_last_valid_tip_block : M L2Block :=
  block_hash ← get_last_valid_tip_block_hash; st_unwrap (get_block block_hash).
Definition get_tip_block : M L2Block :=
  tip_block_hash ← get_tip_block_hash;
  block ← get_block tip_block_hash;
  match block with
  | Some b => mret b
  | None => st_unwrap (get_bad_block tip_block_hash)
  end.

Definition get_last_confirmed_block_number_hash : M (option NumberHash) :=
  get_as as_number_hash COLUMN_META META_LAST_CONFIRMED_BLOCK_NUMBER_HASH_KEY.
Definition get_last_submitted_block_number_hash : M (option NumberHash) :=
  get_as as_number_hash COLUMN_META META_LAST_SUBMITTED_BLOCK_NUMBER_HASH_KEY.

(** [Some(n) <= o]: an absent number is below every number. *)
Definition at_most (n : Z) (nh : option NumberHash) : bool :=
  match nh with Some nh => n <=? nh_number nh | None => false end.
Definition get_block_status (block_number : Z) : M BlockStatus :=
  confirmed ← get_last_confirmed_block_number_hash;
  if at_most block_number confirmed then mret Confirmed
  else
    submitted ← get_last_submitted_block_number_hash;
    mret (if at_most block_number submitted then Submitted else Local).

Definition get_block_submit_tx (n : Z) : M (option L1Transaction) :=
  get_as as_l1_transaction COLUMN_BLOCK_SUBMIT_TX (be_bytes 8 n).
Definition get_block_submit_tx_hash (n : Z) : M (option H256) :=
  get_as as_bytes COLUMN_BLOCK_SUBMIT_TX_HASH (be_bytes 8 n).
Definition get_block_deposit_info_vec (n : Z) : M (option (list DepositInfo)) :=
  get_as as_deposits COLUMN_BLOCK_DEPOSIT_INFO_VEC (be_bytes 8 n).
Definition get_block_post_finalized_custodian_capacity (n : Z) :
    M (option FinalizedCustodianCapacity) :=
  get_as as_capacity COLUMN_BLOCK_POST_FINALIZED_CUSTODIAN_CAPACITY (be_bytes 8 n).

(** The index holds both directions; numbers are little endian. *)
Definition get_block_hash_by_number (n : Z) : M (option H256) :=
  get_as as_bytes COLUMN_INDEX (le_bytes 8 n).
Definition get_block_number (block_hash : H256) : M (option Z) :=
  raw ← get_as as_bytes COLUMN_INDEX block_hash; mret (le_val <$> raw).
Definition has_genesis : M bool :=
  genesis ← get_block_hash_by_number 0; mret (bool_decide (is_Some genesis)).

Definition get_transaction_info (tx_hash : H256) : M (option ItemInfo) :=
  get_as as_info COLUMN_TRANSACTION_INFO tx_hash.
Definition get_transaction_by_key (key : bytes) : M (option L2Transaction) :=
  get_as as_transaction COLUMN_TRANSACTION key.
Definition get_transaction_receipt_by_key (key : bytes) : M (option TxReceipt) :=
  get_as as_receipt COLUMN_TRANSACTION_RECEIPT key.
Definition get_withdrawal_info (withdrawal_hash : H256) : M (option ItemInfo) :=
  get_as as_info COLUMN_WITHDRAWAL_INFO withdrawal_hash.
Definition get_withdrawal_by_key (key : bytes) : M (option WithdrawalRequestExtra) :=
  get_as as_withdrawal COLUMN_WITHDRAWAL key.
Definition follow {A} (info : M (option ItemInfo)) (by_key : bytes → M (option A)) : M (option A) :=
  found ← info;
  match found with Some i => by_key (info_key i) | None => mret None end.
Definition get_transaction (tx_hash : H256) : M (option L2Transaction) :=
  follow (get_transaction_info tx_hash) get_transaction_by_key.
Definition get_transaction_receipt (tx_hash : H256) : M (option TxReceipt) :=
  follow (get_transaction_info tx_hash) get_transaction_receipt_by_key.
Definition get_withdrawal (withdrawal_hash : H256) : M (option WithdrawalRequestExtra) :=
  follow (get_withdrawal_info withdrawal_hash) get_withdrawal_by_key.

Definition get_block_post_global_state (block_hash : H256) : M (option GlobalState) :=
  get_as as_global_state COLUMN_BLOCK_GLOBAL_STATE block_hash.
Definition get_bad_block_challenge_target (block_hash : H256) : M (option ChallengeTarget) :=
  get_as as_target COLUMN_BAD_BLOCK_CHALLENGE_TARGET block_hash.

(** [v.swap(0, v.len() - 1)] *)
Definition swap_ends (v : list H256) : list H256 :=
  match v with
  | [] => []
  | x :: rest => match last rest with Some y => y :: removelast rest ++ [x] | None => v end
  end.
(** [swap(0, last)], then [pop] *)
Definition get_reverted_block_hashes_by_root (root : H256) : M (option SMTRevertedBlockHashes) :=
  found ← get_as as_hashes COLUMN_REVERTED_BLOCK_SMT_ROOT root;
  match found with
  | None => mret None
  | Some block_hashes =>
      let block_hashes := swap_ends block_hashes in
      prev_smt_root ← lift (unwrap (last block_hashes));
      mret (Some (mkRevertedHashes prev_smt_root (removelast block_hashes)))
  end.

Definition get_asset_script (h : H256) : M (option Script) := get_as as_script COLUMN_ASSET_SCRIPT h.
Definition get_mem_pool_transaction (tx_hash : H256) : M (option L2Transaction) :=
  get_as as_transaction COLUMN_MEM_POOL_TRANSACTION tx_hash.
Definition get_mem_pool_transaction_receipt (tx_hash : H256) : M (option TxReceipt) :=
  get_as as_receipt COLUMN_MEM_POOL_TRANSACTION_RECEIPT tx_hash.
Definition get_mem_pool_withdrawal (h : H256) : M (option WithdrawalRequestExtra) :=
  get_as as_withdrawal COLUMN_MEM_POOL_WITHDRAWAL h.
End ChainStore.

(** ** [ChainView] (chain_view.rs) *)
Definition MAX_BLOCK_HASHES_DEPTH : Z := 256.
Definition is_number_in_a_valid_range (tip_number n : Z) : bool :=
  (n <=? tip_number) && (saturating_sub tip_number MAX_BLOCK_HASHES_DEPTH <=? n).
Definition view_block_hash_by_number (tip_block_hash : H256) (n : Z) :
    ST StoreDb StoreError (option H256) :=
  tip ← get_block_number tip_block_hash;
  match tip with
  | Some tip_number =>
      if negb (is_number_in_a_valid_range tip_number n) then mret None
      else if tip_number =? n then mret (Some tip_block_hash)
      else get_block_hash_by_number n
  | None => lift (Err ForkedChain)
  end.

(** ** [StoreTransaction] (store_transaction.rs) *)
Section StoreTransaction.
Context `{Blake2b, Molecule, SyscallCodec, HashCodec, SmtRoot}.

Definition tx_hash (tx : L2Transaction) : H256 := blake2b (enc_RawL2Transaction (tx_raw tx)).
Definition withdrawal_hash (w : WithdrawalRequest) : H256 :=
  blake2b (enc_RawWithdrawalRequest (w_raw w)).
Definition l1_hash (tx : L1Transaction) : H256 := blake2b (enc_RawTransaction tx).
Definition block_hash (b : L2Block) : H256 := raw_block_hash (block_raw b).
Definition block_number (b : L2Block) : Z := number (block_raw b).
Definition smt_key (b : L2Block) : H256 := compute_smt_key (block_number b).

Section Writes.
Context {E : Type}.
Local Abbreviation M := (ST StoreDb E).

Definition set_meta_hash (key : bytes) (h : H256) : M unit := insert_raw COLUMN_META key (EBytes h).
Definition setup_chain_id : H256 → M unit := set_meta_hash META_CHAIN_ID_KEY.
Definition set_block_smt_root : H256 → M unit := set_meta_hash META_BLOCK_SMT_ROOT_KEY.
Definition set_reverted_block_smt_root : H256 → M unit :=
  set_meta_hash META_REVERTED_BLOCK_SMT_ROOT_KEY.
Definition set_tip_block_hash : H256 → M unit := set_meta_hash META_TIP_BLOCK_HASH_KEY.
Definition set_last_valid_tip_block_hash : H256 → M unit :=
  set_meta_hash META_LAST_VALID_TIP_BLOCK_HASH_KEY.
Definition set_last_confirmed_block_number_hash (nh : NumberHash) : M unit :=
  insert_raw COLUMN_META META_LAST_CONFIRMED_BLOCK_NUMBER_HASH_KEY (ENumberHash nh).
Definition set_last_submitted_block_number_hash (nh : NumberHash) : M unit :=
  insert_raw COLUMN_META META_LAST_SUBMITTED_BLOCK_NUMBER_HASH_KEY (ENumberHash nh).

Definition set_bad_block_challenge_target (h : H256) (target : ChallengeTarget) : M unit :=
  insert_raw COLUMN_BAD_BLOCK_CHALLENGE_TARGET h (ETarget target).
Definition delete_bad_block_challenge_target (h : H256) : M unit :=
  delete_raw COLUMN_BAD_BLOCK_CHALLENGE_TARGET h.

Definition set_reverted_block_hashes (root prev_root : H256) (block_hashes : list H256) : M unit :=
  lift (assert_that (negb (bool_decide (block_hashes = [])))) ;;
  insert_raw COLUMN_REVERTED_BLOCK_SMT_ROOT root (EHashes (swap_ends (block_hashes ++ [prev_root]))).

Definition set_block_submit_tx (n : Z) (tx : L1Transaction) : M unit :=
  insert_raw COLUMN_BLOCK_SUBMIT_TX (be_bytes 8 n) (EL1Transaction tx) ;;
  insert_raw COLUMN_BLOCK_SUBMIT_TX_HASH (be_bytes 8 n) (EBytes (l1_hash tx)).
Definition set_block_submit_tx_hash (n : Z) (h : H256) : M unit :=
  insert_raw COLUMN_BLOCK_SUBMIT_TX_HASH (be_bytes 8 n) (EBytes h).
Definition delete_submit_tx (n : Z) : M unit :=
  delete_raw COLUMN_BLOCK_SUBMIT_TX (be_bytes 8 n) ;;
  delete_raw COLUMN_BLOCK_SUBMIT_TX_HASH (be_bytes 8 n).
Definition set_block_deposit_info_vec (n : Z) (ds : list DepositInfo) : M unit :=
  insert_raw COLUMN_BLOCK_DEPOSIT_INFO_VEC (be_bytes 8 n) (EDeposits ds).
Definition delete_block_deposit_info_vec (n : Z) : M unit :=
  delete_raw COLUMN_BLOCK_DEPOSIT_INFO_VEC (be_bytes 8 n).
Definition set_block_post_finalized_custodian_capacity (n : Z) (c : FinalizedCustodianCapacity) :
    M unit :=
  insert_raw COLUMN_BLOCK_POST_FINALIZED_CUSTODIAN_CAPACITY (be_bytes 8 n) (ECapacity c).
Definition delete_block_post_finalized_custodian_capacity (n : Z) : M unit :=
  delete_raw COLUMN_BLOCK_POST_FINALIZED_CUSTODIAN_CAPACITY (be_bytes 8 n).

(** Updates of the two trees, then the root is written back. *)
Definition update_block_smt (kvs : list (H256 * H256)) : M unit :=
  modify (λ db, with_block_leaves (foldl (λ l '(k, v), leaf_put k v l) (sd_block_leaves db) kvs) db) ;;
  root ← gets (λ db, smt_root (sd_block_leaves db));
  set_block_smt_root root.
Definition update_reverted_block_smt (kvs : list (H256 * H256)) : M unit :=
  modify (λ db,
    with_reverted_leaves (foldl (λ l '(k, v), leaf_put k v l) (sd_reverted_leaves db) kvs) db) ;;
  root ← gets (λ db, smt_root (sd_reverted_leaves db));
  set_reverted_block_smt_root root.

Definition get_reverted_block_hashes : M (gset H256) := gets (λ db, dom (sd_reverted_leaves db)).
Definition rewind_reverted_block_smt (block_hashes : list H256) : M unit :=
  get_reverted_block_smt_root ;;
  update_reverted_block_smt ((λ h, (h, h256_zero)) <$> block_hashes).
Definition rewind_block_smt (b : L2Block) : M unit :=
  get_block_smt_root ;; update_block_smt [(smt_key b, h256_zero)].

(** [for (index, x) in list.enumerate()] *)
Definition st_enumerate {A} (l : list A) (f : Z → A → M unit) : M unit :=
  st_for (imap (λ i a, (Z.of_nat i, a)) l) (λ '(i, a), f i a).

Definition insert_asset_scripts (scripts : list Script) : M unit :=
  st_for scripts (λ s, insert_raw COLUMN_ASSET_SCRIPT (script_hash s) (EScript s)).

Definition insert_bad_block (b : L2Block) (global_state : GlobalState) : M unit :=
  insert_raw COLUMN_BLOCK_GLOBAL_STATE (block_hash b) (EGlobalState global_state) ;;
  insert_raw COLUMN_BAD_BLOCK (block_hash b) (EBlock b) ;;
  get_block_smt_root ;;
  update_block_smt [(smt_key b, block_hash b)] ;;
  set_tip_block_hash (block_hash b).
Definition delete_bad_block (h : H256) : M unit :=
  delete_raw COLUMN_BAD_BLOCK h ;; delete_raw COLUMN_BLOCK_GLOBAL_STATE h.

Definition revert_bad_blocks (bad_blocks : list L2Block) : M unit :=
  match bad_blocks with
  | [] => mret tt
  | first_bad_block :: _ =>
      get_block_smt_root ;;
      update_block_smt ((λ b, (smt_key b, h256_zero)) <$> bad_blocks) ;;
      get_reverted_block_smt_root ;;
      update_reverted_block_smt ((λ b, (block_hash b, h256_one)) <$> bad_blocks) ;;
      set_tip_block_hash (parent_block_hash (block_raw first_bad_block))
  end.

(** *** Attaching and detaching the tip of the main chain *)
Definition attach_block (b : L2Block) : M unit :=
  st_enumerate (block_transactions b) (λ index tx,
    insert_raw COLUMN_TRANSACTION_INFO (tx_hash tx)
      (EInfo (mkItemInfo (block_number b) (build_item_key (block_hash b) index)))) ;;
  st_enumerate (block_withdrawals b) (λ index w,
    insert_raw COLUMN_WITHDRAWAL_INFO (withdrawal_hash w)
      (EInfo (mkItemInfo (block_number b) (build_item_key (block_hash b) index)))) ;;
  insert_raw COLUMN_INDEX (le_bytes 8 (block_number b)) (EBytes (block_hash b)) ;;
  insert_raw COLUMN_INDEX (block_hash b) (EBytes (le_bytes 8 (block_number b))) ;;
  get_block_smt_root ;;
  update_block_smt [(smt_key b, block_hash b)] ;;
  set_tip_block_hash (block_hash b) ;;
  set_last_valid_tip_block_hash (block_hash b).

(** [if get().map(number) == Some(n) { set(parent) }] *)
Definition step_back (get : M (option NumberHash)) (set : NumberHash → M unit) (n : Z)
    (parent : NumberHash) : M unit :=
  current ← get;
  if bool_decide (nh_number <$> current = Some n) then set parent else mret tt.

Definition detach_block (b : L2Block) : M unit :=
  tip ← get_last_valid_tip_block_hash;
  lift (assert_that (bool_decide (tip = block_hash b))) ;;
  st_for (block_transactions b) (λ tx, delete_raw COLUMN_TRANSACTION_INFO (tx_hash tx)) ;;
  st_for (block_withdrawals b) (λ w, delete_raw COLUMN_WITHDRAWAL_INFO (withdrawal_hash w)) ;;
  delete_raw COLUMN_INDEX (le_bytes 8 (block_number b)) ;;
  delete_raw COLUMN_INDEX (block_hash b) ;;
  get_block_smt_root ;;
  update_block_smt [(smt_key b, h256_zero)] ;;
  let parent_number := saturating_sub (block_number b) 1 in
  parent_hash ← st_unwrap (get_block_hash_by_number parent_number);
  set_tip_block_hash parent_hash ;;
  set_last_valid_tip_block_hash parent_hash ;;
  let parent := mkNumberHash parent_number parent_hash in
  step_back get_last_confirmed_block_number_hash set_last_confirmed_block_number_hash
    (block_number b) parent ;;
  step_back get_last_submitted_block_number_hash set_last_submitted_block_number_hash
    (block_number b) parent ;;
  delete_submit_tx (block_number b) ;;
  delete_block_deposit_info_vec (block_number b) ;;
  delete_block_post_finalized_custodian_capacity (block_number b).

Definition insert_mem_pool_transaction (h : H256) (tx : L2Transaction) : M unit :=
  insert_raw COLUMN_MEM_POOL_TRANSACTION h (ETransaction tx).
Definition remove_mem_pool_transaction (h : H256) : M unit :=
  delete_raw COLUMN_MEM_POOL_TRANSACTION h ;; delete_raw COLUMN_MEM_POOL_TRANSACTION_RECEIPT h.
Definition insert_mem_pool_transaction_receipt (h : H256) (r : TxReceipt) : M unit :=
  insert_raw COLUMN_MEM_POOL_TRANSACTION_RECEIPT h (EReceipt r).
Definition insert_mem_pool_withdrawal (h : H256) (w : WithdrawalRequestExtra) : M unit :=
  insert_raw COLUMN_MEM_POOL_WITHDRAWAL h (EWithdrawal w).
Definition remove_mem_pool_withdrawal (h : H256) : M unit := delete_raw COLUMN_MEM_POOL_WITHDRAWAL h.
End Writes.

(** The transactions' previous state must be the one the block commits to. *)
Definition check_prev_txs_state (b : L2Block) (prev_txs_state : AccountMerkleState)
    (tx_receipts : list TxReceipt) : outcome StoreError unit :=
  let raw := block_raw b in
  let checkpoint :=
    calculate_state_checkpoint_of (am_merkle_root prev_txs_state) (am_count prev_txs_state) in
  reject_if (negb (bool_decide (checkpoint = prev_state_checkpoint (submit_transactions raw))))
    UnexpectedPrevTxState ;;
  reject_if (bool_decide (tx_receipts = []) && negb (bool_decide (prev_txs_state = post_account raw)))
    UnexpectedNoTxPostState.

(** The two [debug_assert_eq!] on the numbers of receipts and withdrawals are off in
    release builds and left out. *)
Definition insert_block (b : L2Block) (global_state : GlobalState)
    (prev_txs_state : AccountMerkleState) (tx_receipts : list TxReceipt) (deposits : list DepositInfo)
    (withdrawals : list WithdrawalRequestExtra) : ST StoreDb StoreError unit :=
  insert_raw COLUMN_BLOCK (block_hash b) (EBlock b) ;;
  insert_raw COLUMN_BLOCK_GLOBAL_STATE (block_hash b) (EGlobalState global_state) ;;
  set_block_deposit_info_vec (block_number b) deposits ;;
  lift (check_prev_txs_state b prev_txs_state tx_receipts) ;;
  st_enumerate (zip (block_transactions b) tx_receipts) (λ index '(tx, tx_receipt),
    insert_raw COLUMN_TRANSACTION (build_item_key (block_hash b) index) (ETransaction tx) ;;
    insert_raw COLUMN_TRANSACTION_RECEIPT (build_item_key (block_hash b) index)
      (EReceipt tx_receipt)) ;;
  st_enumerate withdrawals (λ index w,
    insert_raw COLUMN_WITHDRAWAL (build_item_key (block_hash b) index) (EWithdrawal w)).
End StoreTransaction.

(** ** [BlockStateDB::from_store] (state_db.rs)

    The account count comes from the last valid block; the tree opened at the
    root of that block is the tree of the stored leaves. *)
Section BlockState.
Context `{RocksIter, SmtRoot}.
Definition open_state {E} (rw : RWConfig) : ST StoreDb E (StateDB HistoryState) :=
  block ← get_last_valid_tip_block;
  db ← gets (λ db, db);
  let tip_state := post_account (block_raw block) in
  let inner :=
    mkHistoryState (am_count tip_state) (sd_account_tree db) (sd_account_history db) rw in
  lift (match StateDB_new inner with Ok st => Ok st | _ => Panic end).
(** What the state writes goes to the store it was opened on. *)
Definition written_back (st : StateDB HistoryState) (db : StoreDb) : StoreDb :=
  with_account (hs_tree (db_state st)) (hs_db (db_state st)) db.
End BlockState.
