(* ===== verification/StoreProps.v ===== *)
(** * The store implements a chain of blocks

    The abstract view of the store is a list of blocks and two positions in it:
    the last block submitted to layer 1 and the last one confirmed there
    ([Ledger]).  The theorem at the end: attaching and detaching blocks and moving
    the positions implement the obvious operations on the list, and the reads of
    [ChainStore] answer from the list. *)
From Stdlib Require Import ZArith Lia Strings.Byte.
From stdpp Require Import prelude list gmap.
From S2P Require Import Prelude Bytes Types State StateSpec StateDB History Finality Ckb.
From S2P Require Import NodeState AccountLocks Syscalls Generator Verifiers Store.
Local Open Scope Z_scope.

(** ** Many writes at once *)
Abbreviation entry := ((Z * bytes) * Entity)%type.
Definition put_all (kvs : list entry) (m : gmap (Z * bytes) Entity) : gmap (Z * bytes) Entity :=
  foldl (λ m kv, <[kv.1 := kv.2]> m) m kvs.
Definition del_all (ks : list (Z * bytes)) (m : gmap (Z * bytes) Entity) : gmap (Z * bytes) Entity :=
  foldl (λ m k, delete k m) m ks.

Lemma put_all_union kvs m : NoDup kvs.*1 → put_all kvs m = list_to_map kvs ∪ m.
Proof.
  revert m. induction kvs as [|[k v] kvs IH]; intros m Hnd.
  - change (m = (∅ : gmap (Z * bytes) Entity) ∪ m). by rewrite (left_id_L ∅ (∪)).
  - cbn in Hnd. apply NoDup_cons in Hnd as [Hk Hnd].
    change (put_all ((k, v) :: kvs) m) with (put_all kvs (<[k := v]> m)). rewrite IH by done.
    cbn. rewrite <- insert_union_r; [by rewrite insert_union_l|]. by apply not_elem_of_list_to_map_1.
Qed.

Lemma put_all_lookup kvs m k v :
  NoDup kvs.*1 → (put_all kvs m !! k = Some v) ↔ ((k, v) ∈ kvs) ∨ ((k ∉ kvs.*1) ∧ m !! k = Some v).
Proof.
  intros Hnd. rewrite put_all_union by done. rewrite lookup_union_Some_raw.
  rewrite elem_of_list_to_map by done. split; (intros [?|[Hk ?]]; [by left|right]).
  - split; [|done]. by apply not_elem_of_list_to_map_2 in Hk.
  - split; [|done]. by apply not_elem_of_list_to_map_1.
Qed.

Lemma put_all_app kvs kvs' m : put_all (kvs ++ kvs') m = put_all kvs' (put_all kvs m).
Proof. apply foldl_app. Qed.

Lemma put_all_other kvs m k : k ∉ kvs.*1 → put_all kvs m !! k = m !! k.
Proof.
  revert m. induction kvs as [|[k' v] kvs IH]; intros m Hk; [done|].
  cbn in Hk. apply not_elem_of_cons in Hk as [? Hk].
  change (put_all ((k', v) :: kvs) m) with (put_all kvs (<[k' := v]> m)). rewrite IH by done. by rewrite lookup_insert_ne.
Qed.

Lemma del_all_lookup ks m k v : (del_all ks m !! k = Some v) ↔ (k ∉ ks) ∧ m !! k = Some v.
Proof.
  revert m. induction ks as [|k' ks IH]; intros m.
  - split; [intros ?; split; [apply not_elem_of_nil|done]|by intros []].
  - change (del_all (k' :: ks) m) with (del_all ks (delete k' m)). rewrite IH, not_elem_of_cons, lookup_delete_Some. naive_solver.
Qed.
Lemma del_all_other ks m k : k ∉ ks → del_all ks m !! k = m !! k.
Proof.
  intros Hk. apply option_eq. intros v. rewrite del_all_lookup. naive_solver.
Qed.

Lemma put_all_cong kvs m m' k : m !! k = m' !! k → put_all kvs m !! k = put_all kvs m' !! k.
Proof.
  revert m m'. induction kvs as [|[k' v] kvs IH]; intros m m' E; [done|]. apply IH.
  rewrite !lookup_insert. by case_decide.
Qed.
Lemma put_all_in kvs m k v :
  (k, v) ∈ kvs → (∀ v', (k, v') ∈ kvs → v' = v) → put_all kvs m !! k = Some v.
Proof.
  induction kvs as [|[k' v'] kvs IH] using rev_ind; [by intros ?%not_elem_of_nil|].
  intros Hin Hf. rewrite put_all_app. change (<[k' := v']> (put_all kvs m) !! k = Some v).
  destruct (decide (k = k')) as [<-|Hne].
  - rewrite lookup_insert_eq. f_equal. apply Hf. set_solver.
  - rewrite lookup_insert_ne by done. apply IH; set_solver.
Qed.

Section Loops.
Context {E A : Type}.

Lemma st_for_put (l : list A) (f : A → ST StoreDb E unit) (g : A → list entry) db :
  (∀ a db, f a db = (Ok tt, with_columns (put_all (g a)) db)) →
  st_for l f db = (Ok tt, with_columns (put_all (l ≫= g)) db).
Proof.
  intros Hf. revert db. induction l as [|a l IH]; intros db; [by destruct db|].
  cbn [st_for]. rewrite (st_bind_run _ _ _ _ _ (Hf a db)), IH.
  unfold with_columns. cbn [sd_columns sd_block_leaves sd_reverted_leaves sd_account_tree
    sd_account_history]. by rewrite bind_cons, put_all_app.
Qed.
Lemma st_for_delete (l : list A) (c : A → Z) (k : A → bytes) db :
  st_for l (λ a, delete_raw (E:=E) (c a) (k a)) db =
  (Ok tt, with_columns (del_all ((λ a, (c a, k a)) <$> l)) db).
Proof.
  revert db. induction l as [|a l IH]; intros db; [by destruct db|].
  cbn [st_for]. unfold mbind, ST_bind, delete_raw at 1, modify. rewrite IH. by destruct db.
Qed.
End Loops.

(** The entries a loop over an enumerated list writes. *)
Definition enumerate_put {A} (l : list A) (g : Z → A → list entry) : list entry :=
  imap (λ i a, (Z.of_nat i, a)) l ≫= λ '(i, a), g i a.

Lemma st_enumerate_put {E A} (l : list A) (f : Z → A → ST StoreDb E unit) g db :
  (∀ i a db, f i a db = (Ok tt, with_columns (put_all (g i a)) db)) →
  st_enumerate l f db = (Ok tt, with_columns (put_all (enumerate_put l g)) db).
Proof. intros Hf. unfold st_enumerate. apply st_for_put. intros []. apply Hf. Qed.

Lemma st_enumerate_insert {E A} (l : list A) (c : Z) (k : Z → A → bytes) (v : Z → A → Entity) db :
  st_enumerate l (λ i a, insert_raw (E:=E) c (k i a) (v i a)) db =
  (Ok tt, with_columns (put_all (enumerate_put l (λ i a, [((c, k i a), v i a)]))) db).
Proof. by apply st_enumerate_put. Qed.

Lemma enumerate_put_in {A} (l : list A) g e :
  e ∈ enumerate_put l g ↔ ∃ i a, l !! i = Some a ∧ e ∈ g (Z.of_nat i) a.
Proof.
  unfold enumerate_put. rewrite list_elem_of_bind. setoid_rewrite elem_of_lookup_imap. split.
  - intros ([z a] & Hin & i & a' & [= -> ->] & Hl). eauto.
  - intros (i & a & Hl & Hin). exists (Z.of_nat i, a). eauto.
Qed.

(** A key that is visibly not among some others. *)
Ltac solve_key := apply (bool_decide_unpack _); vm_compute; exact I.

(** ** The abstract ledger *)
Record Ledger := mkLedger { lg_blocks : list L2Block; lg_submitted : nat; lg_confirmed : nat }.

Section Ledger.
Context `{Blake2b, Molecule, SyscallCodec, HashCodec, SmtRoot}.

(** What a block of the main chain adds to the indices. *)
Definition infos {A} (col : Z) (hash : A → H256) (b : L2Block) (l : list A) : list entry :=
  enumerate_put l (λ i a,
    [((col, hash a), EInfo (mkItemInfo (block_number b) (build_item_key (block_hash b) i)))]).
Definition entries (b : L2Block) : list entry :=
  infos COLUMN_TRANSACTION_INFO tx_hash b (block_transactions b) ++
  infos COLUMN_WITHDRAWAL_INFO withdrawal_hash b (block_withdrawals b) ++
  [((COLUMN_INDEX, le_bytes 8 (block_number b)), EBytes (block_hash b));
   ((COLUMN_INDEX, block_hash b), EBytes (le_bytes 8 (block_number b)))].
Definition indexed (col : Z) : Prop :=
  col = COLUMN_INDEX ∨ col = COLUMN_TRANSACTION_INFO ∨ col = COLUMN_WITHDRAWAL_INFO.

(** The blocks are numbered, linked, and no two items share a hash. *)
Record ledger_ok (l : Ledger) : Prop := {
  lo_number i b : lg_blocks l !! i = Some b → block_number b = Z.of_nat i;
  lo_hash b : b ∈ lg_blocks l → length (block_hash b) = 32%nat ∧ h256_is_zero (block_hash b) = false;
  lo_next i b b' : lg_blocks l !! i = Some b → lg_blocks l !! S i = Some b' →
    parent_block_hash (block_raw b') = block_hash b;
  lo_unique : NoDup (lg_blocks l ≫= entries).*1;
  lo_short : Z.of_nat (length (lg_blocks l)) < 2 ^ 64;
  lo_positions : (lg_confirmed l ≤ lg_submitted l < length (lg_blocks l))%nat;
}.

Definition number_hash (l : Ledger) (i : nat) : option NumberHash :=
  (λ b, mkNumberHash (Z.of_nat i) (block_hash b)) <$> lg_blocks l !! i.

(** The store holds the ledger. *)
Record holds (db : StoreDb) (l : Ledger) : Prop := {
  ho_ok : ledger_ok l;
  ho_indexed c k v : indexed c →
    (sd_columns db !! (c, k) = Some v) ↔ ((c, k), v) ∈ lg_blocks l ≫= entries;
  ho_leaves k v :
    (sd_block_leaves db !! k = Some v) ↔ ∃ b, b ∈ lg_blocks l ∧ k = smt_key b ∧ v = block_hash b;
  ho_root : sd_columns db !! (COLUMN_META, META_BLOCK_SMT_ROOT_KEY) =
            Some (EBytes (smt_root (sd_block_leaves db)));
  ho_tip : sd_columns db !! (COLUMN_META, META_TIP_BLOCK_HASH_KEY) =
           EBytes ∘ block_hash <$> last (lg_blocks l);
  ho_valid : sd_columns db !! (COLUMN_META, META_LAST_VALID_TIP_BLOCK_HASH_KEY) =
             EBytes ∘ block_hash <$> last (lg_blocks l);
  ho_submitted : sd_columns db !! (COLUMN_META, META_LAST_SUBMITTED_BLOCK_NUMBER_HASH_KEY) =
                 ENumberHash <$> number_hash l (lg_submitted l);
  ho_confirmed : sd_columns db !! (COLUMN_META, META_LAST_CONFIRMED_BLOCK_NUMBER_HASH_KEY) =
                 ENumberHash <$> number_hash l (lg_confirmed l);
  ho_blocks b : b ∈ lg_blocks l → sd_columns db !! (COLUMN_BLOCK, block_hash b) = Some (EBlock b);
  ho_txs b i tx : b ∈ lg_blocks l → block_transactions b !! i = Some tx →
    sd_columns db !! (COLUMN_TRANSACTION, build_item_key (block_hash b) (Z.of_nat i)) =
    Some (ETransaction tx);
}.

(** ** Operations *)
Inductive ledger_op :=
| OpExtend (b : L2Block) (global_state : GlobalState) (prev_txs_state : AccountMerkleState)
    (tx_receipts : list TxReceipt) (deposits : list DepositInfo)
    (withdrawals : list WithdrawalRequestExtra)
| OpDetach
| OpSubmit
| OpConfirm.

(** Move a position to the next block. *)
Definition move_next (get : ST StoreDb StoreError (option NumberHash))
    (set : NumberHash → ST StoreDb StoreError unit) : ST StoreDb StoreError unit :=
  nh ← st_unwrap get;
  h ← st_unwrap (get_block_hash_by_number (nh_number nh + 1));
  set (mkNumberHash (nh_number nh + 1) h).

Definition run_op (op : ledger_op) : ST StoreDb StoreError unit :=
  match op with
  | OpExtend b gs pst rs ds ws => insert_block b gs pst rs ds ws ;; attach_block b
  | OpDetach => b ← get_last_valid_tip_block; detach_block b
  | OpSubmit => move_next get_last_submitted_block_number_hash set_last_submitted_block_number_hash
  | OpConfirm => move_next get_last_confirmed_block_number_hash set_last_confirmed_block_number_hash
  end.

(** What the operations do to the ledger. *)
Inductive ledger_step : Ledger → ledger_op → Ledger → Prop :=
| step_extend bs s c b gs pst rs ds ws :
    ledger_ok (mkLedger (bs ++ [b]) s c) →
    check_prev_txs_state b pst rs = Ok tt → length rs = length (block_transactions b) →
    Z.of_nat (length (block_transactions b)) < 2 ^ 32 → (s < length bs)%nat →
    ledger_step (mkLedger bs s c) (OpExtend b gs pst rs ds ws) (mkLedger (bs ++ [b]) s c)
| step_detach bs s c b :
    bs ≠ [] →
    ledger_step (mkLedger (bs ++ [b]) s c) OpDetach
      (mkLedger bs (min s (pred (length bs))) (min c (pred (length bs))))
| step_submit bs s c :
    (S s < length bs)%nat → ledger_step (mkLedger bs s c) OpSubmit (mkLedger bs (S s) c)
| step_confirm bs s c :
    (c < s)%nat → ledger_step (mkLedger bs s c) OpConfirm (mkLedger bs s (S c)).
Inductive ledger_steps : Ledger → list ledger_op → Ledger → Prop :=
| steps_nil l : ledger_steps l [] l
| steps_cons l op l' ops l'' :
    ledger_step l op l' → ledger_steps l' ops l'' → ledger_steps l (op :: ops) l''.

(** ** The effect of attaching and detaching *)
Definition meta (key : bytes) (h : H256) : entry := ((COLUMN_META, key), EBytes h).
Definition tip_entries (leaves : gmap H256 H256) (tip : H256) : list entry :=
  [meta META_BLOCK_SMT_ROOT_KEY (smt_root leaves); meta META_TIP_BLOCK_HASH_KEY tip;
   meta META_LAST_VALID_TIP_BLOCK_HASH_KEY tip].

Lemma entries_indexed b c k v : ((c, k), v) ∈ entries b → indexed c.
Proof.
  unfold entries, infos, indexed. rewrite !elem_of_app, !enumerate_put_in.
  intros [(i & a & _ & E%list_elem_of_singleton)|[(i & a & _ & E%list_elem_of_singleton)|
    [E|[E|[]]]%list_elem_of_In]]; apply (f_equal (λ e, e.1.1)) in E; cbn [fst] in E; auto.
Qed.
Lemma entries_keys_indexed b c k : (c, k) ∈ (entries b).*1 → indexed c.
Proof. intros ([[c' k'] v] & [= -> ->] & Hin)%list_elem_of_fmap. by eapply entries_indexed. Qed.

Lemma get_hash_run {E} db key h :
  sd_columns db !! (COLUMN_META, key) = Some (EBytes h) → get_meta_hash (E:=E) key db = (Ok h, db).
Proof. intros Hk. unfold get_meta_hash, st_unwrap, get_as, mbind, ST_bind. by rewrite Hk. Qed.

Lemma attach_run {E} b db r :
  sd_columns db !! (COLUMN_META, META_BLOCK_SMT_ROOT_KEY) = Some (EBytes r) →
  attach_block (E:=E) b db =
  (let leaves := leaf_put (smt_key b) (block_hash b) (sd_block_leaves db) in
   (Ok tt, with_block_leaves leaves
             (with_columns (put_all (entries b ++ tip_entries leaves (block_hash b))) db))).
Proof.
  intros Hr. unfold attach_block.
  unfold mbind at 1, ST_bind at 1. rewrite st_enumerate_insert.
  unfold mbind at 1, ST_bind at 1. rewrite st_enumerate_insert.
  unfold mbind at 1, ST_bind at 1. unfold insert_raw at 1, modify at 1.
  unfold mbind at 1, ST_bind at 1. unfold insert_raw at 1, modify at 1.
  unfold mbind at 1, ST_bind at 1. unfold get_block_smt_root.
  rewrite (get_hash_run _ _ r).
  - unfold entries. rewrite <- !app_assoc. cbv zeta.
    change (with_columns ?f db) with (mkStoreDb (f (sd_columns db)) (sd_block_leaves db)
      (sd_reverted_leaves db) (sd_account_tree db) (sd_account_history db)).
    by rewrite !put_all_app.
  - destruct db as [m]. cbn [with_columns sd_columns] in *.
    rewrite !lookup_insert_ne by done.
    by rewrite !put_all_other by (rewrite list_elem_of_fmap; intros ([[]] & [=] & Hin);
      apply enumerate_put_in in Hin as (? & ? & _ & [=]%list_elem_of_singleton); by simplify_eq).
Qed.

Lemma infos_keys {A} c (hash : A → H256) b l :
  (infos c hash b l).*1 = (λ a, (c, hash a)) <$> l.
Proof.
  unfold infos, enumerate_put. generalize Z.of_nat. induction l as [|a l IH]; intros g; [done|].
  rewrite imap_cons, bind_cons. cbn. f_equal. apply (IH (g ∘ S)).
Qed.
Lemma entries_keys b :
  (entries b).*1 =
  ((λ tx, (COLUMN_TRANSACTION_INFO, tx_hash tx)) <$> block_transactions b) ++
  ((λ w, (COLUMN_WITHDRAWAL_INFO, withdrawal_hash w)) <$> block_withdrawals b) ++
  [(COLUMN_INDEX, le_bytes 8 (block_number b)); (COLUMN_INDEX, block_hash b)].
Proof. unfold entries. rewrite !fmap_app, !infos_keys. done. Qed.

Lemma del_all_app ks ks' m : del_all (ks ++ ks') m = del_all ks' (del_all ks m).
Proof. apply foldl_app. Qed.

(** The position after a detach. *)
Definition back (key : bytes) (n : Z) (parent : NumberHash) (nh : NumberHash) : list entry :=
  if bool_decide (nh_number nh = n) then [((COLUMN_META, key), ENumberHash parent)] else [].
Definition block_columns (n : Z) : list (Z * bytes) :=
  [(COLUMN_BLOCK_SUBMIT_TX, be_bytes 8 n); (COLUMN_BLOCK_SUBMIT_TX_HASH, be_bytes 8 n);
   (COLUMN_BLOCK_DEPOSIT_INFO_VEC, be_bytes 8 n);
   (COLUMN_BLOCK_POST_FINALIZED_CUSTODIAN_CAPACITY, be_bytes 8 n)].

Lemma step_back_run {E} key set n parent nh db :
  (∀ x, set x = insert_raw (E:=E) COLUMN_META key (ENumberHash x)) →
  sd_columns db !! (COLUMN_META, key) = Some (ENumberHash nh) →
  step_back (get_as as_number_hash COLUMN_META key) set n parent db =
  (Ok tt, with_columns (put_all (back key n parent nh)) db).
Proof.
  intros Hset Hk. unfold step_back, get_as, mbind, ST_bind. rewrite Hk. cbn [as_number_hash].
  unfold back. destruct db as [m ????]. cbn [fmap option_fmap option_map].
  case_bool_decide as Hn; case_bool_decide as Hn'; try congruence; [by rewrite Hset|done].
Qed.

Definition detached (b : L2Block) (leaves : gmap H256 H256) (parent nhc nhs : NumberHash)
    (m : gmap (Z * bytes) Entity) : gmap (Z * bytes) Entity :=
  del_all (block_columns (block_number b))
    (put_all (tip_entries leaves (nh_block_hash parent) ++
              back META_LAST_CONFIRMED_BLOCK_NUMBER_HASH_KEY (block_number b) parent nhc ++
              back META_LAST_SUBMITTED_BLOCK_NUMBER_HASH_KEY (block_number b) parent nhs)
       (del_all (entries b).*1 m)).

Lemma detach_tail {E} b db r nhc nhs parent_hash :
  let parent := saturating_sub (block_number b) 1 in
  let m := sd_columns db in
  let leaves := leaf_put (smt_key b) h256_zero (sd_block_leaves db) in
  let to := mkNumberHash parent parent_hash in
  m !! (COLUMN_META, META_BLOCK_SMT_ROOT_KEY) = Some (EBytes r) →
  m !! (COLUMN_INDEX, le_bytes 8 parent) = Some (EBytes parent_hash) →
  m !! (COLUMN_META, META_LAST_CONFIRMED_BLOCK_NUMBER_HASH_KEY) = Some (ENumberHash nhc) →
  m !! (COLUMN_META, META_LAST_SUBMITTED_BLOCK_NUMBER_HASH_KEY) = Some (ENumberHash nhs) →
  (get_block_smt_root ;;
   update_block_smt [(smt_key b, h256_zero)] ;;
   parent_hash ← st_unwrap (get_block_hash_by_number parent);
   set_tip_block_hash parent_hash ;;
   set_last_valid_tip_block_hash parent_hash ;;
   let to := mkNumberHash parent parent_hash in
   step_back get_last_confirmed_block_number_hash set_last_confirmed_block_number_hash
     (block_number b) to ;;
   step_back get_last_submitted_block_number_hash set_last_submitted_block_number_hash
     (block_number b) to ;;
   delete_submit_tx (block_number b) ;;
   delete_block_deposit_info_vec (block_number b) ;;
   delete_block_post_finalized_custodian_capacity (E:=E) (block_number b)) db =
  (Ok tt, with_block_leaves leaves
     (with_columns (λ m, del_all (block_columns (block_number b))
        (put_all (tip_entries leaves parent_hash ++
           back META_LAST_CONFIRMED_BLOCK_NUMBER_HASH_KEY (block_number b) to nhc ++
           back META_LAST_SUBMITTED_BLOCK_NUMBER_HASH_KEY (block_number b) to nhs) m)) db)).
Proof.
  intros parent m leaves to Hr Hp Hc Hs.
  rewrite (st_bind_run get_block_smt_root _ _ _ _ (get_hash_run _ _ _ Hr)).
  rewrite (st_bind_run _ _ _ tt (with_block_leaves leaves
             (with_columns (put_all [meta META_BLOCK_SMT_ROOT_KEY (smt_root leaves)]) db))) by done.
  rewrite (st_bind_run _ _ _ parent_hash (with_block_leaves leaves
             (with_columns (put_all [meta META_BLOCK_SMT_ROOT_KEY (smt_root leaves)]) db))).
  2: { unfold st_unwrap, get_block_hash_by_number, get_as, mbind, ST_bind. cbn [sd_columns with_block_leaves with_columns].
       rewrite put_all_other by (intros [Hin|[]]%list_elem_of_In; done). fold m. by rewrite Hp. }
  rewrite (st_bind_run (set_tip_block_hash parent_hash) _ _ tt _ eq_refl).
  rewrite (st_bind_run (set_last_valid_tip_block_hash parent_hash) _ _ tt _ eq_refl).
  set (db1 := with_columns _ (with_columns _ (with_block_leaves _ _))).
  assert (Hother : ∀ k, k ∉ (tip_entries leaves parent_hash).*1 → sd_columns db1 !! k = m !! k).
  { intros k Hk. exact (put_all_other (tip_entries leaves parent_hash) m k Hk). }
  cbv zeta. fold to.
  rewrite (st_bind_run (step_back get_last_confirmed_block_number_hash
             set_last_confirmed_block_number_hash _ _) _ _ _ _
             (step_back_run META_LAST_CONFIRMED_BLOCK_NUMBER_HASH_KEY _ _ _
             nhc db1 (λ _, eq_refl) ltac:(rewrite Hother by solve_key; exact Hc))).
  set (db2 := with_columns _ db1).
  rewrite (st_bind_run (step_back get_last_submitted_block_number_hash
             set_last_submitted_block_number_hash _ _) _ _ _ _
             (step_back_run META_LAST_SUBMITTED_BLOCK_NUMBER_HASH_KEY _ _ _
             nhs db2 (λ _, eq_refl) ltac:(unfold db2; cbn [sd_columns with_columns];
               rewrite put_all_other by (unfold back; case_bool_decide; solve_key);
               rewrite Hother by solve_key; exact Hs))).
  match goal with |- _ = (_, with_block_leaves _ (with_columns ?f db)) =>
    change (with_columns f db) with (mkStoreDb (f m) (sd_block_leaves db) (sd_reverted_leaves db)
      (sd_account_tree db) (sd_account_history db)) end.
  cbv beta. by rewrite !put_all_app.
Qed.

Lemma detach_run {E} b db r nhc nhs parent_hash :
  let parent := saturating_sub (block_number b) 1 in
  let m := sd_columns db in
  m !! (COLUMN_META, META_LAST_VALID_TIP_BLOCK_HASH_KEY) = Some (EBytes (block_hash b)) →
  m !! (COLUMN_META, META_BLOCK_SMT_ROOT_KEY) = Some (EBytes r) →
  m !! (COLUMN_INDEX, le_bytes 8 parent) = Some (EBytes parent_hash) →
  (COLUMN_INDEX, le_bytes 8 parent) ∉ (entries b).*1 →
  m !! (COLUMN_META, META_LAST_CONFIRMED_BLOCK_NUMBER_HASH_KEY) = Some (ENumberHash nhc) →
  m !! (COLUMN_META, META_LAST_SUBMITTED_BLOCK_NUMBER_HASH_KEY) = Some (ENumberHash nhs) →
  detach_block (E:=E) b db =
  (let leaves := leaf_put (smt_key b) h256_zero (sd_block_leaves db) in
   (Ok tt, with_block_leaves leaves
             (with_columns (detached b leaves (mkNumberHash parent parent_hash) nhc nhs) db))).
Proof.
  intros parent m Hv Hr Hp Hnew Hc Hs.
  assert (Hmeta : ∀ k, del_all (entries b).*1 m !! (COLUMN_META, k) = m !! (COLUMN_META, k)).
  { intros k. apply del_all_other. by intros [|[|]]%entries_keys_indexed. }
  unfold detach_block.
  rewrite (st_bind_run get_last_valid_tip_block_hash _ _ _ _ (get_hash_run _ _ _ Hv)).
  rewrite bool_decide_true by done. rewrite (st_bind_run (lift (assert_that true)) _ _ tt db eq_refl).
  rewrite (st_bind_run _ _ _ _ _ (st_for_delete _ (λ _, COLUMN_TRANSACTION_INFO) tx_hash _)).
  rewrite (st_bind_run _ _ _ _ _ (st_for_delete _ (λ _, COLUMN_WITHDRAWAL_INFO) withdrawal_hash _)).
  rewrite (st_bind_run (delete_raw _ _) _ _ tt _ eq_refl).
  rewrite (st_bind_run (delete_raw _ _) _ _ tt _ eq_refl).
  set (db1 := with_columns (delete (COLUMN_INDEX, block_hash b)) _).
  assert (Hdb1 : db1 = with_columns (del_all (entries b).*1) db).
  { unfold db1, with_columns. rewrite entries_keys, !del_all_app. done. }
  rewrite Hdb1.
  pose proof (detach_tail (E:=E) b (with_columns (del_all (entries b).*1) db) r nhc nhs parent_hash)
    as Ht. cbv zeta in Ht |- *. cbn [sd_columns sd_block_leaves with_columns] in Ht. fold m in Ht.
  rewrite !Hmeta, del_all_other in Ht by exact Hnew.
  rewrite (Ht Hr Hp Hc Hs). reflexivity.
Qed.

(** ** The operations keep the store and the ledger together *)

(** Everything [insert_block] writes. *)
Definition stored (b : L2Block) (gs : GlobalState) (rs : list TxReceipt) (ds : list DepositInfo)
    (ws : list WithdrawalRequestExtra) : list entry :=
  [((COLUMN_BLOCK, block_hash b), EBlock b);
   ((COLUMN_BLOCK_GLOBAL_STATE, block_hash b), EGlobalState gs);
   ((COLUMN_BLOCK_DEPOSIT_INFO_VEC, be_bytes 8 (block_number b)), EDeposits ds)] ++
  enumerate_put (zip (block_transactions b) rs) (λ i '(tx, r),
    [((COLUMN_TRANSACTION, build_item_key (block_hash b) i), ETransaction tx);
     ((COLUMN_TRANSACTION_RECEIPT, build_item_key (block_hash b) i), EReceipt r)]) ++
  enumerate_put ws (λ i w, [((COLUMN_WITHDRAWAL, build_item_key (block_hash b) i), EWithdrawal w)]).

Lemma insert_run b gs pst rs ds ws db :
  check_prev_txs_state b pst rs = Ok tt →
  insert_block b gs pst rs ds ws db = (Ok tt, with_columns (put_all (stored b gs rs ds ws)) db).
Proof.
  intros Hc. unfold insert_block.
  rewrite (st_bind_run (insert_raw _ _ _) _ _ tt _ eq_refl).
  rewrite (st_bind_run (insert_raw _ _ _) _ _ tt _ eq_refl).
  rewrite (st_bind_run (set_block_deposit_info_vec _ _) _ _ tt _ eq_refl). rewrite Hc.
  rewrite (st_bind_run (lift (Ok tt)) _ _ tt _ eq_refl).
  erewrite st_bind_run by (apply (st_enumerate_put _ _ (λ i '(tx, r),
    [((COLUMN_TRANSACTION, build_item_key (block_hash b) i), ETransaction tx);
     ((COLUMN_TRANSACTION_RECEIPT, build_item_key (block_hash b) i), EReceipt r)]));
    by intros i [tx r] db').
  rewrite st_enumerate_insert. unfold stored, with_columns.
  cbn [sd_columns sd_block_leaves sd_reverted_leaves sd_account_tree sd_account_history].
  by rewrite !put_all_app.
Qed.

(** The columns it writes. *)
Lemma stored_columns b gs rs ds ws c k v :
  ((c, k), v) ∈ stored b gs rs ds ws →
  (c = COLUMN_BLOCK ∧ k = block_hash b ∧ v = EBlock b) ∨
  (c = COLUMN_TRANSACTION ∧ ∃ i tx, block_transactions b !! i = Some tx ∧
     k = build_item_key (block_hash b) (Z.of_nat i) ∧ v = ETransaction tx) ∨
  c ∈ [COLUMN_BLOCK_GLOBAL_STATE; COLUMN_BLOCK_DEPOSIT_INFO_VEC; COLUMN_TRANSACTION_RECEIPT;
       COLUMN_WITHDRAWAL].
Proof.
  unfold stored. rewrite !elem_of_app, !enumerate_put_in.
  intros [Hin|[(i & [tx r] & Hl & Hin)|(i & w & _ & Hin)]].
  - apply list_elem_of_In in Hin. destruct Hin as [E|[E|[E|[]]]].
    + left. by injection E as <- <- <-.
    + right; right. injection E as <- _ _. set_solver.
    + right; right. apply (f_equal (λ e, e.1.1)) in E. cbn [fst] in E. subst c. set_solver.
  - apply list_elem_of_In in Hin. destruct Hin as [E|[E|[]]].
    + right; left. apply lookup_zip_Some in Hl as [Hl _]. injection E as <- <- <-. split; [done|]. by exists i, tx.
    + right; right. injection E as <- _ _. set_solver.
  - apply list_elem_of_singleton in Hin. injection Hin as -> _ _. right; right. set_solver.
Qed.

Lemma entries_snoc bs b : (bs ++ [b]) ≫= entries = (bs ≫= entries) ++ entries b.
Proof. rewrite bind_app, bind_cons. cbn. by rewrite app_nil_r. Qed.

Lemma keys_snoc bs b :
  NoDup ((bs ++ [b]) ≫= entries).*1 →
  NoDup (bs ≫= entries).*1 ∧ NoDup (entries b).*1 ∧
  (∀ k, k ∈ (bs ≫= entries).*1 → k ∉ (entries b).*1).
Proof. rewrite entries_snoc, fmap_app. by intros (? & ? & ?)%NoDup_app. Qed.

Lemma key_of_entry bs k v : (k, v) ∈ bs ≫= entries → k ∈ (bs ≫= entries).*1.
Proof. intros Hin. apply list_elem_of_fmap. by exists (k, v). Qed.

Lemma hash_entry b : ((COLUMN_INDEX, block_hash b), EBytes (le_bytes 8 (block_number b))) ∈ entries b.
Proof. unfold entries. rewrite !elem_of_app, elem_of_cons, list_elem_of_singleton. auto. Qed.
Lemma number_entry b : ((COLUMN_INDEX, le_bytes 8 (block_number b)), EBytes (block_hash b)) ∈ entries b.
Proof. unfold entries. rewrite !elem_of_app, elem_of_cons. auto. Qed.
Lemma entry_of_block bs b e : b ∈ bs → e ∈ entries b → e ∈ bs ≫= entries.
Proof. intros Hb He. apply list_elem_of_bind. by exists b. Qed.

Lemma fresh_hash bs b b' :
  NoDup ((bs ++ [b]) ≫= entries).*1 → b' ∈ bs → block_hash b' ≠ block_hash b.
Proof.
  intros (_ & _ & Hd)%keys_snoc Hb Heq.
  apply (Hd (COLUMN_INDEX, block_hash b)).
  - rewrite <- Heq. eapply key_of_entry, entry_of_block; [exact Hb|apply hash_entry].
  - apply list_elem_of_fmap. eexists. split; [|apply hash_entry]. done.
Qed.

Lemma item_key_inj h h' i i' :
  length h = 32%nat → length h' = 32%nat → build_item_key h i = build_item_key h' i' → h = h'.
Proof. intros Hh Hh' E. apply app_inj_1 in E as [? _]; congruence. Qed.
Lemma item_index_inj h i j :
  Z.of_nat i < 2 ^ 32 → Z.of_nat j < 2 ^ 32 →
  build_item_key h (Z.of_nat i) = build_item_key h (Z.of_nat j) → i = j.
Proof.
  intros Hi Hj E. apply app_inv_head in E. apply (f_equal be_val) in E.
  rewrite !be_val_bytes_small in E; change (256 ^ Z.of_nat 4) with (2 ^ 32); lia.
Qed.

(** A store that differs only where the ledger does not look. *)
Lemma holds_frame db l kvs :
  holds db l →
  (∀ c k, (c, k) ∈ kvs.*1 →
     (indexed c → False) ∧ c ≠ COLUMN_META ∧
     (∀ b, b ∈ lg_blocks l → (c, k) ≠ (COLUMN_BLOCK, block_hash b)) ∧
     (∀ b i, b ∈ lg_blocks l → (c, k) ≠ (COLUMN_TRANSACTION, build_item_key (block_hash b) i))) →
  holds (with_columns (put_all kvs) db) l.
Proof.
  intros [Hok Hix Hlv Hr Ht Hv Hs Hc Hb Htx] Hk.
  assert (Hmeta : ∀ k, put_all kvs (sd_columns db) !! (COLUMN_META, k) = sd_columns db !! (COLUMN_META, k)).
  { intros k. apply put_all_other. by intros (_ & ? & _)%Hk. }
  split; cbn [sd_columns sd_block_leaves with_columns]; rewrite ?Hmeta; try done.
  - intros c k v Hi. rewrite put_all_other; [by apply Hix|]. by intros (? & _)%Hk.
  - intros b Hin. rewrite put_all_other; [by apply Hb|]. intros (_ & _ & Hne & _)%Hk. by eapply Hne.
  - intros b i tx Hin Hl. rewrite put_all_other; [by apply Htx|].
    intros (_ & _ & _ & Hne)%Hk. by eapply Hne.
Qed.

Lemma holds_insert db bs s c b gs pst rs ds ws :
  holds db (mkLedger bs s c) → ledger_ok (mkLedger (bs ++ [b]) s c) →
  check_prev_txs_state b pst rs = Ok tt → length rs = length (block_transactions b) →
  Z.of_nat (length (block_transactions b)) < 2 ^ 32 →
  ∃ db', insert_block b gs pst rs ds ws db = (Ok tt, db') ∧ holds db' (mkLedger bs s c) ∧
    sd_columns db' !! (COLUMN_BLOCK, block_hash b) = Some (EBlock b) ∧
    (∀ i tx, block_transactions b !! i = Some tx →
       sd_columns db' !! (COLUMN_TRANSACTION, build_item_key (block_hash b) (Z.of_nat i)) =
       Some (ETransaction tx)) ∧
    sd_block_leaves db' = sd_block_leaves db.
Proof.
  intros Hh Hok Hc Hlen Hshort. rewrite (insert_run _ _ _ _ _ _ _ Hc). eexists. split; [done|].
  split; [|split; [|split; [|done]]].
  - apply holds_frame; [done|]. intros col k ([[col' k'] v] & [= <- <-] & Hin)%list_elem_of_fmap.
    assert (Hne : ∀ b', b' ∈ bs → block_hash b' ≠ block_hash b)
      by (intros ?; apply fresh_hash, (lo_unique _ Hok)).
    assert (H32 : ∀ b', b' ∈ bs ++ [b] → length (block_hash b') = 32%nat)
      by (intros b' Hb'; by apply (lo_hash _ Hok)).
    apply stored_columns in Hin as [(-> & -> & _)|[(-> & i & tx & _ & -> & _)|Hcol]].
    + repeat split; [by intros [|[]]|done| |done]. intros b' Hb' [=]. by eapply Hne.
    + repeat split; [by intros [|[]]|done..|]. intros b' j Hb' [= E].
      apply item_key_inj in E; [by eapply Hne| |]; apply H32; set_solver.
    + unfold indexed. apply list_elem_of_In in Hcol. cbn [In] in Hcol.
      repeat split; intros; intuition (subst; done).
  - apply put_all_in; [unfold stored; rewrite elem_of_app; left; set_solver|].
    intros v' Hin. apply stored_columns in Hin as [(_ & _ & ->)|[(? & _)|Hcol]]; [done..|].
    apply list_elem_of_In in Hcol. cbn [In] in Hcol. intuition done.
  - intros i tx Hl. apply put_all_in.
    + unfold stored. rewrite !elem_of_app, enumerate_put_in. right; left.
      assert (is_Some (rs !! i)) as [r Hr].
      { apply lookup_lt_is_Some. rewrite Hlen. by eapply lookup_lt_Some. }
      exists i, (tx, r). split; [by apply lookup_zip_Some|]. set_solver.
    + intros v' Hin. apply stored_columns in Hin as [(? & _)|[(_ & j & tx' & Hl' & E & ->)|Hcol]];
        [done| |apply list_elem_of_In in Hcol; cbn [In] in Hcol; intuition done].
      apply item_index_inj in E; [by simplify_eq|..];
        apply lookup_lt_Some in Hl, Hl'; lia.
Qed.

(** Numbers of blocks are different, so are their keys in the tree. *)
Lemma smt_key_fresh bs s c b b' :
  ledger_ok (mkLedger (bs ++ [b]) s c) → b' ∈ bs → smt_key b' ≠ smt_key b.
Proof.
  intros Hok (i & Hi)%list_elem_of_lookup E.
  pose proof (lookup_lt_Some _ _ _ Hi) as Hlt.
  pose proof (lo_short _ Hok) as Hshort. cbn in Hshort. rewrite length_app in Hshort. cbn in Hshort.
  assert (Hb' : block_number b' = Z.of_nat i).
  { apply (lo_number _ Hok). cbn. by rewrite lookup_app_l. }
  assert (Hb : block_number b = Z.of_nat (length bs)).
  { apply (lo_number _ Hok). cbn. by rewrite list_lookup_middle. }
  apply compute_smt_key_inj in E; unfold in_width; lia.
Qed.

Lemma tip_entries_lookup leaves tip extra m :
  (∀ k, k ∈ (tip_entries leaves tip).*1 → k ∉ extra.*1) →
  put_all (tip_entries leaves tip ++ extra) m !! (COLUMN_META, META_BLOCK_SMT_ROOT_KEY) =
    Some (EBytes (smt_root leaves)) ∧
  put_all (tip_entries leaves tip ++ extra) m !! (COLUMN_META, META_TIP_BLOCK_HASH_KEY) =
    Some (EBytes tip) ∧
  put_all (tip_entries leaves tip ++ extra) m !! (COLUMN_META, META_LAST_VALID_TIP_BLOCK_HASH_KEY) =
    Some (EBytes tip).
Proof.
  intros Hx. rewrite put_all_app. repeat split; rewrite put_all_other by (apply Hx; set_solver);
    cbn [put_all foldl tip_entries meta fst snd];
    rewrite ?lookup_insert_ne by done; apply lookup_insert_eq.
Qed.

Lemma tip_entries_meta leaves tip c k : (c, k) ∈ (tip_entries leaves tip).*1 → c = COLUMN_META.
Proof. intros Hin. apply list_elem_of_In in Hin. cbn in Hin. destruct Hin as [[= <- _]|[[= <- _]|[[= <- _]|[]]]]; done. Qed.

Lemma number_hash_snoc bs b s s' c c' i :
  (i < length bs)%nat →
  number_hash (mkLedger (bs ++ [b]) s c) i = number_hash (mkLedger bs s' c') i.
Proof. intros Hi. unfold number_hash. cbn. by rewrite lookup_app_l. Qed.

Lemma holds_attach {E} db bs s c b :
  holds db (mkLedger bs s c) → ledger_ok (mkLedger (bs ++ [b]) s c) → (s < length bs)%nat →
  sd_columns db !! (COLUMN_BLOCK, block_hash b) = Some (EBlock b) →
  (∀ i tx, block_transactions b !! i = Some tx →
     sd_columns db !! (COLUMN_TRANSACTION, build_item_key (block_hash b) (Z.of_nat i)) =
     Some (ETransaction tx)) →
  ∃ db', attach_block (E:=E) b db = (Ok tt, db') ∧ holds db' (mkLedger (bs ++ [b]) s c).
Proof.
  intros [Hok Hix Hlv Hr Ht Hv Hs Hc Hb Htx] Hok' Hs' Hb0 Htx0.
  rewrite (attach_run _ _ _ Hr). eexists. split; [done|].
  destruct (keys_snoc _ _ (lo_unique _ Hok')) as (_ & Hnd & Hdisj).
  set (leaves := leaf_put _ _ _).
  pose proof (lo_positions _ Hok) as Hpos. cbn in Hpos.
  assert (Hz : h256_is_zero (block_hash b) = false) by (apply (lo_hash _ Hok'); set_solver).
  assert (Hmeta : ∀ m k, put_all (entries b) m !! (COLUMN_META, k) = m !! (COLUMN_META, k)).
  { intros m k. apply put_all_other. by intros [|[]]%entries_keys_indexed. }
  assert (Hcol : ∀ m col k, (indexed col → False) → col ≠ COLUMN_META →
    put_all (entries b ++ tip_entries leaves (block_hash b)) m !! (col, k) = m !! (col, k)).
  { intros m col k Hi Hm. apply put_all_other. rewrite fmap_app, elem_of_app.
    intros [?%entries_keys_indexed|?%tip_entries_meta]; auto. }
  destruct (tip_entries_lookup leaves (block_hash b) [] (put_all (entries b) (sd_columns db)))
    as (Hroot & Htip & Hvalid); [set_solver|]. rewrite app_nil_r in *.
  split; cbn [sd_columns sd_block_leaves with_columns with_block_leaves lg_blocks lg_submitted
              lg_confirmed]; try done.
  - intros col k v Hi. rewrite entries_snoc, elem_of_app, put_all_app, put_all_other.
    2: { intros ->%tip_entries_meta. by destruct Hi as [|[]]. }
    rewrite put_all_lookup by done. cbn in Hix. rewrite Hix by done. split.
    + intros [?|[_ ?]]; auto.
    + intros [Hin|?]; [|by left]. right. split; [|done]. by eapply Hdisj, key_of_entry.
  - intros k v. unfold leaves, leaf_put. rewrite Hz, lookup_insert_Some. cbn in Hlv.
    rewrite Hlv. split.
    + intros [[<- <-]|[_ (b' & Hin & -> & ->)]]; [exists b|exists b']; set_solver.
    + intros (b' & [Hin| ->%list_elem_of_singleton]%elem_of_app & -> & ->); [right|by left].
      split; [by intros ?%eq_sym%(smt_key_fresh bs s c)|]. by exists b'.
  - rewrite put_all_app. exact Hroot.
  - rewrite put_all_app, last_snoc. exact Htip.
  - rewrite put_all_app, last_snoc. exact Hvalid.
  - rewrite put_all_app, put_all_other, Hmeta by solve_key.
    by rewrite (number_hash_snoc _ _ _ s _ c) by done.
  - rewrite put_all_app, put_all_other, Hmeta by solve_key.
    by rewrite (number_hash_snoc _ _ _ s _ c) by lia.
  - intros b' Hin. rewrite Hcol by (done || by intros [|[]]).
    apply elem_of_app in Hin as [Hin| ->%list_elem_of_singleton]; [by apply Hb|done].
  - intros b' i tx Hin Hl. rewrite Hcol by (done || by intros [|[]]).
    apply elem_of_app in Hin as [Hin| ->%list_elem_of_singleton]; [by apply Htx|by apply Htx0].
Qed.

Lemma ledger_ok_detach bs s c b :
  ledger_ok (mkLedger (bs ++ [b]) s c) → bs ≠ [] →
  ledger_ok (mkLedger bs (min s (pred (length bs))) (min c (pred (length bs)))).
Proof.
  intros [Hn Hh Hnext Hu Hshort Hp] Hbs. cbn in *. apply keys_snoc in Hu as (Hu & _ & _).
  rewrite length_app in Hshort, Hp. cbn in Hshort, Hp.
  assert (0 < length bs)%nat by (destruct bs; cbn; [done|lia]).
  split; cbn; try done; try lia.
  - intros i b' Hi. apply Hn. rewrite lookup_app_l; [done|by eapply lookup_lt_Some].
  - intros b' Hb'. apply Hh. set_solver.
  - intros i b1 b2 E1 E2. apply (Hnext i);
      (rewrite lookup_app_l; [done|by eapply lookup_lt_Some]).
Qed.

(** A position is where the ledger says, also after it was moved back. *)
Lemma back_position key n parent nh m :
  m !! (COLUMN_META, key) = Some (ENumberHash nh) →
  put_all (back key n parent nh) m !! (COLUMN_META, key) =
  Some (ENumberHash (if bool_decide (nh_number nh = n) then parent else nh)).
Proof. intros Hm. unfold back. case_bool_decide; [apply lookup_insert_eq|exact Hm]. Qed.
Lemma back_other key n parent nh m k :
  k ≠ (COLUMN_META, key) → put_all (back key n parent nh) m !! k = m !! k.
Proof. intros Hk. unfold back. case_bool_decide; [by apply lookup_insert_ne|done]. Qed.

Lemma position_back bs s c s' c' b i :
  ledger_ok (mkLedger (bs ++ [b]) s c) → bs ≠ [] → (i ≤ length bs)%nat →
  ∃ nh, number_hash (mkLedger (bs ++ [b]) s c) i = Some nh ∧
    number_hash (mkLedger bs s' c') (min i (pred (length bs))) =
    Some (if bool_decide (nh_number nh = block_number b)
          then mkNumberHash (saturating_sub (block_number b) 1)
                 (block_hash (default b (last bs)))
          else nh).
Proof.
  intros Hok Hbs Hi. destruct bs as [|pb bs _] using rev_ind; [done|].
  assert (Hb : block_number b = Z.of_nat (S (length bs))).
  { rewrite (lo_number _ Hok (length (bs ++ [pb])) b); [|cbn; by rewrite list_lookup_middle].
    rewrite length_app. cbn. lia. }
  rewrite length_app in *. cbn [length] in *. rewrite last_snoc. cbn [default].
  replace (pred (length bs + 1)) with (length bs) by lia.
  unfold number_hash. cbn [lg_blocks].
  destruct (decide (i = length bs + 1)%nat) as [->|Hne].
  - rewrite list_lookup_middle by (rewrite length_app; cbn; lia).
    eexists. split; [done|]. cbn. rewrite bool_decide_true by lia.
    rewrite Nat.min_r, list_lookup_middle by lia. cbn. do 2 f_equal.
    unfold saturating_sub. rewrite Hb. lia.
  - rewrite lookup_app_l by (rewrite length_app; cbn; lia).
    destruct ((bs ++ [pb]) !! i) as [x|] eqn:Ex.
    2: { apply lookup_ge_None in Ex. rewrite length_app in Ex. cbn in Ex. lia. }
    eexists. split; [done|]. cbn. rewrite bool_decide_false by lia.
    rewrite Nat.min_l by lia. by rewrite Ex.
Qed.

Lemma detached_other b leaves parent nhc nhs m col k :
  col ≠ COLUMN_META → (col, k) ∉ block_columns (block_number b) →
  detached b leaves parent nhc nhs m !! (col, k) = del_all (entries b).*1 m !! (col, k).
Proof.
  intros Hm Hk. unfold detached. rewrite del_all_other by done. rewrite !put_all_app, !back_other by (by intros [= ? _]).
  apply put_all_other.
  by intros ->%tip_entries_meta.
Qed.
Lemma detached_plain b leaves parent nhc nhs m col k :
  col = COLUMN_BLOCK ∨ col = COLUMN_TRANSACTION →
  detached b leaves parent nhc nhs m !! (col, k) = m !! (col, k).
Proof.
  intros Hc. rewrite detached_other, del_all_other; [done|..].
  - intros [->|[->| ->]]%entries_keys_indexed; by destruct Hc.
  - by destruct Hc as [->| ->].
  - intros Hin. apply list_elem_of_In in Hin. cbn [In block_columns] in Hin.
    destruct Hin as [Eq|[Eq|[Eq|[Eq|[]]]]]; injection Eq as <- _; by destruct Hc.
Qed.
Lemma detached_meta b leaves parent nhc nhs m k :
  detached b leaves parent nhc nhs m !! (COLUMN_META, k) =
  put_all (tip_entries leaves (nh_block_hash parent) ++
    back META_LAST_CONFIRMED_BLOCK_NUMBER_HASH_KEY (block_number b) parent nhc ++
    back META_LAST_SUBMITTED_BLOCK_NUMBER_HASH_KEY (block_number b) parent nhs) m !! (COLUMN_META, k).
Proof.
  unfold detached. rewrite del_all_other by (intros Hin; apply list_elem_of_In in Hin;
    cbn [In block_columns] in Hin; intuition done).
  apply put_all_cong, del_all_other. by intros [|[]]%entries_keys_indexed.
Qed.

Lemma holds_detach {E} db bs s c b :
  holds db (mkLedger (bs ++ [b]) s c) → bs ≠ [] →
  ∃ db', detach_block (E:=E) b db = (Ok tt, db') ∧
    holds db' (mkLedger bs (min s (pred (length bs))) (min c (pred (length bs)))).
Proof.
  intros [Hok Hix Hlv Hr Ht Hv Hs Hc Hb Htx] Hbs.
  pose proof (ledger_ok_detach _ _ _ _ Hok Hbs) as Hok'.
  pose proof (lo_positions _ Hok) as Hpos. cbn in Hpos. rewrite length_app in Hpos. cbn in Hpos.
  destruct (keys_snoc _ _ (lo_unique _ Hok)) as (_ & _ & Hdisj).
  destruct (position_back bs s c (min s (pred (length bs))) (min c (pred (length bs))) b s Hok Hbs
              ltac:(lia)) as (nhs & Es & Es').
  destruct (position_back bs s c (min s (pred (length bs))) (min c (pred (length bs))) b c Hok Hbs
              ltac:(lia)) as (nhc & Ec & Ec').
  cbn [lg_submitted lg_confirmed] in *. rewrite Es in Hs. rewrite Ec in Hc.
  destruct bs as [|pb bs0 _] using rev_ind; [done|]. clear Hbs. set (bs := bs0 ++ [pb]) in *.
  assert (Hlast : last bs = Some pb) by apply last_snoc. rewrite Hlast in Es', Ec'. cbn in Es', Ec'.
  assert (Hpn : block_number pb = saturating_sub (block_number b) 1).
  { rewrite (lo_number _ Hok (length bs0) pb), (lo_number _ Hok (length bs) b);
      unfold bs; cbn; rewrite ?length_app, ?list_lookup_middle, ?lookup_app_l
        by (rewrite ?length_app; cbn; lia); try done; [unfold saturating_sub; cbn; lia|].
    by rewrite list_lookup_middle. }
  assert (Hpb : ((COLUMN_INDEX, le_bytes 8 (saturating_sub (block_number b) 1)), EBytes (block_hash pb))
                ∈ bs ≫= entries).
  { rewrite <- Hpn. apply (entry_of_block _ pb); [unfold bs; set_solver|apply number_entry]. }
  cbn [lg_blocks] in *. rewrite last_snoc in Hv.
  rewrite (detach_run b db _ nhc nhs (block_hash pb) Hv Hr); [| |by eapply Hdisj, key_of_entry|done..].
  2: { apply Hix; [by left|]. cbn [lg_blocks]. rewrite entries_snoc. apply elem_of_app. by left. }
  eexists. split; [done|].
  set (leaves := leaf_put _ _ _). set (parent := mkNumberHash _ _).
  destruct (tip_entries_lookup leaves (block_hash pb)
    (back META_LAST_CONFIRMED_BLOCK_NUMBER_HASH_KEY (block_number b) parent nhc ++
     back META_LAST_SUBMITTED_BLOCK_NUMBER_HASH_KEY (block_number b) parent nhs) (sd_columns db))
    as (Hroot & Htip & Hvalid).
  { intros k Hk. unfold back. apply list_elem_of_In in Hk. cbn in Hk.
    repeat case_bool_decide; destruct Hk as [<-|[<-|[<-|[]]]]; solve_key. }
  split; cbn [sd_columns sd_block_leaves with_columns with_block_leaves lg_blocks lg_submitted
              lg_confirmed]; try done.
  - intros col k v Hi. rewrite detached_other.
    2: { intros ->. by destruct Hi as [|[]]. }
    2: { intros Hin. apply list_elem_of_In in Hin. cbn [In block_columns] in Hin.
         destruct Hin as [Eq|[Eq|[Eq|[Eq|[]]]]]; injection Eq as <- _; by destruct Hi as [|[]]. }
    rewrite del_all_lookup, Hix, entries_snoc, elem_of_app by done. split.
    + intros [Hk [?|Hin]]; [done|]. destruct Hk. apply list_elem_of_fmap. by exists (col, k, v).
    + intros Hin. split; [by eapply Hdisj, key_of_entry|by left].
  - intros k v. unfold leaves, leaf_put. change (h256_is_zero h256_zero) with true. cbv iota.
    rewrite lookup_delete_Some, Hlv. split.
    + intros [Hk (b' & [Hin| ->%list_elem_of_singleton]%elem_of_app & -> & ->)]; [by exists b'|done].
    + intros (b' & Hin & -> & ->). split; [by intros ?%eq_sym%(smt_key_fresh bs s c)|].
      exists b'. split; [|done]. apply elem_of_app. by left.
  - rewrite detached_meta. exact Hroot.
  - rewrite detached_meta, Hlast. exact Htip.
  - rewrite detached_meta, Hlast. exact Hvalid.
  - rewrite detached_meta, !put_all_app, Es'. apply back_position.
    rewrite back_other, put_all_other by solve_key. exact Hs.
  - rewrite detached_meta, !put_all_app, Ec'. rewrite back_other by solve_key. apply back_position.
    rewrite put_all_other by solve_key. exact Hc.
  - intros b' Hin. rewrite detached_plain by auto. apply Hb. apply elem_of_app. by left.
  - intros b' i tx Hin Hl. rewrite detached_plain by auto. apply Htx; [apply elem_of_app; by left|done].
Qed.

(** ** Reading *)
Lemma index_entry bs k v :
  ((COLUMN_INDEX, k), v) ∈ bs ≫= entries →
  ∃ b, b ∈ bs ∧ ((k = le_bytes 8 (block_number b) ∧ v = EBytes (block_hash b)) ∨
                 (k = block_hash b ∧ v = EBytes (le_bytes 8 (block_number b)))).
Proof.
  intros (b & Hin & Hb)%list_elem_of_bind. exists b. split; [done|].
  unfold entries, infos in Hin. rewrite !elem_of_app, !enumerate_put_in in Hin.
  destruct Hin as [(i & a & _ & E%list_elem_of_singleton)|[(i & a & _ & E%list_elem_of_singleton)|
    [E|[E|[]]]%list_elem_of_In]]; [done..| |]; injection E as <- <-; auto.
Qed.
Lemma tx_entry bs h v :
  ((COLUMN_TRANSACTION_INFO, h), v) ∈ bs ≫= entries →
  ∃ b i tx, b ∈ bs ∧ block_transactions b !! i = Some tx ∧ h = tx_hash tx ∧
    v = EInfo (mkItemInfo (block_number b) (build_item_key (block_hash b) (Z.of_nat i))).
Proof.
  intros (b & Hin & Hb)%list_elem_of_bind.
  unfold entries, infos in Hin. rewrite !elem_of_app, !enumerate_put_in in Hin.
  destruct Hin as [(i & a & Hl & E%list_elem_of_singleton)|[(i & a & _ & E%list_elem_of_singleton)|
    [E|[E|[]]]%list_elem_of_In]]; [|done..]. injection E as -> ->. by exists b, i, a.
Qed.

Section Reads.
Context {E : Type} (db : StoreDb) (l : Ledger) (Hh : holds db l).
Let Hok : ledger_ok l := ho_ok _ _ Hh.

Lemma read_index k v :
  ((COLUMN_INDEX, k), EBytes v) ∈ lg_blocks l ≫= entries →
  get_as (E:=E) as_bytes COLUMN_INDEX k db = (Ok (Some v), db).
Proof.
  intros Hin. unfold get_as. apply (ho_indexed _ _ Hh) in Hin; [|by left]. by rewrite Hin.
Qed.
Lemma read_no_index k :
  (∀ b, b ∈ lg_blocks l → k ≠ le_bytes 8 (block_number b) ∧ k ≠ block_hash b) →
  get_as (E:=E) as_bytes COLUMN_INDEX k db = (Ok None, db).
Proof.
  intros Hk. unfold get_as. destruct (sd_columns db !! _) as [v|] eqn:Hv; [|done]. exfalso.
  apply (ho_indexed _ _ Hh) in Hv; [|by left].
  apply index_entry in Hv as (b & Hb & [[-> _]|[-> _]]); by destruct (Hk b Hb).
Qed.

Lemma block_number_u64 b : b ∈ lg_blocks l → u64 (block_number b).
Proof.
  intros (i & Hi)%list_elem_of_lookup. rewrite (lo_number _ Hok _ _ Hi).
  apply lookup_lt_Some in Hi. pose proof (lo_short _ Hok). unfold in_width. lia.
Qed.

Lemma read_hash_by_number n :
  u64 n → get_block_hash_by_number (E:=E) n db = (Ok (block_hash <$> lg_blocks l !! Z.to_nat n), db).
Proof.
  intros Hn. unfold get_block_hash_by_number.
  destruct (lg_blocks l !! Z.to_nat n) as [b|] eqn:Hb.
  - apply read_index. replace n with (block_number b).
    2: { rewrite (lo_number _ Hok _ _ Hb). unfold in_width in Hn. lia. }
    eapply entry_of_block, number_entry. by eapply list_elem_of_lookup_2.
  - apply read_no_index. intros b' Hb'. split.
    + intros Eq. apply (le_bytes_inj 8) in Eq; [|exact Hn|by apply block_number_u64].
      apply list_elem_of_lookup in Hb' as (i & Hi). rewrite (lo_number _ Hok _ _ Hi) in Eq.
      subst n. rewrite Nat2Z.id in Hb. congruence.
    + intros Eq. apply (f_equal length) in Eq. rewrite le_bytes_length in Eq.
      destruct (lo_hash _ Hok _ Hb') as [H32 _]. lia.
Qed.

Lemma read_block_number h :
  length h = 32%nat →
  get_block_number (E:=E) h db =
  (Ok (Z.of_nat ∘ fst <$> list_find (λ b, block_hash b = h) (lg_blocks l)), db).
Proof.
  intros H32. unfold get_block_number, mbind at 1, ST_bind.
  destruct (list_find _ _) as [[i b]|] eqn:Hf.
  - apply list_find_Some in Hf as (Hi & <- & _).
    pose proof (list_elem_of_lookup_2 _ _ _ Hi) as Hin.
    rewrite (read_index _ (le_bytes 8 (block_number b))) by (eapply entry_of_block, hash_entry; done).
    change ((Ok (E:=E) (Some (le_val (le_bytes 8 (block_number b)))), db) =
            (Ok (Some (Z.of_nat i)), db)).
    rewrite le_val_bytes_small by (by apply block_number_u64).
    by rewrite (lo_number _ Hok _ _ Hi).
  - rewrite read_no_index; [done|]. intros b Hb. split.
    + intros Eq. apply (f_equal length) in Eq. rewrite le_bytes_length in Eq. lia.
    + intros ->. apply list_find_None in Hf. rewrite Forall_forall in Hf. by apply (Hf b).
Qed.

Lemma read_block b : b ∈ lg_blocks l → get_block (E:=E) (block_hash b) db = (Ok (Some b), db).
Proof. intros Hb. unfold get_block, get_as. by rewrite (ho_blocks _ _ Hh b Hb). Qed.

Lemma read_tips :
  ∃ b, last (lg_blocks l) = Some b ∧ get_tip_block (E:=E) db = (Ok b, db) ∧
       get_last_valid_tip_block (E:=E) db = (Ok b, db).
Proof.
  destruct (last (lg_blocks l)) as [b|] eqn:Hl.
  2: { apply last_None in Hl. pose proof (lo_positions _ Hok) as Hp. rewrite Hl in Hp. cbn in Hp. lia. }
  assert (Hb : b ∈ lg_blocks l) by (by eapply last_Some_elem_of).
  pose proof (ho_tip _ _ Hh) as Ht. pose proof (ho_valid _ _ Hh) as Hv. rewrite Hl in Ht, Hv.
  exists b. split; [done|]. split.
  - unfold get_tip_block. rewrite (st_bind_run get_tip_block_hash _ _ _ _ (get_hash_run _ _ _ Ht)).
    by rewrite (st_bind_run _ _ _ _ _ (read_block _ Hb)).
  - unfold get_last_valid_tip_block.
    rewrite (st_bind_run get_last_valid_tip_block_hash _ _ _ _ (get_hash_run _ _ _ Hv)).
    unfold st_unwrap. by rewrite (st_bind_run _ _ _ _ _ (read_block _ Hb)).
Qed.

Lemma read_transaction b tx :
  b ∈ lg_blocks l → tx ∈ block_transactions b →
  get_transaction (E:=E) (tx_hash tx) db = (Ok (Some tx), db).
Proof.
  intros Hb (i & Hi)%list_elem_of_lookup.
  assert (Hin : sd_columns db !! (COLUMN_TRANSACTION_INFO, tx_hash tx) =
    Some (EInfo (mkItemInfo (block_number b) (build_item_key (block_hash b) (Z.of_nat i))))).
  { apply (ho_indexed _ _ Hh); [by right; left|]. apply (entry_of_block _ b); [done|].
    unfold entries, infos. rewrite elem_of_app, enumerate_put_in. left. exists i, tx. set_solver. }
  unfold get_transaction, follow, get_transaction_info, get_transaction_by_key, get_as, mbind, ST_bind.
  rewrite Hin. cbn [as_info info_key]. by rewrite (ho_txs _ _ Hh _ _ _ Hb Hi).
Qed.
Lemma read_no_transaction h :
  (∀ b tx, b ∈ lg_blocks l → tx ∈ block_transactions b → tx_hash tx ≠ h) →
  get_transaction (E:=E) h db = (Ok None, db).
Proof.
  intros Hno. unfold get_transaction, follow, get_transaction_info, get_as, mbind, ST_bind.
  destruct (sd_columns db !! _) as [v|] eqn:Hv; [|done]. exfalso.
  apply (ho_indexed _ _ Hh) in Hv; [|by right; left].
  apply tx_entry in Hv as (b & i & tx & Hb & Hi & -> & _).
  apply (Hno b tx Hb); [by eapply list_elem_of_lookup_2|done].
Qed.

Lemma read_position (key : bytes) i :
  sd_columns db !! (COLUMN_META, key) = ENumberHash <$> number_hash l i →
  (i < length (lg_blocks l))%nat →
  ∃ b, lg_blocks l !! i = Some b ∧
    get_as (E:=E) as_number_hash COLUMN_META key db =
    (Ok (Some (mkNumberHash (Z.of_nat i) (block_hash b))), db).
Proof.
  intros Hk Hi. destruct (lookup_lt_is_Some_2 _ _ Hi) as [b Hb]. exists b. split; [done|].
  unfold number_hash in Hk. rewrite Hb in Hk. unfold get_as. by rewrite Hk.
Qed.

Lemma read_status n :
  get_block_status (E:=E) n db =
  (Ok (if n <=? Z.of_nat (lg_confirmed l) then Confirmed
       else if n <=? Z.of_nat (lg_submitted l) then Submitted else Local), db).
Proof.
  pose proof (lo_positions _ Hok) as Hp.
  destruct (read_position _ _ (ho_confirmed _ _ Hh)) as (bc & _ & Ec); [lia|].
  destruct (read_position _ _ (ho_submitted _ _ Hh)) as (bs & _ & Es); [lia|].
  unfold get_block_status.
  rewrite (st_bind_run get_last_confirmed_block_number_hash _ _ _ _ Ec). cbn [at_most nh_number].
  destruct (n <=? Z.of_nat (lg_confirmed l)); [done|].
  by rewrite (st_bind_run get_last_submitted_block_number_hash _ _ _ _ Es).
Qed.
End Reads.

(** The reads answer from the ledger. *)
Record answers (db : StoreDb) (l : Ledger) : Prop := {
  an_by_number n : u64 n →
    get_block_hash_by_number (E:=StoreError) n db =
    (Ok (block_hash <$> lg_blocks l !! Z.to_nat n), db);
  an_number h : length h = 32%nat →
    get_block_number (E:=StoreError) h db =
    (Ok (Z.of_nat ∘ fst <$> list_find (λ b, block_hash b = h) (lg_blocks l)), db);
  an_tips : ∃ b, last (lg_blocks l) = Some b ∧ get_tip_block (E:=StoreError) db = (Ok b, db) ∧
    get_last_valid_tip_block (E:=StoreError) db = (Ok b, db);
  an_transaction b tx : b ∈ lg_blocks l → tx ∈ block_transactions b →
    get_transaction (E:=StoreError) (tx_hash tx) db = (Ok (Some tx), db);
  an_no_transaction h : (∀ b tx, b ∈ lg_blocks l → tx ∈ block_transactions b → tx_hash tx ≠ h) →
    get_transaction (E:=StoreError) h db = (Ok None, db);
  an_status n : get_block_status (E:=StoreError) n db =
    (Ok (if n <=? Z.of_nat (lg_confirmed l) then Confirmed
         else if n <=? Z.of_nat (lg_submitted l) then Submitted else Local), db);
}.
Lemma holds_answers db l : holds db l → answers db l.
Proof.
  intros Hh. split.
  - intros n. by apply read_hash_by_number.
  - intros h. by apply read_block_number.
  - by apply read_tips.
  - intros b tx. by apply read_transaction.
  - intros h. by apply read_no_transaction.
  - by apply read_status.
Qed.

(** Moving a position. *)
Lemma holds_move db bs s c s' c' key nh :
  holds db (mkLedger bs s c) → (c' ≤ s' < length bs)%nat →
  (key = META_LAST_SUBMITTED_BLOCK_NUMBER_HASH_KEY ∧ c' = c ∧
     number_hash (mkLedger bs s c) s' = Some nh ∨
   key = META_LAST_CONFIRMED_BLOCK_NUMBER_HASH_KEY ∧ s' = s ∧
     number_hash (mkLedger bs s c) c' = Some nh) →
  holds (with_columns (put_all [((COLUMN_META, key), ENumberHash nh)]) db) (mkLedger bs s' c').
Proof.
  intros [[Hn H32 Hnext Hu Hshort _] Hix Hlv Hr Ht Hv Hs Hc Hb Htx] Hp Hkey. cbn in *.
  assert (Hother : ∀ k, k ≠ (COLUMN_META, key) →
    put_all [((COLUMN_META, key), ENumberHash nh)] (sd_columns db) !! k = sd_columns db !! k)
    by (intros k Hk; by apply lookup_insert_ne).
  assert (Hm : ∀ k, k ≠ META_LAST_SUBMITTED_BLOCK_NUMBER_HASH_KEY →
    k ≠ META_LAST_CONFIRMED_BLOCK_NUMBER_HASH_KEY →
    put_all [((COLUMN_META, key), ENumberHash nh)] (sd_columns db) !! (COLUMN_META, k) =
    sd_columns db !! (COLUMN_META, k)).
  { intros k Hk Hk'. apply Hother. intros [= ->]. by destruct Hkey as [[-> _]|[-> _]]. }
  split; cbn [sd_columns sd_block_leaves with_columns lg_blocks lg_submitted lg_confirmed];
    rewrite ?Hm by solve_key; try done.
  - intros col k v Hi. rewrite Hother; [by apply Hix|]. intros [= ->]. by destruct Hi as [|[]].
  - destruct Hkey as [(-> & -> & E)|(-> & -> & E)].
    + etransitivity; [apply lookup_insert_eq|]. symmetry. exact (f_equal (fmap ENumberHash) E).
    + rewrite Hother by solve_key. done.
  - destruct Hkey as [(-> & -> & E)|(-> & -> & E)].
    + rewrite Hother by solve_key. done.
    + etransitivity; [apply lookup_insert_eq|]. symmetry. exact (f_equal (fmap ENumberHash) E).
  - intros b Hin. rewrite Hother by done. by apply Hb.
  - intros b i tx Hin Hl. rewrite Hother by done. by apply Htx.
Qed.

Lemma move_run db bs s c i key (set : NumberHash → ST StoreDb StoreError unit) :
  (∀ nh, set nh = insert_raw COLUMN_META key (ENumberHash nh)) →
  holds db (mkLedger bs s c) →
  sd_columns db !! (COLUMN_META, key) = ENumberHash <$> number_hash (mkLedger bs s c) i →
  (S i < length bs)%nat →
  ∃ nh, number_hash (mkLedger bs s c) (S i) = Some nh ∧
    move_next (get_as as_number_hash COLUMN_META key) set db =
    (Ok tt, with_columns (put_all [((COLUMN_META, key), ENumberHash nh)]) db).
Proof.
  intros Hset Hh Hk Hi.
  destruct (read_position (E:=StoreError) _ _ key i Hk ltac:(cbn; lia)) as (b & _ & Er).
  destruct (lookup_lt_is_Some_2 _ _ Hi) as [b' Hb'].
  unfold number_hash at 1. cbn [lg_blocks]. rewrite Hb'. eexists. split; [done|].
  unfold move_next, st_unwrap. cbn [fmap option_fmap option_map].
  erewrite st_bind_run by (by rewrite (st_bind_run _ _ _ _ _ Er)).
  pose proof (lo_short _ (ho_ok _ _ Hh)) as Hshort. cbn in Hshort.
  assert (Hu : u64 (Z.of_nat i + 1)) by (unfold in_width; lia).
  erewrite st_bind_run.
  2: { rewrite (st_bind_run _ _ _ _ _ (read_hash_by_number _ _ Hh _ Hu)). cbn [lg_blocks nh_number]. replace (Z.to_nat (Z.of_nat i + 1)) with (S i) by lia. by rewrite Hb'. }
  rewrite Hset. cbn [nh_number]. replace (Z.of_nat i + 1) with (Z.of_nat (S i)) by lia. done.
Qed.

Lemma ledger_step_run db l op l' :
  holds db l → ledger_step l op l' → ∃ db', run_op op db = (Ok tt, db') ∧ holds db' l'.
Proof.
  intros Hh Hstep. destruct Hstep as [bs s c b gs pst rs ds ws Hok Hc Hlen Hshort Hs|bs s c b Hbs|
    bs s c Hs|bs s c Hs]; cbn [run_op].
  - destruct (holds_insert db bs s c b gs pst rs ds ws) as (db1 & E1 & Hh1 & Hb1 & Htx1 & _); try done.
    rewrite (st_bind_run _ _ _ _ _ E1). by apply holds_attach.
  - destruct (read_tips (E:=StoreError) db _ Hh) as (b' & Hl & _ & Et). cbn in Hl.
    rewrite last_snoc in Hl. injection Hl as <-. rewrite (st_bind_run _ _ _ _ _ Et).
    by apply holds_detach.
  - destruct (move_run db bs s c s META_LAST_SUBMITTED_BLOCK_NUMBER_HASH_KEY
      set_last_submitted_block_number_hash (λ _, eq_refl) Hh (ho_submitted _ _ Hh) Hs) as (nh & En & Er).
    pose proof (lo_positions _ (ho_ok _ _ Hh)) as Hp. cbn in Hp.
    eexists. split; [exact Er|]. apply (holds_move _ _ s c); [done|lia|]. left. eauto.
  - pose proof (lo_positions _ (ho_ok _ _ Hh)) as Hp. cbn in Hp.
    destruct (move_run db bs s c c META_LAST_CONFIRMED_BLOCK_NUMBER_HASH_KEY
      set_last_confirmed_block_number_hash (λ _, eq_refl) Hh (ho_confirmed _ _ Hh) ltac:(lia))
      as (nh & En & Er).
    eexists. split; [exact Er|]. apply (holds_move _ _ s c); [done|lia|]. right. eauto.
Qed.

(** C23. The store implements a chain of blocks: from a store that holds a ledger,
    every sequence of steps of the ledger (extend the chain by a linked block
    without hash collisions, detach the last block, move the submitted or the
    confirmed position) runs without error or panic on the store, the store holds
    the new ledger, and the reads of blocks, numbers, transactions and statuses
    answer from it. *)
Theorem store_refines_ledger (ops : list ledger_op) (db : StoreDb) (l l' : Ledger) :
  holds db l → ledger_steps l ops l' →
  ∃ db', st_for ops run_op db = (Ok tt, db') ∧ holds db' l' ∧ answers db' l'.
Proof.
  intros Hh Hsteps. revert db Hh.
  induction Hsteps as [l|l op l1 ops l2 Hstep _ IH]; intros db Hh.
  - exists db. split; [done|]. auto using holds_answers.
  - destruct (ledger_step_run db l op l1 Hh Hstep) as (db1 & Er & Hh1).
    destruct (IH db1 Hh1) as (db2 & Er2 & Hh2). exists db2. split; [|done].
    cbn [st_for]. by rewrite (st_bind_run _ _ _ _ _ Er).
Qed.
End Ledger.
