(* ===== verification/LocalCells.v ===== *)
(** * Cells the node knows before layer 1 does (crates/utils/src/local_cells.rs)

    [LocalCellsManager] tracks the cells the node's own transactions spend and
    create while they wait for confirmation, and the collectors combine them with
    what the indexer returns.

    The theorem: after a sequence of transactions that spend one another's
    outputs, the manager is the set of spent cells and the unspent outputs. *)
From Stdlib Require Import ZArith Lia Strings.Byte.
From stdpp Require Import prelude list gmap countable.
From S2P Require Import Prelude Bytes Types State StateSpec StateDB History Finality Ckb.
From S2P Require Import NodeState AccountLocks Verifiers Store.
Local Open Scope Z_scope.

#[export] Instance OutPoint_eq_dec : EqDecision OutPoint.
Proof. solve_decision. Defined.
#[export] Program Instance OutPoint_countable : Countable OutPoint :=
  inj_countable' (λ p, (op_tx_hash p, op_index p)) (λ '(h, i), mkOutPoint h i) _.
Next Obligation. by intros []. Qed.

Record LocalCellsManager := mkLocalCells {
  dead_cells : gset OutPoint; local_live_cells : gmap OutPoint CellInfo;
}.
Definition no_local_cells : LocalCellsManager := mkLocalCells ∅ ∅.

Definition is_dead (p : OutPoint) (m : LocalCellsManager) : bool := bool_decide (p ∈ dead_cells m).
Definition lock_cell (p : OutPoint) (m : LocalCellsManager) : LocalCellsManager :=
  mkLocalCells ({[p]} ∪ dead_cells m) (delete p (local_live_cells m)).
Definition add_live (cell : CellInfo) (m : LocalCellsManager) : LocalCellsManager :=
  mkLocalCells (dead_cells m) (<[cell_out_point cell := cell]> (local_live_cells m)).
Definition local_cells_reset (m : LocalCellsManager) : LocalCellsManager := no_local_cells.

Section Transactions.
Context `{Blake2b, HashCodec}.

Definition lock_inputs (inputs : list CellInput) (m : LocalCellsManager) : LocalCellsManager :=
  foldl (λ m input, lock_cell (ci_previous_output input) m) m inputs.
(** [u32::try_from(idx).unwrap()] *)
Definition add_output {E} (tx_hash : H256) (m : LocalCellsManager) (item : nat * (CellOutput * bytes)) :
    outcome E LocalCellsManager :=
  let '(idx, (output, data)) := item in
  index ← unwrap (if Z.of_nat idx <? 2 ^ 32 then Some (Z.of_nat idx) else None);
  Ok (add_live (mkCellInfo (mkOutPoint tx_hash index) output data) m).
Definition apply_tx {E} (tx : L1Transaction) (m : LocalCellsManager) : outcome E LocalCellsManager :=
  foldM (add_output (l1_hash tx)) (lock_inputs (l1_inputs tx) m)
    (imap pair (zip (l1_outputs tx) (l1_outputs_data tx))).
Definition confirm_tx (tx : L1Transaction) (m : LocalCellsManager) : LocalCellsManager :=
  mkLocalCells (foldl (λ dead input, dead ∖ {[ci_previous_output input]}) (dead_cells m) (l1_inputs tx))
    (local_live_cells m).
End Transactions.

(** ** Searching *)
Inductive ScriptType := ScriptTypeLock | ScriptTypeType.
Record SearchKeyFilter := mkSearchKeyFilter {
  sf_script : option Script;
  sf_output_data_len_range : option (Z * Z);
  sf_output_capacity_range : option (Z * Z);
}.
Record SearchKey := mkSearchKey {
  sk_script : Script; sk_script_type : ScriptType; sk_filter : option SearchKeyFilter;
}.

(** [this] is a prefix of [other]. *)
Definition script_prefix_eq (this other : Script) : bool :=
  bool_decide (code_hash this = code_hash other) && (hash_type this =? hash_type other)
  && bool_decide (take (length (args this)) (args other) = args this).

Definition in_range (r : option (Z * Z)) (n : Z) : bool :=
  match r with Some (start, end_) => (start <=? n) && (n <? end_) | None => true end.
Definition option_prefix (this : Script) (o : option Script) : bool :=
  match o with Some s => script_prefix_eq this s | None => false end.

(** The block range of a filter is ignored. *)
Definition satisfy_search (key : SearchKey) (c : CellInfo) : bool :=
  let lock := Some (co_lock (cell_output c)) in
  let type_ := co_type (cell_output c) in
  let '(own, other) :=
    match sk_script_type key with ScriptTypeLock => (lock, type_) | ScriptTypeType => (type_, lock) end in
  option_prefix (sk_script key) own
  && match sk_filter key with
     | None => true
     | Some f =>
         match sf_script f with Some s => option_prefix s other | None => true end
         && in_range (sf_output_capacity_range f) (co_capacity (cell_output c))
         && in_range (sf_output_data_len_range f) (Z.of_nat (length (cell_data c)))
     end.

Inductive CollectCursor := CursorLocal | CursorIndexer (cursor : option bytes) | CursorEnded.
Definition cursor_is_ended (c : CollectCursor) : bool :=
  match c with CursorEnded => true | _ => false end.

(** [indexer_client.get_cells]: cells and the next cursor; the order in which a
    [HashMap] yields its values is not specified. *)
Class Indexer := {
  get_cells : SearchKey → option bytes → outcome unit (list CellInfo * bytes);
  live_iter : gmap OutPoint CellInfo → list CellInfo;
  live_iter_perm m : live_iter m ≡ₚ (map_to_list m).*2;
}.

Section Collect.
Context `{Indexer}.

Definition collect_local_cells (m : LocalCellsManager) (key : SearchKey) : list CellInfo :=
  filter (λ c, satisfy_search key c = true) (live_iter (local_live_cells m)).

Definition collect_local_and_indexer_cells (m : LocalCellsManager) (key : SearchKey) :
    ST CollectCursor unit (list CellInfo) := λ cursor,
  match cursor with
  | CursorLocal => (Ok (collect_local_cells m key), CursorIndexer None)
  | CursorIndexer indexer_cursor =>
      match get_cells key indexer_cursor with
      | Ok (objects, last_cursor) =>
          (Ok (filter (λ c, is_dead (cell_out_point c) m = false) objects),
           if bool_decide (last_cursor = []) then CursorEnded else CursorIndexer (Some last_cursor))
      | Err e => (Err e, cursor)
      | Panic => (Panic, cursor)
      end
  | CursorEnded => (Ok [], cursor)
  end.
End Collect.

(** ** Unspent outputs *)
Section Utxo.
Context `{Blake2b, HashCodec}.

Definition spent_by (tx : L1Transaction) (p : OutPoint) : Prop :=
  p ∈ ci_previous_output <$> l1_inputs tx.
#[export] Instance spent_by_dec tx p : Decision (spent_by tx p).
Proof. unfold spent_by. apply _. Defined.
(** Output [i] of [tx] as a cell *)
Definition creates (tx : L1Transaction) (p : OutPoint) (cell : CellInfo) : Prop :=
  ∃ i output data, zip (l1_outputs tx) (l1_outputs_data tx) !! i = Some (output, data) ∧
    p = mkOutPoint (l1_hash tx) (Z.of_nat i) ∧ cell = mkCellInfo p output data.
Definition few_outputs (tx : L1Transaction) : Prop :=
  Z.of_nat (length (zip (l1_outputs tx) (l1_outputs_data tx))) ≤ 2 ^ 32.

Lemma lock_inputs_spec inputs m :
  (∀ p, p ∈ dead_cells (lock_inputs inputs m) ↔ p ∈ dead_cells m ∨ p ∈ ci_previous_output <$> inputs) ∧
  (∀ p, local_live_cells (lock_inputs inputs m) !! p =
        if bool_decide (p ∈ ci_previous_output <$> inputs) then None else local_live_cells m !! p).
Proof.
  revert m. induction inputs as [|i inputs IH]; intros m; cbn.
  - split; [|done]. intros p. rewrite elem_of_nil. tauto.
  - destruct (IH (lock_cell (ci_previous_output i) m)) as [Hd Hl]. split; intros p.
    + rewrite Hd, elem_of_cons. cbn. rewrite elem_of_union, elem_of_singleton. tauto.
    + rewrite Hl. cbn. destruct (decide (p ∈ ci_previous_output <$> inputs)) as [Hp|Hp].
      * rewrite !bool_decide_true by (by rewrite ?elem_of_cons; tauto). done.
      * rewrite bool_decide_false by done. destruct (decide (p = ci_previous_output i)) as [->|Hne].
        -- by rewrite lookup_delete_eq, bool_decide_true by (rewrite elem_of_cons; tauto).
        -- rewrite lookup_delete_ne, bool_decide_false by (done || (rewrite elem_of_cons; tauto)). done.
Qed.

Lemma foldM_snoc {E A B} (f : A → B → outcome E A) a l b :
  foldM f a (l ++ [b]) = (a' ← foldM f a l; f a' b).
Proof. rewrite foldM_app. destruct (foldM f a l); cbn; [by destruct (f _ b)|done..]. Qed.

Lemma add_outputs_spec {E} h (l : list (CellOutput * bytes)) m :
  Z.of_nat (length l) ≤ 2 ^ 32 →
  ∃ m', foldM (add_output h) m (imap pair l) = Ok (E:=E) m' ∧ dead_cells m' = dead_cells m ∧
    ∀ p, local_live_cells m' !! p =
      if bool_decide (op_tx_hash p = h ∧ 0 ≤ op_index p) then
        match l !! Z.to_nat (op_index p) with
        | Some (o, d) => Some (mkCellInfo p o d)
        | None => local_live_cells m !! p
        end
      else local_live_cells m !! p.
Proof.
  induction l as [|[o d] l IH] using rev_ind; intros Hlen.
  - exists m. split; [done|]. split; [done|]. intros p. by case_bool_decide.
  - rewrite length_app in Hlen. cbn in Hlen. destruct IH as (m1 & E1 & Hd & Hl); [lia|].
    rewrite imap_app. cbn [imap]. rewrite foldM_snoc, E1. cbn [mbind outcome_bind add_output].
    rewrite Nat.add_0_r, (proj2 (Z.ltb_lt _ _)) by lia. cbn [unwrap mbind outcome_bind].
    eexists. split; [done|]. split; [done|]. intros p. cbn [add_live local_live_cells cell_out_point].
    destruct (decide (p = mkOutPoint h (Z.of_nat (length l)))) as [->|Hne].
    + rewrite lookup_insert_eq, bool_decide_true by (cbn; split; [done|lia]). cbn [op_index].
      rewrite Nat2Z.id. by rewrite list_lookup_middle.
    + rewrite lookup_insert_ne, Hl by done. case_bool_decide as Hp; [|done].
      destruct (decide (Z.to_nat (op_index p) < length l)%nat).
      * by rewrite lookup_app_l.
      * rewrite lookup_ge_None_2 by lia. destruct p as [h' i]. cbn in *. destruct Hp as [-> Hi].
        rewrite lookup_ge_None_2; [done|]. rewrite length_app. cbn.
        destruct (decide (Z.to_nat i = length l)) as [Ei|]; [|lia].
        by destruct Hne; rewrite <- Ei, Z2Nat.id.
Qed.

Lemma creates_lookup tx p cell :
  creates tx p cell ↔
  op_tx_hash p = l1_hash tx ∧ 0 ≤ op_index p ∧
  ∃ o d, zip (l1_outputs tx) (l1_outputs_data tx) !! Z.to_nat (op_index p) = Some (o, d) ∧
         cell = mkCellInfo p o d.
Proof.
  split.
  - intros (i & o & d & Hi & -> & ->). cbn. split; [done|]. split; [lia|]. exists o, d. by rewrite Nat2Z.id.
  - destruct p as [h i]. cbn. intros (-> & Hi & o & d & Hl & ->). exists (Z.to_nat i), o, d.
    by rewrite Z2Nat.id.
Qed.

Lemma apply_tx_spec {E} tx m :
  few_outputs tx →
  ∃ m', apply_tx tx m = Ok (E:=E) m' ∧
    (∀ p, p ∈ dead_cells m' ↔ p ∈ dead_cells m ∨ spent_by tx p) ∧
    (∀ p, op_tx_hash p ≠ l1_hash tx → local_live_cells m' !! p =
       if bool_decide (spent_by tx p) then None else local_live_cells m !! p) ∧
    (∀ p cell, creates tx p cell → local_live_cells m' !! p = Some cell) ∧
    (∀ p cell, op_tx_hash p = l1_hash tx → local_live_cells m' !! p = Some cell →
       creates tx p cell ∨ local_live_cells m !! p = Some cell).
Proof.
  intros Hf. unfold apply_tx. destruct (lock_inputs_spec (l1_inputs tx) m) as [Hd Hl].
  destruct (add_outputs_spec (E:=E) (l1_hash tx) _ (lock_inputs (l1_inputs tx) m) Hf) as (m' & E' & Hd' & Hl').
  exists m'. split; [exact E'|]. split; [intros p; by rewrite Hd', Hd|]. split; [|split].
  - intros p Hp. rewrite Hl', bool_decide_false by tauto. apply Hl.
  - intros p cell (Hh & Hi & o & d & Hz & ->)%creates_lookup. by rewrite Hl', bool_decide_true, Hz by done.
  - intros p cell Hh. rewrite Hl'. destruct (decide (0 ≤ op_index p)) as [Hi|Hi].
    + rewrite bool_decide_true by done. destruct (zip _ _ !! _) as [[o d]|] eqn:Hz.
      * intros [= <-]. left. apply creates_lookup. eauto 6.
      * rewrite Hl. case_bool_decide; [done|]. by right.
    + rewrite bool_decide_false by tauto. rewrite Hl. case_bool_decide; [done|]. by right.
Qed.

(** The transactions spend only what exists before them. *)
Definition in_order (txs : list L1Transaction) : Prop :=
  ∀ i j tx tx' p, (i ≤ j)%nat → txs !! i = Some tx → txs !! j = Some tx' → spent_by tx p →
    op_tx_hash p ≠ l1_hash tx'.
Definition apply_txs {E} (txs : list L1Transaction) : outcome E LocalCellsManager :=
  foldM (λ m tx, apply_tx tx m) no_local_cells txs.

(** The local cells are the unspent outputs: after the node's transactions, in an
    order in which each spends only earlier outputs, the dead cells are the cells
    the transactions spend, and the live cells are their outputs that none of them
    spends. *)
Theorem local_cells_are_unspent (txs : list L1Transaction) :
  NoDup (l1_hash <$> txs) → in_order txs → Forall few_outputs txs →
  ∃ m, apply_txs txs = Ok (E:=unit) m ∧
    (∀ p, is_dead p m = true ↔ ∃ tx, tx ∈ txs ∧ spent_by tx p) ∧
    (∀ p cell, local_live_cells m !! p = Some cell ↔
       (∃ tx, tx ∈ txs ∧ creates tx p cell) ∧ ∀ tx, tx ∈ txs → ¬ spent_by tx p).
Proof.
  unfold apply_txs. induction txs as [|tx txs IH] using rev_ind; intros Hnd Ho Hf.
  - exists no_local_cells. split; [done|]. split.
    + intros p. unfold is_dead. rewrite bool_decide_eq_true. cbn. split; [by intros ?%elem_of_empty|].
      intros (t & Ht & _). by apply elem_of_nil in Ht.
    + intros p cell. cbn. rewrite lookup_empty. split; [done|]. intros [(t & Ht & _) _]. by apply elem_of_nil in Ht.
  - rewrite fmap_app in Hnd. apply list.NoDup_app in Hnd as (Hnd & Hnew & _).
    apply Forall_app in Hf as [Hf Hfx]. apply Forall_inv in Hfx.
    destruct IH as (m & E1 & Hd & Hl); [done| |done|].
    { intros i j a b p Hij Ha Hb. apply (Ho i j a b p Hij); by apply lookup_app_l_Some. }
    rewrite foldM_snoc, E1. cbn [mbind outcome_bind].
    destruct (apply_tx_spec (E:=unit) tx m Hfx) as (m' & E2 & Hd2 & Hother & Hnewc & Hold).
    assert (Hlast : (txs ++ [tx]) !! length txs = Some tx) by (by rewrite list_lookup_middle).
    assert (Hself : ∀ p, spent_by tx p → op_tx_hash p ≠ l1_hash tx)
      by (intros p Hp; by apply (Ho (length txs) (length txs) tx tx p)).
    assert (Hprev : ∀ t p, t ∈ txs → spent_by t p → op_tx_hash p ≠ l1_hash tx).
    { intros t p [i Hi]%list_elem_of_lookup Hp. apply (Ho i (length txs) t tx p); [|by apply lookup_app_l_Some|done..].
      apply lookup_lt_Some in Hi. lia. }
    assert (Hfresh : ∀ t p cell, t ∈ txs → creates t p cell → op_tx_hash p ≠ l1_hash tx).
    { intros t p cell Ht (Hh & _)%creates_lookup Hh'. apply (Hnew (l1_hash t)); [by apply list_elem_of_fmap_2|].
      rewrite <- Hh, Hh'. by apply list_elem_of_singleton. }
    exists m'. split; [done|]. split.
    + intros p. unfold is_dead in *. rewrite bool_decide_eq_true, Hd2. specialize (Hd p).
      rewrite bool_decide_eq_true in Hd. rewrite Hd. setoid_rewrite elem_of_app.
      setoid_rewrite list_elem_of_singleton. split.
      * intros [(t & Ht & Hp)|Hp]; eauto.
      * intros (t & [Ht| ->] & Hp); eauto.
    + intros p cell. setoid_rewrite elem_of_app. setoid_rewrite list_elem_of_singleton.
      destruct (decide (op_tx_hash p = l1_hash tx)) as [Hh|Hh].
      * split.
        -- intros Hc. destruct (Hold p cell Hh Hc) as [Hcr|Hm].
           ++ split; [by exists tx; auto|].
              intros t [Ht| ->] Hp; [by apply (Hprev t p Ht Hp)|by apply (Hself p Hp)].
           ++ apply Hl in Hm as [(t & Ht & Hc') _]. by destruct (Hfresh t p cell Ht Hc').
        -- intros [(t & [Ht| ->] & Hc) _]; [by destruct (Hfresh t p cell Ht Hc)|by apply Hnewc].
      * rewrite (Hother p Hh). split.
        -- case_bool_decide as Hs; [done|]. intros [(t & Ht & Hc) Hn]%Hl. split; [by eauto|].
           intros t' [Ht'| ->]; [by apply Hn|done].
        -- intros [(t & [Ht|Ht] & Hc) Hn].
           ++ rewrite bool_decide_false by (apply Hn; by right). apply Hl. split; [by eauto|]. intros t' Ht'.
              apply Hn. by left.
           ++ subst t. by apply creates_lookup in Hc as [? _].
Qed.
End Utxo.
