(* ===== verification/BlockSyncServer.v ===== *)
(** * Publishing blocks to read-only nodes (crates/mem-pool/src/block_sync_server.rs)

    The producing node publishes its local, submitted and confirmed blocks.  The
    messages are kept per block number, so that a node that asks for everything
    after a block it knows gets the messages it missed and then the new ones.

    [bs_buffer] is the [BTreeMap] as a list sorted by block number; [bs_sent] is
    what has been sent to the broadcast channel.  Trace and span ids are left
    out of the messages. *)
From Stdlib Require Import ZArith Lia Strings.Byte.
From stdpp Require Import prelude list sorting.
From S2P Require Import Prelude Bytes Types State StateSpec StateDB History Finality Ckb.
From S2P Require Import NodeState AccountLocks Syscalls Verifiers Store.
Local Open Scope Z_scope.

(** ** Messages (block_sync.mol) *)
Record LocalBlock := mkLocalBlock {
  lb_block : L2Block; lb_post_global_state : GlobalState; lb_deposit_info_vec : list DepositInfo;
  lb_deposit_asset_scripts : list Script; lb_withdrawals : list WithdrawalRequestExtra;
}.
Record NextMemBlock := mkNextMemBlock {
  nm_deposits : list DepositInfo; nm_withdrawals : list WithdrawalRequestExtra;
  nm_block_info : BlockInfo;
}.
Inductive BlockSync :=
| MsgRevert (number_hash : NumberHash)
| MsgLocalBlock (l : LocalBlock)
| MsgSubmitted (number_hash : NumberHash) (tx_hash : H256)
| MsgConfirmed (number_hash : NumberHash) (tx_hash : H256)
| MsgNextMemBlock (m : NextMemBlock)
| MsgPushTransaction (tx : L2Transaction).

(** ** The server *)
Record BlockMessages := mkBlockMessages { bm_hash : H256; bm_messages : list BlockSync }.
Record BlockSyncServerState := mkBlockSyncServer {
  bs_buffer : list (Z * BlockMessages); bs_sent : list BlockSync; bs_buffer_capacity : Z;
}.
Definition new_server (buffer_capacity : Z) : BlockSyncServerState :=
  mkBlockSyncServer [] [] buffer_capacity.

(** [BTreeMap::insert] *)
Fixpoint buffer_insert (n : Z) (m : BlockMessages) (l : list (Z * BlockMessages)) :
    list (Z * BlockMessages) :=
  match l with
  | [] => [(n, m)]
  | (n', m') :: l' =>
      if n <? n' then (n, m) :: l
      else if n =? n' then (n, m) :: l' else (n', m') :: buffer_insert n m l'
  end.
(** [if let Some(msgs) = self.buffer.get_mut(&n) { msgs.messages.push(msg) }] *)
Definition buffer_push (n : Z) (msg : BlockSync) (l : list (Z * BlockMessages)) :
    list (Z * BlockMessages) :=
  (λ '(n', m), if n =? n' then (n', mkBlockMessages (bm_hash m) (bm_messages m ++ [msg]))
               else (n', m)) <$> l.
Definition buffer_from (n : Z) (l : list (Z * BlockMessages)) : list (Z * BlockMessages) :=
  filter (λ p, n ≤ p.1) l.
Definition buffer_below (n : Z) (l : list (Z * BlockMessages)) : list (Z * BlockMessages) :=
  filter (λ p, p.1 < n) l.
Definition buffer_get (n : Z) (l : list (Z * BlockMessages)) : option BlockMessages :=
  snd ∘ snd <$> list_find (λ p, p.1 = n) l.

Definition with_buffer (b : list (Z * BlockMessages)) (msg : BlockSync) (s : BlockSyncServerState) :
    BlockSyncServerState :=
  mkBlockSyncServer b (bs_sent s ++ [msg]) (bs_buffer_capacity s).

Section Server.
Context `{Blake2b, Molecule}.

Definition publish_local_block (l : LocalBlock) (s : BlockSyncServerState) : BlockSyncServerState :=
  let msg := MsgLocalBlock l in
  with_buffer (buffer_insert (block_number (lb_block l)) (mkBlockMessages (block_hash (lb_block l)) [msg])
                 (bs_buffer s)) msg s.
Definition publish_submitted (nh : NumberHash) (tx_hash : H256) (s : BlockSyncServerState) :
    BlockSyncServerState :=
  let msg := MsgSubmitted nh tx_hash in
  with_buffer (buffer_push (nh_number nh) msg (bs_buffer s)) msg s.
Definition publish_confirmed {E} (nh : NumberHash) (tx_hash : H256) (s : BlockSyncServerState) :
    outcome E BlockSyncServerState :=
  let msg := MsgConfirmed nh tx_hash in
  let s := with_buffer (buffer_push (nh_number nh) msg (bs_buffer s)) msg s in
  first ← add_w 64 (saturating_sub (nh_number nh) (bs_buffer_capacity s)) 1;
  Ok (mkBlockSyncServer (buffer_from first (bs_buffer s)) (bs_sent s) (bs_buffer_capacity s)).
Definition publish_revert {E} (nh : NumberHash) (s : BlockSyncServerState) :
    outcome E BlockSyncServerState :=
  first ← add_w 64 (nh_number nh) 1;
  Ok (with_buffer (buffer_below first (bs_buffer s)) (MsgRevert nh) s).
(** Only the messages of a block in the making keep transactions. *)
Definition publish_transaction {E} (tx : L2Transaction) (s : BlockSyncServerState) :
    outcome E BlockSyncServerState :=
  let msg := MsgPushTransaction tx in
  match last (bs_buffer s) with
  | Some (n, messages) =>
      first ← unwrap (head (bm_messages messages));
      Ok (with_buffer (match first with
                       | MsgNextMemBlock _ => buffer_push n msg (bs_buffer s)
                       | _ => bs_buffer s
                       end) msg s)
  | None => Ok (with_buffer (bs_buffer s) msg s)
  end.
Definition publish_next_mem_block (m : NextMemBlock) (s : BlockSyncServerState) :
    BlockSyncServerState :=
  let msg := MsgNextMemBlock m in
  with_buffer (buffer_insert (bi_number (nm_block_info m)) (mkBlockMessages (zeros 32) [msg])
                 (bs_buffer s)) msg s.

(** What a node is sent that knows the block [after]; [Err] for [TryAgain] *)
Definition get_and_subscribe (after : NumberHash) (s : BlockSyncServerState) :
    outcome unit (list BlockSync) :=
  match buffer_get (nh_number after) (bs_buffer s) with
  | Some msgs =>
      if bool_decide (bm_hash msgs = nh_block_hash after) then
        first ← add_w 64 (nh_number after) 1;
        Ok (concat (bm_messages ∘ snd <$> buffer_from first (bs_buffer s)))
      else Err tt
  | None => Err tt
  end.
End Server.
