(* ===== verification/ChallengeContext.v ===== *)
(** * Contexts of challenges (crates/challenge/src/context.rs)

    What the node puts into the transactions that raise, cancel and settle a
    challenge, read from the store: the challenge witness of a bad block, the
    witness that shows a challenged withdrawal or transaction, and the witness
    of a revert.

    The proofs of the sparse merkle tree and of the complete binary merkle tree
    come from libraries; they are the parameters [SmtProof] and [CbmtBuild]. *)
From Stdlib Require Import ZArith Lia Strings.Byte.
From stdpp Require Import prelude list gmap.
From S2P Require Import Prelude Bytes Types State StateSpec StateDB History Finality Ckb Eip712.
From S2P Require Import SubmitBlock RollupScript ChallengeLock NodeState AccountLocks Syscalls Generator Verifiers Store.
Local Open Scope Z_scope.

(** [tree.merkle_proof(keys)?.compile(keys)?]; fails without keys. *)
Class SmtProof := smt_merkle_proof : gmap H256 H256 → list H256 → option bytes.
(** [CBMT::build_merkle_proof(leaves, indices)] *)
Class CbmtBuild :=
  cbmt_build : (H256 → H256 → H256) → list H256 → list Z → option (list Z * list H256).

(** ** Data (types.rs) *)
Record ChallengeContext := mkChallengeContext {
  chc_target : ChallengeTarget; chc_witness : ChallengeWitness;
}.
Record TxExecutionWitness := mkTxExecutionWitness {
  vw_load_data : gmap H256 bytes;
  vw_recover_accounts : list (bytes * bytes * bytes);
  vw_witness : CCTransactionWitness;
}.
Inductive VerifyWitness :=
| VerifyTxExecution (w : TxExecutionWitness)
| VerifyTxSignature (w : CCTransactionSignatureWitness)
| VerifyWithdrawal (w : CCWithdrawalWitness).
Record VerifyContext := mkVerifyContext {
  vc_sender_script : Script; vc_receiver_script : option Script; vc_verify_witness : VerifyWitness;
}.
Record RevertWitness := mkRevertWitness {
  rw_new_tip_block : RawL2Block; rw_reverted_blocks : list RawL2Block; rw_block_proof : bytes;
  rw_reverted_block_proof : bytes;
}.
Record RevertContext := mkRevertContext {
  rc_post_reverted_block_root : H256; rc_revert_witness : RevertWitness;
}.

Inductive ContextError :=
| BadBlockNotFound | ProofError | InvalidChallengeType | ContextBlockNotFound
| WithdrawalNotFoundInBlock | TxNotFoundInBlock | BuildMerkleProofFailed | SenderScriptNotFound
| ContextState (e : StateError.t).

Section Contexts.
Context `{Blake2b, Molecule, SyscallCodec, HashCodec, SmtRoot, SmtProof, CbmtBuild, RocksIter}.
Local Abbreviation M := (ST StoreDb ContextError).

Definition raw_smt_key (raw : RawL2Block) : H256 := compute_smt_key (number raw).

(** ** Entering a challenge *)
Definition build_challenge_context (target : ChallengeTarget) : M ChallengeContext :=
  bad_block ← get_bad_block (ct_block_hash target);
  block ← lift (ok_or BadBlockNotFound bad_block);
  get_block_smt_root ;;
  leaves ← gets sd_block_leaves;
  block_proof ← lift (ok_or ProofError (smt_merkle_proof leaves [smt_key block]));
  mret (mkChallengeContext target (mkChallengeWitness (block_raw block) block_proof)).

(** ** Settling a challenge *)
Definition build_block_proof (raw_blocks : list RawL2Block) : M (list (Z * H256) * bytes) :=
  let block_hashes := (λ rb, (number rb, raw_block_hash rb)) <$> raw_blocks in
  get_block_smt_root ;;
  leaves ← gets sd_block_leaves;
  block_proof ← lift (ok_or ProofError (smt_merkle_proof leaves (raw_smt_key <$> raw_blocks)));
  mret (block_hashes, block_proof).

(** The tree of reverted blocks is updated, its recorded root is not: the caller
    must roll back. *)
Definition build_revert_context (reverted_blocks : list L2Block) : M RevertContext :=
  let reverted_raw_blocks := block_raw <$> reverted_blocks in
  '(_, block_proof) ← build_block_proof reverted_raw_blocks;
  get_reverted_block_smt_root ;;
  let keys := raw_block_hash <$> reverted_raw_blocks in
  modify (λ db, with_reverted_leaves
                  (foldl (λ l k, leaf_put k h256_one l) (sd_reverted_leaves db) keys) db) ;;
  leaves ← gets sd_reverted_leaves;
  reverted_block_proof ← lift (ok_or ProofError (smt_merkle_proof leaves keys));
  new_tip ← match head reverted_raw_blocks with
            | Some b => get_block (parent_block_hash b)
            | None => mret None
            end;
  new_tip_block ← lift (ok_or ContextBlockNotFound new_tip);
  mret (mkRevertContext (smt_root leaves)
          (mkRevertWitness (block_raw new_tip_block) reverted_raw_blocks block_proof
             reverted_block_proof)).

(** ** Cancelling a challenge *)
Definition build_merkle_proof (leaves : list H256) (indices : list Z) :
    outcome ContextError CKBMerkleProof :=
  '(proof_indices, lemmas) ← ok_or BuildMerkleProofFailed (cbmt_build merge_h256 leaves indices);
  Ok (mkCKBMerkleProof proof_indices lemmas).

(** The witness hashes of the items with their positions. *)
Definition item_leaves {A} (item_hash : A → H256) (items : list A) : list H256 :=
  imap (λ idx item, ckb_merkle_leaf_hash (Z.of_nat idx mod 2 ^ 32) (item_hash item)) items.

Definition build_verify_withdrawal_witness (block_hash : H256) (withdrawal_index : Z) :
    M VerifyContext :=
  found ← get_block block_hash;
  block ← lift (ok_or ContextBlockNotFound found);
  (* the request is read from the store when the loop meets its index *)
  target ← (if bool_decide (Z.to_nat withdrawal_index < length (block_withdrawals block))%nat then
              w ← st_unwrap (get_withdrawal_by_key (build_item_key block_hash withdrawal_index));
              mret (Some w)
            else mret None);
  let leaves := item_leaves withdrawal_witness_hash (block_withdrawals block) in
  withdrawal ← lift (ok_or WithdrawalNotFoundInBlock target);
  proof ← lift (build_merkle_proof leaves [withdrawal_index]);
  let raw := w_raw (we_request withdrawal) in
  parent_number ← lift (sub_w (number (block_raw block)) 1);
  tree ← open_state (RWConfig_history_block parent_number);
  sender_script ← lift (ok_or SenderScriptNotFound (get_script (w_account_script_hash raw) tree));
  mret (mkVerifyContext sender_script None
          (VerifyWithdrawal
             (mkCCWithdrawalWitness (block_raw block) (we_request withdrawal) sender_script
                (we_owner_lock withdrawal) proof [] [] 0))).

Definition build_tx_proof (block : L2Block) (tx_index : Z) :
    outcome ContextError (L2Transaction * CKBMerkleProof) :=
  let leaves := item_leaves tx_witness_hash (block_transactions block) in
  tx ← ok_or TxNotFoundInBlock (block_transactions block !! Z.to_nat tx_index);
  proof ← build_merkle_proof leaves [tx_index];
  Ok (tx, proof).

(** [unimplemented!("fetch tx_index state")] *)
Definition build_tx_kv_witness {A} (block : L2Block) (raw_tx : RawL2Transaction) (tx_index : Z) :
    outcome ContextError A := Panic.

(** Both transaction contexts stop there. *)
Definition build_verify_transaction_signature_witness (block_hash : H256) (tx_index : Z) :
    M VerifyContext :=
  found ← get_block block_hash;
  block ← lift (ok_or ContextBlockNotFound found);
  '(tx, tx_proof) ← lift (build_tx_proof block tx_index);
  lift (build_tx_kv_witness block (tx_raw tx) tx_index).
Definition build_verify_transaction_witness (block_hash : H256) (tx_index : Z) : M VerifyContext :=
  found ← get_block block_hash;
  block ← lift (ok_or ContextBlockNotFound found);
  '(tx, tx_proof) ← lift (build_tx_proof block tx_index);
  lift (build_tx_kv_witness block (tx_raw tx) tx_index).

Definition build_verify_context (target : ChallengeTarget) : M VerifyContext :=
  ty ← lift (map_err (λ _, InvalidChallengeType)
               (ChallengeTargetType_try_from (ct_target_type target)));
  match ty with
  | TxExecution => build_verify_transaction_witness (ct_block_hash target) (ct_target_index target)
  | TxSignature =>
      build_verify_transaction_signature_witness (ct_block_hash target) (ct_target_index target)
  | TargetWithdrawal =>
      build_verify_withdrawal_witness (ct_block_hash target) (ct_target_index target)
  end.
End Contexts.

(** ** What the challenge lock makes of the witness of a withdrawal *)
Section WithdrawalCancellation.
Context `{Blake2b, Molecule, SyscallCodec, HashCodec, SmtRoot, SmtProof, CbmtBuild, RocksIter}.
Context {env : CkbEnv} `{SmtC, !SmtCLaws, CbmtProof, ChallengeCodec, Keccak256, EthAbi, Rlp}.

(** A withdrawal's sender cannot be found in a state without pairs. *)
Lemma registry_of_nothing sh proof count root kv :
  KVState_build GW_MAX_KV_PAIRS [] proof count root = Ok kv →
  (get_registry_address_by_script_hash ETH_REGISTRY_ACCOUNT_ID sh kv).1 = Err StateError.MissingKey.
Proof.
  unfold KVState_build. cbn. intros [= <-].
  unfold get_registry_address_by_script_hash, get_value, mbind, ST_bind. cbn.
  unfold kvs_get_raw. cbn.
  destruct (smt_state_fetch _ _) as [v|e|] eqn:E; [by apply smt_fetch_init in E|done|].
  by apply smt_fetch_returns in E.
Qed.

Lemma build_tx_contexts_panic block_hash tx_index db context db' :
  build_verify_transaction_signature_witness block_hash tx_index db ≠ (Ok context, db') ∧
  build_verify_transaction_witness block_hash tx_index db ≠ (Ok context, db').
Proof.
  split; intros Hrun; apply st_bind_Ok in Hrun as (? & ? & _ & Hrun);
    apply st_bind_Ok in Hrun as (? & ? & _ & Hrun);
    apply st_bind_Ok in Hrun as ([] & ? & _ & Hrun); done.
Qed.

Lemma build_withdrawal_witness_bare block_hash index db context db' :
  build_verify_withdrawal_witness block_hash index db = (Ok context, db') →
  ∃ witness, vc_verify_witness context = VerifyWithdrawal witness ∧ ccw_kv_state witness = [].
Proof.
  unfold build_verify_withdrawal_witness. intros Hrun.
  repeat (apply st_bind_Ok in Hrun as (? & ? & _ & Hrun); cbv zeta in Hrun).
  injection Hrun as <- _. by eexists.
Qed.

Lemma verify_withdrawal_bare witness config lock_args :
  ccw_kv_state witness = [] → load_unlock_args dec_CCWithdrawalWitness = Ok witness →
  verify_withdrawal config lock_args ≠ Ok tt.
Proof.
  intros Hkv Hload Hrun. unfold verify_withdrawal, verify_withdrawal_proof in Hrun.
  rewrite Hload in Hrun. cbn [mbind outcome_bind] in Hrun. inv_ok.
  match goal with
  | Hb : KVState_build _ _ _ _ _ = Ok ?kv, Hr : run_on _ ?kv = Ok _ |- _ =>
      rewrite Hkv in Hb; revert Hr; unfold run_on, st_map_err;
      pose proof (registry_of_nothing (w_account_script_hash (w_raw (ccw_withdrawal witness)))
                    _ _ _ _ Hb) as Hn
  end.
  destruct (get_registry_address_by_script_hash _ _ _) as [r kv']. cbn in Hn. by subst r.
Qed.

(** C37. No challenge can be cancelled with what the node builds.  The context of a
    transaction is never built, so a context that is built is one of a withdrawal; it
    leaves the pairs of the state empty, and the challenge lock, which looks the
    sender's address up in exactly these, refuses it. *)
Theorem built_cancellation_refused (target : ChallengeTarget) (db db' : StoreDb)
    (context : VerifyContext) :
  build_verify_context target db = (Ok context, db') →
  ∃ witness, vc_verify_witness context = VerifyWithdrawal witness ∧
    ∀ config lock_args, load_unlock_args dec_CCWithdrawalWitness = Ok witness →
      verify_withdrawal config lock_args ≠ Ok tt.
Proof.
  unfold build_verify_context. intros Hrun. apply st_bind_Ok in Hrun as (ty & s1 & _ & Hrun).
  destruct ty; [by apply build_tx_contexts_panic in Hrun..|].
  apply build_withdrawal_witness_bare in Hrun as (witness & Hw & Hkv).
  exists witness. split; [done|]. intros config lock_args. by apply verify_withdrawal_bare.
Qed.
End WithdrawalCancellation.
