(* ===== verification/Chain.v ===== *)
(** * The local chain (crates/chain/src/chain.rs)

    [Chain] follows the rollup on layer 1: it applies submitted blocks, records
    bad blocks and the challenges around them, undoes what a layer-1 fork undid,
    and stores blocks the node produced itself.

    A database transaction is the store it began with ([tx_base], what a snapshot
    of it shows) and the store as written so far ([tx_db]); committing makes the
    latter the store, rolling back returns to the former.  The memory pool is
    only told about a new tip; whether it accepts is the parameter [MemPool].
    The two loops that walk back over recorded roots and bad blocks take fuel.
    Logging, metrics and timing are left out. *)
From Stdlib Require Import ZArith Lia Strings.Byte.
From stdpp Require Import prelude list gmap.
From S2P Require Import Prelude Bytes Types State StateSpec StateDB History Finality Ckb Eip712.
From S2P Require Import SubmitBlock RollupScript ChallengeLock NodeUtils NodeState AccountLocks Backends Syscalls Generator Verifiers Store ChallengeContext.
Local Open Scope Z_scope.

#[export] Instance Status_eq_dec : EqDecision Status.
Proof. solve_decision. Defined.
#[export] Instance AllowedTypeHash_eq_dec : EqDecision AllowedTypeHash.
Proof. solve_decision. Defined.
#[export] Instance RollupConfig_eq_dec : EqDecision RollupConfig.
Proof. solve_decision. Defined.

(** ** Data *)
Record ChallengeCell := mkChallengeCell {
  cc_input : CellInput; cc_output : CellOutput; cc_output_data : bytes;
}.
Inductive L1ActionContext :=
| SubmitBlock (l2block : L2Block) (deposit_info_vec : list DepositInfo)
    (deposit_asset_scripts : list Script) (withdrawals : list WithdrawalRequestExtra)
| Challenge (cell : ChallengeCell) (target : ChallengeTarget) (witness : ChallengeWitness)
| CancelChallenge
| Revert (reverted_blocks : list RawL2Block).
Record L1Action := mkL1Action { la_transaction : L1Transaction; la_context : L1ActionContext }.
Inductive RevertL1ActionContext :=
| SubmitValidBlock (l2block : L2Block)
| RewindToLastValidTip.
Record RevertedL1Action := mkRevertedL1Action {
  ra_prev_global_state : GlobalState; ra_context : RevertL1ActionContext;
}.
Record SyncParam := mkSyncParam { sp_reverts : list RevertedL1Action; sp_updates : list L1Action }.

Inductive SyncEvent :=
| EventSuccess
| EventBadBlock (context : ChallengeContext)
| EventBadChallenge (cell : ChallengeCell) (context : VerifyContext)
| EventWaitChallenge (cell : ChallengeCell) (context : RevertContext).
Definition is_success_event (e : SyncEvent) : bool :=
  match e with EventSuccess => true | _ => false end.

Record Chain := mkChain {
  ch_rollup_type_script_hash : H256;
  ch_rollup_config : RollupConfig;
  ch_challenge_target : option ChallengeTarget;
  ch_last_sync_event : SyncEvent;
  ch_tip : L2Block;
  ch_last_global_state : GlobalState;
  ch_generator : Generator;
  ch_has_mem_pool : bool;
  ch_skipped_invalid_block_list : list H256;
}.
Record StoreTx := mkStoreTx { tx_base : StoreDb; tx_db : StoreDb }.

Definition with_challenge_target (t : option ChallengeTarget) (c : Chain) : Chain :=
  mkChain (ch_rollup_type_script_hash c) (ch_rollup_config c) t (ch_last_sync_event c) (ch_tip c)
    (ch_last_global_state c) (ch_generator c) (ch_has_mem_pool c) (ch_skipped_invalid_block_list c).
Definition with_last_sync_event (e : SyncEvent) (c : Chain) : Chain :=
  mkChain (ch_rollup_type_script_hash c) (ch_rollup_config c) (ch_challenge_target c) e (ch_tip c)
    (ch_last_global_state c) (ch_generator c) (ch_has_mem_pool c) (ch_skipped_invalid_block_list c).
Definition with_tip (b : L2Block) (c : Chain) : Chain :=
  mkChain (ch_rollup_type_script_hash c) (ch_rollup_config c) (ch_challenge_target c)
    (ch_last_sync_event c) b (ch_last_global_state c) (ch_generator c) (ch_has_mem_pool c)
    (ch_skipped_invalid_block_list c).
Definition with_last_global_state (g : GlobalState) (c : Chain) : Chain :=
  mkChain (ch_rollup_type_script_hash c) (ch_rollup_config c) (ch_challenge_target c)
    (ch_last_sync_event c) (ch_tip c) g (ch_generator c) (ch_has_mem_pool c)
    (ch_skipped_invalid_block_list c).

Inductive ChainError :=
| ForkDetected
| NoRollupCell | NoOutputData | GlobalStateUnpacking | LastGlobalStateNotFound
| ContextFailed (e : ContextError)
| StoreFailed (e : StoreError)
| ApplyFailed (e : GenError.t)
| StateFailed (e : StateError.t)
| ReturnedChallengeTarget (t : ChallengeTarget)
| PackageStartBlock | PackageStartHash
| GetBlockHash | GetBlock | GetParentCustodians | GetFinalizingDeposits
| FinalizingRange (e : RangeError)
| AddCapacityOverflow | AddSudtOverflow | NotEnoughCapacity | NotEnoughSudt
| MemPoolFailed.

(** ** Finalized custodians (offchain/pool.rs) *)
Definition checked_add_sudt (h : H256) (amount : Z) (script : Script)
    (c : FinalizedCustodianCapacity) : option FinalizedCustodianCapacity :=
  match fc_sudt c !! h with
  | Some (old, _) =>
      new ← checked_add 128 old amount;
      Some (mkFinalizedCustodianCapacity (fc_capacity c) (<[h := (new, script)]> (fc_sudt c)))
  | None =>
      Some (mkFinalizedCustodianCapacity (fc_capacity c) (<[h := (amount, script)]> (fc_sudt c)))
  end.
Definition checked_sub_sudt (h : H256) (amount : Z) (c : FinalizedCustodianCapacity) :
    option FinalizedCustodianCapacity :=
  '(old, script) ← fc_sudt c !! h;
  new ← checked_sub old amount;
  Some (mkFinalizedCustodianCapacity (fc_capacity c) (<[h := (new, script)]> (fc_sudt c))).
Definition with_capacity (n : Z) (c : FinalizedCustodianCapacity) : FinalizedCustodianCapacity :=
  mkFinalizedCustodianCapacity n (fc_sudt c).

(** The lookups [calc_finalizing_range] makes in a store *)
Definition column {A} (as_type : Entity → option A) (col : Z) (key : bytes) (db : StoreDb) : option A :=
  sd_columns db !! (col, key) ≫= as_type.
Definition chain_db (db : StoreDb) : ChainDb :=
  mkChainDb (λ n, column as_bytes COLUMN_INDEX (le_bytes 8 n) db)
    (λ h, column as_block COLUMN_BLOCK h db)
    (λ h, column as_global_state COLUMN_BLOCK_GLOBAL_STATE h db).

(** [for n in a..b] *)
Definition range_list (a b : Z) : list Z := seqZ a (b - a).

(** Whether the memory pool accepts the news of a tip. *)
Class MemPool := mem_pool_notify : H256 → bool.

Section ChainOps.
Context {Mac : Type} `{Machine Mac}.
Context `{Blake2b, Molecule, ContractArgs, SubstrateBn, SyscallCodec, MapIter, HashCodec, SmtRoot}.
Context `{SmtProof, CbmtBuild, RocksIter, MemPool}.
Local Abbreviation M := (ST (Chain * StoreTx) ChainError).
Local Abbreviation DB := (ST StoreDb ChainError).

Definition on_db {A} (m : DB A) : M A := λ '(c, tx),
  let (r, db) := m (tx_db tx) in (r, (c, mkStoreTx (tx_base tx) db)).
Definition chain_gets {A} (f : Chain → A) : M A := gets (λ s, f s.1).
Definition chain_modify (f : Chain → Chain) : M unit := modify (λ '(c, tx), (f c, tx)).
Definition rollback : M unit := modify (λ '(c, tx), (c, mkStoreTx (tx_base tx) (tx_base tx))).
(** [db.commit()], then [db = self.store.begin_transaction()] *)
Definition commit_and_begin : M unit :=
  modify (λ '(c, tx), (c, mkStoreTx (tx_db tx) (tx_db tx))).
Definition assert_true {S} (b : bool) : ST S ChainError unit := lift (assert_that b).
Definition context {A} (m : ST StoreDb ContextError A) : M A := on_db (st_map_err ContextFailed m).

(** [db.snapshot()]: the store when the transaction began *)
Definition snapshot_view (base : StoreDb) (tip_block_hash : H256) : ChainView := λ n,
  map_err (λ _, tt) (view_block_hash_by_number tip_block_hash n base).1.

(** ** Reading an action *)
Definition parse_global_state (tx : L1Transaction) (rollup_id : H256) :
    outcome ChainError GlobalState :=
  '(i, _) ← ok_or NoRollupCell
              (list_find (λ output, script_hash <$> co_type output = Some rollup_id)
                 (l1_outputs tx));
  output_data ← ok_or NoOutputData (l1_outputs_data tx !! i);
  ok_or GlobalStateUnpacking (decode_global_state output_data).

(** ** Applying a block *)
(** [generator.verify_and_apply_block(db, &chain_view, args, ..)]: the state is
    opened on the store and writes to it. *)
Definition apply_on_store (view : ChainView) (g : Generator) (args : ApplyBlockArgs)
    (skipped : list H256) : DB ApplyBlockResult := λ db,
  match open_state (E:=ChainError) (RWConfig_attach_block (number (block_raw (aa_l2block args)))) db with
  | (Ok st, db) =>
      let (r, st) := verify_and_apply_block (Mac:=Mac) g args skipped st in
      (match r with Ok r => Ok r | Err e => match e with end | Panic => Panic end, written_back st db)
  | (Err e, db) => (Err e, db)
  | (Panic, db) => (Panic, db)
  end.

Definition process_block (l2block : L2Block) (global_state : GlobalState)
    (deposit_info_vec : list DepositInfo) (deposit_asset_scripts : list Script)
    (withdrawals : list WithdrawalRequestExtra) : M (option ChallengeTarget) :=
  tip ← chain_gets ch_tip;
  next_number ← lift (add_w 64 (block_number tip) 1);
  assert_true (bool_decide ((block_number l2block, parent_block_hash (block_raw l2block))
                            = (next_number, block_hash tip))) ;;
  let args := mkApplyBlockArgs l2block (di_request <$> deposit_info_vec) withdrawals in
  base ← gets (λ s, tx_base s.2);
  let chain_view := snapshot_view base (block_hash tip) in
  tree ← on_db (open_state RWConfig_readonly);
  prev_merkle_state ← lift (map_err ApplyFailed (calculate_merkle_state tree).1);
  assert_true (bool_decide (prev_merkle_state = prev_account (block_raw l2block))) ;;
  g ← chain_gets ch_generator;
  skipped ← chain_gets ch_skipped_invalid_block_list;
  applied ← on_db (apply_on_store chain_view g args skipped);
  match applied with
  | ApplyChallenge target _ => mret (Some target)
  | ApplyError err => lift (Err (ApplyFailed err))
  | ApplySuccess r =>
      on_db (st_map_err StoreFailed
               (insert_block l2block global_state (bs_prev_txs_state r) (bs_tx_receipts r)
                  deposit_info_vec withdrawals)) ;;
      on_db (insert_asset_scripts deposit_asset_scripts) ;;
      on_db (attach_block l2block) ;;
      chain_modify (with_tip l2block) ;;
      chain_modify (with_last_global_state global_state) ;;
      mret None
  end.

(** A block this node produced. *)
Definition update_local (l2_block : L2Block) (deposit_info_vec : list DepositInfo)
    (deposit_asset_scripts : list Script) (withdrawals : list WithdrawalRequestExtra)
    (global_state : GlobalState) : M unit :=
  local_tip ← chain_gets ch_tip;
  lift (reject_if (negb (bool_decide (parent_block_hash (block_raw l2_block) = block_hash local_tip)))
          ForkDetected) ;;
  local_reverted_block_root ← on_db get_reverted_block_smt_root;
  assert_true (bool_decide (local_reverted_block_root = reverted_block_root global_state)) ;;
  maybe_challenge_target ←
    process_block l2_block global_state deposit_info_vec deposit_asset_scripts withdrawals;
  match maybe_challenge_target with
  | Some challenge_target => lift (Err (ReturnedChallengeTarget challenge_target))
  | None => mret tt
  end.

(** ** The finalized custodians of a block *)
Definition add_finalizing_deposit (c : FinalizedCustodianCapacity) (d : DepositInfo) :
    outcome ChainError FinalizedCustodianCapacity :=
  let deposit := di_request d in
  capacity ← ok_or AddCapacityOverflow (checked_add 128 (fc_capacity c) (dr_capacity deposit));
  ok_or AddSudtOverflow
    (checked_add_sudt (dr_sudt_script_hash deposit) (dr_amount deposit) (dr_script deposit)
       (with_capacity capacity c)).
Definition sub_withdrawal (c : FinalizedCustodianCapacity) (w : WithdrawalRequest) :
    outcome ChainError FinalizedCustodianCapacity :=
  let raw := w_raw w in
  capacity ← ok_or NotEnoughCapacity (checked_sub (fc_capacity c) (w_capacity raw));
  let c := with_capacity capacity c in
  if negb (w_amount raw =? 0) && negb (bool_decide (CKB_SUDT_SCRIPT_ARGS = w_sudt_script_hash raw))
  then ok_or NotEnoughSudt (checked_sub_sudt (w_sudt_script_hash raw) (w_amount raw) c)
  else Ok c.

(** [for finalizing_number in range { for deposit in deposits { .. } }] *)
Fixpoint add_finalizing (numbers : list Z) (c : FinalizedCustodianCapacity) :
    DB FinalizedCustodianCapacity :=
  match numbers with
  | [] => mret c
  | n :: numbers =>
      found ← get_block_deposit_info_vec n;
      deposits ← lift (ok_or GetFinalizingDeposits found);
      c ← lift (foldM add_finalizing_deposit c deposits);
      add_finalizing numbers c
  end.

Definition calculate_and_store_finalized_custodians (rollup_config : RollupConfig)
    (fork_config : ForkConfig) (n : Z) : DB unit :=
  if n =? 0 then mret tt
  else
    found_hash ← get_block_hash_by_number n;
    h ← lift (ok_or GetBlockHash found_hash);
    found ← get_block h;
    block ← lift (ok_or GetBlock found);
    parent ← get_block_post_finalized_custodian_capacity (n - 1);
    finalized_custodians ← lift (ok_or GetParentCustodians parent);
    db ← gets (λ db, db);
    range ← lift (unwrap (calc_finalizing_range rollup_config fork_config (chain_db db) block));
    '(from, to) ← lift (map_err FinalizingRange range);
    finalized_custodians ← add_finalizing (range_list from to) finalized_custodians;
    found ← get_block h;
    block ← lift (ok_or GetBlock found);
    finalized_custodians ← lift (foldM sub_withdrawal finalized_custodians (block_withdrawals block));
    set_block_post_finalized_custodian_capacity n finalized_custodians.

(** ** Bad blocks *)
(** [TipBadBlocksRevIter] with [take_while(|b| number >= start)]: the numbers
    along the parents of bad blocks need not decrease, so the walk takes fuel. *)
Fixpoint tip_bad_blocks_while (fuel : nat) (start : Z) (current : option L2Block) :
    DB (list L2Block) :=
  match current, fuel with
  | None, _ => mret []
  | Some _, O => lift Panic
  | Some b, S fuel =>
      parent ← get_bad_block (parent_block_hash (block_raw b));
      if start <=? block_number b then
        rest ← tip_bad_blocks_while fuel start parent;
        mret (b :: rest)
      else mret []
  end.

Definition package_bad_blocks (fuel : nat) (start_block_hash : H256) : DB (list L2Block) :=
  found ← get_bad_block start_block_hash;
  start_block ← lift (ok_or PackageStartBlock found);
  tip_block_hash ← get_tip_block_hash;
  tip_bad_block ← get_bad_block tip_block_hash;
  rev_blocks ← tip_bad_blocks_while fuel (block_number start_block) tip_bad_block;
  let blocks := reverse rev_blocks in
  lift (reject_if (negb (bool_decide (block_hash <$> head blocks = Some start_block_hash)))
          PackageStartHash) ;;
  mret blocks.

(** A block known or found to be bad is recorded beside the valid chain. *)
Definition record_bad_block (l2block : L2Block) (global_state : GlobalState) : M unit :=
  on_db (insert_bad_block l2block global_state) ;;
  local_block_root ← on_db get_block_smt_root;
  assert_true (bool_decide (local_block_root = bm_merkle_root (gs_block global_state))).

(** ** Layer-1 actions *)
Definition bad_block_hash (c : Chain) : option H256 := ct_block_hash <$> ch_challenge_target c.
(** [Status::try_from(status).expect(..)], [assert_eq!(Status::try_from(status), Ok(expected))] *)
Definition status_of (g : GlobalState) : outcome ChainError Status :=
  match Status_try_from (gs_status g) with Ok s => Ok s | _ => Panic end.
Definition assert_status (g : GlobalState) (expected : Status) : M unit :=
  assert_true (bool_decide (Status_try_from (gs_status g) = Ok expected)).
(** [Some(a) > b], [Some(a) >= b]: an absent number is below every number. *)
Definition above (o : option Z) (n : Z) : bool := match o with Some m => n <? m | None => false end.
Definition at_least (n : Z) (o : option Z) : bool := match o with Some m => m <=? n | None => true end.

(** [Running], [SubmitBlock] *)
Definition update_submit_block (transaction : L1Transaction) (global_state : GlobalState)
    (l2block : L2Block) (deposit_info_vec : list DepositInfo) (deposit_asset_scripts : list Script)
    (withdrawals : list WithdrawalRequestExtra) : M SyncEvent :=
  local_tip ← chain_gets ch_tip;
  lift (reject_if (negb (bool_decide (parent_block_hash (block_raw l2block) = block_hash local_tip)))
          ForkDetected) ;;
  local_reverted_block_root ← on_db get_reverted_block_smt_root;
  assert_true (bool_decide (local_reverted_block_root = reverted_block_root global_state)) ;;
  stored_target ← on_db (get_bad_block_challenge_target (block_hash l2block));
  known ← chain_gets ch_challenge_target;
  (if bool_decide (known = None) && bool_decide (is_Some stored_target)
   then chain_modify (with_challenge_target stored_target) else mret tt) ;;
  target ← chain_gets ch_challenge_target;
  match target with
  | Some target =>
      record_bad_block l2block global_state ;;
      chain_modify (with_tip l2block) ;;
      ctx ← context (build_challenge_context target);
      mret (EventBadBlock ctx)
  | None =>
      processed ←
        process_block l2block global_state deposit_info_vec deposit_asset_scripts withdrawals;
      match processed with
      | Some challenge_target =>
          rollback ;;
          record_bad_block l2block global_state ;;
          known ← chain_gets ch_challenge_target;
          assert_true (bool_decide (known = None)) ;;
          on_db (set_bad_block_challenge_target (block_hash l2block) challenge_target) ;;
          chain_modify (with_challenge_target (Some challenge_target)) ;;
          chain_modify (with_tip l2block) ;;
          ctx ← context (build_challenge_context challenge_target);
          mret (EventBadBlock ctx)
      | None =>
          let n := block_number l2block in
          let nh := mkNumberHash n (block_hash l2block) in
          rollup_config ← chain_gets ch_rollup_config;
          fork ← chain_gets (λ c, fork_config (g_rollup_context (ch_generator c)));
          on_db (calculate_and_store_finalized_custodians rollup_config fork n) ;;
          on_db (set_last_submitted_block_number_hash nh) ;;
          on_db (set_last_confirmed_block_number_hash nh) ;;
          on_db (set_block_submit_tx n transaction) ;;
          mret EventSuccess
      end
  end.

(** [Running], [Challenge] *)
Definition update_challenge (fuel : nat) (global_state : GlobalState) (cell : ChallengeCell)
    (target : ChallengeTarget) (witness : ChallengeWitness) : M SyncEvent :=
  assert_status global_state Halting ;;
  local_block_root ← on_db get_block_smt_root;
  lift (reject_if (negb (bool_decide (bm_merkle_root (gs_block global_state) = local_block_root)))
          ForkDetected) ;;
  let challenge_block_number := number (cw_raw_l2block witness) in
  bad_hash ← chain_gets bad_block_hash;
  local_bad_block_number ← match bad_hash with
                           | Some h => on_db (get_block_number h)
                           | None => mret None
                           end;
  local_tip_block_number ← chain_gets (λ c, block_number (ch_tip c));
  no_target ← chain_gets (λ c, bool_decide (ch_challenge_target c = None));
  if (no_target && (challenge_block_number <=? local_tip_block_number))
     || above local_bad_block_number challenge_block_number
  then
    ctx ← context (build_verify_context target);
    mret (EventBadChallenge cell ctx)
  else
    assert_true (negb (no_target && (local_tip_block_number <? challenge_block_number))) ;;
    revert_blocks ← on_db (package_bad_blocks fuel (ct_block_hash target));
    ctx ← context (build_revert_context revert_blocks);
    rollback ;;
    mret (EventWaitChallenge cell ctx).

(** The challenge that is still due, if any. *)
Definition challenge_again : M SyncEvent :=
  target ← chain_gets ch_challenge_target;
  match target with
  | Some target => ctx ← context (build_challenge_context target); mret (EventBadBlock ctx)
  | None => mret EventSuccess
  end.

(** [Halting], [Revert] *)
Definition update_revert (fuel : nat) (global_state : GlobalState) (reverted_blocks : list RawL2Block) :
    M SyncEvent :=
  assert_status global_state Running ;;
  first_reverted_block ← lift (unwrap (head reverted_blocks));
  let first_hash := raw_block_hash first_reverted_block in
  known ← chain_gets ch_challenge_target;
  assert_true (bool_decide (is_Some known)) ;;
  bad_hash ← chain_gets bad_block_hash;
  match bad_hash with
  | Some h =>
      local_bad_block ← on_db (get_bad_block h);
      assert_true (at_least (number first_reverted_block) (block_number <$> local_bad_block))
  | None => mret tt
  end ;;
  local_reverted_blocks ← on_db (package_bad_blocks fuel first_hash);
  assert_true (bool_decide (block_hash <$> local_reverted_blocks = raw_block_hash <$> reverted_blocks)) ;;
  prev_reverted_block_root ← on_db get_reverted_block_smt_root;
  on_db (revert_bad_blocks local_reverted_blocks) ;;
  new_root ← on_db get_reverted_block_smt_root;
  on_db (set_reverted_block_hashes new_root prev_reverted_block_root
           (block_hash <$> local_reverted_blocks)) ;;
  local_reverted_block_root ← on_db get_reverted_block_smt_root;
  assert_true (bool_decide (local_reverted_block_root = reverted_block_root global_state)) ;;
  root ← on_db get_block_smt_root;
  assert_true (bool_decide (mkBlockMerkleState root (number first_reverted_block)
                            = gs_block global_state)) ;;
  assert_true (bool_decide (parent_block_hash first_reverted_block = tip_block_hash global_state)) ;;
  local_tip_block_hash ← on_db get_tip_block_hash;
  assert_true (bool_decide (local_tip_block_hash = tip_block_hash global_state)) ;;
  local_tip_block ← on_db get_tip_block;
  chain_modify (with_tip local_tip_block) ;;
  (if bool_decide (Some first_hash = bad_hash) then chain_modify (with_challenge_target None)
   else mret tt) ;;
  bad_hash ← chain_gets bad_block_hash;
  (if bool_decide (bad_hash = None)
   then assert_true (bool_decide (prev_account first_reverted_block = gs_account global_state))
   else mret tt) ;;
  challenge_again.

Definition update_l1action (fuel : nat) (action : L1Action) : M unit :=
  rollup_id ← chain_gets ch_rollup_type_script_hash;
  global_state ← lift (parse_global_state (la_transaction action) rollup_id);
  last ← chain_gets ch_last_global_state;
  status ← lift (status_of last);
  event ←
    match status, la_context action with
    | Running, SubmitBlock l2block deposits scripts withdrawals =>
        update_submit_block (la_transaction action) global_state l2block deposits scripts withdrawals
    | Running, Challenge cell target witness => update_challenge fuel global_state cell target witness
    | Halting, CancelChallenge => assert_status global_state Running ;; challenge_again
    | Halting, Revert reverted_blocks => update_revert fuel global_state reverted_blocks
    | _, _ => lift Panic
    end;
  chain_modify (with_last_sync_event event) ;;
  chain_modify (with_last_global_state global_state).

(** ** Undoing layer-1 actions *)
(** [while current != target { if current == genesis { break } .. }] over the
    recorded roots of the tree of reverted blocks *)
Fixpoint rewind_reverted (fuel : nat) (target genesis current : H256) : DB H256 :=
  if bool_decide (current = target) then mret current
  else if bool_decide (current = genesis) then mret current
  else
    match fuel with
    | O => lift Panic
    | S fuel =>
        recorded ← st_unwrap (get_reverted_block_hashes_by_root current);
        rewind_reverted_block_smt (rh_block_hashes recorded) ;;
        current ← get_reverted_block_smt_root;
        rewind_reverted fuel target genesis current
    end.
(** The same over the parents of the bad blocks *)
Fixpoint rewind_bad_blocks (fuel : nat) (target genesis current : H256) : DB H256 :=
  if bool_decide (current = target) then mret current
  else if bool_decide (current = genesis) then mret current
  else
    match fuel with
    | O => lift Panic
    | S fuel =>
        block ← st_unwrap (get_bad_block current);
        delete_bad_block current ;;
        rewind_block_smt block ;;
        delete_bad_block_challenge_target current ;;
        rewind_bad_blocks fuel target genesis (parent_block_hash (block_raw block))
    end.

Definition genesis_reverted_root : DB (H256 * H256) :=
  genesis_hash ← st_unwrap (get_block_hash_by_number 0);
  genesis_global_state ← st_unwrap (get_block_post_global_state genesis_hash);
  mret (genesis_hash, reverted_block_root genesis_global_state).

(** [tree.detach_block_state(number)] on a state opened for detaching *)
Definition detach_state (n : Z) : DB unit := λ db,
  match open_state (E:=ChainError) RWConfig_detach_block db with
  | (Ok st, db) =>
      let (r, s) := detach_block_state n (db_state st) in
      (map_err StateFailed r, with_account (hs_tree s) (hs_db s) db)
  | (Err e, db) => (Err e, db)
  | (Panic, db) => (Panic, db)
  end.

(** The state is back to what it was before the block. *)
Definition check_prev_state (raw : RawL2Block) : DB unit :=
  tree ← open_state RWConfig_readonly;
  let expected := prev_account raw in
  root ← lift (map_err StateFailed (calculate_root tree).1);
  assert_true (bool_decide (root = am_merkle_root expected)) ;;
  count ← lift (map_err StateFailed (get_account_count tree).1);
  assert_true (count =? am_count expected) ;;
  sh ← lift (map_err StateFailed (get_script_hash 0 tree).1);
  assert_true (negb (h256_is_zero sh)).

Definition revert_valid_block (fuel : nat) (prev_global_state : GlobalState) (l2block : L2Block) :
    M unit :=
  target ← chain_gets ch_challenge_target;
  assert_true (bool_decide (target = None)) ;;
  local_tip ← chain_gets ch_tip;
  last_valid_tip_hash ← on_db get_last_valid_tip_block_hash;
  assert_true (bool_decide (block_hash local_tip = last_valid_tip_hash)) ;;
  assert_true (bool_decide (block_hash l2block = block_hash local_tip)) ;;
  local_global_state ← chain_gets ch_last_global_state;
  last_valid_tip_global_state ← on_db (st_unwrap (get_block_post_global_state (block_hash l2block)));
  assert_true (bool_decide (local_global_state = last_valid_tip_global_state)) ;;
  on_db (detach_block l2block) ;;
  on_db (detach_state (block_number l2block)) ;;
  local_tip ← on_db get_tip_block;
  local_valid_tip ← on_db get_last_valid_tip_block;
  assert_true (bool_decide (block_hash local_tip = block_hash local_valid_tip)) ;;
  assert_true (bool_decide (parent_block_hash (block_raw l2block) = block_hash local_tip)) ;;
  assert_true (saturating_sub (block_number l2block) 1 =? block_number local_tip) ;;
  let prev_root := reverted_block_root prev_global_state in
  let local_root := reverted_block_root local_global_state in
  (if bool_decide (local_root = prev_root) then mret tt
   else
     '(_, genesis_root) ← on_db genesis_reverted_root;
     current ← on_db (rewind_reverted fuel prev_root genesis_root local_root);
     assert_true (bool_decide (current = prev_root))) ;;
  on_db (check_prev_state (block_raw l2block)).

Definition rewind_to_last_valid_tip (fuel : nat) : M unit :=
  local_tip ← chain_gets ch_tip;
  last_valid_tip_block_hash ← on_db get_last_valid_tip_block_hash;
  local_global_state ← chain_gets ch_last_global_state;
  last_valid_tip_global_state ←
    on_db (st_unwrap (get_block_post_global_state last_valid_tip_block_hash));
  local_reverted_block_root ← on_db get_reverted_block_smt_root;
  let valid_root := reverted_block_root last_valid_tip_global_state in
  if bool_decide (block_hash local_tip = last_valid_tip_block_hash)
     && bool_decide (local_global_state = last_valid_tip_global_state)
     && bool_decide (local_reverted_block_root = valid_root)
  then mret tt
  else
    '(genesis_hash, genesis_root) ← on_db genesis_reverted_root;
    current ← on_db (rewind_reverted fuel valid_root genesis_root local_reverted_block_root);
    assert_true (bool_decide (current = valid_root)) ;;
    current ← on_db (rewind_bad_blocks fuel last_valid_tip_block_hash genesis_hash
                       (tip_block_hash local_global_state));
    assert_true (bool_decide (current = last_valid_tip_block_hash)) ;;
    on_db (set_tip_block_hash last_valid_tip_block_hash).

Definition revert_l1action (fuel : nat) (action : RevertedL1Action) : M unit :=
  let prev_global_state := ra_prev_global_state action in
  match ra_context action with
  | SubmitValidBlock l2block => revert_valid_block fuel prev_global_state l2block
  | RewindToLastValidTip => rewind_to_last_valid_tip fuel
  end ;;
  chain_modify (with_last_sync_event EventSuccess) ;;
  chain_modify (with_challenge_target None) ;;
  chain_modify (with_last_global_state prev_global_state) ;;
  tip ← on_db get_tip_block;
  chain_modify (with_tip tip).

(** ** Following layer 1 *)
Definition sync_update (fuel : nat) (action : L1Action) : M unit :=
  update_l1action fuel action ;;
  event ← chain_gets ch_last_sync_event;
  if is_success_event event then mret tt else commit_and_begin.

(** The account tree must be the one the expected block commits to. *)
Definition check_accounts : M unit :=
  target ← chain_gets ch_challenge_target;
  local_tip ← chain_gets ch_tip;
  expected_block ← match target with
                   | Some _ => on_db get_last_valid_tip_block
                   | None => mret local_tip
                   end;
  let expected_account := post_account (block_raw expected_block) in
  root ← on_db (gets (λ db, smt_root (sd_account_tree db)));
  assert_true (bool_decide (root = am_merkle_root expected_account)) ;;
  tree ← on_db (open_state RWConfig_readonly);
  current_account ← lift (map_err ApplyFailed (calculate_merkle_state tree).1);
  assert_true (bool_decide (current_account = expected_account)).

Definition sync_actions (fuel : nat) (param : SyncParam) : M unit :=
  st_for (sp_reverts param) (revert_l1action fuel) ;;
  has_bad_block_before_update ← chain_gets (λ c, bool_decide (is_Some (ch_challenge_target c)));
  st_for (sp_updates param) (sync_update fuel) ;;
  commit_and_begin ;;
  c ← chain_gets (λ c, c);
  let is_l1_revert_happend := negb (bool_decide (sp_reverts param = [])) in
  let is_bad_block_reverted :=
    has_bad_block_before_update && bool_decide (ch_challenge_target c = None) in
  (if ch_has_mem_pool c && is_success_event (ch_last_sync_event c)
      && (is_l1_revert_happend || is_bad_block_reverted)
   then lift (reject_if (negb (mem_pool_notify (block_hash (ch_tip c)))) MemPoolFailed)
   else mret tt) ;;
  check_accounts.

(** What is not committed is lost when [sync] returns. *)
Definition sync (fuel : nat) (param : SyncParam) : ST (Chain * StoreDb) ChainError unit :=
  λ '(c, store),
  let '(r, (c, tx)) := sync_actions fuel param (c, mkStoreTx store store) in (r, (c, tx_base tx)).

(** [Chain::create] *)
Definition Chain_create (rollup_config : RollupConfig) (rollup_type_script : Script) (g : Generator)
    (has_mem_pool : bool) (skipped : list H256) : ST StoreDb ChainError Chain :=
  assert_true (bool_decide (rollup_config = NodeState.rollup_config (g_rollup_context g))) ;;
  chain_id ← get_chain_id;
  assert_true (bool_decide (chain_id = script_hash rollup_type_script)) ;;
  tip ← get_tip_block;
  found ← get_block_post_global_state (block_hash tip);
  last_global_state ← lift (ok_or LastGlobalStateNotFound found);
  mret (mkChain (script_hash rollup_type_script) rollup_config None EventSuccess tip
          last_global_state g has_mem_pool skipped).
End ChainOps.
