(* ===== verification/ChainUpdater.v ===== *)
(** * Following the rollup on layer 1 (crates/block-producer/src/chain_updater.rs)

    [ChainUpdater::update_single] reads one layer-1 transaction of the rollup
    cell, extracts the rollup action with its deposits and withdrawals, and hands
    it to [Chain::sync].  The layer-1 node is the parameter [L1Transactions].

    The theorems compare what the node extracts with what the type script
    accepted: the deposits are the ones the script collects, and the owner of a
    withdrawal is where the two differ. *)
From Stdlib Require Import ZArith Lia Strings.Byte.
From stdpp Require Import prelude list gmap.
From S2P Require Import Prelude Bytes Types State StateSpec StateDB History Finality Ckb Eip712.
From S2P Require Import SubmitBlock RollupScript ChallengeLock NodeUtils NodeState AccountLocks Backends Syscalls Generator Verifiers Store ChallengeContext Chain.
Local Open Scope Z_scope.

(** [rpc_client.ckb.get_transaction]; [Err] for a failed call. *)
Class L1Transactions := l1_get_transaction : H256 → outcome unit (option L1Transaction).

Inductive UpdateError :=
| RpcFailed | TransactionNotFound (h : H256)
| UpdateNoRollupCell | NoWitness | InvalidWitness | NoOutputType | InvalidRollupAction
| InvalidChallengeLockArgs | OutPointOutOfBound
| UpdateChain (e : ChainError).

Record ChainUpdater := mkChainUpdater {
  cu_rollup_context : RollupContext; cu_rollup_type_script : Script;
}.

(** [HashSet::insert] *)
Definition set_insert `{EqDecision A} (x : A) (l : list A) : list A :=
  if bool_decide (x ∈ l) then l else l ++ [x].

Section Extract.
Context `{Blake2b, Molecule, HashCodec}.
Local Abbreviation M := (outcome UpdateError).

Definition extract_rollup_action (u : ChainUpdater) (tx : L1Transaction) : M RollupAction :=
  let rollup_type_hash := script_hash (cu_rollup_type_script u) in
  '(i, _) ← ok_or UpdateNoRollupCell
              (list_find (λ output, script_hash <$> co_type output = Some rollup_type_hash)
                 (l1_outputs tx));
  witness ← ok_or NoWitness (l1_witnesses tx !! i);
  witness_args ← ok_or InvalidWitness (dec_WitnessArgs witness);
  output_type ← ok_or NoOutputType (wa_output_type witness_args);
  ok_or InvalidRollupAction (dec_RollupAction output_type).

(** A script locked by a type hash of the rollup's configuration *)
Definition has_type_hash (type_hash : H256) (s : Script) : bool :=
  bool_decide (code_hash s = type_hash) && (hash_type s =? ScriptHashType_to_u8 HashType).

(** The first output with the challenge lock; [unreachable!] if there is none *)
Fixpoint challenge_output (config : RollupConfig) (tx_hash : H256) (index : nat)
    (outputs : list (CellOutput * bytes)) : M (ChallengeCell * ChallengeLockArgs) :=
  match outputs with
  | [] => Panic
  | (output, output_data) :: outputs =>
      if negb (has_type_hash (challenge_script_type_hash config) (co_lock output))
      then challenge_output config tx_hash (S index) outputs
      else
        raw ← slice 32 (length (args (co_lock output))) (args (co_lock output));
        lock_args ← ok_or InvalidChallengeLockArgs (dec_ChallengeLockArgs raw);
        Ok (mkChallengeCell (mkCellInput 0 (mkOutPoint tx_hash (Z.of_nat index))) output output_data,
            lock_args)
  end.
Definition extract_challenge_context (u : ChainUpdater) (tx : L1Transaction) :
    M (ChallengeCell * ChallengeLockArgs) :=
  challenge_output (rollup_config (cu_rollup_context u)) (l1_hash tx) 0
    (zip (l1_outputs tx) (l1_outputs_data tx)).

(** The lock arguments after the rollup's script hash, if the lock belongs to the
    rollup *)
Definition rollup_lock_args (ctx : RollupContext) (type_hash : H256) (lock : Script) :
    option bytes :=
  if negb (has_type_hash type_hash lock) then None
  else if (length (args lock) <? 32)%nat then None
  else if negb (bool_decide (take 32 (args lock) = rollup_script_hash ctx)) then None
  else Some (drop 32 (args lock)).

Definition try_parse_deposit_request (ctx : RollupContext) (output : CellOutput) (cell_data : bytes) :
    option DepositRequest :=
  raw ← rollup_lock_args ctx (deposit_script_type_hash (rollup_config ctx)) (co_lock output);
  lock_args ← dec_DepositLockArgs raw;
  '(amount, sudt_script_hash) ←
    match co_type output with
    | Some script =>
        if (length cell_data <? 16)%nat then None
        else Some (le_val (take 16 cell_data), script_hash script)
    | None => Some (0, zeros 32)
    end;
  Some (mkDepositRequest (co_capacity output) amount sudt_script_hash (dl_layer2_lock lock_args)
          (dl_registry_id lock_args)).

(** [parse_lock_args(&args).expect(..)] *)
Definition try_parse_withdrawal_owner_lock (ctx : RollupContext) (output : CellOutput) :
    M (option Script) :=
  match rollup_lock_args ctx (withdrawal_script_type_hash (rollup_config ctx)) (co_lock output) with
  | None => Ok None
  | Some _ =>
      match parse_lock_args (args (co_lock output)) with
      | Ok parsed => Ok (Some (pw_owner_lock parsed))
      | _ => Panic
      end
  end.

Definition add_owner_lock (ctx : RollupContext) (locks : gmap H256 Script) (output : CellOutput) :
    M (gmap H256 Script) :=
  owner_lock ← try_parse_withdrawal_owner_lock ctx output;
  Ok (match owner_lock with Some s => <[script_hash s := s]> locks | None => locks end).

Definition with_owner_lock (locks : gmap H256 Script) (w : WithdrawalRequest) :
    M WithdrawalRequestExtra :=
  owner_lock ← unwrap (locks !! w_owner_lock_hash (w_raw w));
  Ok (mkWithdrawalRequestExtra w owner_lock).

Definition extract_withdrawals (u : ChainUpdater) (tx : L1Transaction) (block : L2Block) :
    M (list WithdrawalRequestExtra) :=
  locks ← foldM (add_owner_lock (cu_rollup_context u)) ∅ (l1_outputs tx);
  mapM (with_owner_lock locks) (block_withdrawals block).
End Extract.

Section Update.
Context {Mac : Type} `{Machine Mac}.
Context `{Blake2b, Molecule, ContractArgs, SubstrateBn, SyscallCodec, MapIter, HashCodec, SmtRoot}.
Context `{SmtProof, CbmtBuild, RocksIter, MemPool} {l1 : L1Transactions}.
Local Abbreviation M := (outcome UpdateError).

Definition find_transaction (h : H256) : M L1Transaction :=
  found ← map_err (λ _, RpcFailed) (l1_get_transaction h);
  ok_or (TransactionNotFound h) found.

(** One input: the cell it spends, if that is a deposit of the rollup *)
Definition extract_deposit (ctx : RollupContext)
    (acc : list DepositInfo * list Script) (input : CellInput) :
    M (list DepositInfo * list Script) :=
  let previous := ci_previous_output input in
  tx ← find_transaction (op_tx_hash previous);
  cell_output ← ok_or OutPointOutOfBound (l1_outputs tx !! Z.to_nat (op_index previous));
  cell_data ← ok_or OutPointOutOfBound (l1_outputs_data tx !! Z.to_nat (op_index previous));
  let (deposits, asset_scripts) := acc in
  match try_parse_deposit_request ctx cell_output cell_data with
  | None => Ok acc
  | Some request =>
      Ok (deposits ++ [mkDepositInfo request (mkCellInfo previous cell_output cell_data)],
          match co_type cell_output with
          | Some s => set_insert s asset_scripts
          | None => asset_scripts
          end)
  end.
Definition extract_deposit_requests (u : ChainUpdater) (tx : L1Transaction) :
    M (list DepositInfo * list Script) :=
  foldM (extract_deposit (cu_rollup_context u)) ([], []) (l1_inputs tx).

Definition action_context (u : ChainUpdater) (tx : L1Transaction) (action : RollupAction) :
    M L1ActionContext :=
  match action with
  | RollupSubmitBlock submitted =>
      '(deposits, asset_scripts) ← extract_deposit_requests u tx;
      withdrawals ← extract_withdrawals u tx (sb_block submitted);
      Ok (SubmitBlock (sb_block submitted) deposits asset_scripts withdrawals)
  | RollupEnterChallenge witness =>
      '(cell, lock_args) ← extract_challenge_context u tx;
      Ok (Challenge cell (chl_target lock_args) witness)
  | RollupCancelChallenge => Ok CancelChallenge
  | RollupRevert reverted => Ok (Revert (rv_reverted_blocks reverted))
  end.

Definition update_single (u : ChainUpdater) (fuel : nat) (tx_hash : H256) :
    ST (Chain * StoreDb) UpdateError unit :=
  tx ← lift (find_transaction tx_hash);
  action ← lift (extract_rollup_action u tx);
  context ← lift (action_context u tx action);
  st_map_err UpdateChain (sync (Mac:=Mac) fuel (mkSyncParam [] [mkL1Action tx context])).
End Update.

(** ** What the type script and the node read from a transaction *)

(** The cells a script sees under a source *)
Record sees `{Blake2b, Molecule} (env : CkbEnv) (src : Source) (cells : list (CellOutput * bytes)) :
    Prop := {
  see_count : cell_count src = length cells;
  see_capacity i o d : cells !! i = Some (o, d) → load_cell_capacity i src = Ok (co_capacity o);
  see_lock i o d : cells !! i = Some (o, d) → load_cell_lock i src = Ok (co_lock o);
  see_type i o d : cells !! i = Some (o, d) → load_cell_type i src = Ok (co_type o);
  see_type_hash i o d : cells !! i = Some (o, d) →
    load_cell_type_hash i src = Ok (script_hash <$> co_type o);
  see_data i o d : cells !! i = Some (o, d) → load_cell_data i src = Ok d;
}.

(** What a collector does, on the list of the cells *)
Fixpoint filter_mapM {E A B} (g : nat → A → option (outcome E B)) (i : nat) (l : list A) :
    outcome E (list B) :=
  match l with
  | [] => Ok []
  | a :: l =>
      match g i a with
      | None => filter_mapM g (S i) l
      | Some m => b ← m; bs ← filter_mapM g (S i) l; Ok (b :: bs)
      end
  end.

Section Reads.
Context `{Blake2b, Molecule, HashCodec} (env : CkbEnv).

Lemma query_sees {E B} src cells (g : nat → Script → option (outcome E B)) :
  sees env src cells →
  query_filter_map load_cell_lock src None g = filter_mapM (λ i c, g i (co_lock c.1)) 0 cells.
Proof.
  intros Hs. unfold query_filter_map, query_until. set (step := λ acc i a, _).
  assert (∀ rest i acc, cells = take i cells ++ rest → length (take i cells) = i →
    query_from load_cell_lock src (λ acc, bool_decide (None = Some (length acc))) step (length rest) i acc
    = (bs ← filter_mapM (λ i c, g i (co_lock c.1)) i rest; Ok (acc ++ bs))) as Hgen.
  { induction rest as [|[o d] rest IH]; intros i acc Hc Hi; cbn [length query_from filter_mapM mbind outcome_bind].
    - by rewrite app_nil_r.
    - rewrite bool_decide_false by done.
      assert (Hl : cells !! i = Some (o, d)) by (rewrite Hc; by apply list_lookup_middle).
      rewrite (see_lock _ _ _ Hs _ _ _ Hl). cbn [fst].
      assert (Hc' : cells = take (S i) cells ++ rest).
      { rewrite (take_S_r _ _ _ Hl), <- (assoc_L app). exact Hc. }
      assert (Hi' : length (take (S i) cells) = S i) by (rewrite (take_S_r _ _ _ Hl), length_app, Hi; cbn; lia).
      subst step. cbn beta. destruct (g i (co_lock o)) as [[b|e|]|]; cbn [mbind outcome_bind]; try done.
      + rewrite IH by done. destruct (filter_mapM _ _ _); cbn; try done. by rewrite <- (assoc_L app).
      + by rewrite IH. }
  rewrite (see_count _ _ _ Hs). etransitivity; [by apply (Hgen cells 0%nat [])|].
  by destruct (filter_mapM _ _ _).
Qed.

(** *** Deposits *)
(** The request a deposit cell of the script stands for *)
Definition request_of (cell : DepositRequestCell) : DepositRequest :=
  mkDepositRequest (cv_capacity (dc_value cell)) (cv_amount (dc_value cell))
    (cv_sudt_script_hash (dc_value cell)) (dc_account_script cell) (dl_registry_id (dc_args cell)).

Lemma filter_mapM_agree {E A B R} (g : nat → A → option (outcome E B)) (f : A → option R) (r : B → R)
    (l : list A) (i : nat) (bs : list B) :
  (∀ j a, l !! j = Some a → g (i + j)%nat a = None → f a = None) →
  (∀ j a b, l !! j = Some a → g (i + j)%nat a = Some (Ok b) → f a = Some (r b)) →
  filter_mapM g i l = Ok bs → omap f l = r <$> bs.
Proof.
  revert i bs. induction l as [|a l IH]; intros i bs Hn Hs Hrun; cbn in Hrun; [by injection Hrun as <-|].
  assert (IH' : ∀ bs, filter_mapM g (S i) l = Ok bs → omap f l = r <$> bs).
  { intros bs'. apply IH; intros j a'; [|intros b];
      replace (S i + j)%nat with (i + S j)%nat by lia; [apply (Hn (S j))|apply (Hs (S j))]. }
  specialize (Hn 0%nat a eq_refl). specialize (Hs 0%nat a). rewrite Nat.add_0_r in Hn, Hs.
  destruct (g i a) as [[b|e|]|]; cbn in Hrun; try done.
  - destruct (filter_mapM g (S i) l) as [bs'| |]; try done. injection Hrun as <-.
    cbn. rewrite (Hs b eq_refl eq_refl). cbn. f_equal. by apply IH'.
  - cbn. rewrite (Hn eq_refl). by apply IH'.
Qed.

Lemma rollup_lock_args_agree ctx type_hash lock :
  rollup_lock_args ctx type_hash lock =
  if is_rollup_lock lock (rollup_script_hash ctx) type_hash then Some (drop 32 (args lock))
  else if has_type_hash type_hash lock && (length (args lock) =? 32)%nat
          && bool_decide (args lock = rollup_script_hash ctx) then Some [] else None.
Proof.
  unfold rollup_lock_args, is_rollup_lock, has_type_hash.
  destruct (bool_decide (code_hash lock = type_hash)), (hash_type lock =? _); cbn [andb negb];
    rewrite ?andb_false_r, ?andb_true_r; try done.
  destruct (lt_eq_lt_dec (length (args lock)) 32) as [[Hl|Hl]|Hl].
  - rewrite (proj2 (Nat.ltb_lt _ _) Hl), (proj2 (Nat.ltb_ge 32 _)), (proj2 (Nat.eqb_neq _ _)) by lia. done.
  - rewrite Hl, take_ge, drop_ge by lia. cbn. by destruct (bool_decide _).
  - rewrite (proj2 (Nat.ltb_ge _ 32)), (proj2 (Nat.ltb_lt 32 _)), (proj2 (Nat.eqb_neq _ _)) by lia.
    cbn. by destruct (bool_decide _).
Qed.

(** The value of a deposit cell the script accepts is the one the node computes. *)
Lemma deposit_value_agrees config src cells i o d value :
  sees env src cells → cells !! i = Some (o, d) →
  fetch_capacity_and_sudt_value config i src = Ok value →
  cv_capacity value = co_capacity o ∧
  match co_type o with
  | Some s => (16 ≤ length d)%nat ∧ cv_amount value = le_val (take 16 d) ∧
              cv_sudt_script_hash value = script_hash s
  | None => cv_amount value = 0 ∧ cv_sudt_script_hash value = zeros 32
  end.
Proof.
  intros Hs Hi. unfold fetch_capacity_and_sudt_value, fetch_sudt_script_hash.
  rewrite (see_capacity _ _ _ Hs _ _ _ Hi), (see_type _ _ _ Hs _ _ _ Hi), (see_type_hash _ _ _ Hs _ _ _ Hi),
    (see_data _ _ _ Hs _ _ _ Hi). cbn [sys mbind outcome_bind].
  destruct (co_type o) as [s|]; cbn [fmap option_fmap option_map].
  - destruct (_ && _); cbn [mbind outcome_bind]; [|done]. unfold slice.
    destruct (bool_decide (0 ≤ 16 ∧ 16 ≤ length d)%nat) eqn:Es; cbn [mbind outcome_bind]; [|done].
    apply bool_decide_eq_true in Es as [_ Es].
    destruct (_ && _); [done|]. intros [= <-]. cbn. done.
  - by intros [= <-].
Qed.

Definition cell_request (ctx : RollupContext) (cell : CellOutput * bytes) : option DepositRequest :=
  try_parse_deposit_request ctx cell.1 cell.2.

Lemma script_deposits_parse ctx src cells found :
  sees env src cells → dec_DepositLockArgs [] = None →
  collect_deposit_locks (rollup_script_hash ctx) (rollup_config ctx) src = Ok found →
  omap (cell_request ctx) cells = request_of <$> found.
Proof.
  intros Hs Hd. unfold collect_deposit_locks, collect_rollup_locks.
  rewrite (query_sees _ cells) by done. apply filter_mapM_agree; cbn [Nat.add].
  - intros i [o d] Hi. cbn [fst]. unfold cell_request, try_parse_deposit_request, extract_args_from_lock.
    cbn [fst snd]. rewrite rollup_lock_args_agree. destruct (is_rollup_lock _ _ _); cbn [negb].
    + cbn [mbind option_bind]. destruct (dec_DepositLockArgs (drop 32 (args (co_lock o)))) as [a|]; cbn [ok_or];
        [|done]. by destruct (fetch_capacity_and_sudt_value _ _ _).
    + intros _. destruct (_ && _); [|done]. cbn. by rewrite Hd.
  - intros i [o d] b Hi. cbn [fst]. unfold cell_request, try_parse_deposit_request, extract_args_from_lock.
    cbn [fst snd]. rewrite rollup_lock_args_agree. destruct (is_rollup_lock _ _ _); cbn [negb]; [|done].
    cbn [mbind option_bind]. destruct (dec_DepositLockArgs (drop 32 (args (co_lock o)))) as [a|]; cbn [ok_or]; [|done].
    destruct (fetch_capacity_and_sudt_value _ _ _) as [value|e|] eqn:Ev; try done. intros [= <-].
    destruct (deposit_value_agrees _ _ _ _ _ _ _ Hs Hi Ev) as [Hc Ht].
    unfold request_of. cbn [dc_value dc_account_script dc_args].
    destruct (co_type o) as [s|].
    + destruct Ht as (Hl & Ha & Hh). rewrite (proj2 (Nat.ltb_ge _ _) Hl), Hc, Ha, Hh. done.
    + destruct Ht as [Ha Hh]. by rewrite Hc, Ha, Hh.
Qed.
End Reads.

Section Deposits.
Context `{Blake2b, Molecule, HashCodec, L1Transactions} (env : CkbEnv).

(** The cell an input spends, as the layer-1 node knows it *)
Definition spends (input : CellInput) (cell : CellOutput * bytes) : Prop :=
  ∃ tx, l1_get_transaction (op_tx_hash (ci_previous_output input)) = Ok (Some tx) ∧
    l1_outputs tx !! Z.to_nat (op_index (ci_previous_output input)) = Some cell.1 ∧
    l1_outputs_data tx !! Z.to_nat (op_index (ci_previous_output input)) = Some cell.2.

Lemma extract_deposit_run ctx input cell ds ss :
  spends input cell →
  ∃ ds' ss', extract_deposit ctx (ds, ss) input = Ok (ds ++ ds', ss') ∧
    di_request <$> ds' = option_list (cell_request ctx cell).
Proof.
  intros (tx & E1 & E2 & E3). unfold extract_deposit, find_transaction. cbv zeta.
  rewrite E1. cbn [map_err mbind outcome_bind ok_or]. rewrite E2, E3. cbn [ok_or mbind outcome_bind].
  unfold cell_request. destruct (try_parse_deposit_request ctx cell.1 cell.2) as [r|].
  - by eexists [_], _.
  - exists [], ss. by rewrite app_nil_r.
Qed.

Lemma extract_deposits_run ctx inputs cells ds ss :
  Forall2 spends inputs cells →
  ∃ ds' ss', foldM (extract_deposit ctx) (ds, ss) inputs = Ok (ds ++ ds', ss') ∧
    di_request <$> ds' = omap (cell_request ctx) cells.
Proof.
  intros Hsp. revert ds ss. induction Hsp as [|input cell inputs cells Hc _ IH]; intros ds ss.
  - exists [], ss. by rewrite app_nil_r.
  - destruct (extract_deposit_run ctx input cell ds ss Hc) as (d1 & s1 & E1 & Hd1).
    destruct (IH (ds ++ d1) s1) as (d2 & s2 & E2 & Hd2). exists (d1 ++ d2), s2.
    cbn [foldM]. rewrite E1. cbn [mbind outcome_bind]. rewrite E2, <- (assoc_L app). split; [done|].
    rewrite fmap_app, Hd1, Hd2. cbn. by destruct (cell_request ctx cell).
Qed.

(** C13. The node follows the type script: from a transaction in which the script
    collects deposits, it extracts exactly the requests of the cells the script
    collected, in their order. *)
Theorem node_reads_script_deposits (u : ChainUpdater) (tx : L1Transaction)
    (cells : list (CellOutput * bytes)) (found : list DepositRequestCell) :
  let ctx := cu_rollup_context u in
  sees env SrcInput cells → Forall2 spends (l1_inputs tx) cells → dec_DepositLockArgs [] = None →
  collect_deposit_locks (rollup_script_hash ctx) (rollup_config ctx) SrcInput = Ok found →
  ∃ infos scripts, extract_deposit_requests u tx = Ok (infos, scripts) ∧
    di_request <$> infos = request_of <$> found.
Proof.
  intros ctx Hs Hsp Hd Hfound.
  destruct (extract_deposits_run ctx (l1_inputs tx) cells [] [] Hsp) as (infos & scripts & E & Hr).
  exists infos, scripts. split; [exact E|]. rewrite Hr. by eapply script_deposits_parse.
Qed.
End Deposits.

(** *** Withdrawals *)
(** The same cell with another owner *)
Definition with_owner (h : H256) (c : WithdrawalCell) : WithdrawalCell :=
  let a := wc_args c in
  mkWithdrawalCell (wc_index c)
    (mkWithdrawalLockArgs (wl_withdrawal_block_hash a) (wl_withdrawal_finalized_timepoint a)
       (wl_account_script_hash a) h) (wc_value c).

Section Withdrawals.
Context `{Blake2b, Molecule, HashCodec}.

(** The owner of a withdrawal cell plays no part in the check of the script. *)
Lemma check_withdrawal_owner_free ctx requests (owner : WithdrawalCell → H256) cells :
  check_withdrawal_cells ctx requests ((λ c, with_owner (owner c) c) <$> cells) =
  check_withdrawal_cells ctx requests cells.
Proof.
  unfold check_withdrawal_cells. f_equal. revert requests.
  induction cells as [|c cells IH]; intros requests; [done|]. cbn [fmap list_fmap foldM].
  cbn [with_owner wc_args wl_withdrawal_block_hash wl_withdrawal_finalized_timepoint].
  destruct (reject_if _ _) as [[]| |]; cbn [mbind outcome_bind]; try done.
  destruct (ctx_finalized_timepoint ctx) as [tp| |]; cbn [mbind outcome_bind]; try done.
  destruct (reject_if _ _) as [[]| |]; cbn [mbind outcome_bind]; try done.
  change (λ r, Ok (withdrawal_request_matches (with_owner (owner c) c) r))
    with (λ r, Ok (E:=GwError.t) (withdrawal_request_matches c r)).
  destruct (remove_first _ requests) as [[rest|]| |]; cbn [mbind outcome_bind ok_or]; try done.
Qed.

Lemma with_owner_lock_missing (locks : gmap H256 Script) ws w :
  w ∈ ws → locks !! w_owner_lock_hash (w_raw w) = None → mapM (with_owner_lock locks) ws = Panic.
Proof.
  intros Hw Hn. induction Hw as [w ws|w w' ws _ IH]; cbn [mapM].
  - assert (E : with_owner_lock locks w = Panic) by (unfold with_owner_lock; by rewrite Hn). by rewrite E.
  - rewrite IH by done. unfold with_owner_lock.
    destruct (locks !! w_owner_lock_hash (w_raw w')); reflexivity.
Qed.

(** Nothing binds the owner of a withdrawal cell to the owner the account signed
    for: the type script accepts the same withdrawal cells with any other owners,
    and a node that follows such a block, in whose transaction the owner lock of a
    request does not occur, panics. *)
Theorem withdrawal_owner_unchecked (u : ChainUpdater) (tx : L1Transaction) (block : L2Block)
    (locks : gmap H256 Script) (w : WithdrawalRequest) (ctx : BlockContext)
    (cells : list WithdrawalCell) (owner : WithdrawalCell → H256) :
  check_withdrawal_cells ctx (block_withdrawals block) cells = Ok tt →
  foldM (add_owner_lock (cu_rollup_context u)) ∅ (l1_outputs tx) = Ok locks →
  w ∈ block_withdrawals block → locks !! w_owner_lock_hash (w_raw w) = None →
  check_withdrawal_cells ctx (block_withdrawals block) ((λ c, with_owner (owner c) c) <$> cells) = Ok tt ∧
  extract_withdrawals u tx block = Panic.
Proof.
  intros Hok Hl Hw Hn. split; [by rewrite check_withdrawal_owner_free|].
  unfold extract_withdrawals. rewrite Hl. cbn [mbind outcome_bind]. by eapply with_owner_lock_missing.
Qed.
End Withdrawals.
