(* ===== verification/ChainProps.v ===== *)
(** * Properties of the local chain

    The store behind the chain holds a ledger and, per block, the accounts after
    it: the history of the account tree reads back every one of them.  Blocks the
    node applies extend this; undoing the last one restores what was before. *)
From Stdlib Require Import ZArith Lia Strings.Byte.
From stdpp Require Import prelude list gmap.
From S2P Require Import Prelude Bytes Types State StateSpec StateDB History Finality Ckb Eip712.
From S2P Require Import SubmitBlock RollupScript ChallengeLock NodeUtils NodeState AccountLocks Backends Syscalls Generator GeneratorProps BlockEffect Verifiers Store StoreProps ChallengeContext Chain.
Local Open Scope Z_scope.

(** Digests are 32 bytes. *)
Class Blake2bLength `{Blake2b} : Prop := blake2b_length x : length (blake2b x) = 32%nat.
(** The root of a sparse merkle tree depends on its leaves only, and a leaf that
    is zero is no leaf. *)
Class SmtRootLaws `{SmtRoot} : Prop :=
  smt_root_ext t t' : (∀ k, tree_get t k = tree_get t' k) → smt_root t = smt_root t'.

Lemma word_32 `{Blake2bLength} x : word x → length x = 32%nat.
Proof. intros [?|[y ->]]; [done|apply blake2b_length]. Qed.

(** ** What a block writes while it is attached *)
Section Recording.
Context `{RocksIter, SmtRoot, MapIter, Blake2b, !Blake2bLength, Molecule}.
Context (n : Z) (Hn : u64 n) (t0 : gmap H256 H256) (h0 : hist).

Record recording (s : HistoryState) (h : hist) : Prop := {
  rc_hist : hist_ok (hs_db s) h;
  rc_old b k : b ≠ n → h !! (b, k) = h0 !! (b, k);
  rc_tree k : tree_get (hs_tree s) k = default (tree_get t0 k) (h !! (n, k));
  rc_rw : hs_rw s = RWConfig_attach_block n;
}.

Definition kv_words (m : gmap H256 H256) : Prop := map_Forall (λ k v, word k ∧ word v) m.
Definition entry_words (e : JournalEntry) : Prop :=
  match e with UpdateRaw k (Some v) => word k ∧ word v | _ => True end.
(** The state of a block being applied: what is written to the tree is in the
    history, and what waits in the journal is made of words. *)
Definition applying (db : StateDB HistoryState) : Prop :=
  (∃ h, recording (db_state db) h) ∧ kv_words (dirty_state (db_dirty db)) ∧
  Forall entry_words (db_journal db).

Lemma recording_write s h k v :
  recording s h → word k → word v →
  ∃ s', hs_update_raw k v s = (Ok tt, s') ∧ recording s' (<[(n, k) := v]> h).
Proof.
  intros [Hh Ho Ht Hr] Hk%word_32 Hv%word_32. rewrite (hs_update_attach n) by done.
  eexists. split; [done|]. split; cbn.
  - by apply record_hist_ok.
  - intros b k' Hb. rewrite lookup_insert_ne by (intros [= ?]; done). by apply Ho.
  - intros k'. unfold tree_get at 1. destruct (decide (k' = k)) as [->|Hne].
    + by rewrite !lookup_insert_eq.
    + rewrite !lookup_insert_ne by (congruence || done). apply Ht.
  - done.
Qed.

Lemma recording_writes kvs s h :
  recording s h → Forall (λ kv, word kv.1 ∧ word kv.2) kvs →
  ∃ s' h', st_for kvs (λ '(k, v), update_raw k v) s = (Ok tt, s') ∧ recording s' h'.
Proof.
  intros Hr Hkv. revert s h Hr. induction Hkv as [|[k v] kvs [Hk Hv] _ IH]; intros s h Hr.
  - by exists s, h.
  - destruct (recording_write s h k v Hr Hk Hv) as (s1 & E1 & Hr1).
    destruct (IH s1 _ Hr1) as (s2 & h2 & E2 & Hr2). exists s2, h2. split; [|done].
    cbn [st_for]. by rewrite (st_bind_run _ _ _ _ _ E1).
Qed.

Lemma recording_db s h db :
  recording s h → col_record db = col_record (hs_db s) → col_reverse db = col_reverse (hs_db s) →
  recording (with_db db s) h.
Proof.
  intros [[Hg Hrec Hrev] Ho Ht Hr] E1 E2. split; cbn; [|done..].
  split; [done| |]; [by rewrite E1|by rewrite E2].
Qed.
Lemma recording_scripts l s h : recording s h → recording (write_scripts l s) h.
Proof.
  revert s. induction l as [|[x y] l IH]; intros s Hr; [done|]. cbn. apply IH.
  by apply recording_db.
Qed.
Lemma recording_datas l s h : recording s h → recording (write_datas l s) h.
Proof.
  revert s. induction l as [|[x y] l IH]; intros s Hr; [done|]. cbn. apply IH.
  by apply recording_db.
Qed.

Lemma recording_dirty d s h :
  recording s h → kv_words (dirty_state d) →
  ∃ s' h', write_dirty d s = (Ok tt, s') ∧ recording s' h'.
Proof.
  intros Hr Hd. unfold write_dirty.
  assert (∃ s1, match dirty_account_count d with
                | Some count => set_account_count count | None => mret tt end s = (Ok tt, s1) ∧
                recording s1 h) as (s1 & E1 & Hr1).
  { destruct (dirty_account_count d) as [c|]; [|by exists s].
    exists (mkHistoryState c (hs_tree s) (hs_db s) (hs_rw s)). split; [done|].
    by destruct Hr; split. }
  rewrite (st_bind_run _ _ _ _ _ E1).
  destruct (recording_writes (map_iter (dirty_state d)) s1 h Hr1) as (s2 & h2 & E2 & Hr2).
  { apply Forall_forall. intros [k v] Hin. rewrite map_iter_perm in Hin.
    apply elem_of_map_to_list in Hin. by apply Hd in Hin. }
  rewrite (st_bind_run _ _ _ _ _ E2). eexists _, h2. split; [reflexivity|].
  by apply recording_datas, recording_scripts.
Qed.

Lemma applying_same db db' :
  db_state db' = db_state db → db_dirty db' = db_dirty db → db_journal db' = db_journal db →
  applying db → applying db'.
Proof. intros E1 E2 E3 (? & ? & ?). unfold applying. by rewrite E1, E2, E3. Qed.

Lemma undo_words d e d' :
  undo_entry (E:=StateError.t) d e = Ok d' → kv_words (dirty_state d) → entry_words e →
  kv_words (dirty_state d').
Proof.
  destruct e as [k [v|]|c|sh b|dh b|i]; cbn; intros E Hd He; simplify_eq; cbn; try done.
  - by apply map_Forall_insert_2.
  - by apply map_Forall_delete.
  - case_match; by simplify_eq.
Qed.
Lemma undo_all_words es d d' :
  foldM (undo_entry (E:=StateError.t)) d es = Ok d' → kv_words (dirty_state d) →
  Forall entry_words es → kv_words (dirty_state d').
Proof.
  intros E Hd He. revert d E Hd. induction He as [|e es He _ IH]; intros d E Hd; cbn in E.
  - by simplify_eq.
  - destruct (undo_entry d e) as [d1|?|] eqn:E1; cbn in E; try done.
    eapply IH; [done|]. by eapply undo_words.
Qed.

Lemma applying_revert i db : applying db → applying (revert i db).2.
Proof.
  intros (Hr & Hd & Hj). unfold revert.
  destruct (find_revision _ _) as [j|]; [|done]. destruct (revisions db !! j) as [rev|]; [|done].
  case_match; [done|]. destruct (foldM _ _ _) as [d|e|] eqn:E; cbn; try done.
  split; [done|]. split; cbn.
  - eapply undo_all_words; [exact E|done|]. apply Forall_reverse. by apply Forall_drop.
  - by apply Forall_take.
Qed.

Lemma applying_update k v db : word k → word v → applying db → applying (update_raw k v db).2.
Proof.
  intros Hk Hv (Hr & Hd & Hj). split; [done|]. split; cbn.
  - by apply map_Forall_insert_2.
  - apply Forall_app. split; [done|]. apply Forall_singleton. cbn.
    destruct (dirty_state (db_dirty db) !! k) as [w|] eqn:E; [|done]. split; [done|]. by destruct (Hd _ _ E).
Qed.

Lemma applying_record e d db :
  applying db → entry_words e → dirty_state d = dirty_state (db_dirty db) → applying (record e d db).
Proof.
  intros (Hr & Hd & Hj) He E. split; [done|]. split; cbn; [by rewrite E|].
  apply Forall_app. split; [done|]. by apply Forall_singleton.
Qed.

Lemma applying_inner {A} (m : ST HistoryState StateError.t A) db :
  (m (db_state db)).2 = db_state db → applying db → applying (inner m db).2.
Proof.
  unfold inner. destruct (m (db_state db)) as [r s]. cbn. intros ->. by apply applying_same.
Qed.

Lemma applying_finalise db : applying db → applying (finalise db).2.
Proof.
  intros ([h Hr] & Hd & Hj). unfold finalise. rewrite (st_bind_run (gets is_dirty) _ _ _ _ eq_refl).
  destruct (is_dirty db); cbn [negb]; [|by split; eauto].
  rewrite (st_bind_run (gets db_dirty) _ _ _ _ eq_refl).
  destruct (recording_dirty (db_dirty db) (db_state db) h Hr Hd) as (s' & h' & E & Hr').
  rewrite (st_bind_run (inner _) _ _ tt (with_inner s' db)) by (unfold inner; by rewrite E).
  rewrite (st_bind_run (modify _) _ _ _ _ eq_refl).
  assert (Hc : applying (clear_journal_and_dirty (with_inner s' db))).
  { split; [by exists h'|]. split; cbn; [apply map_Forall_empty|constructor]. }
  assert (Hx : applying (db_calculate_root (clear_journal_and_dirty (with_inner s' db))).2).
  { unfold db_calculate_root. case_match; [done|]. by apply applying_inner. }
  unfold mbind, ST_bind. destruct (db_calculate_root _) as [[root|e|] x]; cbn in *; [|done..].
  by eapply applying_same.
Qed.

Lemma applying_kept : state_kept applying.
Proof.
  split; [|intros db; apply applying_finalise]. split.
  - intros k db Ha. cbn. unfold db_get_raw. cbv zeta. case_match; [by eapply applying_same|].
    apply applying_inner; [|by eapply applying_same]. done.
  - intros k v Hk Hv db. by apply applying_update.
  - intros db Ha. cbn. unfold db_get_account_count. case_match; [done|]. by apply applying_inner.
  - intros c db Ha. by apply applying_record.
  - intros db Ha. cbn. unfold db_calculate_root. case_match; [done|]. by apply applying_inner.
  - intros x db Ha. apply applying_record; [done|done|done].
  - intros d db Ha. cbn. unfold db_insert_data. apply applying_record; [by eapply applying_same|done..].
  - intros d db Ha. cbn. unfold db_get_data. destruct (dirty_data _ !! d) as [x|]; cbn.
    + by eapply applying_same.
    + by destruct (col_data _ !! d); eapply applying_same.
  - intros l db Ha. by apply applying_record.
  - intros db Ha. cbn. unfold snapshot. by case_match; try eapply applying_same.
  - intros i db. apply applying_revert.
  - intros t db. by apply applying_same.
  - intros db. by apply applying_same.
Qed.
End Recording.

(** ** Writes that leave the rest of the store alone *)
Section Frame.
Context (Q : Z * bytes → Prop) (db0 : StoreDb).

Record framed (db : StoreDb) : Prop := {
  fr_tree : sd_account_tree db = sd_account_tree db0;
  fr_history : sd_account_history db = sd_account_history db0;
  fr_reverted : sd_reverted_leaves db = sd_reverted_leaves db0;
  fr_columns key : Q key → sd_columns db !! key = sd_columns db0 !! key;
}.

Lemma framed_start : framed db0.
Proof. by split. Qed.
Lemma framed_insert {E} c k v : ¬ Q (c, k) → kept framed (insert_raw (E:=E) c k v).
Proof.
  intros Hk db [? ? ? Hc]. split; cbn; [done..|]. intros key Hq.
  rewrite lookup_insert_ne by (intros <-; done). by apply Hc.
Qed.
Lemma framed_delete {E} c k : ¬ Q (c, k) → kept framed (delete_raw (E:=E) c k).
Proof.
  intros Hk db [? ? ? Hc]. split; cbn; [done..|]. intros key Hq.
  rewrite lookup_delete_ne by (intros <-; done). by apply Hc.
Qed.
Lemma framed_get {E A} (f : Entity → option A) c k : kept framed (get_as (E:=E) f c k).
Proof. by intros db. Qed.
Lemma framed_unwrap {E A} (m : ST StoreDb E (option A)) : kept framed m → kept framed (st_unwrap m).
Proof. intros Hm. apply kept_bind; [done|intros; apply kept_lift]. Qed.
Lemma framed_hash {E} key : kept framed (get_meta_hash (E:=E) key).
Proof. apply framed_unwrap, framed_get. Qed.
Lemma framed_enumerate {E A} (l : list A) (f : Z → A → ST StoreDb E unit) :
  (∀ i a, kept framed (f i a)) → kept framed (st_enumerate l f).
Proof. intros Hf. apply kept_for. intros [i a]. apply Hf. Qed.
Lemma framed_leaves {E} f : kept framed (modify (E:=E) (λ db, with_block_leaves (f db) db)).
Proof. apply kept_modify. intros db [? ? ? Hc]. by split. Qed.
End Frame.

Section FrameOps.
Context `{Blake2b, Molecule, SyscallCodec, HashCodec, SmtRoot}.
Context (Q : Z * bytes → Prop) (db0 : StoreDb) {E : Type}.
Context (Hcol : ∀ c k, Q (c, k) → c = COLUMN_BLOCK_GLOBAL_STATE ∨
                                   (c, k) = (COLUMN_META, META_REVERTED_BLOCK_SMT_ROOT_KEY)).

Lemma not_side_column c k : c ≠ COLUMN_BLOCK_GLOBAL_STATE → c ≠ COLUMN_META → ¬ Q (c, k).
Proof. by intros H1' H2' [->|[= -> _]]%Hcol. Qed.
Lemma not_side_meta k : k ≠ META_REVERTED_BLOCK_SMT_ROOT_KEY → ¬ Q (COLUMN_META, k).
Proof. by intros Hk [[=]|[= ->]]%Hcol. Qed.

Local Ltac side :=
  first [ apply not_side_column; solve_key | apply not_side_meta; solve_key ].
Local Ltac frame :=
  repeat first
    [ apply kept_bind; [|intros] | apply framed_insert; side | apply framed_delete; side
    | apply framed_hash | apply framed_get | apply framed_unwrap | apply framed_leaves
    | apply framed_enumerate; intros | apply kept_for; intros | apply kept_lift | apply kept_gets
    | apply kept_ret | apply kept_if | progress cbv zeta | case_match ].

Lemma framed_attach b : kept (framed Q db0) (attach_block (E:=E) b).
Proof. unfold attach_block, update_block_smt, step_back. frame. Qed.
Lemma framed_detach b : kept (framed Q db0) (detach_block (E:=E) b).
Proof.
  unfold detach_block, update_block_smt, step_back, delete_submit_tx, delete_block_deposit_info_vec,
    delete_block_post_finalized_custodian_capacity. frame.
Qed.
Lemma framed_assets l : kept (framed Q db0) (insert_asset_scripts (E:=E) l).
Proof. unfold insert_asset_scripts. frame. Qed.
Lemma framed_insert_block b gs pst rs ds ws :
  ¬ Q (COLUMN_BLOCK_GLOBAL_STATE, block_hash b) →
  kept (framed Q db0) (insert_block b gs pst rs ds ws).
Proof.
  intros Hb. unfold insert_block, set_block_deposit_info_vec.
  apply kept_bind; [|intros]. { frame. }
  apply kept_bind; [by apply framed_insert|intros]. frame.
Qed.
End FrameOps.

#[export] Instance HistoryState_read_only `{RocksIter, SmtRoot} : ReadOnlyRoot HistoryState.
Proof. by split. Qed.

(** ** The chain and its history *)
Record Snap := mkSnap { sn_block : L2Block; sn_tree : gmap H256 H256; sn_global : GlobalState }.
Abbreviation root_key := (build_account_field_key 0 GW_ACCOUNT_SCRIPT_HASH_TYPE).

(** The columns the invariant reads besides the ledger's *)
Abbreviation side_key := (λ key, key.1 = COLUMN_BLOCK_GLOBAL_STATE ∨
                                 key = (COLUMN_META, META_REVERTED_BLOCK_SMT_ROOT_KEY)).

Section ChainInv.
Context {Mac : Type} `{MachineLaws Mac}.
Context `{Blake2b, Molecule, ContractArgs, SubstrateBn, SyscallCodec, MapIter, HashCodec, SmtRoot}.
Context `{SmtProof, CbmtBuild, RocksIter, MemPool, !Blake2bLength, !SmtRootLaws}.

(** A block, the accounts after it, and the global state it was stored with. *)
Record snap_ok (db : StoreDb) (h : hist) (i : nat) (sn : Snap) : Prop := {
  so_consistent : consistent (sn_tree sn) h (Z.of_nat i);
  so_keys k : length k ≠ 32%nat → tree_get (sn_tree sn) k = h256_zero;
  so_root : smt_root (sn_tree sn) = am_merkle_root (post_account (block_raw (sn_block sn)));
  so_global : sd_columns db !! (COLUMN_BLOCK_GLOBAL_STATE, block_hash (sn_block sn)) =
              Some (EGlobalState (sn_global sn));
  so_genesis : h256_is_zero (tree_get (sn_tree sn) root_key) = false;
}.

Record chain_inv (c : Chain) (db : StoreDb) (snaps : list Snap) (s k : nat) (h : hist) : Prop := {
  ci_holds : holds db (mkLedger (sn_block <$> snaps) s k);
  ci_top : ∃ sn, last snaps = Some sn ∧ sn_block sn = ch_tip c ∧
             sn_global sn = ch_last_global_state c ∧
             ∀ key, tree_get (sd_account_tree db) key = tree_get (sn_tree sn) key;
  ci_target : ch_challenge_target c = None;
  ci_linked i a b : snaps !! i = Some a → snaps !! S i = Some b →
    prev_account (block_raw (sn_block b)) = post_account (block_raw (sn_block a));
  ci_hist : hist_ok (sd_account_history db) h;
  ci_future b key : Z.of_nat (length snaps) ≤ b → h !! (b, key) = None;
  ci_snaps i sn : snaps !! i = Some sn → snap_ok db h i sn;
  ci_reverted : sd_columns db !! (COLUMN_META, META_REVERTED_BLOCK_SMT_ROOT_KEY) =
                Some (EBytes (reverted_block_root (ch_last_global_state c)));
}.

(** What the operations of the chain read is in the ledger. *)
Lemma holds_with_account t hd db l : holds db l → holds (with_account t hd db) l.
Proof. by intros []; split. Qed.

Definition opened (b : L2Block) (db : StoreDb) (rw : RWConfig) : StateDB HistoryState :=
  mkStateDB (mkHistoryState (am_count (post_account (block_raw b))) (sd_account_tree db)
               (sd_account_history db) rw) [] 0 [] no_dirty None (smt_root (sd_account_tree db)).
Lemma open_run {E} rw db l b :
  holds db l → last (lg_blocks l) = Some b → open_state (E:=E) rw db = (Ok (opened b db rw), db).
Proof.
  intros Hh Hl. destruct (read_tips (E:=E) db _ Hh) as (b' & Hlb & _ & Ev).
  rewrite Hl in Hlb. injection Hlb as <-. unfold open_state. by rewrite (st_bind_run _ _ _ _ _ Ev).
Qed.
Lemma inv_open {E} c db snaps s k h rw :
  chain_inv c db snaps s k h → open_state (E:=E) rw db = (Ok (opened (ch_tip c) db rw), db).
Proof.
  intros Hi. destruct (ci_top _ _ _ _ _ _ Hi) as (sn & Hl & Hb & _).
  eapply open_run; [apply Hi|]. cbn [lg_blocks]. by rewrite fmap_last, Hl, <- Hb.
Qed.

(** The effect of applying a block on the store *)
Lemma apply_block_post `{ChainView} g args skipped (st st' : StateDB HistoryState) r :
  let raw := block_raw (aa_l2block args) in
  raw_block_hash raw ∉ skipped →
  apply_block (Mac:=Mac) g args skipped st = (Ok r, st') →
  has_account (post_account raw) st' ∧
  length (bs_tx_receipts r) = length (block_transactions (aa_l2block args)).
Proof.
  intros raw Hskip E. unfold apply_block in E. cbv zeta in E. fold raw in E.
  rewrite bool_decide_false in E by done. cbn [negb] in E. inv_ok.
  match goal with Hx : apply_txs_from _ _ _ _ _ _ _ _ _ _ = (Ok ?p, _) |- _ =>
    rename Hx into Ht; destruct p as [txs used] end.
  apply tx_receipts_checkpoints in Ht as [Hwit _]. inv_ok.
  rename select (check_account_state (post_account _) _ = _) into Hpost.
  apply check_account_state_Ok in Hpost as [Hpost ->]. split; [done|]. cbn.
  by rewrite <- (length_fmap tr_tx_witness_hash), Hwit, length_fmap.
Qed.

Lemma has_account_root account (st : StateDB HistoryState) :
  has_account account st → smt_root (hs_tree (db_state st)) = am_merkle_root account.
Proof.
  intros [Hr _]. cbn in Hr. unfold db_calculate_root in Hr. case_match; [done|].
  unfold inner in Hr. cbn in Hr. by simplify_eq.
Qed.

Lemma applying_opened b db h n :
  hist_ok (sd_account_history db) h → (∀ key, h !! (n, key) = None) →
  applying n (sd_account_tree db) h (opened b db (RWConfig_attach_block n)).
Proof.
  intros Hh Hnew. split; [|by split]. exists h. split; cbn; [done|done| |done].
  intros key. by rewrite Hnew.
Qed.

Lemma apply_on_store_success (view : ChainView) g args skipped c db snaps s k h r db' :
  let n := block_number (aa_l2block args) in
  chain_inv c db snaps s k h → u64 n → (∀ key, h !! (n, key) = None) →
  block_hash (aa_l2block args) ∉ skipped →
  apply_on_store (Mac:=Mac) view g args skipped db = (Ok (ApplySuccess r), db') →
  ∃ s' h', db' = with_account (hs_tree s') (hs_db s') db ∧
    recording n (sd_account_tree db) h s' h' ∧
    smt_root (hs_tree s') = am_merkle_root (post_account (block_raw (aa_l2block args))) ∧
    length (bs_tx_receipts r) = length (block_transactions (aa_l2block args)).
Proof.
  intros n Hi Hn Hnew Hskip Hrun. unfold apply_on_store in Hrun.
  rewrite (inv_open _ _ _ _ _ _ _ Hi) in Hrun. set (st := opened _ _ _) in Hrun.
  destruct (verify_and_apply_block g args skipped st) as [o st'] eqn:E.
  unfold verify_and_apply_block in E.
  destruct (apply_block g args skipped st) as [[r'|[]|] st1] eqn:Ea; simplify_eq.
  assert (Hst : applying n (sd_account_tree db) h st) by (apply applying_opened; [apply Hi|done]).
  pose proof (kept_apply_block (Mac:=Mac) (applying n (sd_account_tree db) h)
    (applying_kept n Hn (sd_account_tree db) h) g args skipped st Hst) as Hk.
  rewrite Ea in Hk. destruct Hk as ([h' Hr] & _).
  destruct (apply_block_post g args skipped st st' r Hskip Ea) as [Hacc Hlen].
  exists (db_state st'), h'. split; [done|]. split; [done|]. split; [|done].
  by apply has_account_root.
Qed.

(** *** A new block *)
Lemma ledger_ok_extend bs s k b b0 :
  ledger_ok (mkLedger bs s k) → last bs = Some b0 →
  block_number b = block_number b0 + 1 → parent_block_hash (block_raw b) = block_hash b0 →
  h256_is_zero (block_hash b) = false → NoDup ((bs ++ [b]) ≫= entries).*1 →
  Z.of_nat (length bs) + 1 < 2 ^ 64 → ledger_ok (mkLedger (bs ++ [b]) s k).
Proof.
  intros [Hn Hh Hx Hu Hs Hp] Hl Hb Hpar Hz Hnd Hshort. cbn in *.
  assert (Hb0 : bs !! pred (length bs) = Some b0) by (by rewrite <- last_lookup).
  assert (Hpos : (0 < length bs)%nat) by (apply lookup_lt_Some in Hb0; lia).
  split; cbn.
  - intros i x [Hi|[Hge Hi]]%lookup_app_Some; [by apply Hn|].
    apply list_lookup_singleton_Some in Hi as [Hi <-]. rewrite Hb, (Hn _ _ Hb0). lia.
  - intros x [Hi|Hi%list_elem_of_singleton]%elem_of_app; [by apply Hh|]. subst x.
    split; [apply blake2b_length|done].
  - intros i x y Hi [Hj|[Hge Hj]]%lookup_app_Some.
    + apply (Hx i); [|done]. rewrite lookup_app_l in Hi; [done|]. apply lookup_lt_Some in Hj. lia.
    + apply list_lookup_singleton_Some in Hj as [Hj <-].
      replace i with (pred (length bs)) in Hi by lia. rewrite lookup_app_l in Hi by lia. congruence.
  - done.
  - rewrite length_app. cbn. lia.
  - rewrite length_app. cbn. lia.
Qed.

(** The history of the block being attached reads back its accounts. *)
Lemma recording_consistent n t0 h s h' :
  recording n t0 h s h' → consistent t0 h (n - 1) → consistent (hs_tree s) h' n.
Proof.
  intros Hr Hc key o Hk Ho. rewrite (rc_tree _ _ _ _ _ Hr).
  destruct (h' !! (n, key)) as [v|] eqn:Ev; cbn.
  - assert (Hv : is_latest h' n key (Some v)) by (exists n; repeat split; [lia|done|lia]).
    by rewrite (is_latest_fun _ _ _ _ _ Ho Hv).
  - apply Hc; [done|]. eapply is_latest_ext; [intros b Hb; symmetry; apply (rc_old _ _ _ _ _ Hr); lia|].
    destruct o as [v|]; cbn in *.
    + destruct Ho as (b & Hb & E & Hm). exists b.
      assert (b ≠ n) by (intros ->; congruence).
      split; [lia|]. split; [done|]. intros b' Hb'. apply Hm. lia.
    + intros b Hb. apply Ho. lia.
Qed.
Lemma recording_older n t0 h s h' t i :
  recording n t0 h s h' → i < n → consistent t h i → consistent t h' i.
Proof.
  intros Hr Hi Hc key o Hk Ho. apply Hc; [done|]. eapply is_latest_ext; [|exact Ho].
  intros b Hb. symmetry. apply (rc_old _ _ _ _ _ Hr). lia.
Qed.
Lemma consistent_ext t t' h n :
  (∀ key, tree_get t' key = tree_get t key) → consistent t h n → consistent t' h n.
Proof. intros E Hc key o Hk Ho. rewrite E. by apply Hc. Qed.

Lemma extend_inv c db db' snaps s k h b gs hs h' :
  let n := Z.of_nat (length snaps) in
  chain_inv c db snaps s k h →
  holds db' (mkLedger (sn_block <$> snaps ++ [mkSnap b (hs_tree hs) gs]) s k) →
  (∀ key, key ≠ (COLUMN_BLOCK_GLOBAL_STATE, block_hash b) →
     key.1 = COLUMN_BLOCK_GLOBAL_STATE ∨ key = (COLUMN_META, META_REVERTED_BLOCK_SMT_ROOT_KEY) →
     sd_columns db' !! key = sd_columns db !! key) →
  sd_columns db' !! (COLUMN_BLOCK_GLOBAL_STATE, block_hash b) = Some (EGlobalState gs) →
  sd_account_tree db' = hs_tree hs → sd_account_history db' = hs_db hs →
  recording n (sd_account_tree db) h hs h' →
  smt_root (hs_tree hs) = am_merkle_root (post_account (block_raw b)) →
  prev_account (block_raw b) = post_account (block_raw (ch_tip c)) →
  h256_is_zero (tree_get (hs_tree hs) root_key) = false →
  reverted_block_root gs = reverted_block_root (ch_last_global_state c) →
  chain_inv (with_last_global_state gs (with_tip b c)) db' (snaps ++ [mkSnap b (hs_tree hs) gs]) s k h'.
Proof.
  intros n [Hh (sn & Hl & Htip & Hgl & Htop) Htg Hlk Hhi Hfu Hsn Hrv] Hh' Hcol Hnew Ht Hd Hr Hroot Hprev
    Hz Hrr.
  assert (Hlast : snaps !! pred (length snaps) = Some sn) by (by rewrite <- last_lookup).
  assert (Hpos : (0 < length snaps)%nat) by (apply lookup_lt_Some in Hlast; lia).
  assert (Hfresh : ∀ i x, snaps !! i = Some x → block_hash (sn_block x) ≠ block_hash b).
  { intros i x Hx. apply (fresh_hash (sn_block <$> snaps)).
    - pose proof (lo_unique _ (ho_ok _ _ Hh')) as Hu. cbn in Hu. by rewrite fmap_app in Hu.
    - apply list_elem_of_fmap. exists x. split; [done|]. by eapply list_elem_of_lookup_2. }
  split; cbn.
  - done.
  - exists (mkSnap b (hs_tree hs) gs). rewrite last_snoc. by rewrite Ht.
  - done.
  - intros i x y Hi [Hj|[Hge Hj]]%lookup_app_Some.
    + apply (Hlk i); [|done]. rewrite lookup_app_l in Hi; [done|]. apply lookup_lt_Some in Hj. lia.
    + apply list_lookup_singleton_Some in Hj as [Hj <-]. cbn.
      replace i with (pred (length snaps)) in Hi by lia. rewrite lookup_app_l in Hi by lia. congruence.
  - rewrite Hd. apply (rc_hist _ _ _ _ _ Hr).
  - intros b' key Hb'. rewrite length_app in Hb'. cbn in Hb'.
    rewrite (rc_old _ _ _ _ _ Hr) by lia. apply Hfu. lia.
  - intros i x [Hi|[Hge Hi]]%lookup_app_Some.
    + destruct (Hsn i x Hi) as [Hc Hk Hro Hg Hge]. apply lookup_lt_Some in Hi as Hlt. split; [|done|done| |done].
      * eapply recording_older; [done|lia|done].
      * rewrite Hcol; [done|intros [= E]; by eapply Hfresh|by left].
    + apply list_lookup_singleton_Some in Hi as [Hi <-]. replace i with (length snaps) by lia.
      destruct (Hsn _ _ Hlast) as [Hc Hk Hro Hg Hge']. split; cbn; [|..|done|done|done].
      * eapply (recording_consistent n _ h); [exact Hr|]. apply (consistent_ext (sn_tree sn)); [exact Htop|].
        replace (n - 1) with (Z.of_nat (pred (length snaps))) by lia. done.
      * intros key Hkey. rewrite (rc_tree _ _ _ _ _ Hr).
        destruct (h' !! (n, key)) as [v|] eqn:Ev; cbn.
        -- by destruct (ho_range _ _ (rc_hist _ _ _ _ _ Hr) _ _ _ Ev) as (_ & ? & _).
        -- rewrite Htop. by apply Hk.
  - rewrite Hcol; [by rewrite Hrr|done|by right].
Qed.

Lemma on_db_Ok {A} (m : ST StoreDb ChainError A) c tx a x :
  on_db m (c, tx) = (Ok a, x) ↔ ∃ db', m (tx_db tx) = (Ok a, db') ∧ x = (c, mkStoreTx (tx_base tx) db').
Proof.
  unfold on_db. destruct (m (tx_db tx)) as [r db']. split.
  - intros [= -> <-]. eauto.
  - by intros (db1 & [= -> ->] & ->).
Qed.
Lemma chain_gets_Ok {A} (f : Chain → A) c tx a x :
  chain_gets f (c, tx) = (Ok a, x) → a = f c ∧ x = (c, tx).
Proof. by intros [= <- <-]. Qed.
Lemma gets_Ok {S A} (f : S → A) (x x' : S) a : gets (E:=ChainError) f x = (Ok a, x') → a = f x ∧ x' = x.
Proof. by intros [= <- <-]. Qed.
Lemma assert_true_Ok {S} b (x x' : S) u : assert_true b x = (Ok u, x') → b = true ∧ x' = x.
Proof. unfold assert_true. intros [E ->]%lift_Ok. by apply assert_that_Ok in E. Qed.

(** What a block needs to extend the chain: new hashes, numbers in range, and not
    to be on the list of invalid blocks, for which the generator skips the checks of
    roots and checkpoints. *)
Record fresh_block (c : Chain) (snaps : list Snap) (b : L2Block) : Prop := {
  fb_keys : NoDup (((sn_block <$> snaps) ++ [b]) ≫= entries).*1;
  fb_hash : h256_is_zero (block_hash b) = false;
  fb_room : Z.of_nat (length snaps) + 1 < 2 ^ 64;
  fb_txs : Z.of_nat (length (block_transactions b)) < 2 ^ 32;
  fb_checked : block_hash b ∉ ch_skipped_invalid_block_list c;
}.

(** Storing the applied block *)
Lemma store_block db snaps s k b gs pst rs ds ws scripts db1 db2 db3 :
  let bs := sn_block <$> snaps in
  holds db (mkLedger bs s k) → ledger_ok (mkLedger (bs ++ [b]) s k) →
  length rs = length (block_transactions b) → Z.of_nat (length (block_transactions b)) < 2 ^ 32 →
  insert_block b gs pst rs ds ws db = (Ok tt, db1) →
  insert_asset_scripts (E:=ChainError) scripts db1 = (Ok tt, db2) →
  attach_block (E:=ChainError) b db2 = (Ok tt, db3) →
  holds db3 (mkLedger (bs ++ [b]) s k) ∧
  framed (λ key, side_key key ∧ key ≠ (COLUMN_BLOCK_GLOBAL_STATE, block_hash b)) db db3 ∧
  sd_columns db3 !! (COLUMN_BLOCK_GLOBAL_STATE, block_hash b) = Some (EGlobalState gs).
Proof.
  intros bs Hh Hok Hlen Htx E1 E2 E3.
  assert (Hc : check_prev_txs_state b pst rs = Ok tt).
  { destruct (check_prev_txs_state b pst rs) as [[]|e|] eqn:Ec; [done|..]; unfold insert_block in E1;
      rewrite Ec in E1; inv_ok; done. }
  destruct (holds_insert db bs s k b gs pst rs ds ws Hh Hok Hc Hlen Htx)
    as (d1 & Ed1 & Hh1 & Hb1 & Htx1 & _).
  rewrite E1 in Ed1. injection Ed1 as <-.
  pose proof (framed_start (λ key, side_key key ∧ key ≠ (COLUMN_BLOCK_GLOBAL_STATE, block_hash b)) db) as F0.
  assert (Hq : ∀ c key, (side_key (c, key) ∧ (c, key) ≠ (COLUMN_BLOCK_GLOBAL_STATE, block_hash b)) →
    c = COLUMN_BLOCK_GLOBAL_STATE ∨ (c, key) = (COLUMN_META, META_REVERTED_BLOCK_SMT_ROOT_KEY))
    by (intros c key [? _]; done).
  apply (framed_insert_block _ db Hq b gs pst rs ds ws) in F0; [|by intros [_ ?]].
  rewrite E1 in F0. cbn in F0.
  pose proof (framed_assets _ db (E:=ChainError) Hq scripts _ F0) as F2. rewrite E2 in F2. cbn in F2.
  pose proof (framed_attach _ db (E:=ChainError) Hq b _ F2) as F3. rewrite E3 in F3. cbn in F3.
  assert (E2' : db2 = with_columns (put_all (scripts ≫= λ x, [((COLUMN_ASSET_SCRIPT, script_hash x), EScript x)])) db1).
  { unfold insert_asset_scripts in E2.
    rewrite (st_for_put _ _ (λ x, [((COLUMN_ASSET_SCRIPT, script_hash x), EScript x)])) in E2; [|done].
    by injection E2. }
  assert (Hother : ∀ c key, c ≠ COLUMN_ASSET_SCRIPT → sd_columns db2 !! (c, key) = sd_columns db1 !! (c, key)).
  { intros c key Hne. rewrite E2'. apply put_all_other. intros (e & Ee & Hin)%list_elem_of_fmap.
    apply list_elem_of_bind in Hin as (x & Hx & _). apply list_elem_of_singleton in Hx. subst e.
    by injection Ee as ->. }
  split; [|split; [done|]].
  - assert (Hh2 : holds db2 (mkLedger bs s k)).
    { rewrite E2'. apply holds_frame; [done|]. intros c key (e & E & Hin)%list_elem_of_fmap.
      apply list_elem_of_bind in Hin as (x & Hx & _). apply list_elem_of_singleton in Hx. subst e.
      injection E as -> ->. split; [by intros [|[|]]|]. done. }
    destruct (holds_attach (E:=ChainError) db2 bs s k b Hh2 Hok) as (d3 & Ed3 & Hh3).
    + apply (lo_positions _ (ho_ok _ _ Hh)).
    + by rewrite Hother.
    + intros i tx Hi. rewrite Hother by done. by apply Htx1.
    + rewrite E3 in Ed3. by injection Ed3 as ->.
  - pose proof (framed_start side_key db2) as G.
    apply (framed_attach _ db2 (E:=ChainError) (λ c key, id) b) in G. rewrite E3 in G.
    rewrite (fr_columns _ _ _ G) by (by left). rewrite Hother by done.
    rewrite (insert_run _ _ _ _ _ _ _ Hc) in E1. injection E1 as <-.
    cbn [sd_columns with_columns]. apply put_all_in.
    { unfold stored. rewrite elem_of_app. left. apply list_elem_of_In. cbn [In]. auto. } intros v Hv.
    unfold stored in Hv. rewrite !elem_of_app, !enumerate_put_in in Hv.
    destruct Hv as [Hv|[(i & [tx r] & _ & Hv)|(i & w & _ & Hv)]]; apply list_elem_of_In in Hv; cbn in Hv.
    + destruct Hv as [Hv|[Hv|[Hv|[]]]]; [done| |done]. by injection Hv.
    + by destruct Hv as [Hv|[Hv|[]]].
    + by destruct Hv as [Hv|[]].
Qed.

Lemma process_block_extends c db base snaps s k h b gs ds scripts ws c' tx' :
  chain_inv c db snaps s k h → fresh_block c snaps b →
  reverted_block_root gs = reverted_block_root (ch_last_global_state c) →
  process_block (Mac:=Mac) b gs ds scripts ws (c, mkStoreTx base db) = (Ok None, (c', tx')) →
  h256_is_zero (tree_get (sd_account_tree (tx_db tx')) root_key) = false →
  tx_base tx' = base ∧ c' = with_last_global_state gs (with_tip b c) ∧
  ∃ h', chain_inv c' (tx_db tx') (snaps ++ [mkSnap b (sd_account_tree (tx_db tx')) gs]) s k h'.
Proof.
  intros Hi [Hkeys Hz Hroom Htxs Hskip] Hrr Hrun Hroot. unfold process_block in Hrun.
  destruct (ci_top _ _ _ _ _ _ Hi) as (sn & Hl & Htip & _ & Htop).
  pose proof (ci_holds _ _ _ _ _ _ Hi) as Hh.
  assert (Hl' : last (sn_block <$> snaps) = Some (ch_tip c)) by (by rewrite fmap_last, Hl, <- Htip).
  assert (Hn : block_number (ch_tip c) = Z.of_nat (pred (length snaps))).
  { apply (lo_number _ (ho_ok _ _ Hh)). cbn. rewrite last_lookup, length_fmap in Hl'. done. }
  assert (Hpos : (0 < length snaps)%nat) by (rewrite last_lookup in Hl; apply lookup_lt_Some in Hl; lia).
  apply st_bind_Ok in Hrun as (tip & x1 & [-> ->]%chain_gets_Ok & Hrun).
  apply st_bind_Ok in Hrun as (nx & x2 & [Hnx <-]%lift_Ok & Hrun).
  assert (nx = block_number (ch_tip c) + 1) as ->.
  { unfold add_w, checked_add in Hnx. case_match; [|done]. by injection Hnx. }
  apply st_bind_Ok in Hrun as (u & x3 & [Hsucc ->]%assert_true_Ok & Hrun).
  apply bool_decide_eq_true in Hsucc. injection Hsucc as Hnum Hpar. cbv zeta in Hrun.
  apply st_bind_Ok in Hrun as (base' & x4 & [-> ->]%gets_Ok & Hrun).
  apply st_bind_Ok in Hrun as (tree & x5 & (db0 & Eo & ->)%on_db_Ok & Hrun).
  cbn [tx_db tx_base] in Eo, Hrun. rewrite (inv_open _ _ _ _ _ _ _ Hi) in Eo. injection Eo as <- <-.
  apply st_bind_Ok in Hrun as (pm & x6 & [Hpm <-]%lift_Ok & Hrun).
  assert (Epm : Ok (E:=ChainError) (mkAccountMerkleState (smt_root (sd_account_tree db))
    (am_count (post_account (block_raw (ch_tip c))))) = Ok pm) by exact Hpm. injection Epm as <-.
  apply st_bind_Ok in Hrun as (u' & x7 & [Hprev ->]%assert_true_Ok & Hrun).
  apply bool_decide_eq_true in Hprev.
  apply st_bind_Ok in Hrun as (g & x8 & [-> ->]%chain_gets_Ok & Hrun).
  apply st_bind_Ok in Hrun as (sk & x9 & [-> ->]%chain_gets_Ok & Hrun).
  apply st_bind_Ok in Hrun as (applied & x10 & (db1 & Ea & ->)%on_db_Ok & Hrun).
  destruct applied as [r|t e|e]; [|by apply ret_Ok in Hrun as [? _]|by apply lift_Ok in Hrun as [? _]].
  cbn [tx_db tx_base] in *.
  assert (Hu : u64 (block_number b)) by (unfold in_width; lia).
  assert (Hf : ∀ key, h !! (block_number b, key) = None)
    by (intros key; apply (ci_future _ _ _ _ _ _ Hi); lia).
  destruct (apply_on_store_success _ _ (mkApplyBlockArgs b (di_request <$> ds) ws) _ _ _ _ _ _ _ _ _
    Hi Hu Hf Hskip Ea)
    as (hs & h' & -> & Hrec & Hro & Hlen). cbn [aa_l2block] in *.
  apply st_bind_Ok in Hrun as (u1 & y1 & (db2 & E1 & ->)%on_db_Ok & Hrun).
  apply st_map_err_Ok in E1. destruct u1.
  apply st_bind_Ok in Hrun as (u2 & y2 & (db3 & E2 & ->)%on_db_Ok & Hrun). destruct u2.
  apply st_bind_Ok in Hrun as (u3 & y3 & (db4 & E3 & ->)%on_db_Ok & Hrun). destruct u3.
  cbn [tx_db tx_base] in *. injection Hrun as <- <-. cbn [tx_db tx_base] in *.
  split; [done|]. split; [done|].
  assert (Hok : ledger_ok (mkLedger ((sn_block <$> snaps) ++ [b]) s k)).
  { eapply ledger_ok_extend; [apply Hh|exact Hl'|done|done|done|done|]. by rewrite length_fmap. }
  pose proof (holds_with_account (hs_tree hs) (hs_db hs) _ _ Hh) as Hh'.
  destruct (store_block _ snaps s k b gs _ _ ds ws scripts db2 db3 db4 Hh' Hok Hlen Htxs E1 E2 E3)
    as (Hh4 & F & Hg).
  assert (Et : sd_account_tree db4 = hs_tree hs) by apply (fr_tree _ _ _ F). rewrite Et in *.
  exists h'. eapply (extend_inv c db _ snaps s k h b gs hs h'); try done.
  - by rewrite fmap_app.
  - intros key Hne Hs. rewrite (fr_columns _ _ _ F) by done. done.
  - apply (fr_history _ _ _ F).
  - by replace (Z.of_nat (length snaps)) with (block_number b) by lia.
  - rewrite <- Hprev, <- Htip. rewrite last_lookup in Hl.
    rewrite (smt_root_ext _ _ Htop), (so_root _ _ _ _ (ci_snaps _ _ _ _ _ _ Hi _ _ Hl)).
    generalize (post_account (block_raw (sn_block sn))). by intros [].
Qed.

(** *** Undoing the last block *)
Lemma latest_exists (hd : HistoryDb) (h : hist) n key :
  hist_ok hd h → u64 n → length key = 32%nat → ∃ o, is_latest h n key o.
Proof.
  intros Hh Hn Hk. destruct (get_history_state_run (E:=unit) hd h n key Hh Hn Hk) as (o & _ & Ho). eauto.
Qed.

Lemma detach_history (hd : HistoryDb) (h : hist) t tp n cnt :
  u64 n → 1 ≤ n → hist_ok hd h → consistent t h n → consistent tp h (n - 1) →
  (∀ key, length key ≠ 32%nat → tree_get t key = tree_get tp key) →
  ∃ s2, detach_block_state n (mkHistoryState cnt t hd RWConfig_detach_block) = (Ok tt, s2) ∧
    (∀ key, tree_get (hs_tree s2) key = tree_get tp key) ∧
    hist_ok (hs_db s2) (filter (λ x, x.1.1 ≠ n) h).
Proof.
  intros Hn Hpos Hh Hc Hcp Hk. set (h0 := filter (λ x, x.1.1 ≠ n) h).
  set (s0 := mkHistoryState cnt tp hd (RWConfig_attach_block n)).
  set (s1 := mkHistoryState cnt t hd (RWConfig_attach_block n)).
  assert (Hold : ∀ b key, b ≠ n → h !! (b, key) = h0 !! (b, key)).
  { intros b key Hb. symmetry. apply option_eq. intros v. unfold h0.
    rewrite map_lookup_filter_Some. cbn. naive_solver. }
  assert (Hnone : ∀ key, h0 !! (n, key) = None).
  { intros key. apply map_lookup_filter_None. right. cbn. intros v _ []. done. }
  assert (Htree : ∀ key, h !! (n, key) = None → tree_get t key = tree_get tp key).
  { intros key Hnk. destruct (decide (length key = 32%nat)) as [H32|]; [|by apply Hk].
    destruct (latest_exists hd h (n - 1) key Hh) as (o & Ho); [unfold in_width in *; lia|done|].
    rewrite (Hcp key o H32 Ho). apply Hc; [done|]. destruct o as [v|]; cbn in *.
    - destruct Ho as (b & Hb & E & Hm). exists b. split; [lia|]. split; [done|]. intros b' Hb'.
      destruct (decide (b' = n)) as [->|]; [done|]. apply Hm. lia.
    - intros b Hb. destruct (decide (b = n)) as [->|]; [done|]. apply Ho. lia. }
  assert (Ha : attached n s0 h0 s1 h) by (by split).
  assert (Hc0 : consistent tp h0 (n - 1)).
  { intros key o H32 Ho. apply Hcp; [done|]. eapply is_latest_ext; [|exact Ho].
    intros b Hb. apply Hold. lia. }
  destruct (reverted_key_values_run (E:=StateError.t) n Hn Hpos s0 h0 s1 h Ha Hc0) as (rv & Erv & Hin & Hval).
  set (s1' := mkHistoryState cnt t hd RWConfig_detach_block).
  destruct (write_back_runs rv s1' eq_refl) as (s2 & E2 & _).
  destruct (write_back s0 rv s1' s2 eq_refl Hval) as (Hdb & _ & Ht); [|done|].
  { intros key Hkey. apply Htree. apply eq_None_not_Some. auto. }
  destruct (remove_block_run (E:=StateError.t) n Hn h0 hd h Hh Hold Hnone) as (db' & E3 & Hh').
  exists (with_db db' s2). split; [|by split].
  unfold detach_block_state. erewrite st_bind_run by done.
  erewrite st_lift_run by exact Erv. erewrite st_bind_run by exact E2.
  erewrite st_bind_run by done. rewrite Hdb. by erewrite st_lift_run by exact E3.
Qed.

Lemma filter_consistent (h : hist) t n i :
  i < n → consistent t h i → consistent t (filter (λ x, x.1.1 ≠ n) h) i.
Proof.
  intros Hi Hc key o Hk Ho. apply Hc; [done|]. eapply is_latest_ext; [|exact Ho].
  intros b Hb. apply option_eq. intros v. rewrite map_lookup_filter_Some. cbn.
  assert (b ≠ n) by lia. naive_solver.
Qed.

Lemma on_db_run {A} (m : ST StoreDb ChainError A) c base db a db' :
  m db = (Ok a, db') → on_db m (c, mkStoreTx base db) = (Ok a, (c, mkStoreTx base db')).
Proof. intros E. unfold on_db. cbn. by rewrite E. Qed.
Lemma assert_run {S} (b : bool) (x : S) : b = true → assert_true b x = (Ok tt, x).
Proof. by intros ->. Qed.

Lemma detach_keeps_side b db db' u :
  detach_block (E:=ChainError) b db = (Ok u, db') → framed side_key db db'.
Proof.
  intros E. pose proof (framed_start side_key db) as F.
  apply (framed_detach _ db (E:=ChainError) (λ c key, id) b) in F. by rewrite E in F.
Qed.

(** The invariant after the last block is gone *)
Lemma shrink_inv c db db' snaps p sn s k h hs :
  let n := Z.of_nat (S (length snaps)) in
  chain_inv c db (snaps ++ [p; sn]) s k h →
  holds db' (mkLedger (sn_block <$> snaps ++ [p]) (min s (length snaps)) (min k (length snaps))) →
  (∀ key, side_key key → sd_columns db' !! key = sd_columns db !! key) →
  sd_account_tree db' = hs_tree hs → sd_account_history db' = hs_db hs →
  (∀ key, tree_get (hs_tree hs) key = tree_get (sn_tree p) key) →
  hist_ok (hs_db hs) (filter (λ x, x.1.1 ≠ n) h) →
  reverted_block_root (sn_global p) = reverted_block_root (sn_global sn) →
  chain_inv (with_tip (sn_block p) (with_last_global_state (sn_global p)
     (with_challenge_target None (with_last_sync_event EventSuccess c)))) db' (snaps ++ [p])
     (min s (length snaps)) (min k (length snaps)) (filter (λ x, x.1.1 ≠ n) h).
Proof.
  intros n [Hh (sn' & Hl & Htip & Hgl & Htop) Htg Hlk Hhi Hfu Hsn Hrv] Hh' Hcol Et Ed Hread Hok Hrr.
  change (snaps ++ [p; sn]) with (snaps ++ [p] ++ [sn]) in *. rewrite app_assoc in *.
  rewrite last_snoc in Hl. injection Hl as <-.
  split; cbn.
  - done.
  - exists p. rewrite last_snoc, Et. done.
  - done.
  - intros i a b Ha Hb. apply (Hlk i); by apply lookup_app_l_Some.
  - by rewrite Ed.
  - intros b key Hb. apply map_lookup_filter_None. rewrite length_app in Hb. cbn in Hb.
    destruct (decide (b = n)) as [->|Hne]; [right; cbn; by intros v _ []|]. left.
    apply Hfu. rewrite !length_app. cbn. lia.
  - intros i x Hx. apply lookup_lt_Some in Hx as Hlt. rewrite length_app in Hlt. cbn in Hlt.
    destruct (Hsn i x) as [Hc Hk Hro Hg Hge]; [by apply lookup_app_l_Some|].
    split; [apply filter_consistent; [lia|done]|done|done| |done].
    rewrite Hcol; [done|by left].
  - rewrite Hcol by (by right). etrans; [exact Hrv|]. by rewrite <- Hgl, Hrr.
Qed.

(** Facts about the last two blocks that the checks of a revert compare *)
Lemma last_two c db snaps p sn s k h :
  chain_inv c db (snaps ++ [p; sn]) s k h →
  snap_ok db h (length snaps) p ∧ snap_ok db h (S (length snaps)) sn ∧
  sn_block sn = ch_tip c ∧ sn_global sn = ch_last_global_state c ∧
  (∀ key, tree_get (sd_account_tree db) key = tree_get (sn_tree sn) key) ∧
  block_number (sn_block p) = Z.of_nat (length snaps) ∧
  block_number (sn_block sn) = Z.of_nat (S (length snaps)) ∧
  parent_block_hash (block_raw (sn_block sn)) = block_hash (sn_block p) ∧
  prev_account (block_raw (sn_block sn)) = post_account (block_raw (sn_block p)) ∧
  Z.of_nat (S (length snaps)) < 2 ^ 64.
Proof.
  intros [Hh (sn' & Hl & Htip & Hgl & Htop) Htg Hlk Hhi Hfu Hsn Hrv].
  assert (Hp : (snaps ++ [p; sn]) !! length snaps = Some p) by (by rewrite list_lookup_middle).
  assert (Hs : (snaps ++ [p; sn]) !! S (length snaps) = Some sn).
  { rewrite lookup_app_r by lia. by replace (S (length snaps) - length snaps)%nat with 1%nat by lia. }
  assert (Hl' : last (snaps ++ [p; sn]) = Some sn)
    by (rewrite last_lookup, length_app; cbn; by rewrite Nat.add_comm).
  rewrite Hl' in Hl. injection Hl as <-. destruct (ho_ok _ _ Hh) as [Hn _ Hx _ Hsh _]. cbn in *.
  assert (Hbp : (sn_block <$> snaps ++ [p; sn]) !! length snaps = Some (sn_block p))
    by (by rewrite list_lookup_fmap, Hp).
  assert (Hbs : (sn_block <$> snaps ++ [p; sn]) !! S (length snaps) = Some (sn_block sn))
    by (by rewrite list_lookup_fmap, Hs).
  rewrite length_fmap, length_app in Hsh. cbn in Hsh.
  split; [by apply Hsn|]. split; [by apply Hsn|]. do 3 (split; [done|]). split; [by apply Hn|].
  split; [by apply Hn|]. split; [by eapply Hx|]. split; [by eapply Hlk|]. lia.
Qed.

(** The checks at the end of a revert pass when the state is the parent's. *)
Lemma check_prev_state_run c db snaps p s k h raw :
  chain_inv c db (snaps ++ [p]) s k h → prev_account raw = post_account (block_raw (sn_block p)) →
  check_prev_state raw db = (Ok tt, db).
Proof.
  intros Hi Hprev. unfold check_prev_state.
  rewrite (st_bind_run (open_state _) _ _ _ _ (inv_open _ _ _ _ _ _ _ Hi)).
  destruct (ci_top _ _ _ _ _ _ Hi) as (sn' & Hl & Htip & _ & Htop). rewrite last_snoc in Hl.
  injection Hl as <-.
  assert (Hs : snap_ok db h (length snaps) p).
  { apply (ci_snaps _ _ _ _ _ _ Hi). by rewrite list_lookup_middle. }
  rewrite (st_lift_run _ _ _ (smt_root (sd_account_tree db))) by reflexivity.
  erewrite st_bind_run by (apply assert_run, bool_decide_eq_true; rewrite Hprev, (smt_root_ext _ _ Htop);
    apply Hs).
  rewrite (st_lift_run _ _ _ (am_count (post_account (block_raw (ch_tip c))))) by reflexivity.
  erewrite st_bind_run by (apply assert_run, Z.eqb_eq; by rewrite Hprev, <- Htip).
  rewrite (st_lift_run _ _ _ (tree_get (sd_account_tree db) root_key)) by reflexivity.
  apply assert_run. rewrite Htop. by rewrite (so_genesis _ _ _ _ Hs).
Qed.

Lemma revert_block_runs fuel c db base snaps p sn s k h :
  chain_inv c db (snaps ++ [p; sn]) s k h →
  reverted_block_root (sn_global p) = reverted_block_root (sn_global sn) →
  ∃ db' h',
    revert_l1action fuel (mkRevertedL1Action (sn_global p) (SubmitValidBlock (sn_block sn)))
      (c, mkStoreTx base db) =
    (Ok tt, (with_tip (sn_block p) (with_last_global_state (sn_global p)
       (with_challenge_target None (with_last_sync_event EventSuccess c))), mkStoreTx base db')) ∧
    chain_inv (with_tip (sn_block p) (with_last_global_state (sn_global p)
       (with_challenge_target None (with_last_sync_event EventSuccess c)))) db' (snaps ++ [p])
       (min s (length snaps)) (min k (length snaps)) h'.
Proof.
  intros Hi Hrr. destruct (last_two _ _ _ _ _ _ _ _ Hi) as
    (Hp & Hs & Htip & Hgl & Htop & Hnp & Hns & Hpar & Hprev & Hroom).
  pose proof (ci_holds _ _ _ _ _ _ Hi) as Hh.
  (* the store *)
  pose proof Hh as Hh0. rewrite fmap_app in Hh0. cbn [fmap list_fmap] in Hh0.
  change ([sn_block p; sn_block sn]) with ([sn_block p] ++ [sn_block sn]) in Hh0. rewrite app_assoc in Hh0.
  destruct (holds_detach (E:=ChainError) _ _ _ _ _ Hh0) as (db1 & E1 & Hh1).
  { by destruct (sn_block <$> snaps). }
  rewrite length_app, length_fmap in Hh1. cbn [length] in Hh1.
  replace (pred (length snaps + 1)) with (length snaps) in Hh1 by lia.
  pose proof (detach_keeps_side _ _ _ _ E1) as F1.
  (* the accounts *)
  destruct (detach_history (sd_account_history db) h (sd_account_tree db) (sn_tree p)
    (Z.of_nat (S (length snaps))) (am_count (post_account (block_raw (sn_block p)))))
    as (hs & E2 & Hread & Hok).
  { unfold in_width. lia. }
  { lia. }
  { apply Hi. }
  { apply (consistent_ext (sn_tree sn)); [exact Htop|apply Hs]. }
  { replace (Z.of_nat (S (length snaps)) - 1) with (Z.of_nat (length snaps)) by lia. apply Hp. }
  { intros key Hk. rewrite Htop, (so_keys _ _ _ _ Hs), (so_keys _ _ _ _ Hp) by done. done. }
  set (db2 := with_account (hs_tree hs) (hs_db hs) db1).
  assert (Hh2 : holds db2 (mkLedger (sn_block <$> snaps ++ [p]) (min s (length snaps)) (min k (length snaps)))).
  { rewrite fmap_app. by apply holds_with_account. }
  assert (Hinv : chain_inv (with_tip (sn_block p) (with_last_global_state (sn_global p)
    (with_challenge_target None (with_last_sync_event EventSuccess c)))) db2 (snaps ++ [p])
    (min s (length snaps)) (min k (length snaps)) (filter (λ x, x.1.1 ≠ Z.of_nat (S (length snaps))) h)).
  { apply (shrink_inv c db db2 snaps p sn s k h hs); try done. apply (fr_columns _ _ _ F1). }
  exists db2, (filter (λ x, x.1.1 ≠ Z.of_nat (S (length snaps))) h). split; [|exact Hinv].
  assert (Hdet : detach_state (block_number (sn_block sn)) db1 = (Ok tt, db2)).
  { unfold detach_state. rewrite (open_run _ _ _ (sn_block p) Hh1) by apply last_snoc.
    unfold opened. cbn [db_state]. by rewrite (fr_tree _ _ _ F1), (fr_history _ _ _ F1), Hns, E2. }
  destruct (read_tips (E:=ChainError) db2 _ Hh2) as (b & Hlb & Etip & Evalid). cbn [lg_blocks] in Hlb.
  rewrite fmap_last, last_snoc in Hlb. injection Hlb as <-.
  assert (Hrun : revert_valid_block fuel (sn_global p) (sn_block sn) (c, mkStoreTx base db)
                 = (Ok tt, (c, mkStoreTx base db2))).
  { unfold revert_valid_block.
    rewrite (st_bind_run (chain_gets _) _ _ _ _ eq_refl). cbn [fst]. rewrite (ci_target _ _ _ _ _ _ Hi).
    rewrite (st_bind_run _ _ _ _ _ (assert_run _ _ (bool_decide_eq_true_2 _ eq_refl))).
    rewrite (st_bind_run (chain_gets _) _ _ _ _ eq_refl). cbn [fst].
    erewrite st_bind_run by (apply on_db_run, get_hash_run; rewrite (ho_valid _ _ Hh0); cbn;
      by rewrite last_snoc).
    rewrite <- Htip.
    rewrite (st_bind_run _ _ _ _ _ (assert_run _ _ (bool_decide_eq_true_2 _ eq_refl))).
    rewrite (st_bind_run _ _ _ _ _ (assert_run _ _ (bool_decide_eq_true_2 _ eq_refl))).
    rewrite (st_bind_run (chain_gets _) _ _ _ _ eq_refl). cbn [fst].
    erewrite st_bind_run by (apply on_db_run; unfold st_unwrap, get_block_post_global_state, get_as,
      mbind, ST_bind; by rewrite (so_global _ _ _ _ Hs)).
    rewrite (st_bind_run _ _ _ _ _ (assert_run _ _ (bool_decide_eq_true_2 _ (eq_sym Hgl)))).
    rewrite (st_bind_run _ _ _ _ _ (on_db_run _ _ _ _ _ _ E1)).
    rewrite (st_bind_run _ _ _ _ _ (on_db_run _ _ _ _ _ _ Hdet)).
    rewrite (st_bind_run _ _ _ _ _ (on_db_run _ _ _ _ _ _ Etip)).
    rewrite (st_bind_run _ _ _ _ _ (on_db_run _ _ _ _ _ _ Evalid)).
    rewrite (st_bind_run _ _ _ _ _ (assert_run _ _ (bool_decide_eq_true_2 _ eq_refl))).
    rewrite (st_bind_run _ _ _ _ _ (assert_run _ _ (bool_decide_eq_true_2 _ Hpar))).
    rewrite (st_bind_run (assert_true _) _ _ tt _) by (apply assert_run, Z.eqb_eq; unfold saturating_sub; lia).
    rewrite bool_decide_true by (by rewrite <- Hgl, Hrr).
    rewrite (st_bind_run (mret tt) _ _ _ _ eq_refl).
    apply on_db_run. eapply check_prev_state_run; [exact Hinv|done]. }
  unfold revert_l1action. cbn [ra_context ra_prev_global_state].
  rewrite (st_bind_run _ _ _ _ _ Hrun).
  do 3 rewrite (st_bind_run (chain_modify _) _ _ _ _ eq_refl).
  rewrite (st_bind_run _ _ _ _ _ (on_db_run _ _ _ _ _ _ Etip)). done.
Qed.

Lemma update_local_extends c db base snaps s k h b ds scripts ws gs c' tx' :
  chain_inv c db snaps s k h → fresh_block c snaps b →
  update_local (Mac:=Mac) b ds scripts ws gs (c, mkStoreTx base db) = (Ok tt, (c', tx')) →
  h256_is_zero (tree_get (sd_account_tree (tx_db tx')) root_key) = false →
  tx_base tx' = base ∧ c' = with_last_global_state gs (with_tip b c) ∧
  reverted_block_root gs = reverted_block_root (ch_last_global_state c) ∧
  ∃ h', chain_inv c' (tx_db tx') (snaps ++ [mkSnap b (sd_account_tree (tx_db tx')) gs]) s k h'.
Proof.
  intros Hi Hf Hrun Hz. unfold update_local in Hrun.
  apply st_bind_Ok in Hrun as (tip & x1 & [-> ->]%chain_gets_Ok & Hrun).
  apply st_bind_Ok in Hrun as (u & x2 & [_ <-]%lift_Ok & Hrun).
  apply st_bind_Ok in Hrun as (r & x3 & (db1 & Er & ->)%on_db_Ok & Hrun). cbn [tx_db tx_base] in *.
  unfold get_reverted_block_smt_root in Er. rewrite (get_hash_run _ _ _ (ci_reverted _ _ _ _ _ _ Hi)) in Er.
  injection Er as <- <-.
  apply st_bind_Ok in Hrun as (u' & x4 & [Hrr ->]%assert_true_Ok & Hrun).
  apply bool_decide_eq_true in Hrr. symmetry in Hrr.
  apply st_bind_Ok in Hrun as (o & x5 & Hp & Hrun).
  destruct o as [t|]; [by apply lift_Ok in Hrun as [? _]|]. apply ret_Ok in Hrun as [_ ->].
  destruct (process_block_extends _ _ _ _ _ _ _ _ _ _ _ _ _ _ Hi Hf Hrr Hp Hz) as (Hb & Hc & Hh').
  done.
Qed.

Lemma check_accounts_run c db base snaps s k h :
  chain_inv c db snaps s k h →
  check_accounts (c, mkStoreTx base db) = (Ok tt, (c, mkStoreTx base db)).
Proof.
  intros Hi. destruct (ci_top _ _ _ _ _ _ Hi) as (sn & Hl & Htip & _ & Htop).
  assert (Hr : smt_root (sd_account_tree db) = am_merkle_root (post_account (block_raw (ch_tip c)))).
  { rewrite (smt_root_ext _ _ Htop), <- Htip. rewrite last_lookup in Hl.
    apply (ci_snaps _ _ _ _ _ _ Hi _ _ Hl). }
  unfold check_accounts. rewrite (st_bind_run (chain_gets _) _ _ _ _ eq_refl). cbn [fst].
  rewrite (ci_target _ _ _ _ _ _ Hi).
  rewrite (st_bind_run (chain_gets _) _ _ _ _ eq_refl). cbn [fst].
  rewrite (st_bind_run (mret _) _ _ _ _ eq_refl).
  erewrite (st_bind_run (on_db _)) by (by apply on_db_run).
  rewrite (st_bind_run _ _ _ _ _ (assert_run _ _ (bool_decide_eq_true_2 _ Hr))).
  rewrite (st_bind_run _ _ _ _ _ (on_db_run _ _ _ _ _ _ (inv_open _ _ _ _ _ _ _ Hi))).
  rewrite (st_lift_run _ _ _ (mkAccountMerkleState (smt_root (sd_account_tree db))
    (am_count (post_account (block_raw (ch_tip c)))))) by reflexivity.
  apply assert_run, bool_decide_eq_true. rewrite Hr. generalize (post_account (block_raw (ch_tip c))).
  by intros [].
Qed.

(** The lists of bytes the model uses for [H256] stay of 32 bytes: whatever the
    outcome of applying a block on a state opened to attach block [n] (accepted,
    refused at any point, or a panic), every key of the account tree whose value
    changed has 32 bytes and so has its new value, the same holds of what waits in
    the journal, and the history stays one of 32-byte keys and values in which
    only entries of block [n] are new. *)
Theorem apply_block_writes_words `{ChainView} (g : Generator) (args : ApplyBlockArgs)
    (skipped : list H256) (tip : L2Block) (db : StoreDb) (h : hist) (n : Z) :
  hist_ok (sd_account_history db) h → u64 n → (∀ key, h !! (n, key) = None) →
  let st := (apply_block (Mac:=Mac) g args skipped (opened tip db (RWConfig_attach_block n))).2 in
  (∀ key, tree_get (hs_tree (db_state st)) key ≠ tree_get (sd_account_tree db) key →
     length key = 32%nat ∧ length (tree_get (hs_tree (db_state st)) key) = 32%nat) ∧
  (∀ key v, dirty_state (db_dirty st) !! key = Some v → length key = 32%nat ∧ length v = 32%nat) ∧
  ∃ h', hist_ok (hs_db (db_state st)) h' ∧ ∀ b key, b ≠ n → h' !! (b, key) = h !! (b, key).
Proof.
  intros Hh Hn Hnew st.
  destruct (kept_apply_block (Mac:=Mac) _ (applying_kept n Hn (sd_account_tree db) h) g args skipped _
              (applying_opened tip db h n Hh Hnew)) as ([h' [Hh' Ho Ht _]] & Hd & _).
  fold st in Hh', Ht, Hd. split; [|split].
  - intros key. rewrite Ht. destruct (h' !! (n, key)) as [v|] eqn:Ev; [|done]. intros _.
    by destruct (ho_range _ _ Hh' _ _ _ Ev) as (_ & ? & ?).
  - intros key v Hv. destruct (Hd _ _ Hv). split; by apply word_32.
  - by exists h'.
Qed.

(** C7. Blocks the node stores keep its books right: when update_local accepts a
    block that is not on the list of invalid blocks to skip (for those the generator
    skips the checks of the roots), whose hashes are new and not zero
    ([fresh_block]) and which leaves account zero
    registered, the store holds the ledger with the block appended, the history of
    the account tree reads back the accounts after every block up to the new one, the
    accounts have the root the new header commits to, and the check at the end of
    sync passes. *)
Theorem update_local_keeps_books (c c' : Chain) (db base : StoreDb) (snaps : list Snap) (s k : nat)
    (h : hist) (b : L2Block) (ds : list DepositInfo) (scripts : list Script)
    (ws : list WithdrawalRequestExtra) (gs : GlobalState) (tx' : StoreTx) :
  chain_inv c db snaps s k h → fresh_block c snaps b →
  update_local (Mac:=Mac) b ds scripts ws gs (c, mkStoreTx base db) = (Ok tt, (c', tx')) →
  h256_is_zero (tree_get (sd_account_tree (tx_db tx')) root_key) = false →
  (∃ h', chain_inv c' (tx_db tx') (snaps ++ [mkSnap b (sd_account_tree (tx_db tx')) gs]) s k h') ∧
  smt_root (sd_account_tree (tx_db tx')) = am_merkle_root (post_account (block_raw b)) ∧
  check_accounts (c', tx') = (Ok tt, (c', tx')).
Proof.
  intros Hi Hf Hrun Hz.
  destruct (update_local_extends _ _ _ _ _ _ _ _ _ _ _ _ _ _ Hi Hf Hrun Hz) as (Hb & -> & _ & h' & Hi').
  split; [by exists h'|]. split.
  - apply (so_root _ _ _ _ (ci_snaps _ _ _ _ _ _ Hi' (length snaps) _ (list_lookup_middle _ _ _ _ eq_refl))).
  - destruct tx' as [base' db']. cbn in *. eapply check_accounts_run, Hi'.
Qed.

(** C8. A layer-1 fork can take back a block: after update_local stored a block
    with new hashes, not on the skip list ([fresh_block]), that leaves account zero registered,
    reverting it succeeds (none of the assertions on the way fails), and the chain has
    its former tip and global state, the store its former ledger, and every account
    key its former value. *)
Theorem revert_undoes_update_local (fuel : nat) (c c1 : Chain) (db base : StoreDb) (snaps : list Snap)
    (s k : nat) (h : hist) (b : L2Block) (ds : list DepositInfo) (scripts : list Script)
    (ws : list WithdrawalRequestExtra) (gs : GlobalState) (tx1 : StoreTx) :
  chain_inv c db snaps s k h → fresh_block c snaps b →
  update_local (Mac:=Mac) b ds scripts ws gs (c, mkStoreTx base db) = (Ok tt, (c1, tx1)) →
  h256_is_zero (tree_get (sd_account_tree (tx_db tx1)) root_key) = false →
  ∃ c2 db2 h2,
    revert_l1action fuel (mkRevertedL1Action (ch_last_global_state c) (SubmitValidBlock b)) (c1, tx1)
      = (Ok tt, (c2, mkStoreTx base db2)) ∧
    chain_inv c2 db2 snaps s k h2 ∧ ch_tip c2 = ch_tip c ∧
    ch_last_global_state c2 = ch_last_global_state c ∧
    ∀ key, tree_get (sd_account_tree db2) key = tree_get (sd_account_tree db) key.
Proof.
  intros Hi Hf Hrun Hz.
  destruct (update_local_extends _ _ _ _ _ _ _ _ _ _ _ _ _ _ Hi Hf Hrun Hz) as (Hb & -> & Hrr & h' & Hi').
  destruct (ci_top _ _ _ _ _ _ Hi) as (p & Hl & Htip & Hgl & Htop).
  apply last_Some in Hl as (snaps0 & ->). rewrite <- app_assoc in Hi'. cbn [app] in Hi'.
  destruct tx1 as [base' db1]. cbn [tx_db tx_base] in *. subst base'.
  destruct (revert_block_runs fuel _ _ base _ _ _ _ _ _ Hi') as (db2 & h2 & E & Hi2);
    [by rewrite Hgl|].
  cbn [sn_block sn_global] in E. rewrite Hgl in E. rewrite Hgl in Hi2.
  eexists _, db2, h2. split; [exact E|].
  pose proof (lo_positions _ (ho_ok _ _ (ci_holds _ _ _ _ _ _ Hi))) as Hp. cbn in Hp.
  rewrite length_fmap, length_app in Hp. cbn in Hp.
  rewrite !Nat.min_l in Hi2 by lia. split; [done|]. cbn. split; [done|]. split; [done|].
  intros key. destruct (ci_top _ _ _ _ _ _ Hi2) as (p' & Hl' & _ & _ & Htop'). rewrite last_snoc in Hl'.
  injection Hl' as <-. by rewrite Htop', Htop.
Qed.
End ChainInv.
