(* ===== verification/BlockRecords.v ===== *)
(** * The records kept per block number

    The store keeps, by block number, the transaction that submits a block and the
    deposits it takes.  The operations of the chain change these records only for
    the block they add or take back: a predicate on the columns that does not
    depend on the other columns, and is kept by the writes for block [n], is kept
    by [update_local] of block [n] and by its [revert_l1action]. *)
From Stdlib Require Import ZArith Lia Strings.Byte.
From stdpp Require Import prelude list gmap.
From S2P Require Import Prelude Bytes Types State StateSpec StateDB History Finality Ckb Eip712.
From S2P Require Import SubmitBlock RollupScript ChallengeLock NodeUtils NodeState AccountLocks Backends Syscalls Generator GeneratorProps BlockEffect Verifiers Store StoreProps LocalCells ChallengeContext Chain ChainProps.
Local Open Scope Z_scope.

Definition recorded (c : Z) : Prop :=
  c = COLUMN_BLOCK_SUBMIT_TX ∨ c = COLUMN_BLOCK_SUBMIT_TX_HASH ∨ c = COLUMN_BLOCK_DEPOSIT_INFO_VEC.

Lemma kept_assoc {S E A B C} (P : S → Prop) (m : ST S E A) (m' : ST S E B) (m'' : ST S E C) :
  kept P (m ;; m') → kept P m'' → kept P (m ;; m' ;; m'').
Proof.
  intros Hm Hm'' s Hs. specialize (Hm s Hs). revert Hm. unfold mbind, ST_bind.
  destruct (m s) as [[a|e|] s1]; try done. destruct (m' s1) as [[b|e|] s2]; try done. apply Hm''.
Qed.

(** ** What an operation leaves alone *)
Section Records.
Context {Mac : Type} `{Machine Mac}.
Context `{Blake2b, Molecule, ContractArgs, SubstrateBn, SyscallCodec, MapIter, HashCodec, SmtRoot}.
Context `{SmtProof, CbmtBuild, RocksIter, MemPool}.
Context (n : Z) (P : StoreDb → Prop).

(** A predicate on the records *)
Record on_records : Prop := {
  or_insert E c k v : ¬ recorded c → c ≠ COLUMN_WITHDRAWAL → kept P (insert_raw (E:=E) c k v);
  or_delete E c k : ¬ recorded c → c ≠ COLUMN_WITHDRAWAL → kept P (delete_raw (E:=E) c k);
  or_withdrawal E k w : kept P (insert_raw (E:=E) COLUMN_WITHDRAWAL k (EWithdrawal w));
  or_same db db' : sd_columns db' = sd_columns db → P db → P db';
  or_deposits E ds : kept P (set_block_deposit_info_vec (E:=E) n ds);
  or_detached E : kept P (delete_submit_tx (E:=E) n ;; delete_block_deposit_info_vec n);
}.
Context (HP : on_records).

Lemma kept_insert {E} c k v :
  ¬ recorded c → c ≠ COLUMN_WITHDRAWAL → kept P (insert_raw (E:=E) c k v).
Proof. apply (or_insert HP). Qed.
Lemma kept_delete {E} c k : ¬ recorded c → c ≠ COLUMN_WITHDRAWAL → kept P (delete_raw (E:=E) c k).
Proof. apply (or_delete HP). Qed.
Lemma kept_get {E A} (f : Entity → option A) c k : kept P (get_as (E:=E) f c k).
Proof. by intros db. Qed.
Lemma kept_unwrap {E A} (m : ST StoreDb E (option A)) : kept P m → kept P (st_unwrap m).
Proof. intros Hm. apply kept_bind; [done|intros; apply kept_lift]. Qed.
Lemma kept_enumerate {E A} (l : list A) (f : Z → A → ST StoreDb E unit) :
  (∀ i a, kept P (f i a)) → kept P (st_enumerate l f).
Proof. intros Hf. apply kept_for. intros [i a]. apply Hf. Qed.
Lemma kept_block_leaves {E} f : kept P (modify (E:=E) (λ db, with_block_leaves (f db) db)).
Proof. apply kept_modify. intros db. by apply (or_same HP). Qed.
Lemma kept_reverted_leaves {E} f : kept P (modify (E:=E) (λ db, with_reverted_leaves (f db) db)).
Proof. apply kept_modify. intros db. by apply (or_same HP). Qed.

End Records.

Ltac not_recorded := let Hc := fresh in intros [Hc|[Hc|Hc]]; discriminate Hc.
Ltac records HP :=
  repeat first
    [ apply kept_bind; [|intros] | apply (kept_insert _ _ HP); [not_recorded|discriminate]
    | apply (or_withdrawal _ _ HP)
    | apply (kept_delete _ _ HP); [not_recorded|discriminate]
    | apply (kept_get _) | apply (kept_unwrap _)
    | apply (kept_block_leaves _ _ HP) | apply (kept_reverted_leaves _ _ HP)
    | apply (kept_enumerate _); intros | apply kept_for; intros | apply kept_lift | apply kept_gets
    | apply kept_ret | apply kept_if | apply kept_map_err | progress cbv zeta | case_match ].

Section RecordOps.
Context {Mac : Type} `{Machine Mac}.
Context `{Blake2b, Molecule, ContractArgs, SubstrateBn, SyscallCodec, MapIter, HashCodec, SmtRoot}.
Context `{SmtProof, CbmtBuild, RocksIter, MemPool}.
Context (n : Z) (P : StoreDb → Prop) (HP : on_records n P).

Lemma records_attach {E} b : kept P (attach_block (E:=E) b).
Proof. unfold attach_block, update_block_smt. records HP. Qed.
Lemma records_assets {E} l : kept P (insert_asset_scripts (E:=E) l).
Proof. unfold insert_asset_scripts. records HP. Qed.
Lemma records_insert_block b gs pst rs ds ws :
  block_number b = n → kept P (insert_block b gs pst rs ds ws).
Proof.
  intros Hn. unfold insert_block. do 2 (apply kept_bind; [records HP|intros]).
  rewrite Hn. apply kept_bind; [apply (or_deposits _ _ HP)|intros]. records HP.
Qed.
Lemma records_detach {E} b : block_number b = n → kept P (detach_block (E:=E) b).
Proof.
  intros Hn. unfold detach_block, update_block_smt, step_back.
  do 13 (apply kept_bind; [records HP|intros]; cbv zeta).
  rewrite Hn. apply kept_assoc; [apply (or_detached _ _ HP)|].
  unfold delete_block_post_finalized_custodian_capacity. records HP.
Qed.
Lemma records_open {E} rw : kept P (open_state (E:=E) rw).
Proof. unfold open_state, get_last_valid_tip_block. records HP. Qed.
Lemma records_apply view g args skipped : kept P (apply_on_store (Mac:=Mac) view g args skipped).
Proof.
  intros db Hdb. unfold apply_on_store. pose proof (records_open (E:=ChainError)
    (RWConfig_attach_block (number (block_raw (aa_l2block args)))) db Hdb) as Ho.
  destruct (open_state _ db) as [[st|e|] db1]; cbn in Ho |- *; try done.
  destruct (verify_and_apply_block _ _ _ _) as [r st']. cbn. by apply (or_same _ _ HP db1).
Qed.
Lemma records_detach_state m : kept P (detach_state m).
Proof.
  intros db Hdb. unfold detach_state.
  pose proof (records_open (E:=ChainError) RWConfig_detach_block db Hdb) as Ho.
  destruct (open_state _ db) as [[st|e|] db1]; cbn in Ho |- *; try done.
  destruct (detach_block_state _ _) as [r s]. cbn. by apply (or_same _ _ HP db1).
Qed.
Lemma records_rewind fuel target genesis current : kept P (rewind_reverted fuel target genesis current).
Proof.
  revert current. induction fuel as [|fuel IH]; intros current; cbn [rewind_reverted];
    unfold rewind_reverted_block_smt, update_reverted_block_smt, get_reverted_block_hashes_by_root.
  - records HP.
  - apply kept_if; [records HP|]. apply kept_if; [records HP|].
    do 3 (apply kept_bind; [records HP|intros]). apply IH.
Qed.

(** *** On the chain *)
Definition in_tx (x : Chain * StoreTx) : Prop := P (tx_db x.2).
Lemma kept_on_db {A} (m : ST StoreDb ChainError A) : kept P m → kept in_tx (on_db m).
Proof.
  intros Hm [c tx] Hx. unfold on_db, in_tx in *. cbn in Hx. specialize (Hm (tx_db tx) Hx).
  by destruct (m (tx_db tx)).
Qed.
Lemma kept_chain_modify f : kept in_tx (chain_modify f).
Proof. by intros [c tx]. Qed.
End RecordOps.

Ltac chain_records :=
  repeat (lazymatch goal with |- kept (in_tx _) _ => idtac end;
    first
    [ apply kept_on_db | apply kept_chain_modify | apply kept_lift | apply kept_gets | apply kept_ret
    | apply kept_if | apply kept_bind; [|intros] | progress cbv zeta ]).

Section RecordChain.
Context {Mac : Type} `{Machine Mac}.
Context `{Blake2b, Molecule, ContractArgs, SubstrateBn, SyscallCodec, MapIter, HashCodec, SmtRoot}.
Context `{SmtProof, CbmtBuild, RocksIter, MemPool}.
Context (n : Z) (P : StoreDb → Prop) (HP : on_records n P).

Lemma records_process_block b gs ds scripts ws :
  block_number b = n → kept (in_tx P) (process_block (Mac:=Mac) b gs ds scripts ws).
Proof.
  intros Hn. unfold process_block, assert_true, chain_gets. chain_records.
  - apply records_open.
  - apply (records_apply _ _ HP).
  - match goal with r : ApplyBlockResult |- _ => destruct r as [r|t e|e] end;
      [|apply kept_ret|apply kept_lift]. chain_records.
    + by apply kept_map_err, (records_insert_block _ _ HP).
    + apply (records_assets _ _ HP).
    + apply (records_attach _ _ HP).
Qed.
Lemma records_update_local b ds scripts ws gs :
  block_number b = n → kept (in_tx P) (update_local (Mac:=Mac) b ds scripts ws gs).
Proof.
  intros Hn. unfold update_local, assert_true, chain_gets.
  do 4 (apply kept_bind; [chain_records; records HP|intros]).
  apply kept_bind; [by apply records_process_block|]. intros [t|]; [apply kept_lift|apply kept_ret].
Qed.
Lemma records_revert fuel prev b :
  block_number b = n → kept (in_tx P) (revert_l1action fuel (mkRevertedL1Action prev (SubmitValidBlock b))).
Proof.
  intros Hn. unfold revert_l1action, revert_valid_block, assert_true, chain_gets. cbn [ra_context].
  chain_records.
  - records HP.
  - records HP.
  - by apply (records_detach _ _ HP).
  - apply (records_detach_state _ _ HP).
  - unfold get_tip_block. records HP.
  - unfold get_last_valid_tip_block. records HP.
  - unfold genesis_reverted_root. records HP.
  - case_match. chain_records. apply (records_rewind _ _ HP).
  - unfold check_prev_state. apply kept_bind; [apply records_open|intros]. unfold assert_true. records HP.
  - unfold get_tip_block. records HP.
Qed.
End RecordChain.

(** ** The records themselves *)
Section Instances.
Context `{Blake2b, HashCodec}.

(** The records are of their types; every stored submission is small, and its hash
    is stored beside it. *)
Record records_ok (db : StoreDb) : Prop := {
  ro_submission k e : sd_columns db !! (COLUMN_BLOCK_SUBMIT_TX, k) = Some e →
    ∃ tx, e = EL1Transaction tx ∧ few_outputs tx ∧
      sd_columns db !! (COLUMN_BLOCK_SUBMIT_TX_HASH, k) = Some (EBytes (l1_hash tx));
  ro_deposits k e : sd_columns db !! (COLUMN_BLOCK_DEPOSIT_INFO_VEC, k) = Some e →
    ∃ ds, e = EDeposits ds;
  ro_withdrawal k e : sd_columns db !! (COLUMN_WITHDRAWAL, k) = Some e → ∃ w, e = EWithdrawal w;
}.
(** The records of the other blocks are those of [db0]. *)
Definition others_kept (n : Z) (db0 db : StoreDb) : Prop :=
  ∀ c k, recorded c → k ≠ be_bytes 8 n → sd_columns db !! (c, k) = sd_columns db0 !! (c, k).

Lemma others_kept_records n db0 : on_records n (others_kept n db0).
Proof.
  split.
  - intros E c k v Hc _ db Hdb c' k' Hc' Hk. cbn. rewrite lookup_insert_ne; [by apply Hdb|by intros [= -> ->]].
  - intros E c k Hc _ db Hdb c' k' Hc' Hk. cbn. rewrite lookup_delete_ne; [by apply Hdb|by intros [= -> ->]].
  - intros E k w db Hdb c' k' Hc' Hk. cbn. rewrite lookup_insert_ne; [by apply Hdb|].
    by intros [= <- _]; destruct Hc' as [|[|]].
  - intros db db' Es Hdb c k. unfold others_kept in Hdb. rewrite Es. apply Hdb.
  - intros E ds db Hdb c k Hc Hk. cbn. rewrite lookup_insert_ne; [by apply Hdb|by intros [= _ <-]].
  - intros E db Hdb c k Hc Hk. cbv [mbind ST_bind delete_submit_tx delete_block_deposit_info_vec]. cbn.
    rewrite !lookup_delete_ne by (by intros [= _ <-]). by apply Hdb.
Qed.

(** A write elsewhere *)
Lemma records_ok_other db db' :
  (∀ c k, recorded c ∨ c = COLUMN_WITHDRAWAL → sd_columns db' !! (c, k) = sd_columns db !! (c, k)) →
  records_ok db → records_ok db'.
Proof.
  unfold recorded. intros Hs [H1' H2' H3']. split; intros k e; rewrite !Hs by auto;
    [apply H1'|apply H2'|apply H3'].
Qed.
Lemma records_ok_records n : on_records n records_ok.
Proof.
  split.
  - intros E c k v Hc Hw db. apply records_ok_other. intros c' k' Hc'. cbn.
    rewrite lookup_insert_ne; [done|]. intros [= -> _]. by destruct Hc'.
  - intros E c k Hc Hw db. apply records_ok_other. intros c' k' Hc'. cbn.
    rewrite lookup_delete_ne; [done|]. intros [= -> _]. by destruct Hc'.
  - intros E k w db [H1' H2' H3']. split; intros k' e; cbn.
    1: rewrite !lookup_insert_ne by (by intros [= ]); apply H1'.
    1: rewrite lookup_insert_ne by (by intros [= ]); apply H2'.
    destruct (decide (k' = k)) as [->|Hk]; [rewrite lookup_insert_eq; intros [= <-]; eauto|].
    rewrite lookup_insert_ne by (by intros [= <-]). apply H3'.
  - intros db db' Es. apply records_ok_other. intros c k _. by rewrite Es.
  - intros E ds db [H1' H2' H3']. split; intros k e; cbn.
    1: rewrite !lookup_insert_ne by (by intros [= ]); apply H1'.
    2: rewrite lookup_insert_ne by (by intros [= ]); apply H3'.
    destruct (decide (k = be_bytes 8 n)) as [->|Hk]; [rewrite lookup_insert_eq; intros [= <-]; eauto|].
    rewrite lookup_insert_ne by (by intros [= <-]). apply H2'.
  - intros E db [H1' H2' H3']. cbv [mbind ST_bind delete_submit_tx delete_block_deposit_info_vec].
    split; intros k e; cbn.
    + rewrite !(lookup_delete_ne _ (COLUMN_BLOCK_DEPOSIT_INFO_VEC, _)) by solve_key.
      rewrite (lookup_delete_ne _ (COLUMN_BLOCK_SUBMIT_TX_HASH, _) (COLUMN_BLOCK_SUBMIT_TX, _)) by solve_key.
      destruct (decide (k = be_bytes 8 n)) as [->|Hk]; [by rewrite lookup_delete_eq|].
      rewrite !lookup_delete_ne by (by intros [= <-]). apply H1'.
    + destruct (decide (k = be_bytes 8 n)) as [->|Hk]; [by rewrite lookup_delete_eq|].
      rewrite !lookup_delete_ne by (by intros [= ]; subst). apply H2'.
    + rewrite !lookup_delete_ne by solve_key. apply H3'.
Qed.

Definition deposits_of (n : Z) (ds : list DepositInfo) (db : StoreDb) : Prop :=
  sd_columns db !! (COLUMN_BLOCK_DEPOSIT_INFO_VEC, be_bytes 8 n) = Some (EDeposits ds).
End Instances.

(** ** What a new block adds, and what a failed one leaves *)
(** A run that returns has made [Q] true. *)
Definition post {S E A} (m : ST S E A) (Q : A → S → Prop) : Prop :=
  ∀ x a x', m x = (Ok a, x') → Q a x'.
Lemma post_bind {S E A B} (m : ST S E A) (f : A → ST S E B) Q :
  (∀ a, post (f a) Q) → post (m ≫= f) Q.
Proof. intros Hf x b x' (a & x1 & _ & E2)%st_bind_Ok. by apply (Hf a x1). Qed.
Lemma post_first {S E A B} (m : ST S E A) (f : A → ST S E B) (P : S → Prop) :
  post m (λ _, P) → (∀ a, kept P (f a)) → post (m ≫= f) (λ _, P).
Proof.
  intros Hm Hf x b x' (a & x1 & E1 & E2)%st_bind_Ok. specialize (Hf a x1 (Hm _ _ _ E1)).
  by rewrite E2 in Hf.
Qed.

Section NewBlock.
Context {Mac : Type} `{Machine Mac}.
Context `{Blake2b, Molecule, ContractArgs, SubstrateBn, SyscallCodec, MapIter, HashCodec, SmtRoot}.
Context `{SmtProof, CbmtBuild, RocksIter, MemPool}.

Lemma deposits_of_insert n ds {E} c k v :
  c ≠ COLUMN_BLOCK_DEPOSIT_INFO_VEC → kept (deposits_of n ds) (insert_raw (E:=E) c k v).
Proof. intros Hc db Hdb. unfold deposits_of in *. cbn. rewrite lookup_insert_ne; [done|congruence]. Qed.
Lemma deposits_of_leaves n ds {E} f :
  kept (deposits_of n ds) (modify (E:=E) (λ db, with_block_leaves (f db) db)).
Proof. by intros db. Qed.

Local Ltac deposit :=
  repeat first
    [ apply kept_bind; [|intros] | apply deposits_of_insert; discriminate | apply (kept_get _)
    | apply (kept_unwrap _) | apply deposits_of_leaves | apply (kept_enumerate _); intros
    | apply kept_for; intros | apply kept_lift | apply kept_gets | apply kept_ret | case_match ].

Lemma insert_block_deposits b gs pst rs ds ws :
  post (insert_block b gs pst rs ds ws) (λ _, deposits_of (block_number b) ds).
Proof.
  unfold insert_block. do 2 (apply post_bind; intros). apply post_first.
  - intros db u db' [= _ <-]. unfold deposits_of. cbn. by rewrite lookup_insert_eq.
  - intros u. deposit.
Qed.
Lemma process_block_deposits b gs ds scripts ws :
  post (process_block (Mac:=Mac) b gs ds scripts ws)
    (λ o x, o = None → deposits_of (block_number b) ds (tx_db x.2)).
Proof.
  unfold process_block. do 3 (apply post_bind; intros). cbv zeta. do 7 (apply post_bind; intros).
  match goal with r : ApplyBlockResult |- _ => destruct r as [r|t e|e] end.
  - intros x o x' (u & y & Hy & Hrest)%st_bind_Ok _. revert Hrest. generalize o x'. clear o x'.
    assert (Hd : deposits_of (block_number b) ds (tx_db y.2)).
    { destruct x as [c tx]. apply on_db_Ok in Hy as (db & E1 & ->). cbn.
      apply st_map_err_Ok in E1. by apply insert_block_deposits in E1. }
    match goal with |- context [mbind ?f ?m y] => assert (kept (in_tx (deposits_of (block_number b) ds)) (m ≫= f)) as Hk end.
    { chain_records; unfold insert_asset_scripts, attach_block, update_block_smt; deposit. }
    intros o x' E1. specialize (Hk y Hd). by rewrite E1 in Hk.
  - intros x o x' [= <- <-]. done.
  - by intros x o x' [? _]%lift_Ok.
Qed.
Lemma update_local_deposits b ds scripts ws gs :
  post (update_local (Mac:=Mac) b ds scripts ws gs) (λ _ x, deposits_of (block_number b) ds (tx_db x.2)).
Proof.
  unfold update_local. do 4 (apply post_bind; intros).
  intros x u x' (o & y & Hy & Ho)%st_bind_Ok. destruct o as [t|]; [by apply lift_Ok in Ho as [? _]|].
  apply ret_Ok in Ho as [_ ->]. by apply process_block_deposits in Hy; apply Hy.
Qed.
End NewBlock.

Section Failure.
Context {Mac : Type} `{Machine Mac}.
Context `{Blake2b, Molecule, ContractArgs, SubstrateBn, SyscallCodec, MapIter, HashCodec, SmtRoot}.
Context `{SmtProof, CbmtBuild, RocksIter, MemPool} (c : Chain).
Local Abbreviation same_chain := (λ x : Chain * StoreTx, x.1 = c).

(** A run that does not return [a] leaves the chain as it was. *)
Definition unless {A} (a : A) (m : ST (Chain * StoreTx) ChainError A) : Prop :=
  ∀ x, same_chain x → (m x).1 = Ok a ∨ same_chain (m x).2.
Lemma unless_bind {A B} (b : B) (m : ST (Chain * StoreTx) ChainError A) f :
  kept same_chain m → (∀ a, unless b (f a)) → unless b (m ≫= f).
Proof.
  intros Hm Hf x Hx. specialize (Hm x Hx). unfold mbind, ST_bind.
  destruct (m x) as [[a|e|] x1]; cbn in *; [by apply Hf|by right..].
Qed.
Lemma unless_kept {A} (a : A) (m : ST (Chain * StoreTx) ChainError A) : kept same_chain m → unless a m.
Proof. intros Hm x Hx. right. by apply Hm. Qed.
Lemma same_on_db {A} (m : ST StoreDb ChainError A) : kept same_chain (on_db m).
Proof. intros [c' tx] Hx. unfold on_db. by destruct (m _). Qed.

Local Ltac same :=
  first [ apply same_on_db | apply kept_lift | apply kept_gets | apply kept_ret ].

Lemma process_block_unless b gs ds scripts ws :
  unless None (process_block (Mac:=Mac) b gs ds scripts ws).
Proof.
  unfold process_block, chain_gets, assert_true.
  do 3 (apply unless_bind; [same|intros]). cbv zeta. do 7 (apply unless_bind; [same|intros]).
  match goal with r : ApplyBlockResult |- _ => destruct r as [r|t e|e] end; [|apply unless_kept; same..].
  do 3 (apply unless_bind; [same|intros]). intros x Hx. left. by destruct x.
Qed.
Lemma update_local_unless b ds scripts ws gs :
  unless tt (update_local (Mac:=Mac) b ds scripts ws gs).
Proof.
  unfold update_local, chain_gets, assert_true. do 4 (apply unless_bind; [same|intros]).
  intros x Hx. pose proof (process_block_unless b gs ds scripts ws x Hx) as Hp. unfold mbind, ST_bind.
  destruct (process_block _ _ _ _ _ x) as [[[t|]|e|] x1]; cbn in *; [|by left|..];
    destruct Hp as [Hp|Hp]; (discriminate Hp || by right).
Qed.
End Failure.
