(* ===== verification/SyncL1.v ===== *)
(** * Synchronising with layer 1 (crates/block-producer/src/sync_l1.rs)

    A node that may have missed layer-1 transactions looks for the last of its
    blocks that is on layer 1, follows the transactions after it, and on the
    first one it does not know takes back its own blocks ([revert]) and applies
    layer 1's.

    What layer 1 answers during one attempt is the parameter [L1View]; [sync_l1]
    runs attempts until one succeeds. *)
From Stdlib Require Import ZArith Lia Strings.Byte.
From stdpp Require Import prelude list gmap.
From S2P Require Import Prelude Bytes Types State StateSpec StateDB History Finality Ckb Eip712.
From S2P Require Import SubmitBlock RollupScript ChallengeLock NodeUtils NodeState AccountLocks Backends Syscalls Generator GeneratorProps BlockEffect Verifiers Store StoreProps ChallengeContext Chain ChainUpdater ChainProps BlockRecords.
Local Open Scope Z_scope.

Inductive TxStatus := Pending | Proposed | Committed | Unknown | Rejected.
#[export] Instance TxStatus_eq_dec : EqDecision TxStatus.
Proof. solve_decision. Defined.

(** [get_transaction], [get_transaction_status], [get_transaction_block_number],
    and the pages of [get_transactions] from a layer-1 block on, without the
    empty one at the end; [Err] for a failed call *)
Record L1View := mkL1View {
  lv_transaction : H256 → outcome unit (option L1Transaction);
  lv_status : H256 → outcome unit (option TxStatus);
  lv_block_number : H256 → outcome unit (option Z);
  lv_pages : Z → list (outcome unit (list H256));
}.

Inductive SyncError :=
| SyncRpc
| NoLastConfirmed | NoSubmitTx | NoTransactionBlockNumber | NoParentGlobalState | NoBlockHash
| SyncChain (e : ChainError)
| SyncUpdate (e : UpdateError).

(** [Vec::dedup] *)
Fixpoint dedup (l : list H256) : list H256 :=
  match l with
  | [] => []
  | x :: l' =>
      match dedup l' with
      | y :: r => if bool_decide (x = y) then y :: r else x :: y :: r
      | [] => [x]
      end
  end.

Section SyncL1.
Context {Mac : Type} `{Machine Mac}.
Context `{Blake2b, Molecule, ContractArgs, SubstrateBn, SyscallCodec, MapIter, HashCodec, SmtRoot}.
Context `{SmtProof, CbmtBuild, RocksIter, MemPool}.
Local Abbreviation M := (ST (Chain * StoreTx) SyncError).

Definition chain_op {A} (m : ST (Chain * StoreTx) ChainError A) : M A := st_map_err SyncChain m.
Definition tx_op {A} (m : ST StoreDb ChainError A) : M A := chain_op (on_db m).

(** [revert]: take back the blocks above [revert_to_last_valid] *)
Fixpoint revert_to (fuel : nat) (revert_to_last_valid : Z) : M unit :=
  block ← tx_op get_last_valid_tip_block;
  if block_number block <=? revert_to_last_valid then mret tt
  else
    match fuel with
    | O => lift Panic
    | S fuel =>
        found ← tx_op (get_block_post_global_state (parent_block_hash (block_raw block)));
        prev_global_state ← lift (ok_or NoParentGlobalState found);
        chain_op (revert_l1action fuel
                    (mkRevertedL1Action prev_global_state (SubmitValidBlock block))) ;;
        revert_to fuel revert_to_last_valid
    end.

(** The last known block on layer 1, from [n] down; block 0 is not asked for. *)
Fixpoint find_on_l1 (v : L1View) (fuel : nat) (n : Z) : M Z :=
  found ← tx_op (get_block_submit_tx_hash n);
  tx_hash ← lift (ok_or NoSubmitTx found);
  status ← lift (map_err (λ _, SyncRpc) (lv_status v tx_hash));
  if bool_decide (status = Some Committed) then mret n
  else
    n ← lift (sub_w n 1);
    if n =? 0 then mret n
    else match fuel with O => lift Panic | S fuel => find_on_l1 v fuel n end.

Record SyncState := mkSyncState { sy_last_confirmed : Z; sy_seen : bool; sy_reverted : bool }.

(** [chain_updater.update_single]: transactions of its own on the store *)
Definition follow_single (v : L1View) (u : ChainUpdater) (fuel : nat) (tx_hash : H256) : M unit :=
  λ '(c, tx),
  let '(r, (c, store)) :=
    update_single (Mac:=Mac) (l1 := lv_transaction v) u fuel tx_hash (c, tx_base tx) in
  (map_err SyncUpdate r, (c, mkStoreTx store store)).

(** One transaction of the rollup cell *)
Definition sync_tx (v : L1View) (u : ChainUpdater) (fuel : nat) (last_confirmed_tx_hash : H256)
    (st : SyncState) (tx_hash : H256) : M SyncState :=
  if negb (sy_seen st) then
    mret (mkSyncState (sy_last_confirmed st) (bool_decide (tx_hash = last_confirmed_tx_hash))
            (sy_reverted st))
  else if negb (sy_reverted st) then
    next ← lift (add_w 64 (sy_last_confirmed st) 1);
    known ← tx_op (get_block_submit_tx_hash next);
    if bool_decide (known = Some tx_hash) then mret (mkSyncState next true false)
    else
      revert_to fuel (sy_last_confirmed st) ;;
      chain_op commit_and_begin ;;
      follow_single v u fuel tx_hash ;;
      mret (mkSyncState (sy_last_confirmed st) true true)
  else follow_single v u fuel tx_hash ;; mret st.

Fixpoint st_fold {A B} (f : A → B → M A) (a : A) (l : list B) : M A :=
  match l with [] => mret a | b :: l => a ← f a b; st_fold f a l end.

Definition sync_page (v : L1View) (u : ChainUpdater) (fuel : nat) (last_confirmed_tx_hash : H256)
    (st : SyncState) (page : outcome unit (list H256)) : M SyncState :=
  txs ← lift (map_err (λ _, SyncRpc) page);
  st_fold (sync_tx v u fuel last_confirmed_tx_hash) st (dedup txs).

Definition set_positions (n : Z) : M unit :=
  found ← tx_op (get_block_hash_by_number n);
  block_hash ← lift (ok_or NoBlockHash found);
  tx_op (set_last_confirmed_block_number_hash (mkNumberHash n block_hash)) ;;
  tx_op (set_last_submitted_block_number_hash (mkNumberHash n block_hash)) ;;
  chain_op commit_and_begin.

Definition sync_l1_unknown (v : L1View) (u : ChainUpdater) (fuel : nat) (last_confirmed : Z) : M unit :=
  found ← tx_op (get_block_submit_tx_hash last_confirmed);
  tx_hash ← lift (ok_or NoSubmitTx found);
  found ← lift (map_err (λ _, SyncRpc) (lv_block_number v tx_hash));
  start_l1_block ← lift (ok_or NoTransactionBlockNumber found);
  st ← st_fold (sync_page v u fuel tx_hash) (mkSyncState last_confirmed false false)
         (lv_pages v start_l1_block);
  if negb (sy_reverted st) then set_positions (sy_last_confirmed st) else mret tt.

Definition sync_l1_actions (v : L1View) (u : ChainUpdater) (fuel : nat) : M unit :=
  found ← tx_op get_last_confirmed_block_number_hash;
  last_confirmed_local ← lift (ok_or NoLastConfirmed found);
  last_confirmed_l1 ← find_on_l1 v fuel (nh_number last_confirmed_local);
  sync_l1_unknown v u fuel last_confirmed_l1.

(** What is not committed is lost when the attempt ends. *)
Definition sync_l1_impl (v : L1View) (u : ChainUpdater) (fuel : nat) :
    ST (Chain * StoreDb) SyncError unit :=
  λ '(c, store),
  let '(r, (c, tx)) := sync_l1_actions v u fuel (c, mkStoreTx store store) in (r, (c, tx_base tx)).

(** Attempts until one succeeds; [Ok false] when none of them did *)
Fixpoint sync_l1 (attempts : list L1View) (u : ChainUpdater) (fuel : nat) :
    ST (Chain * StoreDb) SyncError bool :=
  match attempts with
  | [] => mret false
  | v :: attempts => λ s,
      match sync_l1_impl v u fuel s with
      | (Ok _, s) => (Ok true, s)
      | (Err _, s) => sync_l1 attempts u fuel s
      | (Panic, s) => (Panic, s)
      end
  end.
End SyncL1.

(** ** Taking back blocks *)
Section SyncProps.
Context {Mac : Type} `{MachineLaws Mac}.
Context `{Blake2b, Molecule, ContractArgs, SubstrateBn, SyscallCodec, MapIter, HashCodec, SmtRoot}.
Context `{SmtProof, CbmtBuild, RocksIter, MemPool, !Blake2bLength, !SmtRootLaws}.

Lemma chain_op_run {A} (m : ST (Chain * StoreTx) ChainError A) s s' a :
  m s = (Ok a, s') → chain_op m s = (Ok a, s').
Proof. unfold chain_op, st_map_err. by intros ->. Qed.
Lemma tx_op_run {A} (m : ST StoreDb ChainError A) c base db db' a :
  m db = (Ok a, db') → tx_op m (c, mkStoreTx base db) = (Ok a, (c, mkStoreTx base db')).
Proof. intros E. by apply chain_op_run, on_db_run. Qed.

Lemma inv_last_two c db snaps s k h sn :
  chain_inv c db snaps s k h → last snaps = Some sn → (1 < length snaps)%nat →
  ∃ snaps0 p, snaps = snaps0 ++ [p; sn] ∧
    parent_block_hash (block_raw (sn_block sn)) = block_hash (sn_block p).
Proof.
  intros Hi Hl Hlen. apply last_Some in Hl as (snaps1 & ->). rewrite length_app in Hlen. cbn in Hlen.
  destruct snaps1 as [|p snaps0 _] using rev_ind; [cbn in Hlen; lia|].
  exists snaps0, p. split; [by rewrite <- (assoc_L app)|].
  apply (lo_next _ (ho_ok _ _ (ci_holds _ _ _ _ _ _ Hi)) (length snaps0)); cbn [lg_blocks];
    rewrite list_lookup_fmap, <- (assoc_L app); cbn [app].
  - by rewrite list_lookup_middle.
  - rewrite lookup_app_r by lia. by replace (S (length snaps0) - length snaps0)%nat with 1%nat by lia.
Qed.

Lemma inv_tip_run c db snaps s k h :
  chain_inv c db snaps s k h →
  ∃ sn, last snaps = Some sn ∧ block_number (sn_block sn) = Z.of_nat (pred (length snaps)) ∧
    get_last_valid_tip_block (E:=ChainError) db = (Ok (sn_block sn), db).
Proof.
  intros Hi. pose proof (ci_holds _ _ _ _ _ _ Hi) as Hh.
  destruct (ci_top _ _ _ _ _ _ Hi) as (sn & Hl & _). exists sn. split; [done|].
  destruct (read_tips (E:=ChainError) db _ Hh) as (b & Hlb & _ & Ev). cbn [lg_blocks] in Hlb.
  rewrite fmap_last, Hl in Hlb. injection Hlb as <-. split; [|done].
  apply (lo_number _ (ho_ok _ _ Hh)). cbn [lg_blocks]. by rewrite list_lookup_fmap, <- last_lookup, Hl.
Qed.

(** Blocks above [n] can be taken back when none of them changed the set of
    reverted blocks (local blocks never do). *)
Definition same_reverted (snaps : list Snap) (n : nat) : Prop :=
  ∃ r, ∀ i sn, (n ≤ i)%nat → snaps !! i = Some sn → reverted_block_root (sn_global sn) = r.

Lemma revert_to_run fuel n c db base snaps s k h :
  chain_inv c db snaps s k h → (n < length snaps)%nat → same_reverted snaps n →
  (length snaps ≤ fuel + S n)%nat →
  ∃ c' db' h',
    revert_to fuel (Z.of_nat n) (c, mkStoreTx base db) = (Ok tt, (c', mkStoreTx base db')) ∧
    chain_inv c' db' (take (S n) snaps) (min s n) (min k n) h' ∧
    ∀ P, (∀ i, (n < i < length snaps)%nat → on_records (Z.of_nat i) P) → P db → P db'.
Proof.
  revert c db snaps s k h. induction fuel as [|fuel IH]; intros c db snaps s k h Hi Hn Hsame Hfuel;
    destruct (inv_tip_run _ _ _ _ _ _ Hi) as (sn & Hl & Hnum & Etip); cbn [revert_to];
    rewrite (st_bind_run _ _ _ _ _ (tx_op_run _ c base _ _ _ Etip)); rewrite Hnum.
  - rewrite (proj2 (Z.leb_le _ _)) by lia. exists c, db, h. split; [done|].
    pose proof (lo_positions _ (ho_ok _ _ (ci_holds _ _ _ _ _ _ Hi))) as Hp. cbn in Hp.
    rewrite length_fmap in Hp. rewrite take_ge, !Nat.min_l by lia. auto.
  - destruct (Z.leb_spec (Z.of_nat (pred (length snaps))) (Z.of_nat n)) as [Hle|Hgt].
    { exists c, db, h. split; [done|].
      pose proof (lo_positions _ (ho_ok _ _ (ci_holds _ _ _ _ _ _ Hi))) as Hp. cbn in Hp.
      rewrite length_fmap in Hp. rewrite take_ge, !Nat.min_l by lia. auto. }
    destruct (inv_last_two _ _ _ _ _ _ _ Hi Hl ltac:(lia)) as (snaps0 & p & -> & Hpar).
    rewrite length_app in *. cbn [length] in *.
    assert (Hp : (snaps0 ++ [p; sn]) !! length snaps0 = Some p) by (by rewrite list_lookup_middle).
    assert (Hs : (snaps0 ++ [p; sn]) !! S (length snaps0) = Some sn).
    { rewrite lookup_app_r by lia. by replace (S (length snaps0) - length snaps0)%nat with 1%nat by lia. }
    erewrite st_bind_run.
    2: { apply tx_op_run. unfold get_block_post_global_state, get_as. rewrite Hpar.
         by rewrite (so_global _ _ _ _ (ci_snaps _ _ _ _ _ _ Hi _ _ Hp)). }
    rewrite (st_bind_run (lift _) _ _ (sn_global p) _) by done.
    destruct Hsame as [r Hr].
    destruct (revert_block_runs fuel c db base snaps0 p sn s k h Hi) as (db1 & h1 & E1 & Hi1).
    { rewrite (Hr (length snaps0) p), (Hr (S (length snaps0)) sn) by (done || lia). done. }
    rewrite (st_bind_run _ _ _ _ _ (chain_op_run _ _ _ _ E1)).
    destruct (IH _ _ _ _ _ _ Hi1) as (c2 & db2 & h2 & E2 & Hi2 & HP2).
    { rewrite length_app. cbn. lia. }
    { exists r. intros i x Hin Hx. apply (Hr i x Hin).
      change (snaps0 ++ [p; sn]) with (snaps0 ++ [p] ++ [sn]). rewrite app_assoc. by apply lookup_app_l_Some. }
    { rewrite length_app. cbn. lia. }
    exists c2, db2, h2. split; [exact E2|]. split; cycle 1.
    { intros P HP Hdb. apply HP2.
      - intros i Hin. apply HP. rewrite length_app in Hin. cbn in Hin. lia.
      - pose proof (records_revert (Z.of_nat (S (length snaps0))) P (HP (S (length snaps0)) ltac:(lia))
          fuel (sn_global p) (sn_block sn)) as Hk.
        assert (Hb : block_number (sn_block sn) = Z.of_nat (S (length snaps0))) by (rewrite Hnum; f_equal; lia).
        specialize (Hk Hb (c, mkStoreTx base db) Hdb). by rewrite E1 in Hk. }
    change (snaps0 ++ [p; sn]) with (snaps0 ++ [p] ++ [sn]).
    rewrite app_assoc, take_app_le by (rewrite length_app; cbn; lia).
    by replace (min s n) with (min (min s (length snaps0)) n) by lia;
      replace (min k n) with (min (min k (length snaps0)) n) by lia.
Qed.

(** Taking back blocks restores an earlier moment: reverting to block [n]
    succeeds with fuel for each block above it, and the chain ends at block [n]
    with its accounts and its books, the positions cut to [n]. *)
Theorem sync_revert_restores (fuel n : nat) (c : Chain) (db base : StoreDb) (snaps : list Snap)
    (s k : nat) (h : hist) (sn : Snap) :
  chain_inv c db snaps s k h → snaps !! n = Some sn → same_reverted snaps n →
  (length snaps ≤ fuel + S n)%nat →
  ∃ c' db' h',
    revert_to fuel (Z.of_nat n) (c, mkStoreTx base db) = (Ok tt, (c', mkStoreTx base db')) ∧
    chain_inv c' db' (take (S n) snaps) (min s n) (min k n) h' ∧
    ch_tip c' = sn_block sn ∧ ch_last_global_state c' = sn_global sn ∧
    ∀ key, tree_get (sd_account_tree db') key = tree_get (sn_tree sn) key.
Proof.
  intros Hi Hn Hsame Hfuel. pose proof (lookup_lt_Some _ _ _ Hn) as Hlt.
  destruct (revert_to_run fuel n c db base snaps s k h Hi Hlt Hsame Hfuel) as (c' & db' & h' & E & Hi' & _).
  exists c', db', h'. split; [done|]. split; [done|].
  destruct (ci_top _ _ _ _ _ _ Hi') as (x & Hl & Ht & Hg & Htop).
  rewrite (take_S_r _ _ _ Hn), last_snoc in Hl. by injection Hl as <-.
Qed.

(** ** Following known blocks *)
Lemma chain_inv_framed c db db' snaps s k s' k' h :
  chain_inv c db snaps s k h → holds db' (mkLedger (sn_block <$> snaps) s' k') →
  framed side_key db db' → chain_inv c db' snaps s' k' h.
Proof.
  intros Hi Hh F. split.
  - done.
  - rewrite (fr_tree _ _ _ F). apply Hi.
  - apply Hi.
  - apply (ci_linked _ _ _ _ _ _ Hi).
  - rewrite (fr_history _ _ _ F). apply Hi.
  - apply (ci_future _ _ _ _ _ _ Hi).
  - intros i sn Hs. destruct (ci_snaps _ _ _ _ _ _ Hi i sn Hs) as [H1' H2' H3' H4' H5'].
    split; try done. rewrite (fr_columns _ _ _ F) by (by left). done.
  - rewrite (fr_columns _ _ _ F) by (by right). apply (ci_reverted _ _ _ _ _ _ Hi).
Qed.

(** Entries kept per block number next to the ledger: the submission transaction
    and the custodian capacity *)
Definition per_block (c : Z) : Prop :=
  c = COLUMN_BLOCK_SUBMIT_TX ∨ c = COLUMN_BLOCK_SUBMIT_TX_HASH ∨
  c = COLUMN_BLOCK_POST_FINALIZED_CUSTODIAN_CAPACITY.

Lemma holds_beside db db' l :
  holds db l → sd_block_leaves db' = sd_block_leaves db →
  framed (λ key, ¬ per_block key.1) db db' → holds db' l.
Proof.
  intros Hh Hl F.
  assert (Hc : ∀ c k, ¬ per_block c → sd_columns db' !! (c, k) = sd_columns db !! (c, k))
    by (intros c k Hc; by apply (fr_columns _ _ _ F)).
  assert (Hm : ¬ per_block COLUMN_META) by (intros [Hc'|[Hc'|Hc']]; discriminate Hc').
  destruct Hh. split; rewrite ?Hl, ?Hc by exact Hm; try done.
  - intros c k v Hi. rewrite Hc; [by apply ho_indexed|].
    destruct Hi as [->|[->| ->]]; intros [Hc'|[Hc'|Hc']]; discriminate Hc'.
  - intros b Hb. rewrite Hc; [by apply ho_blocks|]. intros [Hc'|[Hc'|Hc']]; discriminate Hc'.
  - intros b i tx Hb Hi. rewrite Hc; [by apply ho_txs|]. intros [Hc'|[Hc'|Hc']]; discriminate Hc'.
Qed.

Lemma chain_inv_beside c db db' snaps s k h :
  chain_inv c db snaps s k h → sd_block_leaves db' = sd_block_leaves db →
  framed (λ key, ¬ per_block key.1) db db' → chain_inv c db' snaps s k h.
Proof.
  intros Hi Hl F. apply (chain_inv_framed _ db _ _ s k); [done|..].
  { apply (holds_beside db); [apply Hi|done..]. }
  destruct F as [? ? ? Hc]. split; try done. intros [cc kk] Hk. apply Hc. cbn in *.
  intros [->|[->| ->]]; destruct Hk as [[=]|[=]].
Qed.

Lemma submit_hash_inv n hash c db snaps s k hs :
  chain_inv c db snaps s k hs →
  chain_inv c (set_block_submit_tx_hash (E:=ChainError) n hash db).2 snaps s k hs.
Proof.
  intros Hi. apply (chain_inv_beside _ db); [exact Hi|reflexivity|].
  apply framed_insert; [intros Hn; apply Hn; right; left; reflexivity|apply framed_start].
Qed.

Lemma move_position_inv c db snaps s k h s' k' key nh :
  chain_inv c db snaps s k h → (k' ≤ s' < length snaps)%nat →
  (key = META_LAST_SUBMITTED_BLOCK_NUMBER_HASH_KEY ∧ k' = k ∧
     number_hash (mkLedger (sn_block <$> snaps) s k) s' = Some nh ∨
   key = META_LAST_CONFIRMED_BLOCK_NUMBER_HASH_KEY ∧ s' = s ∧
     number_hash (mkLedger (sn_block <$> snaps) s k) k' = Some nh) →
  chain_inv c (with_columns (put_all [((COLUMN_META, key), ENumberHash nh)]) db) snaps s' k' h.
Proof.
  intros Hi Hp Hkey. apply (chain_inv_framed _ db _ _ s k); [done|..].
  - apply holds_move with (s := s) (c := k); [apply Hi|by rewrite length_fmap|done].
  - split; try done. intros [c' key'] Hk. cbn. rewrite lookup_insert_ne; [done|].
    destruct Hk as [Hk|Hk]; cbn in Hk; [by intros [= <- _]|].
    rewrite Hk. destruct Hkey as [(-> & _)|(-> & _)]; solve_key.
Qed.

Definition positioned (nh : NumberHash) (db : StoreDb) : StoreDb :=
  with_columns (put_all [((COLUMN_META, META_LAST_CONFIRMED_BLOCK_NUMBER_HASH_KEY), ENumberHash nh);
                         ((COLUMN_META, META_LAST_SUBMITTED_BLOCK_NUMBER_HASH_KEY), ENumberHash nh)]) db.

Lemma holds_positioned db bs s k m nh :
  holds db (mkLedger bs s k) → number_hash (mkLedger bs s k) m = Some nh →
  holds (positioned nh db) (mkLedger bs m m).
Proof.
  intros Hh Hn. pose proof (lo_positions _ (ho_ok _ _ Hh)) as Hp. cbn in Hp.
  assert (Hm : (m < length bs)%nat).
  { unfold number_hash in Hn. cbn in Hn. destruct (bs !! m) as [b|] eqn:Eb; [|done]. by apply lookup_lt_Some in Eb. }
  destruct (decide (m ≤ s)%nat).
  - assert (Hm1 : holds _ (mkLedger bs s m)) by
      (apply (holds_move db bs s k s m META_LAST_CONFIRMED_BLOCK_NUMBER_HASH_KEY nh Hh); [lia|right; auto]).
    assert (Hm2 : holds _ (mkLedger bs m m)) by
      (apply (holds_move _ bs s m m m META_LAST_SUBMITTED_BLOCK_NUMBER_HASH_KEY nh Hm1); [lia|left; auto]).
    exact Hm2.
  - assert (Hm1 : holds _ (mkLedger bs m k)) by
      (apply (holds_move db bs s k m k META_LAST_SUBMITTED_BLOCK_NUMBER_HASH_KEY nh Hh); [lia|left; auto]).
    assert (Hm2 : holds _ (mkLedger bs m m)) by
      (apply (holds_move _ bs m k m m META_LAST_CONFIRMED_BLOCK_NUMBER_HASH_KEY nh Hm1); [lia|right; auto]).
    unfold positioned. unfold with_columns in Hm2 |- *. cbn [put_all foldl sd_columns sd_block_leaves
      sd_reverted_leaves sd_account_tree sd_account_history fst snd] in Hm2 |- *.
    by rewrite insert_insert_ne in Hm2 by solve_key.
Qed.

Lemma positioned_framed nh db : framed side_key db (positioned nh db).
Proof.
  split; try done. intros key Hk. unfold positioned. cbn [sd_columns with_columns].
  apply put_all_other. cbn [fmap list_fmap fst]. rewrite !not_elem_of_cons.
  destruct Hk as [Hk| ->].
  - split_and!; [intros ->; discriminate..|apply not_elem_of_nil].
  - split_and!; [solve_key..|apply not_elem_of_nil].
Qed.

Lemma set_positions_run c db base snaps s k h m :
  chain_inv c db snaps s k h → (m < length snaps)%nat →
  ∃ db', set_positions (Z.of_nat m) (c, mkStoreTx base db) = (Ok tt, (c, mkStoreTx db' db')) ∧
    framed (λ key, key.1 ≠ COLUMN_META) db db' ∧ chain_inv c db' snaps m m h.
Proof.
  intros Hi Hm. pose proof (ci_holds _ _ _ _ _ _ Hi) as Hh.
  destruct (lookup_lt_is_Some_2 _ _ Hm) as [sn Hsn].
  assert (Hb : (sn_block <$> snaps) !! m = Some (sn_block sn)) by (by rewrite list_lookup_fmap, Hsn).
  pose proof (lo_short _ (ho_ok _ _ Hh)) as Hshort. cbn in Hshort. rewrite length_fmap in Hshort.
  set (nh := mkNumberHash (Z.of_nat m) (block_hash (sn_block sn))).
  exists (positioned nh db). split; [|split].
  - unfold set_positions.
    erewrite st_bind_run by (apply tx_op_run, (read_hash_by_number _ _ Hh); unfold in_width; lia).
    cbn [lg_blocks]. rewrite Nat2Z.id, Hb. cbn [fmap option_fmap option_map].
    rewrite (st_bind_run (lift _) _ _ (block_hash (sn_block sn)) _) by done. reflexivity.
  - split; try done. intros key Hk. unfold positioned. cbn [sd_columns with_columns].
    apply put_all_other. cbn [fmap list_fmap fst]. rewrite !not_elem_of_cons.
    split_and!; [intros ->; done..|apply not_elem_of_nil].
  - apply (chain_inv_framed _ _ _ _ _ _ _ _ _ Hi); [|apply positioned_framed].
    apply (holds_positioned _ _ s k); [done|]. unfold number_hash. cbn [lg_blocks]. by rewrite Hb.
Qed.

(** The hash of the layer-1 transaction that submits block [i] *)
Definition submitted_by (db : StoreDb) (i : nat) (tx_hash : H256) : Prop :=
  sd_columns db !! (COLUMN_BLOCK_SUBMIT_TX_HASH, be_bytes 8 (Z.of_nat i)) = Some (EBytes tx_hash).

Lemma submit_hash_run db i tx_hash :
  submitted_by db i tx_hash →
  get_block_submit_tx_hash (E:=ChainError) (Z.of_nat i) db = (Ok (Some tx_hash), db).
Proof. intros E. unfold get_block_submit_tx_hash, get_as. by rewrite E. Qed.

Lemma st_fold_app {A B} (f : A → B → ST (Chain * StoreTx) SyncError A) a l l' st :
  st_fold f a (l ++ l') st = (b ← st_fold f a l; st_fold f b l') st.
Proof.
  revert a st. induction l as [|x l IH]; intros a st; [done|]. cbn [app st_fold].
  unfold mbind at 1 2 3, ST_bind. destruct (f a x st) as [[b|e|] st']; [|done..]. apply IH.
Qed.

Lemma sync_pages_concat v u fuel h0 st pages x :
  st_fold (sync_page (Mac:=Mac) v u fuel h0) st (Ok <$> pages) x =
  st_fold (sync_tx (Mac:=Mac) v u fuel h0) st (concat (dedup <$> pages)) x.
Proof.
  revert st x. induction pages as [|p pages IH]; intros st x; [done|].
  cbn [fmap list_fmap concat]. rewrite st_fold_app. cbn [st_fold].
  change (sync_page v u fuel h0 st (Ok p)) with (st_fold (sync_tx (Mac:=Mac) v u fuel h0) st (dedup p)).
  unfold mbind, ST_bind. destruct (st_fold _ _ _ _) as [[b|e|] x']; [|done..]. apply IH.
Qed.

Lemma sync_tx_unseen v u fuel h0 n t x :
  sync_tx (Mac:=Mac) v u fuel h0 (mkSyncState n false false) t x
  = (Ok (mkSyncState n (bool_decide (t = h0)) false), x).
Proof. done. Qed.
Lemma sync_tx_known v u fuel h0 c base db t k :
  Z.of_nat (S k) < 2 ^ 64 → submitted_by db (S k) t →
  sync_tx (Mac:=Mac) v u fuel h0 (mkSyncState (Z.of_nat k) true false) t (c, mkStoreTx base db)
  = (Ok (mkSyncState (Z.of_nat (S k)) true false), (c, mkStoreTx base db)).
Proof.
  intros Hk Hs. unfold sync_tx. cbn [sy_seen sy_reverted sy_last_confirmed negb].
  rewrite (st_bind_run (lift _) _ _ (Z.of_nat (S k)) (c, mkStoreTx base db)).
  2: { unfold lift, add_w, checked_add. rewrite (proj2 (Z.ltb_lt _ _)) by lia. by rewrite Nat2Z.inj_succ. }
  rewrite (st_bind_run _ _ _ _ _ (tx_op_run _ c base _ _ _ (submit_hash_run _ _ _ Hs))).
  by rewrite bool_decide_true.
Qed.

Lemma skip_unseen v u fuel h0 before n x :
  h0 ∉ before →
  st_fold (sync_tx (Mac:=Mac) v u fuel h0) (mkSyncState n false false) before x
  = (Ok (mkSyncState n false false), x).
Proof.
  intros Hb. induction before as [|t before IH]; [done|]. apply not_elem_of_cons in Hb as [Ht Hb].
  cbn [st_fold]. rewrite (st_bind_run _ _ _ _ _ (sync_tx_unseen v u fuel h0 n t x)).
  rewrite bool_decide_false by done. by apply IH.
Qed.

Lemma follow_known v u fuel h0 c base db (hs : nat → H256) n k :
  Z.of_nat (k + n) < 2 ^ 64 → (∀ i, (k < i ≤ k + n)%nat → submitted_by db i (hs i)) →
  st_fold (sync_tx (Mac:=Mac) v u fuel h0) (mkSyncState (Z.of_nat k) true false) (hs <$> seq (S k) n)
    (c, mkStoreTx base db)
  = (Ok (mkSyncState (Z.of_nat (k + n)) true false), (c, mkStoreTx base db)).
Proof.
  revert k. induction n as [|n IH]; intros k Hk Hsub; [by rewrite Nat.add_0_r|].
  cbn [seq fmap list_fmap st_fold].
  rewrite (st_bind_run _ _ _ _ _ (sync_tx_known v u fuel h0 c base db _ k ltac:(lia) (Hsub (S k) ltac:(lia)))).
  rewrite IH; [|lia|intros i Hi; apply Hsub; lia]. by replace (S k + n)%nat with (k + S n)%nat by lia.
Qed.

Lemma sync_known_run (v : L1View) (u : ChainUpdater) (fuel : nat) (c : Chain) (db : StoreDb)
    (snaps : list Snap) (s k m : nat) (h : hist) (hs : nat → H256) (l1_block : Z)
    (pages : list (list H256)) (before : list H256) :
  chain_inv c db snaps s k h → (k ≤ m < length snaps)%nat →
  (∀ i, (k ≤ i ≤ m)%nat → submitted_by db i (hs i)) →
  lv_status v (hs k) = Ok (Some Committed) → lv_block_number v (hs k) = Ok (Some l1_block) →
  lv_pages v l1_block = Ok <$> pages →
  concat (dedup <$> pages) = before ++ hs k :: (hs <$> seq (S k) (m - k)) → hs k ∉ before →
  ∃ db', sync_l1_impl (Mac:=Mac) v u fuel (c, db) = (Ok tt, (c, db')) ∧
    chain_inv c db' snaps m m h ∧ framed (λ key, key.1 ≠ COLUMN_META) db db'.
Proof.
  intros Hi Hm Hsub Hst Hbn Hpages Hcat Hb. pose proof (ci_holds _ _ _ _ _ _ Hi) as Hh.
  pose proof (lo_short _ (ho_ok _ _ Hh)) as Hshort. cbn in Hshort. rewrite length_fmap in Hshort.
  destruct (set_positions_run c db db snaps s k h m Hi ltac:(lia)) as (db' & Ep & F & Hi').
  exists db'. split; [|by split]. unfold sync_l1_impl, sync_l1_actions.
  destruct (read_position (E:=ChainError) _ _ _ _ (ho_confirmed _ _ Hh)) as (b & _ & Ec).
  { pose proof (lo_positions _ (ho_ok _ _ Hh)) as Hp. cbn in Hp |- *. lia. }
  pose proof (submit_hash_run _ _ _ (Hsub k ltac:(lia))) as Ek.
  assert (Hfind : find_on_l1 v fuel (Z.of_nat k) (c, mkStoreTx db db)
                  = (Ok (Z.of_nat k), (c, mkStoreTx db db))).
  { destruct fuel; cbn [find_on_l1]; rewrite (st_bind_run _ _ _ _ _ (tx_op_run _ c db _ _ _ Ek));
      rewrite (st_bind_run (lift _) _ _ (hs k) _) by done; rewrite Hst;
      rewrite (st_bind_run (lift _) _ _ (Some Committed) _) by done; reflexivity. }
  assert (Hfold : st_fold (sync_page (Mac:=Mac) v u fuel (hs k)) (mkSyncState (Z.of_nat k) false false)
    (lv_pages v l1_block) (c, mkStoreTx db db) =
    (Ok (mkSyncState (Z.of_nat m) true false), (c, mkStoreTx db db))).
  { rewrite Hpages, sync_pages_concat, Hcat, st_fold_app.
    rewrite (st_bind_run _ _ _ _ _ (skip_unseen v u fuel (hs k) before _ _ Hb)). cbn [st_fold].
    rewrite (st_bind_run _ _ _ _ _ (sync_tx_unseen v u fuel (hs k) _ (hs k) _)).
    rewrite bool_decide_true by done. rewrite follow_known.
    - by replace (k + (m - k))%nat with m by lia.
    - lia.
    - intros i Hik. apply Hsub. lia. }
  rewrite (st_bind_run _ _ _ _ _ (tx_op_run _ c db _ _ _ Ec)).
  rewrite (st_bind_run (lift _) _ _ (mkNumberHash (Z.of_nat k) (block_hash b)) _) by done. cbn [nh_number].
  rewrite (st_bind_run _ _ _ _ _ Hfind). unfold sync_l1_unknown.
  rewrite (st_bind_run _ _ _ _ _ (tx_op_run _ c db _ _ _ Ek)).
  rewrite (st_bind_run (lift _) _ _ (hs k) _) by done. rewrite Hbn.
  rewrite (st_bind_run (lift _) _ _ (Some l1_block) _) by done.
  rewrite (st_bind_run (lift _) _ _ l1_block _) by done.
  rewrite (st_bind_run _ _ _ _ _ Hfold). cbn [sy_reverted sy_last_confirmed negb]. by rewrite Ep.
Qed.

(** Nothing new on layer 1: when the last confirmed block is still on layer 1 and
    the transactions after it are the submissions of the node's own blocks up to
    [m], one attempt succeeds, keeps the chain and the accounts, and makes [m] the
    last submitted and the last confirmed block. *)
Theorem sync_l1_confirms_known (v : L1View) (u : ChainUpdater) (fuel : nat) (c : Chain) (db : StoreDb)
    (snaps : list Snap) (s k m : nat) (h : hist) (hs : nat → H256) (l1_block : Z)
    (pages : list (list H256)) (before : list H256) :
  chain_inv c db snaps s k h → (k ≤ m < length snaps)%nat →
  (∀ i, (k ≤ i ≤ m)%nat → submitted_by db i (hs i)) →
  lv_status v (hs k) = Ok (Some Committed) → lv_block_number v (hs k) = Ok (Some l1_block) →
  lv_pages v l1_block = Ok <$> pages →
  concat (dedup <$> pages) = before ++ hs k :: (hs <$> seq (S k) (m - k)) → hs k ∉ before →
  ∃ db', sync_l1_impl (Mac:=Mac) v u fuel (c, db) = (Ok tt, (c, db')) ∧
    chain_inv c db' snaps m m h ∧ framed (λ key, key.1 ≠ COLUMN_META) db db'.
Proof. apply sync_known_run. Qed.
End SyncProps.
