(* ===== verification/BlockSyncClient.v ===== *)
(** * Read-only nodes (crates/block-producer/src/block_sync_client.rs)

    A read-only node applies the messages of [BlockSyncServer.v] to its own chain.

    On the blocks and positions of a ledger a message has a simple meaning
    ([follow]).  The theorems: the client implements it, and the messages a server
    sends to a node that knows a confirmed block lead the node to the server's
    ledger. *)
From Stdlib Require Import ZArith Lia Strings.Byte.
From stdpp Require Import prelude list gmap relations.
From S2P Require Import Prelude Bytes Types State StateSpec StateDB History Finality Ckb Eip712.
From S2P Require Import SubmitBlock RollupScript ChallengeLock NodeUtils NodeState AccountLocks Backends Syscalls Generator GeneratorProps BlockEffect Verifiers Store StoreProps LocalCells BlockSyncServer ChallengeContext Chain ChainUpdater ChainProps BlockRecords SyncL1.
Local Open Scope Z_scope.

(** [mem_pool] is whether the node has a memory pool; [cl_synced] is
    [completed_initial_syncing]. *)
Record BlockSyncClient := mkBlockSyncClient {
  cl_chain : Chain; cl_store : StoreDb; cl_mem_pool : bool; cl_synced : bool;
}.
Definition on_client (c : Chain) (db : StoreDb) (cl : BlockSyncClient) : BlockSyncClient :=
  mkBlockSyncClient c db (cl_mem_pool cl) (cl_synced cl).

#[export] Instance NumberHash_eq_dec : EqDecision NumberHash.
Proof. solve_decision. Defined.

Inductive ClientError := ClientNoBlockHash | HashMismatch | ClientFailed.

Section Client.
Context {Mac : Type} `{Machine Mac}.
Context `{Blake2b, Molecule, ContractArgs, SubstrateBn, SyscallCodec, MapIter, HashCodec, SmtRoot}.
Context `{SmtProof, CbmtBuild, RocksIter, MemPool}.
Local Abbreviation M := (ST BlockSyncClient ClientError).

Definition client_db {A} (m : ST StoreDb ClientError A) : M A := λ cl,
  let (r, db) := m (cl_store cl) in (r, on_client (cl_chain cl) db cl).
(** A store transaction with the chain: committed when it succeeds, dropped
    otherwise *)
Definition client_tx {E} (m : ST (Chain * StoreTx) E unit) : M unit := λ cl,
  match m (cl_chain cl, mkStoreTx (cl_store cl) (cl_store cl)) with
  | (Ok _, (c, tx)) => (Ok tt, on_client c (tx_db tx) cl)
  | (Err _, (c, _)) => (Err ClientFailed, on_client c (cl_store cl) cl)
  | (Panic, (c, _)) => (Panic, on_client c (cl_store cl) cl)
  end.

Definition check_number_hash (nh : NumberHash) : M unit :=
  found ← client_db (get_block_hash_by_number (nh_number nh));
  store_block_hash ← lift (ok_or ClientNoBlockHash found);
  lift (reject_if (negb (bool_decide (store_block_hash = nh_block_hash nh))) HashMismatch).

Definition client_notify_new_tip : M unit :=
  cl ← gets id;
  (if cl_mem_pool cl then
     new_tip ← client_db get_last_valid_tip_block_hash;
     lift (if mem_pool_notify new_tip then Ok tt else Err ClientFailed)
   else mret tt) ;;
  modify (λ cl, mkBlockSyncClient (cl_chain cl) (cl_store cl) (cl_mem_pool cl) true).

(** The node applies the block and computes its finalized custodians. *)
Definition update_block (l : LocalBlock) : ST (Chain * StoreTx) ChainError unit :=
  update_local (Mac:=Mac) (lb_block l) (lb_deposit_info_vec l) (lb_deposit_asset_scripts l)
    (lb_withdrawals l) (lb_post_global_state l) ;;
  c ← chain_gets id;
  on_db (calculate_and_store_finalized_custodians (ch_rollup_config c)
           (fork_config (g_rollup_context (ch_generator c))) (block_number (lb_block l))).

Definition handle_local_block (fuel : nat) (l : LocalBlock) : M unit :=
  let block := lb_block l in
  store_block_hash ← client_db (get_block_hash_by_number (block_number block));
  match store_block_hash with
  | Some h =>
      if bool_decide (h = block_hash block) then mret tt
      else
        last_valid ← lift (sub_w (block_number block) 1);
        client_tx (revert_to fuel last_valid) ;;
        client_tx (update_block l) ;;
        client_notify_new_tip
  | None => client_tx (update_block l) ;; client_notify_new_tip
  end.

(** Messages about the block in the making only reach the memory pool, and their
    errors are logged. *)
Definition apply_msg (fuel : nat) (msg : BlockSync) : M unit :=
  match msg with
  | MsgRevert nh =>
      check_number_hash nh ;;
      client_db (set_last_confirmed_block_number_hash nh) ;;
      client_db (set_last_submitted_block_number_hash nh)
  | MsgLocalBlock l => handle_local_block fuel l
  | MsgSubmitted nh tx_hash =>
      check_number_hash nh ;;
      client_db (set_block_submit_tx_hash (nh_number nh) tx_hash) ;;
      client_db (set_last_submitted_block_number_hash nh)
  | MsgConfirmed nh _ =>
      check_number_hash nh ;;
      client_db (set_last_confirmed_block_number_hash nh)
  | MsgNextMemBlock _ | MsgPushTransaction _ => mret tt
  end.

(** [sync_l1(client).await?]; fails while none of the attempts succeeds *)
Definition client_sync_l1 (attempts : list L1View) (u : ChainUpdater) (fuel : nat) : M unit := λ cl,
  match sync_l1 (Mac:=Mac) attempts u fuel (cl_chain cl, cl_store cl) with
  | (Ok synced, (c, db)) => (if synced then Ok tt else Err ClientFailed, on_client c db cl)
  | (Err _, (c, db)) => (Err ClientFailed, on_client c db cl)
  | (Panic, (c, db)) => (Panic, on_client c db cl)
  end.
Definition run_once_without_p2p_stream (attempts : list L1View) (u : ChainUpdater) (fuel : nat) : M unit :=
  client_sync_l1 attempts u fuel ;; client_notify_new_tip.
(** The block from which a node asks its peer to send messages *)
Definition request_after (attempts : list L1View) (u : ChainUpdater) (fuel : nat) : M NumberHash :=
  client_sync_l1 attempts u fuel ;; client_notify_new_tip ;;
  last_confirmed ← client_db get_last_confirmed_block_number_hash;
  lift (ok_or ClientFailed last_confirmed).
End Client.

(** ** Receiving messages *)
(** Transactions and blocks in the making *)
Definition is_pool_msg (m : BlockSync) : bool :=
  match m with MsgNextMemBlock _ | MsgPushTransaction _ => true | _ => false end.
Definition is_local_block (m : BlockSync) : bool :=
  match m with MsgLocalBlock _ => true | _ => false end.
(** A long buffer that ends in a block keeps no messages about blocks in the making. *)
Definition shed (buffer : list BlockSync) : list BlockSync :=
  if (512 <=? length buffer)%nat && match last buffer with Some m => is_local_block m | None => false end
  then filter (λ m, is_pool_msg m = false) buffer else buffer.
(** The messages to come, the buffer, and the messages applied *)
Inductive recv_step : list BlockSync * list BlockSync * list BlockSync →
    list BlockSync * list BlockSync * list BlockSync → Prop :=
| recv_push m stream buffer applied :
    (length buffer < 1024)%nat → recv_step (m :: stream, buffer, applied) (stream, shed (buffer ++ [m]), applied)
| recv_pop m stream buffer applied :
    recv_step (stream, m :: buffer, applied) (stream, shed buffer, applied ++ [m]).
Definition received (msgs applied : list BlockSync) : Prop :=
  rtc recv_step (msgs, [], []) ([], [], applied).

Lemma shed_length buffer : (length (shed buffer) ≤ length buffer)%nat.
Proof. unfold shed. case_match; [apply length_filter|done]. Qed.
(** Receiving ends. *)
Lemma recv_ends n stream buffer applied :
  (2 * length stream + length buffer ≤ n)%nat → ∃ out, rtc recv_step (stream, buffer, applied) ([], [], out).
Proof.
  revert stream buffer applied. induction n as [|n IH]; intros stream buffer applied Hn.
  - destruct stream, buffer; cbn in Hn; [by exists applied|lia..].
  - destruct buffer as [|m buffer].
    + destruct stream as [|m stream]; [by exists applied|].
      destruct (IH stream (shed ([] ++ [m])) applied) as [out Hout].
      { pose proof (shed_length ([] ++ [m])). cbn in *. lia. }
      exists out. eapply rtc_l; [|exact Hout]. apply recv_push. cbn. lia.
    + destruct (IH stream (shed buffer) (applied ++ [m])) as [out Hout].
      { pose proof (shed_length buffer). cbn in *. lia. }
      exists out. eapply rtc_l; [|exact Hout]. apply recv_pop.
Qed.

(** ** What a message means *)
Section Follow.
Context `{Blake2b, Molecule, SyscallCodec, HashCodec, SmtRoot}.

Definition named (l : Ledger) (nh : NumberHash) : bool :=
  bool_decide (number_hash l (Z.to_nat (nh_number nh)) = Some nh).
Definition follow (l : Ledger) (msg : BlockSync) : option Ledger :=
  let '(mkLedger bs s k) := l in
  match msg with
  | MsgRevert nh => if named l nh then Some (mkLedger bs (Z.to_nat (nh_number nh)) (Z.to_nat (nh_number nh))) else None
  | MsgSubmitted nh _ => if named l nh then Some (mkLedger bs (Z.to_nat (nh_number nh)) k) else None
  | MsgConfirmed nh _ => if named l nh then Some (mkLedger bs s (Z.to_nat (nh_number nh))) else None
  | MsgLocalBlock lb =>
      let b := lb_block lb in
      let n := Z.to_nat (block_number b) in
      match bs !! n with
      | Some b' =>
          if bool_decide (block_hash b' = block_hash b) then Some l
          else Some (mkLedger (take n bs ++ [b]) (min s (pred n)) (min k (pred n)))
      | None => Some (mkLedger (bs ++ [b]) s k)
      end
  | MsgNextMemBlock _ | MsgPushTransaction _ => Some l
  end.
Fixpoint follow_all (l : Ledger) (msgs : list BlockSync) : option Ledger :=
  match msgs with [] => Some l | m :: msgs => l ← follow l m; follow_all l msgs end.
Lemma follow_all_app l ms ms' : follow_all l (ms ++ ms') = (l' ← follow_all l ms; follow_all l' ms').
Proof.
  revert l. induction ms as [|m ms IH]; intros l; [done|]. cbn. destruct (follow l m); cbn; [apply IH|done].
Qed.

(** ** The server's buffer *)
Inductive server_step : Ledger * BlockSyncServerState → Ledger * BlockSyncServerState → Prop :=
| sv_local bs s k sv lb :
    block_number (lb_block lb) = Z.of_nat (length bs) →
    server_step (mkLedger bs s k, sv) (mkLedger (bs ++ [lb_block lb]) s k, publish_local_block lb sv)
| sv_submitted bs s k sv nh tx :
    number_hash (mkLedger bs s k) (S s) = Some nh →
    server_step (mkLedger bs s k, sv) (mkLedger bs (S s) k, publish_submitted nh tx sv)
| sv_confirmed bs s k sv nh tx sv' :
    (k < s)%nat → number_hash (mkLedger bs s k) (S k) = Some nh →
    publish_confirmed (E:=unit) nh tx sv = Ok sv' →
    server_step (mkLedger bs s k, sv) (mkLedger bs s (S k), sv')
| sv_mem_block bs s k sv m :
    bi_number (nm_block_info m) = Z.of_nat (length bs) →
    server_step (mkLedger bs s k, sv) (mkLedger bs s k, publish_next_mem_block m sv)
| sv_transaction l sv tx sv' :
    publish_transaction (E:=unit) tx sv = Ok sv' → server_step (l, sv) (l, sv').

(** The messages of block [i] *)
Definition block_msgs (s k i : nat) (lb : LocalBlock) (t t' : H256) : list BlockSync :=
  let nh := mkNumberHash (Z.of_nat i) (block_hash (lb_block lb)) in
  MsgLocalBlock lb :: (if decide (i ≤ s)%nat then [MsgSubmitted nh t] else [])
                   ++ (if decide (i ≤ k)%nat then [MsgConfirmed nh t'] else []).
Definition entry_ok (l : Ledger) (i : nat) (e : Z * BlockMessages) : Prop :=
  ∃ lb t t', lg_blocks l !! i = Some (lb_block lb) ∧ block_number (lb_block lb) = Z.of_nat i ∧
    e = (Z.of_nat i, mkBlockMessages (block_hash (lb_block lb))
                       (block_msgs (lg_submitted l) (lg_confirmed l) i lb t t')).
(** Messages about the block in the making *)
Definition pool_msg (m : BlockSync) : Prop := is_pool_msg m = true.
Definition tail_ok (n : nat) (tail : list (Z * BlockMessages)) : Prop :=
  tail = [] ∨ ∃ h m ms, tail = [(Z.of_nat n, mkBlockMessages h (MsgNextMemBlock m :: ms))] ∧ Forall pool_msg ms.
Record buffer_ok (l : Ledger) (buf : list (Z * BlockMessages)) (lo : nat)
    (entries tail : list (Z * BlockMessages)) : Prop := {
  bo_split : buf = entries ++ tail;
  bo_entries j e : entries !! j = Some e → entry_ok l (lo + j) e;
  bo_length : (lo + length entries)%nat = length (lg_blocks l);
  bo_tail : tail_ok (length (lg_blocks l)) tail;
  bo_positions : (lg_confirmed l ≤ lg_submitted l < length (lg_blocks l))%nat;
}.

Lemma entry_key l i e : entry_ok l i e → e.1 = Z.of_nat i.
Proof. by intros (lb & t & t' & _ & _ & ->). Qed.

Lemma insert_end n m entries tail :
  (∀ e, e ∈ entries → e.1 < Z.of_nat n) → tail_ok n tail →
  buffer_insert (Z.of_nat n) m (entries ++ tail) = entries ++ [(Z.of_nat n, m)].
Proof.
  intros He Ht. induction entries as [|[n' m'] entries IH]; cbn.
  - destruct Ht as [->|(h & m0 & ms & -> & _)]; [done|]. cbn.
    by rewrite Z.ltb_irrefl, Z.eqb_refl.
  - pose proof (He (n', m') (list_elem_of_here _ _)) as Hlt. cbn in Hlt.
    rewrite (proj2 (Z.ltb_ge _ _)), (proj2 (Z.eqb_neq _ _)) by lia. f_equal. apply IH.
    intros e Hin. apply He. by right.
Qed.
Lemma push_other n msg l : (∀ e, e ∈ l → e.1 ≠ n) → buffer_push n msg l = l.
Proof.
  intros Hl. induction l as [|[n' m'] l IH]; [done|]. unfold buffer_push in *. cbn.
  rewrite (proj2 (Z.eqb_neq _ _)) by (intros E; by apply (Hl (n', m') (list_elem_of_here _ _))).
  f_equal. apply IH. intros e Hin. apply Hl. by right.
Qed.
(** Entries with consecutive numbers *)
Lemma from_drop n lo entries :
  (∀ j e, entries !! j = Some e → e.1 = Z.of_nat (lo + j)) →
  buffer_from n entries = drop (Z.to_nat (n - Z.of_nat lo)) entries.
Proof.
  revert lo. induction entries as [|e entries IH]; intros lo Hk; [by rewrite drop_nil|].
  pose proof (Hk 0%nat e eq_refl) as He. rewrite Nat.add_0_r in He.
  assert (Hk' : ∀ j e, entries !! j = Some e → e.1 = Z.of_nat (S lo + j)).
  { intros j e' Hj. rewrite (Hk (S j) e' Hj). f_equal. lia. }
  unfold buffer_from in *. destruct (decide (n ≤ e.1)) as [Hle|Hgt].
  - rewrite filter_cons_True by done. rewrite (IH (S lo) Hk').
    replace (Z.to_nat (n - Z.of_nat lo)) with 0%nat by lia.
    by replace (Z.to_nat (n - Z.of_nat (S lo))) with 0%nat by lia.
  - rewrite filter_cons_False by done. rewrite (IH (S lo) Hk').
    by replace (Z.to_nat (n - Z.of_nat lo)) with (S (Z.to_nat (n - Z.of_nat (S lo)))) by lia.
Qed.

Section Buffer.
Context (l : Ledger) (buf : list (Z * BlockMessages)) (lo : nat) (entries tail : list (Z * BlockMessages)).
Context (Hb : buffer_ok l buf lo entries tail).

Lemma entries_below e : e ∈ entries → e.1 < Z.of_nat (length (lg_blocks l)).
Proof.
  intros [j Hj]%list_elem_of_lookup. pose proof (lookup_lt_Some _ _ _ Hj).
  rewrite (entry_key _ _ _ (bo_entries _ _ _ _ _ Hb j e Hj)), <- (bo_length _ _ _ _ _ Hb). lia.
Qed.
Lemma tail_key e : e ∈ tail → e.1 = Z.of_nat (length (lg_blocks l)).
Proof.
  destruct (bo_tail _ _ _ _ _ Hb) as [->|(h & m & ms & -> & _)]; [by intros ?%elem_of_nil|].
  by intros ->%list_elem_of_singleton.
Qed.
(** A message for block [i] *)
Lemma push_entries n (nh : NumberHash) msg (Q : nat → Z * BlockMessages → Prop) :
  nh_number nh = Z.of_nat n → (n < length (lg_blocks l))%nat →
  (∀ i m, entry_ok l i (Z.of_nat i, m) →
     Q i (Z.of_nat i, if (n =? i)%nat then mkBlockMessages (bm_hash m) (bm_messages m ++ [msg]) else m)) →
  ∃ entries', buffer_push (nh_number nh) msg buf = entries' ++ tail ∧ length entries' = length entries ∧
    ∀ j e, entries' !! j = Some e → Q (lo + j)%nat e.
Proof.
  intros En Hn HQ. exists (buffer_push (nh_number nh) msg entries). split; [|split].
  - rewrite (bo_split _ _ _ _ _ Hb). unfold buffer_push at 1. rewrite fmap_app. f_equal.
    apply (push_other (nh_number nh) msg tail). intros e He. rewrite (tail_key e He), En. lia.
  - unfold buffer_push. by rewrite length_fmap.
  - intros j e Hj. unfold buffer_push in Hj. rewrite list_lookup_fmap in Hj.
    destruct (entries !! j) as [[n' m]|] eqn:Ej; [|done]. pose proof (bo_entries _ _ _ _ _ Hb j _ Ej) as He.
    pose proof (entry_key _ _ _ He) as Ek. cbn in Ek. subst n'. specialize (HQ _ _ He). cbn in Hj.
    destruct (Nat.eqb_spec n (lo + j)) as [->|Hne].
    + rewrite En, Z.eqb_refl in Hj. by injection Hj as <-.
    + rewrite (proj2 (Z.eqb_neq _ _)) in Hj by lia. by injection Hj as <-.
Qed.
End Buffer.

Lemma local_step bs s k sv lb lo entries tail :
  buffer_ok (mkLedger bs s k) (bs_buffer sv) lo entries tail →
  block_number (lb_block lb) = Z.of_nat (length bs) →
  ∃ entries', buffer_ok (mkLedger (bs ++ [lb_block lb]) s k) (bs_buffer (publish_local_block lb sv)) lo entries' [].
Proof.
  intros Hb Hn. pose proof (bo_positions _ _ _ _ _ Hb) as Hp. cbn in Hp.
  pose proof (bo_length _ _ _ _ _ Hb) as Hl. cbn in Hl.
  exists (entries ++ [(Z.of_nat (length bs), mkBlockMessages (block_hash (lb_block lb)) [MsgLocalBlock lb])]).
  split; cbn; [|..|by left|rewrite length_app; cbn; lia].
  - rewrite app_nil_r, Hn, (bo_split _ _ _ _ _ Hb). apply insert_end; [|apply (bo_tail _ _ _ _ _ Hb)].
    intros e. apply (entries_below _ _ _ _ _ Hb).
  - intros j e [Hj|[Hge Hj]]%lookup_app_Some.
    + destruct (bo_entries _ _ _ _ _ Hb j e Hj) as (lb' & t & t' & Hlb & Hnum & ->).
      exists lb', t, t'. cbn in *. split; [|done]. by apply lookup_app_l_Some.
    + apply list_lookup_singleton_Some in Hj as [Hj <-]. replace (lo + j)%nat with (length bs) by lia.
      exists lb, h256_zero, h256_zero. cbn. rewrite list_lookup_middle by done. split; [done|]. split; [done|].
      unfold block_msgs. rewrite !decide_False by lia. done.
  - rewrite !length_app. cbn. lia.
Qed.

Lemma number_hash_Some l i nh :
  number_hash l i = Some nh →
  ∃ b, lg_blocks l !! i = Some b ∧ nh = mkNumberHash (Z.of_nat i) (block_hash b).
Proof. unfold number_hash. destruct (lg_blocks l !! i) as [b|]; [|done]. intros [= <-]. eauto. Qed.

Lemma submitted_step bs s k sv nh tx lo entries tail :
  buffer_ok (mkLedger bs s k) (bs_buffer sv) lo entries tail →
  number_hash (mkLedger bs s k) (S s) = Some nh →
  ∃ entries', buffer_ok (mkLedger bs (S s) k) (bs_buffer (publish_submitted nh tx sv)) lo entries' tail.
Proof.
  intros Hb Hn. apply number_hash_Some in Hn as (b & Hbs & ->). cbn in Hbs.
  pose proof (lookup_lt_Some _ _ _ Hbs) as Hlt. pose proof (bo_positions _ _ _ _ _ Hb) as Hp. cbn in Hp.
  set (nh := mkNumberHash _ _).
  destruct (push_entries _ _ _ _ _ Hb (S s) nh (MsgSubmitted nh tx) (entry_ok (mkLedger bs (S s) k)) eq_refl Hlt)
    as (entries' & E & Hlen & Hents).
  { intros i m (lb & t & t' & Hlb & Hnum & [= ->]). cbn in Hlb. cbn [lg_submitted lg_confirmed].
    destruct (Nat.eqb_spec (S s) i) as [<-|Hne]; cbn [bm_hash bm_messages].
    - assert (lb_block lb = b) as Eb by congruence.
      exists lb, tx, t'. split; [done|]. split; [done|]. do 2 f_equal. unfold block_msgs.
      cbn [lg_submitted lg_confirmed]. rewrite (decide_False (P := (S s ≤ s)%nat)), !(decide_False (P := (S s ≤ k)%nat)), decide_True
        by lia. cbn. by rewrite Eb.
    - exists lb, t, t'. split; [done|]. split; [done|]. do 2 f_equal. unfold block_msgs.
      cbn [lg_submitted lg_confirmed]. f_equal. f_equal. destruct (decide (i ≤ s)%nat); [by rewrite decide_True by lia|by rewrite decide_False by lia]. }
  exists entries'. split; cbn in *.
  - done.
  - done.
  - rewrite Hlen. apply (bo_length _ _ _ _ _ Hb).
  - apply (bo_tail _ _ _ _ _ Hb).
  - lia.
Qed.

Lemma confirmed_step bs s k sv sv' nh tx lo entries tail :
  buffer_ok (mkLedger bs s k) (bs_buffer sv) lo entries tail → (k < s)%nat →
  number_hash (mkLedger bs s k) (S k) = Some nh → publish_confirmed (E:=unit) nh tx sv = Ok sv' →
  ∃ lo' entries' tail', buffer_ok (mkLedger bs s (S k)) (bs_buffer sv') lo' entries' tail'.
Proof.
  intros Hb Hks Hn Hpub. apply number_hash_Some in Hn as (b & Hbs & ->). cbn in Hbs.
  pose proof (bo_positions _ _ _ _ _ Hb) as Hp. cbn in Hp. set (nh := mkNumberHash _ _) in Hpub.
  destruct (push_entries _ _ _ _ _ Hb (S k) nh (MsgConfirmed nh tx) (entry_ok (mkLedger bs s (S k))) eq_refl)
    as (es & E & Hlen & Hents); [cbn; lia|..].
  { intros i m (lb & t & t' & Hlb & Hnum & [= ->]). cbn in Hlb. cbn [lg_submitted lg_confirmed].
    destruct (Nat.eqb_spec (S k) i) as [<-|Hne]; cbn [bm_hash bm_messages].
    - assert (lb_block lb = b) as Eb by congruence.
      exists lb, t, tx. split; [done|]. split; [done|]. do 2 f_equal. unfold block_msgs.
      cbn [lg_submitted lg_confirmed]. rewrite !(decide_True (P := (S k ≤ s)%nat)), (decide_False (P := (S k ≤ k)%nat)), decide_True
        by lia. cbn. by rewrite Eb.
    - exists lb, t, t'. split; [done|]. split; [done|]. do 2 f_equal. unfold block_msgs.
      cbn [lg_submitted lg_confirmed]. do 2 f_equal. destruct (decide (i ≤ k)%nat); [by rewrite decide_True by lia|by rewrite decide_False by lia]. }
  assert (Hkeys : ∀ j e, es !! j = Some e → e.1 = Z.of_nat (lo + j))
    by (intros j e Hj; by apply entry_key with (l := mkLedger bs s (S k)), Hents).
  unfold publish_confirmed in Hpub. apply bind_Ok in Hpub as (first & _ & [= <-]). cbn [with_buffer bs_buffer].
  change (Z.of_nat (S k)) with (nh_number nh). rewrite E. unfold buffer_from. rewrite filter_app. fold (buffer_from first es). rewrite (from_drop _ lo) by done.
  set (j0 := Z.to_nat (first - Z.of_nat lo)).
  pose proof (bo_length _ _ _ _ _ Hb) as Hl. cbn in Hl.
  exists (lo + min j0 (length es))%nat, (drop j0 es), (filter (λ p, first ≤ p.1) tail). split; cbn; [done|..].
  - intros j e Hj. rewrite lookup_drop in Hj. pose proof (lookup_lt_Some _ _ _ Hj).
    replace (lo + min j0 (length es) + j)%nat with (lo + (j0 + j))%nat by lia. by apply Hents.
  - rewrite length_drop. lia.
  - pose proof (bo_tail _ _ _ _ _ Hb) as Ht. cbn in Ht. destruct Ht as [->|(h & m & ms & -> & Hms)]; [by left|].
    destruct (decide (first ≤ Z.of_nat (length bs))).
    + rewrite filter_cons_True by done. right. exists h, m, ms. by rewrite filter_nil.
    + rewrite filter_cons_False by done. by left.
  - lia.
Qed.

Lemma mem_block_step bs s k sv m lo entries tail :
  buffer_ok (mkLedger bs s k) (bs_buffer sv) lo entries tail →
  bi_number (nm_block_info m) = Z.of_nat (length bs) →
  ∃ tail', buffer_ok (mkLedger bs s k) (bs_buffer (publish_next_mem_block m sv)) lo entries tail'.
Proof.
  intros Hb Hn. exists [(Z.of_nat (length bs), mkBlockMessages (zeros 32) [MsgNextMemBlock m])].
  destruct Hb as [Hsp He Hl Ht Hp] eqn:Eb. split; try done.
  - cbn [publish_next_mem_block with_buffer bs_buffer]. rewrite Hn, Hsp. apply insert_end; [|done].
    intros e. apply (entries_below _ _ _ _ _ Hb).
  - right. by eexists _, m, [].
Qed.
Lemma transaction_step l sv tx sv' lo entries tail :
  buffer_ok l (bs_buffer sv) lo entries tail → publish_transaction (E:=unit) tx sv = Ok sv' →
  ∃ tail', buffer_ok l (bs_buffer sv') lo entries tail'.
Proof.
  intros Hb Hpub. unfold publish_transaction in Hpub. pose proof (bo_tail _ _ _ _ _ Hb) as Ht.
  rewrite (bo_split _ _ _ _ _ Hb) in Hpub. destruct Ht as [->|(h & m & ms & -> & Hms)].
  - exists []. rewrite app_nil_r in Hpub.
    assert (E : bs_buffer sv' = bs_buffer sv); [|by rewrite E].
    rewrite (bo_split _ _ _ _ _ Hb), app_nil_r. destruct (last entries) as [[n msgs]|] eqn:El.
    + rewrite last_lookup in El. destruct (bo_entries _ _ _ _ _ Hb _ _ El) as (lb & t & t' & _ & _ & [= -> ->]).
      cbn in Hpub. by injection Hpub as <-.
    + by injection Hpub as <-.
  - rewrite last_snoc in Hpub. cbn [bm_messages head unwrap mbind outcome_bind] in Hpub. injection Hpub as <-.
    exists [(Z.of_nat (length (lg_blocks l)), mkBlockMessages h (MsgNextMemBlock m :: ms ++ [MsgPushTransaction tx]))].
    destruct Hb as [Hsp He Hl Ht Hp] eqn:Eb. split; try done.
    + cbn [with_buffer bs_buffer]. unfold buffer_push. rewrite fmap_app. f_equal.
      * apply (push_other (Z.of_nat (length (lg_blocks l))) (MsgPushTransaction tx) entries). intros e Hin.
        pose proof (entries_below _ _ _ _ _ Hb e Hin). lia.
      * cbn. by rewrite Z.eqb_refl.
    + right. eexists _, m, _. split; [done|]. apply Forall_app. split; [done|]. by constructor.
Qed.

Lemma server_step_ok l sv l' sv' :
  server_step (l, sv) (l', sv') →
  (∃ lo entries tail, buffer_ok l (bs_buffer sv) lo entries tail) →
  ∃ lo entries tail, buffer_ok l' (bs_buffer sv') lo entries tail.
Proof.
  intros Hstep (lo & entries & tail & Hb). inversion Hstep; subst.
  - destruct (local_step _ _ _ _ lb _ _ _ Hb) as (? & ?); eauto.
  - destruct (submitted_step _ _ _ _ nh tx _ _ _ Hb) as (? & ?); eauto.
  - by eapply confirmed_step.
  - destruct (mem_block_step _ _ _ _ m _ _ _ Hb) as (? & ?); eauto.
  - match goal with Ht : publish_transaction _ _ = _ |- _ =>
      destruct (transaction_step _ _ _ _ _ _ _ Hb Ht) as (? & ?) end. eauto.
Qed.

(** *** Replaying the buffer *)
(** The ledger of a node that has applied the messages of the blocks below [i] *)
Definition seen (l : Ledger) (n i : nat) : Ledger :=
  mkLedger (take i (lg_blocks l)) (max n (min (lg_submitted l) (pred i))) (max n (min (lg_confirmed l) (pred i))).

Lemma named_take bs s k i b :
  bs !! i = Some b → named (mkLedger (take (S i) bs) s k) (mkNumberHash (Z.of_nat i) (block_hash b)) = true.
Proof.
  intros Hb. apply bool_decide_eq_true. unfold number_hash. cbn [nh_number lg_blocks].
  by rewrite Nat2Z.id, lookup_take_lt, Hb by lia.
Qed.
Lemma follow_block l n i e :
  entry_ok l i e → (n < i)%nat → (n ≤ lg_confirmed l ≤ lg_submitted l)%nat →
  follow_all (seen l n i) (bm_messages e.2) = Some (seen l n (S i)).
Proof.
  intros (lb & t & t' & Hlb & Hnum & ->) Hni Hp. destruct l as [bs s k]. cbn [lg_blocks lg_submitted lg_confirmed snd bm_messages] in *.
  unfold block_msgs, seen. cbn [lg_blocks lg_submitted lg_confirmed pred]. cbn [follow_all follow].
  rewrite Hnum, Nat2Z.id, lookup_take_ge by lia. cbn [mbind option_bind].
  rewrite <- (take_S_r _ _ _ Hlb), follow_all_app.
  destruct (decide (i ≤ s)%nat) as [Hs|Hs]; cbn [follow_all follow mbind option_bind nh_number].
  - rewrite (named_take _ _ _ _ _ Hlb). cbn [mbind option_bind]. rewrite Nat2Z.id.
    destruct (decide (i ≤ k)%nat) as [Hk|Hk]; cbn [follow_all follow mbind option_bind nh_number].
    + rewrite (named_take _ _ _ _ _ Hlb). cbn [mbind option_bind]. rewrite Nat2Z.id. do 2 f_equal; lia.
    + do 2 f_equal; lia.
  - rewrite decide_False by lia. cbn. do 2 f_equal; lia.
Qed.
Lemma follow_entries l n entries i :
  (∀ j e, entries !! j = Some e → entry_ok l (i + j) e) → (n < i)%nat →
  (n ≤ lg_confirmed l ≤ lg_submitted l)%nat →
  follow_all (seen l n i) (concat (bm_messages ∘ snd <$> entries)) = Some (seen l n (i + length entries)).
Proof.
  revert i. induction entries as [|e entries IH]; intros i He Hni Hp; cbn [fmap list_fmap concat length].
  - by rewrite Nat.add_0_r.
  - rewrite follow_all_app. pose proof (He 0%nat e eq_refl) as He0. rewrite Nat.add_0_r in He0.
    cbn [compose]. rewrite (follow_block l n i e He0 Hni Hp). cbn [mbind option_bind].
    rewrite (IH (S i)); [by replace (S i + length entries)%nat with (i + S (length entries))%nat by lia| |lia|done].
    intros j e' Hj. replace (S i + j)%nat with (i + S j)%nat by lia. by apply He.
Qed.
Lemma follow_pool l ms : Forall pool_msg ms → follow_all l ms = Some l.
Proof.
  induction 1 as [|m ms Hm _ IH]; [done|]. cbn. destruct l as [bs s k], m; try done; cbn; exact IH.
Qed.

(** Messages about the block in the making do not change the ledger. *)
Lemma follow_shed l buffer : follow_all l (shed buffer) = follow_all l buffer.
Proof.
  unfold shed. destruct (_ && _); [|done]. revert l. induction buffer as [|m buffer IH]; intros l; [done|].
  rewrite filter_cons. destruct (decide (is_pool_msg m = false)).
  - cbn. destruct (follow l m); cbn; [apply IH|done].
  - rewrite IH. cbn. by destruct l, m.
Qed.
Lemma follow_received l msgs applied : received msgs applied → follow_all l applied = follow_all l msgs.
Proof.
  intros Hr.
  set (inv := λ x : list BlockSync * list BlockSync * list BlockSync,
    follow_all l x.2 ≫= λ l', follow_all l' x.1.2 ≫= λ l', follow_all l' x.1.1).
  assert (Hinv : ∀ x y, rtc recv_step x y → inv x = inv y).
  { induction 1 as [x|x y z Hs _ IH]; [done|]. rewrite <- IH. clear IH. unfold inv.
    destruct Hs as [m st buf out _|m st buf out]; cbn [fst snd].
    - destruct (follow_all l out) as [l1|]; [|done]. cbn. rewrite follow_shed, follow_all_app.
      destruct (follow_all l1 buf) as [l2|]; [|done]. cbn. by destruct (follow l2 m).
    - rewrite follow_all_app. destruct (follow_all l out) as [l1|]; [|done]. cbn.
      destruct (follow l1 m) as [l2|]; [|done]. cbn. by rewrite follow_shed. }
  specialize (Hinv _ _ Hr). unfold inv in Hinv. cbn in Hinv. rewrite Hinv.
  by destruct (follow_all l applied).
Qed.

Lemma buffer_get_entry l buf lo entries tail n m :
  buffer_ok l buf lo entries tail → (n < length (lg_blocks l))%nat →
  buffer_get (Z.of_nat n) buf = Some m → (lo ≤ n)%nat.
Proof.
  intros Hb Hn Hg. unfold buffer_get in Hg. destruct (list_find _ buf) as [[j e]|] eqn:Ef; [|done].
  apply list_find_Some in Ef as (Hj & Hk & _). rewrite (bo_split _ _ _ _ _ Hb) in Hj.
  apply lookup_app_Some in Hj as [Hj|[_ Hj]].
  - rewrite (entry_key _ _ _ (bo_entries _ _ _ _ _ Hb _ _ Hj)) in Hk. lia.
  - apply list_elem_of_lookup_2 in Hj. rewrite (tail_key _ _ _ _ _ Hb e Hj) in Hk. lia.
Qed.

(** What the server sends leads to its ledger. *)
Lemma messages_lead (l0 l : Ledger) (capacity : Z) (sv : BlockSyncServerState) (n : nat)
    (after : NumberHash) (msgs : list BlockSync) :
  (lg_confirmed l0 ≤ lg_submitted l0 < length (lg_blocks l0))%nat →
  rtc server_step (l0, new_server capacity) (l, sv) →
  number_hash l n = Some after → (n ≤ lg_confirmed l)%nat →
  get_and_subscribe after sv = Ok msgs →
  follow_all (mkLedger (take (S n) (lg_blocks l)) n n) msgs = Some l.
Proof.
  intros Hp0 Hsteps Hn Hk Hget.
  assert (Hinv : ∃ lo entries tail, buffer_ok l (bs_buffer sv) lo entries tail).
  { assert (H0' : ∃ lo entries tail, buffer_ok l0 (bs_buffer (new_server capacity)) lo entries tail).
    { exists (length (lg_blocks l0)), [], []. split; cbn; [done|done|lia|by left|done]. }
    remember (l0, new_server capacity) as x eqn:Ex. remember (l, sv) as y eqn:Ey.
    assert (Hgen : (∃ lo entries tail, buffer_ok x.1 (bs_buffer x.2) lo entries tail) →
                   ∃ lo entries tail, buffer_ok y.1 (bs_buffer y.2) lo entries tail).
    { clear -Hsteps. induction Hsteps as [[]|[l1 sv1] [l2 sv2] z Hs _ IH]; [done|].
      intros Hx. apply IH. by eapply server_step_ok. }
    subst x y. by apply Hgen. }
  destruct Hinv as (lo & entries & tail & Hb). apply number_hash_Some in Hn as (b & Hbn & ->).
  pose proof (lookup_lt_Some _ _ _ Hbn) as Hlt. pose proof (bo_positions _ _ _ _ _ Hb) as Hp.
  unfold get_and_subscribe in Hget. cbn [nh_number nh_block_hash] in Hget.
  destruct (buffer_get _ _) as [m|] eqn:Eg; [|done]. pose proof (buffer_get_entry _ _ _ _ _ _ _ Hb Hlt Eg) as Hlo.
  case_bool_decide; [|done]. apply bind_Ok in Hget as (first & Hfirst & [= <-]).
  assert (first = Z.of_nat (S n)) as ->.
  { unfold add_w, checked_add in Hfirst. case_match; [|done]. cbn in Hfirst. injection Hfirst as <-. lia. }
  rewrite (bo_split _ _ _ _ _ Hb). unfold buffer_from. rewrite filter_app, fmap_app, concat_app, follow_all_app.
  fold (buffer_from (Z.of_nat (S n)) entries). rewrite (from_drop _ lo).
  2: { intros j e Hj. apply (entry_key l). by apply (bo_entries _ _ _ _ _ Hb). }
  assert (Hstart : mkLedger (take (S n) (lg_blocks l)) n n = seen l n (S n))
    by (unfold seen; cbn; f_equal; lia).
  rewrite Hstart, (follow_entries l n _ (S n)); [|..|lia|lia].
  2: { intros j e Hj. rewrite lookup_drop in Hj. replace (S n + j)%nat with (lo + (Z.to_nat (Z.of_nat (S n) - Z.of_nat lo) + j))%nat by lia.
       by apply (bo_entries _ _ _ _ _ Hb). }
  pose proof (bo_length _ _ _ _ _ Hb) as Hl. rewrite length_drop.
  replace (S n + (length entries - Z.to_nat (Z.of_nat (S n) - Z.of_nat lo)))%nat with (length (lg_blocks l)) by lia.
  assert (Hend : seen l n (length (lg_blocks l)) = l).
  { unfold seen. rewrite take_ge by lia. destruct l as [bs s k]; cbn in *. f_equal; lia. }
  rewrite Hend. cbn [mbind option_bind]. apply follow_pool.
  destruct (bo_tail _ _ _ _ _ Hb) as [->|(h & m' & ms & -> & Hms)]; [done|].
  rewrite filter_cons_True by (cbn; lia). rewrite filter_nil. cbn. rewrite app_nil_r. by constructor.
Qed.
End Follow.

(** ** The client implements the messages *)
Section ClientProps.
Context {Mac : Type} `{MachineLaws Mac}.
Context `{Blake2b, Molecule, ContractArgs, SubstrateBn, SyscallCodec, MapIter, HashCodec, SmtRoot}.
Context `{SmtProof, CbmtBuild, RocksIter, MemPool, !Blake2bLength, !SmtRootLaws}.

(** Only the capacity of finalized custodians is written. *)
Lemma custodians_beside rc fc n db0 :
  kept (λ db, framed (λ key, ¬ per_block key.1) db0 db ∧ sd_block_leaves db = sd_block_leaves db0)
    (calculate_and_store_finalized_custodians rc fc n).
Proof.
  set (P := λ db, _). assert (Hget : ∀ A (f : Entity → option A) c k, kept P (get_as (E:=ChainError) f c k)) by (intros A f c k db Hdb; exact Hdb).
  assert (Hadd : ∀ numbers c, kept P (add_finalizing numbers c)).
  { induction numbers as [|i numbers IH]; intros c; cbn [add_finalizing]; [apply kept_ret|].
    apply kept_bind; [apply Hget|intros]. apply kept_bind; [apply kept_lift|intros].
    apply kept_bind; [apply kept_lift|intros; apply IH]. }
  unfold calculate_and_store_finalized_custodians. apply kept_if; [apply kept_ret|].
  repeat first [ apply Hadd | apply Hget | apply kept_lift | apply kept_gets | apply kept_bind; [|intros] | case_match ].
  intros db [F Hl]. split; [|done]. apply framed_insert; [|done]. intros Hx. apply Hx. right. by right.
Qed.

(** The blocks to skip are set once. *)
Lemma revert_to_skipped fuel n skipped :
  kept (λ x : Chain * StoreTx, ch_skipped_invalid_block_list x.1 = skipped) (revert_to fuel n).
Proof.
  set (P := λ x, _).
  assert (Hon : ∀ A (m : ST StoreDb ChainError A), kept P (on_db m)).
  { intros A m [c tx] Hx. unfold on_db. by destruct (m _). }
  assert (Hmod : ∀ f, (∀ c, ch_skipped_invalid_block_list (f c) = ch_skipped_invalid_block_list c) →
                  kept P (chain_modify f)).
  { intros f Hf [c tx] Hx. unfold P in *. cbn in *. by rewrite Hf. }
  assert (Hrev : ∀ fuel prev b, kept P (revert_l1action fuel (mkRevertedL1Action prev (SubmitValidBlock b)))).
  { intros fu prev b. unfold revert_l1action, revert_valid_block, assert_true, chain_gets. cbn [ra_context].
    repeat first [ apply Hon | apply Hmod; done | apply kept_lift | apply kept_gets | apply kept_ret
                 | apply kept_if | apply kept_bind; [|intros] | progress cbv zeta | case_match ]. }
  induction fuel as [|fuel IH]; cbn [revert_to]; (apply kept_bind; [apply kept_map_err, Hon|intros b]);
    apply kept_if; [apply kept_ret|apply kept_lift|apply kept_ret|].
  apply kept_bind; [apply kept_map_err, Hon|intros]. apply kept_bind; [apply kept_lift|intros].
  apply kept_bind; [apply kept_map_err, Hrev|intros; apply IH].
Qed.

(** The named block is the node's own. *)
Lemma check_number_hash_named nh cl snaps s k h :
  chain_inv (cl_chain cl) (cl_store cl) snaps s k h → u64 (nh_number nh) →
  ∃ e, check_number_hash nh cl =
    (if named (mkLedger (sn_block <$> snaps) s k) nh then Ok tt else Err e, cl).
Proof.
  intros Hi Hu. unfold check_number_hash, named, number_hash. cbn [lg_blocks].
  rewrite (st_bind_run (client_db _) _ _ (block_hash <$> (sn_block <$> snaps) !! Z.to_nat (nh_number nh)) cl).
  2: { unfold client_db. rewrite (read_hash_by_number _ _ (ci_holds _ _ _ _ _ _ Hi) _ Hu). by destruct cl. }
  destruct (_ !! _) as [b|]; [|by exists ClientNoBlockHash].
  rewrite (st_bind_run (lift _) _ _ (block_hash b) cl) by done. exists HashMismatch.
  unfold lift, reject_if. cbn. destruct nh as [n hash]. cbn in *.
  rewrite Z2Nat.id by (unfold in_width in Hu; lia).
  rewrite (bool_decide_ext (Some _ = Some _) (block_hash b = hash)) by (split; [by intros [= ->]|by intros ->]).
  by case_bool_decide.
Qed.

(** What the server's messages promise: numbers in range, the positions in order,
    and blocks with new hashes that descend from genesis without reverted blocks in
    between. *)
Definition sound_msg (fuel : nat) (cl : BlockSyncClient) (snaps : list Snap) (s k : nat) (msg : BlockSync) : Prop :=
  match msg with
  | MsgRevert nh => u64 (nh_number nh)
  | MsgSubmitted nh _ => u64 (nh_number nh) ∧ (k ≤ Z.to_nat (nh_number nh))%nat
  | MsgConfirmed nh _ => u64 (nh_number nh) ∧ (Z.to_nat (nh_number nh) ≤ s)%nat
  | MsgLocalBlock l =>
      let n := Z.to_nat (block_number (lb_block l)) in
      u64 (block_number (lb_block l)) ∧ (length snaps ≤ fuel + n)%nat ∧ same_reverted snaps (pred n) ∧
      fresh_block (cl_chain cl) (take n snaps) (lb_block l)
  | MsgNextMemBlock _ | MsgPushTransaction _ => True
  end.

(** Applying a block of the server *)
Lemma update_block_extends l c db base snaps s k h c' tx' :
  chain_inv c db snaps s k h → fresh_block c snaps (lb_block l) →
  update_block (Mac:=Mac) l (c, mkStoreTx base db) = (Ok tt, (c', tx')) →
  h256_is_zero (tree_get (sd_account_tree (tx_db tx')) root_key) = false →
  ∃ sn h', sn_block sn = lb_block l ∧ chain_inv c' (tx_db tx') (snaps ++ [sn]) s k h'.
Proof.
  intros Hi Hf Hrun Hz. unfold update_block in Hrun.
  apply st_bind_Ok in Hrun as ([] & [c1 tx1] & E1 & Hrun).
  apply st_bind_Ok in Hrun as (c2 & x2 & [-> ->]%chain_gets_Ok & Hrun). cbn [fst id] in Hrun.
  pose proof (custodians_beside (ch_rollup_config c1) (fork_config (g_rollup_context (ch_generator c1)))
    (block_number (lb_block l)) (tx_db tx1) (tx_db tx1) (conj (framed_start _ _) eq_refl)) as Hb.
  apply on_db_Ok in Hrun as (db2 & E2 & [= -> ->]). cbn [snd] in E2. rewrite E2 in Hb. cbn in *.
  destruct Hb as [F Hl]. rewrite (fr_tree _ _ _ F) in Hz.
  destruct (update_local_extends _ _ _ _ _ _ _ _ _ _ _ _ _ _ Hi Hf E1 Hz) as (_ & _ & _ & h' & Hi').
  eexists _, h'. split; [|by apply (chain_inv_beside _ (tx_db tx1))]. done.
Qed.

Lemma client_tx_Ok {E} (m : ST (Chain * StoreTx) E unit) cl cl' u :
  client_tx m cl = (Ok u, cl') →
  ∃ c tx, m (cl_chain cl, mkStoreTx (cl_store cl) (cl_store cl)) = (Ok tt, (c, tx)) ∧ cl' = on_client c (tx_db tx) cl.
Proof.
  unfold client_tx. destruct (m _) as [[[]| |] [c tx]]; try done. intros [= _ <-]. eauto.
Qed.
Lemma client_notify_Ok cl cl' u :
  client_notify_new_tip cl = (Ok u, cl') → cl_chain cl' = cl_chain cl ∧ cl_store cl' = cl_store cl.
Proof.
  unfold client_notify_new_tip. intros (x & cl0 & [= <- <-] & Hrun)%st_bind_Ok.
  apply st_bind_Ok in Hrun as (v & cl1 & E1 & [= _ <-]). cbn. unfold id in E1.
  destruct (cl_mem_pool cl); [|by injection E1 as _ <-].
  apply st_bind_Ok in E1 as (t & cl2 & E2 & [_ <-]%lift_Ok). unfold client_db in E2.
  assert (Hk : kept (λ d, d = cl_store cl) (get_last_valid_tip_block_hash (E:=ClientError))).
  { apply kept_bind; [by intros d|intros []; apply kept_lift]. }
  specialize (Hk _ eq_refl). destruct (get_last_valid_tip_block_hash (cl_store cl)) as [r db].
  injection E2 as -> <-. by cbn in *.
Qed.

(** A known block is skipped, a new block at a known height takes the place of the
    blocks from that height on, any other block is appended. *)
Lemma handle_local_block_refines fuel l cl cl' snaps s k h :
  chain_inv (cl_chain cl) (cl_store cl) snaps s k h → sound_msg fuel cl snaps s k (MsgLocalBlock l) →
  handle_local_block (Mac:=Mac) fuel l cl = (Ok tt, cl') →
  h256_is_zero (tree_get (sd_account_tree (cl_store cl')) root_key) = false →
  ∃ snaps' s' k' h', chain_inv (cl_chain cl') (cl_store cl') snaps' s' k' h' ∧
    follow (mkLedger (sn_block <$> snaps) s k) (MsgLocalBlock l) = Some (mkLedger (sn_block <$> snaps') s' k').
Proof.
  intros Hi (Hu & Hfuel & Hsame & Hf) Hrun Hz. unfold handle_local_block in Hrun.
  apply st_bind_Ok in Hrun as (found & cl1 & E1 & Hrun). unfold client_db in E1.
  rewrite (read_hash_by_number _ _ (ci_holds _ _ _ _ _ _ Hi) _ Hu) in E1. injection E1 as <- <-.
  cbn [follow lg_blocks] in *. set (b := lb_block l) in *. set (n := Z.to_nat (block_number b)) in *.
  replace (on_client _ _ cl) with cl in Hrun by (by destruct cl).
  destruct ((sn_block <$> snaps) !! n) as [b'|] eqn:Eb; cbn [fmap option_fmap option_map] in Hrun.
  - case_bool_decide as Eh.
    { injection Hrun as <-. by exists snaps, s, k, h. }
    apply lookup_lt_Some in Eb. rewrite length_fmap in Eb.
    apply st_bind_Ok in Hrun as (last_valid & cl1 & [El <-]%lift_Ok & Hrun).
    unfold sub_w, checked_sub in El. destruct (Z.leb_spec 1 (block_number b)); [|done]. cbn in El. injection El as <-.
    apply st_bind_Ok in Hrun as ([] & cl1 & (c1 & tx1 & Er & ->)%client_tx_Ok & Hrun).
    replace (block_number b - 1) with (Z.of_nat (pred n)) in Er by lia.
    pose proof (revert_to_skipped fuel (Z.of_nat (pred n)) (ch_skipped_invalid_block_list (cl_chain cl))
      (cl_chain cl, mkStoreTx (cl_store cl) (cl_store cl)) eq_refl) as Hskip.
    destruct (revert_to_run fuel (pred n) _ _ (cl_store cl) _ _ _ _ Hi) as (c2 & db2 & h2 & E2 & Hi2 & _); [lia|done|lia|].
    rewrite Er in E2, Hskip. injection E2 as -> ->. cbn in Hskip. replace (S (pred n)) with n in Hi2 by lia.
    apply st_bind_Ok in Hrun as ([] & cl2 & (c3 & tx3 & Eu & ->)%client_tx_Ok & [Ec Es]%client_notify_Ok).
    cbn in Eu, Ec, Es. rewrite Es in Hz. rewrite Ec, Es.
    assert (Hf2 : fresh_block c2 (take n snaps) b) by (destruct Hf; split; try done; by rewrite Hskip).
    destruct (update_block_extends _ _ _ _ _ _ _ _ _ _ Hi2 Hf2 Eu Hz) as (sn & h3 & Esn & Hi3).
    eexists _, _, _, h3. split; [exact Hi3|]. rewrite fmap_app, fmap_take. cbn. by rewrite Esn.
  - apply st_bind_Ok in Hrun as ([] & cl2 & (c3 & tx3 & Eu & ->)%client_tx_Ok & [Ec Es]%client_notify_Ok).
    cbn in Eu, Ec, Es. rewrite Es in Hz. rewrite Ec, Es.
    apply lookup_ge_None in Eb. rewrite length_fmap in Eb. rewrite take_ge in Hf by lia.
    destruct (update_block_extends _ _ _ _ _ _ _ _ _ _ Hi Hf Eu Hz) as (sn & h3 & Esn & Hi3).
    eexists _, _, _, h3. split; [exact Hi3|]. rewrite fmap_app. cbn. by rewrite Esn.
Qed.

(** The positions as the messages move them *)
Lemma positions_refine fuel msg cl snaps s k h :
  chain_inv (cl_chain cl) (cl_store cl) snaps s k h → sound_msg fuel cl snaps s k msg →
  (∀ l, msg ≠ MsgLocalBlock l) →
  match follow (mkLedger (sn_block <$> snaps) s k) msg with
  | Some l' => ∃ cl' s' k', apply_msg (Mac:=Mac) fuel msg cl = (Ok tt, cl') ∧
      chain_inv (cl_chain cl') (cl_store cl') snaps s' k' h ∧ l' = mkLedger (sn_block <$> snaps) s' k'
  | None => ∃ e, apply_msg (Mac:=Mac) fuel msg cl = (Err e, cl)
  end.
Proof.
  intros Hi Hs Hl. set (l := mkLedger _ s k).
  assert (Hn : ∀ nh, named l nh = true →
    number_hash l (Z.to_nat (nh_number nh)) = Some nh ∧ (Z.to_nat (nh_number nh) < length snaps)%nat).
  { intros nh Hn%bool_decide_eq_true. split; [done|]. unfold number_hash in Hn. cbn in Hn.
    destruct (_ !! _) eqn:Eb; [|done]. apply lookup_lt_Some in Eb. by rewrite length_fmap in Eb. }
  pose proof (lo_positions _ (ho_ok _ _ (ci_holds _ _ _ _ _ _ Hi))) as Hp. cbn in Hp. rewrite length_fmap in Hp.
  destruct msg as [nh|lb|nh t|nh t|m|t]; cbn [apply_msg sound_msg follow l] in *; fold l; try (by destruct (Hl lb)).
  4,5: by exists cl, s, k.
  all: destruct (check_number_hash_named nh cl snaps s k h Hi) as [e Ec]; [tauto|]; fold l in Ec.
  all: destruct (named l nh) eqn:En; [|exists e; by unfold mbind, ST_bind; rewrite Ec].
  all: rewrite (st_bind_run _ _ _ _ _ Ec); destruct (Hn _ En) as [Hnh Hlt]; eexists _, _, _; split; [done|]; split; [|done].
  - apply (chain_inv_framed _ (cl_store cl) _ _ s k); [done|..].
    + exact (holds_positioned _ _ _ _ _ _ (ci_holds _ _ _ _ _ _ Hi) Hnh).
    + exact (positioned_framed nh (cl_store cl)).
  - apply (submit_hash_inv (nh_number nh) t) in Hi.
    refine (move_position_inv _ _ _ _ _ _ (Z.to_nat (nh_number nh)) k
      META_LAST_SUBMITTED_BLOCK_NUMBER_HASH_KEY nh Hi _ _); [lia|by left].
  - refine (move_position_inv _ _ _ _ _ _ s (Z.to_nat (nh_number nh))
      META_LAST_CONFIRMED_BLOCK_NUMBER_HASH_KEY nh Hi _ _); [lia|by right].
Qed.

(** C11. A read-only node implements the messages: from a store that holds a chain
    with its positions, a message it applies leaves a store that holds exactly the
    ledger the message means (a revert moves both positions, a submission or a
    confirmation moves its own, a block that is known changes nothing, a block at a
    known height replaces the blocks from there on, a further block is appended).  A
    message about a position is applied exactly when the block it names is the one of
    the node's chain, and otherwise changes nothing.  The messages are those of the
    protocol ([sound_msg]): numbers are u64, a submitted position is not below the confirmed one and
    a confirmed one not above the submitted, and a new block is fresh for the chain it
    continues and leaves account zero registered. *)
Theorem client_refines_ledger (fuel : nat) (msg : BlockSync) (cl : BlockSyncClient) (snaps : list Snap)
    (s k : nat) (h : hist) :
  chain_inv (cl_chain cl) (cl_store cl) snaps s k h → sound_msg fuel cl snaps s k msg →
  let l := mkLedger (sn_block <$> snaps) s k in
  let '(r, cl') := apply_msg (Mac:=Mac) fuel msg cl in
  (r = Ok tt → h256_is_zero (tree_get (sd_account_tree (cl_store cl')) root_key) = false →
   ∃ snaps' s' k' h', chain_inv (cl_chain cl') (cl_store cl') snaps' s' k' h' ∧
     follow l msg = Some (mkLedger (sn_block <$> snaps') s' k')) ∧
  ((∀ lb, msg ≠ MsgLocalBlock lb) → (r = Ok tt ↔ is_Some (follow l msg)) ∧ (r ≠ Ok tt → cl' = cl)).
Proof.
  intros Hi Hs l. destruct (apply_msg fuel msg cl) as [r cl'] eqn:Hrun.
  assert (Hd : (∃ lb, msg = MsgLocalBlock lb) ∨ ¬ ∃ lb, msg = MsgLocalBlock lb)
    by (destruct msg; first [by left; eexists|by right; intros []]). destruct Hd as [[lb ->]|Hl].
  - split; [|by intros Hl; destruct (Hl lb)]. intros -> Hz. by eapply handle_local_block_refines.
  - pose proof (positions_refine fuel msg cl snaps s k h Hi Hs) as Hpos. fold l in Hpos. rewrite Hrun in Hpos.
    specialize (Hpos (λ lb E, Hl (ex_intro _ lb E))). destruct (follow l msg) as [l'|].
    + destruct Hpos as (cl1 & s' & k' & [= -> <-] & Hi' & ->). split; [intros; by exists snaps, s', k', h|].
      intros _. split; [|done]. split; [by eexists|done].
    + destruct Hpos as (e & [= -> ->]). split; [done|]. intros _. split; [|done].
      split; [done|by intros [? ?]].
Qed.
End ClientProps.
