(* ===== verification/MemBlock.v ===== *)
(** * The block in the making (crates/mem-pool/src/mem_block.rs)

    The memory pool executes withdrawals, deposits and transactions as they come
    and records what they did: hashes, the account state after each, the keys they
    touched.  When a block is due, [package_mem_block] (pool.rs) hands out this
    record, or the first part of it when the whole makes too large a block.

    The invariant [mem_block_ok] relates the fields to the sequence of account
    states; [package_mem_block_prefix] shows that what is handed out is such a
    record of the first items, with the account state they lead to. *)
From Stdlib Require Import ZArith Lia Strings.Byte.
From stdpp Require Import prelude list gmap.
From S2P Require Import Prelude Bytes Types State StateSpec StateDB History Finality Ckb Eip712.
From S2P Require Import SubmitBlock RollupScript ChallengeLock NodeUtils NodeState AccountLocks Backends Syscalls Generator Verifiers Store ChallengeContext Chain ChainUpdater.
Local Open Scope Z_scope.

Record MemBlockContent := mkMemBlockContent {
  mc_withdrawals : list H256; mc_txs : list H256; mc_new_addresses : list RegistryAddress;
}.
Record MemBlock := mkMemBlock {
  mb_block_producer : RegistryAddress;
  mb_txs : list H256;
  mb_txs_set : gset H256;
  mb_withdrawals : list H256;
  mb_finalized_custodian_capacity : FinalizedCustodianCapacity;
  mb_withdrawals_set : gset H256;
  mb_deposits : list DepositInfo;
  mb_state_checkpoints : list H256;
  mb_txs_prev_state_checkpoint : option H256;
  mb_block_info : BlockInfo;
  mb_prev_merkle_state : AccountMerkleState;
  mb_touched_keys : gset H256;
  mb_withdrawal_post_states : list AccountMerkleState;
  mb_deposit_post_states : list AccountMerkleState;
  mb_tx_post_states : list AccountMerkleState;
  mb_withdrawal_touched_keys_vec : list (list H256);
  mb_deposit_touched_keys_vec : list (list H256);
  mb_new_addresses : list RegistryAddress;
  mb_enforce_checkpoints : bool;
}.

(** [Default::default()] *)
Definition no_capacity : FinalizedCustodianCapacity := mkFinalizedCustodianCapacity 0 ∅.
Definition no_block_info : BlockInfo := mkBlockInfo [] 0 0.
Definition no_account : AccountMerkleState := mkAccountMerkleState h256_zero 0.
Definition capacity_is_empty (c : FinalizedCustodianCapacity) : bool :=
  (fc_capacity c =? 0) && bool_decide (fc_sudt c = ∅).
Definition empty_mem_block (producer : RegistryAddress) (info : BlockInfo) (prev : AccountMerkleState)
    (enforce : bool) : MemBlock :=
  mkMemBlock producer [] ∅ [] no_capacity ∅ [] [] None info prev ∅ [] [] [] [] [] [] enforce.

(** ** Operations *)
Section Ops.
Context `{Blake2b} {E : Type}.
Local Abbreviation M := (outcome E).

Definition MemBlock_new (info : BlockInfo) (prev : AccountMerkleState) (enforce : bool) : M MemBlock :=
  producer ← unwrap (RegistryAddress_from_slice (bi_block_producer info));
  Ok (empty_mem_block producer info prev enforce).
Definition with_block_producer (producer : RegistryAddress) : MemBlock :=
  empty_mem_block producer no_block_info no_account false.

Definition clear (mb : MemBlock) : MemBlock :=
  empty_mem_block (mb_block_producer mb) (mb_block_info mb) (mb_prev_merkle_state mb)
    (mb_enforce_checkpoints mb).
(** [estimated_timestamp] in milliseconds *)
Definition mem_block_reset (tip : L2Block) (estimated_timestamp : Z) (mb : MemBlock) :
    M (MemBlockContent * MemBlock) :=
  number ← add_w 64 (block_number tip) 1;
  producer ← RegistryAddress_to_bytes (mb_block_producer mb);
  let info := mkBlockInfo producer number (estimated_timestamp mod 2 ^ 64) in
  let content := mkMemBlockContent (mb_withdrawals mb) (mb_txs mb) (mb_new_addresses mb) in
  Ok (content, empty_mem_block (mb_block_producer mb) info (post_account (block_raw tip))
                 (mb_enforce_checkpoints mb)).

Definition checkpoint_of_state (s : AccountMerkleState) : H256 :=
  calculate_state_checkpoint_of (am_merkle_root s) (am_count s).

Definition append_touched_keys (keys : list H256) (mb : MemBlock) : MemBlock :=
  mkMemBlock (mb_block_producer mb) (mb_txs mb) (mb_txs_set mb) (mb_withdrawals mb)
    (mb_finalized_custodian_capacity mb) (mb_withdrawals_set mb) (mb_deposits mb)
    (mb_state_checkpoints mb) (mb_txs_prev_state_checkpoint mb) (mb_block_info mb)
    (mb_prev_merkle_state mb) (mb_touched_keys mb ∪ list_to_set keys) (mb_withdrawal_post_states mb)
    (mb_deposit_post_states mb) (mb_tx_post_states mb) (mb_withdrawal_touched_keys_vec mb)
    (mb_deposit_touched_keys_vec mb) (mb_new_addresses mb) (mb_enforce_checkpoints mb).
Definition append_new_addresses (addrs : list RegistryAddress) (mb : MemBlock) : MemBlock :=
  mkMemBlock (mb_block_producer mb) (mb_txs mb) (mb_txs_set mb) (mb_withdrawals mb)
    (mb_finalized_custodian_capacity mb) (mb_withdrawals_set mb) (mb_deposits mb)
    (mb_state_checkpoints mb) (mb_txs_prev_state_checkpoint mb) (mb_block_info mb)
    (mb_prev_merkle_state mb) (mb_touched_keys mb) (mb_withdrawal_post_states mb)
    (mb_deposit_post_states mb) (mb_tx_post_states mb) (mb_withdrawal_touched_keys_vec mb)
    (mb_deposit_touched_keys_vec mb) (foldr set_insert (mb_new_addresses mb) addrs)
    (mb_enforce_checkpoints mb).

Definition push_withdrawal (withdrawal_hash : H256) (post_state : AccountMerkleState)
    (touched_keys : list H256) (mb : MemBlock) : M MemBlock :=
  assert_that (bool_decide (mb_txs mb = [])) ;;
  assert_that (bool_decide (length (mb_deposits mb) = 0%nat)) ;;
  Ok (append_touched_keys touched_keys
    (mkMemBlock (mb_block_producer mb) (mb_txs mb) (mb_txs_set mb)
       (mb_withdrawals mb ++ [withdrawal_hash]) (mb_finalized_custodian_capacity mb)
       ({[withdrawal_hash]} ∪ mb_withdrawals_set mb) (mb_deposits mb)
       (mb_state_checkpoints mb ++ [checkpoint_of_state post_state]) (mb_txs_prev_state_checkpoint mb)
       (mb_block_info mb) (mb_prev_merkle_state mb) (mb_touched_keys mb)
       (mb_withdrawal_post_states mb ++ [post_state]) (mb_deposit_post_states mb)
       (mb_tx_post_states mb) (mb_withdrawal_touched_keys_vec mb ++ [touched_keys])
       (mb_deposit_touched_keys_vec mb) (mb_new_addresses mb) (mb_enforce_checkpoints mb))).

(** [if !set.contains(h) { set.insert(h); list.push(h) }] *)
Definition reinject (hashes : list H256) (s : gset H256 * list H256) : gset H256 * list H256 :=
  foldl (λ s h, if bool_decide (h ∈ s.1) then s else ({[h]} ∪ s.1, s.2 ++ [h])) s hashes.
Definition force_reinject_withdrawal_hashes (hashes : list H256) (mb : MemBlock) : M MemBlock :=
  assert_that (bool_decide (mb_withdrawals mb = [])) ;;
  assert_that (bool_decide (mb_state_checkpoints mb = [])) ;;
  assert_that (bool_decide (length (mb_deposits mb) = 0%nat)) ;;
  assert_that (bool_decide (mb_txs mb = [])) ;;
  let '(ws_set, ws) := reinject hashes (mb_withdrawals_set mb, mb_withdrawals mb) in
  Ok (mkMemBlock (mb_block_producer mb) (mb_txs mb) (mb_txs_set mb) ws
        (mb_finalized_custodian_capacity mb) ws_set (mb_deposits mb) (mb_state_checkpoints mb)
        (mb_txs_prev_state_checkpoint mb) (mb_block_info mb) (mb_prev_merkle_state mb)
        (mb_touched_keys mb) (mb_withdrawal_post_states mb) (mb_deposit_post_states mb)
        (mb_tx_post_states mb) (mb_withdrawal_touched_keys_vec mb) (mb_deposit_touched_keys_vec mb)
        (mb_new_addresses mb) (mb_enforce_checkpoints mb)).
Definition force_reinject_tx_hashes (hashes : list H256) (mb : MemBlock) : MemBlock :=
  let '(txs_set, txs) := reinject hashes (mb_txs_set mb, mb_txs mb) in
  mkMemBlock (mb_block_producer mb) txs txs_set (mb_withdrawals mb)
    (mb_finalized_custodian_capacity mb) (mb_withdrawals_set mb) (mb_deposits mb)
    (mb_state_checkpoints mb) (mb_txs_prev_state_checkpoint mb) (mb_block_info mb)
    (mb_prev_merkle_state mb) (mb_touched_keys mb) (mb_withdrawal_post_states mb)
    (mb_deposit_post_states mb) (mb_tx_post_states mb) (mb_withdrawal_touched_keys_vec mb)
    (mb_deposit_touched_keys_vec mb) (mb_new_addresses mb) (mb_enforce_checkpoints mb).

Definition with_custodians (c : FinalizedCustodianCapacity) (mb : MemBlock) : MemBlock :=
  mkMemBlock (mb_block_producer mb) (mb_txs mb) (mb_txs_set mb) (mb_withdrawals mb) c
    (mb_withdrawals_set mb) (mb_deposits mb) (mb_state_checkpoints mb)
    (mb_txs_prev_state_checkpoint mb) (mb_block_info mb) (mb_prev_merkle_state mb)
    (mb_touched_keys mb) (mb_withdrawal_post_states mb) (mb_deposit_post_states mb)
    (mb_tx_post_states mb) (mb_withdrawal_touched_keys_vec mb) (mb_deposit_touched_keys_vec mb)
    (mb_new_addresses mb) (mb_enforce_checkpoints mb).
Definition set_finalized_custodian_capacity (c : FinalizedCustodianCapacity) (mb : MemBlock) : M MemBlock :=
  assert_that (capacity_is_empty (mb_finalized_custodian_capacity mb)) ;;
  Ok (with_custodians c mb).
Definition take_finalized_custodians_capacity (mb : MemBlock) : FinalizedCustodianCapacity * MemBlock :=
  (mb_finalized_custodian_capacity mb, with_custodians no_capacity mb).

Definition push_deposits (deposit_cells : list DepositInfo) (post_states : list AccountMerkleState)
    (touched_keys_vec : list (list H256)) (txs_prev_state_checkpoint : H256) (mb : MemBlock) :
    M MemBlock :=
  assert_that (bool_decide (mb_txs_prev_state_checkpoint mb = None)) ;;
  assert_that (length deposit_cells =? length post_states)%nat ;;
  assert_that (length deposit_cells =? length touched_keys_vec)%nat ;;
  (if mb_enforce_checkpoints mb then
     match last post_states with
     | Some txs_prev_state =>
         assert_that (bool_decide (checkpoint_of_state txs_prev_state = txs_prev_state_checkpoint))
     | None => Ok tt
     end
   else Ok tt) ;;
  Ok (append_touched_keys (concat touched_keys_vec)
    (mkMemBlock (mb_block_producer mb) (mb_txs mb) (mb_txs_set mb) (mb_withdrawals mb)
       (mb_finalized_custodian_capacity mb) (mb_withdrawals_set mb) deposit_cells
       (mb_state_checkpoints mb) (Some txs_prev_state_checkpoint) (mb_block_info mb)
       (mb_prev_merkle_state mb) (mb_touched_keys mb) (mb_withdrawal_post_states mb) post_states
       (mb_tx_post_states mb) (mb_withdrawal_touched_keys_vec mb) touched_keys_vec
       (mb_new_addresses mb) (mb_enforce_checkpoints mb))).

Definition push_tx (tx_hash : H256) (post_state : AccountMerkleState) (mb : MemBlock) : MemBlock :=
  mkMemBlock (mb_block_producer mb) (mb_txs mb ++ [tx_hash]) ({[tx_hash]} ∪ mb_txs_set mb)
    (mb_withdrawals mb) (mb_finalized_custodian_capacity mb) (mb_withdrawals_set mb)
    (mb_deposits mb) (mb_state_checkpoints mb ++ [checkpoint_of_state post_state])
    (mb_txs_prev_state_checkpoint mb) (mb_block_info mb) (mb_prev_merkle_state mb)
    (mb_touched_keys mb) (mb_withdrawal_post_states mb) (mb_deposit_post_states mb)
    (mb_tx_post_states mb ++ [post_state]) (mb_withdrawal_touched_keys_vec mb)
    (mb_deposit_touched_keys_vec mb) (mb_new_addresses mb) (mb_enforce_checkpoints mb).
Definition clear_txs (mb : MemBlock) : MemBlock :=
  mkMemBlock (mb_block_producer mb) [] ∅ (mb_withdrawals mb) (mb_finalized_custodian_capacity mb)
    (mb_withdrawals_set mb) (mb_deposits mb) [] None (mb_block_info mb) (mb_prev_merkle_state mb) ∅
    (mb_withdrawal_post_states mb) (mb_deposit_post_states mb) []
    (mb_withdrawal_touched_keys_vec mb) (mb_deposit_touched_keys_vec mb) (mb_new_addresses mb)
    (mb_enforce_checkpoints mb).

(** ** Packaging *)
(** [vec![prev].chain(withdrawals).chain(deposits).chain(txs).last().unwrap()] *)
Definition final_state (mb : MemBlock) : AccountMerkleState :=
  default (mb_prev_merkle_state mb)
    (last (mb_withdrawal_post_states mb ++ mb_deposit_post_states mb ++ mb_tx_post_states mb)).

Definition push_withdrawals (items : list (H256 * list H256 * AccountMerkleState)) (mb : MemBlock) :
    M MemBlock :=
  foldM (λ mb '(hash, touched_keys, post_state), push_withdrawal hash post_state touched_keys mb) mb items.
Definition push_txs (items : list (H256 * AccountMerkleState)) (mb : MemBlock) : MemBlock :=
  foldl (λ mb '(hash, post_state), push_tx hash post_state mb) mb items.

Definition repackage (withdrawals_count deposits_count txs_count : nat) (mb : MemBlock) :
    M (MemBlock * AccountMerkleState) :=
  assert_that (length (mb_withdrawal_post_states mb) =? length (mb_withdrawals mb))%nat ;;
  assert_that (length (mb_withdrawal_touched_keys_vec mb) =? length (mb_withdrawals mb))%nat ;;
  assert_that (length (mb_deposit_post_states mb) =? length (mb_deposits mb))%nat ;;
  assert_that (length (mb_deposit_touched_keys_vec mb) =? length (mb_deposits mb))%nat ;;
  assert_that (length (mb_tx_post_states mb) =? length (mb_txs mb))%nat ;;
  if (withdrawals_count =? length (mb_withdrawals mb))%nat && (deposits_count =? length (mb_deposits mb))%nat
     && (txs_count =? length (mb_txs mb))%nat
  then Ok (mb, final_state mb)
  else
    (if negb (deposits_count =? length (mb_deposits mb))%nat
     then assert_that (txs_count =? 0)%nat else Ok tt) ;;
    (if negb (withdrawals_count =? length (mb_withdrawals mb))%nat
     then assert_that (txs_count =? 0)%nat ;; assert_that (deposits_count =? 0)%nat else Ok tt) ;;
    let new := empty_mem_block (mb_block_producer mb) (mb_block_info mb) (mb_prev_merkle_state mb) false in
    new ← push_withdrawals
      (take withdrawals_count
         (zip (zip (mb_withdrawals mb) (mb_withdrawal_touched_keys_vec mb)) (mb_withdrawal_post_states mb)))
      new;
    let new := with_custodians (mb_finalized_custodian_capacity mb) new in
    let deposit_post_states := take deposits_count (mb_deposit_post_states mb) in
    let packaged := mb_prev_merkle_state mb :: take withdrawals_count (mb_withdrawal_post_states mb)
                    ++ deposit_post_states in
    state ← unwrap (last packaged);
    new ← push_deposits (take deposits_count (mb_deposits mb)) deposit_post_states
      (take deposits_count (mb_deposit_touched_keys_vec mb)) (checkpoint_of_state state) new;
    let txs := take txs_count (zip (mb_txs mb) (mb_tx_post_states mb)) in
    post_state ← unwrap (last (packaged ++ txs.*2));
    Ok (push_txs txs new, post_state).

(** *** How much of it (pool.rs) *)
Definition repackage_count (mb : MemBlock) (retry_count : Z) : M (nat * nat * nat) :=
  let total := (length (mb_withdrawals mb) + length (mb_deposits mb) + length (mb_txs mb))%nat in
  assert_that (retry_count <? 64) ;;
  let remain := Z.to_nat (Z.shiftr (Z.of_nat total) retry_count) in
  let remain := if (remain =? 0)%nat then 1%nat else remain in
  let withdrawals_count := length (take remain (mb_withdrawals mb)) in
  let remain := (remain - withdrawals_count)%nat in
  let deposits_count := length (take remain (mb_deposits mb)) in
  let remain := (remain - deposits_count)%nat in
  Ok (withdrawals_count, deposits_count, length (take remain (mb_txs mb))).
Definition package_mem_block (mb : MemBlock) (retry_count : Z) : M (MemBlock * AccountMerkleState) :=
  '(withdrawals_count, deposits_count, txs_count) ← repackage_count mb retry_count;
  repackage withdrawals_count deposits_count txs_count mb.
End Ops.

(** ** The record agrees with the states *)
Section Invariant.
Context `{Blake2b} {E : Type}.

(** The account state the transactions start from *)
Definition txs_prev_state (mb : MemBlock) : AccountMerkleState :=
  default (mb_prev_merkle_state mb) (last (mb_withdrawal_post_states mb ++ mb_deposit_post_states mb)).

Record mem_block_ok (mb : MemBlock) : Prop := {
  mbo_withdrawal_posts : length (mb_withdrawal_post_states mb) = length (mb_withdrawals mb);
  mbo_withdrawal_keys : length (mb_withdrawal_touched_keys_vec mb) = length (mb_withdrawals mb);
  mbo_deposit_posts : length (mb_deposit_post_states mb) = length (mb_deposits mb);
  mbo_deposit_keys : length (mb_deposit_touched_keys_vec mb) = length (mb_deposits mb);
  mbo_tx_posts : length (mb_tx_post_states mb) = length (mb_txs mb);
  mbo_checkpoints : mb_state_checkpoints mb
    = checkpoint_of_state <$> mb_withdrawal_post_states mb ++ mb_tx_post_states mb;
  mbo_withdrawals_set : mb_withdrawals_set mb = list_to_set (mb_withdrawals mb);
  mbo_txs_set : mb_txs_set mb = list_to_set (mb_txs mb);
  mbo_touched_keys : mb_touched_keys mb
    = list_to_set (concat (mb_withdrawal_touched_keys_vec mb ++ mb_deposit_touched_keys_vec mb));
  mbo_txs_prev : match mb_txs_prev_state_checkpoint mb with
    | Some c => c = checkpoint_of_state (txs_prev_state mb)
    | None => mb_deposits mb = [] ∧ mb_txs mb = []
    end;
}.

Lemma empty_mem_block_ok producer info prev enforce :
  mem_block_ok (empty_mem_block producer info prev enforce).
Proof. by constructor. Qed.
Lemma MemBlock_new_ok info prev enforce mb :
  MemBlock_new (E:=E) info prev enforce = Ok mb → mem_block_ok mb.
Proof. unfold MemBlock_new. intros ?. inv_ok. apply empty_mem_block_ok. Qed.
Lemma mem_block_reset_ok tip t mb content mb' :
  mem_block_reset (E:=E) tip t mb = Ok (content, mb') →
  mem_block_ok mb' ∧ mb_prev_merkle_state mb' = post_account (block_raw tip)
  ∧ bi_number (mb_block_info mb') = block_number tip + 1.
Proof.
  unfold mem_block_reset. intros ?. inv_ok. simplify_eq. split; [apply empty_mem_block_ok|].
  split; [done|]. cbn. match goal with Ha : add_w _ _ _ = Ok _ |- _ => apply unwrap_Ok, checked_add_Some in Ha; lia end.
Qed.

(** What only the withdrawals change *)
Definition same_but_withdrawals (mb mb' : MemBlock) : Prop :=
  mb_block_producer mb' = mb_block_producer mb ∧ mb_block_info mb' = mb_block_info mb
  ∧ mb_prev_merkle_state mb' = mb_prev_merkle_state mb ∧ mb_txs mb' = mb_txs mb
  ∧ mb_deposits mb' = mb_deposits mb ∧ mb_txs_prev_state_checkpoint mb' = mb_txs_prev_state_checkpoint mb
  ∧ mb_deposit_post_states mb' = mb_deposit_post_states mb
  ∧ mb_tx_post_states mb' = mb_tx_post_states mb
  ∧ mb_finalized_custodian_capacity mb' = mb_finalized_custodian_capacity mb
  ∧ mb_enforce_checkpoints mb' = mb_enforce_checkpoints mb.

Lemma push_withdrawal_run hash post keys mb :
  mem_block_ok mb → mb_txs_prev_state_checkpoint mb = None →
  ∃ mb', push_withdrawal (E:=E) hash post keys mb = Ok mb' ∧ mem_block_ok mb'
    ∧ mb_withdrawals mb' = mb_withdrawals mb ++ [hash]
    ∧ mb_withdrawal_post_states mb' = mb_withdrawal_post_states mb ++ [post]
    ∧ same_but_withdrawals mb mb'.
Proof.
  intros [] Hnone. rewrite Hnone in *. destruct mbo_txs_prev0 as [Hd Ht].
  destruct mb as [? txs ? ws ? ? ds ? prev ? ? ? wp dp tp wk dk ? ?]; cbn in *; subst.
  apply nil_length_inv in mbo_deposit_posts0, mbo_deposit_keys0, mbo_tx_posts0. subst.
  eexists. split; [reflexivity|].
  split; [|done]. constructor; cbn; rewrite ?length_app, ?fmap_app, ?list_to_set_app_L; cbn; try lia; try done.
  - by rewrite !app_nil_r.
  - set_solver.
  - rewrite !app_nil_r, concat_app, list_to_set_app_L. cbn. by rewrite app_nil_r.
Qed.

Lemma push_withdrawals_run items mb :
  mem_block_ok mb → mb_txs_prev_state_checkpoint mb = None →
  ∃ mb', push_withdrawals (E:=E) items mb = Ok mb' ∧ mem_block_ok mb'
    ∧ mb_withdrawals mb' = mb_withdrawals mb ++ items.*1.*1
    ∧ mb_withdrawal_post_states mb' = mb_withdrawal_post_states mb ++ items.*2
    ∧ same_but_withdrawals mb mb'.
Proof.
  revert mb. induction items as [|[[hash keys] post] items IH]; intros mb Hok Hnone.
  { exists mb. cbn. by rewrite !app_nil_r. }
  destruct (push_withdrawal_run hash post keys mb Hok Hnone) as (mb1 & Hrun & Hok1 & Hw & Hp & Hsame).
  destruct (IH mb1 Hok1) as (mb' & Hrun' & Hok' & Hw' & Hp' & Hsame').
  { unfold same_but_withdrawals in Hsame. naive_solver congruence. }
  exists mb'. unfold push_withdrawals in *. cbn. rewrite Hrun. cbn. rewrite Hrun', Hw', Hp', Hw, Hp, <- !app_assoc.
  unfold same_but_withdrawals in *. naive_solver congruence.
Qed.

Lemma with_custodians_ok c mb : mem_block_ok mb → mem_block_ok (with_custodians c mb).
Proof. intros []. by constructor. Qed.
Lemma append_new_addresses_ok addrs mb : mem_block_ok mb → mem_block_ok (append_new_addresses addrs mb).
Proof. intros []. by constructor. Qed.

Lemma push_deposits_run cells posts keys mb :
  mem_block_ok mb → mb_txs_prev_state_checkpoint mb = None →
  length posts = length cells → length keys = length cells →
  ∃ mb', push_deposits (E:=E) cells posts keys
           (checkpoint_of_state (default (mb_prev_merkle_state mb) (last (mb_withdrawal_post_states mb ++ posts))))
           mb = Ok mb' ∧ mem_block_ok mb'
    ∧ mb_deposits mb' = cells ∧ mb_deposit_post_states mb' = posts
    ∧ mb_block_producer mb' = mb_block_producer mb ∧ mb_block_info mb' = mb_block_info mb
    ∧ mb_prev_merkle_state mb' = mb_prev_merkle_state mb ∧ mb_txs mb' = []
    ∧ mb_withdrawals mb' = mb_withdrawals mb
    ∧ mb_withdrawal_post_states mb' = mb_withdrawal_post_states mb
    ∧ mb_tx_post_states mb' = [] ∧ is_Some (mb_txs_prev_state_checkpoint mb')
    ∧ mb_finalized_custodian_capacity mb' = mb_finalized_custodian_capacity mb.
Proof.
  intros [] Hnone Hp Hk. rewrite Hnone in *. destruct mbo_txs_prev0 as [Hd Ht].
  destruct mb as [? txs ? ws ? ? ds ? prev ? m ? wp dp tp wk dk ? enf]; cbn in *; subst.
  apply nil_length_inv in mbo_deposit_posts0, mbo_deposit_keys0, mbo_tx_posts0. subst.
  eexists. unfold push_deposits. cbn. rewrite Hp, Hk, !Nat.eqb_refl. cbn.
  assert (Hcheck : (if enf then match last posts with
            | Some s => assert_that (E:=E) (bool_decide (checkpoint_of_state s
                 = checkpoint_of_state (default m (last (wp ++ posts)))))
            | None => Ok tt end else Ok tt) = Ok tt).
  { destruct enf; [|done]. destruct (last posts) as [s|] eqn:Hl; [|done].
    rewrite last_app, Hl. cbn. by rewrite bool_decide_true. }
  rewrite Hcheck. cbn. split; [reflexivity|].
  cbn. split_and!; try done. constructor; cbn; try done.
  rewrite !app_nil_r, concat_app, list_to_set_app_L. done.
Qed.

Lemma push_tx_ok hash post mb :
  mem_block_ok mb → is_Some (mb_txs_prev_state_checkpoint mb) → mem_block_ok (push_tx hash post mb).
Proof.
  intros [] [c Hc]. rewrite Hc in *.
  constructor; cbn; rewrite ?length_app, ?app_assoc, ?fmap_app, ?list_to_set_app_L; cbn; try lia; try done.
  - by rewrite mbo_checkpoints0, fmap_app.
  - set_solver.
  - rewrite Hc. done.
Qed.

Lemma push_txs_run items mb :
  mem_block_ok mb → is_Some (mb_txs_prev_state_checkpoint mb) →
  mem_block_ok (push_txs items mb)
  ∧ mb_txs (push_txs items mb) = mb_txs mb ++ items.*1
  ∧ mb_tx_post_states (push_txs items mb) = mb_tx_post_states mb ++ items.*2
  ∧ mb_txs_prev_state_checkpoint (push_txs items mb) = mb_txs_prev_state_checkpoint mb
  ∧ mb_withdrawals (push_txs items mb) = mb_withdrawals mb
  ∧ mb_withdrawal_post_states (push_txs items mb) = mb_withdrawal_post_states mb
  ∧ mb_deposits (push_txs items mb) = mb_deposits mb
  ∧ mb_deposit_post_states (push_txs items mb) = mb_deposit_post_states mb
  ∧ mb_block_producer (push_txs items mb) = mb_block_producer mb
  ∧ mb_block_info (push_txs items mb) = mb_block_info mb
  ∧ mb_prev_merkle_state (push_txs items mb) = mb_prev_merkle_state mb
  ∧ mb_finalized_custodian_capacity (push_txs items mb) = mb_finalized_custodian_capacity mb.
Proof.
  revert mb. induction items as [|[hash post] items IH]; intros mb Hok Hs; [by rewrite !app_nil_r|].
  destruct (IH (push_tx hash post mb)) as (?&Ht&Hp&?); [by apply push_tx_ok|done|].
  unfold push_txs in *. cbn [foldl]. rewrite Ht, Hp. cbn. by rewrite <- !app_assoc.
Qed.
End Invariant.

(** ** What is handed out *)
Section Package.
Context `{Blake2b} {E : Type}.

Inductive MemItem := MWithdrawal (hash : H256) | MDeposit (cell : DepositInfo) | MTx (hash : H256).

(** The contents in the order of a block, each with the account state after it *)
Definition mem_items (mb : MemBlock) : list (MemItem * AccountMerkleState) :=
  zip (MWithdrawal <$> mb_withdrawals mb) (mb_withdrawal_post_states mb)
  ++ zip (MDeposit <$> mb_deposits mb) (mb_deposit_post_states mb)
  ++ zip (MTx <$> mb_txs mb) (mb_tx_post_states mb).
Definition mem_total (mb : MemBlock) : nat :=
  (length (mb_withdrawals mb) + length (mb_deposits mb) + length (mb_txs mb))%nat.
(** [total >> retry_count], but at least one *)
Definition package_count (mb : MemBlock) (retry_count : Z) : nat :=
  Nat.max 1 (Z.to_nat (Z.shiftr (Z.of_nat (mem_total mb)) retry_count)).

Lemma mem_items_states mb : mem_block_ok mb →
  (mem_items mb).*2
  = mb_withdrawal_post_states mb ++ mb_deposit_post_states mb ++ mb_tx_post_states mb.
Proof.
  intros []. unfold mem_items. rewrite !fmap_app, !snd_zip; [done|rewrite length_fmap; lia..].
Qed.

Lemma zip_fst_snd {A B C} (l : list A) (k : list B) (m : list C) n :
  length k = length l → length m = length l →
  (take n (zip (zip l k) m)).*1.*1 = take n l ∧ (take n (zip (zip l k) m)).*2 = take n m.
Proof.
  intros Hk Hm. rewrite !fmap_take, fst_zip, fst_zip, snd_zip; [done|..];
    rewrite ?length_zip_with; lia.
Qed.

(** Which prefix [repackage] may be asked for *)
Definition prefix_counts (mb : MemBlock) (w d t : nat) : Prop :=
  (w ≤ length (mb_withdrawals mb))%nat ∧ (d ≤ length (mb_deposits mb))%nat
  ∧ (t ≤ length (mb_txs mb))%nat
  ∧ ((d < length (mb_deposits mb))%nat → t = 0%nat)
  ∧ ((w < length (mb_withdrawals mb))%nat → d = 0%nat ∧ t = 0%nat).

Definition packaged (mb : MemBlock) (w d t : nat) (mb' : MemBlock) (post : AccountMerkleState) : Prop :=
  mem_block_ok mb' ∧ post = final_state mb'
  ∧ mb_withdrawals mb' = take w (mb_withdrawals mb)
  ∧ mb_withdrawal_post_states mb' = take w (mb_withdrawal_post_states mb)
  ∧ mb_deposits mb' = take d (mb_deposits mb)
  ∧ mb_deposit_post_states mb' = take d (mb_deposit_post_states mb)
  ∧ mb_txs mb' = take t (mb_txs mb) ∧ mb_tx_post_states mb' = take t (mb_tx_post_states mb)
  ∧ mb_block_producer mb' = mb_block_producer mb ∧ mb_block_info mb' = mb_block_info mb
  ∧ mb_prev_merkle_state mb' = mb_prev_merkle_state mb
  ∧ mb_finalized_custodian_capacity mb' = mb_finalized_custodian_capacity mb
  ∧ (is_Some (mb_txs_prev_state_checkpoint mb) → is_Some (mb_txs_prev_state_checkpoint mb')).

Lemma packaged_whole mb :
  mem_block_ok mb →
  packaged mb (length (mb_withdrawals mb)) (length (mb_deposits mb)) (length (mb_txs mb)) mb (final_state mb).
Proof.
  intros Hok. unfold packaged. pose proof Hok as [].
  rewrite !take_ge by lia. done.
Qed.

Lemma last_cons_default {A} (x : A) l : last (x :: l) = Some (default x (last l)).
Proof. rewrite last_cons. by destruct (last l). Qed.

Lemma repackage_run mb w d t :
  mem_block_ok mb → prefix_counts mb w d t →
  ∃ mb' post, repackage (E:=E) w d t mb = Ok (mb', post) ∧ packaged mb w d t mb' post.
Proof.
  intros Hok (Hw & Hd & Ht & Hdt & Hwd). pose proof Hok as [].
  unfold repackage. rewrite mbo_withdrawal_posts0, mbo_withdrawal_keys0, mbo_deposit_posts0,
    mbo_deposit_keys0, mbo_tx_posts0, !Nat.eqb_refl. cbn [assert_that mbind outcome_bind].
  destruct ((w =? _)%nat && (d =? _)%nat && (t =? _)%nat) eqn:Hall.
  { bool_inv. subst. eexists _, _. split; [reflexivity|]. by apply packaged_whole. }
  assert (Hguards : ((if negb (d =? length (mb_deposits mb))%nat then assert_that (E:=E) (t =? 0)%nat else Ok tt) = Ok tt)
    ∧ ((if negb (w =? length (mb_withdrawals mb))%nat
        then assert_that (E:=E) (t =? 0)%nat ;; assert_that (d =? 0)%nat else Ok tt) = Ok tt)).
  { split; destruct (Nat.eqb_spec d (length (mb_deposits mb))), (Nat.eqb_spec w (length (mb_withdrawals mb)));
      cbn; try done; try (rewrite Hdt by lia; done);
      destruct (Hwd ltac:(lia)) as [Hd0 Ht0]; rewrite ?Hd0, ?Ht0; done. }
  destruct Hguards as [-> ->]. cbn [assert_that mbind outcome_bind].
  set (items := take w (zip _ _)).
  destruct (zip_fst_snd (mb_withdrawals mb) (mb_withdrawal_touched_keys_vec mb)
              (mb_withdrawal_post_states mb) w) as [Hi1 Hi2]; [lia..|]. fold items in Hi1, Hi2.
  set (new := empty_mem_block _ _ _ _).
  destruct (push_withdrawals_run (E:=E) items new) as (mb1 & Hr1 & Hok1 & Hw1 & Hp1 & Hs1);
    [apply empty_mem_block_ok|done|].
  unfold same_but_withdrawals in Hs1. cbn in Hs1, Hw1, Hp1. destruct Hs1 as (Hpr&Hin&Hprev&_&_&Hnone&_).
  rewrite Hr1. cbn [mbind outcome_bind]. rewrite Hi1 in Hw1. rewrite Hi2 in Hp1.
  rewrite last_cons_default. cbn [unwrap mbind outcome_bind].
  destruct (push_deposits_run (E:=E) (take d (mb_deposits mb)) (take d (mb_deposit_post_states mb))
      (take d (mb_deposit_touched_keys_vec mb)) (with_custodians (mb_finalized_custodian_capacity mb) mb1))
    as (mb2 & Hr2 & Hok2 & Hd2 & Hdp2 & Hpr2 & Hin2 & Hprev2 & Ht2 & Hw2 & Hp2 & Htp2 & Hs2 & Hcap2);
    [by apply with_custodians_ok|done|rewrite !length_take; lia..|].
  cbn in Hr2, Hpr2, Hin2, Hprev2, Hw2, Hp2, Hcap2. rewrite Hprev, Hp1 in Hr2. rewrite Hr2. cbn [mbind outcome_bind].
  set (txs := take t (zip _ _)).
  assert (Htx1 : txs.*1 = take t (mb_txs mb) ∧ txs.*2 = take t (mb_tx_post_states mb)).
  { subst txs. rewrite !fmap_take, fst_zip, snd_zip by lia. done. }
  destruct Htx1 as [Htx1 Htx2]. rewrite <- app_comm_cons, last_cons_default. cbn [unwrap mbind outcome_bind].
  eexists _, _. split; [reflexivity|].
  destruct (push_txs_run txs mb2 Hok2 Hs2) as (Hok3&Ht3&Htp3&Hs3&Hw3&Hp3&Hd3&Hdp3&Hpr3&Hin3&Hprev3&Hcap3).
  unfold packaged, final_state.
  rewrite Ht3, Htp3, Hw3, Hp3, Hd3, Hdp3, Hpr3, Hin3, Hprev3, Hcap3, Ht2, Htp2, Hw2, Hp2, Hd2, Hdp2, Hprev2,
    Hw1, Hp1, Hpr2, Hpr, Hin2, Hin, Hprev, Hcap2, Htx1, Htx2.
  split_and!; try done; [by rewrite <- app_assoc|by rewrite Hs3].
Qed.

Lemma repackage_count_run mb retry :
  0 ≤ retry < 64 →
  ∃ w d t, repackage_count (E:=E) mb retry = Ok (w, d, t) ∧ prefix_counts mb w d t
    ∧ w = Nat.min (package_count mb retry) (length (mb_withdrawals mb))
    ∧ d = Nat.min (package_count mb retry - length (mb_withdrawals mb)) (length (mb_deposits mb))
    ∧ t = Nat.min (package_count mb retry - length (mb_withdrawals mb) - length (mb_deposits mb)) (length (mb_txs mb)).
Proof.
  intros Hr. unfold repackage_count. rewrite (proj2 (Z.ltb_lt _ _)) by lia. cbn [assert_that mbind outcome_bind].
  fold (mem_total mb). set (r := Z.to_nat _).
  assert (Hc : (if (r =? 0)%nat then 1%nat else r) = package_count mb retry).
  { unfold package_count. fold r. destruct (Nat.eqb_spec r 0); lia. }
  rewrite Hc. set (n := package_count mb retry). rewrite !length_take.
  eexists _, _, _. split; [reflexivity|]. unfold prefix_counts. lia.
Qed.

Lemma zip_fmap_take {A B C} (f : A → C) (l : list A) (k : list B) n :
  zip (f <$> take n l) (take n k) = take n (zip (f <$> l) k).
Proof. by rewrite zip_with_take, fmap_take. Qed.

Lemma packaged_items mb w d t mb' post n :
  mem_block_ok mb → packaged mb w d t mb' post →
  w = Nat.min n (length (mb_withdrawals mb)) →
  d = Nat.min (n - length (mb_withdrawals mb)) (length (mb_deposits mb)) →
  t = Nat.min (n - length (mb_withdrawals mb) - length (mb_deposits mb)) (length (mb_txs mb)) →
  mem_items mb' = take n (mem_items mb).
Proof.
  intros [] (_ & _ & Hw & Hwp & Hd & Hdp & Ht & Htp & _) -> -> ->.
  unfold mem_items. rewrite Hw, Hwp, Hd, Hdp, Ht, Htp, !zip_fmap_take, !take_app, !length_zip_with, !length_fmap.
  rewrite mbo_withdrawal_posts0, mbo_deposit_posts0, !Nat.min_id.
  assert (Hmin : ∀ {A} (l : list A) i m, length l = m → take (Nat.min i m) l = take i l).
  { intros A l i m <-. destruct (Nat.le_ge_cases i (length l)); [by rewrite Nat.min_l|].
    by rewrite Nat.min_r, !take_ge by lia. }
  rewrite !Hmin; [done|rewrite length_zip_with, length_fmap; lia..].
Qed.

(** C22. Whatever the retry count (below the width of [usize]), handing out the
    block in the making does not panic: it is a consistent record of the first
    [max(1, total >> retry_count)] of its items, withdrawals before deposits before
    transactions, with the same previous state, block information and producer,
    and the account state returned with it is the one after the last of these items. *)
Theorem package_mem_block_prefix mb retry_count :
  mem_block_ok mb → 0 ≤ retry_count < 64 →
  ∃ mb' post,
    package_mem_block (E:=E) mb retry_count = Ok (mb', post)
    ∧ mem_block_ok mb'
    ∧ mem_items mb' = take (package_count mb retry_count) (mem_items mb)
    ∧ post = default (mb_prev_merkle_state mb) (last (mem_items mb').*2)
    ∧ mb_prev_merkle_state mb' = mb_prev_merkle_state mb
    ∧ mb_block_info mb' = mb_block_info mb ∧ mb_block_producer mb' = mb_block_producer mb
    ∧ (is_Some (mb_txs_prev_state_checkpoint mb) → is_Some (mb_txs_prev_state_checkpoint mb')).
Proof.
  intros Hok Hr.
  destruct (repackage_count_run mb retry_count Hr) as (w & d & t & Hrun & Hpre & Hw & Hd & Ht).
  destruct (repackage_run mb w d t Hok Hpre) as (mb' & post & Hrun' & Hp).
  exists mb', post. unfold package_mem_block. rewrite Hrun. cbn [mbind outcome_bind]. split; [done|].
  pose proof (packaged_items _ _ _ _ _ _ _ Hok Hp Hw Hd Ht) as Hitems.
  destruct Hp as (Hok' & Hpost & _ & _ & _ & _ & _ & _ & Hpr & Hin & Hprev & _ & Hs).
  split_and!; try done. rewrite mem_items_states by done. unfold final_state in Hpost. by rewrite <- Hprev.
Qed.
End Package.
