(* ===== verification/WithdrawalCells.v ===== *)
(** * Cells of withdrawals and custodians (crates/mem-pool/src/withdrawal.rs, custodian.rs)

    Withdrawals are paid from the finalized custodian cells.  [Generator] keeps the
    account: what is left of CKB and of each token after the withdrawals included so
    far; [finish] turns the rest into change cells.  The memory pool uses it to
    decide which withdrawals a block can hold, the block producer to build the cells
    of the submission.

    [withdrawals_conserve_custodians] is the balance of this account: whatever
    requests are offered, what goes out is what came in, token by token, nothing
    panics, and the change cells have the capacity they need. *)
From Stdlib Require Import ZArith Lia Strings.Byte.
From stdpp Require Import prelude list gmap.
From S2P Require Import Prelude Bytes Types State StateSpec StateDB Finality Ckb.
From S2P Require Import NodeUtils NodeState AccountLocks Backends Syscalls Generator FeeQueue Verifiers Store LocalCells.
Local Open Scope Z_scope.

(** The encoding of the lock arguments of a custodian cell *)
Class CustodianCodec := enc_CustodianLockArgs : CustodianLockArgs → bytes.

(** ** custodian.rs *)
Definition Script_default : Script := mkScript h256_zero 0 [].
Definition DepositLockArgs_default : DepositLockArgs := mkDepositLockArgs h256_zero Script_default 0 0.
Definition CustodianLockArgs_default : CustodianLockArgs :=
  mkCustodianLockArgs h256_zero 0 DepositLockArgs_default.

Section Custodian.
Context `{CkbTypes, CustodianCodec} {E : Type}.
Context (ctx : RollupContext).

Definition custodian_lock (a : CustodianLockArgs) : Script :=
  mkScript (custodian_script_type_hash (rollup_config ctx)) (ScriptHashType_to_u8 HashType)
    (rollup_script_hash ctx ++ enc_CustodianLockArgs a).
Definition build_finalized_custodian_lock : Script := custodian_lock CustodianLockArgs_default.
Definition calc_ckb_custodian_min_capacity : outcome E Z :=
  unwrap (occupied_capacity (mkCellOutput 1 build_finalized_custodian_lock None) 0).
Definition generate_finalized_custodian (amount : Z) (type_ : Script) : outcome E (CellOutput * bytes) :=
  let data := le_bytes 16 amount in
  capacity ← unwrap (occupied_capacity (mkCellOutput 1 build_finalized_custodian_lock (Some type_)) (length data));
  Ok (mkCellOutput capacity build_finalized_custodian_lock (Some type_), data).

(** The custodian cell a deposit becomes; [Err] tells the capacity it lacks *)
Definition to_custodian_cell (dec_DepositLockArgs : bytes → DepositLockArgs) (block_hash : H256)
    (finalized_timepoint : Timepoint) (deposit : DepositInfo) : outcome Z (CellOutput * bytes) :=
  let cell := di_cell deposit in
  let lock_args := args (co_lock (cell_output cell)) in
  (** [lock_args.slice(32..)] *)
  assert_that (32 <=? length lock_args)%nat ;;
  let lock := custodian_lock
    (mkCustodianLockArgs block_hash (Timepoint_full_value finalized_timepoint)
       (dec_DepositLockArgs (drop 32 lock_args))) in
  let output := mkCellOutput (co_capacity (cell_output cell)) lock (co_type (cell_output cell)) in
  let data := cell_data cell in
  match occupied_capacity output (length data) with
  | Some capacity =>
      if co_capacity (cell_output cell) <? capacity then Err capacity else Ok (output, data)
  | None => Err (u64_max + 1)
  end.
End Custodian.

(** ** What the withdrawals of a block need *)
Record WithdrawalsAmount := mkWithdrawalsAmount { wa_capacity : Z; wa_sudt : gmap H256 Z }.
Definition sum_withdrawal (total : WithdrawalsAmount) (w : WithdrawalRequest) : WithdrawalsAmount :=
  let raw := w_raw w in
  mkWithdrawalsAmount (saturating_add 128 (wa_capacity total) (w_capacity raw))
    (if negb (w_amount raw =? 0) && negb (bool_decide (w_sudt_script_hash raw = CKB_SUDT_SCRIPT_ARGS))
     then <[w_sudt_script_hash raw :=
              saturating_add 128 (default 0 (wa_sudt total !! w_sudt_script_hash raw)) (w_amount raw)]>
            (wa_sudt total)
     else wa_sudt total).
Definition sum_withdrawals (reqs : list WithdrawalRequest) : WithdrawalsAmount :=
  foldl sum_withdrawal (mkWithdrawalsAmount 0 ∅) reqs.

(** ** withdrawal.rs: the account *)
Record CkbCustodian := mkCkbCustodian { ck_capacity : Z; ck_balance : Z; ck_min_capacity : Z }.
Record SudtCustodian := mkSudtCustodian { sc_sudt_capacity : Z; sc_balance : Z; sc_script : Script }.
Record WGenerator := mkWGenerator {
  wg_ckb_custodian : CkbCustodian;
  wg_sudt_custodians : gmap H256 SudtCustodian;
  wg_withdrawals : list (CellOutput * bytes);
}.
Inductive WithdrawalGenError :=
| NoFinalizedSudt | OwnerLockNotMatch (h : H256) | MinimalCapacity (min : Z)
| SudtNotEnough | CkbNotEnough
| UnexpectedSudtNotFound | UnexpectedSudtOverflow | UnexpectedCapacityOverflow.

Section WGenerator.
Context `{Blake2b, Molecule, CkbTypes, CustodianCodec, MapIter}.
Context (ctx : RollupContext).
Local Abbreviation M := (outcome WithdrawalGenError).

Definition new_custodian (acc : Z * gmap H256 SudtCustodian) (entry : H256 * (Z * Script)) :
    M (Z * gmap H256 SudtCustodian) :=
  let '(total_sudt_capacity, sudt_custodians) := acc in
  let '(sudt_type_hash, (balance, type_script)) := entry in
  '(change, _) ← generate_finalized_custodian ctx balance type_script;
  Ok (saturating_add 128 total_sudt_capacity (co_capacity change),
      <[sudt_type_hash := mkSudtCustodian (co_capacity change) balance type_script]> sudt_custodians).
Definition WGenerator_new (available : FinalizedCustodianCapacity) : M WGenerator :=
  '(total_sudt_capacity, sudt_custodians) ← foldM new_custodian (0, ∅) (map_iter (fc_sudt available));
  min_capacity ← calc_ckb_custodian_min_capacity ctx;
  let capacity := saturating_sub (fc_capacity available) total_sudt_capacity in
  Ok (mkWGenerator (mkCkbCustodian capacity (saturating_sub capacity min_capacity) min_capacity)
        sudt_custodians []).

Definition remaining_capacity (g : WGenerator) : M FinalizedCustodianCapacity :=
  sum ← foldM (λ a c, add_w 128 a (sc_sudt_capacity c)) 0 (map_iter (wg_sudt_custodians g)).*2;
  capacity ← add_w 128 (ck_capacity (wg_ckb_custodian g)) sum;
  Ok (mkFinalizedCustodianCapacity capacity
        ((λ c, (sc_balance c, sc_script c)) <$> wg_sudt_custodians g)).

(** Give the capacity of a used up token cell back *)
Definition give_back (capacity : Z) (ckb : CkbCustodian) : M CkbCustodian :=
  if ck_capacity ckb =? 0 then
    balance ← sub_w capacity (ck_min_capacity ckb);
    Ok (mkCkbCustodian capacity balance (ck_min_capacity ckb))
  else
    c ← add_w 128 (ck_capacity ckb) capacity;
    b ← add_w 128 (ck_balance ckb) capacity;
    Ok (mkCkbCustodian c b (ck_min_capacity ckb)).

(** The CKB custodian once the tokens of a request are taken *)
Definition ckb_after_sudt (g : WGenerator) (raw : RawWithdrawalRequest) : M CkbCustodian :=
  if negb (0 =? w_amount raw) then
    sudt_custodian ← ok_or SudtNotEnough (wg_sudt_custodians g !! w_sudt_script_hash raw);
    remained ← ok_or SudtNotEnough (checked_sub (sc_balance sudt_custodian) (w_amount raw));
    if 0 =? remained then give_back (sc_sudt_capacity sudt_custodian) (wg_ckb_custodian g)
    else Ok (wg_ckb_custodian g)
  else Ok (wg_ckb_custodian g).
Definition verify_remained_ckb (ckb_custodian : CkbCustodian) (req_ckb : Z) : M unit :=
  match checked_sub (ck_balance ckb_custodian) req_ckb with
  | Some _ => Ok tt
  | None => if req_ckb =? ck_capacity ckb_custodian then Ok tt else Err CkbNotEnough
  end.
Definition verify_remained_amount (g : WGenerator) (req : WithdrawalRequest) : M unit :=
  let raw := w_raw req in
  ckb_custodian ← ckb_after_sudt g raw;
  verify_remained_ckb ckb_custodian (w_capacity raw).

Definition verified_output (g : WGenerator) (req_extra : WithdrawalRequestExtra) (block : L2Block) :
    M (CellOutput * bytes) :=
  let req := we_request req_extra in
  let raw := w_raw req in
  reject_if (negb (0 =? w_amount raw)
             && bool_decide (wg_sudt_custodians g !! w_sudt_script_hash raw = None)) NoFinalizedSudt ;;
  let sudt_script := sc_script <$> wg_sudt_custodians g !! w_sudt_script_hash raw in
  tp ← finalized_timepoint (rollup_config ctx) (fork_config ctx) (block_number block)
         (timestamp (block_raw block));
  output ← map_err (λ e, match e with CellOwnerLock h => OwnerLockNotMatch h
                                    | MinCapacity min _ => MinimalCapacity min end)
             (build_withdrawal_cell_output ctx req_extra (block_hash block) tp sudt_script);
  verify_remained_amount g req ;;
  Ok output.

Definition wg_with_ckb (c : CkbCustodian) (g : WGenerator) : WGenerator :=
  mkWGenerator c (wg_sudt_custodians g) (wg_withdrawals g).
Definition wg_with_sudt (h : H256) (c : SudtCustodian) (g : WGenerator) : WGenerator :=
  mkWGenerator (wg_ckb_custodian g) (<[h := c]> (wg_sudt_custodians g)) (wg_withdrawals g).
Definition wg_push (o : CellOutput * bytes) (g : WGenerator) : WGenerator :=
  mkWGenerator (wg_ckb_custodian g) (wg_sudt_custodians g) (wg_withdrawals g ++ [o]).

Definition include_sudt (raw : RawWithdrawalRequest) : ST WGenerator WithdrawalGenError unit := λ g,
  if 0 =? w_amount raw then (Ok tt, g) else
  match wg_sudt_custodians g !! w_sudt_script_hash raw with
  | None => (Err UnexpectedSudtNotFound, g)
  | Some c =>
      match checked_sub (sc_balance c) (w_amount raw) with
      | None => (Err UnexpectedSudtOverflow, g)
      | Some remaind =>
          let g1 := wg_with_sudt (w_sudt_script_hash raw)
                      (mkSudtCustodian (sc_sudt_capacity c) remaind (sc_script c)) g in
          if 0 =? remaind then
            match give_back (sc_sudt_capacity c) (wg_ckb_custodian g) with
            | Ok ckb => (Ok tt, wg_with_sudt (w_sudt_script_hash raw)
                                  (mkSudtCustodian 0 remaind (sc_script c)) (wg_with_ckb ckb g1))
            | Err e => (Err e, g1)
            | Panic => (Panic, g1)
            end
          else (Ok tt, g1)
      end
  end.
Definition include_ckb (raw : RawWithdrawalRequest) : ST WGenerator WithdrawalGenError unit := λ g,
  let ckb := wg_ckb_custodian g in
  match checked_sub (ck_balance ckb) (w_capacity raw) with
  | Some remaind =>
      match sub_w (ck_capacity ckb) (w_capacity raw) with
      | Ok c => (Ok tt, wg_with_ckb (mkCkbCustodian c remaind (ck_min_capacity ckb)) g)
      | Err e => (Err e, g)
      | Panic => (Panic, g)
      end
  | None =>
      if w_capacity raw =? ck_capacity ckb
      then (Ok tt, wg_with_ckb (mkCkbCustodian 0 0 (ck_min_capacity ckb)) g)
      else (Err UnexpectedCapacityOverflow, g)
  end.
Definition include_and_verify (req_extra : WithdrawalRequestExtra) (block : L2Block) :
    ST WGenerator WithdrawalGenError unit := λ g,
  (output ← lift (verified_output g req_extra block);
   include_sudt (w_raw (we_request req_extra)) ;;
   include_ckb (w_raw (we_request req_extra)) ;;
   modify (wg_push output)) g.

(** *** Change *)
Definition build_ckb_output (capacity : Z) : CellOutput * bytes :=
  (mkCellOutput (capacity mod 2 ^ 64) (build_finalized_custodian_lock ctx) None, []).
Definition MAX_CHANGE_CAPACITY : Z := u64_max - 1.
(** [while remaind > 0]; [fuel] bounds the iterations *)
Fixpoint split_change (fuel : nat) (min_capacity remaind : Z) : list (CellOutput * bytes) :=
  match fuel with
  | O => []
  | S fuel =>
      if 0 <? remaind then
        let max := saturating_sub remaind min_capacity in
        match checked_sub max MAX_CHANGE_CAPACITY with
        | Some cap =>
            build_ckb_output MAX_CHANGE_CAPACITY
            :: split_change fuel min_capacity (saturating_add 128 cap min_capacity)
        | None =>
            let whole := saturating_add 128 max min_capacity in
            if MAX_CHANGE_CAPACITY <? whole
            then let half := whole / 2 in
                 [build_ckb_output half; build_ckb_output (saturating_sub whole half)]
            else [build_ckb_output (saturating_add 64 (max mod 2 ^ 64) min_capacity)]
        end
      else []
  end.
Definition change_fuel (capacity : Z) : nat := S (Z.to_nat (capacity / MAX_CHANGE_CAPACITY)).
Definition ckb_change (ckb : CkbCustodian) : list (CellOutput * bytes) :=
  if ck_capacity ckb =? 0 then []
  else if ck_capacity ckb <? u64_max then [build_ckb_output (ck_capacity ckb)]
  else split_change (change_fuel (ck_capacity ckb)) (ck_min_capacity ckb) (ck_capacity ckb).
Definition sudt_change (c : SudtCustodian) : CellOutput * bytes :=
  (mkCellOutput (sc_sudt_capacity c) (build_finalized_custodian_lock ctx) (Some (sc_script c)),
   le_bytes 16 (sc_balance c)).
Definition has_change (c : SudtCustodian) : bool :=
  negb (0 =? sc_sudt_capacity c) && negb (0 =? sc_balance c).
Definition finish (g : WGenerator) : list (CellOutput * bytes) :=
  wg_withdrawals g
  ++ (sudt_change <$> filter (λ c, has_change c = true) (map_iter (wg_sudt_custodians g)).*2)
  ++ ckb_change (wg_ckb_custodian g).
End WGenerator.

Lemma add_w_run {E} w a b : a + b < 2 ^ w → add_w (E:=E) w a b = Ok (a + b).
Proof. intros ?. unfold add_w, checked_add. by rewrite (proj2 (Z.ltb_lt _ _)). Qed.

(** ** Sums over a map *)
Lemma sum_over_perm {A} (f : A → Z) l k : l ≡ₚ k → sum_over f l = sum_over f k.
Proof. induction 1; cbn; lia. Qed.
Lemma sum_over_app {A} (f : A → Z) l k : sum_over f (l ++ k) = sum_over f l + sum_over f k.
Proof. induction l; cbn; lia. Qed.
Lemma sum_over_zero {A} (f : A → Z) l : (∀ x, x ∈ l → f x = 0) → sum_over f l = 0.
Proof. intros Hf. rewrite (sum_over_ext f (λ _, 0)) by done. clear Hf. induction l; cbn; lia. Qed.

Section MapSum.
Context `{MapIter}.

Definition map_sum {A} (f : A → Z) (m : gmap H256 A) : Z := sum_over f (map_iter m).*2.

Lemma map_sum_to_list {A} (f : A → Z) m : map_sum f m = sum_over f (map_to_list m).*2.
Proof. apply sum_over_perm. by rewrite map_iter_perm. Qed.
Lemma map_sum_fresh {A} (f : A → Z) m k v : m !! k = None → map_sum f (<[k := v]> m) = f v + map_sum f m.
Proof.
  intros Hk. rewrite !map_sum_to_list.
  rewrite (sum_over_perm f _ ((k, v) :: map_to_list m).*2) by (by rewrite map_to_list_insert). done.
Qed.
Lemma map_sum_delete {A} (f : A → Z) m k v : m !! k = Some v → map_sum f m = f v + map_sum f (delete k m).
Proof. intros Hk. rewrite <- (map_sum_fresh f _ k) by apply lookup_delete_eq. by rewrite insert_delete_id. Qed.
Lemma map_sum_insert {A} (f : A → Z) m k old v :
  m !! k = Some old → map_sum f (<[k := v]> m) = map_sum f m - f old + f v.
Proof.
  intros Hk. rewrite (map_sum_delete f (<[k := v]> m) k v) by apply lookup_insert_eq.
  rewrite delete_insert_eq, (map_sum_delete f m k old) by done. lia.
Qed.
Lemma map_sum_nonneg {A} (f : A → Z) m : (∀ k v, m !! k = Some v → 0 ≤ f v) → 0 ≤ map_sum f m.
Proof.
  intros Hf. rewrite map_sum_to_list. apply sum_over_nonneg. intros v Hv.
  apply list_elem_of_fmap in Hv as ([k v'] & -> & Hin). apply elem_of_map_to_list in Hin. by eapply Hf.
Qed.
Lemma map_sum_elem {A} (f : A → Z) m k v :
  (∀ k v, m !! k = Some v → 0 ≤ f v) → m !! k = Some v → f v ≤ map_sum f m.
Proof.
  intros Hf Hk. rewrite (map_sum_delete f m k v) by done.
  enough (0 ≤ map_sum f (delete k m)) by lia. apply map_sum_nonneg. intros k' v' Hk'.
  apply lookup_delete_Some in Hk' as [_ ?]. by eapply Hf.
Qed.
Lemma map_sum_fmap {A B} (g : A → B) (f : B → Z) m : map_sum f (g <$> m) = map_sum (f ∘ g) m.
Proof.
  rewrite !map_sum_to_list, map_to_list_fmap, <- !list_fmap_compose.
  induction (map_to_list m) as [|[k v] l IH]; [done|]. cbn in *. lia.
Qed.
Lemma map_sum_ext {A} (f g : A → Z) m :
  (∀ k v, m !! k = Some v → f v = g v) → map_sum f m = map_sum g m.
Proof.
  intros Hfg. rewrite !map_sum_to_list. apply sum_over_ext. intros v Hv.
  apply list_elem_of_fmap in Hv as ([k v'] & -> & Hin). apply elem_of_map_to_list in Hin. by eapply Hfg.
Qed.
Lemma map_sum_zero {A} (f : A → Z) m : (∀ k v, m !! k = Some v → f v = 0) → map_sum f m = 0.
Proof.
  intros Hf. rewrite (map_sum_ext f (λ _, 0)) by done. by apply sum_over_zero.
Qed.
Lemma map_sum_single {A} (f : A → Z) m k v :
  m !! k = Some v → (∀ k' v', m !! k' = Some v' → k' ≠ k → f v' = 0) → map_sum f m = f v.
Proof.
  intros Hk Hf. rewrite (map_sum_delete f m k v), map_sum_zero by
    (try done; intros k' v' [Hne Hv]%lookup_delete_Some; by apply (Hf k' v')). lia.
Qed.
End MapSum.

Lemma sum_over_filter {A} (f : A → Z) (p : A → bool) l :
  sum_over f (filter (λ x, p x = true) l) = sum_over (λ x, if p x then f x else 0) l.
Proof.
  induction l as [|x l IH]; [done|]. cbn [sum_over]. destruct (p x) eqn:Hp.
  - rewrite filter_cons_True by done. cbn. lia.
  - rewrite filter_cons_False by (by rewrite Hp). lia.
Qed.
Lemma sum_over_fmap {A B} (f : B → Z) (h : A → B) l : sum_over f (h <$> l) = sum_over (f ∘ h) l.
Proof. induction l; cbn; [done|]. cbn in *. lia. Qed.

(** ** The account balances *)
(** The occupied capacity of a cell counts its parts: it does not depend on the
    capacity written in the cell, and a type script or data only add to it. *)
Class CkbTypesLaws `{CkbTypes} : Prop := {
  occupied_any_capacity : ∀ c c' lock type_ n,
    occupied_capacity (mkCellOutput c lock type_) n = occupied_capacity (mkCellOutput c' lock type_) n;
  occupied_grows : ∀ c lock s n m a b,
    occupied_capacity (mkCellOutput c lock None) n = Some a →
    occupied_capacity (mkCellOutput c lock (Some s)) (n + m) = Some b → a ≤ b;
  occupied_range : ∀ o n a, occupied_capacity o n = Some a → 0 < a < 2 ^ 64;
}.

Section Balance.
Context `{Blake2b, Molecule, MapIter, CkbTypesLaws, CustodianCodec}.
Context (ctx : RollupContext).
Local Abbreviation lock := (build_finalized_custodian_lock ctx).

(** The capacity of a change cell of a token, and of one without *)
Definition reserve (s : Script) : Z := default 0 (occupied_capacity (mkCellOutput 1 lock (Some s)) 16).
Definition min_change : Z := default 0 (occupied_capacity (mkCellOutput 1 lock None) 0).
Definition reserved (available : FinalizedCustodianCapacity) : Z :=
  map_sum (λ e, reserve e.2) (fc_sudt available).
Definition spare (available : FinalizedCustodianCapacity) : Z := fc_capacity available - reserved available.

Record custodians_ok (available : FinalizedCustodianCapacity) : Prop := {
  co_capacity_range : 0 ≤ fc_capacity available < 2 ^ 128;
  co_min : ∃ a, occupied_capacity (mkCellOutput 1 lock None) 0 = Some a ∧ 2 * a ≤ MAX_CHANGE_CAPACITY;
  co_sudt : ∀ h b s, fc_sudt available !! h = Some (b, s) →
    0 < b < 2 ^ 128 ∧ h = script_hash s ∧ is_Some (occupied_capacity (mkCellOutput 1 lock (Some s)) 16);
  co_reserved : reserved available ≤ fc_capacity available;
}.
Definition solvent_start (available : FinalizedCustodianCapacity) : Prop :=
  spare available = 0 ∨ min_change ≤ spare available.
Definition request_ok (r : WithdrawalRequestExtra) : Prop :=
  0 ≤ w_capacity (w_raw (we_request r)) < 2 ^ 64 ∧ 0 ≤ w_amount (w_raw (we_request r)) < 2 ^ 128.

(** The tokens in a cell whose type script has hash [h] *)
Definition amount_of (h : H256) (o : CellOutput * bytes) : Z :=
  if bool_decide (script_hash <$> co_type o.1 = Some h) then le_val o.2 else 0.
Definition total_capacity (l : list (CellOutput * bytes)) : Z := sum_over (λ o, co_capacity o.1) l.
Definition total_amount (h : H256) (l : list (CellOutput * bytes)) : Z := sum_over (amount_of h) l.

(** One token: what is left and what went out is what there was. *)
Definition token_ok (outs : list (CellOutput * bytes)) (h : H256) (b : Z) (s : Script)
    (c : SudtCustodian) : Prop :=
  sc_script c = s ∧ 0 ≤ sc_balance c ∧ sc_balance c + total_amount h outs = b
  ∧ sc_sudt_capacity c = if sc_balance c =? 0 then 0 else reserve s.
Definition solvent (ckb : CkbCustodian) : Prop :=
  (ck_capacity ckb = 0 ∧ ck_balance ckb = 0)
  ∨ (min_change ≤ ck_capacity ckb ∧ ck_balance ckb = ck_capacity ckb - min_change).

(** The tokens that go out are tokens that were there. *)
Definition known_type (available : FinalizedCustodianCapacity) (o : CellOutput * bytes) : Prop :=
  ∀ s, co_type o.1 = Some s → is_Some (fc_sudt available !! script_hash s).

(** The account after the cells [outs] and the capacity [paid] went out *)
Record account_at (available : FinalizedCustodianCapacity) (outs : list (CellOutput * bytes)) (paid : Z)
    (g : WGenerator) : Prop := {
  ac_min : ck_min_capacity (wg_ckb_custodian g) = min_change;
  ac_tokens : map_Forall2 (λ h (e : Z * Script) c, token_ok outs h e.1 e.2 c)
                (fc_sudt available) (wg_sudt_custodians g);
  ac_capacity : ck_capacity (wg_ckb_custodian g) + map_sum sc_sudt_capacity (wg_sudt_custodians g)
    + paid = fc_capacity available;
  ac_paid : 0 ≤ paid;
  ac_types : Forall (known_type available) outs;
  ac_balance : 0 ≤ ck_balance (wg_ckb_custodian g) ≤ ck_capacity (wg_ckb_custodian g);
  ac_solvent : solvent_start available → solvent (wg_ckb_custodian g);
}.
Definition account_ok (available : FinalizedCustodianCapacity) (g : WGenerator) : Prop :=
  account_at available (wg_withdrawals g) (total_capacity (wg_withdrawals g)) g.

Lemma reserve_range s : is_Some (occupied_capacity (mkCellOutput 1 lock (Some s)) 16) → 0 < reserve s < 2 ^ 64.
Proof. intros [a Ha]. unfold reserve. rewrite Ha. by eapply occupied_range. Qed.
Lemma min_change_range available : custodians_ok available → 0 < min_change < 2 ^ 64.
Proof. intros [_ [a [Ha _]] _ _]. unfold min_change. rewrite Ha. by eapply occupied_range. Qed.
Lemma min_change_reserve available h b s :
  custodians_ok available → fc_sudt available !! h = Some (b, s) → min_change ≤ reserve s.
Proof.
  intros [_ [a [Ha _]] Hs _] Hh. destruct (Hs _ _ _ Hh) as (_ & _ & [r Hr]). unfold min_change, reserve.
  rewrite Ha, Hr. cbn. eapply (occupied_grows 1 lock s 0 16); [done|]. apply Hr.
Qed.
Lemma reserved_nonneg available : custodians_ok available → 0 ≤ reserved available.
Proof.
  intros Hok. apply map_sum_nonneg. intros h [b s] Hh.
  destruct (co_sudt _ Hok _ _ _ Hh) as (_ & _ & Hs). pose proof (reserve_range _ Hs). cbn. lia.
Qed.

Lemma generate_finalized_custodian_run {E} amount s :
  is_Some (occupied_capacity (mkCellOutput 1 lock (Some s)) 16) →
  generate_finalized_custodian (E:=E) ctx amount s
  = Ok (mkCellOutput (reserve s) lock (Some s), le_bytes 16 amount).
Proof.
  intros [r Hr]. unfold generate_finalized_custodian, reserve. rewrite le_bytes_length, Hr. done.
Qed.

Definition fresh_custodian (e : Z * Script) : SudtCustodian := mkSudtCustodian (reserve e.2) e.1 e.2.

Lemma new_custodians_run l total m :
  (∀ h b s, (h, (b, s)) ∈ l → is_Some (occupied_capacity (mkCellOutput 1 lock (Some s)) 16)) →
  0 ≤ total → total + sum_over (λ e, reserve e.2.2) l < 2 ^ 128 →
  foldM (new_custodian ctx) (total, m) l
  = Ok (total + sum_over (λ e, reserve e.2.2) l, list_to_map (reverse ((λ e, (e.1, fresh_custodian e.2)) <$> l)) ∪ m).
Proof.
  revert total m. induction l as [|[h [b s]] l IH]; intros total m Hs Hpos Hsum.
  { cbn. by rewrite Z.add_0_r, (left_id_L ∅ _). }
  cbn [foldM new_custodian sum_over fst snd] in *.
  assert (Hh : is_Some (occupied_capacity (mkCellOutput 1 lock (Some s)) 16)) by (eapply Hs; left).
  pose proof (reserve_range s Hh) as Hr.
  assert (Hrest : 0 ≤ sum_over (λ e, reserve e.2.2) l).
  { apply sum_over_nonneg. intros [h' [b' s']] Hin. cbn. pose proof (reserve_range s'). enough (0 < reserve s') by lia.
    apply reserve_range. eapply Hs. by right. }
  rewrite generate_finalized_custodian_run by done. cbn [mbind outcome_bind co_capacity].
  assert (Hsat : saturating_add 128 total (reserve s) = total + reserve s).
  { unfold saturating_add. apply Z.min_l. lia. }
  rewrite Hsat, IH; [|intros ? ? ? ?; eapply Hs; right; eassumption|lia..].
  f_equal. f_equal; [lia|]. rewrite fmap_cons, reverse_cons, list_to_map_app, <- (assoc_L _). f_equal.
  cbn. rewrite insert_union_singleton_l. by rewrite insert_empty.
Qed.

Lemma fresh_map (m : gmap H256 (Z * Script)) :
  list_to_map (reverse ((λ e, (e.1, fresh_custodian e.2)) <$> map_iter m)) = fresh_custodian <$> m.
Proof.
  rewrite <- (list_to_map_to_list (fresh_custodian <$> m)). apply list_to_map_proper.
  - rewrite reverse_Permutation, <- list_fmap_compose. apply (proj2 (list_to_map_iter m)).
  - rewrite reverse_Permutation, map_to_list_fmap. apply fmap_Permutation, map_iter_perm.
Qed.

Lemma saturating_sub_spec a b : b ≤ a → saturating_sub a b = a - b.
Proof. unfold saturating_sub. lia. Qed.

Lemma WGenerator_new_run available :
  custodians_ok available →
  ∃ g, WGenerator_new ctx available = Ok g ∧ account_ok available g ∧ wg_withdrawals g = []
    ∧ ck_capacity (wg_ckb_custodian g) = spare available.
Proof.
  intros Hok. pose proof Hok as [[Hc0 Hc1] [a [Ha _]] Hs Hres]. unfold WGenerator_new.
  assert (Hsum : sum_over (λ e, reserve e.2.2) (map_iter (fc_sudt available)) = reserved available).
  { unfold reserved, map_sum. generalize (map_iter (fc_sudt available)) as l.
    induction l as [|e l IH]; [done|]. cbn. lia. }
  rewrite new_custodians_run; [|intros h b s Hin|lia|rewrite Hsum; lia].
  2:{ rewrite map_iter_perm in Hin. apply elem_of_map_to_list in Hin. by apply (Hs _ _ _ Hin). }
  cbn [mbind outcome_bind]. rewrite Hsum, fresh_map, (right_id_L ∅ _), Z.add_0_l.
  unfold calc_ckb_custodian_min_capacity. rewrite Ha. cbn [unwrap mbind outcome_bind].
  assert (Hmin : a = min_change) by (unfold min_change; by rewrite Ha). subst a.
  rewrite saturating_sub_spec by done. eexists. split; [reflexivity|]. split; [|done].
  fold (spare available). pose proof (min_change_range _ Hok).
  constructor; cbn [wg_ckb_custodian wg_sudt_custodians wg_withdrawals ck_min_capacity ck_capacity ck_balance].
  - done.
  - intros h. rewrite lookup_fmap. destruct (fc_sudt available !! h) as [[b s]|] eqn:Hh; constructor.
    destruct (Hs _ _ _ Hh) as (Hb & _). unfold token_ok, total_amount. cbn.
    rewrite (proj2 (Z.eqb_neq b 0)) by lia. split_and!; [done|lia..].
  - rewrite map_sum_fmap. unfold spare.
    change (map_sum (sc_sudt_capacity ∘ fresh_custodian) (fc_sudt available)) with (reserved available). cbn. lia.
  - done.
  - done.
  - unfold saturating_sub, spare. lia.
  - intros Hsol. unfold solvent, solvent_start in *. cbn. unfold saturating_sub. lia.
Qed.

Section Include.
Context (available : FinalizedCustodianCapacity) (Hcust : custodians_ok available).

Lemma token_of outs paid g h c :
  account_at available outs paid g → wg_sudt_custodians g !! h = Some c →
  ∃ b s, fc_sudt available !! h = Some (b, s) ∧ token_ok outs h b s c.
Proof.
  intros Hac Hc. pose proof (ac_tokens _ _ _ _ Hac h) as Ht. rewrite Hc in Ht.
  inversion Ht as [[b s] c' Htok Hf|]; subst. by exists b, s.
Qed.
Lemma token_capacity outs paid g h c :
  account_at available outs paid g → wg_sudt_custodians g !! h = Some c → 0 ≤ sc_sudt_capacity c < 2 ^ 64.
Proof.
  intros Hac Hc. destruct (token_of _ _ _ _ _ Hac Hc) as (b & s & Hs & (_ & _ & _ & ->)).
  destruct (co_sudt _ Hcust _ _ _ Hs) as (_ & _ & Hr). pose proof (reserve_range _ Hr). case_match; lia.
Qed.

Lemma give_back_run outs paid g h c :
  account_at available outs paid g → wg_sudt_custodians g !! h = Some c → 0 < sc_balance c →
  ∃ ckb, give_back (sc_sudt_capacity c) (wg_ckb_custodian g) = Ok ckb
    ∧ ck_capacity ckb = ck_capacity (wg_ckb_custodian g) + sc_sudt_capacity c
    ∧ ck_min_capacity ckb = min_change ∧ 0 ≤ ck_balance ckb ≤ ck_capacity ckb
    ∧ (solvent_start available → solvent ckb) ∧ ck_balance (wg_ckb_custodian g) ≤ ck_balance ckb.
Proof.
  intros Hac Hc Hb. destruct (token_of _ _ _ _ _ Hac Hc) as (b & s & Hs & (_ & _ & _ & Hcap)).
  rewrite (proj2 (Z.eqb_neq _ 0)) in Hcap by lia. pose proof (min_change_reserve _ _ _ _ Hcust Hs) as Hmin.
  pose proof (min_change_range _ Hcust). pose proof (token_capacity _ _ _ _ _ Hac Hc).
  assert (Hsum : sc_sudt_capacity c ≤ map_sum sc_sudt_capacity (wg_sudt_custodians g)).
  { eapply map_sum_elem; [|done]. intros k v Hv. pose proof (token_capacity _ _ _ _ _ Hac Hv). lia. }
  pose proof (co_capacity_range _ Hcust). destruct Hac as [Hm _ Htotal Hpaid _ Hbal Hsol].
  unfold give_back, sub_w. rewrite Hm, Hcap in *. destruct (Z.eqb_spec (ck_capacity (wg_ckb_custodian g)) 0) as [E0|E0].
  - rewrite (proj2 (checked_sub_Some _ _ _)) by (split; [reflexivity|lia]). cbn [unwrap mbind outcome_bind].
    eexists. split; [reflexivity|]. cbn. unfold solvent. cbn. split_and!; try lia.
  - rewrite !add_w_run by lia. cbn [mbind outcome_bind].
    eexists. split; [reflexivity|]. cbn. split_and!; try lia. intros Hst. destruct (Hsol Hst); [lia|].
    right. cbn. lia.
Qed.

(** What is left of a token *)
Definition left_of (g : WGenerator) (h : H256) : Z := default 0 (sc_balance <$> wg_sudt_custodians g !! h).
Definition asks (raw : RawWithdrawalRequest) (h : H256) : Z :=
  if bool_decide (w_sudt_script_hash raw = h) then w_amount raw else 0.

(** The cell of a request of [amount] tokens of type [h] *)
Definition pays (g : WGenerator) (h : H256) (amount : Z) (out : CellOutput * bytes) : Prop :=
  co_type out.1 = sc_script <$> wg_sudt_custodians g !! h
  ∧ out.2 = match co_type out.1 with Some _ => le_bytes 16 amount | None => [] end.

Lemma token_ok_other outs h b s c out :
  amount_of h out = 0 → token_ok outs h b s c → token_ok (outs ++ [out]) h b s c.
Proof.
  intros Ha (? & ? & Hb & ?). unfold token_ok, total_amount in *. rewrite sum_over_app. cbn.
  split_and!; [done..|lia|done].
Qed.

Lemma pays_known outs paid g h amount out :
  account_at available outs paid g → pays g h amount out → known_type available out.
Proof.
  intros Hac [Hty _] s Hs. rewrite Hs in Hty. symmetry in Hty. apply fmap_Some in Hty as (c & Hc & ->).
  destruct (token_of _ _ _ _ _ Hac Hc) as (b & s & Hf & (-> & _)).
  destruct (co_sudt _ Hcust _ _ _ Hf) as (_ & <- & _). by eexists.
Qed.

Lemma pays_nothing outs paid g h out :
  account_at available outs paid g → pays g h 0 out → account_at available (outs ++ [out]) paid g.
Proof.
  intros Hac Hpays. pose proof (pays_known _ _ _ _ _ _ Hac Hpays). destruct Hac, Hpays as [Hty Hd].
  constructor; try done; [|by apply Forall_app_2; [|constructor]]. intros k. pose proof (ac_tokens0 k) as Hk.
  destruct Hk as [[b s] c Htok|]; constructor. apply token_ok_other; [|done].
  unfold amount_of. rewrite Hd. case_bool_decide as Ht; [|done]. destruct (co_type out.1); [|done].
  apply le_val_bytes_small. lia.
Qed.

Lemma pays_amount outs paid g h c remained capacity out ckb :
  account_at available outs paid g → wg_sudt_custodians g !! h = Some c →
  pays g h (sc_balance c - remained) out → 0 ≤ remained ≤ sc_balance c → sc_balance c - remained < 2 ^ 128 →
  capacity = (if remained =? 0 then 0 else sc_sudt_capacity c) →
  sc_balance c ≠ 0 →
  ck_capacity ckb + capacity = ck_capacity (wg_ckb_custodian g) + sc_sudt_capacity c →
  ck_min_capacity ckb = min_change → 0 ≤ ck_balance ckb ≤ ck_capacity ckb →
  (solvent_start available → solvent ckb) →
  account_at available (outs ++ [out]) paid
    (wg_with_sudt h (mkSudtCustodian capacity remained (sc_script c)) (wg_with_ckb ckb g)).
Proof.
  intros Hac Hc Hpays Hr Hlt Hcap Hne Hsum Hmin Hbal Hsol. pose proof (ac_tokens _ _ _ _ Hac) as Htok.
  pose proof (pays_known _ _ _ _ _ _ Hac Hpays) as Hknown. destruct Hpays as [Hty Hd].
  rewrite Hc in Hty. cbn in Hty. rewrite Hty in Hd.
  constructor; cbn [wg_with_sudt wg_with_ckb wg_ckb_custodian wg_sudt_custodians]; try done.
  - intros k. destruct (decide (k = h)) as [->|Hkh].
    + rewrite lookup_insert_eq. destruct (token_of _ _ _ _ _ Hac Hc) as (b & s & Hs & (Hsc & Hz & Hb & Hcc)).
      assert (Ha : amount_of h out = sc_balance c - remained).
      { destruct (co_sudt _ Hcust _ _ _ Hs) as (_ & Hh & _).
        unfold amount_of. rewrite Hty, Hd, Hsc, bool_decide_true by (cbn; congruence). apply le_val_bytes_small. lia. }
      rewrite Hs. constructor. unfold token_ok, total_amount in *. cbn. rewrite sum_over_app. cbn.
      split_and!; [done|lia|lia|].
      rewrite Hcap, Hcc. rewrite (proj2 (Z.eqb_neq (sc_balance c) 0)) by done. by destruct (remained =? 0).
    + rewrite lookup_insert_ne by done. pose proof (Htok k) as Hk.
      destruct (fc_sudt available !! k) as [[b s]|] eqn:Ek, (wg_sudt_custodians g !! k) as [c'|]; inversion Hk; subst;
        constructor. apply token_ok_other; [|done]. unfold amount_of. rewrite Hty.
      rewrite bool_decide_false; [done|]. intros [= Hss].
      destruct (token_of _ _ _ _ _ Hac Hc) as (b' & s' & Hs & (Hsc & _)).
      destruct (co_sudt _ Hcust _ _ _ Hs) as (_ & -> & _). apply Hkh. congruence.
  - rewrite (map_sum_insert _ _ _ c) by done. pose proof (ac_capacity _ _ _ _ Hac). cbn. lia.
  - apply (ac_paid _ _ _ _ Hac).
  - apply Forall_app_2; [apply (ac_types _ _ _ _ Hac)|by constructor].
Qed.

Lemma include_sudt_run outs paid g raw out :
  account_at available outs paid g → 0 ≤ w_amount raw < 2 ^ 128 →
  pays g (w_sudt_script_hash raw) (w_amount raw) out →
  (w_amount raw ≠ 0 → ∃ c, wg_sudt_custodians g !! w_sudt_script_hash raw = Some c ∧ w_amount raw ≤ sc_balance c) →
  ∃ g1, include_sudt raw g = (Ok tt, g1) ∧ account_at available (outs ++ [out]) paid g1
    ∧ wg_withdrawals g1 = wg_withdrawals g ∧ ckb_after_sudt g raw = Ok (wg_ckb_custodian g1)
    ∧ ck_balance (wg_ckb_custodian g) ≤ ck_balance (wg_ckb_custodian g1)
    ∧ ∀ h, left_of g1 h = left_of g h - asks raw h.
Proof.
  intros Hac Ha Hpays Henough. unfold include_sudt, ckb_after_sudt.
  destruct (Z.eqb_spec 0 (w_amount raw)) as [E0|E0]; cbn [negb].
  { exists g. rewrite <- E0 in Hpays. split_and!; try done; [by eapply pays_nothing|].
    intros h. unfold asks. case_bool_decide; lia. }
  destruct (Henough ltac:(lia)) as (c & Hc & Hle). rewrite Hc. cbn [ok_or mbind outcome_bind].
  destruct (checked_sub (sc_balance c) (w_amount raw)) as [r|] eqn:Hr; [|apply checked_sub_None in Hr; lia].
  apply checked_sub_Some in Hr as [-> _]. cbn [ok_or mbind outcome_bind].
  assert (Hleft : ∀ cap k l h, left_of (mkWGenerator k (<[w_sudt_script_hash raw :=
      mkSudtCustodian cap (sc_balance c - w_amount raw) (sc_script c)]> (wg_sudt_custodians g)) l) h
      = left_of g h - asks raw h).
  { intros cap k l h. unfold left_of, asks. cbn. case_bool_decide as Hh; [subst h; rewrite lookup_insert_eq, Hc; done|].
    rewrite lookup_insert_ne by done. lia. }
  destruct (Z.eqb_spec 0 (sc_balance c - w_amount raw)) as [Er|Er].
  - destruct (give_back_run _ _ _ _ _ Hac Hc) as (ckb & -> & Hcap & Hmin & Hbal & Hsol & Hmore); [lia|].
    eexists. split; [reflexivity|]. split_and!; [|done..|intros h; unfold wg_with_sudt at 1; cbn; rewrite insert_insert_eq; apply Hleft].
    unfold wg_with_sudt at 2, wg_with_ckb. cbn [wg_sudt_custodians wg_withdrawals wg_ckb_custodian].
    unfold wg_with_sudt. cbn [wg_sudt_custodians wg_withdrawals wg_ckb_custodian]. rewrite insert_insert_eq.
    apply (pays_amount outs paid g _ c (sc_balance c - w_amount raw) 0 out ckb); try done; try lia.
    + by replace (sc_balance c - (sc_balance c - w_amount raw)) with (w_amount raw) by lia.
    + by rewrite <- Er.
  - eexists. split; [reflexivity|]. split_and!; [|done..|intros h; apply Hleft].
    pose proof (pays_amount outs paid g (w_sudt_script_hash raw) c (sc_balance c - w_amount raw) (sc_sudt_capacity c) out (wg_ckb_custodian g)) as Hp.
    unfold wg_with_ckb in Hp. destruct g as [k m l]; cbn in *. apply Hp; try done; try lia; try apply Hac.
    + by replace (sc_balance c - (sc_balance c - w_amount raw)) with (w_amount raw) by lia.
    + by rewrite (proj2 (Z.eqb_neq _ 0)) by lia.
Qed.

Lemma include_ckb_run outs paid g raw :
  account_at available outs paid g → 0 ≤ w_capacity raw →
  w_capacity raw ≤ ck_balance (wg_ckb_custodian g) ∨ w_capacity raw = ck_capacity (wg_ckb_custodian g) →
  ∃ g1, include_ckb raw g = (Ok tt, g1) ∧ account_at available outs (paid + w_capacity raw) g1
    ∧ wg_withdrawals g1 = wg_withdrawals g ∧ wg_sudt_custodians g1 = wg_sudt_custodians g
    ∧ ck_balance (wg_ckb_custodian g) - w_capacity raw ≤ ck_balance (wg_ckb_custodian g1).
Proof.
  intros [Hm Ht Hc Hp Hty Hb Hs] Hw Henough. unfold include_ckb.
  destruct (checked_sub (ck_balance _) (w_capacity raw)) as [r|] eqn:Hr.
  - apply checked_sub_Some in Hr as [-> Hr]. unfold sub_w.
    rewrite (proj2 (checked_sub_Some _ _ _)) by (split; [reflexivity|lia]). cbn [unwrap].
    eexists. split; [reflexivity|]. split; [|done]. constructor; cbn; try done; try lia.
    intros Hst. destruct (Hs Hst) as [[]|[]]; unfold solvent; cbn; lia.
  - apply checked_sub_None in Hr. rewrite (proj2 (Z.eqb_eq _ _)) by lia.
    eexists. split; [reflexivity|]. split; [|cbn; split_and!; [done..|lia]]. constructor; cbn; try done; try lia.
    intros _. by left.
Qed.

Lemma ckb_after_sudt_cases outs paid g raw :
  account_at available outs paid g → 0 ≤ w_amount raw →
  (∃ e, ckb_after_sudt g raw = Err e)
  ∨ (w_amount raw ≠ 0 → ∃ c, wg_sudt_custodians g !! w_sudt_script_hash raw = Some c ∧ w_amount raw ≤ sc_balance c).
Proof.
  intros Hac Ha. unfold ckb_after_sudt. destruct (Z.eqb_spec 0 (w_amount raw)); [right; lia|]. cbn [negb].
  destruct (wg_sudt_custodians g !! w_sudt_script_hash raw) as [c|]; [|left; by eexists]. cbn [ok_or mbind outcome_bind].
  destruct (checked_sub (sc_balance c) (w_amount raw)) as [r|] eqn:Hr; [|left; by eexists].
  apply checked_sub_Some in Hr as [_ Hr]. right. intros _. by exists c.
Qed.

Lemma verify_remained_ckb_cases ckb capacity :
  (∃ e, verify_remained_ckb ckb capacity = Err e)
  ∨ verify_remained_ckb ckb capacity = Ok tt ∧ (capacity ≤ ck_balance ckb ∨ capacity = ck_capacity ckb).
Proof.
  unfold verify_remained_ckb. destruct (checked_sub _ _) as [x|] eqn:Hx; [apply checked_sub_Some in Hx; right; split; [done|lia]|].
  destruct (Z.eqb_spec capacity (ck_capacity ckb)); [by right; auto|left; by eexists].
Qed.

Lemma build_withdrawal_shape r hash tp s out :
  build_withdrawal_cell_output ctx r hash tp s = Ok out →
  co_type out.1 = s ∧ co_capacity out.1 = w_capacity (w_raw (we_request r))
  ∧ out.2 = match s with Some _ => le_bytes 16 (w_amount (w_raw (we_request r))) | None => [] end.
Proof. unfold build_withdrawal_cell_output. intros ?. inv_ok. repeat case_match; simplify_eq; done. Qed.

(** A request is either refused, and the account is as it was, or paid. *)
Lemma include_and_verify_cases g r block tp :
  account_ok available g → request_ok r →
  finalized_timepoint (E:=WithdrawalGenError) (rollup_config ctx) (fork_config ctx) (block_number block)
    (timestamp (block_raw block)) = Ok tp →
  (∃ e, include_and_verify ctx r block g = (Err e, g))
  ∨ ∃ g' out, include_and_verify ctx r block g = (Ok tt, g') ∧ account_ok available g'
      ∧ wg_withdrawals g' = wg_withdrawals g ++ [out]
      ∧ build_withdrawal_cell_output ctx r (block_hash block) tp
          (sc_script <$> wg_sudt_custodians g !! w_sudt_script_hash (w_raw (we_request r))) = Ok out
      ∧ ck_balance (wg_ckb_custodian g) - w_capacity (w_raw (we_request r)) ≤ ck_balance (wg_ckb_custodian g')
      ∧ ∀ h, left_of g' h = left_of g h - asks (w_raw (we_request r)) h.
Proof.
  intros Hac [Hcap Ham] Htp. set (raw := w_raw (we_request r)) in *. unfold include_and_verify, verified_output.
  fold raw. rewrite Htp. unfold mbind, ST_bind, lift, reject_if.
  destruct (negb _ && _); [left; by eexists|]. cbn [outcome_bind].
  destruct (build_withdrawal_cell_output _ _ _ _ _) as [out|e|] eqn:Hout; cbn [map_err outcome_bind]; [|left; by eexists|].
  2:{ exfalso. revert Hout. unfold build_withdrawal_cell_output, reject_if. cbn [mbind outcome_bind].
      repeat case_match; done. }
  assert (Hpays : pays g (w_sudt_script_hash raw) (w_amount raw) out ∧ co_capacity out.1 = w_capacity raw).
  { destruct (build_withdrawal_shape _ _ _ _ _ Hout) as (Hty & Hoc & Hd). unfold pays. by rewrite Hd, Hty. }
  destruct Hpays as [Hpays Hoc]. unfold verify_remained_amount. fold raw.
  destruct (ckb_after_sudt_cases _ _ _ raw Hac) as [[e He]|Henough]; [lia|rewrite He; left; by eexists|].
  destruct (include_sudt_run _ _ _ raw out Hac Ham Hpays Henough) as (g1 & Hg1 & Hac1 & Hw1 & -> & Hb1 & Hl1).
  cbn [mbind outcome_bind].
  destruct (verify_remained_ckb_cases (wg_ckb_custodian g1) (w_capacity raw)) as [[e ->]|[-> Hckb]]; [left; by eexists|]. cbn [outcome_bind].
  destruct (include_ckb_run _ _ _ raw Hac1) as (g2 & Hg2 & Hac2 & Hw2 & Hs2 & Hb2); [lia|done|].
  right. exists (wg_push out g2), out. rewrite Hg1, Hg2. unfold modify. split; [done|].
  split; [|split_and!; [cbn; congruence|done|cbn; lia|]].
  2:{ intros h. rewrite <- Hl1. unfold left_of. cbn. by rewrite Hs2. }
  unfold account_ok. cbn [wg_push wg_withdrawals].
  rewrite Hw2, Hw1. unfold total_capacity. rewrite sum_over_app. cbn [sum_over].
  replace (sum_over _ (wg_withdrawals g) + (co_capacity out.1 + 0))
    with (total_capacity (wg_withdrawals g) + w_capacity raw) by (unfold total_capacity; lia).
  destruct Hac2. by constructor.
Qed.

(** *** Change *)
(** A cell with the capacity CKB asks for *)
Definition cell_fits (o : CellOutput * bytes) : Prop :=
  ∃ a, occupied_capacity o.1 (length o.2) = Some a ∧ a ≤ co_capacity o.1.
Definition ckb_only (o : CellOutput * bytes) : Prop := co_type o.1 = None.

Lemma build_ckb_output_fits c : min_change ≤ c < 2 ^ 64 → cell_fits (build_ckb_output ctx c).
Proof.
  intros Hc. destruct (co_min _ Hcust) as (a & Ha & _). exists a. unfold build_ckb_output. cbn [fst snd length co_capacity].
  pose proof (min_change_range _ Hcust). rewrite Z.mod_small by lia.
  rewrite (occupied_any_capacity _ 1). split; [done|]. unfold min_change in Hc. rewrite Ha in Hc. apply Hc.
Qed.

Lemma split_change_spec fuel r :
  min_change ≤ r < 2 ^ 128 → r / MAX_CHANGE_CAPACITY < Z.of_nat fuel →
  total_capacity (split_change ctx fuel min_change r) = r
  ∧ Forall cell_fits (split_change ctx fuel min_change r)
  ∧ Forall ckb_only (split_change ctx fuel min_change r).
Proof.
  pose proof (min_change_range _ Hcust) as Hm.
  assert (Hhalf : 2 * min_change ≤ MAX_CHANGE_CAPACITY).
  { destruct (co_min _ Hcust) as (a & Ha & Hle). unfold min_change. by rewrite Ha. }
  assert (HM : MAX_CHANGE_CAPACITY = 2 ^ 64 - 2) by reflexivity.
  revert r. induction fuel as [|fuel IH]; intros r Hr Hfuel.
  { pose proof (Z.div_pos r MAX_CHANGE_CAPACITY). lia. }
  cbn [split_change]. rewrite (proj2 (Z.ltb_lt _ _)) by lia. rewrite saturating_sub_spec by lia.
  destruct (checked_sub (r - min_change) MAX_CHANGE_CAPACITY) as [cap|] eqn:Hc.
  - apply checked_sub_Some in Hc as [-> Hc]. unfold saturating_add. rewrite Z.min_l by lia.
    replace (r - min_change - MAX_CHANGE_CAPACITY + min_change) with (r - MAX_CHANGE_CAPACITY) by lia.
    destruct (IH (r - MAX_CHANGE_CAPACITY)) as (Ht & Hf & Hk); [lia| |].
    { replace (r / MAX_CHANGE_CAPACITY) with ((r - MAX_CHANGE_CAPACITY) / MAX_CHANGE_CAPACITY + 1) in Hfuel; [lia|].
      rewrite <- Z.div_add by lia. f_equal. lia. }
    unfold total_capacity in *. cbn [sum_over]. split_and!; [|constructor; [apply build_ckb_output_fits; lia|done]|by constructor].
    cbn. rewrite Z.mod_small by lia. lia.
  - apply checked_sub_None in Hc. unfold saturating_add.
    rewrite (Z.min_l (r - min_change + min_change)) by lia. replace (r - min_change + min_change) with r by lia.
    unfold total_capacity. destruct (Z.ltb_spec MAX_CHANGE_CAPACITY r) as [Hlt|Hge].
    + pose proof (Z.div_mod r 2 ltac:(lia)). pose proof (Z.mod_pos_bound r 2 ltac:(lia)).
      rewrite saturating_sub_spec by lia. split_and!; [cbn; rewrite !Z.mod_small by lia; lia| |by repeat constructor].
      repeat constructor; apply build_ckb_output_fits; lia.
    + rewrite (Z.mod_small (r - min_change)) by lia. rewrite Z.min_l by lia.
      replace (r - min_change + min_change) with r by lia.
      split_and!; [cbn; rewrite Z.mod_small by lia; lia| |by repeat constructor].
      repeat constructor; apply build_ckb_output_fits; lia.
Qed.

Lemma ckb_change_spec outs paid g :
  account_at available outs paid g →
  total_capacity (ckb_change ctx (wg_ckb_custodian g)) = ck_capacity (wg_ckb_custodian g)
  ∧ Forall ckb_only (ckb_change ctx (wg_ckb_custodian g))
  ∧ (solvent_start available → Forall cell_fits (ckb_change ctx (wg_ckb_custodian g))).
Proof.
  intros Hac. pose proof (co_capacity_range _ Hcust). pose proof (min_change_range _ Hcust).
  assert (Hsum : 0 ≤ map_sum sc_sudt_capacity (wg_sudt_custodians g)).
  { apply map_sum_nonneg. intros k v Hv. pose proof (token_capacity _ _ _ _ _ Hac Hv). lia. }
  destruct Hac as [Hm _ Hc Hp _ Hb Hs]. unfold ckb_change. rewrite Hm.
  destruct (Z.eqb_spec (ck_capacity (wg_ckb_custodian g)) 0) as [->|Hne]; [by split_and!|].
  destruct (Z.ltb_spec (ck_capacity (wg_ckb_custodian g)) u64_max) as [Hlt|Hge]; unfold u64_max in *.
  - unfold total_capacity. cbn [sum_over]. split_and!; [cbn; rewrite Z.mod_small by lia; lia|by repeat constructor|].
    intros Hst. constructor; [|done]. apply build_ckb_output_fits. destruct (Hs Hst) as [[]|[]]; lia.
  - destruct (split_change_spec (change_fuel (ck_capacity (wg_ckb_custodian g))) (ck_capacity (wg_ckb_custodian g)))
      as (? & ? & ?); [lia| |done].
    unfold change_fuel. pose proof (Z.div_pos (ck_capacity (wg_ckb_custodian g)) MAX_CHANGE_CAPACITY ltac:(lia) ltac:(done)).
    lia.
Qed.

Definition token_change (g : WGenerator) : list (CellOutput * bytes) :=
  sudt_change ctx <$> filter (λ c, has_change c = true) (map_iter (wg_sudt_custodians g)).*2.

Lemma has_change_token outs h b s c :
  token_ok outs h b s c → is_Some (occupied_capacity (mkCellOutput 1 lock (Some s)) 16) →
  has_change c = negb (sc_balance c =? 0).
Proof.
  intros (_ & Hb & _ & Hc) Hs. pose proof (reserve_range _ Hs). unfold has_change. rewrite Hc.
  destruct (Z.eqb_spec (sc_balance c) 0) as [->|Hne]; [done|].
  rewrite (proj2 (Z.eqb_neq 0 _)), (proj2 (Z.eqb_neq 0 (sc_balance c))) by lia. done.
Qed.

Lemma token_change_spec outs paid g :
  account_at available outs paid g →
  total_capacity (token_change g) = map_sum sc_sudt_capacity (wg_sudt_custodians g)
  ∧ (∀ h b s, fc_sudt available !! h = Some (b, s) →
       total_amount h (token_change g) + total_amount h outs = b)
  ∧ Forall (known_type available) (token_change g)
  ∧ Forall cell_fits (token_change g).
Proof.
  intros Hac. unfold total_capacity, total_amount, token_change. rewrite !sum_over_fmap. split_and!.
  - rewrite sum_over_filter. apply map_sum_ext. intros h c Hc. cbn.
    destruct (token_of _ _ _ _ _ Hac Hc) as (b & s & Hs & Ht). destruct (co_sudt _ Hcust _ _ _ Hs) as (_ & _ & Hr).
    rewrite (has_change_token _ _ _ _ _ Ht Hr). destruct Ht as (_ & _ & _ & ->).
    by destruct (sc_balance c =? 0).
  - intros h b s Hs. rewrite sum_over_fmap, sum_over_filter.
    pose proof (ac_tokens _ _ _ _ Hac h) as Hh. rewrite Hs in Hh.
    inversion Hh as [e c Ht He Hc|]; subst e. symmetry in Hc. cbn in Ht.
    destruct (co_sudt _ Hcust _ _ _ Hs) as (Hb & Hhash & Hr).
    etrans; [apply f_equal2; [|reflexivity]; apply (map_sum_single _ _ _ _ Hc)|].
    + intros k c' Hc' Hne. destruct (token_of _ _ _ _ _ Hac Hc') as (b' & s' & Hs' & Ht').
      destruct (co_sudt _ Hcust _ _ _ Hs') as (_ & Hk & _). destruct (has_change c'); [|done].
      unfold amount_of. cbn. destruct Ht' as (-> & _). rewrite bool_decide_false; [done|]. congruence.
    + cbn beta. rewrite (has_change_token _ _ _ _ _ Ht Hr). destruct Ht as (Hsc & H0' & Hsum & _).
      unfold total_amount in Hsum.
      assert (Hout : 0 ≤ sum_over (amount_of h) outs).
      { apply sum_over_nonneg. intros o _. unfold amount_of. case_bool_decide; [|lia]. apply le_val_range. }
      destruct (Z.eqb_spec (sc_balance c) 0); cbn [negb]; [lia|].
      unfold compose, amount_of, sudt_change. cbn [fst snd co_type]. rewrite Hsc, bool_decide_true by (cbn; congruence).
      rewrite le_val_bytes_small by lia. cbn. apply Hsum.
  - apply Forall_fmap, Forall_forall. intros c [_ Hin]%list_elem_of_filter s [= <-].
    apply list_elem_of_fmap in Hin as ([h c'] & -> & Hin). rewrite map_iter_perm in Hin.
    apply elem_of_map_to_list in Hin. cbn in *.
    destruct (token_of _ _ _ _ _ Hac Hin) as (b & s & Hs & (-> & _)).
    destruct (co_sudt _ Hcust _ _ _ Hs) as (_ & <- & _). by eexists.
  - apply Forall_fmap, Forall_forall. intros c [Hch Hin]%list_elem_of_filter.
    apply list_elem_of_fmap in Hin as ([h c'] & -> & Hin). rewrite map_iter_perm in Hin.
    apply elem_of_map_to_list in Hin. cbn in *.
    destruct (token_of _ _ _ _ _ Hac Hin) as (b & s & Hs & Ht). destruct (co_sudt _ Hcust _ _ _ Hs) as (_ & _ & Hr).
    rewrite (has_change_token _ _ _ _ _ Ht Hr) in Hch. destruct Ht as (Hsc & _ & _ & Hcap).
    destruct (sc_balance c' =? 0); [done|]. destruct Hr as [r Hr]. exists r. unfold sudt_change. cbn [fst snd co_capacity].
    rewrite le_bytes_length, Hsc, Hcap, (occupied_any_capacity _ 1), Hr. unfold reserve. rewrite Hr. done.
Qed.

Lemma unknown_amount h l :
  fc_sudt available !! h = None → Forall (known_type available) l → sum_over (amount_of h) l = 0.
Proof.
  intros Hh Hk. apply sum_over_zero. intros o Ho. unfold amount_of. case_bool_decide as Ht; [|done].
  apply fmap_Some in Ht as (s & Hs & ->). rewrite Forall_forall in Hk. destruct (Hk o Ho s Hs) as [x Hx]. congruence.
Qed.

Lemma finish_spec g :
  account_ok available g →
  total_capacity (finish ctx g) = fc_capacity available
  ∧ (∀ h, total_amount h (finish ctx g) = default 0 (fst <$> fc_sudt available !! h))
  ∧ (solvent_start available →
     Forall cell_fits (token_change g ++ ckb_change ctx (wg_ckb_custodian g))).
Proof.
  intros Hac. destruct (token_change_spec _ _ _ Hac) as (Htc & Hta & Htk & Htf).
  destruct (ckb_change_spec _ _ _ Hac) as (Hcc & Hck & Hcf). pose proof (ac_capacity _ _ _ _ Hac).
  unfold finish. fold (token_change g). split_and!.
  - unfold total_capacity in *. rewrite !sum_over_app. lia.
  - intros h. unfold total_amount in *. rewrite !sum_over_app.
    assert (Hz : sum_over (amount_of h) (ckb_change ctx (wg_ckb_custodian g)) = 0).
    { apply sum_over_zero. intros o Ho. unfold amount_of. rewrite Forall_forall in Hck. by rewrite (Hck o Ho). }
    destruct (fc_sudt available !! h) as [[b s]|] eqn:Hs; [specialize (Hta h b s Hs); cbn; lia|].
    rewrite Hz. cbn. pose proof (ac_types _ _ _ _ Hac) as Hk. rewrite !(unknown_amount h) by done. done.
  - intros Hst. apply Forall_app. auto.
Qed.

(** *** What is left *)
Lemma sum_capacities_run (l : list SudtCustodian) a :
  (∀ c, c ∈ l → 0 ≤ sc_sudt_capacity c) → 0 ≤ a → a + sum_over sc_sudt_capacity l < 2 ^ 128 →
  foldM (λ a c, add_w 128 a (sc_sudt_capacity c)) a l
  = Ok (E:=WithdrawalGenError) (a + sum_over sc_sudt_capacity l).
Proof.
  revert a. induction l as [|c l IH]; intros a Hl Ha Hsum; cbn [foldM sum_over] in *; [by rewrite Z.add_0_r|].
  pose proof (Hl c ltac:(left)).
  assert (0 ≤ sum_over sc_sudt_capacity l) by (apply sum_over_nonneg; intros x Hx; apply Hl; by right).
  rewrite add_w_run by lia. cbn [mbind outcome_bind].
  rewrite IH; [f_equal; lia|intros x Hx; apply Hl; by right|lia..].
Qed.

Lemma remaining_capacity_spec g :
  account_ok available g →
  ∃ c, remaining_capacity g = Ok c
    ∧ fc_capacity c + total_capacity (wg_withdrawals g) = fc_capacity available
    ∧ ∀ h, default 0 (fst <$> fc_sudt c !! h) + total_amount h (wg_withdrawals g)
           = default 0 (fst <$> fc_sudt available !! h).
Proof.
  intros Hac. pose proof (co_capacity_range _ Hcust). pose proof (ac_capacity _ _ _ _ Hac) as Hc.
  pose proof (ac_paid _ _ _ _ Hac). pose proof (ac_balance _ _ _ _ Hac).
  unfold remaining_capacity. rewrite sum_capacities_run; [|intros c Hin|lia|].
  2:{ apply list_elem_of_fmap in Hin as ([h c'] & -> & Hin). rewrite map_iter_perm in Hin.
      apply elem_of_map_to_list in Hin. pose proof (token_capacity _ _ _ _ _ Hac Hin). cbn. lia. }
  2:{ fold (map_sum sc_sudt_capacity (wg_sudt_custodians g)). lia. }
  fold (map_sum sc_sudt_capacity (wg_sudt_custodians g)). cbn [mbind outcome_bind].
  rewrite add_w_run by lia. cbn [mbind outcome_bind].
  eexists. split; [reflexivity|]. cbn [fc_capacity fc_sudt]. split; [lia|]. intros h. rewrite lookup_fmap.
  pose proof (ac_tokens _ _ _ _ Hac h) as Hh. inversion Hh as [[b s] c Htok E1 E2|E1 E2]; cbn.
  - destruct Htok as (_ & _ & Hb & _). apply Hb.
  - unfold total_amount. rewrite unknown_amount; [done|done|apply (ac_types _ _ _ _ Hac)].
Qed.

(** *** Any sequence of requests, as the memory pool offers them *)
Fixpoint include_all (block : L2Block) (reqs : list WithdrawalRequestExtra) (g : WGenerator) :
    list (outcome WithdrawalGenError unit) * WGenerator :=
  match reqs with
  | [] => ([], g)
  | r :: reqs =>
      let (result, g) := include_and_verify ctx r block g in
      let (results, g) := include_all block reqs g in
      (result :: results, g)
  end.

Lemma include_all_ok block tp reqs g :
  finalized_timepoint (E:=WithdrawalGenError) (rollup_config ctx) (fork_config ctx) (block_number block)
    (timestamp (block_raw block)) = Ok tp →
  Forall request_ok reqs → account_ok available g →
  account_ok available (include_all block reqs g).2 ∧ Panic ∉ (include_all block reqs g).1.
Proof.
  intros Htp Hreqs. revert g. induction Hreqs as [|r reqs Hr _ IH]; intros g Hac; [split; [done|apply not_elem_of_nil]|].
  cbn [include_all].
  destruct (include_and_verify_cases g r block tp Hac Hr Htp) as [[e ->]|(g' & out & -> & Hac' & _)].
  - specialize (IH g Hac). destruct (include_all block reqs g). cbn in *. rewrite not_elem_of_cons. naive_solver.
  - specialize (IH g' Hac'). destruct (include_all block reqs g'). cbn in *. rewrite not_elem_of_cons. naive_solver.
Qed.

Lemma account_of_requests block tp reqs :
  finalized_timepoint (E:=WithdrawalGenError) (rollup_config ctx) (fork_config ctx) (block_number block)
    (timestamp (block_raw block)) = Ok tp →
  Forall request_ok reqs →
  ∃ g0 results g, WGenerator_new ctx available = Ok g0 ∧ include_all block reqs g0 = (results, g)
    ∧ (Panic ∉ results) ∧ account_ok available g.
Proof.
  intros Htp Hreqs. destruct (WGenerator_new_run available Hcust) as (g0 & Hnew & Hac & _).
  destruct (include_all_ok block tp reqs g0 Htp Hreqs Hac) as [Hac' Hp].
  destruct (include_all block reqs g0) as [results g] eqn:Hall. by exists g0, results, g.
Qed.

(** A request whose cell can be built and that the account covers is paid. *)
Lemma include_succeeds g r block tp out :
  account_ok available g → request_ok r →
  finalized_timepoint (E:=WithdrawalGenError) (rollup_config ctx) (fork_config ctx) (block_number block)
    (timestamp (block_raw block)) = Ok tp →
  build_withdrawal_cell_output ctx r (block_hash block) tp
    (sc_script <$> wg_sudt_custodians g !! w_sudt_script_hash (w_raw (we_request r))) = Ok out →
  w_capacity (w_raw (we_request r)) ≤ ck_balance (wg_ckb_custodian g) →
  w_amount (w_raw (we_request r)) ≤ left_of g (w_sudt_script_hash (w_raw (we_request r))) →
  ∃ g', include_and_verify ctx r block g = (Ok tt, g').
Proof.
  intros Hac [Hcap Ham] Htp Hout Hckb Hsudt. set (raw := w_raw (we_request r)) in *.
  assert (Henough : w_amount raw ≠ 0 →
    ∃ c, wg_sudt_custodians g !! w_sudt_script_hash raw = Some c ∧ w_amount raw ≤ sc_balance c).
  { intros Hne. unfold left_of in Hsudt. destruct (wg_sudt_custodians g !! w_sudt_script_hash raw) as [c|]; cbn in Hsudt; [by exists c|lia]. }
  assert (Hpays : pays g (w_sudt_script_hash raw) (w_amount raw) out).
  { destruct (build_withdrawal_shape _ _ _ _ _ Hout) as (Hty & _ & Hd). unfold pays. by rewrite Hd, Hty. }
  destruct (include_sudt_run _ _ _ raw out Hac Ham Hpays Henough) as (g1 & Hg1 & Hac1 & Hw1 & Hafter & Hb1 & Hl1).
  destruct (include_ckb_run _ _ _ raw Hac1) as (g2 & Hg2 & _); [lia|left; lia|].
  exists (wg_push out g2). unfold include_and_verify, verified_output. fold raw. rewrite Htp. unfold mbind, ST_bind, lift, reject_if.
  assert (Hknown : negb (0 =? w_amount raw) && bool_decide (wg_sudt_custodians g !! w_sudt_script_hash raw = None) = false).
  { destruct (Z.eqb_spec 0 (w_amount raw)); [done|]. destruct Henough as (c & Hc & _); [lia|]. by rewrite Hc. }
  rewrite Hknown. cbn [outcome_bind]. rewrite Hout. cbn [map_err outcome_bind]. unfold verify_remained_amount. fold raw.
  rewrite Hafter. cbn [mbind outcome_bind]. unfold verify_remained_ckb.
  rewrite (proj2 (checked_sub_Some _ _ _)) by (split; [reflexivity|lia]). by rewrite Hg1, Hg2.
Qed.
End Include.

(** C16. Whatever withdrawal requests are offered, in whatever order, the account of the
    finalized custodians balances, if it starts in order ([custodians_ok]: every token
    listed has a positive balance and is keyed by the hash of its script, the
    capacity covers the cells reserved for the tokens, and a change cell needs at most
    half of MAX_CHANGE_CAPACITY).  No step panics; the withdrawal
    cells and the change cells together hold the capacity and, for every token, the
    amount there was; what is reported as left is what there was less what was paid; and
    when the CKB beyond the reserved token cells was nothing or enough for a cell, every
    change cell has the capacity it occupies. *)
Theorem withdrawals_conserve_custodians available block tp reqs :
  custodians_ok available → Forall request_ok reqs →
  finalized_timepoint (E:=WithdrawalGenError) (rollup_config ctx) (fork_config ctx) (block_number block)
    (timestamp (block_raw block)) = Ok tp →
  ∃ g0 results g remaining,
    WGenerator_new ctx available = Ok g0 ∧ include_all block reqs g0 = (results, g) ∧ (Panic ∉ results)
    ∧ total_capacity (finish ctx g) = fc_capacity available
    ∧ (∀ h, total_amount h (finish ctx g) = default 0 (fst <$> fc_sudt available !! h))
    ∧ remaining_capacity g = Ok remaining
    ∧ fc_capacity remaining + total_capacity (wg_withdrawals g) = fc_capacity available
    ∧ (∀ h, default 0 (fst <$> fc_sudt remaining !! h) + total_amount h (wg_withdrawals g)
            = default 0 (fst <$> fc_sudt available !! h))
    ∧ (solvent_start available → Forall cell_fits (drop (length (wg_withdrawals g)) (finish ctx g))).
Proof.
  intros Hcust Hreqs Htp.
  destruct (account_of_requests available Hcust block tp reqs Htp Hreqs) as (g0 & results & g & Hnew & Hall & Hp & Hac).
  destruct (finish_spec available Hcust g Hac) as (Hcap & Ham & Hfit).
  destruct (remaining_capacity_spec available Hcust g Hac) as (c & Hc & Hrc & Hra).
  exists g0, results, g, c. split_and!; try done. unfold finish. by rewrite drop_app_length.
Qed.

(** *** What the hypotheses exclude *)
(** A token whose custodians hold nothing: the capacity reserved for its change cell
    goes nowhere, since no such cell is made. *)
Lemma empty_token_loses_capacity h s capacity :
  is_Some (occupied_capacity (mkCellOutput 1 lock (Some s)) 16) →
  is_Some (occupied_capacity (mkCellOutput 1 lock None) 0) →
  reserve s ≤ capacity < u64_max →
  ∃ g, WGenerator_new ctx (mkFinalizedCustodianCapacity capacity {[h := (0, s)]}) = Ok g
    ∧ total_capacity (finish ctx g) = capacity - reserve s.
Proof.
  intros Hs [a Ha] Hc. pose proof (reserve_range s Hs). unfold u64_max in Hc. unfold WGenerator_new. cbn [fc_sudt fc_capacity].
  assert (Hiter : map_iter {[h := (0, s)]} = [(h, (0, s))]).
  { apply Permutation_singleton_r. by rewrite map_iter_perm, map_to_list_singleton. }
  rewrite Hiter. cbn [foldM new_custodian]. rewrite generate_finalized_custodian_run by done.
  cbn [mbind outcome_bind co_capacity]. unfold calc_ckb_custodian_min_capacity. rewrite Ha. cbn [unwrap mbind outcome_bind].
  eexists. split; [reflexivity|]. unfold finish, total_capacity. cbn [wg_withdrawals wg_sudt_custodians wg_ckb_custodian].
  rewrite insert_empty.
  assert (Hiter2 : map_iter {[h := mkSudtCustodian (reserve s) 0 s]} = [(h, mkSudtCustodian (reserve s) 0 s)]).
  { apply Permutation_singleton_r. by rewrite map_iter_perm, map_to_list_singleton. }
  rewrite Hiter2. cbn [fmap list_fmap snd]. rewrite filter_cons_False by
    (unfold has_change; cbn; by rewrite andb_false_r). cbn [fmap list_fmap app filter list_filter].
  assert (Hsat : saturating_add 128 0 (reserve s) = reserve s) by (unfold saturating_add; lia).
  rewrite Hsat, saturating_sub_spec by lia. unfold ckb_change. cbn [ck_capacity].
  destruct (Z.eqb_spec (capacity - reserve s) 0) as [->|]; [done|]. unfold u64_max.
  rewrite (proj2 (Z.ltb_lt _ _)) by lia. cbn. rewrite Z.mod_small by lia. lia.
Qed.

(** Less CKB than a change cell needs: taking the last of a token frees the capacity of
    its cell without covering the shortfall, and the change that is left does not fit. *)
Lemma shortfall_makes_small_change capacity shortfall :
  is_Some (occupied_capacity (mkCellOutput 1 lock None) 0) →
  0 < shortfall < min_change → min_change ≤ capacity < 2 ^ 64 →
  ∃ ckb ckb',
    give_back capacity (mkCkbCustodian shortfall 0 min_change) = Ok ckb
    ∧ include_ckb (mkRawWithdrawalRequest 0 0 capacity 0 [] [] 0 [] 0) (mkWGenerator ckb ∅ [])
      = (Ok tt, mkWGenerator ckb' ∅ [])
    ∧ ck_capacity ckb' = shortfall
    ∧ Exists (λ o, ¬ cell_fits o) (ckb_change ctx ckb').
Proof.
  intros [a Ha] Hshort Hc. pose proof (occupied_range _ _ _ Ha) as Har. unfold min_change in *. rewrite Ha in *. cbn in Hshort, Hc.
  eexists _, _. split.
  { unfold give_back. cbn [ck_capacity ck_balance ck_min_capacity]. rewrite (proj2 (Z.eqb_neq _ 0)) by lia.
    rewrite !add_w_run by lia. reflexivity. }
  split.
  { unfold include_ckb. cbn [wg_ckb_custodian ck_balance ck_capacity w_capacity ck_min_capacity wg_with_ckb].
    rewrite (proj2 (checked_sub_Some _ _ _)) by (split; [reflexivity|lia]). unfold sub_w.
    rewrite (proj2 (checked_sub_Some _ _ _)) by (split; [reflexivity|lia]). reflexivity. }
  cbn [ck_capacity]. split; [lia|]. unfold ckb_change. cbn [ck_capacity].
  replace (shortfall + capacity - capacity) with shortfall by lia. rewrite (proj2 (Z.eqb_neq _ 0)) by lia.
  unfold u64_max. rewrite (proj2 (Z.ltb_lt _ _)) by lia. apply Exists_cons_hd. intros (b & Hb & Hle).
  cbn in Hb, Hle. rewrite (occupied_any_capacity _ 1) in Hb. rewrite Z.mod_small in Hle by lia. simplify_eq. lia.
Qed.
End Balance.
