(* ===== verification/SubmitCells.v ===== *)
(** * The custodian cells of a submission (crates/mem-pool/src/custodian.rs,
      crates/block-producer/src/custodian.rs, withdrawal.rs)

    To submit a block the producer looks for finalized custodian cells that cover its
    withdrawals ([query_finalized_custodian_cells]), adds some cells worth merging
    ([query_mergeable_ckb_custodians], [merge_sudt]) and lets the generator of
    WithdrawalCells.v turn them into withdrawal and change cells ([generate]).

    [submission_conserves_assets]: the cells that go into a submission and the cells
    that come out hold the same capacity and the same amount of every token, which is
    what the type script checks.  [full_query_pays_withdrawals]: when the search says
    it found enough, every withdrawal whose cell can be built is paid. *)
From Stdlib Require Import ZArith Lia Strings.Byte.
From stdpp Require Import prelude list gmap.
From S2P Require Import Prelude Bytes Types State StateSpec StateDB Finality Ckb.
From S2P Require Import NodeUtils NodeState AccountLocks Backends Syscalls Generator FeeQueue Verifiers Store LocalCells WithdrawalCells.
Local Open Scope Z_scope.

Record CollectedCustodianCells := mkCollectedCustodianCells {
  cl_cells_info : list CellInfo; cl_capacity : Z; cl_sudt : gmap H256 (Z * Script);
}.
Definition collected_default : CollectedCustodianCells := mkCollectedCustodianCells [] 0 ∅.
(** [From<CollectedCustodianCells>] *)
Definition collected_available (c : CollectedCustodianCells) : FinalizedCustodianCapacity :=
  mkFinalizedCustodianCapacity (cl_capacity c) (cl_sudt c).
Inductive QueryResult (A : Type) := QueryFull (a : A) | QueryNotEnough (a : A).
Arguments QueryFull {A} _.
Arguments QueryNotEnough {A} _.
Definition expect_any {A} (r : QueryResult A) : A :=
  match r with QueryFull a | QueryNotEnough a => a end.

(** [Uint128::from_slice]: exactly sixteen bytes *)
Definition parse_sudt_amount (cell : CellInfo) : option Z :=
  match co_type (cell_output cell) with
  | None => None
  | Some _ => if (length (cell_data cell) =? 16)%nat then Some (le_val (cell_data cell)) else None
  end.
Definition add_cell (cell : CellInfo) (sudt : gmap H256 (Z * Script)) (c : CollectedCustodianCells) :
    CollectedCustodianCells :=
  mkCollectedCustodianCells (cl_cells_info c ++ [cell])
    (saturating_add 128 (cl_capacity c) (co_capacity (cell_output cell))) sudt.

(** ** Looking for custodians (mem-pool/src/custodian.rs) *)
Section Query.
Context `{Blake2b, Molecule, CkbTypes, CustodianCodec, MapIter, Indexer}.
Context (ctx : RollupContext) (manager : LocalCellsManager) (tp : CompatibleFinalizedTimepoint).
Local Abbreviation M := (outcome unit).

Definition custodian_search_key (filter : option SearchKeyFilter) : SearchKey :=
  mkSearchKey (mkScript (custodian_script_type_hash (rollup_config ctx)) (ScriptHashType_to_u8 HashType)
                 (rollup_script_hash ctx)) ScriptTypeLock filter.
(** The lock arguments of a custodian cell, when it is finalized *)
Definition finalized_custodian_args (cell : CellInfo) : M (option CustodianLockArgs) :=
  let lock_args := args (co_lock (cell_output cell)) in
  assert_that (32 <=? length lock_args)%nat ;;
  Ok (match dec_CustodianLockArgs (drop 32 lock_args) with
      | Some a => if compatible_is_finalized tp (Timepoint_from_full_value (cl_deposit_finalized_timepoint a))
                  then Some a else None
      | None => None
      end).

(** [to_change_capacity]: nothing for a token without a known script *)
Definition to_change_capacity (asset : H256 → option Script) (h : H256) : M Z :=
  match asset h with
  | Some script => '(change, _) ← generate_finalized_custodian ctx 1 script; Ok (co_capacity change)
  | None => Ok 0
  end.
Definition sum_change_capacity (asset : H256 → option Script) (amounts : WithdrawalsAmount) : M Z :=
  ckb_change_capacity ← calc_ckb_custodian_min_capacity ctx;
  sudt_change_capacity ← foldM (λ a h, c ← to_change_capacity asset h; add_w 128 a c) 0
    (map_iter (wa_sudt amounts)).*1;
  add_w 128 ckb_change_capacity sudt_change_capacity.

Section Cells.
Context (amounts : WithdrawalsAmount) (required_capacity : Z) (max_cells : nat).
Definition MAX_CELLS : nat := 50.

(** What the body of the [for] loop does with a cell *)
Inductive CellStep :=
| NextCell (st : CollectedCustodianCells * gset H256)
| LeavePage (st : CollectedCustodianCells * gset H256)
| StopNotEnough (c : CollectedCustodianCells).

Definition push_custodian (cell : CellInfo) (sudt : gmap H256 (Z * Script)) (fulfilled : gset H256)
    (collected : CollectedCustodianCells) : CellStep :=
  let collected := add_cell cell sudt collected in
  if (MAX_CELLS <=? length (cl_cells_info collected))%nat then
    if required_capacity <=? cl_capacity collected then LeavePage (collected, fulfilled)
    else StopNotEnough collected
  else NextCell (collected, fulfilled).

Definition collect_sudt (cell : CellInfo) (sudt_type_script : Script)
    (st : CollectedCustodianCells * gset H256) : CellStep :=
  let '(collected, fulfilled) := st in
  if negb (bool_decide (code_hash sudt_type_script = l1_sudt_script_type_hash (rollup_config ctx)))
     || negb (hash_type sudt_type_script =? ScriptHashType_to_u8 HashType)
  then NextCell st
  else
    let h := script_hash sudt_type_script in
    if bool_decide (h = CKB_SUDT_SCRIPT_ARGS)
    then push_custodian cell (cl_sudt collected) fulfilled collected
    else if bool_decide (h ∈ fulfilled) then NextCell st
    else
      match wa_sudt amounts !! h, parse_sudt_amount cell with
      | Some withdrawal_amount, Some sudt_amount =>
          let collected_amount :=
            saturating_add 128 (default 0 (fst <$> cl_sudt collected !! h)) sudt_amount in
          push_custodian cell (<[h := (collected_amount, sudt_type_script)]> (cl_sudt collected))
            (if withdrawal_amount <=? collected_amount then {[h]} ∪ fulfilled else fulfilled) collected
      | _, _ => NextCell st
      end.

Definition collect_custodian (cell : CellInfo) (st : CollectedCustodianCells * gset H256) : M CellStep :=
  let '(collected, fulfilled) := st in
  if (max_cells <=? length (cl_cells_info collected))%nat then Ok (StopNotEnough collected)
  else if (required_capacity <=? cl_capacity collected) && negb (bool_decide (wa_sudt amounts = ∅))
          && bool_decide (co_type (cell_output cell) = None)
  then Ok (NextCell st)
  else
    a ← finalized_custodian_args cell;
    Ok (match a with
        | None => NextCell st
        | Some _ =>
            match co_type (cell_output cell) with
            | Some sudt_type_script => collect_sudt cell sudt_type_script st
            | None => push_custodian cell (cl_sudt collected) fulfilled collected
            end
        end).

Fixpoint collect_page (cells : list CellInfo) (st : CollectedCustodianCells * gset H256) : M CellStep :=
  match cells with
  | [] => Ok (LeavePage st)
  | cell :: cells =>
      step ← collect_custodian cell st;
      match step with
      | NextCell st => collect_page cells st
      | LeavePage st => Ok (LeavePage st)
      | StopNotEnough c => Ok (StopNotEnough c)
      end
  end.

(** [while collected.capacity < required || fulfilled.len() < amounts.len()]; [fuel] bounds the pages *)
Fixpoint query_loop (fuel : nat) (search_key : SearchKey) (cursor : CollectCursor)
    (st : CollectedCustodianCells * gset H256) : option (M (QueryResult CollectedCustodianCells)) :=
  match fuel with
  | O => None
  | S fuel =>
      let '(collected, fulfilled) := st in
      if (cl_capacity collected <? required_capacity)
         || (size fulfilled <? size (wa_sudt amounts))%nat
      then
        match collect_local_and_indexer_cells manager search_key cursor with
        | (Ok cells, cursor) =>
            if cursor_is_ended cursor then Some (Ok (QueryNotEnough collected)) else
            match collect_page cells st with
            | Ok (NextCell st) | Ok (LeavePage st) => query_loop fuel search_key cursor st
            | Ok (StopNotEnough c) => Some (Ok (QueryNotEnough c))
            | Err e => Some (Err e)
            | Panic => Some Panic
            end
        | (Err e, _) => Some (Err e)
        | (Panic, _) => Some Panic
        end
      else Some (Ok (QueryFull collected))
  end.
End Cells.

Definition query_finalized_custodian_cells (fuel : nat) (amounts : WithdrawalsAmount)
    (custodian_change_capacity : Z) (min_capacity : option Z) (max_cells : nat) :
    option (M (QueryResult CollectedCustodianCells)) :=
  let filter := (λ min, mkSearchKeyFilter None None (Some (min, u64_max))) <$> min_capacity in
  query_loop amounts (saturating_add 128 (wa_capacity amounts) custodian_change_capacity) max_cells
    fuel (custodian_search_key filter) CursorLocal (collected_default, ∅).
Definition MAX_CUSTODIANS : nat := 50.
Definition query_finalized_custodians (fuel : nat) (asset : H256 → option Script)
    (withdrawals : list WithdrawalRequest) : option (M (QueryResult CollectedCustodianCells)) :=
  let amounts := sum_withdrawals withdrawals in
  match sum_change_capacity asset amounts with
  | Ok change => query_finalized_custodian_cells fuel amounts change None MAX_CUSTODIANS
  | Err e => Some (Err e)
  | Panic => Some Panic
  end.

(** ** Merging (block-producer/src/custodian.rs) *)
Definition MIN_MERGE_CELLS : nat := 5.
(** The limit the loop checks first, [collected.cells_info.len() >= max_cells], cannot
    be reached here: the loop does not change [collected], and [remain] is positive. *)
Fixpoint mergeable_page (cells : list CellInfo) (seen : gset OutPoint) (found : list CellInfo) :
    M (gset OutPoint * list CellInfo) :=
  match cells with
  | [] => Ok (seen, found)
  | cell :: cells =>
      if bool_decide (cell_out_point cell ∈ seen) then mergeable_page cells seen found
      else
        a ← finalized_custodian_args cell;
        match a with
        | None => mergeable_page cells seen found
        | Some _ => mergeable_page cells ({[cell_out_point cell]} ∪ seen) (found ++ [cell])
        end
  end.
Fixpoint mergeable_loop (fuel : nat) (remain : nat) (cursor : CollectCursor) (seen : gset OutPoint)
    (found : list CellInfo) : option (M (list CellInfo)) :=
  match fuel with
  | O => None
  | S fuel =>
      if (length found <? remain)%nat && negb (cursor_is_ended cursor) then
        match collect_local_and_indexer_cells manager
                (custodian_search_key (Some (mkSearchKeyFilter None (Some (0, 1)) None))) cursor with
        | (Ok cells, cursor) =>
            match mergeable_page cells seen found with
            | Ok (seen, found) => mergeable_loop fuel remain cursor seen found
            | Err e => Some (Err e)
            | Panic => Some Panic
            end
        | (Err e, _) => Some (Err e)
        | (Panic, _) => Some Panic
        end
      else Some (Ok found)
  end.
Definition query_mergeable_ckb_custodians (fuel : nat) (collected : CollectedCustodianCells)
    (max_cells : nat) : option (M (QueryResult CollectedCustodianCells)) :=
  let remain := (max_cells - length (cl_cells_info collected))%nat in
  if (remain <? MIN_MERGE_CELLS)%nat then Some (Ok (QueryNotEnough collected)) else
  match mergeable_loop fuel remain CursorLocal
          (list_to_set (cell_out_point <$> cl_cells_info collected)) [] with
  | Some (Ok found) =>
      if (length found <? MIN_MERGE_CELLS)%nat then Some (Ok (QueryNotEnough collected)) else
      let collected := foldl (λ c cell, add_cell cell (cl_sudt c) c) collected found in
      if (length (cl_cells_info collected) <? max_cells)%nat
      then Some (Ok (QueryNotEnough collected)) else Some (Ok (QueryFull collected))
  | Some (Err e) => Some (Err e)
  | Some Panic => Some Panic
  | None => None
  end.

(** [merge] of [query_mergeable_sudt_custodians_cells] *)
Definition merge_sudt_cell (collected : CollectedCustodianCells) (cell : CellInfo) : CollectedCustodianCells :=
  match parse_sudt_amount cell, co_type (cell_output cell) with
  | Some sudt_amount, Some sudt_type_script =>
      let h := script_hash sudt_type_script in
      let '(amount, script) := default (0, sudt_type_script) (cl_sudt collected !! h) in
      add_cell cell (<[h := (saturating_add 128 amount sudt_amount, script)]> (cl_sudt collected)) collected
  | _, _ => collected
  end.
Definition merge_sudt (cells : list CellInfo) (collected : CollectedCustodianCells) : CollectedCustodianCells :=
  foldl merge_sudt_cell collected cells.

(** [query_mergeable_sudt_custodians_cells]: [scripts] and [query] are what the RPC
    client answers. *)
Section MergeSudt.
Context (query : Script → nat → gset OutPoint → M (QueryResult (list CellInfo))).
Fixpoint merge_sudts (max_cells : nat) (scripts : list Script) (remain : nat) (seen : gset OutPoint)
    (collected : CollectedCustodianCells) : M CollectedCustodianCells :=
  match scripts with
  | [] => Ok collected
  | script :: scripts =>
      result ← query script remain seen;
      let merged cells :=
        let merged := filter (λ c, is_Some (parse_sudt_amount c)) cells in
        let collected := merge_sudt cells collected in
        let remain := (max_cells - length (cl_cells_info collected))%nat in
        if (remain <? MIN_MERGE_CELLS)%nat then Ok collected
        else merge_sudts max_cells scripts remain (list_to_set (cell_out_point <$> merged) ∪ seen) collected in
      match result with
      | QueryFull cells => merged cells
      | QueryNotEnough cells =>
          if (1 <? length cells)%nat then merged cells else merge_sudts max_cells scripts remain seen collected
      end
  end.
Definition query_mergeable_sudt_custodians_cells (scripts : list Script)
    (collected : CollectedCustodianCells) (max_cells : nat) : M (QueryResult CollectedCustodianCells) :=
  let remain := (max_cells - length (cl_cells_info collected))%nat in
  if (remain <? MIN_MERGE_CELLS)%nat then Ok (QueryNotEnough collected) else
  collected ← merge_sudts max_cells scripts remain
    (dead_cells manager ∪ list_to_set (cell_out_point <$> cl_cells_info collected)) collected;
  Ok (if (length (cl_cells_info collected) <? max_cells)%nat then QueryNotEnough collected else QueryFull collected).

Definition query_mergeable_custodians (fuel : nat) (scripts : list Script)
    (collected : CollectedCustodianCells) : option (M (QueryResult CollectedCustodianCells)) :=
  if (MAX_CUSTODIANS <=? length (cl_cells_info collected))%nat then Some (Ok (QueryFull collected)) else
  match query_mergeable_ckb_custodians fuel collected MAX_CUSTODIANS with
  | Some (Ok (QueryNotEnough collected)) =>
      if (MAX_CUSTODIANS <=? length (cl_cells_info collected))%nat then Some (Ok (QueryFull collected))
      else Some (query_mergeable_sudt_custodians_cells scripts collected MAX_CUSTODIANS)
  | r => r
  end.
End MergeSudt.
End Query.

(** ** The cells of the withdrawals (block-producer/src/withdrawal.rs) *)
Inductive ContractDep := CustodianCellLock | L1SudtType.
Record GeneratedWithdrawals := mkGeneratedWithdrawals {
  gen_deps : list ContractDep;
  gen_inputs : list (CellInput * CellInfo);
  gen_outputs : list (CellOutput * bytes);
}.
Definition input_of (cell : CellInfo) : CellInput * CellInfo := (mkCellInput 0 (cell_out_point cell), cell).

Section Generate.
Context `{Blake2b, Molecule, HashCodec, CkbTypes, CustodianCodec, MapIter}.
Context (ctx : RollupContext).

Definition extra_of (extras : gmap H256 WithdrawalRequestExtra) (req : WithdrawalRequest) :
    WithdrawalRequestExtra :=
  default (mkWithdrawalRequestExtra req Script_default) (extras !! withdrawal_hash req).
(** The first request that does not fit ends it. *)
Fixpoint include_each (block : L2Block) (reqs : list WithdrawalRequestExtra) (g : WGenerator) :
    outcome WithdrawalGenError WGenerator :=
  match reqs with
  | [] => Ok g
  | r :: reqs =>
      match include_and_verify ctx r block g with
      | (Ok _, g) => include_each block reqs g
      | (Err e, _) => Err e
      | (Panic, _) => Panic
      end
  end.
Definition generate (finalized_custodians : CollectedCustodianCells) (block : L2Block)
    (withdrawal_extras : gmap H256 WithdrawalRequestExtra) :
    outcome WithdrawalGenError (option GeneratedWithdrawals) :=
  if bool_decide (length (block_withdrawals block) = 0%nat)
     && (length (cl_cells_info finalized_custodians) <=? 1)%nat
  then Ok None
  else
    let total_withdrawal_amount := sum_withdrawals (block_withdrawals block) in
    g ← WGenerator_new ctx (collected_available finalized_custodians);
    g ← include_each block (extra_of withdrawal_extras <$> block_withdrawals block) g;
    Ok (Some (mkGeneratedWithdrawals
      (CustodianCellLock :: if negb (bool_decide (wa_sudt total_withdrawal_amount = ∅))
                               || negb (bool_decide (cl_sudt finalized_custodians = ∅))
                            then [L1SudtType] else [])
      (input_of <$> cl_cells_info finalized_custodians) (finish ctx g))).
End Generate.

(** ** The books of a search *)
(** The indexer returns cells that match the search key. *)
Class IndexerLaws `{Indexer} : Prop := {
  indexer_matches : ∀ key cursor cells next, get_cells key cursor = Ok (cells, next) →
    Forall (λ c, satisfy_search key c = true ∧ 0 ≤ co_capacity (cell_output c) < 2 ^ 64) cells;
  indexer_total : ∀ key cursor, get_cells key cursor ≠ Panic;
}.

(** A sum of unsigned 128-bit numbers that stops at the largest *)
Definition sat (x : Z) : Z := Z.min x (2 ^ 128 - 1).
Lemma sat_add x y : 0 ≤ y → saturating_add 128 (sat x) y = sat (x + y).
Proof. unfold saturating_add, sat. lia. Qed.
Lemma sat_id x : x < 2 ^ 128 → sat x = x.
Proof. unfold sat. lia. Qed.

Section Books.
Context `{Blake2b, Molecule, CkbTypes, CustodianCodec, MapIter, IndexerLaws}.
Context (ctx : RollupContext) (manager : LocalCellsManager) (tp : CompatibleFinalizedTimepoint).
Context (Hlocal : ∀ p c, local_live_cells manager !! p = Some c → 0 ≤ co_capacity (cell_output c) < 2 ^ 64).
Context (Hroot : length (rollup_script_hash ctx) = 32%nat).

Definition cell_value (c : CellInfo) : CellOutput * bytes := (cell_output c, cell_data c).
Definition held (c : CollectedCustodianCells) (h : H256) : Z := default 0 (fst <$> cl_sudt c !! h).

Record collected_ok (c : CollectedCustodianCells) : Prop := {
  col_capacity : cl_capacity c = sat (total_capacity (cell_value <$> cl_cells_info c));
  col_amount : ∀ h, h ≠ CKB_SUDT_SCRIPT_ARGS →
    held c h = sat (total_amount h (cell_value <$> cl_cells_info c));
  col_script : ∀ h b s, cl_sudt c !! h = Some (b, s) →
    script_hash s = h ∧ h ≠ CKB_SUDT_SCRIPT_ARGS
    ∧ ∃ cell, cell ∈ cl_cells_info c ∧ co_type (cell_output cell) = Some s;
  col_cells : Forall (λ cell, 0 ≤ co_capacity (cell_output cell) < 2 ^ 64
    ∧ ∃ a, finalized_custodian_args tp cell = Ok (Some a)) (cl_cells_info c);
}.

Lemma collected_default_ok : collected_ok collected_default.
Proof. by constructor. Qed.

Definition found (key : SearchKey) (c : CellInfo) : Prop :=
  satisfy_search key c = true ∧ 0 ≤ co_capacity (cell_output c) < 2 ^ 64.
Lemma collect_found key cursor cells cursor' :
  collect_local_and_indexer_cells manager key cursor = (Ok cells, cursor') → Forall (found key) cells.
Proof.
  unfold collect_local_and_indexer_cells. destruct cursor as [|cur|]; [| |by intros [= <- <-]].
  - intros [= <- _]. unfold collect_local_cells. apply Forall_forall. intros c [Hs Hc]%list_elem_of_filter.
    split; [done|]. rewrite live_iter_perm in Hc. apply list_elem_of_fmap in Hc as ([p c'] & -> & Hin).
    apply elem_of_map_to_list in Hin. by eapply Hlocal.
  - destruct (get_cells key cur) as [[objects next]| |] eqn:Hg; intros [= <- _].
    apply indexer_matches in Hg. rewrite Forall_forall in Hg |- *. intros c [_ Hc]%list_elem_of_filter. by apply Hg.
Qed.

Lemma found_args f c :
  found (custodian_search_key ctx f) c →
  ∃ a, finalized_custodian_args tp c = Ok a.
Proof.
  intros [Hs _]. unfold finalized_custodian_args. rewrite (proj2 (Nat.leb_le _ _)); [by eexists|].
  unfold satisfy_search, custodian_search_key, option_prefix, script_prefix_eq in Hs. cbn in Hs. bool_inv.
  match goal with Ht : take _ _ = _ |- _ => apply (f_equal length) in Ht; rewrite length_take in Ht; lia end.
Qed.

(** *** Adding a cell *)
Lemma amount_of_other h c :
  script_hash <$> co_type (cell_output c) ≠ Some h → amount_of h (cell_value c) = 0.
Proof. intros Hne. unfold amount_of. by rewrite bool_decide_false. Qed.

Lemma add_cell_ok c cell sudt :
  collected_ok c → 0 ≤ co_capacity (cell_output cell) < 2 ^ 64 →
  (∃ a, finalized_custodian_args tp cell = Ok (Some a)) →
  (∀ h, h ≠ CKB_SUDT_SCRIPT_ARGS →
     default 0 (fst <$> sudt !! h) = saturating_add 128 (held c h) (amount_of h (cell_value cell))) →
  (∀ h b s, sudt !! h = Some (b, s) →
     (∃ b', cl_sudt c !! h = Some (b', s))
     ∨ script_hash s = h ∧ h ≠ CKB_SUDT_SCRIPT_ARGS ∧ co_type (cell_output cell) = Some s) →
  collected_ok (add_cell cell sudt c).
Proof.
  intros [Hcap Ham Hscr Hcells] Hrange Hfin Hsudt Hnew. constructor; cbn [add_cell cl_cells_info cl_capacity cl_sudt].
  - rewrite Hcap, sat_add by lia. f_equal. unfold total_capacity. rewrite fmap_app, sum_over_app. cbn. lia.
  - intros h Hh. unfold held at 1. cbn [cl_sudt]. rewrite Hsudt by done. rewrite Ham by done.
    rewrite sat_add by (unfold amount_of; case_bool_decide; [apply le_val_range|lia]).
    f_equal. unfold total_amount. rewrite fmap_app, sum_over_app. cbn. lia.
  - intros h b s Hs. destruct (Hnew _ _ _ Hs) as [[b' Hb']|(Heq & Hne & Hty)].
    + destruct (Hscr _ _ _ Hb') as (? & ? & cell' & ? & ?). split_and!; try done. exists cell'. set_solver.
    + split_and!; try done. exists cell. set_solver.
  - apply Forall_app_2; [done|]. by constructor.
Qed.

Lemma add_plain_cell_ok c cell :
  collected_ok c → 0 ≤ co_capacity (cell_output cell) < 2 ^ 64 →
  (∃ a, finalized_custodian_args tp cell = Ok (Some a)) →
  (∀ h, h ≠ CKB_SUDT_SCRIPT_ARGS → amount_of h (cell_value cell) = 0) →
  collected_ok (add_cell cell (cl_sudt c) c).
Proof.
  intros Hc Hr Hf Ha. apply add_cell_ok; try done; [|intros h b s Hs; left; by eexists].
  intros h Hh. rewrite Ha by done. pose proof (col_amount _ Hc h Hh) as E. unfold held in *. rewrite E.
  unfold saturating_add, sat. lia.
Qed.

Lemma add_token_cell_ok c cell s amount script :
  collected_ok c → 0 ≤ co_capacity (cell_output cell) < 2 ^ 64 →
  (∃ a, finalized_custodian_args tp cell = Ok (Some a)) →
  co_type (cell_output cell) = Some s → parse_sudt_amount cell = Some amount →
  script_hash s ≠ CKB_SUDT_SCRIPT_ARGS →
  script = s ∨ (∃ b, cl_sudt c !! script_hash s = Some (b, script)) →
  collected_ok (add_cell cell (<[script_hash s := (saturating_add 128 (held c (script_hash s)) amount, script)]>
                                 (cl_sudt c)) c).
Proof.
  intros Hc Hr Hf Hty Hp Hne Hscr. unfold parse_sudt_amount in Hp. rewrite Hty in Hp. case_match; simplify_eq.
  apply add_cell_ok; try done.
  - intros h Hh. destruct (decide (h = script_hash s)) as [->|Hhs].
    + rewrite lookup_insert_eq. cbn. f_equal. unfold amount_of. cbn. rewrite Hty. cbn. by rewrite bool_decide_true.
    + rewrite lookup_insert_ne by done. rewrite amount_of_other by (rewrite Hty; cbn; congruence).
      pose proof (col_amount _ Hc h Hh) as E. unfold held in *. rewrite E. unfold saturating_add, sat. lia.
  - intros h b s'. rewrite lookup_insert_Some. intros [[<- [= _ <-]]|[_ Hs]]; [|left; by eexists].
    destruct Hscr as [->|Hold]; [right; done|by left].
Qed.

(** *** The search for the withdrawals *)
Section Search.
Context (amounts : WithdrawalsAmount) (required : Z) (max_cells : nat).

Record search_ok (st : CollectedCustodianCells * gset H256) : Prop := {
  se_collected : collected_ok st.1;
  se_tokens : ∀ h, is_Some (cl_sudt st.1 !! h) → is_Some (wa_sudt amounts !! h);
  se_fulfilled : ∀ h, h ∈ st.2 → ∃ a, wa_sudt amounts !! h = Some a ∧ a ≤ held st.1 h;
}.
Definition step_ok (step : CellStep) : Prop :=
  match step with
  | NextCell st | LeavePage st => search_ok st
  | StopNotEnough c => collected_ok c
  end.

Lemma push_custodian_ok cell sudt fulfilled c :
  search_ok (add_cell cell sudt c, fulfilled) → step_ok (push_custodian required cell sudt fulfilled c).
Proof. intros Hs. unfold push_custodian. repeat case_match; try done. apply Hs. Qed.

Lemma collect_sudt_ok cell s st :
  search_ok st → 0 ≤ co_capacity (cell_output cell) < 2 ^ 64 →
  (∃ a, finalized_custodian_args tp cell = Ok (Some a)) → co_type (cell_output cell) = Some s →
  step_ok (collect_sudt ctx amounts required cell s st).
Proof.
  destruct st as [c fulfilled]. intros Hse Hr Hf Hty. pose proof Hse as [Hc Htok Hful]. cbn in *. unfold collect_sudt.
  destruct (_ || _); [done|]. case_bool_decide as Hckb.
  { apply push_custodian_ok. constructor; cbn [fst snd]; [|done|done].
    apply add_plain_cell_ok; try done. intros h Hh. apply amount_of_other. rewrite Hty. cbn. congruence. }
  case_bool_decide as Hin; [done|].
  destruct (wa_sudt amounts !! script_hash s) as [wanted|] eqn:Hw; [|done].
  destruct (parse_sudt_amount cell) as [amount|] eqn:Hp; [|done].
  fold (held c (script_hash s)). apply push_custodian_ok. constructor; cbn [fst snd].
  - by eapply add_token_cell_ok; [..|left].
  - intros h. cbn [add_cell cl_sudt]. destruct (decide (h = script_hash s)) as [->|Hne]; [by eexists|].
    rewrite lookup_insert_ne by done. apply Htok.
  - intros h Hh. unfold held at 1. cbn [add_cell cl_sudt].
    assert (Hold : ∀ h, h ∈ fulfilled → ∃ a, wa_sudt amounts !! h = Some a
        ∧ a ≤ default 0 (fst <$> <[script_hash s := (saturating_add 128 (held c (script_hash s)) amount, s)]> (cl_sudt c) !! h)).
    { intros k Hk. rewrite lookup_insert_ne by (intros <-; contradiction). by apply Hful. }
    destruct (Z.leb_spec wanted (saturating_add 128 (held c (script_hash s)) amount)) as [Hle|]; [|by apply Hold].
    apply elem_of_union in Hh as [->%elem_of_singleton|Hh]; [|by apply Hold].
    exists wanted. split; [done|]. by rewrite lookup_insert_eq.
Qed.

Lemma collect_custodian_ok f cell st :
  found (custodian_search_key ctx f) cell → search_ok st →
  ∃ step, collect_custodian ctx tp amounts required max_cells cell st = Ok step ∧ step_ok step.
Proof.
  destruct st as [c fulfilled]. intros Hfound Hse. pose proof Hse as [Hc Htok Hful]. cbn in *. unfold collect_custodian.
  destruct (_ <=? _)%nat; [by eexists|]. destruct (_ && _ && _); [by eexists|].
  destruct (found_args _ _ Hfound) as [a Ha]. rewrite Ha. cbn [mbind outcome_bind]. eexists. split; [reflexivity|].
  destruct a as [a|]; [|done]. destruct Hfound as [_ Hr].
  destruct (co_type (cell_output cell)) as [s|] eqn:Hty.
  - apply (collect_sudt_ok cell s (c, fulfilled)); try done. by exists a.
  - apply push_custodian_ok. constructor; cbn [fst snd]; [|done|done].
    apply add_plain_cell_ok; try done; [by exists a|]. intros h _. apply amount_of_other. by rewrite Hty.
Qed.

Lemma collect_page_ok f cells st :
  Forall (found (custodian_search_key ctx f)) cells → search_ok st →
  ∃ step, collect_page ctx tp amounts required max_cells cells st = Ok step ∧ step_ok step.
Proof.
  intros Hcells. revert st. induction Hcells as [|cell cells Hcell _ IH]; intros st Hst; [by eexists|].
  cbn [collect_page]. destruct (collect_custodian_ok _ _ _ Hcell Hst) as (step & -> & Hok). cbn [mbind outcome_bind].
  destruct step as [st'|st'|c]; [by apply IH|by eexists..].
Qed.

(** A search says "enough" when it is. *)
Definition enough (c : CollectedCustodianCells) : Prop :=
  required ≤ cl_capacity c
  ∧ (∀ h, is_Some (cl_sudt c !! h) → is_Some (wa_sudt amounts !! h))
  ∧ ∀ h a, wa_sudt amounts !! h = Some a → a ≤ held c h.
Definition result_ok (r : QueryResult CollectedCustodianCells) : Prop :=
  match r with QueryFull c => collected_ok c ∧ enough c | QueryNotEnough c => collected_ok c end.

Lemma search_full c fulfilled :
  search_ok (c, fulfilled) → required ≤ cl_capacity c → (size (wa_sudt amounts) ≤ size fulfilled)%nat → enough c.
Proof.
  intros [_ Htok Hful] Hcap Hsize. split_and!; [done|done|]. intros h a Ha. cbn in *.
  assert (Hsub : fulfilled ⊆ dom (wa_sudt amounts)).
  { intros k Hk. destruct (Hful k Hk) as (? & ? & _). apply elem_of_dom. by eexists. }
  assert (Heq : fulfilled ≡ dom (wa_sudt amounts)) by (apply set_subseteq_size_equiv; [done|by rewrite size_dom]).
  destruct (Hful h) as (a' & Ha' & Hle); [rewrite Heq; apply elem_of_dom; by eexists|]. by simplify_eq.
Qed.

Lemma query_loop_ok fuel f cursor st r :
  search_ok st →
  query_loop ctx manager tp amounts required max_cells fuel (custodian_search_key ctx f) cursor st = Some r →
  r ≠ Panic ∧ ∀ res, r = Ok res → result_ok res.
Proof.
  revert cursor st. induction fuel as [|fuel IH]; intros cursor st Hst Hrun; [done|].
  cbn [query_loop] in Hrun. destruct st as [c fulfilled].
  destruct ((cl_capacity c <? required) || _) eqn:Hmore.
  2:{ injection Hrun as <-. split; [done|]. intros res [= <-]. bool_inv. split; [apply Hst|].
      by eapply search_full. }
  destruct (collect_local_and_indexer_cells manager _ cursor) as [[cells|e|] cursor'] eqn:Hcol; simplify_eq.
  - destruct (cursor_is_ended cursor'); [injection Hrun as <-; split; [done|intros res [= <-]; apply Hst]|].
    destruct (collect_page_ok f cells (c, fulfilled)) as (step & Hstep & Hok); [by eapply collect_found|done|].
    rewrite Hstep in Hrun. destruct step as [st'|st'|c']; [by eapply IH|by eapply IH|].
    injection Hrun as <-. split; [done|]. by intros res [= <-].
  - by split.
  - exfalso. revert Hcol. unfold collect_local_and_indexer_cells. destruct cursor as [|cur|]; [done| |done].
    pose proof (indexer_total (custodian_search_key ctx f) cur). by destruct (get_cells _ cur) as [[]| |].
Qed.
End Search.

(** *** Merging *)
Definition mergeable_key : SearchKey :=
  custodian_search_key ctx (Some (mkSearchKeyFilter None (Some (0, 1)) None)).
Definition mergeable (c : CellInfo) : Prop :=
  found mergeable_key c ∧ ∃ a, finalized_custodian_args tp c = Ok (Some a).

Lemma mergeable_page_ok cells seen cs :
  Forall (found mergeable_key) cells → Forall mergeable cs →
  ∃ seen' cs', mergeable_page tp cells seen cs = Ok (seen', cs') ∧ Forall mergeable cs'.
Proof.
  intros Hcells. revert seen cs. induction Hcells as [|cell cells Hcell _ IH]; intros seen cs Hcs; [by eexists _, _|].
  cbn [mergeable_page]. case_bool_decide; [by apply IH|].
  destruct (found_args _ _ Hcell) as [[a|] Ha]; rewrite Ha; cbn [mbind outcome_bind]; apply IH; [|done].
  apply Forall_app_2; [done|]. constructor; [|done]. split; [done|by exists a].
Qed.

Lemma mergeable_loop_ok fuel remain cursor seen cs r :
  Forall mergeable cs → mergeable_loop ctx manager tp fuel remain cursor seen cs = Some r →
  r ≠ Panic ∧ ∀ cs', r = Ok cs' → Forall mergeable cs'.
Proof.
  revert cursor seen cs. induction fuel as [|fuel IH]; intros cursor seen cs Hcs Hrun; [done|].
  cbn [mergeable_loop] in Hrun. destruct (_ && _); [|injection Hrun as <-; split; [done|by intros ? [= <-]]].
  fold mergeable_key in Hrun.
  destruct (collect_local_and_indexer_cells manager mergeable_key cursor) as [[cells|e|] cursor'] eqn:Hcol.
  - destruct (mergeable_page_ok cells seen cs) as (seen' & cs' & Hpg & Hcs'); [by eapply collect_found|done|].
    rewrite Hpg in Hrun. by eapply IH.
  - injection Hrun as <-. by split.
  - exfalso. revert Hcol. unfold collect_local_and_indexer_cells. destruct cursor as [|cur|]; [done| |done].
    pose proof (indexer_total mergeable_key cur). by destruct (get_cells _ cur) as [[]| |].
Qed.

Lemma mergeable_no_token c h : mergeable c → amount_of h (cell_value c) = 0.
Proof.
  intros [[Hs _] _]. unfold amount_of. case_bool_decide; [|done]. cbn.
  unfold satisfy_search, mergeable_key, custodian_search_key, in_range in Hs. cbn in Hs. bool_inv.
  by rewrite (nil_length_inv (cell_data c)) by lia.
Qed.

Definition results_ok (r : QueryResult CollectedCustodianCells) : Prop := collected_ok (expect_any r).

Lemma merge_ckb_ok fuel c max_cells r :
  collected_ok c → query_mergeable_ckb_custodians ctx manager tp fuel c max_cells = Some r →
  r ≠ Panic ∧ ∀ res, r = Ok res → results_ok res.
Proof.
  intros Hc. unfold query_mergeable_ckb_custodians. destruct (_ <? _)%nat; [intros [= <-]; split; [done|by intros ? [= <-]]|].
  destruct (mergeable_loop _ _ _ _ _ _ _ _) as [r'|] eqn:Hl; [|done].
  destruct (mergeable_loop_ok _ _ _ _ _ _ ltac:(constructor) Hl) as [Hp Hf].
  destruct r' as [cs|e|]; [|intros [= <-]; by split|done]. specialize (Hf cs eq_refl).
  assert (Hfold : ∀ c, collected_ok c → collected_ok (foldl (λ c cell, add_cell cell (cl_sudt c) c) c cs)).
  { clear Hl Hp Hc c. induction Hf as [|cell cs Hcell _ IH]; intros c Hc; [done|]. cbn [foldl]. apply IH.
    apply add_plain_cell_ok; try apply Hcell; try done. intros h _. by apply mergeable_no_token. }
  repeat case_match; intros [= <-]; (split; [done|intros ? [= <-]; unfold results_ok; cbn; auto]).
Qed.

(** What the RPC client promises of the cells of a token *)
Definition token_cell (c : CellInfo) : Prop :=
  0 ≤ co_capacity (cell_output c) < 2 ^ 64 ∧ (∃ a, finalized_custodian_args tp c = Ok (Some a))
  ∧ ∀ s, co_type (cell_output c) = Some s → script_hash s ≠ CKB_SUDT_SCRIPT_ARGS.
Lemma merge_sudt_ok cells c : Forall token_cell cells → collected_ok c → collected_ok (merge_sudt cells c).
Proof.
  intros Hcells. revert c. induction Hcells as [|cell cells (Hr & Hf & Hne) _ IH]; intros c Hc; [done|].
  unfold merge_sudt. cbn [foldl]. apply IH. unfold merge_sudt_cell.
  destruct (parse_sudt_amount cell) as [amount|] eqn:Hp; [|done].
  destruct (co_type (cell_output cell)) as [s|] eqn:Hty; [|done].
  destruct (cl_sudt c !! script_hash s) as [[old script]|] eqn:Hs; cbn [default].
  - replace old with (held c (script_hash s)) by (unfold held; by rewrite Hs).
    apply add_token_cell_ok; try done; [by apply Hne|]. right. by exists old.
  - replace 0 with (held c (script_hash s)) by (unfold held; by rewrite Hs).
    apply add_token_cell_ok; try done; [by apply Hne|by left].
Qed.

Lemma query_finalized_ok fuel asset ws res :
  query_finalized_custodians ctx manager tp fuel asset ws = Some (Ok res) →
  ∃ change, sum_change_capacity ctx asset (sum_withdrawals ws) = Ok change
    ∧ result_ok (sum_withdrawals ws) (saturating_add 128 (wa_capacity (sum_withdrawals ws)) change) res.
Proof.
  unfold query_finalized_custodians. destruct (sum_change_capacity _ _ _) as [change| |]; [|done..].
  intros Hq. exists change. split; [done|]. eapply query_loop_ok in Hq as [_ Hres]; [by apply Hres|].
  constructor; [apply collected_default_ok|by intros h [x Hx]|set_solver].
Qed.

Section Rpc.
Context (query : Script → nat → gset OutPoint → outcome unit (QueryResult (list CellInfo))).
Context (Hquery : ∀ s n seen, query s n seen ≠ Panic
  ∧ ∀ r, query s n seen = Ok r → Forall token_cell (expect_any r)).

Lemma merge_sudts_ok max_cells scripts remain seen c :
  collected_ok c →
  merge_sudts query max_cells scripts remain seen c ≠ Panic
  ∧ ∀ c', merge_sudts query max_cells scripts remain seen c = Ok c' → collected_ok c'.
Proof.
  revert remain seen c. induction scripts as [|s scripts IH]; intros remain seen c Hc.
  { split; [done|]. by intros c' [= <-]. }
  cbn [merge_sudts]. destruct (Hquery s remain seen) as [Hp Hq].
  destruct (query s remain seen) as [r|e|]; cbn [mbind outcome_bind]; [|by split|done]. specialize (Hq r eq_refl).
  assert (Hm : ∀ cells, Forall token_cell cells → collected_ok (merge_sudt cells c)) by (intros; by apply merge_sudt_ok).
  destruct r as [cells|cells]; cbn in Hq; [|destruct (_ <? _)%nat; [|by apply IH]];
    (destruct (_ <? MIN_MERGE_CELLS)%nat; [split; [done|intros c' [= <-]; by apply Hm]|apply IH; by apply Hm]).
Qed.

(** What [compose_submit_tx] gathers *)
Definition gather (fuel : nat) (asset : H256 → option Script) (scripts : list Script)
    (withdrawals : list WithdrawalRequest) : option (outcome unit CollectedCustodianCells) :=
  match query_finalized_custodians ctx manager tp fuel asset withdrawals with
  | Some (Ok r) =>
      match query_mergeable_custodians ctx manager tp query fuel scripts (expect_any r) with
      | Some (Ok r) => Some (Ok (expect_any r))
      | Some (Err e) => Some (Err e)
      | Some Panic => Some Panic
      | None => None
      end
  | Some (Err e) => Some (Err e)
  | Some Panic => Some Panic
  | None => None
  end.

Lemma query_mergeable_ok fuel scripts c res :
  collected_ok c → query_mergeable_custodians ctx manager tp query fuel scripts c = Some (Ok res) → results_ok res.
Proof.
  intros Hc. unfold query_mergeable_custodians. destruct (_ <=? _)%nat; [by intros [= <-]|].
  destruct (query_mergeable_ckb_custodians _ _ _ _ _ _) as [r|] eqn:Hr; [|done].
  destruct (merge_ckb_ok _ _ _ _ Hc Hr) as [_ Hok]. destruct r as [[c'|c']| |]; intros Hres; simplify_eq.
  - apply Hok. done.
  - specialize (Hok _ eq_refl). destruct (_ <=? _)%nat; simplify_eq; [done|].
    unfold query_mergeable_sudt_custodians_cells in Hres.
    destruct (_ <? _)%nat; simplify_eq; [done|]. apply bind_Ok in Hres as (c2 & Hm & Hres).
    eapply merge_sudts_ok in Hm; [|done]. injection Hres as <-. unfold results_ok. by case_match.
Qed.

Lemma gather_ok fuel asset scripts ws c : gather fuel asset scripts ws = Some (Ok c) → collected_ok c.
Proof.
  unfold gather. destruct (query_finalized_custodians _ _ _ _ _ _) as [[r| |]|] eqn:Hq; try done.
  destruct (query_mergeable_custodians _ _ _ _ _ _ _) as [[r'| |]|] eqn:Hm; try done. intros [= <-].
  eapply query_mergeable_ok; [|done]. apply query_finalized_ok in Hq as (change & _ & Hres).
  by destruct r; [apply Hres|apply Hres].
Qed.
End Rpc.
End Books.

(** ** The cells of a submission balance *)
(** Every entry of the map is covered by an element of the list of its own. *)
Lemma map_sum_covered `{MapIter} {A B} (f : A → Z) (w : B → Z) (key : B → option H256) (l : list B)
    (m : gmap H256 A) :
  (∀ x, x ∈ l → 0 ≤ w x) →
  (∀ h e, m !! h = Some e → ∃ x, x ∈ l ∧ key x = Some h ∧ f e ≤ w x) →
  map_sum f m ≤ sum_over w l.
Proof.
  revert m. induction l as [|x l IH]; intros m Hw Hm; cbn [sum_over].
  { rewrite map_sum_zero; [done|]. intros h e He. destruct (Hm h e He) as (x & Hx & _). by apply not_elem_of_nil in Hx. }
  assert (Hl : ∀ y, y ∈ l → 0 ≤ w y) by (intros y Hy; apply Hw; by right). pose proof (Hw x ltac:(left)).
  destruct (key x) as [h|] eqn:Hk; [destruct (m !! h) as [e|] eqn:He|].
  - destruct (Z.le_gt_cases (f e) (w x)) as [Hle|Hgt].
    + rewrite (map_sum_delete f m h e) by done. enough (map_sum f (delete h m) ≤ sum_over w l) by lia.
      apply IH; [done|]. intros h' e' [Hne He']%lookup_delete_Some.
      destruct (Hm h' e' He') as (y & [->|Hy]%elem_of_cons & Hky & Hfy); [congruence|by exists y].
    + enough (map_sum f m ≤ sum_over w l) by lia. apply IH; [done|]. intros h' e' He'.
      destruct (Hm h' e' He') as (y & [->|Hy]%elem_of_cons & Hky & Hfy); [|by exists y].
      simplify_eq. lia.
  - enough (map_sum f m ≤ sum_over w l) by lia. apply IH; [done|]. intros h' e' He'.
    destruct (Hm h' e' He') as (y & [->|Hy]%elem_of_cons & Hky & Hfy); [congruence|by exists y].
  - enough (map_sum f m ≤ sum_over w l) by lia. apply IH; [done|]. intros h' e' He'.
    destruct (Hm h' e' He') as (y & [->|Hy]%elem_of_cons & Hky & Hfy); [congruence|by exists y].
Qed.

Section Submission.
Context `{Blake2b, Molecule, HashCodec, CkbTypesLaws, CustodianCodec, MapIter}.
Context (ctx : RollupContext) (tp : CompatibleFinalizedTimepoint).
Local Abbreviation lock := (build_finalized_custodian_lock ctx).

(** What layer 1 guarantees of the cells: they have the capacity they occupy, which is
    not less than that of a change cell of their token, and their sums are 128-bit
    numbers; and what the searches leave to luck: no token among them is empty. *)
Record spendable (c : CollectedCustodianCells) : Prop := {
  sp_capacity : total_capacity (cell_value <$> cl_cells_info c) < 2 ^ 128;
  sp_amount : ∀ h, total_amount h (cell_value <$> cl_cells_info c) < 2 ^ 128;
  sp_min : ∃ a, occupied_capacity (mkCellOutput 1 lock None) 0 = Some a ∧ 2 * a ≤ MAX_CHANGE_CAPACITY;
  sp_cells : ∀ cell s, cell ∈ cl_cells_info c → co_type (cell_output cell) = Some s →
    is_Some (occupied_capacity (mkCellOutput 1 lock (Some s)) 16) ∧ reserve ctx s ≤ co_capacity (cell_output cell);
  sp_tokens : ∀ h, is_Some (cl_sudt c !! h) → 0 < held c h;
}.

Lemma spendable_custodians c :
  collected_ok tp c → spendable c → custodians_ok ctx (collected_available c).
Proof.
  intros [Hcap Ham Hscr Hcells] [Hsc Hsa Hmin Hsp Hpos].
  assert (Hnn : ∀ cell, cell ∈ cl_cells_info c → 0 ≤ co_capacity (cell_output cell)).
  { intros cell Hin. rewrite Forall_forall in Hcells. destruct (Hcells cell Hin) as [? _]. lia. }
  assert (Htot : 0 ≤ total_capacity (cell_value <$> cl_cells_info c)).
  { apply sum_over_nonneg. intros o (cell & -> & Hin)%list_elem_of_fmap. by apply Hnn. }
  rewrite sat_id in Hcap by done. constructor; cbn [collected_available fc_capacity fc_sudt].
  - lia.
  - done.
  - intros h b s Hs. destruct (Hscr h b s Hs) as (<- & Hne & cell & Hin & Hty).
    pose proof (Hpos _ ltac:(by eexists)) as Hp. pose proof (Ham _ Hne) as Hh. rewrite sat_id in Hh by done.
    specialize (Hsa (script_hash s)). unfold held in *. rewrite Hs in *. cbn in *.
    split_and!; [lia|lia|done|]. by apply (Hsp cell).
  - rewrite Hcap. unfold reserved. cbn [collected_available fc_sudt]. unfold total_capacity. rewrite sum_over_fmap.
    apply (map_sum_covered _ _ (λ cell, script_hash <$> co_type (cell_output cell))); [by apply Hnn|].
    intros h [b s] Hs. destruct (Hscr h b s Hs) as (<- & Hne & cell & Hin & Hty). exists cell.
    rewrite Hty. split_and!; [done..|]. by apply (Hsp cell).
Qed.

Context (block : L2Block) (extras : gmap H256 WithdrawalRequestExtra) (wtp : Timepoint).
Context (Htp : finalized_timepoint (E:=WithdrawalGenError) (rollup_config ctx) (fork_config ctx)
  (block_number block) (timestamp (block_raw block)) = Ok wtp).

Lemma include_each_cases available reqs g :
  custodians_ok ctx available → Forall request_ok reqs → account_ok ctx available g →
  (∃ e, include_each ctx block reqs g = Err e)
  ∨ ∃ g', include_each ctx block reqs g = Ok g' ∧ account_ok ctx available g'
      ∧ ∃ cells, wg_withdrawals g' = wg_withdrawals g ++ cells ∧ length cells = length reqs.
Proof.
  intros Hcust Hreqs. revert g. induction Hreqs as [|r reqs Hr _ IH]; intros g Hac.
  { right. exists g. split_and!; try done. exists []. by rewrite app_nil_r. }
  cbn [include_each].
  destruct (include_and_verify_cases ctx available Hcust g r block wtp Hac Hr Htp) as [[e ->]|(g' & out & -> & Hac' & Hw & _)];
    [left; by eexists|].
  destruct (IH g' Hac') as [?|(g2 & Hrun & Hac2 & cells & Hcells & Hlen)]; [by left|].
  right. exists g2. split_and!; try done. exists (out :: cells). rewrite Hcells, Hw, <- app_assoc. cbn. by rewrite Hlen.
Qed.

Definition requests (b : L2Block) : list WithdrawalRequestExtra := extra_of extras <$> block_withdrawals b.

Lemma generate_conserves c :
  collected_ok tp c → spendable c → Forall request_ok (requests block) →
  generate ctx c block extras ≠ Panic
  ∧ ∀ gw, generate ctx c block extras = Ok (Some gw) →
      (gen_inputs gw).*2 = cl_cells_info c
      ∧ total_capacity (gen_outputs gw) = total_capacity (cell_value <$> (gen_inputs gw).*2)
      ∧ ∀ h, h ≠ CKB_SUDT_SCRIPT_ARGS →
          total_amount h (gen_outputs gw) = total_amount h (cell_value <$> (gen_inputs gw).*2).
Proof.
  intros Hc Hsp Hreqs. unfold generate. destruct (_ && _); [by split|].
  pose proof (spendable_custodians c Hc Hsp) as Hcust.
  destruct (WGenerator_new_run ctx _ Hcust) as (g0 & -> & Hac & _). cbn [mbind outcome_bind].
  destruct (include_each_cases _ _ g0 Hcust Hreqs Hac) as [[e He]|(g & He & Hacg & _)];
    unfold requests in He; rewrite He; cbn [mbind outcome_bind]; [by split|]. split; [done|].
  intros gw [= <-]. cbn [gen_inputs gen_outputs].
  assert (Hin : (input_of <$> cl_cells_info c).*2 = cl_cells_info c).
  { rewrite <- list_fmap_compose. apply list_fmap_id. }
  rewrite Hin. destruct (finish_spec ctx _ Hcust g Hacg) as (Hcap & Ham & _). split; [done|]. split.
  - rewrite Hcap. cbn. rewrite (col_capacity _ _ Hc). apply sat_id, Hsp.
  - intros h Hh. rewrite Ham. cbn. pose proof (col_amount _ _ Hc h Hh) as E. unfold held in E. rewrite E.
    apply sat_id, Hsp.
Qed.

(** *** A search that found enough *)
Definition raw_of (r : WithdrawalRequestExtra) : RawWithdrawalRequest := w_raw (we_request r).
Definition buildable (available : FinalizedCustodianCapacity) (r : WithdrawalRequestExtra) : Prop :=
  ∃ out, build_withdrawal_cell_output ctx r (block_hash block) wtp
           (snd <$> fc_sudt available !! w_sudt_script_hash (raw_of r)) = Ok out.

Lemma account_script available g h :
  account_ok ctx available g → sc_script <$> wg_sudt_custodians g !! h = snd <$> fc_sudt available !! h.
Proof.
  intros Hac. pose proof (ac_tokens _ _ _ _ _ Hac h) as Hh. inversion Hh as [[b s] c Ht E1 E2|]; cbn; [|done].
  f_equal. apply Ht.
Qed.

Lemma include_each_pays available reqs g :
  custodians_ok ctx available → account_ok ctx available g →
  Forall request_ok reqs → Forall (buildable available) reqs →
  sum_over (λ r, w_capacity (raw_of r)) reqs ≤ ck_balance (wg_ckb_custodian g) →
  (∀ h, sum_over (λ r, asks (raw_of r) h) reqs ≤ left_of g h) →
  ∃ g', include_each ctx block reqs g = Ok g' ∧ account_ok ctx available g'
    ∧ ∃ cells, wg_withdrawals g' = wg_withdrawals g ++ cells ∧ length cells = length reqs.
Proof.
  intros Hcust Hac Hok. revert g Hac. induction Hok as [|r reqs Hr Hrs IH]; intros g Hac Hb Hcap Ham.
  { exists g. split_and!; try done. exists []. by rewrite app_nil_r. }
  inversion Hb as [|? ? [out Hout] Hb']; subst. cbn [include_each sum_over] in *.
  assert (Hrest : ∀ h, 0 ≤ sum_over (λ r, asks (raw_of r) h) reqs).
  { intros h. apply sum_over_nonneg. intros x Hx. rewrite Forall_forall in Hrs. destruct (Hrs x Hx) as [_ ?].
    unfold asks, raw_of. case_bool_decide; lia. }
  assert (Hrest2 : 0 ≤ sum_over (λ r, w_capacity (raw_of r)) reqs).
  { apply sum_over_nonneg. intros x Hx. rewrite Forall_forall in Hrs. destruct (Hrs x Hx) as [? _]. unfold raw_of. lia. }
  destruct (include_succeeds ctx available Hcust g r block wtp out) as [g1 Hg1]; try done.
  { by rewrite (account_script available) by done. }
  { unfold raw_of in *. lia. }
  { specialize (Ham (w_sudt_script_hash (raw_of r))). specialize (Hrest (w_sudt_script_hash (raw_of r))).
    unfold asks in Ham at 1. rewrite bool_decide_true in Ham by done. unfold raw_of in *. lia. }
  destruct (include_and_verify_cases ctx available Hcust g r block wtp Hac Hr Htp)
    as [[e He]|(g' & out' & Hrun & Hac' & Hw & _ & Hb1 & Hl1)]; [congruence|].
  rewrite Hrun. destruct (IH g' Hac' Hb') as (g2 & Hrun2 & Hac2 & cells & Hcells & Hlen).
  { unfold raw_of in *. lia. }
  { intros h. rewrite Hl1. specialize (Ham h). unfold raw_of in *. lia. }
  exists g2. split_and!; try done. exists (out' :: cells). rewrite Hcells, Hw, <- app_assoc. cbn. by rewrite Hlen.
Qed.

(** *** What the withdrawals need *)
Lemma sum_withdrawals_spec ws :
  Forall (λ w, 0 ≤ w_capacity (w_raw w) ∧ 0 ≤ w_amount (w_raw w)) ws →
  wa_capacity (sum_withdrawals ws) = sat (sum_over (λ w, w_capacity (w_raw w)) ws)
  ∧ ∀ h, h ≠ CKB_SUDT_SCRIPT_ARGS →
      default 0 (wa_sudt (sum_withdrawals ws) !! h) = sat (sum_over (λ w, asks (w_raw w) h) ws).
Proof.
  intros Hws. unfold sum_withdrawals.
  enough (Hgen : ∀ total x y, wa_capacity total = sat x →
    (∀ h, h ≠ CKB_SUDT_SCRIPT_ARGS → default 0 (wa_sudt total !! h) = sat (y h)) →
    wa_capacity (foldl sum_withdrawal total ws) = sat (x + sum_over (λ w, w_capacity (w_raw w)) ws)
    ∧ ∀ h, h ≠ CKB_SUDT_SCRIPT_ARGS → default 0 (wa_sudt (foldl sum_withdrawal total ws) !! h)
        = sat (y h + sum_over (λ w, asks (w_raw w) h) ws)).
  { destruct (Hgen (mkWithdrawalsAmount 0 ∅) 0 (λ _, 0)) as [Hc Ha]; [done..|]. split; [done|]. intros h Hh. by rewrite Ha. }
  induction Hws as [|w ws [Hc Ha] _ IH]; intros total x y Hx Hy.
  { cbn. rewrite Z.add_0_r. split; [done|]. intros h Hh. by rewrite Z.add_0_r, Hy. }
  cbn [foldl sum_over]. rewrite Z.add_assoc.
  destruct (IH (sum_withdrawal total w) (x + w_capacity (w_raw w)) (λ h, y h + asks (w_raw w) h)) as [Hc' Ha'].
  - cbn. rewrite Hx. by apply sat_add.
  - intros h Hh. cbn [sum_withdrawal wa_sudt]. unfold asks.
    destruct (Z.eqb_spec (w_amount (w_raw w)) 0) as [E0|E0]; cbn [negb andb].
    { rewrite E0. case_bool_decide; rewrite Z.add_0_r; by apply Hy. }
    case_bool_decide as Hck; cbn [negb].
    { rewrite bool_decide_false by congruence. rewrite Z.add_0_r. by apply Hy. }
    case_bool_decide as Heq; [|rewrite lookup_insert_ne, Z.add_0_r by done; by apply Hy].
    subst h. rewrite lookup_insert_eq. cbn. rewrite Hy by done. by apply sat_add.
  - split; [done|]. intros h Hh. rewrite Ha' by done. f_equal. lia.
Qed.

Lemma sum_change_spec asset amounts change :
  (∀ h, is_Some (wa_sudt amounts !! h) → ∃ s, asset h = Some s
     ∧ is_Some (occupied_capacity (mkCellOutput 1 lock (Some s)) 16)) →
  sum_change_capacity ctx asset amounts = Ok change →
  change = min_change ctx
    + sum_over (λ h, default 0 (reserve ctx <$> asset h)) (map_iter (wa_sudt amounts)).*1.
Proof.
  intros Hasset. unfold sum_change_capacity, calc_ckb_custodian_min_capacity, min_change.
  destruct (occupied_capacity _ 0) as [a|]; [|done]. cbn [unwrap mbind outcome_bind default].
  enough (Hgen : ∀ l x y, (∀ h, h ∈ l → is_Some (wa_sudt amounts !! h)) →
    foldM (λ a h, c ← to_change_capacity ctx asset h; add_w 128 a c) x l = Ok y →
    y = x + sum_over (λ h, default 0 (reserve ctx <$> asset h)) l).
  { intros (y & Hy & Hadd)%bind_Ok. apply Hgen in Hy; [apply unwrap_Ok, checked_add_Some in Hadd; cbn; lia|].
    intros h ([k v] & -> & Hin)%list_elem_of_fmap. rewrite map_iter_perm in Hin. apply elem_of_map_to_list in Hin. by eexists. }
  induction l as [|h l IH]; intros x y Hl Hrun; cbn [foldM sum_over] in *; inv_ok; [lia|].
  destruct (Hasset h (Hl h ltac:(left))) as (s & Hs & Hocc).
  match goal with Hc : to_change_capacity _ _ _ = _ |- _ =>
    unfold to_change_capacity in Hc; rewrite Hs, (generate_finalized_custodian_run ctx) in Hc by done; cbn in Hc; inv_ok end.
  match goal with Ha : add_w _ _ _ = _ |- _ => apply unwrap_Ok, checked_add_Some in Ha as [-> _] end.
  match goal with Hr : foldM _ _ l = _ |- _ => apply IH in Hr; [|intros k Hk; apply Hl; by right] end.
  subst. rewrite Hs. cbn. lia.
Qed.
End Submission.

Section Theorems.
Context `{Blake2b, Molecule, HashCodec, CkbTypesLaws, CustodianCodec, MapIter, IndexerLaws}.
Context (ctx : RollupContext) (manager : LocalCellsManager) (tp : CompatibleFinalizedTimepoint).
Local Abbreviation lock := (build_finalized_custodian_lock ctx).

(** The live cells the node knows of have 64-bit capacities. *)
Definition local_cells_ok : Prop :=
  ∀ p c, local_live_cells manager !! p = Some c → 0 ≤ co_capacity (cell_output c) < 2 ^ 64.
Definition rpc_cells_ok (query : Script → nat → gset OutPoint → outcome unit (QueryResult (list CellInfo))) : Prop :=
  ∀ s n seen, query s n seen ≠ Panic ∧ ∀ r, query s n seen = Ok r → Forall (token_cell tp) (expect_any r).

(** C14. The custodian cells the block producer gathers for a submission and the cells it
    makes of them hold the same capacity and the same amount of every token; every cell
    it spends is a finalized custodian; and making the cells does not panic.  The query
    for cells to merge finds finalized custodians of tokens or fails ([rpc_cells_ok]),
    capacities and requests have the widths of their fields, and the cells gathered are
    [spendable]: their sums fit in 128 bits, a token cell has the capacity reserved for
    it, a change cell needs at most half of MAX_CHANGE_CAPACITY, and no gathered token
    is empty, as an empty one loses its capacity ([empty_token_loses_capacity]). *)
Theorem submission_conserves_assets query fuel asset scripts c block extras wtp :
  local_cells_ok → length (rollup_script_hash ctx) = 32%nat → rpc_cells_ok query →
  gather ctx manager tp query fuel asset scripts (block_withdrawals block) = Some (Ok c) →
  spendable ctx c →
  finalized_timepoint (E:=WithdrawalGenError) (rollup_config ctx) (fork_config ctx) (block_number block)
    (timestamp (block_raw block)) = Ok wtp →
  Forall request_ok (requests extras block) →
  generate ctx c block extras ≠ Panic
  ∧ ∀ gw, generate ctx c block extras = Ok (Some gw) →
      Forall (λ cell, ∃ a, finalized_custodian_args tp cell = Ok (Some a)) (gen_inputs gw).*2
      ∧ total_capacity (gen_outputs gw) = total_capacity (cell_value <$> (gen_inputs gw).*2)
      ∧ ∀ h, h ≠ CKB_SUDT_SCRIPT_ARGS →
          total_amount h (gen_outputs gw) = total_amount h (cell_value <$> (gen_inputs gw).*2).
Proof.
  intros Hlocal Hroot Hquery Hgather Hsp Htp Hreqs.
  pose proof (gather_ok ctx manager tp Hlocal Hroot query Hquery _ _ _ _ _ Hgather) as Hc.
  destruct (generate_conserves ctx tp block extras wtp Htp c Hc Hsp Hreqs) as [Hp Hok]. split; [done|].
  intros gw Hgw. destruct (Hok gw Hgw) as (Hin & Hcap & Ham). split; [|done]. rewrite Hin.
  eapply Forall_impl; [apply (col_cells _ _ Hc)|]. by intros cell [_ ?].
Qed.

(** The capacity a search for the withdrawals asks for covers the change cells. *)
Lemma enough_spare asset ws change c :
  enough (sum_withdrawals ws) (saturating_add 128 (wa_capacity (sum_withdrawals ws)) change) c →
  sum_change_capacity ctx asset (sum_withdrawals ws) = Ok change →
  Forall (λ w, 0 ≤ w_capacity (w_raw w) ∧ 0 ≤ w_amount (w_raw w)) ws →
  sum_over (λ w, w_capacity (w_raw w)) ws + change < 2 ^ 128 → 0 ≤ change →
  (∀ h, is_Some (wa_sudt (sum_withdrawals ws) !! h) → ∃ s, asset h = Some s
     ∧ is_Some (occupied_capacity (mkCellOutput 1 lock (Some s)) 16)) →
  (∀ h b s, cl_sudt c !! h = Some (b, s) → asset h = Some s) →
  min_change ctx + sum_over (λ w, w_capacity (w_raw w)) ws ≤ spare ctx (collected_available c).
Proof.
  intros (Hcap & Htok & _) Hchange Hws Hbound Hpos Hasset Hscr.
  destruct (sum_withdrawals_spec ws Hws) as [Hwc _].
  rewrite Hwc, sat_id in Hcap by lia. unfold saturating_add in Hcap. rewrite Z.min_l in Hcap by lia.
  pose proof (sum_change_spec ctx asset _ _ Hasset Hchange) as ->.
  unfold spare, reserved. cbn [collected_available fc_capacity fc_sudt].
  enough (map_sum (λ e, reserve ctx e.2) (cl_sudt c)
    ≤ sum_over (λ h, default 0 (reserve ctx <$> asset h)) (map_iter (wa_sudt (sum_withdrawals ws))).*1) by lia.
  apply (map_sum_covered _ _ Some).
  - intros h ([k v] & -> & Hin)%list_elem_of_fmap. rewrite map_iter_perm in Hin. apply elem_of_map_to_list in Hin.
    destruct (Hasset k) as (s & Hs & Hocc); [by eexists|]. cbn. rewrite Hs. cbn. pose proof (reserve_range ctx s Hocc). lia.
  - intros h [b s] Hs. exists h. cbn. rewrite (Hscr _ _ _ Hs). cbn. split_and!; [|done|done].
    destruct (Htok h) as [a Ha]; [by eexists|]. apply list_elem_of_fmap. exists (h, a). split; [done|].
    rewrite map_iter_perm. by apply elem_of_map_to_list.
Qed.

(** C15. When the search for custodians reports that it found enough, every withdrawal of
    the block is paid: if the cells of the withdrawals can be built at all, so can the
    submission, with one withdrawal cell per request followed by change cells that have
    the capacity they occupy.  Conditions: the cells found are [spendable]; the scripts
    of the withdrawn tokens are known and are those of the cells; the sums stay below
    2^128; and no request asks for an amount of the CKB type. *)
Theorem full_query_pays_withdrawals fuel asset change c block extras wtp :
  local_cells_ok → length (rollup_script_hash ctx) = 32%nat →
  query_finalized_custodians ctx manager tp fuel asset (block_withdrawals block) = Some (Ok (QueryFull c)) →
  spendable ctx c →
  (** the tokens of the withdrawals are known, by the scripts the cells have *)
  (∀ h, is_Some (wa_sudt (sum_withdrawals (block_withdrawals block)) !! h) → ∃ s, asset h = Some s
     ∧ is_Some (occupied_capacity (mkCellOutput 1 lock (Some s)) 16)) →
  (∀ h b s, cl_sudt c !! h = Some (b, s) → asset h = Some s) →
  (** the numbers stay in range *)
  sum_change_capacity ctx asset (sum_withdrawals (block_withdrawals block)) = Ok change → 0 ≤ change →
  sum_over (λ w, w_capacity (w_raw w)) (block_withdrawals block) + change < 2 ^ 128 →
  (∀ h, sum_over (λ w, asks (w_raw w) h) (block_withdrawals block) < 2 ^ 128) →
  finalized_timepoint (E:=WithdrawalGenError) (rollup_config ctx) (fork_config ctx) (block_number block)
    (timestamp (block_raw block)) = Ok wtp →
  (** the requests are those of the block, none asks for tokens of type CKB, their cells can be built *)
  (∀ w, w ∈ block_withdrawals block → we_request (extra_of extras w) = w) →
  (∀ w, w ∈ block_withdrawals block → w_sudt_script_hash (w_raw w) = CKB_SUDT_SCRIPT_ARGS → w_amount (w_raw w) = 0) →
  Forall request_ok (requests extras block) →
  Forall (buildable ctx block wtp (collected_available c)) (requests extras block) →
  block_withdrawals block ≠ [] →
  ∃ gw cells rest, generate ctx c block extras = Ok (Some gw)
    ∧ gen_outputs gw = cells ++ rest ∧ length cells = length (block_withdrawals block)
    ∧ Forall cell_fits rest.
Proof.
  intros Hlocal Hroot Hq Hsp Hasset Hscr Hchange Hpos Hbound Hbound2 Htp Hextra Hckb Hreqs Hbuild Hne.
  destruct (query_finalized_ok ctx manager tp Hlocal Hroot _ _ _ _ Hq) as (change' & Hch' & Hc & Henough).
  rewrite Hchange in Hch'. injection Hch' as <-. pose proof (spendable_custodians ctx tp c Hc Hsp) as Hcust.
  assert (Hrange : Forall (λ w, 0 ≤ w_capacity (w_raw w) ∧ 0 ≤ w_amount (w_raw w)) (block_withdrawals block)).
  { apply Forall_forall. intros w Hw. rewrite Forall_forall in Hreqs.
    destruct (Hreqs (extra_of extras w)) as [? ?]; [by apply list_elem_of_fmap_2|]. rewrite Hextra in * by done. lia. }
  assert (Hsum : ∀ (f : RawWithdrawalRequest → Z), sum_over (λ r, f (raw_of r)) (requests extras block)
      = sum_over (λ w, f (w_raw w)) (block_withdrawals block)).
  { intros f. unfold requests. rewrite sum_over_fmap. apply sum_over_ext. intros w Hw. cbn. unfold raw_of. by rewrite Hextra. }
  pose proof (enough_spare _ _ _ _ Henough Hchange Hrange Hbound Hpos Hasset Hscr) as Hspare.
  destruct (WGenerator_new_run ctx _ Hcust) as (g0 & Hnew & Hac & Hw0 & Hc0).
  pose proof (min_change_range ctx _ Hcust) as Hmin.
  assert (Hcaps : 0 ≤ sum_over (λ w, w_capacity (w_raw w)) (block_withdrawals block)).
  { apply sum_over_nonneg. intros w Hw. rewrite Forall_forall in Hrange. by apply Hrange. }
  assert (Hst : solvent_start ctx (collected_available c)) by (right; lia).
  destruct (include_each_pays ctx block wtp Htp (collected_available c) (requests extras block) g0)
    as (g & Hrun & Hacg & cells & Hcells & Hlen); try done.
  { rewrite (Hsum w_capacity). destruct (ac_solvent _ _ _ _ _ Hac Hst) as [[? ?]|[? ->]]; lia. }
  { intros h. rewrite (Hsum (λ r, asks r h)). assert (Hleft : left_of g0 h = held c h).
    { pose proof (ac_tokens _ _ _ _ _ Hac h) as Hh. rewrite Hw0 in Hh. unfold left_of, held. cbn in Hh.
      inversion Hh as [[b s] cu Ht E1 E2|]; cbn; [|done]. destruct Ht as (_ & _ & Hb & _).
      unfold total_amount in Hb. cbn in Hb. lia. }
    rewrite Hleft. destruct (decide (h = CKB_SUDT_SCRIPT_ARGS)) as [->|Hh].
    - rewrite sum_over_zero; [|intros w Hw; unfold asks; case_bool_decide; [by apply Hckb|done]].
      unfold held. destruct (cl_sudt c !! CKB_SUDT_SCRIPT_ARGS) as [[b s]|] eqn:Hs; [|done].
      by destruct (col_script _ _ Hc _ _ _ Hs) as (_ & ? & _).
    - destruct (sum_withdrawals_spec _ Hrange) as [_ Hamt]. specialize (Hamt h Hh). rewrite sat_id in Hamt by done.
      rewrite <- Hamt. destruct Henough as (_ & _ & Hen).
      destruct (wa_sudt (sum_withdrawals (block_withdrawals block)) !! h) as [a|] eqn:Hwa; cbn; [by apply Hen|].
      rewrite (col_amount _ _ Hc h Hh). unfold sat. apply Z.min_glb; [|lia]. apply sum_over_nonneg. intros o _.
      unfold amount_of. case_bool_decide; [apply le_val_range|lia]. }
  rewrite Hw0 in Hcells. cbn in Hcells. unfold generate.
  rewrite bool_decide_false by (by destruct (block_withdrawals block)). cbn [andb].
  rewrite Hnew. cbn [mbind outcome_bind]. unfold requests in Hrun. rewrite Hrun. cbn [mbind outcome_bind].
  destruct (finish_spec ctx _ Hcust g Hacg) as (_ & _ & Hfit).
  eexists _, cells, _. split; [reflexivity|]. cbn [gen_outputs]. split_and!.
  - unfold finish. rewrite Hcells. reflexivity.
  - rewrite Hlen. unfold requests. by rewrite length_fmap.
  - by apply Hfit.
Qed.
End Theorems.
