(* ===== verification/TxSkeleton.v ===== *)
(** * Layer-1 transactions in the making (crates/utils/src/transaction_skeleton.rs,
      fee.rs, wallet.rs)

    The node assembles its layer-1 transactions as skeletons, adds cells of its wallet
    that pay the fee ([fill_tx_fee_with_local]) and signs them
    ([sign_tx_skeleton]).  The fee is estimated from the size of the transaction
    with dummy signatures and a dummy change cell.

    [filled_tx_pays_fee]: the search for payment cells ends, and the signed
    transaction pays exactly the fee its own size requires. *)
From Stdlib Require Import ZArith Lia Strings.Byte.
From stdpp Require Import prelude list gmap.
From S2P Require Import Prelude Bytes Types State StateSpec StateDB Finality Ckb.
From S2P Require Import NodeUtils NodeState AccountLocks Backends Syscalls Generator FeeQueue Verifiers Store LocalCells WithdrawalCells SubmitCells.
Local Open Scope Z_scope.

(** ** Data *)
Record CellDep := mkCellDep { cd_out_point : OutPoint; cd_dep_type : Z }.
Inductive SignatureKind := OmniLockSecp256k1 | GenesisSecp256k1.
Record SignatureEntry := mkSignatureEntry {
  se_indexes : list nat; se_lock_hash : H256; se_kind : SignatureKind;
}.
Record SealedTransaction := mkSealedTransaction { sealed_transaction : L1Transaction; sealed_fee : Z }.
(** [InputCellInfo] is an input with the cell it spends. *)
Record TransactionSkeleton := mkSkeleton {
  sk_inputs : list (CellInput * CellInfo);
  sk_cell_deps : list CellDep;
  sk_witnesses : list WitnessArgs;
  sk_outputs : list (CellOutput * bytes);
  sk_omni_lock_code_hash : option H256;
}.
Definition empty_skeleton : TransactionSkeleton := mkSkeleton [] [] [] [] None.
Definition sk_with_inputs (inputs : list (CellInput * CellInfo)) (sk : TransactionSkeleton) : TransactionSkeleton :=
  mkSkeleton inputs (sk_cell_deps sk) (sk_witnesses sk) (sk_outputs sk) (sk_omni_lock_code_hash sk).
Definition sk_with_outputs (outputs : list (CellOutput * bytes)) (sk : TransactionSkeleton) : TransactionSkeleton :=
  mkSkeleton (sk_inputs sk) (sk_cell_deps sk) (sk_witnesses sk) outputs (sk_omni_lock_code_hash sk).
Definition default_input (cell : CellInfo) : CellInput * CellInfo := (mkCellInput 0 (cell_out_point cell), cell).
Definition no_witness : WitnessArgs := mkWitnessArgs None None None.

(** The encodings whose sizes count, and the wallet's key *)
Class TxCodec := {
  enc_Transaction : L1Transaction → bytes;
  enc_CellDeps : list CellDep → bytes;
  enc_WitnessArgs : WitnessArgs → bytes;
  enc_OmniLockWitnessLock : bytes → bytes;
}.
Class Wallet := sign_message : bytes → outcome unit bytes.

(** ** transaction_skeleton.rs *)
Section Skeleton.
Context `{Blake2b, Molecule, HashCodec, TxCodec, MapIter}.
Local Abbreviation M := (outcome unit).

(** [Signature::new(kind, sig).as_bytes()] *)
Definition Signature_as_bytes (kind : SignatureKind) (sig : bytes) : bytes :=
  match kind with OmniLockSecp256k1 => enc_OmniLockWitnessLock sig | GenesisSecp256k1 => sig end.
Definition zero_bytes_from_entry (e : SignatureEntry) : bytes :=
  zeros (length (Signature_as_bytes (se_kind e) (zeros 65))).

Definition add_owner_cell (owner_cell : CellInfo) (sk : TransactionSkeleton) : TransactionSkeleton :=
  sk_with_outputs (sk_outputs sk ++ [(cell_output owner_cell, cell_data owner_cell)])
    (sk_with_inputs (sk_inputs sk ++ [default_input owner_cell]) sk).

Definition add_entry (sk : TransactionSkeleton) (entries : gmap H256 SignatureEntry) (index : nat)
    (input : CellInput * CellInfo) : gmap H256 SignatureEntry :=
  if bool_decide (is_Some (sk_witnesses sk !! index ≫= wa_lock)) then entries else
  let lock := co_lock (cell_output input.2) in
  let lock_hash := script_hash lock in
  let kind := if bool_decide (Some (code_hash lock) = sk_omni_lock_code_hash sk)
              then OmniLockSecp256k1 else GenesisSecp256k1 in
  let entry := default (mkSignatureEntry [] lock_hash kind) (entries !! lock_hash) in
  <[lock_hash := mkSignatureEntry (se_indexes entry ++ [index]) (se_lock_hash entry) (se_kind entry)]> entries.
Fixpoint add_entries (sk : TransactionSkeleton) (entries : gmap H256 SignatureEntry) (index : nat)
    (inputs : list (CellInput * CellInfo)) : gmap H256 SignatureEntry :=
  match inputs with
  | [] => entries
  | input :: inputs => add_entries sk (add_entry sk entries index input) (S index) inputs
  end.
Definition signature_entries (sk : TransactionSkeleton) : list SignatureEntry :=
  (map_iter (add_entries sk ∅ 0 (sk_inputs sk))).*2.

Definition sum_capacities (l : list CellOutput) : M Z := foldM (λ a o, add_w 64 a (co_capacity o)) 0 l.
Definition calculate_fee (sk : TransactionSkeleton) : M Z :=
  inputs_capacity ← sum_capacities ((λ i, cell_output i.2) <$> sk_inputs sk);
  outputs_capacity ← sum_capacities (sk_outputs sk).*1;
  Ok (saturating_sub inputs_capacity outputs_capacity).

Definition set_signature (witnesses : list WitnessArgs) (es : SignatureEntry * bytes) : M (list WitnessArgs) :=
  let '(entry, signature) := es in
  index ← unwrap (head (se_indexes entry));
  witness_args ← unwrap (witnesses !! index);
  reject_if (bool_decide (is_Some (wa_lock witness_args))) tt ;;
  Ok (<[index := mkWitnessArgs (Some signature) (wa_input_type witness_args) (wa_output_type witness_args)]>
        witnesses).
(** [if witnesses.len() < n { witnesses.resize(n, Default::default()) }] *)
Definition resized (n : nat) (witnesses : list WitnessArgs) : list WitnessArgs :=
  witnesses ++ replicate (n - length witnesses) no_witness.
Definition transaction_of (sk : TransactionSkeleton) (witnesses : list WitnessArgs) : L1Transaction :=
  mkL1Transaction (sk_inputs sk).*1 (sk_outputs sk).*1 (sk_outputs sk).*2 (enc_WitnessArgs <$> witnesses)
    (enc_CellDeps (sk_cell_deps sk)).
Definition seal (entries : list SignatureEntry) (signatures : list bytes) (sk : TransactionSkeleton) :
    M SealedTransaction :=
  assert_that (length entries =? length signatures)%nat ;;
  witnesses ← foldM set_signature (resized (length (sk_inputs sk)) (sk_witnesses sk)) (zip entries signatures);
  fee ← calculate_fee sk;
  Ok (mkSealedTransaction (transaction_of sk witnesses) fee).

Definition tx_size (tx : L1Transaction) : Z := Z.of_nat (length (enc_Transaction tx)) + 4.
Definition tx_in_block_size (sk : TransactionSkeleton) : M Z :=
  let entries := signature_entries sk in
  sealed_tx ← seal entries (zero_bytes_from_entry <$> entries) sk;
  Ok (tx_size (sealed_transaction sealed_tx)).
Definition check_fee_rate (s : SealedTransaction) : M unit :=
  reject_if (sealed_fee s <? tx_size (sealed_transaction s)) tt.
Definition taken_outpoints (sk : TransactionSkeleton) : M (gset OutPoint) :=
  let points := (λ i, cell_out_point i.2) <$> sk_inputs sk in
  assert_that (bool_decide (NoDup points)) ;;
  Ok (list_to_set points).

(** ** wallet.rs *)
Context `{Wallet}.
(** The length of a witness, and the witness *)
Definition hashed_witness (witnesses : list bytes) (index : nat) : M bytes :=
  w ← unwrap (witnesses !! index);
  Ok (le_bytes 8 (Z.of_nat (length w)) ++ w).
Definition entry_message (tx : L1Transaction) (entry : SignatureEntry) : M bytes :=
  first ← unwrap (head (se_indexes entry));
  group ← collect (hashed_witness (l1_witnesses tx) <$> first :: tail (se_indexes entry));
  others ← collect (hashed_witness (l1_witnesses tx)
    <$> seq (length (l1_inputs tx)) (length (l1_witnesses tx) - length (l1_inputs tx)));
  Ok (blake2b (l1_hash tx ++ concat group ++ concat others)).
Definition sign_entry (tx : L1Transaction) (entry : SignatureEntry) : M bytes :=
  message ← entry_message tx entry;
  sig ← sign_message message;
  Ok (Signature_as_bytes (se_kind entry) sig).
Definition sign_tx_skeleton (sk : TransactionSkeleton) : M L1Transaction :=
  let entries := signature_entries sk in
  dummy ← seal entries (zero_bytes_from_entry <$> entries) sk;
  signatures ← collect (sign_entry (sealed_transaction dummy) <$> entries);
  sealed_tx ← seal entries signatures sk;
  check_fee_rate sealed_tx ;;
  Ok (sealed_transaction sealed_tx).
End Skeleton.

(** ** fee.rs *)
Definition CHANGE_CELL_CAPACITY : Z := 61 * 10 ^ 8.
Section Fee.
Context `{Blake2b, Molecule, HashCodec, TxCodec, MapIter, Indexer}.
Context (manager : LocalCellsManager) (lock_script : Script).
Local Abbreviation M := (outcome unit).

Definition calculate_required_tx_fee (tx_size fee_rate : Z) : M Z :=
  p ← unwrap (checked_mul 64 tx_size fee_rate); Ok (p / 1000).
Definition change_cell (capacity : Z) : CellOutput * bytes := (mkCellOutput capacity lock_script None, []).
Definition with_change (capacity : Z) (sk : TransactionSkeleton) : TransactionSkeleton :=
  sk_with_outputs (sk_outputs sk ++ [change_cell capacity]) sk.
Definition estimate_tx_size_with_change (sk : TransactionSkeleton) : M Z :=
  tx_in_block_size (with_change CHANGE_CELL_CAPACITY sk).

Definition is_payment_cell (taken : gset OutPoint) (cell : CellInfo) : bool :=
  bool_decide (cell_data cell = []) && bool_decide (co_type (cell_output cell) = None)
  && negb (bool_decide (cell_out_point cell ∈ taken)).
(** [for cell in cells { .. if collected_capacity >= required_capacity { break } }] *)
Fixpoint collect_least (required_capacity : Z) (cells : list CellInfo) (acc : list CellInfo * Z) :
    list CellInfo * Z :=
  match cells with
  | [] => acc
  | cell :: cells =>
      let capacity := saturating_add 64 acc.2 (co_capacity (cell_output cell)) in
      let acc := (acc.1 ++ [cell], capacity) in
      if required_capacity <=? capacity then acc else collect_least required_capacity cells acc
  end.
(** [while collected_capacity < required_capacity]; [fuel] bounds the pages *)
Fixpoint payment_loop (fuel : nat) (required_capacity : Z) (taken : gset OutPoint) (cursor : CollectCursor)
    (acc : list CellInfo * Z) : option (M (list CellInfo)) :=
  match fuel with
  | O => None
  | S fuel =>
      if acc.2 <? required_capacity then
        if cursor_is_ended cursor then Some (Err tt) else
        match collect_local_and_indexer_cells manager (mkSearchKey lock_script ScriptTypeLock None) cursor with
        | (Ok cells, cursor) =>
            payment_loop fuel required_capacity taken cursor
              (collect_least required_capacity (filter (λ c, is_payment_cell taken c = true) cells) acc)
        | (Err e, _) => Some (Err e)
        | (Panic, _) => Some Panic
        end
      else Some (Ok acc.1)
  end.
Definition collect_payment_cells (fuel : nat) (required_capacity : Z) (taken : gset OutPoint) :
    option (M (list CellInfo)) :=
  payment_loop fuel required_capacity taken CursorLocal ([], 0).

(** What the skeleton can pay besides a change cell, and what it has to *)
Definition paid_and_required (fee_rate : Z) (sk : TransactionSkeleton) : M (Z * Z) :=
  tx_size ← estimate_tx_size_with_change sk;
  tx_fee ← calculate_required_tx_fee tx_size fee_rate;
  fee ← calculate_fee sk;
  Ok (saturating_sub fee CHANGE_CELL_CAPACITY, tx_fee).
Definition change_capacity_of (max_paid_fee tx_fee : Z) : M Z :=
  c ← add_w 64 max_paid_fee CHANGE_CELL_CAPACITY; sub_w c tx_fee.

(** [while required_fee > 0]; [fuel] bounds the rounds, [pages] the pages of a search *)
Fixpoint fee_loop (fuel pages : nat) (fee_rate required_fee change_capacity : Z) (sk : TransactionSkeleton) :
    option (M TransactionSkeleton) :=
  match fuel with
  | O => None
  | S fuel =>
      if 0 <? required_fee then
        match taken_outpoints sk with
        | Ok taken =>
            match collect_payment_cells pages required_fee taken with
            | Some (Ok cells) =>
                if bool_decide (cells = []) then Some Panic else
                let sk := sk_with_inputs (sk_inputs sk ++ (default_input <$> cells)) sk in
                match paid_and_required fee_rate sk with
                | Ok (max_paid_fee, tx_fee) =>
                    match change_capacity_of max_paid_fee tx_fee with
                    | Ok change_capacity =>
                        fee_loop fuel pages fee_rate (saturating_sub tx_fee max_paid_fee) change_capacity sk
                    | Err e => Some (Err e)
                    | Panic => Some Panic
                    end
                | Err e => Some (Err e)
                | Panic => Some Panic
                end
            | Some (Err e) => Some (Err e)
            | Some Panic => Some Panic
            | None => None
            end
        | Err e => Some (Err e)
        | Panic => Some Panic
        end
      else Some (Ok (with_change change_capacity sk))
  end.
Definition fill_tx_fee_with_local (fuel pages : nat) (fee_rate : Z) (sk : TransactionSkeleton) :
    option (M TransactionSkeleton) :=
  match paid_and_required fee_rate sk with
  | Ok (max_paid_fee, tx_fee) =>
      let required_fee := saturating_sub tx_fee max_paid_fee in
      if 0 =? required_fee then
        Some (change_capacity ← change_capacity_of max_paid_fee tx_fee; Ok (with_change change_capacity sk))
      else
        match add_w (E:=unit) 64 required_fee CHANGE_CELL_CAPACITY with
        | Ok required_fee => fee_loop fuel pages fee_rate required_fee 0 sk
        | Err e => Some (Err e)
        | Panic => Some Panic
        end
  | Err e => Some (Err e)
  | Panic => Some Panic
  end.
End Fee.

(** ** Sizes *)
(** Molecule lays a transaction out by the lengths of its variable parts; numbers
    and hashes have a fixed size. *)
Record same_shape (tx tx' : L1Transaction) : Prop := {
  ss_inputs : l1_inputs tx = l1_inputs tx';
  ss_outputs : Forall2 (λ o o', co_lock o = co_lock o' ∧ co_type o = co_type o') (l1_outputs tx) (l1_outputs tx');
  ss_data : l1_outputs_data tx = l1_outputs_data tx';
  ss_witnesses : Forall2 (λ w w', length w = length w') (l1_witnesses tx) (l1_witnesses tx');
  ss_rest : l1_rest tx = l1_rest tx';
}.
Definition same_lengths (w w' : WitnessArgs) : Prop :=
  length <$> wa_lock w = length <$> wa_lock w' ∧ wa_input_type w = wa_input_type w'
  ∧ wa_output_type w = wa_output_type w'.
Class TxCodecLaws `{TxCodec} : Prop := {
  transaction_size : ∀ tx tx', same_shape tx tx' → length (enc_Transaction tx) = length (enc_Transaction tx');
  witness_size : ∀ w w', same_lengths w w' → length (enc_WitnessArgs w) = length (enc_WitnessArgs w');
  omni_size : ∀ s s', length s = length s' →
    length (enc_OmniLockWitnessLock s) = length (enc_OmniLockWitnessLock s');
}.
Class WalletLaws `{Wallet} : Prop :=
  wallet_signs : ∀ m, ∃ sig, sign_message m = Ok sig ∧ length sig = 65%nat.

Lemma collect_Forall2 {E A B} (f : A → outcome E B) l (P : A → B → Prop) :
  (∀ a, a ∈ l → ∃ b, f a = Ok b ∧ P a b) → ∃ bs, collect (f <$> l) = Ok bs ∧ Forall2 P l bs.
Proof.
  induction l as [|a l IH]; intros Hl; [by exists []|].
  destruct (Hl a ltac:(left)) as (b & Hb & HP). destruct IH as (bs & Hbs & HPs); [intros x Hx; apply Hl; by right|].
  exists (b :: bs). cbn. rewrite Hb. cbn. change (collect (list_fmap _ _ f l)) with (collect (f <$> l)).
  rewrite Hbs. split; [done|by constructor].
Qed.

Section Sizes.
Context `{Blake2b, Molecule, HashCodec, TxCodecLaws, MapIter}.

Lemma set_signature_shape ws ws' e s s' ws1 :
  Forall2 same_lengths ws ws' → length s = length s' →
  set_signature ws (e, s) = Ok ws1 →
  ∃ ws1', set_signature ws' (e, s') = Ok ws1' ∧ Forall2 same_lengths ws1 ws1'.
Proof.
  intros Hws Hs. unfold set_signature. destruct (head (se_indexes e)) as [i|]; cbn; [|done].
  destruct (ws !! i) as [w|] eqn:Hi; cbn; [|done].
  destruct (Forall2_lookup_l _ _ _ _ _ Hws Hi) as (w' & Hi' & Hl & Hin & Hout). rewrite Hi'. cbn.
  destruct (wa_lock w) as [l|] eqn:El, (wa_lock w') as [l'|] eqn:El'; try done. cbn.
  intros [= <-]. eexists. split; [reflexivity|]. apply Forall2_insert; [done|]. unfold same_lengths. cbn.
  by rewrite Hs, Hin, Hout.
Qed.
Lemma set_signatures_shape es s s' ws ws' ws1 :
  Forall2 same_lengths ws ws' → Forall2 (λ a b, length a = length b) s s' →
  foldM set_signature ws (zip es s) = Ok ws1 →
  ∃ ws1', foldM set_signature ws' (zip es s') = Ok ws1' ∧ Forall2 same_lengths ws1 ws1'.
Proof.
  intros Hws Hs. revert es ws ws' Hws. induction Hs as [|a b s s' Hab _ IH]; intros [|e es] ws ws' Hws; cbn [zip zip_with foldM];
    [intros [= <-]; by exists ws'..|].
  intros (ws2 & Hset & Hrun)%bind_Ok. destruct (set_signature_shape _ _ _ _ _ _ Hws Hab Hset) as (ws2' & -> & Hws2).
  cbn. by apply (IH _ _ _ Hws2).
Qed.

Lemma Forall2_same_length_refl (ws : list bytes) : Forall2 (λ w w', length w = length w') ws ws.
Proof. induction ws; by constructor. Qed.
Lemma shape_refl (ws : list WitnessArgs) : Forall2 same_lengths ws ws.
Proof. induction ws; by constructor. Qed.

(** Signatures of the same lengths give transactions of the same shape. *)
Lemma seal_shape es s s' sk sealed :
  Forall2 (λ a b, length a = length b) s s' → seal es s sk = Ok sealed →
  ∃ sealed', seal es s' sk = Ok sealed' ∧ sealed_fee sealed' = sealed_fee sealed
    ∧ same_shape (sealed_transaction sealed) (sealed_transaction sealed').
Proof.
  intros Hs. unfold seal. rewrite <- (Forall2_length _ _ _ Hs).
  intros (? & Hlen & (ws1 & Hws & (fee & Hfee & [= <-])%bind_Ok)%bind_Ok)%bind_Ok. rewrite Hlen. cbn [mbind outcome_bind].
  destruct (set_signatures_shape _ _ _ _ _ _ (shape_refl _) Hs Hws) as (ws1' & -> & Hshape). cbn [mbind outcome_bind].
  rewrite Hfee. eexists. split; [reflexivity|]. split; [done|]. constructor; cbn; try done.
  - induction (sk_outputs sk); by constructor.
  - apply Forall2_fmap. eapply Forall2_impl; [exact Hshape|]. intros w w'. apply witness_size.
Qed.

Lemma tx_size_shape tx tx' : same_shape tx tx' → tx_size tx = tx_size tx'.
Proof. intros Hs. unfold tx_size. by rewrite (transaction_size _ _ Hs). Qed.

Lemma signature_entries_ext sk sk' :
  sk_inputs sk = sk_inputs sk' → sk_witnesses sk = sk_witnesses sk' →
  sk_omni_lock_code_hash sk = sk_omni_lock_code_hash sk' → signature_entries sk = signature_entries sk'.
Proof.
  intros Hin Hw Ho. unfold signature_entries. rewrite Hin.
  enough (Hall : ∀ l m i, add_entries sk m i l = add_entries sk' m i l) by (by rewrite Hall).
  induction l as [|x l IH]; intros m i; [done|]. cbn. rewrite IH. unfold add_entry. by rewrite Hw, Ho.
Qed.

(** The capacity of the change does not matter for the size. *)
Lemma change_shape lock c c' sk size fee :
  tx_in_block_size (with_change lock c sk) = Ok size →
  calculate_fee (with_change lock c' sk) = Ok fee →
  tx_in_block_size (with_change lock c' sk) = Ok size.
Proof.
  unfold tx_in_block_size, seal. intros Hrun Hfee. inv_ok.
  rewrite (signature_entries_ext (with_change lock c' sk) (with_change lock c sk)) by done.
  rewrite (proj2 (assert_that_Ok _ tt)) by done. cbn [mbind outcome_bind].
  change (sk_witnesses (with_change lock c' sk)) with (sk_witnesses (with_change lock c sk)).
  change (sk_inputs (with_change lock c' sk)) with (sk_inputs (with_change lock c sk)).
  match goal with Hf : foldM set_signature _ _ = Ok _ |- _ => rewrite Hf end. cbn [mbind outcome_bind].
  rewrite Hfee. cbn [mbind outcome_bind sealed_transaction]. f_equal. apply tx_size_shape.
  constructor; try done; cbn.
  - rewrite !fmap_app. apply Forall2_app; [|by repeat constructor]. induction (sk_outputs sk); by constructor.
  - by rewrite !fmap_app.
  - by apply Forall2_same_length_refl.
Qed.

(** *** The entries to sign *)
Lemma add_entries_indexes sk inputs m i :
  (∀ h e, m !! h = Some e → se_indexes e ≠ [] ∧ Forall (λ j, (j < i)%nat) (se_indexes e)) →
  ∀ h e, add_entries sk m i inputs !! h = Some e →
    se_indexes e ≠ [] ∧ Forall (λ j, (j < i + length inputs)%nat) (se_indexes e).
Proof.
  revert m i. induction inputs as [|x inputs IH]; intros m i Hm; cbn [add_entries length].
  { intros h e He. rewrite Nat.add_0_r. by eapply Hm. }
  rewrite <- Nat.add_succ_comm. apply IH. intros h e. unfold add_entry.
  assert (Hold : ∀ h e, m !! h = Some e → se_indexes e ≠ [] ∧ Forall (λ j, (j < S i)%nat) (se_indexes e)).
  { intros h' e' He'. destruct (Hm _ _ He') as [Hne Hall]. split; [done|]. eapply Forall_impl; [exact Hall|]. cbn. lia. }
  case_bool_decide; [apply Hold|]. intros [[<- <-]|[_ He]]%lookup_insert_Some; [|by eapply Hold]. cbn [se_indexes].
  split; [by intros [_ ?]%app_eq_nil|]. apply Forall_app. split; [|by repeat constructor].
  destruct (m !! _) as [e|] eqn:He; cbn; [|constructor]. by eapply Hold.
Qed.
Lemma signature_entries_indexes sk e :
  e ∈ signature_entries sk →
  se_indexes e ≠ [] ∧ Forall (λ j, (j < length (sk_inputs sk))%nat) (se_indexes e).
Proof.
  intros ([h e'] & -> & Hin)%list_elem_of_fmap. rewrite map_iter_perm in Hin. apply elem_of_map_to_list in Hin.
  eapply (add_entries_indexes _ _ ∅ 0) in Hin; [exact Hin|]. intros ? ? He. by rewrite lookup_empty in He.
Qed.

Lemma set_signatures_length es ws ws' : foldM set_signature ws es = Ok ws' → length ws' = length ws.
Proof.
  revert ws. induction es as [|[e s] es IH]; intros ws; cbn [foldM]; [by intros [= <-]|].
  intros (ws1 & Hset & Hrun)%bind_Ok. rewrite (IH _ Hrun). unfold set_signature in Hset. inv_ok.
  by rewrite length_insert.
Qed.
(** A witness that already has a lock part is left alone. *)
Lemma set_signatures_keep es ws ws' i w :
  foldM set_signature ws es = Ok ws' → ws !! i = Some w → is_Some (wa_lock w) → ws' !! i = Some w.
Proof.
  revert ws. induction es as [|[e s] es IH]; intros ws; cbn [foldM]; [by intros [= <-]|].
  intros (ws1 & Hset & Hrun)%bind_Ok Hi Hlock. apply (IH _ Hrun); [|done]. unfold set_signature in Hset. inv_ok. bool_inv.
  rewrite list_lookup_insert_ne; [done|]. intros ->. congruence.
Qed.
Lemma seal_transaction es s sk sealed :
  seal es s sk = Ok sealed →
  ∃ ws, sealed_transaction sealed = transaction_of sk ws ∧ calculate_fee sk = Ok (sealed_fee sealed)
    ∧ (length (sk_inputs sk) ≤ length ws)%nat
    ∧ ∀ i w, sk_witnesses sk !! i = Some w → is_Some (wa_lock w) → ws !! i = Some w.
Proof.
  unfold seal. intros (? & _ & (ws & Hws & (fee & Hfee & [= <-])%bind_Ok)%bind_Ok)%bind_Ok.
  exists ws. split; [done|]. split; [done|]. split.
  - rewrite (set_signatures_length _ _ _ Hws). unfold resized. rewrite length_app, length_replicate. lia.
  - intros i w Hi Hlock. eapply set_signatures_keep; [exact Hws| |done]. by apply lookup_app_l_Some.
Qed.

(** *** Signing *)
Context `{!Wallet, !WalletLaws}.
Lemma hashed_witness_run ws i : (i < length ws)%nat → ∃ b, hashed_witness ws i = Ok b.
Proof. intros [w Hw]%lookup_lt_is_Some. unfold hashed_witness. rewrite Hw. by eexists. Qed.
Lemma sign_entry_run sk sealed e es s :
  seal es s sk = Ok sealed → e ∈ signature_entries sk →
  ∃ sig, sign_entry (sealed_transaction sealed) e = Ok sig
    ∧ length (zero_bytes_from_entry e) = length sig.
Proof.
  intros (ws & -> & _ & Hlen & _)%seal_transaction He. destruct (signature_entries_indexes _ _ He) as [Hne Hall].
  destruct (se_indexes e) as [|first rest] eqn:Hi; [done|].
  unfold sign_entry, entry_message. rewrite Hi. cbn [head unwrap mbind outcome_bind tail l1_witnesses l1_inputs transaction_of].
  destruct (collect_Forall2 (hashed_witness (enc_WitnessArgs <$> ws)) (first :: rest) (λ _ _, True)) as (g & -> & _).
  { intros i Hin. rewrite Forall_forall in Hall. specialize (Hall i Hin).
    destruct (hashed_witness_run (enc_WitnessArgs <$> ws) i) as [b Hb]; [rewrite length_fmap; lia|]. by exists b. }
  cbn [mbind outcome_bind]. rewrite !length_fmap.
  destruct (collect_Forall2 (hashed_witness (enc_WitnessArgs <$> ws))
    (seq (length (sk_inputs sk)) (length ws - length (sk_inputs sk))) (λ _ _, True)) as (o & -> & _).
  { intros i Hin%elem_of_seq. destruct (hashed_witness_run (enc_WitnessArgs <$> ws) i) as [b Hb]; [rewrite length_fmap; lia|]. by exists b. }
  cbn [mbind outcome_bind]. destruct (wallet_signs (blake2b (l1_hash (transaction_of sk ws) ++ concat g ++ concat o)))
    as (sig & Hsig & Hl). rewrite Hsig. cbn [mbind outcome_bind]. eexists. split; [reflexivity|].
  unfold zero_bytes_from_entry, zeros. rewrite length_replicate. unfold Signature_as_bytes.
  destruct (se_kind e); [apply omni_size|]; by rewrite Hl.
Qed.

(** A skeleton whose size is known can be signed, without changing its size. *)
Lemma sign_tx_skeleton_run sk size fee :
  tx_in_block_size sk = Ok size → calculate_fee sk = Ok fee → size ≤ fee →
  ∃ tx ws, sign_tx_skeleton sk = Ok tx ∧ tx_size tx = size ∧ tx = transaction_of sk ws
    ∧ ∀ i w, sk_witnesses sk !! i = Some w → is_Some (wa_lock w) → ws !! i = Some w.
Proof.
  unfold tx_in_block_size, sign_tx_skeleton. intros (sealed & Hseal & [= <-])%bind_Ok Hfee Hle.
  rewrite Hseal. cbn [mbind outcome_bind].
  destruct (collect_Forall2 (sign_entry (sealed_transaction sealed)) (signature_entries sk)
    (λ e sig, length (zero_bytes_from_entry e) = length sig)) as (sigs & -> & Hsigs).
  { intros e He. by eapply sign_entry_run. }
  cbn [mbind outcome_bind].
  destruct (seal_shape (signature_entries sk) (zero_bytes_from_entry <$> signature_entries sk) sigs sk sealed)
    as (sealed' & Hseal' & Hf & Hshape); [by apply Forall2_fmap_l|done|].
  rewrite Hseal'. cbn [mbind outcome_bind]. unfold check_fee_rate.
  destruct (seal_transaction _ _ _ _ Hseal') as (ws & Htx & Hfee' & _ & Hkeep).
  rewrite Hfee in Hfee'. injection Hfee' as Hfee'. rewrite <- (tx_size_shape _ _ Hshape), <- Hfee'.
  unfold reject_if. rewrite (proj2 (Z.ltb_ge _ _)) by done. cbn [mbind outcome_bind].
  exists (sealed_transaction sealed'), ws. split; [done|]. split; [by rewrite (tx_size_shape _ _ Hshape)|]. done.
Qed.
End Sizes.

(** ** Paying the fee *)
Lemma sum_capacities_snoc l o :
  sum_capacities (l ++ [o]) = (a ← sum_capacities l; add_w 64 a (co_capacity o)).
Proof.
  unfold sum_capacities. rewrite foldM_app. destruct (foldM _ 0 l) as [a| |]; [|done..]. cbn.
  by destruct (add_w 64 a (co_capacity o)).
Qed.
Lemma sum_capacities_bound l a : sum_capacities l = Ok a → a < 2 ^ 64.
Proof.
  destruct l as [|o l _] using rev_ind; [intros [= <-]; lia|]. rewrite sum_capacities_snoc.
  intros (b & _ & Hadd)%bind_Ok. apply unwrap_Ok, checked_add_Some in Hadd. lia.
Qed.

Lemma collect_least_elem req cells acc c :
  c ∈ (collect_least req cells acc).1 → c ∈ acc.1 ∨ c ∈ cells.
Proof.
  revert acc. induction cells as [|x cells IH]; intros acc; cbn [collect_least]; [by left|].
  case_match; [cbn; set_solver|]. intros [Hin|Hin]%IH; cbn in *; set_solver.
Qed.

Section Paying.
Context `{Blake2b, Molecule, HashCodec, TxCodecLaws, MapIter, IndexerLaws}.
Context (manager : LocalCellsManager) (lock_script : Script) (fee_rate : Z).
Local Abbreviation key := (mkSearchKey lock_script ScriptTypeLock None).

(** A skeleton that pays what its size requires *)
Definition pays_fee (sk : TransactionSkeleton) (size fee : Z) : Prop :=
  tx_in_block_size sk = Ok size ∧ fee = size * fee_rate / 1000 ∧ calculate_fee sk = Ok fee
  ∧ ∃ i o, sum_capacities ((λ i, cell_output i.2) <$> sk_inputs sk) = Ok i
    ∧ sum_capacities (sk_outputs sk).*1 = Ok o ∧ i = o + fee.

Lemma tx_in_block_size_pos sk size : tx_in_block_size sk = Ok size → 4 ≤ size.
Proof. unfold tx_in_block_size, tx_size. intros (s & _ & [= <-])%bind_Ok. lia. Qed.

Lemma paid_required_pos sk m t :
  1000 ≤ fee_rate → paid_and_required lock_script fee_rate sk = Ok (m, t) → 0 < t ∧ 0 ≤ m.
Proof.
  unfold paid_and_required, calculate_required_tx_fee. intros Hr Hrun. inv_ok. simplify_eq.
  match goal with He : estimate_tx_size_with_change _ _ = Ok _ |- _ => apply tx_in_block_size_pos in He end.
  match goal with Hm : checked_mul _ _ _ = Some _ |- _ => apply checked_mul_Some in Hm as [-> _] end.
  split; [|unfold saturating_sub; lia]. apply Z.div_str_pos. nia.
Qed.

Lemma change_pays sk m t c :
  1000 ≤ fee_rate → paid_and_required lock_script fee_rate sk = Ok (m, t) → t ≤ m →
  change_capacity_of m t = Ok c →
  CHANGE_CELL_CAPACITY ≤ c ∧ ∃ size, pays_fee (with_change lock_script c sk) size t.
Proof.
  intros Hr Hrun Hle Hc. destruct (paid_required_pos _ _ _ Hr Hrun) as [Ht Hm].
  unfold change_capacity_of in Hc. apply bind_Ok in Hc as (p & Hp & Hc).
  apply unwrap_Ok, checked_add_Some in Hp as [-> _]. apply unwrap_Ok, checked_sub_Some in Hc as [-> _].
  split; [lia|]. unfold paid_and_required, calculate_required_tx_fee, estimate_tx_size_with_change in Hrun. inv_ok. simplify_eq.
  rename x into size. exists size.
  match goal with Hm : checked_mul _ _ _ = Some _ |- _ => apply checked_mul_Some in Hm as [-> _] end.
  match goal with Hf : calculate_fee sk = Ok ?f |- _ => rename Hf into Hfee; set (F := f) in * end.
  assert (HF : F = saturating_sub F CHANGE_CELL_CAPACITY + CHANGE_CELL_CAPACITY) by (unfold saturating_sub in *; lia).
  set (m := saturating_sub F CHANGE_CELL_CAPACITY) in *. set (t := size * fee_rate / 1000) in *.
  unfold calculate_fee in Hfee. apply bind_Ok in Hfee as (i & Hi & (o & Ho & [= HFo])%bind_Ok).
  pose proof (sum_capacities_bound _ _ Hi). assert (HFd : F = i - o) by (unfold saturating_sub, CHANGE_CELL_CAPACITY in *; lia).
  assert (Hout : sum_capacities (sk_outputs (with_change lock_script (m + CHANGE_CELL_CAPACITY - t) sk)).*1 = Ok (i - t)).
  { cbn [with_change sk_with_outputs sk_outputs]. rewrite fmap_app. cbn [fmap list_fmap]. rewrite sum_capacities_snoc, Ho.
    cbn [mbind outcome_bind change_cell fst co_capacity]. apply unwrap_Ok, checked_add_Some. lia. }
  assert (Hfee : calculate_fee (with_change lock_script (m + CHANGE_CELL_CAPACITY - t) sk) = Ok t).
  { unfold calculate_fee. cbn [with_change sk_with_outputs sk_inputs] in *. rewrite Hi. cbn [mbind outcome_bind].
    rewrite Hout. cbn [mbind outcome_bind]. f_equal. unfold saturating_sub. lia. }
  split; [by eapply change_shape|]. split; [done|]. split; [done|].
  exists i, (i - t). split; [done|]. split; [done|]. lia.
Qed.

(** The pages of the search end after [n]. *)
Fixpoint pages_end (n : nat) (cursor : CollectCursor) : bool :=
  cursor_is_ended cursor ||
  match n with
  | O => false
  | S n => match collect_local_and_indexer_cells manager key cursor with
           | (Ok _, cursor) => pages_end n cursor
           | _ => true
           end
  end.
(** The cells that are offered have out points in [points]. *)
Definition offers (points : gset OutPoint) : Prop :=
  ∀ cursor cells cursor', collect_local_and_indexer_cells manager key cursor = (Ok cells, cursor') →
    Forall (λ c, cell_out_point c ∈ points) cells.

Lemma collect_matches cursor cells cursor' :
  collect_local_and_indexer_cells manager key cursor = (Ok cells, cursor') →
  Forall (λ c, satisfy_search key c = true) cells.
Proof.
  unfold collect_local_and_indexer_cells. destruct cursor as [|cur|]; [| |by intros [= <- <-]].
  - intros [= <- _]. unfold collect_local_cells. apply Forall_forall. by intros c [Hs _]%list_elem_of_filter.
  - destruct (get_cells key cur) as [[objects next]| |] eqn:Hg; intros [= <- _].
    apply indexer_matches in Hg. rewrite Forall_forall in Hg |- *. intros c [_ Hc]%list_elem_of_filter. by apply Hg.
Qed.
(** A plain cell of the wallet *)
Definition offered (c : CellInfo) : Prop :=
  ∃ cursor cells cursor', collect_local_and_indexer_cells manager key cursor = (Ok cells, cursor') ∧ c ∈ cells.
Definition plain_payment (c : CellInfo) : Prop :=
  offered c ∧ satisfy_search key c = true ∧ cell_data c = [] ∧ co_type (cell_output c) = None.
Definition payment (points taken : gset OutPoint) (c : CellInfo) : Prop :=
  plain_payment c ∧ (cell_out_point c ∉ taken) ∧ cell_out_point c ∈ points.
Lemma payment_loop_ok points n fuel req taken cursor acc :
  offers points → pages_end n cursor = true → (n < fuel)%nat → Forall (payment points taken) acc.1 →
  ∃ r, payment_loop manager lock_script fuel req taken cursor acc = Some r
    ∧ ∀ cells, r = Ok cells → Forall (payment points taken) cells.
Proof.
  intros Hoff. revert n cursor acc. induction fuel as [|fuel IH]; intros n cursor acc Hend Hn Hacc; [lia|].
  cbn [payment_loop]. destruct (acc.2 <? req); [|eexists; split; [done|by intros ? [= <-]]].
  destruct (cursor_is_ended cursor) eqn:He; [eexists; split; [done|by intros ? ?]|].
  destruct n as [|n]; cbn [pages_end] in Hend; rewrite He in Hend; [done|]. cbn [orb] in Hend.
  destruct (collect_local_and_indexer_cells manager key cursor) as [[cells|e|] cursor'] eqn:Hc;
    [|eexists; split; [done|by intros ? ?]..].
  apply (IH n); [done|lia|]. apply Forall_forall. intros c [Hin|Hin]%collect_least_elem.
  - rewrite Forall_forall in Hacc. by apply Hacc.
  - apply list_elem_of_filter in Hin as [Hp Hin]. specialize (Hoff _ _ _ Hc). rewrite Forall_forall in Hoff.
    pose proof (collect_matches _ _ _ Hc) as Hm. rewrite Forall_forall in Hm. unfold is_payment_cell in Hp. bool_inv.
    repeat split; try done; [by repeat eexists|by apply Hm|by apply Hoff].
Qed.

Definition with_payment (cells : list CellInfo) (sk : TransactionSkeleton) : TransactionSkeleton :=
  sk_with_inputs (sk_inputs sk ++ (default_input <$> cells)) sk.
Definition points_of (sk : TransactionSkeleton) : gset OutPoint :=
  list_to_set ((λ i, cell_out_point i.2) <$> sk_inputs sk).
Lemma with_payment_points points cells sk :
  cells ≠ [] → Forall (payment points (points_of sk)) cells →
  (size (points ∖ points_of (with_payment cells sk)) < size (points ∖ points_of sk))%nat.
Proof.
  intros Hne Hall. destruct cells as [|c cells]; [done|]. inversion Hall as [|? ? (_ & Hp & Hin) _]; subst.
  apply subset_size. split.
  - unfold points_of. cbn [with_payment sk_with_inputs sk_inputs]. rewrite fmap_app, list_to_set_app_L. set_solver.
  - intros Hsub. assert (Hc : cell_out_point c ∈ points ∖ points_of sk) by set_solver.
    apply Hsub in Hc. unfold points_of in Hc. cbn in Hc. rewrite fmap_app, list_to_set_app_L in Hc. set_solver.
Qed.

(** What the skeleton becomes *)
Definition filled (sk sk' : TransactionSkeleton) : Prop :=
  ∃ cells c size fee, sk' = with_change lock_script c (with_payment cells sk)
    ∧ Forall plain_payment cells
    ∧ CHANGE_CELL_CAPACITY ≤ c ∧ pays_fee sk' size fee.

Lemma fee_loop_ok points n fuel pages req c sk :
  1000 ≤ fee_rate → offers points → pages_end n CursorLocal = true → (n < pages)%nat →
  (size (points ∖ points_of sk) < fuel)%nat →
  (req = 0 → filled sk (with_change lock_script c sk)) → 0 ≤ req →
  ∃ r, fee_loop manager lock_script fuel pages fee_rate req c sk = Some r ∧ ∀ sk', r = Ok sk' → filled sk sk'.
Proof.
  intros Hr Hoff Hend Hn. revert req c sk. induction fuel as [|fuel IH]; intros req c sk Hsize Hdone Hreq; [lia|].
  cbn [fee_loop]. destruct (Z.ltb_spec 0 req) as [Hpos|]; [|eexists; split; [done|intros sk' [= <-]; apply Hdone; lia]].
  unfold taken_outpoints. destruct (bool_decide (NoDup _)); cbn [assert_that mbind outcome_bind];
    [|eexists; split; [done|by intros ? ?]]. fold (points_of sk).
  destruct (payment_loop_ok points n pages req (points_of sk) CursorLocal ([], 0)) as (r & Hpay & Hcells); [done..|].
  unfold collect_payment_cells. rewrite Hpay. destruct r as [cells| |]; [|eexists; split; [done|by intros ? ?]..].
  specialize (Hcells cells eq_refl).
  case_bool_decide as Hne; [eexists; split; [done|by intros ? ?]|]. fold (with_payment cells sk).
  destruct (paid_and_required lock_script fee_rate (with_payment cells sk)) as [[m t]| |] eqn:Hpr;
    [|eexists; split; [done|by intros ? ?]..].
  destruct (change_capacity_of m t) as [c'| |] eqn:Hc'; [|eexists; split; [done|by intros ? ?]..].
  destruct (IH (saturating_sub t m) c' (with_payment cells sk)) as (r & Hrun & Hfilled).
  - pose proof (with_payment_points points cells sk Hne Hcells). lia.
  - intros Hz. assert (t ≤ m) by (unfold saturating_sub in Hz; lia).
    destruct (change_pays _ _ _ _ Hr Hpr ltac:(done) Hc') as (Hcap & size & Hpays).
    exists [], c', size, t. split_and!; try done. unfold with_payment at 2. cbn. by rewrite app_nil_r.
  - unfold saturating_sub. lia.
  - exists r. split; [done|]. intros sk' Hsk. destruct (Hfilled sk' Hsk) as (more & c2 & size & fee & -> & Hmore & Hcap & Hpays).
    exists (cells ++ more), c2, size, fee. split_and!; try done.
    + unfold with_change, with_payment, sk_with_outputs, sk_with_inputs. cbn. by rewrite fmap_app, app_assoc.
    + apply Forall_app. split; [|done]. eapply Forall_impl; [exact Hcells|]. by intros cell [Hp _].
Qed.
End Paying.

(** C18. With a fee rate of at least 1000 (the default), paying the fee of a layer-1
    transaction ends when the wallet offers finitely many cells, and what comes out is
    right: plain cells of the wallet are added behind the inputs and one change cell
    behind the outputs, the signed transaction is the skeleton's, the witnesses that had
    a lock are kept, and the capacity it leaves as fee is exactly its own size, as
    signed, times the fee rate per thousand bytes.  (Below that rate a small
    transaction may be free and still gets a change cell, [free_tx_gets_change].) *)
Theorem filled_tx_pays_fee `{Blake2b, Molecule, HashCodec, TxCodecLaws, MapIter, IndexerLaws, WalletLaws}
    manager lock_script fee_rate points n fuel pages sk :
  1000 ≤ fee_rate → offers manager lock_script points → pages_end manager lock_script n CursorLocal = true →
  (n < pages)%nat → (size points < fuel)%nat →
  ∃ r, fill_tx_fee_with_local manager lock_script fuel pages fee_rate sk = Some r
    ∧ ∀ sk', r = Ok sk' →
        ∃ cells change tx ws i o,
          Forall (plain_payment manager lock_script) cells
          ∧ CHANGE_CELL_CAPACITY ≤ change
          ∧ sk' = with_change lock_script change (with_payment cells sk)
          ∧ sign_tx_skeleton sk' = Ok tx ∧ tx = transaction_of sk' ws
          ∧ (∀ j w, sk_witnesses sk !! j = Some w → is_Some (wa_lock w) → ws !! j = Some w)
          ∧ sum_capacities ((λ i, cell_output i.2) <$> sk_inputs sk') = Ok i
          ∧ sum_capacities (l1_outputs tx) = Ok o
          ∧ i = o + tx_size tx * fee_rate / 1000.
Proof.
  intros Hr Hoff Hend Hn Hfuel.
  enough (Hfill : ∃ r, fill_tx_fee_with_local manager lock_script fuel pages fee_rate sk = Some r
    ∧ ∀ sk', r = Ok sk' → filled manager lock_script fee_rate sk sk').
  { destruct Hfill as (r & Hrun & Hfilled). exists r. split; [done|]. intros sk' Hsk.
    destruct (Hfilled sk' Hsk) as (cells & c & size & fee & Hsk' & Hcells & Hcap & Hpays).
    destruct Hpays as (Hsize & Hfee & Hcalc & i & o & Hi & Ho & Hio).
    pose proof (tx_in_block_size_pos _ _ Hsize).
    destruct (sign_tx_skeleton_run sk' size fee Hsize Hcalc) as (tx & ws & Hsign & Hts & Htx & Hkeep).
    { subst fee. apply Z.div_le_lower_bound; nia. }
    exists cells, c, tx, ws, i, o. rewrite Hts, <- Hfee. split_and!; try done; [|by rewrite Htx].
    intros j w Hj. apply Hkeep. by rewrite Hsk'. }
  unfold fill_tx_fee_with_local.
  destruct (paid_and_required lock_script fee_rate sk) as [[m t]| |] eqn:Hpr; [|eexists; split; [done|by intros ? ?]..].
  destruct (Z.eqb_spec 0 (saturating_sub t m)) as [Hz|Hz].
  - eexists. split; [done|]. intros sk' (c & Hc & [= <-])%bind_Ok.
    destruct (change_pays _ _ _ _ _ _ Hr Hpr ltac:(unfold saturating_sub in Hz; lia) Hc) as (Hcap & size & Hpays).
    exists [], c, size, t. split_and!; try done. unfold with_payment. cbn. rewrite app_nil_r. by destruct sk.
  - destruct (add_w 64 (saturating_sub t m) CHANGE_CELL_CAPACITY) as [req| |] eqn:Hreq; [|eexists; split; [done|by intros ? ?]..].
    apply unwrap_Ok, checked_add_Some in Hreq as [-> _]. unfold CHANGE_CELL_CAPACITY.
    apply (fee_loop_ok _ _ _ points n); try done.
    + assert (size (points ∖ points_of sk) ≤ size points)%nat by (apply subseteq_size; set_solver). lia.
    + unfold saturating_sub in *. lia.
    + unfold saturating_sub in *. lia.
Qed.

(** A fee rate so low that no fee is due: the change cell is added all the same, whether
    or not there is capacity for it. *)
Lemma free_tx_gets_change `{Blake2b, Molecule, HashCodec, TxCodec, MapIter, Indexer} manager lock_script fuel pages sk size :
  estimate_tx_size_with_change lock_script sk = Ok size → calculate_fee sk = Ok 0 →
  fill_tx_fee_with_local manager lock_script fuel pages 0 sk
  = Some (Ok (with_change lock_script CHANGE_CELL_CAPACITY sk)).
Proof.
  intros Hsize Hfee. unfold fill_tx_fee_with_local, paid_and_required, calculate_required_tx_fee.
  rewrite Hsize. cbn [mbind outcome_bind].
  assert (Hmul : checked_mul 64 size 0 = Some 0) by (apply checked_mul_Some; lia).
  rewrite Hmul. cbn [unwrap mbind outcome_bind]. rewrite Hfee. reflexivity.
Qed.

(** ** What signing and paying keep *)
Section Shape.
Context `{Blake2b, Molecule, HashCodec, TxCodec, MapIter, IndexerLaws}.

Lemma payment_loop_matches manager lock_script fuel req taken cursor acc cells :
  payment_loop manager lock_script fuel req taken cursor acc = Some (Ok cells) →
  Forall (plain_payment manager lock_script) acc.1 → Forall (plain_payment manager lock_script) cells.
Proof.
  revert cursor acc. induction fuel as [|fuel IH]; intros cursor acc; [done|]. cbn [payment_loop].
  destruct (acc.2 <? req); [|by intros [= <-]]. destruct (cursor_is_ended cursor); [done|].
  destruct (collect_local_and_indexer_cells _ _ _) as [[page|e|] cursor'] eqn:Hc; [|done..].
  intros Hrun Hacc. apply (IH _ _ Hrun). apply Forall_forall. intros c [Hin|Hin]%collect_least_elem.
  - rewrite Forall_forall in Hacc. by apply Hacc.
  - apply list_elem_of_filter in Hin as [Hp Hin]. pose proof (collect_matches _ _ _ _ _ Hc) as Hm. rewrite Forall_forall in Hm.
    unfold is_payment_cell in Hp. bool_inv. repeat split; try done; [by repeat eexists|by apply Hm].
Qed.

Lemma fee_loop_shape manager lock_script fuel pages rate req c sk sk' :
  fee_loop manager lock_script fuel pages rate req c sk = Some (Ok sk') →
  ∃ cells c', sk' = with_change lock_script c' (with_payment cells sk) ∧ Forall (plain_payment manager lock_script) cells.
Proof.
  revert req c sk. induction fuel as [|fuel IH]; intros req c sk; [done|]. cbn [fee_loop].
  destruct (0 <? req); [|intros [= <-]; exists [], c; split; [unfold with_payment; cbn; rewrite app_nil_r; by destruct sk|done]].
  destruct (taken_outpoints sk) as [taken| |]; [|done..].
  destruct (collect_payment_cells _ _ _ _ _) as [[cells| |]|] eqn:Hpay; [|done..].
  case_bool_decide; [done|]. destruct (paid_and_required _ _ _) as [[m t]| |]; [|done..].
  destruct (change_capacity_of m t) as [c'| |]; [|done..].
  intros (more & c2 & -> & Hmore)%IH. apply payment_loop_matches in Hpay; [|constructor].
  exists (cells ++ more), c2. split; [|by apply Forall_app].
  unfold with_change, with_payment, sk_with_outputs, sk_with_inputs. cbn. by rewrite fmap_app, app_assoc.
Qed.
Lemma fill_tx_fee_shape manager lock_script fuel pages rate sk sk' :
  fill_tx_fee_with_local manager lock_script fuel pages rate sk = Some (Ok sk') →
  ∃ cells c, sk' = with_change lock_script c (with_payment cells sk) ∧ Forall (plain_payment manager lock_script) cells.
Proof.
  unfold fill_tx_fee_with_local. destruct (paid_and_required _ _ _) as [[m t]| |]; [|done..].
  destruct (0 =? saturating_sub t m).
  - intros [= (c & _ & [= <-])%bind_Ok]. exists [], c. split; [unfold with_payment; cbn; rewrite app_nil_r; by destruct sk|done].
  - destruct (add_w 64 _ _); [apply fee_loop_shape|done..].
Qed.

Lemma sign_tx_skeleton_shape `{!Wallet} sk tx :
  sign_tx_skeleton sk = Ok tx →
  ∃ ws, tx = transaction_of sk ws
    ∧ ∀ i w, sk_witnesses sk !! i = Some w → is_Some (wa_lock w) → ws !! i = Some w.
Proof.
  unfold sign_tx_skeleton.
  intros (dummy & _ & (sigs & _ & (sealed & Hs & (? & _ & [= <-])%bind_Ok)%bind_Ok)%bind_Ok)%bind_Ok.
  destruct (seal_transaction _ _ _ _ Hs) as (ws & Htx & _ & _ & Hkeep). by exists ws.
Qed.
End Shape.
