(* ===== verification/Unlock.v ===== *)
(** * Paying out finalized withdrawals (crates/block-producer/src/withdrawal.rs,
      withdrawal_unlocker.rs; crates/rpc-client/src/withdrawal.rs, rpc_client.rs)

    A withdrawal cell belongs to the user it names once its block is final, but it
    needs a transaction that moves it.  The node looks for such cells
    ([query_finalized_owner_lock_withdrawal_cells]), builds the transaction that
    gives them to their owners ([unlock_to_owner]), pays its fee and sends it,
    remembering what is on its way ([handle_event]).

    [unlock_tx_accepted]: the withdrawal lock accepts every such transaction.
    [unlocker_tracks_cells]: a cell is in at most one transaction on its way, and is
    tried again when that transaction is gone. *)
From Stdlib Require Import ZArith Lia Strings.Byte.
From stdpp Require Import prelude list gmap relations.
From S2P Require Import Prelude Bytes Types State StateSpec StateDB History Finality Ckb Eip712 SubmitBlock RollupScript Locks ChallengeLock.
From S2P Require Import NodeUtils NodeState AccountLocks Backends Syscalls Generator FeeQueue Verifiers Store LocalCells ChallengeContext Chain ChainUpdater SyncL1 WithdrawalCells SubmitCells TxSkeleton.
Local Open Scope Z_scope.

Class UnlockCodec := enc_UnlockWithdrawalWitness : UnlockWithdrawalWitness → bytes.

(** The contracts the transactions of this file refer to *)
Record ContractsCellDep := mkContractsCellDep {
  dep_rollup_config : CellDep; dep_custodian_cell_lock : CellDep; dep_withdrawal_cell_lock : CellDep;
  dep_l1_sudt_type : CellDep;
}.
Definition DepType_Code : Z := 0.

(** ** rpc-client/src/withdrawal.rs *)
Section Unlock.
Context `{Blake2b, Molecule}.
Local Abbreviation M := (outcome unit).

Definition verify_l1_sudt_script (info : CellInfo) (l1_sudt_script_hash : H256) : M unit :=
  match co_type (cell_output info) with
  | Some sudt_type =>
      reject_if (length (cell_data info) <? 16)%nat tt ;;
      reject_if (negb (bool_decide (code_hash sudt_type = l1_sudt_script_hash))
                 || negb (hash_type sudt_type =? ScriptHashType_to_u8 HashType)) tt
  | None => Ok tt
  end.
Definition verify_finalized_owner_lock (info : CellInfo) (tp : CompatibleFinalizedTimepoint) : M unit :=
  let lock_args := args (co_lock (cell_output info)) in
  let lock_args_end := (32 + WithdrawalLockArgs_TOTAL_SIZE)%nat in
  let owner_lock_start := (lock_args_end + 4)%nat in
  reject_if (length lock_args <=? owner_lock_start)%nat tt ;;
  raw ← slice 32 lock_args_end lock_args;
  a ← ok_or tt (dec_WithdrawalLockArgs raw);
  reject_if (negb (compatible_is_finalized tp
                     (Timepoint_from_full_value (wl_withdrawal_finalized_timepoint a)))) tt ;;
  buf ← slice lock_args_end owner_lock_start lock_args;
  let owner_lock_len := Z.to_nat (be_val buf) in
  reject_if (negb (owner_lock_start + owner_lock_len =? length lock_args)%nat) tt ;;
  raw ← slice owner_lock_start (length lock_args) lock_args;
  owner_lock ← ok_or tt (dec_Script raw);
  reject_if (negb (bool_decide (script_hash owner_lock = wl_owner_lock_hash a))) tt.
Definition verify_unlockable_to_owner (info : CellInfo) (tp : CompatibleFinalizedTimepoint)
    (l1_sudt_script_hash : H256) : M unit :=
  verify_l1_sudt_script info l1_sudt_script_hash ;;
  verify_finalized_owner_lock info tp.

(** ** rpc_client.rs *)
Section Query.
Context `{Indexer}.
Context (rollup_config : RollupConfig) (rollup_type_hash : H256).
Context (tp : CompatibleFinalizedTimepoint) (exclusions : gset OutPoint) (max_cells : nat).
Definition unlockable (info : CellInfo) : bool :=
  negb (bool_decide (cell_out_point info ∈ exclusions))
  && is_ok (verify_unlockable_to_owner info tp (l1_sudt_script_type_hash rollup_config)).
(** [collected] is empty before a page. *)
Fixpoint collect_unlockable (cells : list CellInfo) (collected : list CellInfo) : list CellInfo :=
  match cells with
  | [] => collected
  | info :: cells =>
      if unlockable info then
        let collected := collected ++ [info] in
        if (max_cells <=? length collected)%nat then collected else collect_unlockable cells collected
      else collect_unlockable cells collected
  end.
Definition withdrawal_search_key : SearchKey :=
  mkSearchKey (mkScript (withdrawal_script_type_hash rollup_config) (ScriptHashType_to_u8 HashType) rollup_type_hash)
    ScriptTypeLock None.
(** [while collected.is_empty()]; [fuel] bounds the pages *)
Fixpoint query_finalized_owner_lock_withdrawal_cells (fuel : nat) (cursor : option bytes) :
    option (M (list CellInfo)) :=
  match fuel with
  | O => None
  | S fuel =>
      match get_cells withdrawal_search_key cursor with
      | Ok (cells, last_cursor) =>
          let collected := collect_unlockable cells [] in
          if bool_decide (last_cursor = []) then Some (Ok collected)
          else if bool_decide (collected = [])
          then query_finalized_owner_lock_withdrawal_cells fuel (Some last_cursor)
          else Some (Ok collected)
      | Err e => Some (Err e)
      | Panic => Some Panic
      end
  end.
End Query.

(** ** utils.rs, withdrawal.rs *)
Definition global_state_last_finalized_timepoint_to_since (gs : GlobalState) : Z :=
  match Timepoint_from_full_value (last_finalized_timepoint gs) with
  | BlockNumber _ => 0
  | Timestamp time_ms => since_new_timestamp_seconds (time_ms / 1000 + 1)
  end.
Definition is_legacy_finality_withdrawal_cell (cell : CellInfo) : M bool :=
  match parse_lock_args (args (co_lock (cell_output cell))) with
  | Ok parsed =>
      Ok (match Timepoint_from_full_value (wl_withdrawal_finalized_timepoint (pw_lock_args parsed)) with
          | BlockNumber _ => true
          | Timestamp _ => false
          end)
  | Err _ | Panic => Panic
  end.

Record UnlockedWithdrawals := mkUnlockedWithdrawals {
  ul_deps : list CellDep; ul_inputs : list (CellInput * CellInfo);
  ul_witness_args : list WitnessArgs; ul_outputs : list (CellOutput * bytes);
}.
Context `{UnlockCodec}.
Definition unlock_via_finalize_witness : WitnessArgs :=
  mkWitnessArgs (Some (enc_UnlockWithdrawalWitness UnlockWithdrawalViaFinalize)) None None.
Definition relocked (lock : Script) (cell : CellInfo) : CellOutput * bytes :=
  (mkCellOutput (co_capacity (cell_output cell)) lock (co_type (cell_output cell)), cell_data cell).

(** The body of the loop; the accumulator holds the inputs, the outputs and whether a
    legacy cell was met. *)
Definition unlock_cell (tp : CompatibleFinalizedTimepoint) (l1_sudt_script_hash : H256) (since : Z)
    (acc : list (CellInput * CellInfo) * list (CellOutput * bytes) * bool) (cell : CellInfo) :
    M (list (CellInput * CellInfo) * list (CellOutput * bytes) * bool) :=
  let '(inputs, outputs, legacy) := acc in
  match verify_unlockable_to_owner cell tp l1_sudt_script_hash with
  | Err _ => Ok acc
  | Panic => Panic
  | Ok _ =>
      legacy ← (if negb legacy then is_legacy_finality_withdrawal_cell cell else Ok legacy);
      match parse_lock_args (args (co_lock (cell_output cell))) with
      | Err _ => Ok (inputs, outputs, legacy)
      | Panic => Panic
      | Ok parsed =>
          Ok (inputs ++ [(mkCellInput since (cell_out_point cell), cell)],
              outputs ++ [relocked (pw_owner_lock parsed) cell], legacy)
      end
  end.
Definition unlock_to_owner (rollup_cell : CellInfo) (rollup_config : RollupConfig)
    (contracts_dep : ContractsCellDep) (withdrawal_cells : list CellInfo) (global_state_since : Z) :
    M (option UnlockedWithdrawals) :=
  if bool_decide (withdrawal_cells = []) then Ok None else
  global_state ← ok_or tt (decode_global_state (cell_data rollup_cell));
  let tp := compatible_from_global_state global_state (finality_blocks rollup_config) in
  '(inputs, outputs, legacy) ←
    foldM (unlock_cell tp (l1_sudt_script_type_hash rollup_config) global_state_since) ([], [], false)
      withdrawal_cells;
  if bool_decide (inputs = []) then Ok None else
  let deps := if (legacy : bool)
              then [mkCellDep (cell_out_point rollup_cell) DepType_Code; dep_rollup_config contracts_dep;
                    dep_withdrawal_cell_lock contracts_dep]
              else [dep_withdrawal_cell_lock contracts_dep] in
  Ok (Some (mkUnlockedWithdrawals
    (deps ++ if existsb (λ o, bool_decide (is_Some (co_type o.1))) outputs
             then [dep_l1_sudt_type contracts_dep] else [])
    inputs (replicate (length inputs) unlock_via_finalize_witness) outputs)).

(** ** withdrawal_unlocker.rs *)
Context `{HashCodec, TxCodec, MapIter, Indexer, Wallet}.
Context (rollup_config : RollupConfig) (rollup_type_hash : H256) (contracts_dep : ContractsCellDep).
Context (sighash_dep : CellDep) (owner_lock : Script) (fee_rate : Z).
Definition MAX_WITHDRAWALS_PER_TX : nat := 100.

Definition opt_bind {A B} (m : option (M A)) (f : A → option (M B)) : option (M B) :=
  match m with
  | Some (Ok a) => f a
  | Some (Err e) => Some (Err e)
  | Some Panic => Some Panic
  | None => None
  end.
(** [complete_tx] of [DefaultUnlocker] *)
Definition complete_tx (fuel pages : nat) (sk : TransactionSkeleton) : option (M L1Transaction) :=
  let sk := mkSkeleton (sk_inputs sk) (sk_cell_deps sk ++ [sighash_dep]) (sk_witnesses sk) (sk_outputs sk)
              (sk_omni_lock_code_hash sk) in
  opt_bind (fill_tx_fee_with_local no_local_cells owner_lock fuel pages fee_rate sk) (λ sk,
    Some (sign_tx_skeleton sk)).
Definition unlock_skeleton (u : UnlockedWithdrawals) : TransactionSkeleton :=
  mkSkeleton (ul_inputs u) (ul_deps u) (ul_witness_args u) (ul_outputs u) None.
Definition query_and_unlock_to_owner (fuel pages : nat) (rollup_cell : option CellInfo)
    (unlocked : gset OutPoint) : option (M (option (L1Transaction * list OutPoint))) :=
  match rollup_cell with
  | None => Some (Ok None)
  | Some rollup_cell =>
      match decode_global_state (cell_data rollup_cell) with
      | None => Some (Err tt)
      | Some global_state =>
          let tp := compatible_from_global_state global_state (finality_blocks rollup_config) in
          opt_bind (query_finalized_owner_lock_withdrawal_cells rollup_config rollup_type_hash tp unlocked
                      MAX_WITHDRAWALS_PER_TX pages None) (λ unlockable_withdrawals,
          let since := global_state_last_finalized_timepoint_to_since global_state in
          opt_bind (Some (unlock_to_owner rollup_cell rollup_config contracts_dep unlockable_withdrawals since))
            (λ to_unlock,
              match to_unlock with
              | None => Some (Ok None)
              | Some to_unlock =>
                  opt_bind (complete_tx fuel pages (unlock_skeleton to_unlock)) (λ tx,
                    Some (Ok (Some (tx, (λ i, cell_out_point i.2) <$> ul_inputs to_unlock))))
              end))
      end
  end.

(** What is on its way *)
Record Unlocker := mkUnlocker { uk_unlocked_set : gset OutPoint; uk_unlock_txs : gmap H256 (list OutPoint) }.
(** What layer 1 says: the result of the dry run ([Err true]: failed to resolve), of
    sending, and of asking for the status of a transaction *)
Record Layer1 := mkLayer1 {
  l1_dry_run : L1Transaction → outcome bool unit;
  l1_send : L1Transaction → outcome unit H256;
  l1_status : H256 → outcome unit (option TxStatus);
}.
Definition keep_waiting (r : outcome unit (option TxStatus)) : bool :=
  match r with
  | Ok (Some Pending) | Ok (Some Proposed) => true
  | _ => false
  end.
(** [drop_txs] *)
Definition dropped_txs (l1 : Layer1) (txs : gmap H256 (list OutPoint)) : list H256 :=
  filter (λ h, keep_waiting (l1_status l1 h) = false) (map_iter txs).*1.
Definition drop_tx (u : Unlocker) (tx_hash : H256) : Unlocker :=
  match uk_unlock_txs u !! tx_hash with
  | Some out_points => mkUnlocker (uk_unlocked_set u ∖ list_to_set out_points) (delete tx_hash (uk_unlock_txs u))
  | None => u
  end.
Definition check_unlock_txs (l1 : Layer1) (u : Unlocker) : Unlocker :=
  foldl drop_tx u (dropped_txs l1 (uk_unlock_txs u)).
Definition add_unlock_tx (tx_hash : H256) (to_unlock : list OutPoint) (u : Unlocker) : Unlocker :=
  mkUnlocker (uk_unlocked_set u ∪ list_to_set to_unlock) (<[tx_hash := to_unlock]> (uk_unlock_txs u)).
Definition handle_event (fuel pages : nat) (rollup_cell : option CellInfo) (l1 : Layer1) (u : Unlocker) :
    option (M unit * Unlocker) :=
  match query_and_unlock_to_owner fuel pages rollup_cell (uk_unlocked_set u) with
  | None => None
  | Some (Ok None) => Some (Ok tt, check_unlock_txs l1 u)
  | Some (Ok (Some (tx, to_unlock))) =>
      match l1_dry_run l1 tx with
      | Ok _ =>
          match l1_send l1 tx with
          | Ok tx_hash => Some (Ok tt, check_unlock_txs l1 (add_unlock_tx tx_hash to_unlock u))
          | Err e => Some (Err e, u)
          | Panic => Some (Panic, u)
          end
      | Err true => Some (Ok tt, u)
      | Err false => Some (Err tt, u)
      | Panic => Some (Panic, u)
      end
  | Some (Err e) => Some (Err e, u)
  | Some Panic => Some (Panic, u)
  end.
End Unlock.

(** ** Since values *)
Lemma land_low_high s k : 0 ≤ s < 2 ^ 56 → Z.land s (Z.shiftl k 56) = 0.
Proof.
  intros Hs. apply Z.bits_inj'. intros n Hn. rewrite Z.land_spec, Z.bits_0.
  destruct (Z.ltb_spec n 56) as [Hlt|Hge].
  - rewrite Z.shiftl_spec_low by lia. apply andb_false_r.
  - rewrite <- (Z.mod_small s (2 ^ 56)) by lia. by rewrite Z.mod_pow2_bits_high by lia.
Qed.
Lemma since_timestamp_reads {E} s :
  0 ≤ s → s * 1000 < 2 ^ 64 →
  since_is_absolute (since_new_timestamp_seconds s) = true
  ∧ since_extract_lock_value (E:=E) (since_new_timestamp_seconds s) = Ok (Some (LockTimestamp (s * 1000))).
Proof.
  intros Hs Hb. assert (Hlow : 0 ≤ s < 2 ^ 56) by lia.
  unfold since_is_absolute, since_extract_lock_value, since_new_timestamp_seconds. rewrite !Z.land_lor_distr_l.
  change SINCE_LOCK_TYPE_FLAG with (Z.shiftl 128 56). change SINCE_METRIC_TYPE_FLAG_MASK with (Z.shiftl 96 56).
  rewrite (land_low_high s 128), (land_low_high s 96) by done. change SINCE_VALUE_MASK with (Z.ones 56). rewrite Z.land_ones, Z.mod_small by lia.
  split; [reflexivity|]. change (Z.land SINCE_LOCK_BY_TIMESTAMP_MASK (Z.ones 56)) with 0. rewrite Z.lor_0_r.
  change (Z.lor 0 _) with SINCE_LOCK_BY_TIMESTAMP_MASK. cbn [Z.eqb].
  assert (Hm : checked_mul 64 s 1000 = Some (s * 1000)) by (by apply checked_mul_Some). rewrite Hm. reflexivity.
Qed.

(** ** The cells that pass *)
Section Verified.
Context `{Blake2b, Molecule}.

(** What the node checks is what the lock script parses. *)
Lemma verified_parses info tp u :
  verify_finalized_owner_lock info tp = Ok u →
  ∃ a owner,
    parse_lock_args (args (co_lock (cell_output info)))
    = Ok (mkParsedWithdrawalLockArgs (take 32 (args (co_lock (cell_output info)))) a owner)
    ∧ parse_withdrawal_lock_args (args (co_lock (cell_output info))) = Ok (a, owner)
    ∧ compatible_is_finalized tp (Timepoint_from_full_value (wl_withdrawal_finalized_timepoint a)) = true
    ∧ (32 ≤ length (args (co_lock (cell_output info))))%nat.
Proof.
  unfold verify_finalized_owner_lock, WithdrawalLockArgs_TOTAL_SIZE.
  change (32 + 104)%nat with 136%nat. change (136 + 4)%nat with 140%nat. set (bs := args _).
  intros Hrun. apply bind_Ok in Hrun as ([] & Hlen & Hrun). apply reject_if_Ok, Nat.leb_gt in Hlen.
  rewrite !slice_within in Hrun by lia. cbn [mbind outcome_bind] in Hrun.
  destruct (dec_WithdrawalLockArgs (sub_bytes 32 (136 - 32) bs)) as [a|] eqn:Ha; [|done]. cbn [ok_or mbind outcome_bind] in Hrun.
  apply bind_Ok in Hrun as ([] & Hfin & Hrun). apply reject_if_Ok, negb_false_iff in Hfin.
  cbn [mbind outcome_bind] in Hrun.
  apply bind_Ok in Hrun as ([] & Hl & Hrun). apply reject_if_Ok, negb_false_iff, Nat.eqb_eq in Hl.
  cbn [mbind outcome_bind] in Hrun.
  destruct (dec_Script (sub_bytes 140 (length bs - 140) bs)) as [owner|] eqn:Ho; [|done]. cbn [ok_or mbind outcome_bind] in Hrun.
  apply reject_if_Ok, negb_false_iff, bool_decide_eq_true in Hrun.
  exists a, owner. unfold parse_lock_args, parse_withdrawal_lock_args, WithdrawalLockArgs_TOTAL_SIZE. cbv zeta.
  change (32 + 104)%nat with 136%nat. change (136 + 4)%nat with 140%nat.
  rewrite !(proj2 (Nat.ltb_ge _ _)), !(proj2 (Nat.leb_gt _ _)) by lia.
  rewrite !slice_within by lia. cbn [mbind outcome_bind]. rewrite Ha. cbn [ok_or mbind outcome_bind].
  rewrite Hl, Nat.eqb_refl. cbn [negb]. rewrite !slice_within by lia. cbn [mbind outcome_bind]. rewrite Ho.
  cbn [ok_or mbind outcome_bind]. rewrite bool_decide_true by done. cbn [negb].
  split_and!; try done; lia.
Qed.
Lemma verify_no_panic info tp h : verify_unlockable_to_owner info tp h ≠ Panic.
Proof.
  unfold verify_unlockable_to_owner, verify_l1_sudt_script. intros Hp.
  assert (Hv : verify_finalized_owner_lock info tp = Panic).
  { destruct (co_type (cell_output info)); [|done]. cbn in Hp. unfold reject_if in Hp. by repeat case_match. }
  revert Hv. unfold verify_finalized_owner_lock, WithdrawalLockArgs_TOTAL_SIZE.
  change (32 + 104)%nat with 136%nat. change (136 + 4)%nat with 140%nat. set (bs := args _).
  destruct (length bs <=? 140)%nat eqn:Hl; cbn [reject_if mbind outcome_bind]; [done|]. apply Nat.leb_gt in Hl.
  rewrite !slice_within by lia. cbn [mbind outcome_bind].
  destruct (dec_WithdrawalLockArgs _); [|done]. cbn [ok_or mbind outcome_bind]. unfold reject_if.
  destruct (negb (compatible_is_finalized _ _)); [done|]. cbn [mbind outcome_bind].
  destruct (negb (_ =? _)%nat); [done|]. cbn [mbind outcome_bind]. destruct (dec_Script _); [|done].
  cbn [ok_or mbind outcome_bind]. by destruct (negb _).
Qed.

Definition owner_of (cell : CellInfo) : Script :=
  match parse_lock_args (args (co_lock (cell_output cell))) with Ok p => pw_owner_lock p | _ => Script_default end.
Definition timepoint_of (cell : CellInfo) : Timepoint :=
  match parse_lock_args (args (co_lock (cell_output cell))) with
  | Ok p => Timepoint_from_full_value (wl_withdrawal_finalized_timepoint (pw_lock_args p))
  | _ => BlockNumber 0
  end.
Definition is_legacy (cell : CellInfo) : bool :=
  match timepoint_of cell with BlockNumber _ => true | Timestamp _ => false end.

Lemma unlock_cells_run tp h since cells inputs outputs legacy :
  Forall (λ c, verify_unlockable_to_owner c tp h = Ok tt) cells →
  foldM (unlock_cell tp h since) (inputs, outputs, legacy) cells
  = Ok (inputs ++ ((λ c, (mkCellInput since (cell_out_point c), c)) <$> cells),
        outputs ++ ((λ c, relocked (owner_of c) c) <$> cells), legacy || existsb is_legacy cells).
Proof.
  intros Hall. revert inputs outputs legacy. induction Hall as [|c cells Hc _ IH]; intros inputs outputs legacy.
  { cbn. by rewrite !app_nil_r, orb_false_r. }
  pose proof Hc as Hv. unfold verify_unlockable_to_owner in Hv. apply bind_Ok in Hv as (? & _ & Hv).
  destruct (verified_parses _ _ _ Hv) as (a & owner & Hparse & _).
  assert (Hstep : unlock_cell tp h since (inputs, outputs, legacy) c
    = Ok (inputs ++ [(mkCellInput since (cell_out_point c), c)], outputs ++ [relocked (owner_of c) c],
          legacy || is_legacy c)).
  { unfold unlock_cell, is_legacy_finality_withdrawal_cell, owner_of, is_legacy, timepoint_of. rewrite Hc, Hparse.
    by destruct legacy. }
  cbn [foldM]. rewrite Hstep. cbn [mbind outcome_bind]. rewrite IH. cbn [fmap list_fmap existsb].
  by rewrite <- !app_assoc, orb_assoc.
Qed.
End Verified.

(** ** Searching *)
(** Layer 1 has the cells the indexer reports. *)
Definition indexer_live `{Indexer} (live : OutPoint → option CellInfo) : Prop :=
  ∀ key cursor cells next, get_cells key cursor = Ok (cells, next) →
    Forall (λ c, live (cell_out_point c) = Some c) cells.
Section Searching.
Context `{Blake2b, Molecule, IndexerLaws}.
Context (cfg : RollupConfig) (rollup_type_hash : H256) (tp : CompatibleFinalizedTimepoint) (unlocked : gset OutPoint) (max_cells : nat).

Definition found_by (key : SearchKey) (c : CellInfo) : Prop :=
  satisfy_search key c = true ∧ ∃ cursor cells next, get_cells key cursor = Ok (cells, next) ∧ c ∈ cells.
Definition unlockable_cell (c : CellInfo) : Prop :=
  verify_unlockable_to_owner c tp (l1_sudt_script_type_hash cfg) = Ok tt ∧ (cell_out_point c ∉ unlocked)
  ∧ found_by (withdrawal_search_key cfg rollup_type_hash) c.
Lemma collect_unlockable_ok cells collected :
  Forall (found_by (withdrawal_search_key cfg rollup_type_hash)) cells →
  Forall unlockable_cell collected → (length collected < max_cells)%nat →
  Forall unlockable_cell (collect_unlockable cfg tp unlocked max_cells cells collected)
  ∧ (length (collect_unlockable cfg tp unlocked max_cells cells collected) ≤ max_cells)%nat.
Proof.
  intros Hcells. revert collected. induction Hcells as [|c cells Hc _ IH]; intros collected Hcol Hlen;
    cbn [collect_unlockable]; [split; [done|lia]|].
  destruct (unlockable cfg tp unlocked c) eqn:Hu; [|by apply IH].
  assert (Hnew : Forall unlockable_cell (collected ++ [c])).
  { apply Forall_app. split; [done|]. constructor; [|constructor]. split; [|split; [|done]].
    - unfold unlockable in Hu. apply andb_true_iff in Hu as [_ Hok]. unfold is_ok in Hok.
      by destruct (verify_unlockable_to_owner c tp _) as [[]| |].
    - unfold unlockable in Hu. bool_inv. done. }
  rewrite length_app. cbn [length]. destruct (Nat.leb_spec max_cells (length collected + 1)).
  - split; [done|]. rewrite length_app. cbn. lia.
  - apply IH; [done|]. rewrite length_app. cbn. lia.
Qed.
Lemma query_unlockable_ok fuel cursor cells :
  (0 < max_cells)%nat →
  query_finalized_owner_lock_withdrawal_cells cfg rollup_type_hash tp unlocked max_cells fuel cursor = Some (Ok cells) →
  Forall unlockable_cell cells ∧ (length cells ≤ max_cells)%nat.
Proof.
  intros Hmax. revert cursor. induction fuel as [|fuel IH]; intros cursor; [done|].
  cbn [query_finalized_owner_lock_withdrawal_cells].
  destruct (get_cells _ cursor) as [[page next]| |] eqn:Hg; [|done..].
  assert (Hpage : Forall (found_by (withdrawal_search_key cfg rollup_type_hash)) page).
  { pose proof (indexer_matches _ _ _ _ Hg) as Hm. rewrite Forall_forall in Hm |- *. intros c Hc.
    split; [by apply Hm|by repeat eexists]. }
  destruct (collect_unlockable_ok page [] Hpage) as [Hall Hlen]; [constructor|done|].
  case_bool_decide; [by intros [= <-]|]. case_bool_decide; [apply IH|by intros [= <-]].
Qed.
End Searching.

(** ** The lock script on the transaction *)
Section Loops.
Context {env : CkbEnv} {E A : Type}.
Lemma query_until_none (load : nat → Source → outcome SysError A) src (f : nat → A → outcome E bool) n i :
  (∀ j, (i ≤ j < i + n)%nat → ∃ a, load j src = Ok a ∧ f j a = Ok false) →
  query_from load src id (λ _, f) n i false = Ok false.
Proof.
  revert i. induction n as [|n IH]; intros i Hall; [done|]. cbn [query_from].
  destruct (Hall i ltac:(lia)) as (a & Ha & Hf). change (id false) with false. cbv iota. rewrite Ha, Hf.
  cbn [mbind outcome_bind]. apply IH. intros j Hj. apply Hall. lia.
Qed.
Lemma query_position_hit (load : nat → Source → outcome SysError A) src p i a :
  (i < cell_count src)%nat → load i src = Ok a → p a = true →
  (∀ j, (j < i)%nat → ∃ b, load j src = Ok b ∧ p b = false) →
  query_position (E:=E) load src p = Ok (Some i).
Proof.
  intros Hi Ha Hp Hbefore. unfold query_position, query_until.
  enough (Hgen : ∀ n k, (k ≤ i)%nat → (i < k + n)%nat →
    query_from load src (λ acc : option nat, bool_decide (is_Some acc))
      (λ _ i a, Ok (E:=E) (if p a then Some i else None)) n k None = Ok (Some i)) by (apply Hgen; lia).
  induction n as [|n IH]; intros k Hk Hn; [lia|]. cbn [query_from]. rewrite bool_decide_false by (by intros [? ?]).
  destruct (decide (k = i)) as [->|Hne].
  - rewrite Ha. cbn [mbind outcome_bind]. rewrite Hp. destruct n; [done|]. cbn [query_from].
    by rewrite bool_decide_true by done.
  - destruct (Hbefore k ltac:(lia)) as (b & Hb & Hpb). rewrite Hb. cbn [mbind outcome_bind]. rewrite Hpb. apply IH; lia.
Qed.
End Loops.

(** How a lock script sees a transaction: [inputs] are the cells it spends, [deps] its
    dependencies, and [i] is the first input with the lock. *)
Record shows `{Blake2b, Molecule, TxCodec} (resolve : CellDep → CellOutput * bytes) (env : CkbEnv)
    (tx : L1Transaction) (inputs : list CellInfo) (deps : list CellDep) (i : nat) : Prop := {
  sh_inputs : sees env SrcInput (cell_value <$> inputs);
  sh_outputs : sees env SrcOutput (zip (l1_outputs tx) (l1_outputs_data tx));
  sh_deps : sees env SrcCellDep (resolve <$> deps);
  sh_input_lock j c : inputs !! j = Some c → load_cell_lock_hash j SrcInput = Ok (script_hash (co_lock (cell_output c)));
  sh_output_lock j o : l1_outputs tx !! j = Some o → load_cell_lock_hash j SrcOutput = Ok (script_hash (co_lock o));
  sh_dep_hash j d : deps !! j = Some d → load_cell_data_hash j SrcCellDep = Ok (blake2b (resolve d).2);
  sh_script c : inputs !! i = Some c → load_script = Ok (co_lock (cell_output c));
  sh_group c : inputs !! i = Some c → load_cell_lock_hash 0 SrcGroupInput = Ok (script_hash (co_lock (cell_output c)));
  sh_since input : l1_inputs tx !! i = Some input → load_input_since 0 SrcGroupInput = Ok (ci_since input);
  sh_witness w : l1_witnesses tx !! i = Some (enc_WitnessArgs w) → load_witness_args 0 SrcGroupInput = Ok w;
}.

(** Different locks among the spent cells have different hashes. *)
Definition locks_apart `{Blake2b, Molecule} (inputs : list CellInfo) : Prop :=
  ∀ c c', c ∈ inputs → c' ∈ inputs →
    script_hash (co_lock (cell_output c)) = script_hash (co_lock (cell_output c')) →
    co_lock (cell_output c) = co_lock (cell_output c').

(** What the node knows about the rollup, and what layer 1 has: the rollup cell
    with its state, a chain at least [finality_blocks] long, the configuration in
    the cell the node depends on, a wallet lock that is not the withdrawal lock,
    and the molecule encodings. *)
Record unlock_setting `{Blake2b, Molecule, UnlockCodec, TxCodec} (resolve : CellDep → CellOutput * bytes)
    (cfg : RollupConfig) (rollup_type_hash : H256) (contracts_dep : ContractsCellDep) (owner_lock : Script)
    (rollup_cell : CellInfo) (gs : GlobalState) : Prop := {
  us_state : decode_global_state (cell_data rollup_cell) = Some gs;
  us_rollup : script_hash <$> co_type (cell_output rollup_cell) = Some rollup_type_hash;
  us_rollup_length : length rollup_type_hash = 32%nat;
  us_wf : finalized_timepoint_wf cfg gs;
  us_count : u64 (bm_count (gs_block gs));
  us_last : u64 (last_finalized_timepoint gs);
  us_finality : u64 (finality_blocks cfg) ∧ finality_blocks cfg ≤ tip_number gs;
  us_dep_rollup : resolve (mkCellDep (cell_out_point rollup_cell) DepType_Code) = cell_value rollup_cell;
  us_dep_config : ∃ o d, resolve (dep_rollup_config contracts_dep) = (o, d)
    ∧ blake2b d = rollup_config_hash gs ∧ dec_RollupConfig d = Some cfg
    ∧ blake2b (cell_data rollup_cell) ≠ rollup_config_hash gs;
  us_wallet : code_hash owner_lock ≠ withdrawal_script_type_hash cfg;
  us_codec : ∀ w, dec_UnlockWithdrawalWitness (enc_UnlockWithdrawalWitness w) = Some w;
  us_deps : Inj (=) (=) enc_CellDeps;
  us_lock_args : ∀ bs a, dec_WithdrawalLockArgs bs = Some a → u64 (wl_withdrawal_finalized_timepoint a);
}.

Lemma prefix_args cfg rth c :
  satisfy_search (withdrawal_search_key cfg rth) c = true →
  take (length rth) (args (co_lock (cell_output c))) = rth
  ∧ code_hash (co_lock (cell_output c)) = withdrawal_script_type_hash cfg.
Proof.
  unfold satisfy_search, withdrawal_search_key, option_prefix, script_prefix_eq. cbn. intros Hs. bool_inv.
  repeat split; congruence.
Qed.

Section Accept.
Context `{Blake2b, Molecule, UnlockCodec, TxCodec, Indexer}.
Context (resolve : CellDep → CellOutput * bytes) (cfg : RollupConfig) (rth : H256) (contracts_dep : ContractsCellDep).
Context (owner_lock : Script) (rollup_cell : CellInfo) (gs : GlobalState).
Context (Hset : unlock_setting resolve cfg rth contracts_dep owner_lock rollup_cell gs).
Local Abbreviation tp := (compatible_from_global_state gs (finality_blocks cfg)).
Local Abbreviation since := (global_state_last_finalized_timepoint_to_since gs).

Lemma parse_args_decoded bs a owner :
  parse_withdrawal_lock_args bs = Ok (a, owner) → u64 (wl_withdrawal_finalized_timepoint a).
Proof.
  unfold parse_withdrawal_lock_args. intros Hp. repeat case_match; inv_ok; try discriminate.
  repeat case_match; inv_ok; try discriminate. repeat case_match; inv_ok; try discriminate. simplify_eq.
  by eapply (us_lock_args _ _ _ _ _ _ _ Hset).
Qed.

(** The rollup cell and its configuration, as the script finds them *)
Lemma rollup_deps_found env tx inputs rest i :
  shows resolve env tx inputs
    ([mkCellDep (cell_out_point rollup_cell) DepType_Code; dep_rollup_config contracts_dep] ++ rest) i →
  search_rollup_state rth SrcCellDep = Ok (Some gs) ∧ load_rollup_config (rollup_config_hash gs) = Ok cfg.
Proof.
  intros Hs. destruct (us_dep_config _ _ _ _ _ _ _ Hset) as (o & d & Hres & Hd & Hdec & Hne).
  pose proof (us_dep_rollup _ _ _ _ _ _ _ Hset) as Hroll.
  pose proof (see_count _ _ _ (sh_deps _ _ _ _ _ _ Hs)) as Hcount. cbn [fmap list_fmap app length] in Hcount.
  split.
  - unfold search_rollup_state, search_rollup_cell.
    rewrite (query_position_hit load_cell_type_hash SrcCellDep _ 0 (Some rth)); [|lia| |by rewrite bool_decide_true|lia].
    + cbn [mbind outcome_bind].
      rewrite (see_data _ _ _ (sh_deps _ _ _ _ _ _ Hs) 0 (cell_output rollup_cell) (cell_data rollup_cell))
        by (cbn; by rewrite Hroll).
      cbn [mbind outcome_bind]. by rewrite (us_state _ _ _ _ _ _ _ Hset).
    + rewrite (see_type_hash _ _ _ (sh_deps _ _ _ _ _ _ Hs) 0 (cell_output rollup_cell) (cell_data rollup_cell))
        by (cbn; by rewrite Hroll).
      by rewrite (us_rollup _ _ _ _ _ _ _ Hset).
  - unfold load_rollup_config, search_rollup_config_cell.
    rewrite (query_position_hit load_cell_data_hash SrcCellDep _ 1 (rollup_config_hash gs)); [|lia| |by rewrite bool_decide_true|].
    + cbn [ok_or mbind outcome_bind].
      rewrite (see_data _ _ _ (sh_deps _ _ _ _ _ _ Hs) 1 o d) by (cbn; by rewrite Hres). cbn [sys mbind outcome_bind].
      by rewrite Hdec.
    + rewrite (sh_dep_hash _ _ _ _ _ _ Hs 1 (dep_rollup_config contracts_dep)) by done. rewrite Hres. cbn [snd]. by rewrite Hd.
    + intros j Hj. replace j with 0%nat by lia.
      rewrite (sh_dep_hash _ _ _ _ _ _ Hs 0 (mkCellDep (cell_out_point rollup_cell) DepType_Code)) by done. rewrite Hroll.
      eexists. split; [done|]. by rewrite bool_decide_false.
Qed.

(** The withdrawal is final for the script too. *)
Lemma unlock_final env tx inputs deps rest i a :
  shows resolve env tx inputs deps i →
  l1_inputs tx !! i = Some (mkCellInput since rest) →
  u64 (wl_withdrawal_finalized_timepoint a) →
  let t := Timepoint_from_full_value (wl_withdrawal_finalized_timepoint a) in
  compatible_is_finalized tp t = true →
  (∀ n, t = BlockNumber n →
     ∃ more, deps = [mkCellDep (cell_out_point rollup_cell) DepType_Code; dep_rollup_config contracts_dep] ++ more) →
  check_withdrawal_finalized rth t = Ok tt.
Proof.
  intros Hs Hin Hu t Hfin Hdeps. unfold check_withdrawal_finalized. destruct t as [n|ms] eqn:Et.
  - destruct (Hdeps n eq_refl) as [more ->]. destruct (rollup_deps_found _ _ _ _ _ Hs) as [Hst Hcfg].
    rewrite Hst. cbn [sys mbind outcome_bind]. rewrite Hcfg. cbn [mbind outcome_bind].
    rewrite (offchain_finality_matches_onchain cfg gs) in Hfin.
    + destruct (us_finality _ _ _ _ _ _ _ Hset) as [_ Htip]. rewrite (bool_decide_false (_ ∧ _)), orb_false_r in Hfin by lia.
      by rewrite Hfin.
    + apply (us_wf _ _ _ _ _ _ _ Hset).
    + apply (us_count _ _ _ _ _ _ _ Hset).
    + apply (us_finality _ _ _ _ _ _ _ Hset).
    + subst t. rewrite Timepoint_from_full_value_eq in Et by done. case_match; simplify_eq. done.
  - unfold assert_timestamp_le_since, absolute_timestamp_since.
    rewrite (sh_since _ _ _ _ _ _ Hs _ Hin). cbn [sys mbind outcome_bind ci_since].
    unfold compatible_is_finalized, compatible_from_global_state in Hfin. unfold global_state_last_finalized_timepoint_to_since.
    rewrite Timepoint_from_full_value_eq in Hfin |- * by apply (us_last _ _ _ _ _ _ _ Hset).
    pose proof (us_last _ _ _ _ _ _ _ Hset) as Hlast. unfold in_width in Hlast.
    destruct (Z.ltb_spec (last_finalized_timepoint gs) (2 ^ 63)); cbn [finalized_timestamp] in Hfin; [done|].
    apply Z.leb_le in Hfin. set (now := last_finalized_timepoint gs - 2 ^ 63) in *.
    assert (Hdiv : now < (now / 1000 + 1) * 1000 ≤ now + 1000) by (pose proof (Z.div_mod now 1000); pose proof (Z.mod_pos_bound now 1000); lia).
    destruct (since_timestamp_reads (E:=GwError.t) (now / 1000 + 1)) as [Habs Hval];
      [pose proof (Z.div_pos now 1000); lia|lia|].
    rewrite Hval. cbn [mbind outcome_bind]. rewrite Habs. cbn [mbind outcome_bind].
    by rewrite (proj2 (Z.leb_le _ _)) by lia.
Qed.

Lemma payment_code_hash c : plain_payment no_local_cells owner_lock c → code_hash (co_lock (cell_output c)) = code_hash owner_lock.
Proof.
  intros (_ & Hs & _). unfold satisfy_search, option_prefix, script_prefix_eq in Hs. cbn in Hs. bool_inv. congruence.
Qed.

(** A transaction whose first outputs give [cells] to their owners *)
Record pays_owners (tx : L1Transaction) (cells paid : list CellInfo) : Prop := {
  po_input i c : cells !! i = Some c → l1_inputs tx !! i = Some (mkCellInput since (cell_out_point c));
  po_output i c : cells !! i = Some c →
    l1_outputs tx !! i = Some (relocked (owner_of c) c).1 ∧ l1_outputs_data tx !! i = Some (cell_data c);
  po_witness i : (i < length cells)%nat → l1_witnesses tx !! i = Some (enc_WitnessArgs unlock_via_finalize_witness);
  po_paid : Forall (plain_payment no_local_cells owner_lock) paid;
}.
Lemma same_content_run env tx inputs deps i j c owner :
  shows resolve env tx inputs deps i → inputs !! j = Some c →
  l1_outputs tx !! j = Some (relocked owner c).1 → l1_outputs_data tx !! j = Some (cell_data c) →
  check_output_cell_has_same_content j SrcInput j = Ok tt.
Proof.
  intros Hs Hj Ho Hd. assert (Hin : (cell_value <$> inputs) !! j = Some (cell_output c, cell_data c))
    by (by rewrite list_lookup_fmap, Hj).
  assert (Hout : zip (l1_outputs tx) (l1_outputs_data tx) !! j = Some ((relocked owner c).1, cell_data c))
    by (by apply lookup_zip_Some).
  unfold check_output_cell_has_same_content.
  rewrite (see_capacity _ _ _ (sh_inputs _ _ _ _ _ _ Hs) _ _ _ Hin), (see_capacity _ _ _ (sh_outputs _ _ _ _ _ _ Hs) _ _ _ Hout).
  cbn [sys mbind outcome_bind relocked fst co_capacity]. rewrite Z.eqb_refl. cbn [negb reject_if mbind outcome_bind].
  rewrite (see_data _ _ _ (sh_inputs _ _ _ _ _ _ Hs) _ _ _ Hin), (see_data _ _ _ (sh_outputs _ _ _ _ _ _ Hs) _ _ _ Hout).
  cbn [sys mbind outcome_bind]. rewrite bool_decide_true by done. cbn [negb reject_if mbind outcome_bind].
  rewrite (see_type_hash _ _ _ (sh_inputs _ _ _ _ _ _ Hs) _ _ _ Hin), (see_type_hash _ _ _ (sh_outputs _ _ _ _ _ _ Hs) _ _ _ Hout).
  cbn [sys mbind outcome_bind relocked fst co_type]. by rewrite bool_decide_true.
Qed.

Lemma unlock_accepted env tx cells paid deps unlocked i :
  Forall (unlockable_cell cfg rth tp unlocked) cells → pays_owners tx cells paid →
  (existsb is_legacy cells = true →
     ∃ more, deps = [mkCellDep (cell_out_point rollup_cell) DepType_Code; dep_rollup_config contracts_dep] ++ more) →
  (i < length cells)%nat → locks_apart (cells ++ paid) → shows resolve env tx (cells ++ paid) deps i →
  withdrawal_lock_main = Ok tt.
Proof.
  intros Hcells Hpo Hdeps [c Hc]%lookup_lt_is_Some Hinj Hs.
  assert (Hcin : (cells ++ paid) !! i = Some c) by (by apply lookup_app_l_Some).
  rewrite Forall_forall in Hcells. destruct (Hcells c (list_elem_of_lookup_2 _ _ _ Hc)) as (Hv & _ & Hkey & _).
  unfold verify_unlockable_to_owner in Hv. apply bind_Ok in Hv as (? & _ & Hv).
  destruct (verified_parses _ _ _ Hv) as (a & owner & Hparse & Hparse' & Hfin & Hlen).
  assert (Howner : owner_of c = owner) by (unfold owner_of; by rewrite Hparse).
  destruct (prefix_args _ _ _ Hkey) as [Hrth Hcode]. rewrite (us_rollup_length _ _ _ _ _ _ _ Hset) in Hrth.
  unfold withdrawal_lock_main, withdrawal_parse_lock_args.
  rewrite (sh_script _ _ _ _ _ _ Hs c Hcin). cbn [sys mbind outcome_bind].
  rewrite (proj2 (Nat.ltb_ge _ _)) by lia. cbn [reject_if mbind outcome_bind]. rewrite Hparse'. cbn [mbind outcome_bind].
  rewrite (sh_witness _ _ _ _ _ _ Hs unlock_via_finalize_witness)
    by (apply (po_witness _ _ _ Hpo); by eapply lookup_lt_Some).
  cbn [sys mbind outcome_bind unlock_via_finalize_witness wa_lock ok_or].
  rewrite (us_codec _ _ _ _ _ _ _ Hset). cbn [ok_or mbind outcome_bind].
  unfold unlock_withdrawal_via_finalize. rewrite Hrth.
  rewrite (unlock_final env tx (cells ++ paid) deps (cell_out_point c) i a); [|done|by apply (po_input _ _ _ Hpo)| |done|].
  2:{ by eapply parse_args_decoded. }
  2:{ intros n Hn. apply Hdeps. apply existsb_exists. exists c. split; [apply list_elem_of_In; by eapply list_elem_of_lookup_2|].
      unfold is_legacy, timepoint_of. rewrite Hparse. cbn [pw_lock_args]. by rewrite Hn. }
  cbn [mbind outcome_bind]. rewrite (sh_group _ _ _ _ _ _ Hs c Hcin). cbn [sys mbind outcome_bind].
  unfold query_until. rewrite query_until_none; [done|]. intros j Hj.
  rewrite (see_count _ _ _ (sh_inputs _ _ _ _ _ _ Hs)), length_fmap in Hj.
  destruct (lookup_lt_is_Some_2 (cells ++ paid) j) as [c' Hc']; [lia|].
  eexists. split; [by apply (sh_input_lock _ _ _ _ _ _ Hs)|]. unfold invalid_output_at.
  case_bool_decide as Heq; cbn [negb]; [|done].
  apply Hinj in Heq; [|by eapply list_elem_of_lookup_2..].
  apply lookup_app_Some in Hc' as [Hc'|[_ Hc']].
  - destruct (po_output _ _ _ Hpo _ _ Hc') as [Ho Hd].
    rewrite (same_content_run env tx (cells ++ paid) deps i j c' (owner_of c')); [|done|by apply lookup_app_l_Some|done..].
    rewrite (sh_output_lock _ _ _ _ _ _ Hs _ _ Ho). cbn [relocked fst co_lock].
    assert (Hsame : owner_of c' = owner) by (rewrite <- Howner; unfold owner_of; by rewrite Heq).
    rewrite Hsame. by rewrite bool_decide_true.
  - exfalso. apply list_elem_of_lookup_2 in Hc'. pose proof (po_paid _ _ _ Hpo) as Hpaid. rewrite Forall_forall in Hpaid.
    apply Hpaid, payment_code_hash in Hc'. apply (us_wallet _ _ _ _ _ _ _ Hset). congruence.
Qed.
End Accept.

(** What [query_and_unlock_to_owner] builds *)
Lemma unlock_tx_shape `{Blake2b, Molecule, UnlockCodec, HashCodec, TxCodec, MapIter, IndexerLaws, Wallet}
    cfg rth contracts_dep sighash_dep owner_lock fee_rate fuel pages rollup_cell unlocked tx points :
  query_and_unlock_to_owner cfg rth contracts_dep sighash_dep owner_lock fee_rate fuel pages (Some rollup_cell) unlocked
  = Some (Ok (Some (tx, points))) →
  ∃ gs cells paid deps,
    decode_global_state (cell_data rollup_cell) = Some gs
    ∧ Forall (unlockable_cell cfg rth (compatible_from_global_state gs (finality_blocks cfg)) unlocked) cells
    ∧ points = cell_out_point <$> cells ∧ (0 < length cells ≤ MAX_WITHDRAWALS_PER_TX)%nat
    ∧ l1_inputs tx = (mkCellInput (global_state_last_finalized_timepoint_to_since gs) <$> points)
                     ++ ((λ c, mkCellInput 0 (cell_out_point c)) <$> paid)
    ∧ l1_rest tx = enc_CellDeps deps ∧ pays_owners owner_lock gs tx cells paid
    ∧ (existsb is_legacy cells = true →
         ∃ more, deps = [mkCellDep (cell_out_point rollup_cell) DepType_Code; dep_rollup_config contracts_dep] ++ more).
Proof.
  unfold query_and_unlock_to_owner. destruct (decode_global_state (cell_data rollup_cell)) as [gs|] eqn:Hgs; [|done].
  intros Hrun. set (tp := compatible_from_global_state gs (finality_blocks cfg)) in *.
  destruct (query_finalized_owner_lock_withdrawal_cells _ _ _ _ _ _ _) as [[cells| |]|] eqn:Hq; [|done..]. cbn [opt_bind] in Hrun.
  destruct (query_unlockable_ok _ _ _ _ _ _ _ _ (Nat.lt_0_succ _) Hq) as [Hcells Hlen].
  unfold unlock_to_owner in Hrun. rewrite Hgs in Hrun.
  case_bool_decide as Hne; [done|]. cbn [ok_or mbind outcome_bind] in Hrun. fold tp in Hrun.
  rewrite (unlock_cells_run tp) in Hrun by (eapply Forall_impl; [exact Hcells|]; by intros c (? & _)).
  cbn [mbind outcome_bind app orb] in Hrun.
  rewrite bool_decide_false in Hrun by (by destruct cells). cbn [opt_bind] in Hrun.
  unfold complete_tx in Hrun. cbn [unlock_skeleton ul_inputs ul_deps ul_witness_args ul_outputs sk_inputs sk_cell_deps sk_witnesses sk_outputs sk_omni_lock_code_hash] in Hrun.
  destruct (fill_tx_fee_with_local _ _ _ _ _ _) as [[sk'| |]|] eqn:Hfill; [|done..]. cbn [opt_bind] in Hrun.
  destruct (sign_tx_skeleton sk') as [tx'| |] eqn:Hsign; [|done..]. cbn [opt_bind] in Hrun. injection Hrun as -> <-.
  apply fill_tx_fee_shape in Hfill as (paid & change & -> & Hpaid).
  apply sign_tx_skeleton_shape in Hsign as (ws & -> & Hkeep). cbn [with_change with_payment sk_with_outputs sk_with_inputs sk_witnesses] in Hkeep.
  rewrite length_fmap in Hkeep. eexists gs, cells, paid, _. split; [done|]. split; [done|].
  split; [by rewrite <- list_fmap_compose|]. split; [split; [by destruct cells; [|cbn; lia]|done]|].
  split; [cbn; rewrite fmap_app, <- !list_fmap_compose; done|]. split; [reflexivity|]. split; [|intros ->; cbn; by eexists].
  constructor; cbn.
  - intros i c Hi. rewrite fmap_app. apply lookup_app_l_Some. by rewrite !list_lookup_fmap, Hi.
  - intros i c Hi. rewrite !fmap_app. split; apply lookup_app_l_Some; by rewrite !list_lookup_fmap, Hi.
  - intros i Hi. rewrite list_lookup_fmap, (Hkeep i unlock_via_finalize_witness); [done| |by eexists].
    by apply lookup_replicate_2.
  - done.
Qed.

Lemma offered_live `{Indexer} live lock c : indexer_live live → offered no_local_cells lock c → live (cell_out_point c) = Some c.
Proof.
  intros Hlive (cursor & cells & cursor' & Hc & Hin). unfold collect_local_and_indexer_cells in Hc.
  destruct cursor as [|cur|]; [| |simplify_eq; by apply not_elem_of_nil in Hin].
  - simplify_eq. apply list_elem_of_filter in Hin as [_ Hin]. rewrite live_iter_perm in Hin.
    change (local_live_cells no_local_cells) with (∅ : gmap OutPoint CellInfo) in Hin.
    rewrite map_to_list_empty in Hin. by apply not_elem_of_nil in Hin.
  - destruct (get_cells _ cur) as [[objects next]| |] eqn:Hg; simplify_eq.
    apply list_elem_of_filter in Hin as [_ Hin]. apply Hlive in Hg. rewrite Forall_forall in Hg. by apply Hg.
Qed.
(** The cells a transaction spends *)
Definition spends (live : OutPoint → option CellInfo) (tx : L1Transaction) (inputs : list CellInfo) : Prop :=
  Forall2 (λ i c, live (ci_previous_output i) = Some c) (l1_inputs tx) inputs.
Lemma spends_cells live tx since cells paid inputs :
  l1_inputs tx = (mkCellInput since <$> (cell_out_point <$> cells)) ++ ((λ c, mkCellInput 0 (cell_out_point c)) <$> paid) →
  Forall (λ c, live (cell_out_point c) = Some c) (cells ++ paid) → spends live tx inputs → inputs = cells ++ paid.
Proof.
  unfold spends. intros -> Hlive Hsp. rewrite <- list_fmap_compose in Hsp. apply list_eq_Forall2.
  assert (Hall : Forall2 (λ c c', live (cell_out_point c) = Some c') (cells ++ paid) inputs).
  { apply Forall2_app_inv_l in Hsp as (l1 & l2 & H1%Forall2_fmap_l & H2%Forall2_fmap_l & ->). by apply Forall2_app. }
  clear Hsp. symmetry. revert Hlive. induction Hall as [|c c' l l' Hc _ IH]; intros Hlive; [constructor|].
  inversion Hlive; subst. constructor; [congruence|by apply IH].
Qed.

(** C17. The node can pay out finalized withdrawals: whenever it builds a transaction
    that gives withdrawal cells to their owners, none of the cells is already on its way,
    output [i] is the cell of input [i] under its owner's lock, and the withdrawal lock
    accepts the transaction for each of
    them, legacy cells (final by block number) and others (final by time) alike.
    Conditions ([unlock_setting], [locks_apart]): the chain is at least
    finality_blocks long, since below that the node saturates and takes for final
    what the script does not; the indexer reports live cells; the
    config cell and the rollup cell are the dependencies the node is configured
    with; the wallet's lock is not the withdrawal lock; and of the cells this
    transaction spends, different locks have different hashes. *)
Theorem unlock_tx_accepted `{Blake2b, Molecule, UnlockCodec, HashCodec, TxCodec, MapIter, IndexerLaws, Wallet}
    resolve live cfg rth contracts_dep sighash_dep owner_lock fee_rate fuel pages rollup_cell gs unlocked tx points :
  unlock_setting resolve cfg rth contracts_dep owner_lock rollup_cell gs → indexer_live live →
  query_and_unlock_to_owner cfg rth contracts_dep sighash_dep owner_lock fee_rate fuel pages (Some rollup_cell) unlocked
  = Some (Ok (Some (tx, points))) →
  (0 < length points ≤ MAX_WITHDRAWALS_PER_TX)%nat
  ∧ (∀ p, p ∈ points → (p ∉ unlocked))
  ∧ (∃ paid, l1_inputs tx = (mkCellInput (global_state_last_finalized_timepoint_to_since gs) <$> points)
                           ++ (mkCellInput 0 <$> paid))
  ∧ (∀ i p, points !! i = Some p → ∃ c, live p = Some c
       ∧ l1_outputs tx !! i = Some (mkCellOutput (co_capacity (cell_output c)) (owner_of c) (co_type (cell_output c)))
       ∧ l1_outputs_data tx !! i = Some (cell_data c))
  ∧ ∀ env inputs deps i, spends live tx inputs → l1_rest tx = enc_CellDeps deps → (i < length points)%nat →
      locks_apart inputs → shows resolve env tx inputs deps i → withdrawal_lock_main = Ok tt.
Proof.
  intros Hset Hlive Hrun. apply unlock_tx_shape in Hrun as (gs' & cells & paid & deps & Hgs & Hcells & -> & Hlen & Hin & Hrest & Hpo & Hleg).
  rewrite (us_state _ _ _ _ _ _ _ Hset) in Hgs. injection Hgs as <-. rewrite length_fmap.
  assert (Hall : Forall (λ c, live (cell_out_point c) = Some c) (cells ++ paid)).
  { apply Forall_app. split; eapply Forall_impl; [exact Hcells| |apply (po_paid _ _ _ _ _ Hpo)|].
    - intros c (_ & _ & _ & cursor & page & next & Hg & Hc). apply Hlive in Hg. rewrite Forall_forall in Hg. by apply Hg.
    - intros c [Hoff _]. by eapply offered_live. }
  split; [done|]. split; [|split; [|split]].
  - intros p (c & -> & Hc)%list_elem_of_fmap. rewrite Forall_forall in Hcells. by apply (Hcells c Hc).
  - exists (cell_out_point <$> paid). by rewrite Hin, <- (list_fmap_compose _ _ paid).
  - intros i p Hi. apply list_lookup_fmap_Some in Hi as (c & -> & Hi). exists c. split; [|by apply (po_output _ _ _ _ _ Hpo)].
    apply Forall_app in Hall as [Hall _]. rewrite Forall_forall in Hall. by apply Hall, (list_elem_of_lookup_2 _ i).
  - intros env inputs deps' i Hsp Hd Hi Hap Hs. rewrite (spends_cells _ _ _ _ _ _ Hin Hall Hsp) in Hap, Hs.
    rewrite Hrest in Hd. apply (us_deps _ _ _ _ _ _ _ Hset) in Hd as <-.
    by eapply (unlock_accepted resolve cfg rth contracts_dep owner_lock rollup_cell gs Hset).
Qed.

(** ** What is on its way *)
Record tracks (u : Unlocker) : Prop := {
  tr_set p : p ∈ uk_unlocked_set u ↔ ∃ h ps, uk_unlock_txs u !! h = Some ps ∧ p ∈ ps;
  tr_disjoint h h' ps ps' p : uk_unlock_txs u !! h = Some ps → uk_unlock_txs u !! h' = Some ps' →
    p ∈ ps → p ∈ ps' → h = h';
}.
Lemma add_unlock_tx_tracks h ps u :
  tracks u → uk_unlock_txs u !! h = None → (∀ p, p ∈ ps → (p ∉ uk_unlocked_set u)) → tracks (add_unlock_tx h ps u).
Proof.
  intros [Hset Hdis] Hfresh Hnew. constructor; cbn.
  - intros p. rewrite elem_of_union, Hset, elem_of_list_to_set. split.
    + intros [(h' & ps' & Hh & Hp)|Hp]; [exists h', ps'|exists h, ps].
      * rewrite lookup_insert_ne by congruence. done.
      * by rewrite lookup_insert_eq.
    + intros (h' & ps' & Hh & Hp). apply lookup_insert_Some in Hh as [[<- <-]|[_ Hh]]; eauto.
  - intros h1 h2 ps1 ps2 p H1 H2 Hp1 Hp2.
    apply lookup_insert_Some in H1 as [[<- <-]|[Hn1 H1]], H2 as [[<- <-]|[Hn2 H2]]; [done|..|by eapply Hdis].
    + exfalso. apply (Hnew p Hp1), Hset. eauto.
    + exfalso. apply (Hnew p Hp2), Hset. eauto.
Qed.
Lemma drop_tx_tracks u h : tracks u → tracks (drop_tx u h).
Proof.
  intros [Hset Hdis]. unfold drop_tx. destruct (uk_unlock_txs u !! h) as [ps|] eqn:Hh; [|done]. constructor; cbn.
  - intros p. rewrite elem_of_difference, Hset, elem_of_list_to_set. split.
    + intros [(h' & ps' & Hh' & Hp) Hn]. exists h', ps'. split; [|done].
      apply lookup_delete_Some. split; [|done]. intros <-. congruence.
    + intros (h' & ps' & [Hne Hh']%lookup_delete_Some & Hp). split; [by eauto|]. intros Hp'. by apply Hne, (Hdis _ _ _ _ p Hh Hh').
  - intros h1 h2 ps1 ps2 p [_ H1]%lookup_delete_Some [_ H2]%lookup_delete_Some. by eapply Hdis.
Qed.
Lemma drop_txs_spec l u :
  tracks u → tracks (foldl drop_tx u l)
  ∧ ∀ h, uk_unlock_txs (foldl drop_tx u l) !! h = if bool_decide (h ∈ l) then None else uk_unlock_txs u !! h.
Proof.
  revert u. induction l as [|h l IH]; intros u Hu; cbn [foldl]; [split; [done|]; intros h; by rewrite bool_decide_false by apply not_elem_of_nil|].
  destruct (IH (drop_tx u h) (drop_tx_tracks _ _ Hu)) as [Ht Hl]. split; [done|]. intros h'. rewrite Hl.
  assert (Hd : uk_unlock_txs (drop_tx u h) !! h' = if bool_decide (h' = h) then None else uk_unlock_txs u !! h').
  { unfold drop_tx. destruct (uk_unlock_txs u !! h) as [ps|] eqn:Hh; cbn; case_bool_decide; subst; try done.
    - apply lookup_delete_eq.
    - by rewrite lookup_delete_ne. }
  rewrite Hd. repeat case_bool_decide; try done; set_solver.
Qed.
Lemma check_unlock_txs_spec `{MapIter} l1 u :
  tracks u → tracks (check_unlock_txs l1 u)
  ∧ ∀ h, uk_unlock_txs (check_unlock_txs l1 u) !! h
      = if keep_waiting (l1_status l1 h) then uk_unlock_txs u !! h else None.
Proof.
  intros Hu. destruct (drop_txs_spec (dropped_txs l1 (uk_unlock_txs u)) u Hu) as [Ht Hl]. split; [done|].
  intros h. unfold check_unlock_txs. rewrite Hl. unfold dropped_txs.
  destruct (keep_waiting (l1_status l1 h)) eqn:Hk.
  - rewrite bool_decide_false; [done|]. intros [Hf _]%list_elem_of_filter. congruence.
  - case_bool_decide as Hin; [done|]. destruct (uk_unlock_txs u !! h) as [ps|] eqn:Hh; [|done].
    exfalso. apply Hin, list_elem_of_filter. split; [done|]. apply list_elem_of_fmap. exists (h, ps). split; [done|].
    rewrite map_iter_perm. by apply elem_of_map_to_list.
Qed.

(** C19. The unlocker keeps its books: whether layer 1 accepts, refuses or fails to
    answer, a withdrawal cell is in
    the set of cells on their way exactly when it is in a transaction on its way, and in
    only one.  An event never forgets a transaction that layer 1 still has in its pool,
    forgets every other one unless it stops early, and then offers those cells again; and
    what it adds is a new transaction none of whose cells was on its way before.  The one
    assumption on layer 1 is that the hash it returns for a transaction just sent is not
    that of one already tracked. *)
Theorem unlocker_tracks_cells `{Blake2b, Molecule, UnlockCodec, HashCodec, TxCodec, MapIter, IndexerLaws, Wallet}
    cfg rth contracts_dep sighash_dep owner_lock fee_rate fuel pages rollup_cell l1 u r u' :
  tracks u → (∀ tx h, l1_send l1 tx = Ok h → uk_unlock_txs u !! h = None) →
  handle_event cfg rth contracts_dep sighash_dep owner_lock fee_rate fuel pages rollup_cell l1 u = Some (r, u') →
  tracks u'
  ∧ (∀ h ps, uk_unlock_txs u !! h = Some ps → keep_waiting (l1_status l1 h) = true → uk_unlock_txs u' !! h = Some ps)
  ∧ (∀ h ps, uk_unlock_txs u' !! h = Some ps →
       uk_unlock_txs u !! h = Some ps
       ∨ uk_unlock_txs u !! h = None ∧ ∀ p, p ∈ ps → (p ∉ uk_unlocked_set u))
  ∧ (u' = u ∨ r = Ok tt ∧ ∀ h, is_Some (uk_unlock_txs u' !! h) → keep_waiting (l1_status l1 h) = true).
Proof.
  intros Hu Hfresh. unfold handle_event.
  destruct (query_and_unlock_to_owner _ _ _ _ _ _ _ _ _ _) as [[[[tx points]|]| |]|] eqn:Hq;
    [| |intros [= <- <-]; by auto 10|intros [= <- <-]; by auto 10|done].
  - destruct (l1_dry_run l1 tx) as [[]|[]|]; [|intros [= <- <-]; auto 10..].
    destruct (l1_send l1 tx) as [h| |] eqn:Hsend; intros [= <- <-]; [|by auto 10..].
    specialize (Hfresh _ _ Hsend).
    assert (Hnew : ∀ p, p ∈ points → (p ∉ uk_unlocked_set u)).
    { destruct rollup_cell as [rollup_cell|]; [|done].
      apply unlock_tx_shape in Hq as (gs & cells & paid & deps & _ & Hcells & -> & _).
      intros p (c & -> & Hc)%list_elem_of_fmap. rewrite Forall_forall in Hcells. by apply (Hcells c Hc). }
    destruct (check_unlock_txs_spec l1 _ (add_unlock_tx_tracks h points u Hu Hfresh Hnew)) as [Ht Hl].
    split; [done|]. split; [|split].
    + intros h' ps Hh Hk. rewrite Hl, Hk. cbn. rewrite lookup_insert_ne; [done|]. intros ->. congruence.
    + intros h' ps Hps. rewrite Hl in Hps. destruct (keep_waiting _); [|done]. cbn in Hps.
      apply lookup_insert_Some in Hps as [[<- <-]|[_ Hps]]; auto.
    + right. split; [done|]. intros h' [ps Hps]. rewrite Hl in Hps. by destruct (keep_waiting _).
  - intros [= <- <-]. destruct (check_unlock_txs_spec l1 _ Hu) as [Ht Hl]. split; [done|]. split; [|split].
    + intros h' ps Hh Hk. by rewrite Hl, Hk.
    + intros h' ps Hps. rewrite Hl in Hps. destruct (keep_waiting _); [|done]. auto.
    + right. split; [done|]. intros h' [ps Hps]. rewrite Hl in Hps. by destruct (keep_waiting _).
Qed.
