(* ===== verification/PoolParts.v ===== *)
(** * The parts of the memory pool (crates/mem-pool/src/types.rs, deposit.rs,
      account_creator.rs; crates/tx-filter)

    What the pool keeps per account ([EntryList]), which deposit cells it packages
    ([sanitize_deposit_cells]), who may create contracts (the allow lists), and the
    transaction that creates accounts for addresses that received CKB
    ([AccountCreator]). *)
From Stdlib Require Import ZArith Lia Strings.Byte.
From stdpp Require Import prelude list gmap.
From S2P Require Import Prelude Bytes Types State StateSpec StateDB History Finality Ckb Eip712.
From S2P Require Import NodeUtils NodeState AccountLocks Backends Syscalls Generator FeeQueue Verifiers Store WithdrawalCells TxSkeleton.
Local Open Scope Z_scope.

(** ** types.rs *)
Record EntryList := mkEntryList { el_txs : list L2Transaction; el_withdrawals : list WithdrawalRequestExtra }.
Definition entry_default : EntryList := mkEntryList [] [].
Definition entry_is_empty (e : EntryList) : bool :=
  bool_decide (length (el_txs e) = 0%nat) && bool_decide (length (el_withdrawals e) = 0%nat).

Definition l2tx_nonce (tx : L2Transaction) : Z := tx_nonce (tx_raw tx).
Definition extra_raw (w : WithdrawalRequestExtra) : RawWithdrawalRequest := w_raw (we_request w).
(** [while !l.is_empty() { if l[0].nonce >= nonce { break }; removed.push(l.remove(0)) }] *)
Fixpoint remove_lower {A} (nonce_of : A → Z) (nonce : Z) (l : list A) : list A * list A :=
  match l with
  | [] => ([], [])
  | a :: rest =>
      if nonce <=? nonce_of a then ([], l)
      else let (removed, l) := remove_lower nonce_of nonce rest in (a :: removed, l)
  end.
Definition remove_lower_nonce_txs (nonce : Z) (e : EntryList) : list L2Transaction * EntryList :=
  let (removed, txs) := remove_lower l2tx_nonce nonce (el_txs e) in
  (removed, mkEntryList txs (el_withdrawals e)).
Definition remove_lower_nonce_withdrawals {E} (nonce capacity : Z) (e : EntryList) :
    outcome E (list WithdrawalRequestExtra * EntryList) :=
  let (removed, withdrawals) := remove_lower (λ w, w_nonce (extra_raw w)) nonce (el_withdrawals e) in
  match head withdrawals with
  | Some withdrawal =>
      capacity ← unwrap (CKBCapacity_to_layer1 capacity);
      if capacity <? w_capacity (extra_raw withdrawal)
      then Ok (removed ++ withdrawals, mkEntryList (el_txs e) [])
      else Ok (removed, mkEntryList (el_txs e) withdrawals)
  | None => Ok (removed, mkEntryList (el_txs e) withdrawals)
  end.

(** ** deposit.rs *)
Record DepositTimeoutConfig := mkDepositTimeoutConfig {
  deposit_timestamp_timeout : Z; deposit_block_timeout : Z; deposit_epoch_timeout : Z;
}.
Definition check_deposit_cell_cancel_timeout (config : DepositTimeoutConfig) (deposit_args : DepositLockArgs) :
    outcome unit unit :=
  let cancel_timeout := dl_cancel_timeout deposit_args in
  if since_flags_is_valid cancel_timeout then
    reject_if (negb (since_is_relative cancel_timeout)) tt ;;
    value ← since_extract_lock_value cancel_timeout;
    value ← unwrap value;
    match value with
    | LockBlockNumber block => reject_if (block <? deposit_block_timeout config) tt
    | LockTimestamp timestamp => reject_if (timestamp <? deposit_timestamp_timeout config) tt
    | LockEpochNumberWithFraction epoch => reject_if (epoch_number epoch <? deposit_epoch_timeout config) tt
    end
  else Ok tt.

Section Deposit.
Context `{Blake2b, Molecule, CkbTypes, CustodianCodec} {St : Type} `{StateOps St, CodeOps St}.
Context (ctx : RollupContext) (config : DepositTimeoutConfig).
Local Abbreviation M := (ST St unit).

Definition check_deposit_lock (cell : CellInfo) : outcome unit unit :=
  let lock := co_lock (cell_output cell) in
  reject_if (negb (bool_decide (code_hash lock = deposit_script_type_hash (rollup_config ctx)))
             || negb (hash_type lock =? ScriptHashType_to_u8 HashType)) tt ;;
  reject_if (length (args lock) <? 32)%nat tt ;;
  reject_if (negb (bool_decide (take 32 (args lock) = rollup_script_hash ctx))) tt ;;
  deposit_args ← ok_or tt (dec_DepositLockArgs (drop 32 (args lock)));
  check_deposit_cell_cancel_timeout config deposit_args.
Definition check_deposit_sudt (cell : CellInfo) : outcome unit unit :=
  match co_type (cell_output cell) with
  | Some type_ =>
      reject_if (negb (bool_decide (code_hash type_ = l1_sudt_script_type_hash (rollup_config ctx)))
                 || negb (hash_type type_ =? ScriptHashType_to_u8 HashType)) tt
  | None => Ok tt
  end.
Definition check_deposit_script (script : Script) : outcome unit unit :=
  reject_if (negb (hash_type script =? ScriptHashType_to_u8 HashType)) tt ;;
  reject_if (negb (existsb (λ th, bool_decide (ath_hash th = code_hash script))
                     (allowed_eoa_type_hashes (rollup_config ctx)))) tt ;;
  reject_if (length (args script) <? 32)%nat tt ;;
  reject_if (negb (bool_decide (take 32 (args script) = rollup_script_hash ctx))) tt.
Definition read_deposit_args (bs : bytes) : DepositLockArgs := default DepositLockArgs_default (dec_DepositLockArgs bs).
Definition check_deposit_cell (cell : DepositInfo) : M unit :=
  lift (check_deposit_lock (di_cell cell)) ;;
  lift (check_deposit_sudt (di_cell cell)) ;;
  let request := di_request cell in
  let script := dr_script request in
  lift (check_deposit_script script) ;;
  reg_addr ← lift (map_err (λ _, tt)
    (extract_registry_address_from_deposit (allowed_eoa_type_hashes (rollup_config ctx))
       (dr_registry_id request) (code_hash script) (args script)));
  o ← st_map_err (λ _, tt) (get_script_hash_by_registry_address reg_addr);
  (match o with
   | Some sh => lift (reject_if (negb (bool_decide (script_hash script = sh))) tt)
   | None => mret tt
   end) ;;
  lift (map_err (λ _, tt)
    (to_custodian_cell ctx read_deposit_args h256_one (BlockNumber 1) cell)) ;;
  mret tt.
Fixpoint sanitize_deposit_cells (deposits : list DepositInfo) : M (list DepositInfo) :=
  match deposits with
  | [] => mret []
  | cell :: deposits => λ st,
      match check_deposit_cell cell st with
      | (Ok _, st) => (rest ← sanitize_deposit_cells deposits; mret (cell :: rest)) st
      | (Err _, st) => sanitize_deposit_cells deposits st
      | (Panic, st) => (Panic, st)
      end
  end.
End Deposit.

(** ** tx-filter *)
Inductive AllowlistError :=
| PermissionDenied (account_id : Z) | AllowlistCommon (e : StateError.t) | AllowlistScriptHashNotFound.
Record PolyjuiceContractCreatorAllowList := mkPolyjuiceAllowList {
  al_polyjuice_code_hash : H256; al_allowed_creator_eth_address : gset bytes;
}.
(** [args[7] == 3u8], a panic on shorter arguments *)
Definition is_contract_create {E} (args : bytes) : outcome E bool :=
  b ← unwrap (args !! 7%nat); Ok (bool_decide (b = x03)).
Section Allowlist.
Context `{Blake2b} {St : Type} `{StateOps St, CodeOps St}.
Local Abbreviation M := (ST St AllowlistError).
Definition validate_with_state (allow : PolyjuiceContractCreatorAllowList) (tx : RawL2Transaction) : M unit :=
  let from_id := tx_from_id tx in
  let to_id := tx_to_id tx in
  if to_id =? 1 then mret tt else
  sh ← st_map_err AllowlistCommon (get_script_hash from_id);
  script ← gets (get_script sh);
  script ← lift (ok_or AllowlistScriptHashNotFound script);
  if (length (args script) =? 52)%nat
     && bool_decide (drop 32 (args script) ∈ al_allowed_creator_eth_address allow) then mret tt else
  let is_meta_create := to_id =? 0 in
  to_hash ← st_map_err AllowlistCommon (get_script_hash to_id);
  to_script ← gets (get_script to_hash);
  to_script ← lift (ok_or (AllowlistCommon StateError.MissingKey) to_script);
  is_polyjuice_create ←
    (if bool_decide (code_hash to_script = al_polyjuice_code_hash allow)
     then lift (is_contract_create (tx_args tx)) else mret false);
  lift (reject_if (is_meta_create || is_polyjuice_create) (PermissionDenied from_id)).
End Allowlist.

Record SUDTProxyAccountAllowlist := mkSudtProxyAllowlist {
  sp_allowed_creator_account_id : list Z; sp_code_hashes : list H256;
}.
Definition sudt_proxy_validate (allow : SUDTProxyAccountAllowlist) (run_result : RunResult) (from_id : Z) : bool :=
  if bool_decide (sp_allowed_creator_account_id allow = []) || bool_decide (sp_code_hashes allow = []) then true
  else if bool_decide (from_id ∈ sp_allowed_creator_account_id allow) then true
  else forallb (λ k, negb (bool_decide (k ∈ sp_code_hashes allow))) (rr_write_data_hashes run_result).

(** ** account_creator.rs *)
Definition META_CONTRACT_ACCOUNT_ID : Z := RESERVED_ACCOUNT_ID.
Definition MIN_BALANCE : Z := 10 ^ 8.
Definition MAX_CREATE_ACCOUNTS_PER_BATCH : nat := 50.
Record AccountCreator := mkAccountCreator {
  ac_chain_id : Z; ac_rollup_script_hash : H256; ac_eth_lock_code_hash : H256; ac_creator_script_hash : H256;
}.
Class CreatorCodec := enc_MetaContractArgs : MetaContractArgs → bytes.
Section AccountCreator.
Context `{Blake2b, Molecule, Keccak256, EthAbi, Rlp, ContractArgs} {St : Type} `{StateOps St, CodeOps St}.
Context `{Wallet, CreatorCodec}.

(** The closure [do_filter]; an [Err] is logged and skipped. *)
Definition new_address_of (log : LogItem) : ST St unit (option RegistryAddress) :=
  if negb (log_service_flag log =? GW_LOG_SUDT_TRANSFER) || negb (log_account_id log =? CKB_SUDT_ACCOUNT_ID)
  then mret None else
  parsed ← lift (map_err (λ _, tt) (parse_log log));
  match parsed with
  | SudtTransfer _ _ to_address _ =>
      o ← st_map_err (λ _, tt) (get_script_hash_by_registry_address to_address);
      if bool_decide (is_Some o) then mret None else
      to_balance ← st_map_err (λ _, tt) (get_sudt_balance CKB_SUDT_ACCOUNT_ID to_address);
      mret (if to_balance <? CKBCapacity_to_layer2 (CKBCapacity_from_layer1 MIN_BALANCE) then None
            else Some to_address)
  | _ => mret None
  end.
(** [filter_map] with a fallible closure whose errors drop the element *)
Fixpoint filter_map_ok {A B} (f : A → ST St unit (option B)) (l : list A) : ST St unit (list B) :=
  match l with
  | [] => mret []
  | a :: l => λ st,
      match f a st with
      | (Ok (Some b), st) => (bs ← filter_map_ok f l; mret (b :: bs)) st
      | (Ok None, st) | (Err _, st) => filter_map_ok f l st
      | (Panic, st) => (Panic, st)
      end
  end.
Definition filter_new_address (logs : list LogItem) : ST St unit (option (list RegistryAddress)) :=
  new ← filter_map_ok new_address_of logs;
  mret (if bool_decide (length new = 0%nat) then None else Some new).

(** [privkey_to_eth_account_script] of the wallet; [pubkey] is what
    [serialize_uncompressed()[1..]] of its public key returns. *)
Definition eth_lock_script (pubkey : outcome unit bytes) (rollup_script_hash eth_lock_code_hash : H256) :
    outcome unit Script :=
  pubkey ← pubkey;
  Ok (mkScript eth_lock_code_hash (ScriptHashType_to_u8 HashType)
        (rollup_script_hash ++ drop 12 (keccak256 pubkey))).
Definition AccountCreator_create (ctx : RollupContext) (pubkey : outcome unit bytes) : outcome unit AccountCreator :=
  '(_, th) ← ok_or tt (list_find (λ th, ath_type th = AllowedEoaType_to_u8 EoaEth)
                         (allowed_eoa_type_hashes (rollup_config ctx)));
  s ← eth_lock_script pubkey (rollup_script_hash ctx) (ath_hash th);
  Ok (mkAccountCreator (rc_chain_id (rollup_config ctx)) (rollup_script_hash ctx) (ath_hash th) (script_hash s)).

Definition to_account_script (c : AccountCreator) (registry_address : RegistryAddress) : Script :=
  mkScript (ac_eth_lock_code_hash c) (ScriptHashType_to_u8 HashType)
    (ac_rollup_script_hash c ++ address registry_address).
Definition unknown_address (addr : RegistryAddress) : ST St unit (option RegistryAddress) :=
  o ← st_map_err (λ _, tt) (get_script_hash_by_registry_address addr);
  mret (match o with None => Some addr | Some _ => None end).
Definition build_batch_create_tx (c : AccountCreator) (addresses : list RegistryAddress) :
    ST St unit (option (L2Transaction * list RegistryAddress)) :=
  o ← st_map_err (λ _, tt) (get_account_id_by_script_hash (ac_creator_script_hash c));
  creator_account_id ← lift (ok_or tt o);
  o ← st_map_err (λ _, tt) (get_registry_address_by_script_hash ETH_REGISTRY_ACCOUNT_ID (ac_creator_script_hash c));
  creator_registry_address ← lift (ok_or tt o);
  nonce ← st_map_err (λ _, tt) (get_nonce creator_account_id);
  meta_contract_script_hash ← st_map_err (λ _, tt) (get_script_hash META_CONTRACT_ACCOUNT_ID);
  new_addrs ← filter_map_ok unknown_address addresses;
  let create_accounts := to_account_script c <$> take MAX_CREATE_ACCOUNTS_PER_BATCH new_addrs in
  if bool_decide (length create_accounts = 0%nat) then mret None else
  let next_batch := drop MAX_CREATE_ACCOUNTS_PER_BATCH new_addrs in
  let args := enc_MetaContractArgs (BatchCreateEthAccounts create_accounts (mkFee ETH_REGISTRY_ACCOUNT_ID 0)) in
  let raw_l2tx := mkRawL2Transaction (ac_chain_id c) creator_account_id META_CONTRACT_ACCOUNT_ID nonce args in
  signing_message ← lift (map_err (λ _, tt)
    (eip712_signing_message (ac_chain_id c) raw_l2tx creator_registry_address meta_contract_script_hash));
  sign ← lift (sign_message signing_message);
  mret (Some (mkL2Transaction raw_l2tx sign, next_batch)).
End AccountCreator.
