(* ===== verification/Pool.v ===== *)
(** * The memory pool (crates/mem-pool/src/pool.rs)

    The pool executes transactions as they are pushed and withdrawals and deposits
    when a new tip is known, on a state of its own, and keeps the record of what it
    executed: the block in the making ([MemBlock]).

    - [push_transaction], [push_withdrawal_request]: requests of users;
    - [reset_full], called by [notify_new_tip] and [reset_mem_block]: start again on a
      new tip, with the transactions of the block in the making and of blocks that
      are no longer in the chain;
    - [refresh_mem_block], [reset_read_only]: the pool of a read-only node;
    - [MemPool_create]: the pool of a node that starts.

    A database transaction is a copy of the store that replaces it when committed; the
    state that [load_state_db] returns is a copy likewise.  What the provider answers
    (layer-1 time, deposit cells) is a parameter, and the file that keeps the block in
    the making across restarts is the argument [restored] of [MemPool_create]. *)
From Stdlib Require Import ZArith Lia Strings.Byte.
From stdpp Require Import prelude list gmap.
From S2P Require Import Prelude Bytes Types State StateSpec StateDB History Finality Ckb Eip712.
From S2P Require Import SubmitBlock RollupScript ChallengeLock NodeUtils NodeState AccountLocks Backends Syscalls Generator FeeQueue Verifiers Store LocalCells BlockSyncServer ChallengeContext Chain ChainUpdater MemBlock WithdrawalCells TxSkeleton PoolParts.
Local Open Scope Z_scope.

#[export] Instance RawL2Transaction_eq_dec : EqDecision RawL2Transaction.
Proof. solve_decision. Defined.
#[export] Instance L2Transaction_eq_dec : EqDecision L2Transaction.
Proof. solve_decision. Defined.
#[export] Instance RawWithdrawalRequest_eq_dec : EqDecision RawWithdrawalRequest.
Proof. solve_decision. Defined.
#[export] Instance WithdrawalRequest_eq_dec : EqDecision WithdrawalRequest.
Proof. solve_decision. Defined.
#[export] Instance WithdrawalRequestExtra_eq_dec : EqDecision WithdrawalRequestExtra.
Proof. solve_decision. Defined.

(** ** Data *)
Local Abbreviation StDB := (StateDB MemStateTree).

Record MemBlockConfig := mkMemBlockConfig {
  mbc_max_withdrawals : nat; mbc_max_txs : nat; mbc_max_cycles_limit : Z;
  mbc_syscall_cycles : SyscallCyclesConfig; mbc_deposit_timeout_config : DepositTimeoutConfig;
}.
(** What the pool does not change: the generator, its configuration, the account
    creator and the allow lists of the dynamic configuration *)
Record PoolEnv := mkPoolEnv {
  pe_generator : Generator;
  pe_config : MemBlockConfig;
  pe_account_creator : option AccountCreator;
  pe_creator_allowlist : option PolyjuiceContractCreatorAllowList;
  pe_sudt_proxy_allowlist : SUDTProxyAccountAllowlist;
}.
(** [p_state] and [p_shared_block] are the fields of [Shared] in [mem_pool_state]. *)
Record Pool := mkPool {
  p_store : StoreDb;
  p_state : StDB;
  p_shared_block : option BlockInfo;
  p_current_tip : H256 * Z * GlobalState;
  p_pending : gmap Z EntryList;
  p_mem_block : MemBlock;
  p_pending_deposits : list DepositInfo;
  p_pending_restored_tx_hashes : list H256;
  p_sync_server : option BlockSyncServerState;
  p_cycles_pool : CyclesPool;
}.
(** [&mut self] with the database transaction and the state of a call *)
Record PoolWorld := mkPoolWorld { pw_pool : Pool; pw_db : StoreDb; pw_state : StDB }.

Inductive PoolError :=
| DuplicatedTx | MemBlockFull | DuplicatedWithdrawal
| PoolState (e : StateError.t) | PoolGen (e : GenError.t) | PoolRun (e : AnyError)
| InvalidContractCreatorAccount (account_id : Z) | CreatorScriptHashNotFound
| InvalidSUDTProxyCreatorAccount (account_id : Z)
| LastBlockNotFound | LastCustodiansNotFound | DepositsNotFound | PoolRange (e : RangeError)
| PoolWithdrawal (e : WithdrawalGenError)
| NewTipNotFound | ProviderFailed.

(** Iteration over the pending accounts (a [HashMap]) and over a column of the
    database, in some order *)
Class PendingIter := {
  pending_iter : gmap Z EntryList → list (Z * EntryList);
  pending_iter_perm : ∀ m, pending_iter m ≡ₚ map_to_list m;
}.
Class ColumnIter := {
  column_iter : Z → gmap (Z * bytes) Entity → list (bytes * Entity);
  column_iter_entries : ∀ c m k e, (k, e) ∈ column_iter c m ↔ m !! (c, k) = Some e;
}.
(** [MemPoolProvider]: what layer 1 answers, if it does; times in milliseconds *)
Class MemPoolProvider := {
  estimate_next_blocktime : option Z;
  collect_deposit_cells : LocalCellsManager → option (list DepositInfo);
}.

Definition with_store (db : StoreDb) (p : Pool) : Pool :=
  mkPool db (p_state p) (p_shared_block p) (p_current_tip p) (p_pending p) (p_mem_block p)
    (p_pending_deposits p) (p_pending_restored_tx_hashes p) (p_sync_server p) (p_cycles_pool p).
Definition with_state (st : StDB) (p : Pool) : Pool :=
  mkPool (p_store p) st (p_shared_block p) (p_current_tip p) (p_pending p) (p_mem_block p)
    (p_pending_deposits p) (p_pending_restored_tx_hashes p) (p_sync_server p) (p_cycles_pool p).
Definition with_shared (st : StDB) (info : option BlockInfo) (p : Pool) : Pool :=
  mkPool (p_store p) st info (p_current_tip p) (p_pending p) (p_mem_block p)
    (p_pending_deposits p) (p_pending_restored_tx_hashes p) (p_sync_server p) (p_cycles_pool p).
Definition with_current_tip (t : H256 * Z * GlobalState) (p : Pool) : Pool :=
  mkPool (p_store p) (p_state p) (p_shared_block p) t (p_pending p) (p_mem_block p)
    (p_pending_deposits p) (p_pending_restored_tx_hashes p) (p_sync_server p) (p_cycles_pool p).
Definition with_pending (m : gmap Z EntryList) (p : Pool) : Pool :=
  mkPool (p_store p) (p_state p) (p_shared_block p) (p_current_tip p) m (p_mem_block p)
    (p_pending_deposits p) (p_pending_restored_tx_hashes p) (p_sync_server p) (p_cycles_pool p).
Definition with_mem_block (mb : MemBlock) (p : Pool) : Pool :=
  mkPool (p_store p) (p_state p) (p_shared_block p) (p_current_tip p) (p_pending p) mb
    (p_pending_deposits p) (p_pending_restored_tx_hashes p) (p_sync_server p) (p_cycles_pool p).
Definition with_pending_deposits (ds : list DepositInfo) (p : Pool) : Pool :=
  mkPool (p_store p) (p_state p) (p_shared_block p) (p_current_tip p) (p_pending p) (p_mem_block p)
    ds (p_pending_restored_tx_hashes p) (p_sync_server p) (p_cycles_pool p).
Definition with_sync_server (s : option BlockSyncServerState) (p : Pool) : Pool :=
  mkPool (p_store p) (p_state p) (p_shared_block p) (p_current_tip p) (p_pending p) (p_mem_block p)
    (p_pending_deposits p) (p_pending_restored_tx_hashes p) s (p_cycles_pool p).
Definition with_cycles_pool (c : CyclesPool) (p : Pool) : Pool :=
  mkPool (p_store p) (p_state p) (p_shared_block p) (p_current_tip p) (p_pending p) (p_mem_block p)
    (p_pending_deposits p) (p_pending_restored_tx_hashes p) (p_sync_server p) c.

(** ** Calls on the parts of the pool *)
Section Calls.
Context {E : Type}.
Local Abbreviation M := (ST PoolWorld E).
Definition on_pool_state {A} (m : ST StDB E A) : M A := λ w,
  let (r, st) := m (pw_state w) in (r, mkPoolWorld (pw_pool w) (pw_db w) st).
Definition on_pool_db {A} (m : ST StoreDb E A) : M A := λ w,
  let (r, db) := m (pw_db w) in (r, mkPoolWorld (pw_pool w) db (pw_state w)).
Definition pool_gets {A} (f : Pool → A) : M A := gets (λ w, f (pw_pool w)).
Definition pool_modify (f : Pool → Pool) : M unit := modify (λ w,
  mkPoolWorld (f (pw_pool w)) (pw_db w) (pw_state w)).
Definition mem_block_modify (f : MemBlock → MemBlock) : M unit :=
  pool_modify (λ p, with_mem_block (f (p_mem_block p)) p).
(** A call on the block in the making that may panic *)
Definition mem_block_call (f : MemBlock → outcome E MemBlock) : M unit :=
  mb ← pool_gets p_mem_block; mb ← lift (f mb); mem_block_modify (λ _, mb).
(** [self.pending.entry(id).or_default()], then a change of the entry *)
Definition pending_entry (id : Z) (f : EntryList → EntryList) : M unit :=
  pool_modify (λ p, with_pending (<[id := f (default entry_default (p_pending p !! id))]> (p_pending p)) p).
End Calls.
Definition entry_push_tx (tx : L2Transaction) (e : EntryList) : EntryList :=
  mkEntryList (el_txs e ++ [tx]) (el_withdrawals e).
Definition entry_push_withdrawal (w : WithdrawalRequestExtra) (e : EntryList) : EntryList :=
  mkEntryList (el_txs e) (el_withdrawals e ++ [w]).

(** [L2Block::default()] *)
Definition L2Block_default : L2Block :=
  mkL2Block (mkRawL2Block 0 [] h256_zero h256_zero 0 no_account no_account []
               (mkSubmitWithdrawals h256_zero 0) (mkSubmitTransactions h256_zero 0 h256_zero))
    [] [] [] [] [].

(** [if let Err(err) = m { log; continue }] *)
Definition attempt {S E E' A} (m : ST S E A) : ST S E' (option A) := λ s,
  match m s with
  | (Ok a, s) => (Ok (Some a), s)
  | (Err _, s) => (Ok None, s)
  | (Panic, s) => (Panic, s)
  end.

Section PoolOps.
Context {Mac : Type} `{Machine Mac}.
Context `{Blake2b, Molecule, ExtraCodec, ContractArgs, SubstrateBn, SyscallCodec, MapIter, HashCodec, SmtRoot}.
Context `{CkbTypes, CustodianCodec, Keccak256, EthAbi, Rlp, Wallet, CreatorCodec}.
Context `{PendingIter, ColumnIter, MemPoolProvider}.
Context (env : PoolEnv).
Local Abbreviation P := (ST PoolWorld PoolError).
Local Abbreviation g := (pe_generator env).
Local Abbreviation ctx := (g_rollup_context g).
Local Abbreviation config := (pe_config env).
Local Abbreviation state_call m := (on_pool_state (st_map_err PoolState m)).
Local Abbreviation gen_call m := (on_pool_state (st_map_err PoolGen m)).

Definition is_mem_txs_full (p : Pool) (expect_slots : Z) : bool :=
  Z.of_nat (mbc_max_txs config) <? saturating_add 64 (Z.of_nat (length (mb_txs (p_mem_block p)))) expect_slots.

(** ** Transactions *)
Definition allowlist_error (e : AllowlistError) : PoolError :=
  match e with
  | PermissionDenied id => InvalidContractCreatorAccount id
  | AllowlistCommon e => PoolState e
  | AllowlistScriptHashNotFound => CreatorScriptHashNotFound
  end.
(** [generator.execute_transaction(.., Some(cycles_pool)).map_err(|err| { state.revert(snap).unwrap(); err })] *)
Definition execute_in_pool (view : ChainView) (info : BlockInfo) (raw_tx : RawL2Transaction) (snap : Z) :
    P RunResult := λ w,
  let p := pw_pool w in
  let '(r, (st, pool)) :=
    execute_transaction (Mac:=Mac) g info raw_tx None (pw_state w, Some (p_cycles_pool p)) in
  let p := with_cycles_pool (default (p_cycles_pool p) pool) p in
  match r with
  | Ok result => (Ok result, mkPoolWorld p (pw_db w) st)
  | Panic => (Panic, mkPoolWorld p (pw_db w) st)
  | Err e =>
      match j_revert snap st with
      | (Ok _, st) => (Err (PoolRun e), mkPoolWorld p (pw_db w) st)
      | (_, st) => (Panic, mkPoolWorld p (pw_db w) st)
      end
  end.
Definition publish_tx (tx : L2Transaction) : P unit :=
  server ← pool_gets p_sync_server;
  match server with
  | Some s => s ← lift (publish_transaction tx s); pool_modify (with_sync_server (Some s))
  | None => mret tt
  end.
(** Execute tx & update local state *)
Definition execute_tx (tx : L2Transaction) : P TxReceipt :=
  tip_block_hash ← on_pool_db get_tip_block_hash;
  db ← gets pw_db;
  let chain_view := snapshot_view db tip_block_hash in
  block_info ← pool_gets (λ p, mb_block_info (p_mem_block p));
  let raw_tx := tx_raw tx in
  (match pe_creator_allowlist env with
   | Some allow => on_pool_state (st_map_err allowlist_error (validate_with_state allow raw_tx))
   | None => mret tt
   end) ;;
  snap ← state_call j_snapshot;
  run_result ← execute_in_pool chain_view block_info raw_tx snap;
  (if negb (sudt_proxy_validate (pe_sudt_proxy_allowlist env) run_result (tx_from_id raw_tx)) then
     state_call (j_revert snap) ;;
     lift (Err (InvalidSUDTProxyCreatorAccount (tx_from_id raw_tx)))
   else mret tt) ;;
  state_call j_finalise ;;
  merkle_state ← gen_call calculate_merkle_state;
  let tx_receipt := build_receipt (tx_witness_hash tx) run_result merkle_state in
  publish_tx tx ;;
  mret tx_receipt.

Definition push_transaction_with_db (tx : L2Transaction) : P unit :=
  let hash := tx_hash tx in
  mem_block ← pool_gets p_mem_block;
  lift (reject_if (bool_decide (hash ∈ mb_txs_set mem_block)) DuplicatedTx) ;;
  lift (reject_if (mbc_max_txs config <=? length (mb_txs mem_block))%nat MemBlockFull) ;;
  polyjuice_creator_id ← state_call (get_polyjuice_creator_id g);
  gen_call (verify_transaction g polyjuice_creator_id tx (bi_number (mb_block_info mem_block))) ;;
  gen_call (check_transaction_signature g tx) ;;
  tx_receipt ← execute_tx tx;
  (match pe_account_creator env with
   | Some _ =>
       found ← on_pool_state (attempt (filter_new_address (tr_logs tx_receipt)));
       match found with
       | Some (Some new_addresses) => mem_block_modify (append_new_addresses new_addresses)
       | _ => mret tt
       end
   | None => mret tt
   end) ;;
  mem_block_modify (push_tx hash (tr_post_state tx_receipt)) ;;
  on_pool_db (insert_mem_pool_transaction_receipt hash tx_receipt) ;;
  on_pool_db (insert_mem_pool_transaction hash tx) ;;
  pending_entry (tx_from_id (tx_raw tx)) (entry_push_tx tx).

(** A call within [begin_transaction] and [commit], on a copy of the shared state
    that is stored when the call succeeds *)
Definition push_transaction (tx : L2Transaction) (p : Pool) : outcome PoolError unit * Pool :=
  match push_transaction_with_db tx (mkPoolWorld p (p_store p) (p_state p)) with
  | (Ok _, w) => (Ok tt, with_state (pw_state w) (with_store (pw_db w) (pw_pool w)))
  | (r, w) => (r, pw_pool w)
  end.

(** ** Withdrawals *)
Definition add_finalized_deposit (c : FinalizedCustodianCapacity) (i : DepositInfo) :
    outcome PoolError FinalizedCustodianCapacity :=
  let d := di_request i in
  capacity ← add_w 128 (fc_capacity c) (dr_capacity d);
  let c := with_capacity capacity c in
  if 0 <? dr_amount d
  then unwrap (checked_add_sudt (dr_sudt_script_hash d) (dr_amount d) (dr_script d) c)
  else Ok c.
Fixpoint add_finalized_blocks (numbers : list Z) (c : FinalizedCustodianCapacity) :
    ST StoreDb PoolError FinalizedCustodianCapacity :=
  match numbers with
  | [] => mret c
  | n :: numbers =>
      found ← get_block_deposit_info_vec n;
      finalizing_deposits ← lift (ok_or DepositsNotFound found);
      c ← lift (foldM add_finalized_deposit c finalizing_deposits);
      add_finalized_blocks numbers c
  end.
Definition collect_from_snapshot (tip_hash : H256) (tip_number : Z) :
    ST StoreDb PoolError FinalizedCustodianCapacity :=
  found ← get_block tip_hash;
  block ← lift (ok_or LastBlockNotFound found);
  found ← get_block_post_finalized_custodian_capacity tip_number;
  c ← lift (ok_or LastCustodiansNotFound found);
  snap ← gets (λ db, db);
  range ← lift (unwrap (calc_finalizing_range (rollup_config ctx) (fork_config ctx) (chain_db snap) block));
  '(from, to) ← lift (map_err PoolRange range);
  add_finalized_blocks (range_list from to) c.
Definition collect_finalized_custodian_capacity (p : Pool) : outcome PoolError FinalizedCustodianCapacity :=
  let '(tip_hash, tip_number, _) := p_current_tip p in
  if tip_number =? 0 then Ok no_capacity
  else (collect_from_snapshot tip_hash tip_number (p_store p)).1.

(** [MemPool::verify_withdrawal_request], on a copy of the shared state *)
Definition pool_verify_withdrawal_request (withdrawal : WithdrawalRequestExtra) (p : Pool) : ST StDB PoolError unit :=
  st_map_err PoolGen (check_withdrawal_signature g withdrawal) ;;
  finalized_custodian_capacity ← lift (collect_finalized_custodian_capacity p);
  withdrawal_generator ← lift (map_err PoolWithdrawal (WGenerator_new ctx finalized_custodian_capacity));
  lift (map_err PoolWithdrawal (verify_remained_amount withdrawal_generator (we_request withdrawal))) ;;
  asset_script ← lift (get_asset_script (w_sudt_script_hash (extra_raw withdrawal)) (p_store p)).1;
  st_map_err PoolGen
    (verify_withdrawal_request g withdrawal asset_script (bi_number (mb_block_info (p_mem_block p)))).
Definition push_withdrawal_request (withdrawal : WithdrawalRequestExtra) (p : Pool) : outcome PoolError unit * Pool :=
  let hash := withdrawal_hash (we_request withdrawal) in
  if bool_decide (hash ∈ mb_withdrawals_set (p_mem_block p)) then (Err DuplicatedWithdrawal, p) else
  match (pool_verify_withdrawal_request withdrawal p ;;
         id ← st_map_err PoolState (get_account_id_by_script_hash (w_account_script_hash (extra_raw withdrawal)));
         lift (unwrap id)) (p_state p) with
  | (Ok account_id, _) =>
      let entry := default entry_default (p_pending p !! account_id) in
      let p := with_pending (<[account_id := entry_push_withdrawal withdrawal entry]> (p_pending p)) p in
      (Ok tt, with_store (insert_mem_pool_withdrawal (E:=PoolError) hash withdrawal (p_store p)).2 p)
  | (Err e, _) => (Err e, p)
  | (Panic, _) => (Panic, p)
  end.

(** ** Executing withdrawals and deposits on a new tip *)
(** [HashSet::drain], in some order *)
Definition set_iter (s : gset H256) : list H256 := (map_iter (gset_to_gmap tt s)).*1.
(** [state.state_tracker().unwrap().touched_keys().lock().unwrap().drain().collect()] *)
Definition drain_touched_keys {E} : ST StDB E (list H256) := λ st,
  match state_tracker st with
  | None => (Panic, st)
  | Some t => (Ok (set_iter (touched_keys t)),
               set_state_tracker (mkStateTracker ∅ (write_data t) (read_data t)) st)
  end.
Definition drop_tracker {E} : ST StDB E unit := modify (λ st, (j_take_state_tracker st).2).

Definition record_withdrawal (withdrawal : WithdrawalRequestExtra) : P unit :=
  let hash := withdrawal_hash (we_request withdrawal) in
  state_call j_finalise ;;
  post_state ← gen_call calculate_merkle_state;
  id ← state_call (get_account_id_by_script_hash (w_account_script_hash (extra_raw withdrawal)));
  account_id ← lift (unwrap id);
  pending_entry account_id (λ e, e) ;;
  entry ← pool_gets (λ p, default entry_default (p_pending p !! account_id));
  (if bool_decide (withdrawal ∈ el_withdrawals entry) then mret tt else
     pending_entry account_id (entry_push_withdrawal withdrawal) ;;
     on_pool_db (insert_mem_pool_withdrawal hash withdrawal)) ;;
  touched_keys ← on_pool_state drain_touched_keys;
  mem_block_call (push_withdrawal hash post_state touched_keys).
(** One round of the loop; the custodians left afterwards *)
Definition finalize_withdrawal (asset_scripts : gmap H256 Script) (withdrawal_verifier : WGenerator)
    (withdrawal : WithdrawalRequestExtra) : P WGenerator :=
  signed ← on_pool_state (attempt (check_withdrawal_signature g withdrawal));
  match signed with
  | None => mret withdrawal_verifier
  | Some _ =>
      block_number ← pool_gets (λ p, bi_number (mb_block_info (p_mem_block p)));
      verified ← on_pool_state (attempt
        (verify_withdrawal_request g withdrawal
           (asset_scripts !! w_sudt_script_hash (extra_raw withdrawal)) block_number));
      match verified with
      | None => mret withdrawal_verifier
      | Some _ =>
          match include_and_verify ctx withdrawal L2Block_default withdrawal_verifier with
          | (Panic, _) => lift Panic
          | (Err _, withdrawal_verifier) => mret withdrawal_verifier
          | (Ok _, withdrawal_verifier) =>
              snap ← state_call j_snapshot;
              producer ← pool_gets (λ p, mb_block_producer (p_mem_block p));
              applied ← on_pool_state (attempt
                (apply_withdrawal_request ctx producer (we_request withdrawal)));
              (match applied with
               | Some _ => record_withdrawal withdrawal
               | None => state_call (j_revert snap)
               end) ;;
              mret withdrawal_verifier
          end
      end
  end.
Fixpoint finalize_each_withdrawal (asset_scripts : gmap H256 Script) (withdrawals : list WithdrawalRequestExtra)
    (withdrawal_verifier : WGenerator) : P WGenerator :=
  match withdrawals with
  | [] => mret withdrawal_verifier
  | withdrawal :: withdrawals =>
      withdrawal_verifier ← finalize_withdrawal asset_scripts withdrawal_verifier withdrawal;
      finalize_each_withdrawal asset_scripts withdrawals withdrawal_verifier
  end.
(** The assertions of [finalize_withdrawals] *)
Definition nothing_packaged (mb : MemBlock) : bool :=
  bool_decide (mb_withdrawals mb = []) && bool_decide (mb_state_checkpoints mb = [])
  && bool_decide (length (mb_deposits mb) = 0%nat)
  && capacity_is_empty (mb_finalized_custodian_capacity mb) && bool_decide (mb_txs mb = []).
Definition finalize_withdrawals (withdrawals : list WithdrawalRequestExtra) : P unit :=
  mb ← pool_gets p_mem_block;
  lift (assert_that (nothing_packaged mb)) ;;
  p ← pool_gets (λ p, p);
  finalized_custodians ← lift (collect_finalized_custodian_capacity p);
  let asset_scripts : gmap H256 Script :=
    list_to_map (reverse ((λ s, (script_hash s, s)) ∘ snd <$> (map_iter (fc_sudt finalized_custodians)).*2)) in
  withdrawal_verifier ← lift (map_err PoolWithdrawal (WGenerator_new ctx finalized_custodians));
  on_pool_state (modify (j_set_state_tracker no_tracker)) ;;
  withdrawal_verifier ← finalize_each_withdrawal asset_scripts withdrawals withdrawal_verifier;
  on_pool_state drop_tracker ;;
  remaining ← lift (map_err PoolWithdrawal (remaining_capacity withdrawal_verifier));
  mem_block_call (set_finalized_custodian_capacity remaining).

Fixpoint apply_deposits (deposits : list DepositRequest) : P (list AccountMerkleState * list (list H256)) :=
  match deposits with
  | [] => mret ([], [])
  | deposit :: deposits =>
      gen_call (apply_deposit_request ctx deposit) ;;
      touched_keys ← on_pool_state drain_touched_keys;
      state_call j_finalise ;;
      post_state ← gen_call calculate_merkle_state;
      '(post_states, touched_keys_vec) ← apply_deposits deposits;
      mret (post_state :: post_states, touched_keys :: touched_keys_vec)
  end.
Definition finalize_deposits (deposit_cells : list DepositInfo) : P unit :=
  on_pool_state (modify (j_set_state_tracker no_tracker)) ;;
  '(post_states, touched_keys_vec) ← apply_deposits (di_request <$> deposit_cells);
  on_pool_state drop_tracker ;;
  prev_state_checkpoint ← state_call calculate_state_checkpoint;
  mem_block_call (push_deposits deposit_cells post_states touched_keys_vec prev_state_checkpoint).

(** *** [prepare_next_mem_block] *)
(** [retain] with a predicate that reads the state and must not fail *)
Fixpoint retain {A} (f : A → ST StDB StateError.t bool) (l : list A) : P (list A) :=
  match l with
  | [] => mret []
  | a :: l =>
      keep ← on_pool_state (st_expect (f a));
      l ← retain f l;
      mret (if (keep : bool) then a :: l else l)
  end.
Definition filter_tx (tx : L2Transaction) : ST StDB StateError.t bool :=
  nonce ← get_nonce (tx_from_id (tx_raw tx)); mret (nonce <=? tx_nonce (tx_raw tx)).
(** The assertion on the order of the transactions of one account *)
Fixpoint check_order (txs : list L2Transaction) (id_to_nonce : gmap Z Z) : outcome PoolError unit :=
  match txs with
  | [] => Ok tt
  | tx :: txs =>
      let id := tx_from_id (tx_raw tx) in
      let nonce := tx_nonce (tx_raw tx) in
      match id_to_nonce !! id with
      | Some prev_nonce => assert_that (prev_nonce <? nonce) ;; check_order txs id_to_nonce
      | None => check_order txs (<[id := nonce]> id_to_nonce)
      end
  end.
Fixpoint reinject_txs (txs : list L2Transaction) : P unit :=
  match txs with
  | [] => mret tt
  | tx :: txs => attempt (push_transaction_with_db tx) ;; reinject_txs txs
  end.
Definition prepare_next_mem_block (withdrawals : list WithdrawalRequestExtra) (deposit_cells : list DepositInfo)
    (txs : list L2Transaction) : P unit :=
  txs ← retain filter_tx txs;
  lift (check_order txs ∅) ;;
  finalize_withdrawals withdrawals ;;
  finalize_deposits deposit_cells ;;
  server ← pool_gets p_sync_server;
  (match server with
   | Some s =>
       info ← pool_gets (λ p, mb_block_info (p_mem_block p));
       pool_modify (with_sync_server (Some
         (publish_next_mem_block (mkNextMemBlock deposit_cells withdrawals info) s)))
   | None => mret tt
   end) ;;
  reinject_txs txs.

(** ** Pending requests *)
Definition filter_withdrawals (withdrawal : WithdrawalRequestExtra) : ST StDB StateError.t bool :=
  o ← get_account_id_by_script_hash (w_account_script_hash (extra_raw withdrawal));
  id ← lift (unwrap o);
  nonce ← get_nonce id;
  mret (nonce <=? w_nonce (extra_raw withdrawal)).
Fixpoint package_pending (entries : list EntryList) (withdrawals : list WithdrawalRequestExtra) :
    P (list WithdrawalRequestExtra) :=
  match entries with
  | [] => mret withdrawals
  | entry :: entries =>
      match head (el_withdrawals entry) with
      | None => package_pending entries withdrawals
      | Some withdrawal =>
          keep ← on_pool_state (st_expect (filter_withdrawals withdrawal));
          let withdrawals := if (keep : bool) then withdrawals ++ [withdrawal] else withdrawals in
          if (mbc_max_withdrawals config <=? length withdrawals)%nat then mret withdrawals
          else package_pending entries withdrawals
      end
  end.
Definition try_package_more_withdrawals (withdrawals : list WithdrawalRequestExtra) :
    P (list WithdrawalRequestExtra) :=
  withdrawals ← retain filter_withdrawals withdrawals;
  if (length withdrawals <? mbc_max_withdrawals config)%nat then
    pending ← pool_gets p_pending;
    package_pending (pending_iter pending).*2 withdrawals
  else mret withdrawals.

(** One account of the loop of [remove_unexecutables]; whether its list is empty *)
Definition remove_stale (account_id : Z) (e : EntryList) : P bool :=
  nonce ← state_call (get_nonce account_id);
  let '(deprecated_txs, e) := remove_lower_nonce_txs nonce e in
  pending_entry account_id (λ _, e) ;;
  st_for deprecated_txs (λ tx, on_pool_db (remove_mem_pool_transaction (tx_hash tx))) ;;
  sh ← state_call (get_script_hash account_id);
  e ←
    (match head (el_withdrawals e) with
     | Some first =>
         o ← state_call (get_registry_address_by_script_hash (w_registry_id (extra_raw first)) sh);
         addr ← lift (unwrap o);
         balance ← state_call (get_sudt_balance CKB_SUDT_ACCOUNT_ID addr);
         '(deprecated_withdrawals, e) ←
           lift (remove_lower_nonce_withdrawals nonce (CKBCapacity_from_layer2 balance) e);
         pending_entry account_id (λ _, e) ;;
         st_for deprecated_withdrawals (λ w,
           on_pool_db (remove_mem_pool_withdrawal (withdrawal_hash (we_request w)))) ;;
         mret e
     | None => mret e
     end);
  mret (entry_is_empty e).
Fixpoint remove_each_stale (entries : list (Z * EntryList)) : P (list Z) :=
  match entries with
  | [] => mret []
  | (account_id, e) :: entries =>
      empty ← remove_stale account_id e;
      remove_list ← remove_each_stale entries;
      mret (if (empty : bool) then account_id :: remove_list else remove_list)
  end.
Definition remove_unexecutables : P unit :=
  pending ← pool_gets p_pending;
  remove_list ← remove_each_stale (pending_iter pending);
  pool_modify (λ p, with_pending (foldr delete (p_pending p) remove_list) p).

(** ** A new tip *)
(** [MemStateDB::from_store]; the code opens the tree at the root of the block, whose
    leaves are those the store keeps ([tree_at_tip] in [PoolProps.v]). *)
Definition open_mem_state {E} : ST StoreDb E StDB :=
  block ← get_last_valid_tip_block;
  db ← gets (λ db, db);
  let tip_state := post_account (block_raw block) in
  let history := sd_account_history db in
  let inner := mkMemStateTree (sd_account_tree db) (am_count tip_state) (col_script history) (col_data history) in
  lift (match StateDB_new inner with Ok st => Ok st | _ => Panic end).

(** What leaves the chain between two tips, and what is in it now *)
Record Reorg := mkReorg {
  ro_discarded_txs : list L2Transaction; ro_included_txs : list L2Transaction;
  ro_discarded_withdrawals : list WithdrawalRequestExtra; ro_included_withdrawals : list WithdrawalRequest;
}.
Definition no_reorg : Reorg := mkReorg [] [] [] [].
Definition discard (txs : list L2Transaction) (ws : list WithdrawalRequestExtra) (r : Reorg) : Reorg :=
  mkReorg (txs ++ ro_discarded_txs r) (ro_included_txs r) (ws ++ ro_discarded_withdrawals r)
    (ro_included_withdrawals r).
Definition include (txs : list L2Transaction) (ws : list WithdrawalRequest) (r : Reorg) : Reorg :=
  mkReorg (ro_discarded_txs r) (ro_included_txs r ++ txs) (ro_discarded_withdrawals r)
    (ro_included_withdrawals r ++ ws).
Definition parent_block (b : L2Block) : ST StoreDb PoolError L2Block :=
  st_unwrap (get_block (parent_block_hash (block_raw b))).
Fixpoint block_withdrawals_by_key (hash : H256) (index : nat) (ws : list WithdrawalRequest) :
    ST StoreDb PoolError (list WithdrawalRequestExtra) :=
  match ws with
  | [] => mret []
  | w :: ws =>
      extra ← st_unwrap (get_withdrawal_by_key (build_item_key hash (Z.of_nat index mod 2 ^ 32)));
      lift (assert_that (bool_decide (w = we_request extra))) ;;
      extras ← block_withdrawals_by_key hash (S index) ws;
      mret (extra :: extras)
  end.
(** [while rem.number > add.number]; [None] when the fuel is used up *)
Fixpoint walk_rem (fuel : nat) (target : Z) (rem : L2Block) (r : Reorg) :
    ST StoreDb PoolError (option (L2Block * Reorg)) :=
  if block_number rem <=? target then mret (Some (rem, r)) else
  match fuel with
  | O => mret None
  | S fuel =>
      ws ← block_withdrawals_by_key (block_hash rem) 0 (block_withdrawals rem);
      parent ← parent_block rem;
      walk_rem fuel target parent (discard (block_transactions rem) ws r)
  end.
(** [while add.number > rem.number] *)
Fixpoint walk_add (fuel : nat) (rem add : L2Block) (r : Reorg) :
    ST StoreDb PoolError (option (L2Block * Reorg)) :=
  if block_number add <=? block_number rem then mret (Some (add, r)) else
  match fuel with
  | O => mret None
  | S fuel =>
      parent ← parent_block add;
      walk_add fuel rem parent (include (block_transactions add) (block_withdrawals rem) r)
  end.
(** [while rem.hash() != add.hash()] *)
Fixpoint walk_both (fuel : nat) (rem add : L2Block) (r : Reorg) : ST StoreDb PoolError (option Reorg) :=
  if bool_decide (block_hash rem = block_hash add) then mret (Some r) else
  match fuel with
  | O => mret None
  | S fuel =>
      ws ← mapM (λ w, st_unwrap (get_withdrawal (withdrawal_hash w))) (block_withdrawals rem);
      rem_parent ← parent_block rem;
      add_parent ← parent_block add;
      walk_both fuel rem_parent add_parent
        (include (block_transactions add) (block_withdrawals add) (discard (block_transactions rem) ws r))
  end.
(** The candidates for injecting again; the distance of the tips is at most 64, so that is the
    fuel of the first two walks, and the third ends at the genesis block at the
    latest. *)
Definition reorg_candidates (old_tip_block new_tip_block : L2Block) :
    ST StoreDb PoolError (option (list L2Transaction * list WithdrawalRequestExtra)) :=
  let new_number := block_number new_tip_block in
  let old_number := block_number old_tip_block in
  let depth := Z.max new_number old_number - Z.min new_number old_number in
  if 64 <? depth then mret (Some ([], []))
  else
    walked ← walk_rem (Z.to_nat depth) new_number old_tip_block no_reorg;
    match walked with
    | None => mret None
    | Some (rem, r) =>
        walked ← walk_add (Z.to_nat depth) rem new_tip_block r;
        match walked with
        | None => mret None
        | Some (add, r) =>
            walked ← walk_both (S (Z.to_nat (block_number rem))) rem add r;
            mret ((λ r, (filter (λ tx, tx ∉ ro_included_txs r) (ro_discarded_txs r),
                         filter (λ w, we_request w ∉ ro_included_withdrawals r) (ro_discarded_withdrawals r)))
                  <$> walked)
        end
    end.

Local Abbreviation R := (ST Pool PoolError).
(** Reads of the store *)
Definition on_store {A} (m : ST StoreDb PoolError A) : R A := λ p, ((m (p_store p)).1, p).
(** [if let Some(x) = db.get(h)? { xs.push(x) }] for each hash *)
Fixpoint collect_found {A} (get : H256 → ST StoreDb PoolError (option A)) (hashes : list H256) :
    ST StoreDb PoolError (list A) :=
  match hashes with
  | [] => mret []
  | h :: hashes =>
      found ← get h;
      rest ← collect_found get hashes;
      mret (match found with Some a => a :: rest | None => rest end)
  end.
Definition refresh_deposit_cells (new_block_hash : H256) (local_cells_manager : LocalCellsManager) : R unit := λ p,
  match (get_account_count (p_state p)).1 with
  | Err e => (Err (PoolState e), p)
  | Panic => (Panic, p)
  | Ok _ =>
      (found ← on_store (get_block new_block_hash);
       lift (ok_or NewTipNotFound found) ;;
       cells ← lift (ok_or ProviderFailed (collect_deposit_cells local_cells_manager));
       match (sanitize_deposit_cells ctx (mbc_deposit_timeout_config config) cells (p_state p)).1 with
       | Ok deposits => modify (with_pending_deposits deposits)
       | _ => lift Panic
       end) p
  end.
Definition estimated_timestamp (new_tip_block : L2Block) : Z :=
  let tip_timestamp := timestamp (block_raw new_tip_block) in
  match estimate_next_blocktime with
  | Some e => if e <=? tip_timestamp then tip_timestamp + 1000 else e
  | None => tip_timestamp + 1000
  end.
(** Work with a database transaction and a state, both stored when it succeeds *)
Definition with_world {A} (state : StDB) (info : BlockInfo) (m : P A) : R A := λ p,
  match m (mkPoolWorld p (p_store p) state) with
  | (Ok a, w) => (Ok a, with_store (pw_db w) (with_shared (pw_state w) (Some info) (pw_pool w)))
  | (r, w) => (r, pw_pool w)
  end.
Definition unlimited_cycles : CyclesPool := CyclesPool_new u64_max default_syscall_cycles.
Definition create_accounts (new_addresses : list RegistryAddress) : P unit :=
  match pe_account_creator env with
  | None => mret tt
  | Some account_creator =>
      built ← on_pool_state (attempt (build_batch_create_tx account_creator new_addresses));
      match built with
      | Some (Some (tx, next_batch)) =>
          mem_block_modify (append_new_addresses next_batch) ;;
          attempt (push_transaction_with_db tx) ;;
          mret tt
      | _ => mret tt
      end
  end.
(** From the removal of what can no longer be executed to the last transaction *)
Definition rebuild_mem_block (recovery : bool) (txs : list L2Transaction)
    (reinject_withdrawals mem_block_withdrawals : list WithdrawalRequestExtra)
    (new_addresses : list RegistryAddress) : P unit :=
  remove_unexecutables ;;
  withdrawals ← (if recovery then mret (reinject_withdrawals ++ mem_block_withdrawals)
                 else try_package_more_withdrawals reinject_withdrawals);
  pool_modify (with_cycles_pool unlimited_cycles) ;;
  deposits ← pool_gets p_pending_deposits;
  prepare_next_mem_block withdrawals deposits txs ;;
  create_accounts new_addresses ;;
  cycles_pool ← pool_gets p_cycles_pool;
  used_cycles ← lift (cycles_used cycles_pool);
  pool_modify (with_cycles_pool
    (consume_cycles used_cycles (CyclesPool_new (mbc_max_cycles_limit config) (mbc_syscall_cycles config))).2).
Definition choose_tip (new_tip : option H256) : R (H256 * L2Block) :=
  new_tip ← (match new_tip with Some h => mret h | None => on_store get_last_valid_tip_block_hash end);
  new_tip_block ← on_store (st_unwrap (get_block new_tip));
  mret (new_tip, new_tip_block).
Definition set_tip (new_tip : H256) (new_tip_block : L2Block) : R unit :=
  new_tip_global_state ← on_store (st_unwrap (get_block_post_global_state new_tip));
  modify (with_current_tip (new_tip, block_number new_tip_block, new_tip_global_state)).
Definition reset_mem_block_on (tip : L2Block) (t : Z) : R MemBlockContent :=
  mb ← gets p_mem_block;
  '(content, mb) ← lift (mem_block_reset tip t mb);
  modify (with_mem_block mb) ;;
  mret content.

Definition reset_full (old_tip new_tip : option H256) (local_cells_manager : LocalCellsManager) : R unit :=
  '(new_tip, new_tip_block) ← choose_tip new_tip;
  '(reinject_txs, reinject_withdrawals) ←
    (match old_tip with
     | Some old_tip =>
         if bool_decide (old_tip = parent_block_hash (block_raw new_tip_block)) then mret ([], [])
         else
           old_tip_block ← on_store (st_unwrap (get_block old_tip));
           o ← on_store (reorg_candidates old_tip_block new_tip_block);
           lift (unwrap o)
     | None => mret ([], [])
     end);
  let is_mem_pool_recovery := bool_decide (old_tip = None) in
  (if is_mem_pool_recovery then mret tt else refresh_deposit_cells new_tip local_cells_manager) ;;
  snap_last_valid_tip ← on_store get_last_valid_tip_block_hash;
  lift (assert_that (bool_decide (snap_last_valid_tip = new_tip))) ;;
  content ← reset_mem_block_on new_tip_block (estimated_timestamp new_tip_block);
  set_tip new_tip new_tip_block ;;
  mem_block_withdrawals ← on_store (collect_found get_mem_pool_withdrawal (mc_withdrawals content));
  mem_block_txs ← on_store (collect_found get_mem_pool_transaction (mc_txs content));
  state_db ← on_store open_mem_state;
  info ← gets (λ p, mb_block_info (p_mem_block p));
  with_world state_db info
    (rebuild_mem_block is_mem_pool_recovery (reinject_txs ++ mem_block_txs) reinject_withdrawals
       mem_block_withdrawals (mc_new_addresses content)).
Definition notify_new_tip (new_tip : H256) (local_cells_manager : LocalCellsManager) : R unit :=
  '(tip, _, _) ← gets p_current_tip;
  if negb (bool_decide (tip = new_tip)) then reset_full (Some tip) (Some new_tip) local_cells_manager else mret tt.
Definition reset_mem_block (local_cells_manager : LocalCellsManager) : R unit :=
  '(tip, _, _) ← gets p_current_tip;
  reset_full (Some tip) (Some tip) local_cells_manager.

(** ** Read-only nodes *)
Definition reset_read_only (new_tip : option H256) (update_state : bool) : R unit :=
  '(new_tip, new_tip_block) ← choose_tip new_tip;
  set_tip new_tip new_tip_block ;;
  if update_state then
    reset_mem_block_on new_tip_block 0 ;;
    state_db ← on_store open_mem_state;
    modify (λ p, with_shared state_db (Some (mb_block_info (p_mem_block p))) p)
  else mret tt.
Definition refresh_mem_block (block_info : BlockInfo) (withdrawals : list WithdrawalRequestExtra)
    (deposits : list DepositInfo) : R (option Z) :=
  let next_block_number := bi_number block_info in
  '(_, current_tip_block_number, _) ← gets p_current_tip;
  if next_block_number <=? current_tip_block_number then mret (Some current_tip_block_number) else
  expected ← lift (add_w 64 current_tip_block_number 1);
  if negb (next_block_number =? expected) then mret None else
  tip_block ← on_store get_last_valid_tip_block;
  mb ← gets p_mem_block;
  mem_block_txs ← on_store (collect_found get_mem_pool_transaction (mb_txs mb));
  mb ← lift (MemBlock_new block_info (post_account (block_raw tip_block))
               (fork_enforce_state_checkpoint_list (fork_config ctx) next_block_number));
  modify (with_mem_block mb) ;;
  state ← on_store open_mem_state;
  with_world state (mb_block_info mb)
    (remove_unexecutables ;;
     pool_modify (with_cycles_pool unlimited_cycles) ;;
     withdrawals ← try_package_more_withdrawals withdrawals;
     prepare_next_mem_block withdrawals deposits mem_block_txs) ;;
  mret (Some next_block_number).

(** ** A node that starts *)
(** [CompactMemBlock], what [RestoreManager] keeps in a file *)
Record CompactMemBlock := mkCompactMemBlock {
  cm_txs : list H256; cm_withdrawals : list H256; cm_deposits : list DepositInfo;
  cm_new_addresses : list RegistryAddress;
}.
Definition pack_compact (mb : MemBlock) : CompactMemBlock :=
  mkCompactMemBlock (mb_txs mb) (mb_withdrawals mb) (mb_deposits mb) (mb_new_addresses mb).
(** [save_mem_block]: what is written *)
Definition save_mem_block (p : Pool) : CompactMemBlock * Pool :=
  let mb := match p_pending_restored_tx_hashes p with
            | [] => p_mem_block p
            | hashes => force_reinject_tx_hashes hashes (p_mem_block p)
            end in
  (pack_compact mb, with_mem_block mb p).

(** The withdrawals of the column, one [push_withdrawal_request] each; the hashes
    of those that are refused *)
Fixpoint restore_each_withdrawal (items : list (bytes * Entity)) : R (list H256) :=
  match items with
  | [] => mret []
  | (hash, value) :: items =>
      withdrawal ← lift (unwrap (as_withdrawal value));
      mb ← gets p_mem_block;
      if bool_decide (hash ∈ mb_withdrawals_set mb) then restore_each_withdrawal items else
      pushed ← attempt (push_withdrawal_request withdrawal);
      removed ← restore_each_withdrawal items;
      mret (match pushed with Some _ => removed | None => hash :: removed end)
  end.
Definition remove_from_store (remove : H256 → ST StoreDb PoolError unit) (hashes : list H256) : R unit :=
  modify (λ p, with_store (st_for hashes remove (p_store p)).2 p).
Definition restore_pending_withdrawals : R unit :=
  db ← gets p_store;
  removed ← restore_each_withdrawal (column_iter COLUMN_MEM_POOL_WITHDRAWAL (sd_columns db));
  remove_from_store remove_mem_pool_withdrawal removed.
Definition remove_reinjected_failed_txs : R unit :=
  db ← gets p_store;
  p ← gets (λ p, p);
  remove_from_store remove_mem_pool_transaction
    (filter (λ h, (h ∉ mb_txs_set (p_mem_block p)) ∧ (h ∉ p_pending_restored_tx_hashes p))
       (column_iter COLUMN_MEM_POOL_TRANSACTION (sd_columns db)).*1).

(** [None] for [restored] when there is no file, or it cannot be read *)
Definition initial_pool (block_producer : RegistryAddress) (sync_server : option BlockSyncServerState)
    (restored : option CompactMemBlock) : ST StoreDb PoolError Pool :=
  tip_block ← get_last_valid_tip_block;
  tip_global_state ← st_unwrap (get_block_post_global_state (block_hash tip_block));
  let mb := with_block_producer block_producer in
  mb ← (match restored with
        | Some r =>
            mb ← lift (force_reinject_withdrawal_hashes (cm_withdrawals r) mb);
            mret (append_new_addresses (cm_new_addresses r) mb)
        | None => mret mb
        end);
  state_db ← open_mem_state;
  store ← gets (λ db, db);
  mret (mkPool store state_db None (block_hash tip_block, block_number tip_block, tip_global_state) ∅
          (clear_txs mb) (match restored with Some r => cm_deposits r | None => [] end)
          (match restored with Some r => cm_txs r | None => [] end) sync_server
          (CyclesPool_new (mbc_max_cycles_limit config) (mbc_syscall_cycles config))).
Definition MemPool_create (block_producer : RegistryAddress) (read_only : bool)
    (sync_server : option BlockSyncServerState) (restored : option CompactMemBlock) (store : StoreDb) :
    outcome PoolError Pool :=
  pool ← (initial_pool block_producer sync_server restored store).1;
  let '(r, pool) :=
    (restore_pending_withdrawals ;;
     remove_reinjected_failed_txs ;;
     modify (λ p, with_shared (p_state p) (Some (mb_block_info (p_mem_block p))) p) ;;
     '(tip_hash, _, _) ← gets p_current_tip;
     if read_only then reset_read_only (Some tip_hash) true
     else reset_full None (Some tip_hash) no_local_cells) pool in
  r ;; Ok pool.
End PoolOps.
