(* ===== verification/PoolProps.v ===== *)
(** * What the memory pool keeps true

    After a successful reset, and after any transactions and withdrawals pushed since
    then, whether they were accepted or refused, the block in the making is a
    consistent record ([mem_block_ok]) on top of the tip, the state of the pool is the
    state its last item leads to, and the store holds every packaged transaction with
    the receipt of that state ([pool_keeps_mem_block]). *)
From Stdlib Require Import ZArith Lia Strings.Byte.
From stdpp Require Import prelude list gmap.
From S2P Require Import Prelude Bytes Types State StateSpec StateDB History Finality Ckb Eip712.
From S2P Require Import SubmitBlock RollupScript ChallengeLock NodeUtils NodeState AccountLocks Backends Syscalls Generator GeneratorProps BlockEffect FeeQueue Verifiers Store LocalCells BlockSyncServer ChallengeContext Chain ChainUpdater MemBlock WithdrawalCells TxSkeleton PoolParts Pool.
Local Open Scope Z_scope.

(** ** Runs that do not panic *)
Section Wp.
Context {S E : Type}.

(** [Q] after success, [R] after an error *)
Definition wp {A} (m : ST S E A) (Q : A → S → Prop) (R : S → Prop) (s : S) : Prop :=
  match m s with
  | (Ok a, s') => Q a s'
  | (Err _, s') => R s'
  | (Panic, _) => True
  end.

Lemma wp_bind {A B} (m : ST S E A) (f : A → ST S E B) Q R s :
  wp m (λ a s', wp (f a) Q R s') R s → wp (m ≫= f) Q R s.
Proof. unfold wp, mbind, ST_bind. by destruct (m s) as [[a|e|] s']. Qed.
Lemma wp_mono {A} (m : ST S E A) (Q Q' : A → S → Prop) (R R' : S → Prop) s :
  wp m Q R s → (∀ a s', Q a s' → Q' a s') → (∀ s', R s' → R' s') → wp m Q' R' s.
Proof. unfold wp. intros Hm HQ HR. destruct (m s) as [[a|e|] s']; auto. Qed.
Lemma wp_ret {A} (a : A) (Q : A → S → Prop) R s : Q a s → wp (mret a) Q R s.
Proof. done. Qed.
Lemma wp_lift {A} (m : outcome E A) (Q : A → S → Prop) (R : S → Prop) s :
  (∀ a, m = Ok a → Q a s) → R s → wp (lift m) Q R s.
Proof. unfold wp, lift. destruct m; auto. Qed.
Lemma wp_gets {A} (f : S → A) (Q : A → S → Prop) R s : Q (f s) s → wp (gets f) Q R s.
Proof. done. Qed.
Lemma wp_modify (f : S → S) (Q : () → S → Prop) R s : Q tt (f s) → wp (modify f) Q R s.
Proof. done. Qed.
(** Errors that cannot happen *)
Lemma wp_no_err {A} (m : outcome E A) (Q : A → S → Prop) (R : S → Prop) s :
  (∀ e, m ≠ Err e) → (∀ a, m = Ok a → Q a s) → wp (lift m) Q R s.
Proof. unfold wp, lift. destruct m; naive_solver. Qed.
End Wp.

Lemma wp_attempt {S E E' A} (m : ST S E A) (Q : option A → S → Prop) (R : S → Prop) s :
  wp m (λ a, Q (Some a)) (Q None) s → wp (E:=E') (attempt m) Q R s.
Proof. unfold wp, attempt. by destruct (m s) as [[a|e|] s']. Qed.
Lemma wp_map_err {S E E' A} (f : E → E') (m : ST S E A) Q R s : wp m Q R s → wp (st_map_err f m) Q R s.
Proof. unfold wp, st_map_err. by destruct (m s) as [[a|e|] s']. Qed.

(** ** Reading the state *)
Section Reads.
Context {S : Type} `{StateView S, MapIter, Blake2b}.
Implicit Types db : StateDB S.

(** A read changes the tracker at most. *)
Definition reads {E A} (m : ST (StateDB S) E A) : Prop :=
  ∀ db, view_ok (db_state db) → same_but_tracker db (m db).2.

Lemma same_refl db : same_but_tracker db db.
Proof. by repeat split. Qed.
Lemma same_trans db1 db2 db3 : same_but_tracker db1 db2 → same_but_tracker db2 db3 → same_but_tracker db1 db3.
Proof. unfold same_but_tracker. naive_solver congruence. Qed.

Lemma reads_bind {E A B} (m : ST (StateDB S) E A) (f : A → ST (StateDB S) E B) :
  reads m → (∀ a, reads (f a)) → reads (m ≫= f).
Proof.
  intros Hm Hf db Hok. unfold mbind, ST_bind. specialize (Hm db Hok).
  destruct (m db) as [[a|e|] db1]; cbn in *; [|done..]. eapply same_trans; [done|].
  apply Hf. by rewrite (proj1 Hm).
Qed.
Lemma reads_ret {E A} (a : A) : reads (E:=E) (mret a).
Proof. intros db _. apply same_refl. Qed.
Lemma reads_lift {E A} (m : outcome E A) : reads (lift m).
Proof. intros db _. apply same_refl. Qed.
Lemma reads_gets {E A} (f : StateDB S → A) : reads (E:=E) (gets f).
Proof. intros db _. apply same_refl. Qed.
Lemma reads_map_err {E E' A} (f : E → E') (m : ST (StateDB S) E A) : reads m → reads (st_map_err f m).
Proof. intros Hm db Hok. unfold st_map_err. specialize (Hm db Hok). by destruct (m db) as [[] ?]. Qed.
Lemma reads_attempt {E E' A} (m : ST (StateDB S) E A) : reads m → reads (E:=E') (attempt m).
Proof. intros Hm db Hok. unfold attempt. specialize (Hm db Hok). by destruct (m db) as [[] ?]. Qed.
Lemma reads_expect {E A} (m : ST (StateDB S) StateError.t A) : reads m → reads (E:=E) (st_expect m).
Proof. intros Hm db Hok. unfold st_expect. specialize (Hm db Hok). by destruct (m db) as [[] ?]. Qed.
Lemma reads_downcast {A} (m : ST (StateDB S) AnyError A) : reads m → reads (downcast_tx m).
Proof. intros Hm db Hok. unfold downcast_tx. specialize (Hm db Hok). by destruct (m db) as [[|[]|] ?]. Qed.
Lemma reads_get_raw k : reads (get_raw k).
Proof. intros db Hok. destruct (get_raw k db) as [r db'] eqn:E. by eapply get_raw_same. Qed.
Lemma reads_count : reads get_account_count.
Proof.
  intros db Hok. cbn. unfold db_get_account_count, inner. case_match; [apply same_refl|].
  rewrite view_get_account_count by done. by repeat split.
Qed.
Lemma reads_root : reads calculate_root.
Proof.
  intros db Hok. cbn. unfold db_calculate_root, inner. case_match; [apply same_refl|].
  rewrite view_calculate_root by done. by repeat split.
Qed.
End Reads.

Create HintDb reads.
#[export] Hint Resolve reads_ret reads_lift reads_gets reads_get_raw reads_count reads_root : reads.
Ltac read_only :=
  repeat first
    [ solve [eauto with reads]
    | apply reads_bind; [|intros]
    | apply reads_map_err | apply reads_attempt | apply reads_expect | apply reads_downcast
    | progress cbv zeta
    | case_match ].

Section ReadOperations.
Context {S : Type} `{StateView S, MapIter, Blake2b, Molecule, ExtraCodec, ContractArgs, CkbTypes}.
Context `{Keccak256, EthAbi, Rlp, Wallet, CreatorCodec}.

Lemma reads_get_value id key : reads (S:=S) (get_value id key).
Proof. unfold get_value. read_only. Qed.
Lemma reads_script_hash id : reads (S:=S) (get_script_hash id).
Proof. unfold get_script_hash. read_only. Qed.
Lemma reads_nonce id : reads (S:=S) (get_nonce id).
Proof. unfold get_nonce. read_only. Qed.
Lemma reads_id sh : reads (S:=S) (get_account_id_by_script_hash sh).
Proof. unfold get_account_id_by_script_hash. read_only. Qed.
Hint Resolve reads_get_value reads_script_hash reads_nonce reads_id : reads.
Lemma reads_balance id a : reads (S:=S) (get_sudt_balance id a).
Proof. unfold get_sudt_balance. read_only. Qed.
Lemma reads_hash_by_address a : reads (S:=S) (get_script_hash_by_registry_address a).
Proof. unfold get_script_hash_by_registry_address. read_only. Qed.
Lemma reads_address_by_hash r sh : reads (S:=S) (get_registry_address_by_script_hash r sh).
Proof. unfold get_registry_address_by_script_hash. read_only. Qed.
Lemma reads_checkpoint : reads (S:=S) calculate_state_checkpoint.
Proof. unfold calculate_state_checkpoint. read_only. Qed.
Lemma reads_merkle_state : reads (S:=S) calculate_merkle_state.
Proof. unfold calculate_merkle_state. read_only. Qed.
Hint Resolve reads_balance reads_hash_by_address reads_address_by_hash : reads.

Context (g : Generator).
Lemma reads_creator_id : reads (S:=S) (get_polyjuice_creator_id g).
Proof. unfold get_polyjuice_creator_id. read_only. Qed.
Lemma reads_tx_type raw_tx : reads (S:=S) (get_tx_type g raw_tx).
Proof. unfold get_tx_type. read_only. Qed.
Hint Resolve reads_tx_type : reads.
Lemma reads_verify_transaction c tx n : reads (S:=S) (verify_transaction g c tx n).
Proof. unfold verify_transaction. read_only. Qed.
Lemma reads_tx_signature tx : reads (S:=S) (check_transaction_signature g tx).
Proof. unfold check_transaction_signature. read_only. Qed.
Lemma reads_withdrawal_signature w : reads (S:=S) (check_withdrawal_signature g w).
Proof. unfold check_withdrawal_signature. read_only. Qed.
Lemma reads_verify_withdrawal w a n : reads (S:=S) (verify_withdrawal_request g w a n).
Proof. unfold verify_withdrawal_request. read_only. Qed.
Lemma reads_allowlist allow raw_tx : reads (S:=S) (validate_with_state allow raw_tx).
Proof. unfold validate_with_state. read_only. Qed.

Lemma reads_filter_map {A B} (f : A → ST (StateDB S) unit (option B)) l :
  (∀ a, reads (f a)) → reads (filter_map_ok f l).
Proof.
  intros Hf. induction l as [|a l IH]; cbn [filter_map_ok]; [read_only|]. intros db Hok.
  pose proof (Hf a db Hok) as Ha. destruct (f a db) as [[[b|]|e|] db1]; cbn in Ha; [| | |done].
  all: eapply same_trans; [done|]; rewrite <- (proj1 Ha) in Hok.
  - by apply (reads_bind _ _ IH (λ bs, reads_ret _)).
  - by apply IH.
  - by apply IH.
Qed.
Lemma reads_new_address logs : reads (S:=S) (filter_new_address logs).
Proof.
  unfold filter_new_address. apply reads_bind; [|read_only]. apply reads_filter_map.
  intros log. unfold new_address_of. read_only.
Qed.
Lemma reads_batch_create c addrs : reads (S:=S) (build_batch_create_tx c addrs).
Proof.
  unfold build_batch_create_tx. do 6 (apply reads_bind; [read_only|intros]).
  apply reads_bind; [|intros; read_only]. apply reads_filter_map. intros ?. unfold unknown_address. read_only.
Qed.
End ReadOperations.
#[export] Hint Resolve reads_nonce reads_id reads_script_hash reads_balance reads_address_by_hash reads_checkpoint
  reads_merkle_state reads_creator_id reads_verify_transaction reads_tx_signature reads_withdrawal_signature
  reads_verify_withdrawal reads_allowlist reads_new_address reads_batch_create : reads.

(** ** States between two items *)
Section Settled.
Context {Mac S : Type} `{MachineLaws Mac} `{StateView S, MapIter}.
Context `{Blake2b, Molecule, ContractArgs, SubstrateBn, ChainView, SyscallCodec}.
Implicit Types (db : StateDB S) (account : AccountMerkleState).
Local Abbreviation wf := (db_wf own_script own_data).

Record settled account db : Prop := {
  se_wf : wf db;
  se_clean : is_dirty db = false;
  se_root : view_root (db_state db) = am_merkle_root account;
  se_count : v_count (view (db_state db)) = am_count account;
}.
(** Everything that ran since the snapshot of [base] *)
Definition tracked (base : StateDB S) db : Prop := since own_script own_data base db ∨ gone own_script own_data base db.

Lemma is_dirty_same db db' : same_but_tracker db db' → is_dirty db' = is_dirty db.
Proof. intros (E1 & E2 & E3 & E4 & E5 & E6). unfold is_dirty. by rewrite E2, E4, E6. Qed.
Lemma settled_same account db db' : settled account db → same_but_tracker db db' → settled account db'.
Proof.
  intros [] Hs. split; [by eapply same_wf|by rewrite (is_dirty_same db)|..]; by rewrite (proj1 Hs).
Qed.
Lemma clean_merkle_state db :
  wf db → is_dirty db = false →
  ∃ account, calculate_merkle_state db = (Ok account, db) ∧ settled account db.
Proof.
  intros Hwf Hd. pose proof (wf_inner _ _ _ Hwf) as Hok.
  exists (mkAccountMerkleState (view_root (db_state db)) (v_count (view (db_state db)))). split; [|done].
  destruct (not_dirty_clean db Hd) as (Hdirty & _).
  unfold calculate_merkle_state, mbind, ST_bind, st_map_err. cbn. unfold db_calculate_root, inner.
  rewrite Hd, view_calculate_root by done. cbn. unfold db_get_account_count, inner. cbn.
  rewrite Hdirty. cbn. rewrite view_get_account_count by done. by destruct db.
Qed.
Lemma settled_merkle_state account db : settled account db → calculate_merkle_state db = (Ok account, db).
Proof.
  intros [Hwf Hd Hr Hc]. destruct (clean_merkle_state db Hwf Hd) as (account' & Hrun & [_ _ Hr' Hc']).
  rewrite Hrun. destruct account, account'; cbn in *. congruence.
Qed.
Lemma settled_checkpoint account db :
  settled account db → calculate_state_checkpoint db = (Ok (checkpoint_of_state account), db).
Proof.
  intros Hs. pose proof (settled_merkle_state account db Hs) as Hm. destruct Hs as [Hwf Hd _ _].
  unfold calculate_merkle_state, calculate_state_checkpoint, mbind, ST_bind, st_map_err in *.
  destruct (calculate_root db) as [[r|e|] db1] eqn:Er; [|done..].
  destruct (get_account_count db1) as [[c|e|] db2] eqn:Ec; [|done..].
  injection Hm as <- ->. done.
Qed.

Lemma finalise_run db :
  wf db → ∃ db', finalise db = (Ok tt, db') ∧ wf db' ∧ is_dirty db' = false.
Proof.
  intros Hwf. pose proof (wf_inner _ _ _ Hwf) as Hok. destruct (is_dirty db) eqn:Hd.
  - unfold finalise. erewrite st_bind_run by done. rewrite Hd. cbn [negb].
    erewrite st_bind_run by done.
    destruct (write_dirty_view (db_state db) (db_dirty db) Hok) as (s' & E & Hok' & Hv').
    erewrite st_bind_run by (unfold inner; by rewrite E). erewrite st_bind_run by done.
    erewrite st_bind_run by
      (unfold db_calculate_root; rewrite is_dirty_clear; unfold inner; cbn;
       by rewrite view_calculate_root by done).
    eexists. split; [reflexivity|]. split; [|done]. destruct Hwf as [_ Hn Hr _].
    split; cbn; [done|done| |split; intros ?? E'; cbn in E'; by rewrite lookup_empty in E'].
    split; cbn; constructor.
  - exists db. unfold finalise. erewrite st_bind_run by done. by rewrite Hd.
Qed.

Lemma tracked_wf base db : tracked base db → wf db.
Proof. intros [[]|[]]; done. Qed.
Lemma tracked_same base db db' : tracked base db → same_but_tracker db db' → tracked base db'.
Proof. intros [Hs|Hg] Hsame; [left; by eapply since_same|right; by eapply gone_same]. Qed.
Lemma tracked_run_op base o db db' :
  tracked base db → op_content_ok own_script own_data o → run_db_op o db = (Ok tt, db') → tracked base db'.
Proof. apply tracked_op. Qed.
Lemma tracked_kept base : ops_kept (tracked base).
Proof.
  split.
  - intros k db Ht. eapply tracked_same; [done|]. apply reads_get_raw. by apply tracked_wf in Ht as [].
  - intros k v _ _ db Ht. by apply (tracked_run_op base (DbUpdateRaw k v) db).
  - intros db Ht. eapply tracked_same; [done|]. apply reads_count. by apply tracked_wf in Ht as [].
  - intros c db Ht. by apply (tracked_run_op base (DbSetAccountCount c) db).
  - intros db Ht. eapply tracked_same; [done|]. apply reads_root. by apply tracked_wf in Ht as [].
  - intros x db Ht. by apply (tracked_run_op base (DbInsertScript (script_hash x) x) db).
  - intros d db Ht. by apply (tracked_run_op base (DbInsertData (blake2b d) d) db).
  - intros d db Ht. eapply tracked_same; [done|]. apply get_data_same. by apply tracked_wf in Ht as [].
  - intros l db Ht. by apply (tracked_run_op base (DbAppendLog l) db).
  - intros db Ht. cbn. destruct (snapshot db) as [[i|e|] db'] eqn:E; cbn.
    + eapply (tracked_run_op base DbSnapshot db); [done|done|]. cbn. by erewrite st_bind_run by exact E.
    + unfold snapshot in E. by repeat case_match; simplify_eq.
    + unfold snapshot in E. by repeat case_match; simplify_eq.
  - intros i db Ht. cbn. destruct (revert i db) as [[[]|e|] db'] eqn:E; cbn.
    + by apply (tracked_run_op base (DbRevert i) db).
    + unfold revert in E. by repeat case_match; simplify_eq.
    + unfold revert in E. by repeat case_match; simplify_eq.
  - intros t db Ht. by eapply tracked_same.
  - intros db Ht. by eapply tracked_same.
Qed.

Lemma wf_kept : state_kept wf.
Proof.
  split; [split|].
  - intros k db Hwf. eapply same_wf; [done|]. apply reads_get_raw, Hwf.
  - intros k v _ _ db Hwf. destruct (update_raw_pushes _ _ db k v Hwf) as (e & db1 & E & Hp).
    rewrite E. by eapply pushes_wf.
  - intros db Hwf. eapply same_wf; [done|]. apply reads_count, Hwf.
  - intros c db Hwf. destruct (set_account_count_pushes _ _ db c Hwf) as (e & db1 & E & Hp).
    rewrite E. by eapply pushes_wf.
  - intros db Hwf. eapply same_wf; [done|]. apply reads_root, Hwf.
  - intros x db Hwf. destruct (insert_script_pushes own_script own_data db (script_hash x) x Hwf) as (e & Hp); [done|].
    by eapply pushes_wf.
  - intros d db Hwf. destruct (insert_data_pushes own_script own_data db (blake2b d) d Hwf) as (e & Hp); [done|].
    by eapply pushes_wf.
  - intros d db Hwf. eapply same_wf; [done|]. apply get_data_same, Hwf.
  - intros l db Hwf. destruct (append_log_pushes own_script own_data db l Hwf) as (e & Hp). by eapply pushes_wf.
  - intros db Hwf. cbn. destruct (snapshot db) as [[i|e|] db'] eqn:E; cbn.
    + by destruct (since_start _ _ _ _ _ Hwf E) as [[] _].
    + unfold snapshot in E. by repeat case_match; simplify_eq.
    + unfold snapshot in E. by repeat case_match; simplify_eq.
  - intros i db Hwf. cbn. destruct (revert i db) as [[[]|e|] db'] eqn:E; cbn; [by eapply revert_wf| |];
      unfold revert in E; by repeat case_match; simplify_eq.
  - intros t db Hwf. by eapply same_wf.
  - intros db Hwf. by eapply same_wf.
  - intros db Hwf. cbn. by destruct (finalise_run db Hwf) as (db' & -> & ? & _).
Qed.
Lemma receipt_never_fails db e db' : wf db → receipt_of_state db ≠ (Err e, db').
Proof.
  intros Hwf. destruct (finalise_run db Hwf) as (db1 & Hf & Hwf1 & Hd1).
  destruct (clean_merkle_state db1 Hwf1 Hd1) as (account & Hm & _). unfold receipt_of_state.
  erewrite st_bind_run by (unfold st_map_err; cbn; by rewrite Hf). unfold calculate_merkle_state, mbind, ST_bind in *.
  repeat (case_match; simplify_eq; try done).
Qed.
(** A revert to the snapshot of a settled state, if it succeeds, settles it again. *)
Lemma tracked_revert account base db db' :
  settled account base → tracked base db → revert (next_revision_id base) db = (Ok tt, db') → settled account db'.
Proof.
  intros [Hwf Hd Hr Hc] Ht Hrun. assert (Hwf' : wf db') by (eapply revert_wf; [by eapply tracked_wf|done]).
  destruct (tracked_end _ _ _ _ _ Ht Hrun) as (E1 & E2 & E3 & E4 & _).
  destruct (not_dirty_clean base Hd) as (Eb & _). rewrite Eb in E4. apply equiv_no_dirty in E4.
  split; [done|unfold is_dirty in *; by rewrite E2, E3, E4, <- Eb|by rewrite E1..].
Qed.
End Settled.

(** ** The pool between two calls *)
Section World.
Context {Mac : Type} `{MachineLaws Mac}.
Context `{Blake2b, Molecule, ExtraCodec, ContractArgs, SubstrateBn, SyscallCodec, MapIter, HashCodec, SmtRoot}.
Context `{CkbTypes, CustodianCodec, Keccak256, EthAbi, Wallet, CreatorCodec}.
Context `{PendingIter, ColumnIter, MemPoolProvider}.
Context (env : PoolEnv).
Local Abbreviation StDB := (StateDB MemStateTree).
Local Abbreviation g := (pe_generator env).
Local Abbreviation config := (pe_config env).

(** The store has a packaged transaction, with its receipt. *)
Definition stored_tx (db : StoreDb) (h : H256) (post : AccountMerkleState) : Prop :=
  ∃ tx r, sd_columns db !! (COLUMN_MEM_POOL_TRANSACTION, h) = Some (ETransaction tx)
    ∧ sd_columns db !! (COLUMN_MEM_POOL_TRANSACTION_RECEIPT, h) = Some (EReceipt r)
    ∧ tx_hash tx = h ∧ tr_tx_witness_hash r = tx_witness_hash tx ∧ tr_post_state r = post.
(** A packaged withdrawal is among the pending ones. *)
Definition awaited (pending : gmap Z EntryList) (h : H256) : Prop :=
  ∃ id e w, pending !! id = Some e ∧ w ∈ el_withdrawals e ∧ withdrawal_hash (we_request w) = h.

(** The block in the making on top of the account state [prev] *)
Record packaging (prev : AccountMerkleState) (db : StoreDb) (pending : gmap Z EntryList) (mb : MemBlock) : Prop := {
  pk_ok : mem_block_ok mb;
  pk_prev : mb_prev_merkle_state mb = prev;
  pk_txs : Forall2 (stored_tx db) (mb_txs mb) (mb_tx_post_states mb);
  pk_nodup : NoDup (mb_txs mb);
  pk_limit : (length (mb_txs mb) ≤ mbc_max_txs config)%nat;
  pk_withdrawals : Forall (awaited pending) (mb_withdrawals mb);
}.
Definition started (mb : MemBlock) : Prop := is_Some (mb_txs_prev_state_checkpoint mb).

(** A transaction that ran to its end has not reverted past its start, or no
    account is kept from creating token proxies. *)
Definition proxy_safe : Prop :=
  (sp_allowed_creator_account_id (pe_sudt_proxy_allowlist env) = []
   ∨ sp_code_hashes (pe_sudt_proxy_allowlist env) = []) ∨
  ∀ (view : ChainView) info raw_tx base (st st' : StDB) pool pool' result,
    since own_script own_data base st →
    execute_transaction (Mac:=Mac) g info raw_tx None (st, pool) = (Ok result, (st', pool')) →
    since own_script own_data base st'.

(** What the steps of a call leave alone: the tip, and the block information shared
    with the readers of the pool *)
Definition tip_shared (p : Pool) : (H256 * Z * GlobalState) * option BlockInfo := (p_current_tip p, p_shared_block p).
Section Tip.
Context (Hproxy : proxy_safe).
Context (prev : AccountMerkleState) (info : BlockInfo) (t : (H256 * Z * GlobalState) * option BlockInfo).

Record world_ok (w : PoolWorld) : Prop := {
  wo_packaging : packaging prev (pw_db w) (p_pending (pw_pool w)) (p_mem_block (pw_pool w));
  wo_settled : settled (final_state (p_mem_block (pw_pool w))) (pw_state w);
  wo_info : mb_block_info (p_mem_block (pw_pool w)) = info;
  wo_tip : tip_shared (pw_pool w) = t;
}.
Definition ready (w : PoolWorld) : Prop := world_ok w ∧ started (p_mem_block (pw_pool w)).
Definition set_st (w : PoolWorld) (st : StDB) : PoolWorld := mkPoolWorld (pw_pool w) (pw_db w) st.

Lemma wp_on_state {A} (m : ST StDB PoolError A) Q R w :
  wp m (λ a st, Q a (set_st w st)) (λ st, R (set_st w st)) (pw_state w) → wp (on_pool_state m) Q R w.
Proof. unfold wp, on_pool_state. by destruct (m (pw_state w)) as [[a|e|] st]. Qed.
Lemma wp_reads {A} (m : ST StDB PoolError A) (Q : A → PoolWorld → Prop) (R : PoolWorld → Prop) w :
  reads m →
  (∀ a st, same_but_tracker (pw_state w) st → Q a (set_st w st)) →
  (∀ st, same_but_tracker (pw_state w) st → R (set_st w st)) → wp (on_pool_state m) Q R w.
Proof.
  intros Hm HQ HR. apply wp_on_state. unfold wp. pose proof (Hm (pw_state w) I) as Hs.
  destruct (m (pw_state w)) as [[a|e|] st]; cbn in Hs; auto.
Qed.
Lemma wp_try {A E} (m : ST StDB E A) (Q : option A → PoolWorld → Prop) R w :
  reads m → (∀ o st, same_but_tracker (pw_state w) st → Q o (set_st w st)) → wp (E:=PoolError) (on_pool_state (attempt m)) Q R w.
Proof.
  intros Hm HQ. apply wp_on_state, wp_attempt. unfold wp. pose proof (Hm (pw_state w) I) as Hs.
  destruct (m (pw_state w)) as [[a|e|] st]; cbn in Hs; auto.
Qed.
Lemma world_same w st : world_ok w → same_but_tracker (pw_state w) st → world_ok (set_st w st).
Proof. intros [] Hs. split; [done|by eapply settled_same|done..]. Qed.
Lemma ready_same w st : ready w → same_but_tracker (pw_state w) st → ready (set_st w st).
Proof. intros [Hw Hst] Hs. split; [by apply world_same|done]. Qed.
(** Reads that leave [P] as it is *)
Definition ignores_reads (P : PoolWorld → Prop) : Prop :=
  ∀ w st, P w → same_but_tracker (pw_state w) st → P (set_st w st).

(** *** Running a transaction *)
Lemma wp_snapshot (Q : Z → PoolWorld → Prop) R account w :
  settled account (pw_state w) →
  (∀ st, since own_script own_data (pw_state w) st → Q (next_revision_id (pw_state w)) (set_st w st)) →
  wp (on_pool_state (st_map_err PoolState j_snapshot)) Q R w.
Proof.
  intros Hs HQ. apply wp_on_state, wp_map_err. unfold wp. cbn.
  destruct (snapshot (pw_state w)) as [[i|e|] st] eqn:E; [| |done].
  - destruct (since_start _ _ _ _ _ (se_wf _ _ Hs) E) as [Ht ->]. by apply HQ.
  - unfold snapshot in E. unfold add_w, unwrap in E. by repeat case_match; simplify_eq.
Qed.
Lemma wp_finalise (Q : () → PoolWorld → Prop) R w :
  db_wf own_script own_data (pw_state w) →
  (∀ st, db_wf own_script own_data st → is_dirty st = false → Q tt (set_st w st)) →
  wp (on_pool_state (st_map_err PoolState j_finalise)) Q R w.
Proof.
  intros Hwf HQ. apply wp_on_state, wp_map_err. unfold wp. cbn.
  destruct (finalise_run _ Hwf) as (st & -> & ? & ?). by apply HQ.
Qed.
Lemma wp_clean_merkle_state (Q : AccountMerkleState → PoolWorld → Prop) R w :
  db_wf own_script own_data (pw_state w) → is_dirty (pw_state w) = false →
  (∀ account, settled account (pw_state w) → Q account w) →
  wp (on_pool_state (st_map_err PoolGen calculate_merkle_state)) Q R w.
Proof.
  intros Hwf Hd HQ. apply wp_on_state, wp_map_err. unfold wp.
  destruct (clean_merkle_state _ Hwf Hd) as (account & -> & Hs). destruct w. by apply HQ.
Qed.

Lemma wp_execute (view : ChainView) bi raw_tx account base (Q : RunResult → PoolWorld → Prop) (R : PoolWorld → Prop) w :
  settled account base → since own_script own_data base (pw_state w) →
  (∀ result st c, tracked base st →
     sudt_proxy_validate (pe_sudt_proxy_allowlist env) result (tx_from_id raw_tx) = true ∨ since own_script own_data base st →
     Q result (mkPoolWorld (with_cycles_pool c (pw_pool w)) (pw_db w) st)) →
  (∀ st c, settled account st → R (mkPoolWorld (with_cycles_pool c (pw_pool w)) (pw_db w) st)) →
  wp (execute_in_pool (Mac:=Mac) env view bi raw_tx (next_revision_id base)) Q R w.
Proof.
  intros Hset Hs HQ HR. unfold wp, execute_in_pool. cbv zeta.
  pose proof (kept_execute (Mac:=Mac) _ (tracked_kept base) g bi raw_tx None
    (pw_state w, Some (p_cycles_pool (pw_pool w))) (or_introl Hs)) as Ht.
  destruct (execute_transaction g bi raw_tx None _) as [[result|e|] [st pool]] eqn:E; cbn [fst snd] in Ht; [| |done].
  - apply HQ; [done|]. destruct Hproxy as [Hoff|Hsince]; [left|right; by eapply Hsince].
    unfold sudt_proxy_validate. destruct Hoff as [->| ->]; [done|]. by rewrite orb_true_r.
  - cbn [j_revert StateDB_journal_ops].
    destruct (revert (next_revision_id base) st) as [[[]|e'|] st'] eqn:Er; [|done..].
    apply HR. by eapply tracked_revert.
Qed.
Lemma publish_transaction_no_err {E} tx s (e : E) : publish_transaction tx s ≠ Err e.
Proof. unfold publish_transaction, unwrap, mbind, outcome_bind. by repeat case_match. Qed.

(** What an executed transaction leaves for [push_transaction_with_db] to record *)
Definition executed (w : PoolWorld) (tx : L2Transaction) (r : TxReceipt) (w' : PoolWorld) : Prop :=
  p_mem_block (pw_pool w') = p_mem_block (pw_pool w) ∧ p_pending (pw_pool w') = p_pending (pw_pool w)
  ∧ tip_shared (pw_pool w') = tip_shared (pw_pool w) ∧ pw_db w' = pw_db w
  ∧ settled (tr_post_state r) (pw_state w') ∧ tr_tx_witness_hash r = tx_witness_hash tx.

(** A refused transaction *)
Definition unchanged (w w' : PoolWorld) : Prop :=
  (∃ c, pw_pool w' = with_cycles_pool c (pw_pool w)) ∧ pw_db w' = pw_db w.
Lemma unchanged_eq w w' : pw_pool w' = pw_pool w → pw_db w' = pw_db w → unchanged w w'.
Proof. intros E1 E2. split; [|done]. exists (p_cycles_pool (pw_pool w)). rewrite E1. by destruct (pw_pool w). Qed.
Lemma unchanged_trans w1 w2 w3 : unchanged w1 w2 → unchanged w2 w3 → unchanged w1 w3.
Proof. intros [[c1 E1] D1] [[c2 E2] D2]. split; [|congruence]. exists c2. by rewrite E2, E1. Qed.
Lemma ready_cycles w c st : ready w → settled (final_state (p_mem_block (pw_pool w))) st →
  ready (mkPoolWorld (with_cycles_pool c (pw_pool w)) (pw_db w) st).
Proof. by intros [[] ?]; split. Qed.

Lemma wp_publish_tx tx (Q : () → PoolWorld → Prop) R w :
  (∀ s, Q tt (mkPoolWorld (with_sync_server s (pw_pool w)) (pw_db w) (pw_state w))) →
  Q tt w → wp (publish_tx tx) Q R w.
Proof.
  intros HQ Hw. unfold publish_tx. apply wp_bind, wp_gets. destruct (p_sync_server _) as [s|]; [|done].
  apply wp_bind, wp_no_err; [intros; apply publish_transaction_no_err|]. intros s' _. by apply wp_modify.
Qed.

Lemma tip_hash_read w : (get_tip_block_hash (E:=PoolError) (pw_db w)).2 = pw_db w.
Proof.
  unfold get_tip_block_hash, get_meta_hash, st_unwrap, get_as, mbind, ST_bind, lift.
  by repeat case_match; simplify_eq.
Qed.
Definition refused (w w' : PoolWorld) : Prop := ready w' ∧ unchanged w w'.
Lemma refused_self w : ready w → refused w w.
Proof. intros Hw. split; [done|by apply unchanged_eq]. Qed.
Lemma refused_after w w1 w' : pw_pool w1 = pw_pool w → pw_db w1 = pw_db w → refused w1 w' → refused w w'.
Proof. intros E1 E2 [Hw' Hu]. split; [done|]. eapply unchanged_trans; [by apply unchanged_eq|done]. Qed.
Lemma refused_cycles w w1 c st :
  ready w1 → pw_pool w1 = pw_pool w → pw_db w1 = pw_db w → settled (final_state (p_mem_block (pw_pool w1))) st →
  refused w (mkPoolWorld (with_cycles_pool c (pw_pool w1)) (pw_db w1) st).
Proof.
  intros Hw1 E1 E2 Hs. split; [by apply ready_cycles|]. split; [|done]. exists c. cbn. by rewrite E1.
Qed.
(** A read on the way *)
Lemma wp_ready_read {A} (m : ST StDB PoolError A) (Q : A → PoolWorld → Prop) w w1 :
  reads m → ready w1 → pw_pool w1 = pw_pool w → pw_db w1 = pw_db w →
  (∀ a w', ready w' → pw_pool w' = pw_pool w → pw_db w' = pw_db w → Q a w') → wp (on_pool_state m) Q (refused w) w1.
Proof.
  intros Hm Hw Ep Ed HQ. apply wp_reads; [done| |]; intros; [apply HQ; try done|]; [by apply ready_same|].
  split; [by apply ready_same|by apply unchanged_eq].
Qed.
Lemma execute_tx_ok tx w : ready w → wp (execute_tx (Mac:=Mac) env tx) (executed w tx) (refused w) w.
Proof.
  intros Hw. unfold execute_tx. apply wp_bind.
  eapply (wp_mono _ (λ _ w', w' = w) _ (λ w', w' = w)); [|intros tip ? ->|intros ? ->; by apply refused_self].
  { unfold wp, on_pool_db. pose proof (tip_hash_read w) as E.
    destruct (get_tip_block_hash (pw_db w)) as [r db]. cbn in E. subst. by destruct w, r. }
  apply wp_bind, wp_gets. cbv zeta. apply wp_bind, wp_gets. apply wp_bind.
  eapply (wp_mono _ (λ _ w', ready w' ∧ pw_pool w' = pw_pool w ∧ pw_db w' = pw_db w)); [| |done].
  { destruct (pe_creator_allowlist env); [|by apply wp_ret]. by apply wp_ready_read; [read_only|..]. }
  cbv beta. intros _ w1 (Hw1 & Ep & Ed). apply wp_bind. destruct Hw1 as [Hw1 Hst1].
  eapply wp_snapshot; [apply Hw1|]. intros st1 Hs1. apply wp_bind. eapply wp_execute; [apply Hw1|exact Hs1| |].
  2:{ intros st c Hst. cbn. by apply refused_cycles; [split|..]. }
  intros result st2 c Ht Hv. cbn [pw_pool pw_db set_st]. apply wp_bind.
  destruct (sudt_proxy_validate _ _ _) eqn:Hval; cbn [negb].
  2:{ destruct Hv as [|Hsince]; [done|]. apply wp_bind, wp_on_state, wp_map_err. unfold wp. cbn.
      destruct (since_end _ _ _ _ Hsince) as (st3 & Hrev & _). rewrite Hrev.
      apply (refused_cycles w w1); [by split|done..|]. eapply tracked_revert; [apply Hw1|exact Ht|done]. }
  apply wp_ret, wp_bind, wp_finalise; [by eapply tracked_wf|]. intros st3 Hwf3 Hd3. cbn [set_st pw_pool pw_db].
  apply wp_bind, wp_clean_merkle_state; [done..|]. intros account Hacc. apply wp_bind, wp_publish_tx.
  - intros s. apply wp_ret. unfold executed. cbn. by rewrite Ep, Ed.
  - apply wp_ret. unfold executed. cbn. by rewrite Ep, Ed.
Qed.

(** *** Recording it *)
Lemma wp_insert {E} c key e (Q : () → PoolWorld → Prop) R w :
  Q tt (mkPoolWorld (pw_pool w) (with_columns (<[(c, key) := e]>) (pw_db w)) (pw_state w)) →
  wp (E:=E) (on_pool_db (insert_raw c key e)) Q R w.
Proof. done. Qed.
Lemma final_state_push_tx h post mb : final_state (push_tx h post mb) = post.
Proof. unfold final_state. cbn. by rewrite !app_assoc, last_snoc. Qed.
Lemma awaited_entry pending id f h :
  (∀ e w, w ∈ el_withdrawals e → w ∈ el_withdrawals (f e)) →
  awaited pending h → awaited (<[id := f (default entry_default (pending !! id))]> pending) h.
Proof.
  intros Hf (i & e & w & Hi & Hw & Hh). destruct (decide (id = i)) as [->|Hne].
  - exists i, (f e), w. rewrite lookup_insert_eq, Hi. auto.
  - exists i, e, w. by rewrite lookup_insert_ne.
Qed.
Definition store_tx (tx : L2Transaction) (r : TxReceipt) : StoreDb → StoreDb :=
  with_columns (λ m, <[(COLUMN_MEM_POOL_TRANSACTION, tx_hash tx) := ETransaction tx]>
                       (<[(COLUMN_MEM_POOL_TRANSACTION_RECEIPT, tx_hash tx) := EReceipt r]> m)).
Lemma packaging_push_tx db pending mb tx r id :
  packaging prev db pending mb → started mb → (tx_hash tx ∉ mb_txs mb) →
  (length (mb_txs mb) < mbc_max_txs config)%nat → tr_tx_witness_hash r = tx_witness_hash tx →
  packaging prev (store_tx tx r db)
    (<[id := entry_push_tx tx (default entry_default (pending !! id))]> pending)
    (push_tx (tx_hash tx) (tr_post_state r) mb).
Proof.
  intros [Hok Hp Htx Hnd Hl Hw] Hst Hnew Hlt Hr. split.
  - by apply push_tx_ok.
  - done.
  - cbn. apply Forall2_app.
    + apply Forall2_same_length_lookup. split; [by eapply Forall2_length|]. intros i h post Hi Hpost.
      destruct (Forall2_lookup_lr _ _ _ _ _ _ Htx Hi Hpost) as (tx' & r' & E1 & E2 & ?). exists tx', r'.
      assert (tx_hash tx ≠ h) by (intros <-; by apply Hnew, list_elem_of_lookup_2 with i).
      cbn. by rewrite !lookup_insert_ne by congruence.
    + apply Forall2_cons_2; [|constructor]. exists tx, r. cbn.
      rewrite lookup_insert_eq, lookup_insert_ne, lookup_insert_eq by done. done.
  - cbn. apply NoDup_app. split; [done|]. split; [|apply NoDup_singleton].
    intros h Hh ->%list_elem_of_singleton. done.
  - cbn. rewrite length_app. cbn. lia.
  - cbn. eapply Forall_impl; [exact Hw|]. intros h. apply awaited_entry. done.
Qed.
Lemma packaging_addresses db pending mb addrs :
  packaging prev db pending mb → packaging prev db pending (append_new_addresses addrs mb).
Proof. intros []. split; try done. by apply append_new_addresses_ok. Qed.

(** A pushed transaction, accepted or refused *)
Lemma push_transaction_with_db_ok tx w :
  ready w → wp (push_transaction_with_db (Mac:=Mac) env tx) (λ _, ready) (refused w) w.
Proof.
  intros Hw. unfold push_transaction_with_db. cbv zeta. apply wp_bind, wp_gets.
  apply wp_bind, wp_lift; [|by apply refused_self]. intros _ Hnew%reject_if_Ok%bool_decide_eq_false.
  apply wp_bind, wp_lift; [|by apply refused_self]. intros _ Hlt%reject_if_Ok%Nat.leb_gt.
  apply wp_bind, wp_ready_read; [read_only|done..|]. intros creator w1 Hw1 Ep1 Ed1.
  apply wp_bind, wp_ready_read; [read_only|done..|]. intros _ w2 Hw2 Ep2 Ed2.
  apply wp_bind, wp_ready_read; [read_only|done..|]. intros _ w3 Hw3 Epool Ed3.
  apply wp_bind. eapply wp_mono; [by apply execute_tx_ok| |intros w'; by apply refused_after].
  intros r w4 (Emb & Epend & Etip & Edb & Hset & Hwit). apply wp_bind. rewrite Epool in *.
  destruct Hw3 as [[Hpk _ Hinfo Htip] Hst]. rewrite Epool in *.
  assert (Hpk' : packaging prev (pw_db w4) (p_pending (pw_pool w4)) (p_mem_block (pw_pool w4))).
  { by rewrite Edb, Epend, Emb. }
  rewrite <- Emb in Hst, Hinfo, Hnew, Hlt. rewrite <- Etip in Htip. clear - Hpk' Hst Hinfo Htip Hnew Hlt Hset Hwit.
  eapply (wp_mono _ (λ _ w', packaging prev (pw_db w') (p_pending (pw_pool w')) (p_mem_block (pw_pool w'))
     ∧ started (p_mem_block (pw_pool w')) ∧ mb_block_info (p_mem_block (pw_pool w')) = info
     ∧ tip_shared (pw_pool w') = t ∧ (tx_hash tx ∉ mb_txs (p_mem_block (pw_pool w')))
     ∧ (length (mb_txs (p_mem_block (pw_pool w'))) < mbc_max_txs config)%nat
     ∧ settled (tr_post_state r) (pw_state w')) _ (λ _, False)); [| |done].
  { rewrite (mbo_txs_set _ (pk_ok _ _ _ _ Hpk')), elem_of_list_to_set in Hnew.
    assert (Hbase : packaging prev (pw_db w4) (p_pending (pw_pool w4)) (p_mem_block (pw_pool w4))) by done.
    destruct (pe_account_creator env); [|by apply wp_ret]. apply wp_bind, wp_try; [read_only|].
    intros found st Hsame. pose proof (settled_same _ _ _ Hset Hsame) as Hset'.
    destruct found as [[addrs|]|]; [|by apply wp_ret..]. apply wp_modify. cbn.
    by split; [apply packaging_addresses|]. }
  intros [] w5 (Hpk5 & Hst5 & Hi5 & Ht5 & Hnew5 & Hlt5 & Hset5).
  apply wp_bind, wp_modify, wp_bind, wp_insert, wp_bind, wp_insert, wp_modify.
  pose proof (packaging_push_tx _ _ _ tx r (tx_from_id (tx_raw tx)) Hpk5 Hst5 Hnew5 Hlt5 Hwit) as Hpk6.
  split; [split; [exact Hpk6| |done..]|done].
  by rewrite <- (final_state_push_tx (tx_hash tx) (tr_post_state r) (p_mem_block (pw_pool w5))) in Hset5.
Qed.
Lemma reinject_txs_ok txs w : ready w → wp (reinject_txs (Mac:=Mac) env txs) (λ _, ready) (λ _, False) w.
Proof.
  revert w. induction txs as [|tx txs IH]; intros w Hw; cbn [reinject_txs]; [by apply wp_ret|].
  apply wp_bind, wp_attempt. eapply wp_mono; [by apply push_transaction_with_db_ok|..]; [auto|]. intros w' [Hw' _]. auto.
Qed.

(** *** Withdrawals *)
Definition preparing (w : PoolWorld) : Prop :=
  world_ok w ∧ mb_txs_prev_state_checkpoint (p_mem_block (pw_pool w)) = None.
Local Abbreviation anything := (λ _ : PoolWorld, True).

Lemma preparing_same w st : preparing w → same_but_tracker (pw_state w) st → preparing (set_st w st).
Proof. intros [Hw Hn] Hs. split; [by apply world_same|done]. Qed.
Lemma preparing_empty w : preparing w →
  mb_deposits (p_mem_block (pw_pool w)) = [] ∧ mb_txs (p_mem_block (pw_pool w)) = []
  ∧ mb_deposit_post_states (p_mem_block (pw_pool w)) = [] ∧ mb_tx_post_states (p_mem_block (pw_pool w)) = [].
Proof.
  intros [[[Hok _ _ _ _ _] _ _ _] Hn]. destruct Hok. rewrite Hn in *. destruct mbo_txs_prev as [Hd Ht].
  rewrite Hd, Ht in *. split_and!; [done|done|by apply nil_length_inv..].
Qed.
Lemma wp_drain (P : PoolWorld → Prop) (Q : list H256 → PoolWorld → Prop) R w :
  ignores_reads P → P w → (∀ keys w', P w' → pw_pool w' = pw_pool w → pw_db w' = pw_db w → Q keys w') →
  wp (E:=PoolError) (on_pool_state drain_touched_keys) Q R w.
Proof.
  intros HP Hw HQ. apply wp_on_state. unfold wp, drain_touched_keys. destruct (state_tracker _); [|done].
  apply HQ; [|done..]. by apply HP.
Qed.
Lemma awaited_fresh pending id f w :
  w ∈ el_withdrawals (f (default entry_default (pending !! id))) →
  awaited (<[id := f (default entry_default (pending !! id))]> pending) (withdrawal_hash (we_request w)).
Proof. intros Hw. eexists id, _, w. by rewrite lookup_insert_eq. Qed.

Lemma packaging_push_withdrawal db pending db' pending' mb hash post keys :
  packaging prev db pending mb → mb_txs_prev_state_checkpoint mb = None →
  (∀ h, awaited pending h → awaited pending' h) → awaited pending' hash →
  ∃ mb', push_withdrawal (E:=PoolError) hash post keys mb = Ok mb' ∧ packaging prev db' pending' mb'
    ∧ mb_txs_prev_state_checkpoint mb' = None ∧ mb_block_info mb' = mb_block_info mb ∧ final_state mb' = post.
Proof.
  intros [Hok Hp Htx Hnd Hl Hw] Hn Hmono Hnew.
  destruct (push_withdrawal_run (E:=PoolError) hash post keys mb Hok Hn) as (mb' & Hrun & Hok' & Ew & Epost & Hsame).
  destruct Hsame as (_ & Ei & Epr & Et & Ed & Ec & Edp & Etp & _). exists mb'. split; [done|].
  assert (Hempty : mb_txs mb = [] ∧ mb_tx_post_states mb = [] ∧ mb_deposit_post_states mb = []).
  { destruct Hok. rewrite Hn in *. destruct mbo_txs_prev as [E1 E2]. rewrite E1, E2 in *.
    split; [done|]. by split; apply nil_length_inv. }
  destruct Hempty as (Et0 & Etp0 & Edp0). split; [split; [done|congruence|..]|].
  - by rewrite Et, Etp, Et0, Etp0.
  - by rewrite Et.
  - by rewrite Et.
  - rewrite Ew. apply Forall_app. split; [|by apply Forall_singleton]. by eapply Forall_impl.
  - split; [congruence|]. split; [done|]. unfold final_state. rewrite Epost, Edp, Etp, Edp0, Etp0, !app_nil_r.
    by rewrite last_snoc.
Qed.

(** The withdrawal is executed; what is recorded *)
Lemma record_withdrawal_ok withdrawal w mb :
  p_mem_block (pw_pool w) = mb → packaging prev (pw_db w) (p_pending (pw_pool w)) mb →
  mb_txs_prev_state_checkpoint mb = None → mb_block_info mb = info → tip_shared (pw_pool w) = t →
  db_wf own_script own_data (pw_state w) →
  wp (record_withdrawal withdrawal) (λ _, preparing) anything w.
Proof.
  intros Emb Hpk Hn Hi Ht Hwf. unfold record_withdrawal. cbv zeta.
  apply wp_bind, wp_finalise; [done|]. intros st Hwf1 Hd1.
  apply wp_bind, wp_clean_merkle_state; [done..|]. intros post Hset.
  apply wp_bind, wp_reads; [read_only|intros o st2 Hs2|done]. apply wp_bind, wp_lift; [intros id _|done].
  pose proof (settled_same _ _ _ Hset Hs2) as Hset2. clear Hset Hs2 Hwf1 Hd1 Hwf.
  apply wp_bind, wp_modify, wp_bind, wp_gets, wp_bind. cbn [pw_pool p_pending with_pending set_st].
  set (hash := withdrawal_hash (we_request withdrawal)).
  eapply (wp_mono _ (λ _ w', p_mem_block (pw_pool w') = mb ∧ tip_shared (pw_pool w') = t ∧ pw_state w' = st2
    ∧ (∀ h, awaited (p_pending (pw_pool w)) h → awaited (p_pending (pw_pool w')) h)
    ∧ awaited (p_pending (pw_pool w')) hash) _ anything); [| |done].
  { assert (Hmono : ∀ h, awaited (p_pending (pw_pool w)) h → awaited (<[id := default entry_default (p_pending (pw_pool w) !! id)]> (p_pending (pw_pool w))) h)
      by (intros h; by apply (awaited_entry _ id (λ e, e))).
    rewrite lookup_insert_eq. cbn [from_option default]. case_bool_decide as Hin.
    - apply wp_ret. cbn. split_and!; try done. by apply (awaited_fresh _ id (λ e, e)).
    - apply wp_bind, wp_modify, wp_insert. cbn. split_and!; try done.
      + intros h Hh%Hmono. apply awaited_entry; [|done]. intros e x Hx. cbn. apply elem_of_app. by left.
      + apply awaited_fresh. cbn. apply elem_of_app. right. by apply list_elem_of_singleton. }
  intros [] w3 (Emb3 & Et3 & Est3 & Hmono3 & Hnew3). apply wp_bind.
  apply (wp_drain (λ w', settled post (pw_state w'))); [by intros ????; eapply settled_same|by rewrite Est3|].
  intros keys w4 Hset4 Ep4 _. apply wp_bind, wp_gets. rewrite Ep4, Emb3.
  destruct (packaging_push_withdrawal _ _ (pw_db w4) _ mb hash post keys Hpk Hn Hmono3 Hnew3)
    as (mb' & Hrun & Hpk' & Hn' & Hi' & Hf').
  apply wp_bind, wp_lift; [|done]. rewrite Hrun. intros ? [= <-]. apply wp_modify.
  split; [split; cbn|done].
  - by rewrite Ep4.
  - by rewrite Hf'.
  - congruence.
  - by rewrite Ep4.
Qed.
Lemma finalize_withdrawal_ok assets gen withdrawal w :
  preparing w → wp (finalize_withdrawal env assets gen withdrawal) (λ _, preparing) anything w.
Proof.
  intros Hw. unfold finalize_withdrawal. apply wp_bind, wp_try; [read_only|]. intros signed st1 Hs1.
  pose proof (preparing_same _ _ Hw Hs1) as Hw1. clear Hw Hs1.
  destruct signed; [|by apply wp_ret]. apply wp_bind, wp_gets, wp_bind, wp_try; [read_only|]. intros verified st2 Hs2.
  pose proof (preparing_same _ _ Hw1 Hs2) as Hw2. clear Hw1 Hs2. cbn in Hw2.
  destruct verified; [|by apply wp_ret].
  destruct (include_and_verify _ _ _ _) as [[[]|e|] gen']; [|by apply wp_ret|by apply wp_lift].
  destruct Hw2 as [[Hpk Hset Hi Ht] Hn]. cbn [set_st pw_pool pw_db pw_state] in *.
  apply wp_bind. eapply wp_snapshot; [exact Hset|]. cbn [pw_state set_st]. intros st3 Hs3.
  apply wp_bind, wp_gets, wp_bind, wp_on_state, wp_attempt. cbn [pw_state set_st pw_pool pw_db]. unfold wp at 1.
  set (m := apply_withdrawal_request _ _ _).
  pose proof (kept_withdrawal _ (wf_kept) (sk_finalise _ (wf_kept))
    (g_rollup_context g) (mb_block_producer (p_mem_block (pw_pool w))) (we_request withdrawal) st3 (proj1 Hs3)) as Hwf.
  pose proof (err_kept_withdrawal _ (tracked_kept st2)
    (g_rollup_context g) (mb_block_producer (p_mem_block (pw_pool w))) (we_request withdrawal)) as Herr.
  fold m in Hwf, Herr. destruct (m st3) as [[r|e|] st4] eqn:Em; cbn in Hwf; [| |done].
  - apply wp_bind. eapply wp_mono; [eapply record_withdrawal_ok; [reflexivity|done..]| |done].
    intros [] w' Hw'. by apply wp_ret.
  - apply wp_bind, wp_on_state, wp_map_err. unfold wp at 1. cbn.
    destruct (revert _ st4) as [[[]|e'|] st5] eqn:Er; [|done..].
    split; [split; cbn; try done|done]. eapply tracked_revert; [done| |exact Er].
    eapply Herr; [|by left|exact Em]. intros s ? ? Hs. eapply receipt_never_fails. by eapply tracked_wf.
Qed.
Lemma finalize_each_ok assets ws gen w :
  preparing w → wp (finalize_each_withdrawal env assets ws gen) (λ _, preparing) anything w.
Proof.
  revert gen w. induction ws as [|x ws IH]; intros gen w Hw; cbn [finalize_each_withdrawal]; [by apply wp_ret|].
  apply wp_bind. eapply wp_mono; [by apply finalize_withdrawal_ok| |done]. intros gen' w' Hw'. by apply IH.
Qed.
Lemma wp_state_modify (f : StDB → StDB) (P : PoolWorld → Prop) (Q : () → PoolWorld → Prop) R w :
  (∀ st, same_but_tracker st (f st)) → ignores_reads P → P w → (∀ w', P w' → Q tt w') →
  wp (E:=PoolError) (on_pool_state (modify f)) Q R w.
Proof. intros Hf HP Hw HQ. apply wp_on_state, wp_modify, HQ, HP; [done|apply Hf]. Qed.
Lemma finalize_withdrawals_ok ws w :
  preparing w → wp (finalize_withdrawals env ws) (λ _, preparing) anything w.
Proof.
  intros Hw. unfold finalize_withdrawals. apply wp_bind, wp_gets, wp_bind, wp_lift; [intros _ _|done].
  apply wp_bind, wp_gets, wp_bind, wp_lift; [intros available _|done]. cbv zeta.
  apply wp_bind, wp_lift; [intros gen _|done].
  apply wp_bind, (wp_state_modify _ preparing); [by repeat split|exact preparing_same|done|].
  intros w1 Hw1. apply wp_bind. eapply wp_mono; [by apply finalize_each_ok| |done]. intros gen' w2 Hw2.
  apply wp_bind, (wp_state_modify _ preparing); [by repeat split|exact preparing_same|done|].
  intros w3 [[Hpk Hset Hi Ht] Hn]. apply wp_bind, wp_lift; [intros remaining _|done].
  apply wp_bind, wp_gets, wp_bind, wp_lift; [|done]. intros mb Hmb.
  unfold set_finalized_custodian_capacity in Hmb. inv_ok. subst. apply wp_modify.
  split; [split; cbn; [|done..]|done]. destruct Hpk. split; try done. by apply with_custodians_ok.
Qed.

(** *** Deposits *)
Lemma apply_deposits_ok ds w account :
  settled account (pw_state w) →
  wp (apply_deposits env ds) (λ r w', ∃ st, w' = set_st w st ∧ length r.1 = length ds ∧ length r.2 = length ds
        ∧ settled (default account (last r.1)) st) anything w.
Proof.
  revert w account. induction ds as [|d ds IH]; intros w account Hset; cbn [apply_deposits].
  { apply wp_ret. exists (pw_state w). by destruct w. }
  apply wp_bind, wp_on_state, wp_map_err. unfold wp at 1.
  pose proof (kept_deposit _ (wf_kept) (g_rollup_context g) d (pw_state w)
    (se_wf _ _ Hset)) as Hwf.
  destruct (apply_deposit_request _ _ (pw_state w)) as [[[]|e|] st1]; cbn in Hwf; [|done..].
  apply wp_bind, wp_on_state. unfold wp at 1, drain_touched_keys. cbn. destruct (state_tracker st1) as [tr|]; [|done].
  apply wp_bind, wp_finalise; [by eapply same_wf|]. intros st2 Hwf2 Hd2.
  apply wp_bind, wp_clean_merkle_state; [done..|]. intros post Hpost.
  apply wp_bind. eapply wp_mono; [by apply IH| |done].
  intros [posts keys] w3 (st3 & -> & Hl1 & Hl2 & Hset3). cbn [fst snd] in *. apply wp_ret. exists st3.
  cbn [fst snd length]. rewrite last_cons_default. split_and!; [done|lia|lia|exact Hset3].
Qed.
Lemma finalize_deposits_ok ds w : preparing w → wp (finalize_deposits env ds) (λ _, ready) anything w.
Proof.
  intros Hw. unfold finalize_deposits.
  apply wp_bind, (wp_state_modify _ preparing); [by repeat split|exact preparing_same|done|].
  clear w Hw. intros w Hw. pose proof (preparing_empty _ Hw) as (Ed & Et & Edp & Etp).
  destruct Hw as [[Hpk Hset Hi Htip] Hn]. apply wp_bind. eapply wp_mono; [by apply apply_deposits_ok| |done].
  intros [posts keys] w1 (st1 & -> & Hl1 & Hl2 & Hset1). cbn [fst snd] in *. rewrite length_fmap in *.
  apply wp_bind, (wp_state_modify _ (λ w', pw_pool w' = pw_pool w ∧ pw_db w' = pw_db w
    ∧ settled (default (final_state (p_mem_block (pw_pool w))) (last posts)) (pw_state w'))); [by repeat split| |done|].
  { intros w' st (E1 & E2 & Hs) Hsame. split_and!; [done..|]. by eapply settled_same. }
  intros w2 (Ep & Edb & Hset2). apply wp_bind, wp_on_state, wp_map_err. unfold wp at 1.
  rewrite (settled_checkpoint _ _ Hset2).
  destruct Hpk as [Hok Hprev Htx Hnd Hlim Hws].
  destruct (push_deposits_run (E:=PoolError) ds posts keys _ Hok Hn) as (mb' & Hrun & Hok' & Ed' & Edp' & Epr' & Ei'
    & Em' & Et' & Ew' & Ewp' & Etp' & Hs' & _); [lia|lia|].
  assert (Hfinal : default (mb_prev_merkle_state (p_mem_block (pw_pool w)))
      (last (mb_withdrawal_post_states (p_mem_block (pw_pool w)) ++ posts))
    = default (final_state (p_mem_block (pw_pool w))) (last posts)).
  { unfold final_state. rewrite Edp, Etp, !app_nil_r, last_app. by destruct (last posts). }
  rewrite Hfinal in Hrun. apply wp_bind, wp_gets. cbn [set_st pw_pool]. rewrite Ep.
  apply wp_bind, wp_lift; [|done]. rewrite Hrun. intros ? [= <-]. apply wp_modify.
  split; [split; cbn|done].
  - rewrite Ep, Edb. split; [done|congruence|by rewrite Et', Etp'|by rewrite Et'; constructor|rewrite Et'; cbn; lia|by rewrite Ew'].
  - unfold final_state. rewrite Em', Ewp', Edp', Etp', app_nil_r, Hfinal. done.
  - congruence.
  - by rewrite Ep.
Qed.

(** *** From an empty block in the making to a started one *)
Section Fresh.
Context (producer : RegistryAddress) (enforce : bool).
Local Abbreviation mb0 := (empty_mem_block producer info prev enforce).
Record fresh (w : PoolWorld) : Prop := {
  fr_mem_block : p_mem_block (pw_pool w) = mb0;
  fr_tip : tip_shared (pw_pool w) = t;
  fr_settled : settled prev (pw_state w);
}.
Lemma fresh_preparing w : fresh w → preparing w.
Proof.
  intros [Emb Et Hset]. split; [split; rewrite ?Emb; try done|by rewrite Emb].
  split; cbn; [apply empty_mem_block_ok|done|constructor|constructor|lia|constructor].
Qed.
Lemma fresh_same w st : fresh w → same_but_tracker (pw_state w) st → fresh (set_st w st).
Proof. intros [] Hs. split; [done..|]. by eapply settled_same. Qed.
(** Changes of the pending requests, of the cycles and of the database *)
Definition leaves_block (f : Pool → Pool) : Prop :=
  ∀ p, p_mem_block (f p) = p_mem_block p ∧ tip_shared (f p) = tip_shared p.
Lemma fresh_modify (f : Pool → Pool) (Q : () → PoolWorld → Prop) R w :
  leaves_block f → fresh w → (∀ w', fresh w' → Q tt w') → wp (E:=PoolError) (pool_modify f) Q R w.
Proof.
  intros Hf [Emb Et Hset] HQ. apply wp_modify, HQ. destruct (Hf (pw_pool w)) as [E1 E2].
  split; cbn; by rewrite ?E1, ?E2.
Qed.
Lemma fresh_delete c key (Q : () → PoolWorld → Prop) R w :
  fresh w → (∀ w', fresh w' → Q tt w') → wp (E:=PoolError) (on_pool_db (delete_raw c key)) Q R w.
Proof. intros [] HQ. by apply HQ. Qed.
Lemma fresh_read {A} (m : ST StDB PoolError A) (Q : A → PoolWorld → Prop) w :
  reads m → fresh w → (∀ a w', fresh w' → Q a w') → wp (on_pool_state m) Q anything w.
Proof.
  intros Hm Hw HQ. apply wp_reads; [done| |done]. intros a st Hs. by apply HQ, fresh_same.
Qed.
Local Abbreviation keeps m := (∀ w, fresh w → wp m (λ _, fresh) anything w).
Lemma pool_keeps_bind {A B} (m : ST PoolWorld PoolError A) (f : A → ST PoolWorld PoolError B) :
  keeps m → (∀ a, keeps (f a)) → keeps (m ≫= f).
Proof. intros Hm Hf w Hw. apply wp_bind. eapply wp_mono; [by apply Hm| |done]. intros a w'. apply Hf. Qed.
Lemma keeps_ret {A} (a : A) : keeps (mret (M:=ST PoolWorld PoolError) a).
Proof. intros w Hw. by apply wp_ret. Qed.
Lemma pool_keeps_lift {A} (m : outcome PoolError A) : keeps (lift m).
Proof. intros w Hw. by apply wp_lift. Qed.
Lemma keeps_gets {A} (f : PoolWorld → A) : keeps (gets (E:=PoolError) f).
Proof. intros w Hw. by apply wp_gets. Qed.
Lemma keeps_read {A} (m : ST StDB PoolError A) : reads m → keeps (on_pool_state m).
Proof. intros Hm w Hw. by apply fresh_read. Qed.
Lemma keeps_modify f : leaves_block f → keeps (pool_modify (E:=PoolError) f).
Proof. intros Hf w Hw. by apply fresh_modify. Qed.
Lemma keeps_entry id f : keeps (pending_entry (E:=PoolError) id f).
Proof. by apply keeps_modify. Qed.
Lemma keeps_delete c key : keeps (on_pool_db (delete_raw (E:=PoolError) c key)).
Proof. intros w Hw. by apply fresh_delete. Qed.
Lemma keeps_for {A} (l : list A) (f : A → ST PoolWorld PoolError unit) : (∀ a, keeps (f a)) → keeps (st_for l f).
Proof. intros Hf. induction l; cbn [st_for]; [apply keeps_ret|apply pool_keeps_bind; auto]. Qed.
Lemma keeps_remove_tx h : keeps (on_pool_db (remove_mem_pool_transaction (E:=PoolError) h)).
Proof. intros w []. done. Qed.
Local Ltac keeps :=
  repeat first
    [ apply keeps_ret | apply pool_keeps_lift | apply keeps_gets | apply keeps_entry | apply keeps_delete
    | apply keeps_remove_tx | apply keeps_for; intros ? | apply keeps_read; solve [read_only]
    | apply pool_keeps_bind; [|intros ?] | progress cbv zeta | case_match ].

Lemma remove_stale_keeps id e : keeps (remove_stale id e).
Proof. unfold remove_stale. keeps. Qed.
Lemma remove_each_stale_keeps l : keeps (remove_each_stale l).
Proof.
  induction l as [|[id e] l IH]; cbn [remove_each_stale]; [keeps|].
  apply pool_keeps_bind; [apply remove_stale_keeps|intros ?]. apply pool_keeps_bind; [done|intros ?; keeps].
Qed.
Lemma remove_unexecutables_keeps : keeps remove_unexecutables.
Proof.
  unfold remove_unexecutables. apply pool_keeps_bind; [keeps|intros ?]. apply pool_keeps_bind; [apply remove_each_stale_keeps|intros ?].
  by apply keeps_modify.
Qed.
Lemma retain_keeps {A} (f : A → ST StDB StateError.t bool) l : (∀ a, reads (f a)) → keeps (retain f l).
Proof.
  intros Hf. induction l as [|a l IH]; cbn [retain]; [keeps|].
  apply pool_keeps_bind; [apply keeps_read, reads_expect, Hf|intros ?]. apply pool_keeps_bind; [done|intros ?; keeps].
Qed.
Lemma reads_filter_withdrawals w : reads (filter_withdrawals w).
Proof. unfold filter_withdrawals. read_only. Qed.
Lemma reads_filter_tx tx : reads (filter_tx tx).
Proof. unfold filter_tx. read_only. Qed.
Lemma package_pending_keeps l ws : keeps (package_pending env l ws).
Proof.
  revert ws. induction l as [|e l IH]; intros ws; cbn [package_pending]; [keeps|].
  destruct (head _); [|apply IH]. apply pool_keeps_bind; [apply keeps_read, reads_expect, reads_filter_withdrawals|].
  intros keep. cbv zeta. case_match; [apply keeps_ret|apply IH].
Qed.
Lemma try_package_keeps ws : keeps (try_package_more_withdrawals env ws).
Proof.
  unfold try_package_more_withdrawals. apply pool_keeps_bind; [apply retain_keeps, reads_filter_withdrawals|intros ?].
  case_match; [|keeps]. apply pool_keeps_bind; [keeps|intros ?]. apply package_pending_keeps. Qed.

Lemma ready_server w s : ready w → ready (mkPoolWorld (with_sync_server s (pw_pool w)) (pw_db w) (pw_state w)).
Proof. by intros [[] ?]; split. Qed.
Lemma prepare_next_ok ws ds txs w :
  fresh w → wp (prepare_next_mem_block (Mac:=Mac) env ws ds txs) (λ _, ready) anything w.
Proof.
  intros Hw. unfold prepare_next_mem_block. apply wp_bind.
  eapply wp_mono; [by apply (retain_keeps _ _ reads_filter_tx)| |done]. intros txs' w1 Hw1.
  apply wp_bind, wp_lift; [intros _ _|done]. apply wp_bind.
  eapply wp_mono; [by apply finalize_withdrawals_ok, fresh_preparing| |done]. intros [] w2 Hw2. apply wp_bind.
  eapply wp_mono; [by apply finalize_deposits_ok| |done]. intros [] w3 Hw3. apply wp_bind, wp_gets, wp_bind.
  eapply (wp_mono _ (λ _, ready) _ anything); [| |done].
  { destruct (p_sync_server _); [|by apply wp_ret]. apply wp_bind, wp_gets, wp_modify. by apply ready_server. }
  intros [] w4 Hw4. eapply wp_mono; [by apply reinject_txs_ok|done|done].
Qed.
Lemma create_accounts_ok addrs w : ready w → wp (create_accounts (Mac:=Mac) env addrs) (λ _, ready) anything w.
Proof.
  intros Hw. unfold create_accounts. destruct (pe_account_creator env) as [creator|]; [|by apply wp_ret].
  apply wp_bind, wp_try; [read_only|]. intros built st Hs. pose proof (ready_same _ _ Hw Hs) as Hw1.
  destruct built as [[[tx next]|]|]; [|by apply wp_ret..]. apply wp_bind, wp_modify, wp_bind, wp_attempt.
  eapply wp_mono; [apply push_transaction_with_db_ok|by intros; apply wp_ret|by intros ? []; apply wp_ret].
  destruct Hw1 as [[Hpk Hset Hi Htip] Hst]. split; [split; cbn; try done|done]. by apply packaging_addresses.
Qed.
Lemma rebuild_mem_block_ok recovery txs ws1 ws2 addrs w :
  fresh w → wp (rebuild_mem_block (Mac:=Mac) env recovery txs ws1 ws2 addrs) (λ _, ready) anything w.
Proof.
  intros Hw. unfold rebuild_mem_block. apply wp_bind.
  eapply wp_mono; [by apply remove_unexecutables_keeps| |done]. intros [] w1 Hw1. apply wp_bind.
  eapply (wp_mono _ (λ _, fresh) _ anything); [| |done].
  { destruct recovery; [by apply wp_ret|by apply try_package_keeps]. }
  intros ws w2 Hw2. apply wp_bind, fresh_modify; [done|done|]. intros w3 Hw3. apply wp_bind, wp_gets, wp_bind.
  eapply wp_mono; [by apply prepare_next_ok| |done]. intros [] w4 Hw4. apply wp_bind.
  eapply wp_mono; [by apply create_accounts_ok| |done]. intros [] w5 Hw5.
  apply wp_bind, wp_gets, wp_bind, wp_lift; [intros used _|done]. apply wp_modify.
  apply (ready_cycles w5); [done|apply Hw5].
Qed.
End Fresh.
End Tip.

(** ** Calls on the pool *)
(** The pool on top of the block [tip] *)
Record pool_ok (tip : L2Block) (p : Pool) : Prop := {
  pl_packaging : packaging (post_account (block_raw tip)) (p_store p) (p_pending p) (p_mem_block p);
  pl_settled : settled (final_state (p_mem_block p)) (p_state p);
  pl_started : started (p_mem_block p);
  pl_shared : p_shared_block p = Some (mb_block_info (p_mem_block p));
  pl_number : bi_number (mb_block_info (p_mem_block p)) = block_number tip + 1;
  pl_tip : (p_current_tip p).1.2 = block_number tip;
}.
Definition pool_kept {A} (tip : L2Block) (m : ST Pool PoolError A) : Prop :=
  ∀ p, pool_ok tip p → wp m (λ _, pool_ok tip) (pool_ok tip) p.

Lemma push_transaction_keeps (Hproxy : proxy_safe) tip tx : pool_kept tip (push_transaction (Mac:=Mac) env tx).
Proof.
  intros p [Hpk Hset Hst Hsh Hn Ht]. unfold wp, push_transaction.
  pose proof (push_transaction_with_db_ok Hproxy (post_account (block_raw tip)) (mb_block_info (p_mem_block p))
    (tip_shared p) tx (mkPoolWorld p (p_store p) (p_state p))) as Hrun.
  unfold wp in Hrun. destruct (push_transaction_with_db _ _ _) as [[[]|e|] w]; [| |done].
  - destruct Hrun as [[Hpk' Hset' Hi' [= Et Es]] Hst']; [by split|].
    split; cbn; [done|done|done|by rewrite Es, Hsh, Hi'|by rewrite Hi'|by rewrite Et].
  - destruct Hrun as [_ [[c Ep] _]]; [by split|]. rewrite Ep. by split.
Qed.
Lemma push_withdrawal_request_keeps tip withdrawal : pool_kept tip (push_withdrawal_request env withdrawal).
Proof.
  intros p Hp. unfold wp, push_withdrawal_request. cbv zeta. case_bool_decide; [done|].
  match goal with |- context [?m (p_state p)] => destruct (m (p_state p)) as [[id|e|] st]; [|done..] end.
  destruct Hp as [[Hok Hprev Htx Hnd Hl Hw] Hset Hst Hsh Hn Ht].
  split; cbn; try done. split; cbn; try done.
  - eapply Forall2_impl; [exact Htx|]. intros h post (tx & r & E1 & E2 & ?). exists tx, r. cbn.
    by rewrite !lookup_insert_ne by done.
  - eapply Forall_impl; [exact Hw|]. intros h. apply awaited_entry. intros e x Hx. cbn. apply elem_of_app. by left.
Qed.

(** Requests of users, whatever becomes of them; [None] after a panic *)
Inductive pool_call := CallPushTx (tx : L2Transaction) | CallPushWithdrawal (w : WithdrawalRequestExtra).
Definition run_pool_call (c : pool_call) : ST Pool PoolError unit :=
  match c with
  | CallPushTx tx => push_transaction (Mac:=Mac) env tx
  | CallPushWithdrawal w => push_withdrawal_request env w
  end.
Fixpoint run_pool_calls (cs : list pool_call) (p : Pool) : option Pool :=
  match cs with
  | [] => Some p
  | c :: cs => match run_pool_call c p with (Panic, _) => None | (_, p) => run_pool_calls cs p end
  end.
Lemma run_pool_calls_keep (Hproxy : proxy_safe) tip cs p p' :
  pool_ok tip p → run_pool_calls cs p = Some p' → pool_ok tip p'.
Proof.
  revert p. induction cs as [|c cs IH]; intros p Hp Hrun; cbn in Hrun; [by simplify_eq|].
  assert (Hc : pool_kept tip (run_pool_call c)).
  { destruct c; [by apply push_transaction_keeps|by apply push_withdrawal_request_keeps]. }
  specialize (Hc p Hp). unfold wp in Hc. destruct (run_pool_call c p) as [[[]|e|] p1]; [by eapply IH..|done].
Qed.

(** *** A new tip *)
(** The account tree of the store is the one of the last valid block. *)
Definition tree_at_tip (db : StoreDb) : Prop :=
  ∀ b db', get_last_valid_tip_block (E:=PoolError) db = (Ok b, db') →
    smt_root (sd_account_tree db) = am_merkle_root (post_account (block_raw b)).

Lemma wp_on_store {A} (m : ST StoreDb PoolError A) (Q : A → Pool → Prop) p :
  (∀ a, (m (p_store p)).1 = Ok a → Q a p) → wp (on_store m) Q (λ _, True) p.
Proof. intros HQ. unfold wp, on_store. destruct (m (p_store p)).1; auto. Qed.
Lemma opened_settled db st :
  tree_at_tip db → (open_mem_state (E:=PoolError) db).1 = Ok st →
  ∃ b, (get_last_valid_tip_block (E:=PoolError) db).1 = Ok b ∧ settled (post_account (block_raw b)) st.
Proof.
  intros Htree Hopen. unfold open_mem_state in Hopen.
  destruct (get_last_valid_tip_block db) as [[b|e|] db'] eqn:Eb; unfold mbind, ST_bind in Hopen; rewrite Eb in Hopen; [|done..].
  exists b. split; [done|]. cbn in Hopen. simplify_eq. specialize (Htree b _ Eb).
  assert (db' = db) as ->.
  { clear - Eb. unfold get_last_valid_tip_block, get_last_valid_tip_block_hash, get_meta_hash, get_block, st_unwrap, get_as,
      mbind, ST_bind, lift in Eb. by repeat case_match; simplify_eq. }
  split; cbn; [|done|done|done]. split; cbn; [done|lia|split; cbn; constructor|].
  split; intros ?? E; cbn in E; by rewrite lookup_empty in E.
Qed.

Lemma last_valid_block_of db h :
  (get_last_valid_tip_block_hash (E:=PoolError) db).1 = Ok h →
  get_last_valid_tip_block (E:=PoolError) db = st_unwrap (get_block h) db.
Proof.
  intros Eh. unfold get_last_valid_tip_block, mbind, ST_bind.
  destruct (get_last_valid_tip_block_hash db) as [r db'] eqn:E. cbn in Eh. subst.
  assert (db' = db) as ->; [|done]. unfold get_last_valid_tip_block_hash, get_meta_hash, st_unwrap, get_as, mbind, ST_bind, lift in E.
  by repeat case_match; simplify_eq.
Qed.
Lemma st_unwrap_block h db b :
  (st_unwrap (E:=PoolError) (get_block h) db).1 = Ok b → (get_block (E:=PoolError) h db).1 = Ok (Some b).
Proof.
  unfold st_unwrap, mbind, ST_bind, lift. destruct (get_block h db) as [[[]|e|] db']; cbn; [|done..]. by intros [= ->].
Qed.
Lemma refresh_deposit_cells_store h cells p :
  p_store (refresh_deposit_cells env h cells p).2 = p_store p.
Proof.
  unfold refresh_deposit_cells, mbind, ST_bind, on_store, lift, ok_or. destruct (get_account_count _).1; [|done..].
  destruct (get_block h (p_store p)).1 as [[b|]|e|]; [|done..]. destruct (collect_deposit_cells cells); [|done].
  by destruct (sanitize_deposit_cells _ _ _ _).1.
Qed.
Lemma reset_full_ok (Hproxy : proxy_safe) old_tip new_tip cells p p' :
  tree_at_tip (p_store p) → reset_full (Mac:=Mac) env old_tip (Some new_tip) cells p = (Ok tt, p') →
  ∃ tip, (get_block (E:=PoolError) new_tip (p_store p)).1 = Ok (Some tip) ∧ pool_ok tip p'
    ∧ (p_current_tip p').1.1 = new_tip.
Proof.
  intros Htree Hrun.
  cut (wp (reset_full (Mac:=Mac) env old_tip (Some new_tip) cells)
    (λ _ p', ∃ tip, (get_block (E:=PoolError) new_tip (p_store p)).1 = Ok (Some tip) ∧ pool_ok tip p'
       ∧ (p_current_tip p').1.1 = new_tip) (λ _, True) p).
  { unfold wp. by rewrite Hrun. }
  clear Hrun p'. unfold reset_full. apply wp_bind. unfold choose_tip. apply wp_bind, wp_ret, wp_bind, wp_on_store.
  intros tip Htip. apply wp_ret. cbv beta iota. apply wp_bind.
  eapply (wp_mono _ (λ _ p', p' = p) _ (λ _, True)); [| |done].
  { destruct old_tip as [old|]; [|by apply wp_ret]. case_bool_decide; [by apply wp_ret|].
    apply wp_bind, wp_on_store. intros b _. apply wp_bind, wp_on_store. intros o _. by apply wp_lift. }
  intros [txs ws] ? ->. cbv zeta. apply wp_bind.
  eapply (wp_mono _ (λ _ p', p_store p' = p_store p) _ (λ _, True)); [| |done].
  { case_bool_decide; [by apply wp_ret|]. pose proof (refresh_deposit_cells_store new_tip cells p) as Es. unfold wp.
    by destruct (refresh_deposit_cells _ _ _ _) as [[[]|e|] p1]. }
  intros [] p1 Estore1. apply wp_bind, wp_on_store. intros snap Hsnap. apply wp_bind, wp_lift; [|done].
  intros [] ->%assert_that_Ok%bool_decide_eq_true.
  apply wp_bind. unfold reset_mem_block_on. apply wp_bind, wp_gets, wp_bind, wp_lift; [|done].
  intros [content mb] Hreset. apply wp_bind, wp_modify, wp_ret, wp_bind. unfold set_tip. apply wp_bind, wp_on_store.
  intros gs _. apply wp_modify. apply wp_bind, wp_on_store. intros mws _. apply wp_bind, wp_on_store. intros mtxs _.
  apply wp_bind, wp_on_store. cbn [p_store with_current_tip with_mem_block]. intros st Hopen.
  apply wp_bind, wp_gets. cbn [p_mem_block with_current_tip with_mem_block].
  rewrite Estore1 in *. destruct (opened_settled _ _ Htree Hopen) as (b & Hb & Hset).
  assert (b = tip) as ->.
  { rewrite (last_valid_block_of _ _ Hsnap), Htip in Hb. by injection Hb. }
  assert (Hmb : mb = empty_mem_block (mb_block_producer (p_mem_block p1)) (mb_block_info mb)
      (post_account (block_raw tip)) (mb_enforce_checkpoints (p_mem_block p1))
    ∧ bi_number (mb_block_info mb) = block_number tip + 1).
  { split; [|by eapply mem_block_reset_ok]. unfold mem_block_reset in Hreset. inv_ok. by simplify_eq. }
  destruct Hmb as [Hmb Hnum].
  match goal with |- wp (with_world _ ?i _) _ _ ?p2 =>
    pose proof (rebuild_mem_block_ok Hproxy (post_account (block_raw tip)) i (tip_shared p2)
      (mb_block_producer (p_mem_block p1)) (mb_enforce_checkpoints (p_mem_block p1))
      (bool_decide (old_tip = None)) (txs ++ mtxs) ws mws (mc_new_addresses content)
      (mkPoolWorld p2 (p_store p2) st)) as Hrebuild end.
  unfold wp, with_world in *. destruct (rebuild_mem_block _ _ _ _ _ _ _) as [[[]|e|] w]; [|done..].
  destruct Hrebuild as [[Hpk Hset' Hi [= Et Es]] Hst]; [by split|].
  exists tip. split; [by apply st_unwrap_block|]. cbn. rewrite Et. split; [|done].
  split; cbn; [done|done|done|by rewrite Hi|by rewrite Hi|by rewrite Et].
Qed.
End World.

(** C20. The memory pool keeps the block it is making true.  Once the pool has been reset
    on a tip (whatever was in it before, and whatever layer 1 answered), and after any
    sequence of transactions and withdrawals pushed by users, accepted or refused: the
    block in the making is a consistent record on top of the tip's account state, with
    the number that follows the tip's, no transaction twice and no more than the limit;
    the state the pool shares with its readers has the root and the account count that
    the last item of the record leads to, with nothing left to write; and the store
    holds each packaged transaction together with the receipt whose post state the
    record lists.  Conditions: the account tree of the store is that of its tip
    ([tree_at_tip]); no account is kept from creating token proxies, or a transaction that ran to
    its end has not reverted past its start ([proxy_safe]); and no step of the run
    panics. *)
Theorem pool_keeps_mem_block {Mac : Type} `{MachineLaws Mac}
    `{Blake2b, Molecule, ExtraCodec, ContractArgs, SubstrateBn, SyscallCodec, MapIter, HashCodec, SmtRoot}
    `{CkbTypes, CustodianCodec, Keccak256, EthAbi, Wallet, CreatorCodec, PendingIter, MemPoolProvider}
    (env : PoolEnv) (old_tip : option H256) (new_tip : H256)
    (cells : LocalCellsManager) (p0 p1 p2 : Pool) (calls : list pool_call) :
  proxy_safe (Mac:=Mac) env → tree_at_tip (p_store p0) →
  reset_full (Mac:=Mac) env old_tip (Some new_tip) cells p0 = (Ok tt, p1) →
  run_pool_calls (Mac:=Mac) env calls p1 = Some p2 →
  ∃ tip, (get_block (E:=PoolError) new_tip (p_store p0)).1 = Ok (Some tip)
    ∧ pool_ok env tip p2
    ∧ calculate_merkle_state (p_state p2) = (Ok (final_state (p_mem_block p2)), p_state p2).
Proof.
  intros Hproxy Htree Hreset Hcalls.
  destruct (reset_full_ok env Hproxy old_tip new_tip cells p0 p1 Htree Hreset)
    as (tip & Htip & Hok & _).
  exists tip. split; [done|].
  assert (Hok2 : pool_ok env tip p2) by (by eapply run_pool_calls_keep). split; [done|].
  eapply settled_merkle_state. apply Hok2.
Qed.
