(* ===== verification/Psc.v ===== *)
(** * Producing, submitting and confirming blocks (crates/block-producer/src/psc.rs)

    The block producer runs one loop and two tasks.  The loop produces local
    blocks on a timer, starts a task that submits the next local block to layer 1
    and a task that waits until the next submitted block is confirmed, and moves
    the positions of the store when a task ends.  A task that finds that layer 1
    has moved on ends the loop, which takes blocks back, synchronises with layer 1
    and starts again.

    Between two of its [await]s a task is in one of the states of [SubmitTask] and
    [ConfirmTask]; [event]s are what can happen next, with what the services
    answer as arguments: layer 1 ([L1Node]), the assembly of blocks
    ([ProduceBlockResult]) and of submission transactions.  [handle] runs one
    event, [loop_top] the part of the loop that starts tasks, [recover] the
    recovery from a failed task. *)
From Stdlib Require Import ZArith Lia Strings.Byte.
From stdpp Require Import prelude list gmap.
From S2P Require Import Prelude Bytes Types State StateSpec StateDB History Finality Ckb Eip712.
From S2P Require Import SubmitBlock RollupScript ChallengeLock NodeUtils NodeState AccountLocks Backends Syscalls Generator Verifiers Store LocalCells BlockSyncServer ChallengeContext Chain ChainUpdater SyncL1.
Local Open Scope Z_scope.

Record PscConfig := mkPscConfig { pc_local_limit : Z; pc_submitted_limit : Z }.

(** ** Layer 1 *)
Inductive CellStatus := CellLive | CellDead | CellUnknown.
#[export] Instance CellStatus_eq_dec : EqDecision CellStatus.
Proof. solve_decision. Defined.
Record L1Block := mkL1Block { l1b_number : Z; l1b_transactions : list L1Transaction }.

(** What layer 1 answers at one moment; [None] for a failed call.  [ln_send] is
    [None] when the transaction is accepted, and otherwise the JSON-RPC code of
    the error, if it has one. *)
Record L1Node := mkL1Node {
  ln_cell : OutPoint → option (option CellStatus);
  ln_transaction_block_number : H256 → option (option Z);
  ln_block_by_number : Z → option (option L1Block);
  ln_send : L1Transaction → option (option Z);
  ln_status : H256 → option (option TxStatus);
  ln_tip_number : option Z;
  ln_median_time : option (option Z);
}.
Definition TransactionFailedToResolve : Z := -301.
Definition PoolRejectedDuplicatedTransaction : Z := -1107.

(** [UnknownCellError], [DeadCellError], or any other error *)
Inductive CellError := UnknownCell | DeadCell (consumed_by_tx : option H256) | OtherError.

(** [ShouldRevertError], [ShouldResyncError], or an error after which the task
    starts again *)
Inductive TaskError := ShouldRevert (n : Z) | ShouldResync | Retry.

Section Cells.
Context `{Blake2b, HashCodec} (l1 : L1Node).

Definition spends_cell (p : OutPoint) (tx : L1Transaction) : bool :=
  existsb (λ i, bool_decide (ci_previous_output i = p)) (l1_inputs tx).
(** The transaction that consumed the cell, in [fuel] blocks *)
Fixpoint search_consumer (fuel : nat) (p : OutPoint) (opt_block : option L1Block) :
    outcome CellError unit :=
  match fuel with
  | O => Err (DeadCell None)
  | S fuel =>
      match opt_block with
      | None => Ok tt
      | Some block =>
          match list_find (λ tx, spends_cell p tx = true) (l1b_transactions block) with
          | Some (_, tx) => Err (DeadCell (Some (l1_hash tx)))
          | None =>
              next ← add_w 64 (l1b_number block) 1;
              block ← ok_or OtherError (ln_block_by_number l1 next);
              search_consumer fuel p block
          end
      end
  end.
Definition check_cell (p : OutPoint) : outcome CellError unit :=
  found ← ok_or OtherError (ln_transaction_block_number l1 (op_tx_hash p));
  block_number ← ok_or UnknownCell found;
  block ← ok_or OtherError (ln_block_by_number l1 block_number);
  search_consumer 100 p block.
Definition check_input (_ : unit) (input : CellInput) : outcome CellError unit :=
  status ← ok_or OtherError (ln_cell l1 (ci_previous_output input));
  if bool_decide (status = Some CellLive) then Ok tt else check_cell (ci_previous_output input).
Definition check_tx_input (tx : L1Transaction) : outcome CellError unit :=
  foldM check_input tt (l1_inputs tx).

Definition send_transaction_or_check_inputs (tx : L1Transaction) : outcome CellError unit :=
  match ln_send l1 tx with
  | None => Ok tt
  | Some code =>
      if bool_decide (code = Some TransactionFailedToResolve) then
        match check_tx_input tx with
        | Err (DeadCell (Some consumed_by_tx)) =>
            if bool_decide (consumed_by_tx = l1_hash tx) then Ok tt
            else Err (DeadCell (Some consumed_by_tx))
        | Err e => Err e
        | Panic => Panic
        | Ok _ => Err OtherError
        end
      else if bool_decide (code = Some PoolRejectedDuplicatedTransaction) then Ok tt
      else Err OtherError
  end.

(** [None] is below every time. *)
Definition median_gte (timestamp_millis : Z) : bool :=
  match ln_tip_number l1, ln_median_time l1 with
  | Some _, Some (Some median) => timestamp_millis <=? median
  | _, _ => false
  end.
End Cells.

Definition greater_since (timestamp_millis : Z) : Z :=
  since_new_timestamp_seconds (timestamp_millis / 1000 + 1).
(** [since.extract_lock_value().unwrap().timestamp().unwrap()] *)
Definition since_timestamp {E} (since : Z) : outcome E Z :=
  value ← since_extract_lock_value since;
  match value with Some (LockTimestamp t) => Ok t | _ => Panic end.

(** ** The tasks *)
Record ComposeSubmitTxArgs := mkComposeSubmitTxArgs {
  ca_deposit_cells : list DepositInfo; ca_block : L2Block; ca_global_state : GlobalState;
  ca_since : Z; ca_withdrawal_extras : list WithdrawalRequestExtra;
}.
(** The block a task submits: [is_first], its number and hash, and [since_millis] *)
Record Submission := mkSubmission {
  su_is_first : bool; su_number : Z; su_hash : H256; su_since_millis : Z;
}.
Inductive SubmitTask :=
| SubmitStart
| SubmitCompose (s : Submission) (args : ComposeSubmitTxArgs)
| SubmitApply (s : Submission) (tx : L1Transaction)
| SubmitSend (s : Submission) (tx : L1Transaction)
| SubmitDone (r : outcome TaskError NumberHash).
Inductive ConfirmTask :=
| ConfirmStart
| ConfirmPoll (nh : NumberHash) (tx : L1Transaction)
| ConfirmIndexer (nh : NumberHash) (tx : L1Transaction) (block_number : option Z)
| ConfirmDone (r : outcome TaskError NumberHash).

(** [submitting] and [confirming] are whether there is a task. *)
Record Psc := mkPsc {
  ps_chain : Chain; ps_store : StoreDb; ps_cells : LocalCellsManager;
  ps_server : option BlockSyncServerState;
  ps_local_count : Z; ps_submitted_count : Z;
  ps_submit : option SubmitTask; ps_confirm : option ConfirmTask;
}.

Record ProduceBlockResult := mkProduceBlockResult {
  pr_block : L2Block; pr_global_state : GlobalState; pr_deposit_cells : list DepositInfo;
  pr_withdrawal_extras : list WithdrawalRequestExtra; pr_remaining_capacity : FinalizedCustodianCapacity;
}.
Inductive ComposeError := TransactionSizeError | OtherComposeError.

Definition with_submit (t : option SubmitTask) (p : Psc) : Psc :=
  mkPsc (ps_chain p) (ps_store p) (ps_cells p) (ps_server p) (ps_local_count p) (ps_submitted_count p)
    t (ps_confirm p).
Definition with_confirm (t : option ConfirmTask) (p : Psc) : Psc :=
  mkPsc (ps_chain p) (ps_store p) (ps_cells p) (ps_server p) (ps_local_count p) (ps_submitted_count p)
    (ps_submit p) t.
Definition with_store (db : StoreDb) (p : Psc) : Psc :=
  mkPsc (ps_chain p) db (ps_cells p) (ps_server p) (ps_local_count p) (ps_submitted_count p)
    (ps_submit p) (ps_confirm p).
Definition with_cells (m : LocalCellsManager) (p : Psc) : Psc :=
  mkPsc (ps_chain p) (ps_store p) m (ps_server p) (ps_local_count p) (ps_submitted_count p)
    (ps_submit p) (ps_confirm p).
Definition with_server (s : option BlockSyncServerState) (p : Psc) : Psc :=
  mkPsc (ps_chain p) (ps_store p) (ps_cells p) s (ps_local_count p) (ps_submitted_count p)
    (ps_submit p) (ps_confirm p).
Definition set_local_count (n : Z) (p : Psc) : Psc :=
  mkPsc (ps_chain p) (ps_store p) (ps_cells p) (ps_server p) n (ps_submitted_count p)
    (ps_submit p) (ps_confirm p).
Definition set_submitted_count (n : Z) (p : Psc) : Psc :=
  mkPsc (ps_chain p) (ps_store p) (ps_cells p) (ps_server p) (ps_local_count p) n
    (ps_submit p) (ps_confirm p).
Definition with_chain (c : Chain) (p : Psc) : Psc :=
  mkPsc c (ps_store p) (ps_cells p) (ps_server p) (ps_local_count p) (ps_submitted_count p)
    (ps_submit p) (ps_confirm p).

(** Encoding of a block, for its size *)
Class BlockCodec := enc_L2Block : L2Block → bytes.
Definition MAX_ROLLUP_WITNESS_SIZE : Z := Z.shiftl 1 19.
Definition ROLLUP_WITNESS_OVERHEAD : Z := 48.
Definition check_block_size (block_size : Z) : bool :=
  negb (MAX_ROLLUP_WITNESS_SIZE - ROLLUP_WITNESS_OVERHEAD <=? block_size).

(** What the loop stops with: an error of a task, or one it does not recover from *)
Inductive PscError := Stopped (e : TaskError) | Fatal.

(** ** Submitting and confirming *)
Section Tasks.
Context `{Blake2b, Molecule, HashCodec}.
Local Abbreviation R := (ST StoreDb TaskError).

(** [.context(..)?] and [.expect(..)] on what a snapshot returns *)
Definition or_retry {A} (m : R (option A)) : R A := o ← m; lift (ok_or Retry o).

Definition submit_next_block : R (bool * Z) :=
  last_submitted ← st_unwrap get_last_submitted_block_number_hash;
  block_number ← lift (add_w 64 (nh_number last_submitted) 1);
  last_confirmed ← st_unwrap get_last_confirmed_block_number_hash;
  first ← lift (add_w 64 (nh_number last_confirmed) 1);
  mret (block_number =? first, block_number).

(** [Vec<WithdrawalRequestExtra>] from the store, in the order of the block *)
Fixpoint restore_withdrawals (block_hash : H256) (idx : Z) (ws : list WithdrawalRequest) :
    R (list WithdrawalRequestExtra) :=
  match ws with
  | [] => mret []
  | w :: ws =>
      extra ← or_retry (get_withdrawal_by_key (build_item_key block_hash idx));
      lift (reject_if (negb (bool_decide (withdrawal_hash (we_request extra) = withdrawal_hash w))) Retry) ;;
      extras ← restore_withdrawals block_hash (idx + 1) ws;
      mret (extra :: extras)
  end.

(** [submit_block] up to the transaction *)
Definition submit_block_read (is_first : bool) (block_number : Z) : R SubmitTask :=
  block_hash ← or_retry (get_block_hash_by_number block_number);
  block ← or_retry (get_block block_hash);
  let since := greater_since (timestamp (block_raw block)) in
  since_millis ← lift (since_timestamp since);
  let submission := mkSubmission is_first block_number block_hash since_millis in
  stored ← get_block_submit_tx block_number;
  match stored with
  | Some tx => mret (SubmitApply submission tx)
  | None =>
      withdrawal_extras ← restore_withdrawals block_hash 0 (block_withdrawals block);
      deposit_cells ← or_retry (get_block_deposit_info_vec block_number);
      global_state ← or_retry (get_block_post_global_state block_hash);
      mret (SubmitCompose submission
              (mkComposeSubmitTxArgs deposit_cells block global_state since withdrawal_extras))
  end.

(** The deposits are live, and the transaction is sent. *)
Definition check_deposit (l1 : L1Node) (block_number : Z) (_ : unit) (d : DepositInfo) :
    outcome TaskError unit :=
  status ← ok_or Retry (ln_cell l1 (cell_out_point (di_cell d)));
  reject_if (negb (bool_decide (status = Some CellLive))) (ShouldRevert block_number).
Definition submit_error (s : Submission) (e : CellError) : TaskError :=
  match e with
  | UnknownCell => if su_is_first s then ShouldResync else Retry
  | DeadCell _ => ShouldRevert (su_number s)
  | OtherError => Retry
  end.
Definition submit_block_send (l1 : L1Node) (s : Submission) (tx : L1Transaction) : R NumberHash :=
  deposits ← or_retry (get_block_deposit_info_vec (su_number s));
  lift (foldM (check_deposit l1 (su_number s)) tt deposits) ;;
  lift (map_err (submit_error s) (send_transaction_or_check_inputs l1 tx)) ;;
  mret (mkNumberHash (su_number s) (su_hash s)).

Definition confirm_next_block : R ConfirmTask :=
  last_confirmed ← st_unwrap get_last_confirmed_block_number_hash;
  block_number ← lift (add_w 64 (nh_number last_confirmed) 1);
  block_hash ← st_unwrap (get_block_hash_by_number block_number);
  tx ← st_unwrap (get_block_submit_tx block_number);
  mret (ConfirmPoll (mkNumberHash block_number block_hash) tx).
Definition confirm_error (nh : NumberHash) (e : CellError) : TaskError :=
  match e with
  | UnknownCell => ShouldResync
  | DeadCell _ => ShouldRevert (nh_number nh)
  | OtherError => Retry
  end.
(** One round of the loop of [poll_tx_confirmed]; [elapsed]: the last sending is
    more than 24 seconds ago *)
Definition poll_tx_confirmed (l1 : L1Node) (elapsed : bool) (nh : NumberHash) (tx : L1Transaction) :
    outcome TaskError ConfirmTask :=
  status ← ok_or Retry (ln_status l1 (l1_hash tx));
  match status with
  | Some Committed => Ok (ConfirmIndexer nh tx None)
  | _ =>
      (if bool_decide (status = Some Rejected) || elapsed
       then map_err (confirm_error nh) (send_transaction_or_check_inputs l1 tx) else Ok tt) ;;
      Ok (ConfirmPoll nh tx)
  end.
(** One round of waiting for the indexer: the block of the transaction is asked for
    once, before the loop, and kept in [known] from then on. *)
Definition indexer_synced (l1 : L1Node) (tx : L1Transaction) (known : option Z) :
    outcome TaskError (Z * bool) :=
  block_number ← match known with
                 | Some block_number => Ok block_number
                 | None =>
                     found ← ok_or Retry (ln_transaction_block_number l1 (l1_hash tx));
                     ok_or Retry found
                 end;
  tip ← ok_or Retry (ln_tip_number l1);
  Ok (block_number, block_number <=? tip).

(** ** Messages to read-only nodes *)
Local Abbreviation F := (ST StoreDb PscError).
Definition or_fatal {A} (m : F (option A)) : F A := o ← m; lift (ok_or Fatal o).

Definition submitted_message (b : Z) : F (NumberHash * H256) :=
  block_hash ← or_fatal (get_block_hash_by_number b);
  tx_hash ← or_fatal (get_block_submit_tx_hash b);
  mret (mkNumberHash b block_hash, tx_hash).

Definition local_block_message (b : Z) : F LocalBlock :=
  block_hash ← or_fatal (get_block_hash_by_number b);
  block ← or_fatal (get_block block_hash);
  global_state ← or_fatal (get_block_post_global_state block_hash);
  deposit_info_vec ← or_fatal (get_block_deposit_info_vec b);
  asset_scripts ←
    (fix scripts (hs : list H256) : F (list Script) :=
       match hs with
       | [] => mret []
       | h :: hs => s ← or_fatal (get_asset_script h); ss ← scripts hs; mret (s :: ss)
       end) (foldr set_insert []
               (filter (λ h, h256_is_zero h = false)
                  ((λ d, dr_sudt_script_hash (di_request d)) <$> deposit_info_vec)));
  withdrawals ←
    (fix extras (ws : list WithdrawalRequest) : F (list WithdrawalRequestExtra) :=
       match ws with
       | [] => mret []
       | w :: ws =>
           e ← or_fatal (get_withdrawal (withdrawal_hash w)); es ← extras ws; mret (e :: es)
       end) (block_withdrawals block);
  mret (mkLocalBlock block global_state deposit_info_vec asset_scripts withdrawals).
End Tasks.

(** ** The loop *)
Section Loop.
Context {Mac : Type} `{Machine Mac}.
Context `{Blake2b, Molecule, ContractArgs, SubstrateBn, SyscallCodec, MapIter, HashCodec, SmtRoot}.
Context `{SmtProof, CbmtBuild, RocksIter, MemPool, BlockCodec} (cfg : PscConfig).
Local Abbreviation M := (ST Psc PscError).

Definition on_store {A} (m : ST StoreDb PscError A) : M A := λ p,
  let (r, db) := m (ps_store p) in (r, with_store db p).
(** Does nothing without a server *)
Definition on_server (f : BlockSyncServerState → outcome PscError BlockSyncServerState) : M unit := λ p,
  match ps_server p with
  | None => (Ok tt, p)
  | Some s => match f s with
              | Ok s => (Ok tt, with_server (Some s) p)
              | Err e => (Err e, p)
              | Panic => (Panic, p)
              end
  end.
(** [if let Some(ref sync_server) = .. { publish(..)? }] where the message is read
    from the store *)
Definition publish_from {A} (read : ST StoreDb PscError A)
    (f : A → BlockSyncServerState → outcome PscError BlockSyncServerState) : M unit :=
  server ← gets ps_server;
  match server with
  | None => mret tt
  | Some _ => a ← on_store read; on_server (f a)
  end.

(** *** The submit task: reading, composing, applying, sending.  After [Retry]
    it starts again. *)
Definition submit_step {A} (m : ST StoreDb TaskError A) (next : A → SubmitTask) : M unit := λ p,
  match m (ps_store p) with
  | (Ok a, db) => (Ok tt, with_submit (Some (next a)) (with_store db p))
  | (Err Retry, _) => (Ok tt, with_submit (Some SubmitStart) p)
  | (Err e, _) => (Ok tt, with_submit (Some (SubmitDone (Err e))) p)
  | (Panic, _) => (Ok tt, with_submit (Some (SubmitDone Panic)) p)
  end.
Definition submit_read : M unit :=
  submit_step ('(is_first, block_number) ← submit_next_block; submit_block_read is_first block_number) id.
Definition submit_compose (s : Submission) (composed : outcome ComposeError L1Transaction) : M unit :=
  submit_step
    (tx ← lift (map_err (λ e, match e with
                              | TransactionSizeError => ShouldRevert (su_number s)
                              | OtherComposeError => Retry
                              end) composed);
     set_block_submit_tx (su_number s) tx ;; mret tx)
    (SubmitApply s).
Definition submit_apply (s : Submission) (tx : L1Transaction) : M unit := λ p,
  match apply_tx (E:=TaskError) tx (ps_cells p) with
  | Ok m => (Ok tt, with_submit (Some (SubmitSend s tx)) (with_cells m p))
  | _ => (Ok tt, with_submit (Some (SubmitDone Panic)) p)
  end.
(** Until the median time of layer 1 reaches the block, nothing is sent. *)
Definition submit_send (s : Submission) (tx : L1Transaction) (l1 : L1Node) : M unit :=
  if median_gte l1 (su_since_millis s)
  then submit_step (submit_block_send l1 s tx) (SubmitDone ∘ Ok) else mret tt.

(** *** The confirm task *)
Definition confirm_step (r : outcome TaskError ConfirmTask) : M unit :=
  modify (with_confirm (Some match r with
                             | Ok t => t
                             | Err Retry => ConfirmStart
                             | Err e => ConfirmDone (Err e)
                             | Panic => ConfirmDone Panic
                             end)).
Definition confirm_read : M unit := db ← gets ps_store; confirm_step (confirm_next_block db).1.
Definition confirm_poll (nh : NumberHash) (tx : L1Transaction) (l1 : L1Node) (elapsed : bool) : M unit :=
  confirm_step (poll_tx_confirmed l1 elapsed nh tx).
Definition confirm_indexer (nh : NumberHash) (tx : L1Transaction) (known : option Z) (l1 : L1Node) :
    M unit :=
  match indexer_synced l1 tx known with
  | Ok (_, true) =>
      modify (λ p, with_cells (confirm_tx tx (ps_cells p)) p) ;; confirm_step (Ok (ConfirmDone (Ok nh)))
  | Ok (block_number, false) => confirm_step (Ok (ConfirmIndexer nh tx (Some block_number)))
  | Err e => confirm_step (Err e)
  | Panic => confirm_step Panic
  end.

(** *** What the loop does when a task ends *)
Definition task_result (r : outcome TaskError NumberHash) : M NumberHash :=
  lift (match r with Ok nh => Ok nh | Err e => Err (Stopped e) | Panic => Err Fatal end).
Definition on_confirmed (r : outcome TaskError NumberHash) : M unit :=
  modify (with_confirm None) ;;
  nh ← task_result r;
  on_store (set_last_confirmed_block_number_hash nh) ;;
  publish_from (submitted_message (nh_number nh)) (λ '(nh, tx_hash), publish_confirmed nh tx_hash) ;;
  count ← gets ps_submitted_count;
  count ← lift (sub_w count 1);
  modify (set_submitted_count count).
Definition on_submitted (r : outcome TaskError NumberHash) : M unit :=
  modify (with_submit None) ;;
  nh ← task_result r;
  on_store (set_last_submitted_block_number_hash nh) ;;
  publish_from (submitted_message (nh_number nh)) (λ '(nh, tx_hash) s, Ok (publish_submitted nh tx_hash s)) ;;
  count ← gets ps_local_count;
  count ← lift (sub_w count 1);
  modify (set_local_count count) ;;
  count ← gets ps_submitted_count;
  count ← lift (add_w 64 count 1);
  modify (set_submitted_count count).

(** *** Producing.  [attempts] is what [produce_next_block] returns at retry 0, 1,
    ...; [None] while every block is too large. *)
Fixpoint produce (attempts : list (outcome unit ProduceBlockResult)) :
    option (outcome unit ProduceBlockResult) :=
  match attempts with
  | [] => None
  | Ok r :: attempts =>
      if check_block_size (Z.of_nat (length (enc_L2Block (pr_block r)))) then Some (Ok r)
      else produce attempts
  | r :: _ => Some r
  end.
Definition deposit_asset_scripts (deposits : list DepositInfo) : list Script :=
  foldr set_insert [] (omap (λ d, co_type (cell_output (di_cell d))) deposits).

(** The store transaction of [produce_local_block]; dropped when it fails *)
Definition update_store (r : ProduceBlockResult) : ST Psc PscError unit := λ p,
  let m :=
    update_local (Mac:=Mac) (pr_block r) (pr_deposit_cells r) (deposit_asset_scripts (pr_deposit_cells r))
      (pr_withdrawal_extras r) (pr_global_state r) ;;
    on_db (set_block_post_finalized_custodian_capacity (block_number (pr_block r))
             (pr_remaining_capacity r)) in
  match m (ps_chain p, mkStoreTx (ps_store p) (ps_store p)) with
  | (Ok _, (c, tx)) => (Ok tt, with_store (tx_db tx) (with_chain c p))
  | (Err _, (c, _)) => (Err Fatal, with_chain c p)
  | (Panic, (c, _)) => (Panic, with_chain c p)
  end.
Definition produce_local_block (produced : outcome unit ProduceBlockResult) : M unit :=
  r ← lift (map_err (λ _, Fatal) produced);
  let block := pr_block r in
  on_server (λ s, Ok (publish_local_block
    (mkLocalBlock block (pr_global_state r) (pr_deposit_cells r)
       (deposit_asset_scripts (pr_deposit_cells r)) (pr_withdrawal_extras r)) s)) ;;
  update_store r ;;
  modify (λ p, with_cells (foldl (λ m d, lock_cell (cell_out_point (di_cell d)) m) (ps_cells p)
                             (pr_deposit_cells r)) p) ;;
  lift (if mem_pool_notify (block_hash block) then Ok tt else Panic).
(** An error is logged, and the block counts only without one. *)
Definition on_tick (produced : outcome unit ProduceBlockResult) : M unit := λ p,
  match produce_local_block produced p with
  | (Ok _, p) => match add_w 64 (ps_local_count p) 1 with
                 | Ok count => (Ok tt, set_local_count count p)
                 | Err e => (Err e, p)
                 | Panic => (Panic, p)
                 end
  | (Err _, p) => (Ok tt, p)
  | (Panic, p) => (Panic, p)
  end.

(** The signals take back blocks from the last submitted, or confirmed, one. *)
Definition on_signal (position : ST StoreDb PscError (option NumberHash)) : M unit :=
  nh ← on_store (or_fatal position);
  lift (Err (Stopped (ShouldRevert (nh_number nh)))).

(** *** One turn of the loop *)
Definition loop_top : M unit := λ p,
  let p := if bool_decide (ps_submit p = None) && (0 <? ps_local_count p)
              && (ps_submitted_count p <? pc_submitted_limit cfg)
           then with_submit (Some SubmitStart) p else p in
  let p := if bool_decide (ps_confirm p = None) && (0 <? ps_submitted_count p)
           then with_confirm (Some ConfirmStart) p else p in
  (assert_that ((ps_local_count p <? pc_local_limit cfg) || negb (bool_decide (ps_confirm p = None))
                || negb (bool_decide (ps_submit p = None))), p).

(** What can happen between two turns *)
Inductive event :=
| EvSubmitRead
| EvSubmitCompose (composed : outcome ComposeError L1Transaction)
| EvSubmitApply
| EvSubmitSend (l1 : L1Node)
| EvConfirmRead
| EvConfirmPoll (l1 : L1Node) (elapsed : bool)
| EvConfirmIndexer (l1 : L1Node)
| EvConfirmed
| EvSubmitted
| EvTick (attempts : list (outcome unit ProduceBlockResult))
| EvRevertLocal
| EvRevertSubmitted.

Definition submit_event (e : event) (t : SubmitTask) : M unit :=
  match e, t with
  | EvSubmitRead, SubmitStart => submit_read
  | EvSubmitCompose composed, SubmitCompose s _ => submit_compose s composed
  | EvSubmitApply, SubmitApply s tx => submit_apply s tx
  | EvSubmitSend l1, SubmitSend s tx => submit_send s tx l1
  | EvSubmitted, SubmitDone r => on_submitted r
  | _, _ => mret tt
  end.
Definition confirm_event (e : event) (t : ConfirmTask) : M unit :=
  match e, t with
  | EvConfirmRead, ConfirmStart => confirm_read
  | EvConfirmPoll l1 elapsed, ConfirmPoll nh tx => confirm_poll nh tx l1 elapsed
  | EvConfirmIndexer l1, ConfirmIndexer nh tx known => confirm_indexer nh tx known l1
  | EvConfirmed, ConfirmDone r => on_confirmed r
  | _, _ => mret tt
  end.
(** An event that is not enabled changes nothing. *)
Definition handle (e : event) : M unit := λ p,
  match e with
  | EvTick attempts =>
      if ps_local_count p <? pc_local_limit cfg then
        match produce attempts with Some produced => on_tick produced p | None => (Ok tt, p) end
      else (Ok tt, p)
  | EvRevertLocal => on_signal get_last_submitted_block_number_hash p
  | EvRevertSubmitted => on_signal get_last_confirmed_block_number_hash p
  | EvSubmitRead | EvSubmitCompose _ | EvSubmitApply | EvSubmitSend _ | EvSubmitted =>
      match ps_submit p with Some t => submit_event e t p | None => (Ok tt, p) end
  | EvConfirmRead | EvConfirmPoll _ _ | EvConfirmIndexer _ | EvConfirmed =>
      match ps_confirm p with Some t => confirm_event e t p | None => (Ok tt, p) end
  end.

(** *** Starting, and starting again *)
Definition revert_blocks (fuel : nat) (revert_to_last_valid : Z) : M unit := λ p,
  match revert_to fuel revert_to_last_valid (ps_chain p, mkStoreTx (ps_store p) (ps_store p)) with
  | (Ok _, (c, tx)) => (Ok tt, with_store (tx_db tx) (with_chain c p))
  | (Err _, (c, _)) => (Err Fatal, with_chain c p)
  | (Panic, (c, _)) => (Panic, with_chain c p)
  end.
(** [sync_l1(..).await?]; [Fatal] while none of the attempts succeeds *)
Definition synchronise (attempts : list L1View) (u : ChainUpdater) (fuel : nat) : M unit := λ p,
  match sync_l1 (Mac:=Mac) attempts u fuel (ps_chain p, ps_store p) with
  | (Ok synced, (c, db)) =>
      (if synced then Ok tt else Err Fatal, with_store db (with_chain c p))
  | (Err _, (c, db)) => (Err Fatal, with_store db (with_chain c p))
  | (Panic, (c, db)) => (Panic, with_store db (with_chain c p))
  end.

Record Positions := mkPositions { po_valid : Z; po_submitted : NumberHash; po_confirmed : Z }.
Definition read_positions : ST StoreDb PscError Positions :=
  tip ← get_last_valid_tip_block;
  last_submitted ← st_unwrap get_last_submitted_block_number_hash;
  last_confirmed ← st_unwrap get_last_confirmed_block_number_hash;
  lift (reject_if (negb (nh_number last_submitted =? nh_number last_confirmed)) Fatal) ;;
  mret (mkPositions (block_number tip) last_submitted (nh_number last_confirmed)).
(** [last_confirmed + 1..=last_valid] *)
Definition local_blocks (po : Positions) : list Z :=
  seqZ (po_confirmed po + 1) (po_valid po - po_confirmed po).
Definition lock_deposits (n : Z) : M unit :=
  deposits ← on_store (st_unwrap (get_block_deposit_info_vec n));
  modify (λ p, with_cells (foldl (λ m d, lock_cell (cell_out_point (di_cell d)) m) (ps_cells p) deposits) p).
Definition publish_local (n : Z) : M unit :=
  publish_from (local_block_message n) (λ l s, Ok (publish_local_block l s)).
Definition notify_tip : M unit :=
  tip ← on_store get_last_valid_tip_block_hash;
  lift (if mem_pool_notify tip then Ok tt else Err Fatal).
Definition set_counts (po : Positions) : M unit :=
  local ← lift (sub_w (po_valid po) (nh_number (po_submitted po)));
  modify (set_local_count local) ;;
  submitted ← lift (sub_w (nh_number (po_submitted po)) (po_confirmed po));
  modify (set_submitted_count submitted).

Definition init (attempts : list L1View) (u : ChainUpdater) (fuel : nat) : M unit :=
  synchronise attempts u fuel ;;
  po ← on_store read_positions;
  st_for (local_blocks po) lock_deposits ;;
  notify_tip ;;
  st_for (local_blocks po) publish_local ;;
  set_counts po.

(** The error branch of [ProduceSubmitConfirm::run]; leaving [run] aborts the
    tasks. *)
Definition recover (attempts : list L1View) (u : ChainUpdater) (fuel : nat) (e : TaskError) : M unit :=
  modify (λ p, with_submit None (with_confirm None p)) ;;
  match e with
  | ShouldRevert n => revert_to ← lift (sub_w n 1); revert_blocks fuel revert_to
  | ShouldResync => mret tt
  | Retry => lift (Err Fatal)
  end ;;
  synchronise attempts u fuel ;;
  po ← on_store read_positions;
  on_server (publish_revert (po_submitted po)) ;;
  st_for (local_blocks po) publish_local ;;
  modify (λ p, with_cells (local_cells_reset (ps_cells p)) p) ;;
  st_for (local_blocks po) lock_deposits ;;
  notify_tip ;;
  set_counts po.
End Loop.
