(* ===== verification/PscProps.v ===== *)
(** * The block producer keeps its books

    The invariant of the producer: the store is a chain of blocks of which the
    first [k] are confirmed and the first [s] submitted, the counters are the
    numbers of blocks between these positions, and a task works on the block that
    follows its position.  Every event keeps it, whatever layer 1 answers. *)
From Stdlib Require Import ZArith Lia Strings.Byte.
From stdpp Require Import prelude list gmap relations.
From S2P Require Import Prelude Bytes Types State StateSpec StateDB History Finality Ckb Eip712.
From S2P Require Import SubmitBlock RollupScript ChallengeLock NodeUtils NodeState AccountLocks Backends Syscalls Generator GeneratorProps BlockEffect Verifiers Store StoreProps LocalCells BlockSyncServer ChallengeContext Chain ChainUpdater ChainProps SyncL1 Psc BlockRecords.
Local Open Scope Z_scope.

(** ** When a block can be sent *)
(** Later timestamps overflow in [Since]. *)
Definition MAX_TIMESTAMP : Z := 18446744073709551000.

Lemma land_high_zero v m k : 0 ≤ v < 2 ^ k → 0 ≤ k → Z.land v (Z.shiftl m k) = 0.
Proof.
  intros Hv Hk. apply Z.bits_inj'. intros i Hi. rewrite Z.land_spec, Z.bits_0.
  destruct (Z.lt_ge_cases i k).
  - by rewrite Z.shiftl_spec_low, andb_false_r.
  - destruct (decide (v = 0)) as [->|]; [by rewrite Z.bits_0|].
    rewrite Z.bits_above_log2; [done|lia|]. apply Z.log2_lt_pow2; [lia|]. eapply Z.lt_le_trans; [apply Hv|]. by apply Z.pow_le_mono_r.
Qed.

Lemma greater_since_timestamp {E} t :
  0 ≤ t < MAX_TIMESTAMP →
  since_timestamp (greater_since t) = Ok (E:=E) ((t / 1000 + 1) * 1000).
Proof.
  intros Ht. unfold MAX_TIMESTAMP in Ht. set (v := t / 1000 + 1).
  assert (Hv : 0 < v ≤ 18446744073709551).
  { subst v. pose proof (Z.div_pos t 1000). pose proof (Z.div_lt_upper_bound t 1000 18446744073709551). lia. }
  unfold greater_since, since_timestamp, since_new_timestamp_seconds, since_extract_lock_value. fold v.
  assert (Hlow : Z.land (Z.lor v SINCE_LOCK_BY_TIMESTAMP_MASK) SINCE_VALUE_MASK = v).
  { rewrite Z.land_lor_distr_l. change (Z.land SINCE_LOCK_BY_TIMESTAMP_MASK SINCE_VALUE_MASK) with 0.
    rewrite Z.lor_0_r. change SINCE_VALUE_MASK with (Z.ones 56). rewrite Z.land_ones by lia.
    apply Z.mod_small. lia. }
  assert (Hmetric : Z.land (Z.lor v SINCE_LOCK_BY_TIMESTAMP_MASK) SINCE_METRIC_TYPE_FLAG_MASK
                    = SINCE_LOCK_BY_TIMESTAMP_MASK).
  { rewrite Z.land_lor_distr_l. change SINCE_METRIC_TYPE_FLAG_MASK with (Z.shiftl 3 61) at 1.
    rewrite land_high_zero by lia. reflexivity. }
  rewrite Hlow, Hmetric. cbn [Z.eqb]. unfold checked_mul.
  rewrite (proj2 (Z.ltb_lt _ _)) by lia. reflexivity.
Qed.

(** ** The invariant *)
Section Inv.
Context `{Blake2b, Molecule, SyscallCodec, HashCodec, SmtRoot, RocksIter}.

Definition stored (db : StoreDb) (i : nat) (tx : L1Transaction) : Prop :=
  sd_columns db !! (COLUMN_BLOCK_SUBMIT_TX, be_bytes 8 (Z.of_nat i)) = Some (EL1Transaction tx).
Definition names (snaps : list Snap) (i : nat) (nh : NumberHash) : Prop :=
  ∃ sn, snaps !! i = Some sn ∧ nh = mkNumberHash (Z.of_nat i) (block_hash (sn_block sn)).
Definition submission_nh (s : Submission) : NumberHash := mkNumberHash (su_number s) (su_hash s).

Definition submit_task_ok (db : StoreDb) (snaps : list Snap) (n : nat) (t : SubmitTask) : Prop :=
  match t with
  | SubmitStart => True
  | SubmitCompose s _ => names snaps n (submission_nh s)
  | SubmitApply s tx | SubmitSend s tx => names snaps n (submission_nh s) ∧ stored db n tx
  | SubmitDone (Ok nh) => names snaps n nh ∧ ∃ tx, stored db n tx
  | SubmitDone (Err e) => e = ShouldRevert (Z.of_nat n) ∨ e = ShouldResync
  | SubmitDone Panic => False
  end.
Definition confirm_task_ok (snaps : list Snap) (n : nat) (t : ConfirmTask) : Prop :=
  match t with
  | ConfirmStart => True
  | ConfirmPoll nh _ | ConfirmIndexer nh _ _ | ConfirmDone (Ok nh) => names snaps n nh
  | ConfirmDone (Err e) => e = ShouldRevert (Z.of_nat n) ∨ e = ShouldResync
  | ConfirmDone Panic => False
  end.

Record psc_inv (p : Psc) (snaps : list Snap) (s k : nat) (h : hist) : Prop := {
  pi_chain : chain_inv (ps_chain p) (ps_store p) snaps s k h;
  pi_local : ps_local_count p = Z.of_nat (length snaps - S s);
  pi_submitted : ps_submitted_count p = Z.of_nat (s - k);
  pi_stored i : (k < i ≤ s)%nat → ∃ tx, stored (ps_store p) i tx;
  pi_records : records_ok (ps_store p);
  pi_deposits i : (k < i < length snaps)%nat → ∃ ds, deposits_of (Z.of_nat i) ds (ps_store p);
  pi_times i sn : snaps !! i = Some sn → 0 ≤ timestamp (block_raw (sn_block sn)) < MAX_TIMESTAMP;
  pi_server : match ps_server p with Some sv => 0 ≤ bs_buffer_capacity sv | None => True end;
  pi_submit : match ps_submit p with
              | Some t => (S s < length snaps)%nat ∧ submit_task_ok (ps_store p) snaps (S s) t
              | None => True
              end;
  pi_confirm : match ps_confirm p with
               | Some t => (k < s)%nat ∧ confirm_task_ok snaps (S k) t
               | None => True
               end;
}.

Section Reads.
Context (p : Psc) (snaps : list Snap) (s k : nat) (h : hist) (Hi : psc_inv p snaps s k h).

Lemma pi_positions : (k ≤ s < length snaps)%nat ∧ Z.of_nat (length snaps) < 2 ^ 64.
Proof.
  pose proof (ho_ok _ _ (ci_holds _ _ _ _ _ _ (pi_chain _ _ _ _ _ Hi))) as Hok.
  pose proof (lo_positions _ Hok) as Hp. pose proof (lo_short _ Hok) as Hs. cbn in Hp, Hs.
  rewrite length_fmap in Hp, Hs. lia.
Qed.

Lemma read_last_submitted {E} :
  ∃ sn, snaps !! s = Some sn ∧ get_last_submitted_block_number_hash (E:=E) (ps_store p) =
    (Ok (Some (mkNumberHash (Z.of_nat s) (block_hash (sn_block sn)))), ps_store p).
Proof.
  pose proof pi_positions as Hp. pose proof (ci_holds _ _ _ _ _ _ (pi_chain _ _ _ _ _ Hi)) as Hh.
  destruct (read_position (E:=E) _ _ _ _ (ho_submitted _ _ Hh)) as (b & Hb & Er).
  { cbn. rewrite length_fmap. lia. }
  cbn in Hb. rewrite list_lookup_fmap in Hb. destruct (snaps !! s) as [sn|]; [|done].
  injection Hb as <-. eauto.
Qed.
Lemma read_last_confirmed {E} :
  ∃ sn, snaps !! k = Some sn ∧ get_last_confirmed_block_number_hash (E:=E) (ps_store p) =
    (Ok (Some (mkNumberHash (Z.of_nat k) (block_hash (sn_block sn)))), ps_store p).
Proof.
  pose proof pi_positions as Hp. pose proof (ci_holds _ _ _ _ _ _ (pi_chain _ _ _ _ _ Hi)) as Hh.
  destruct (read_position (E:=E) _ _ _ _ (ho_confirmed _ _ Hh)) as (b & Hb & Er).
  { cbn. rewrite length_fmap. lia. }
  cbn in Hb. rewrite list_lookup_fmap in Hb. destruct (snaps !! k) as [sn|]; [|done].
  injection Hb as <-. eauto.
Qed.
Lemma read_hash_at {E} i sn :
  snaps !! i = Some sn →
  get_block_hash_by_number (E:=E) (Z.of_nat i) (ps_store p) =
  (Ok (Some (block_hash (sn_block sn))), ps_store p).
Proof.
  intros Hs. pose proof pi_positions as Hp. pose proof (lookup_lt_Some _ _ _ Hs) as Hlt.
  rewrite (read_hash_by_number _ _ (ci_holds _ _ _ _ _ _ (pi_chain _ _ _ _ _ Hi)))
    by (unfold in_width; lia).
  cbn. by rewrite Nat2Z.id, list_lookup_fmap, Hs.
Qed.
Lemma read_block_at {E} i sn :
  snaps !! i = Some sn →
  get_block (E:=E) (block_hash (sn_block sn)) (ps_store p) = (Ok (Some (sn_block sn)), ps_store p).
Proof.
  intros Hs. apply (read_block _ _ (ci_holds _ _ _ _ _ _ (pi_chain _ _ _ _ _ Hi))). cbn.
  by eapply list_elem_of_fmap_2, list_elem_of_lookup_2.
Qed.
End Reads.

Lemma with_submit_inv t p snaps s k h :
  psc_inv p snaps s k h →
  match t with
  | Some t => (S s < length snaps)%nat ∧ submit_task_ok (ps_store p) snaps (S s) t
  | None => True
  end → psc_inv (with_submit t p) snaps s k h.
Proof. intros [] Ht. by split. Qed.
Lemma with_confirm_inv t p snaps s k h :
  psc_inv p snaps s k h →
  match t with Some t => (k < s)%nat ∧ confirm_task_ok snaps (S k) t | None => True end →
  psc_inv (with_confirm t p) snaps s k h.
Proof. intros [] Ht. by split. Qed.
Lemma with_cells_inv m p snaps s k h : psc_inv p snaps s k h → psc_inv (with_cells m p) snaps s k h.
Proof. intros []. by split. Qed.
Lemma with_server_inv sv p snaps s k h :
  psc_inv p snaps s k h → 0 ≤ bs_buffer_capacity sv → psc_inv (with_server (Some sv) p) snaps s k h.
Proof. intros [] Hc. by split. Qed.
Lemma with_store_same p : with_store (ps_store p) p = p.
Proof. by destruct p. Qed.

(** ** The submit task *)
(** A read that returns, or asks the task to start again *)
Definition tries {A} (m : ST StoreDb TaskError A) (db : StoreDb) (Q : A → Prop) : Prop :=
  ∃ r, m db = (r, db) ∧ match r with Ok a => Q a | Err e => e = Retry | Panic => False end.
Lemma tries_bind {A B} (m : ST StoreDb TaskError A) (f : A → ST StoreDb TaskError B) db P Q :
  tries m db P → (∀ a, P a → tries (f a) db Q) → tries (m ≫= f) db Q.
Proof.
  intros ([a|e|] & E1 & Hr) Hf; [|by exists (Err e); unfold mbind, ST_bind; rewrite E1|done].
  destruct (Hf a Hr) as (r & E2 & Hr2). exists r. by rewrite (st_bind_run _ _ _ _ _ E1).
Qed.
Lemma tries_ret {A} (a : A) db (Q : A → Prop) : Q a → tries (mret a) db Q.
Proof. intros Ha. by exists (Ok a). Qed.
Lemma tries_or_retry {A} (m : ST StoreDb TaskError (option A)) db (Q : A → Prop) o :
  m db = (Ok o, db) → (∀ a, o = Some a → Q a) → tries (or_retry m) db Q.
Proof.
  intros Em HQ. unfold or_retry. exists (ok_or Retry o). rewrite (st_bind_run _ _ _ _ _ Em).
  split; [done|]. destruct o; cbn; [by apply HQ|done].
Qed.
(** A column whose entities are all of the type that is read *)
Lemma tries_get {A} (f : Entity → option A) c key db :
  (∀ e, sd_columns db !! (c, key) = Some e → is_Some (f e)) →
  tries (or_retry (get_as f c key)) db (λ _, True).
Proof.
  intros Hf. apply (tries_or_retry _ _ _ (sd_columns db !! (c, key) ≫= f)); [|done].
  unfold get_as. destruct (sd_columns db !! (c, key)) as [e|]; [|done]. cbn.
  destruct (Hf e eq_refl) as [a Ha]. by rewrite Ha.
Qed.
Lemma tries_run {A} (m : ST StoreDb TaskError A) db (Q : A → Prop) a :
  m db = (Ok a, db) → Q a → tries m db Q.
Proof. intros Em Ha. by exists (Ok a). Qed.

Lemma restore_withdrawals_tries db hash idx ws :
  records_ok db → tries (restore_withdrawals hash idx ws) db (λ _, True).
Proof.
  intros Hr. revert idx. induction ws as [|w ws IH]; intros idx; cbn [restore_withdrawals]; [by apply tries_ret|].
  apply (tries_bind _ _ _ (λ _, True)).
  { apply tries_get. intros e (w' & ->)%(ro_withdrawal _ Hr). by eexists. }
  intros extra _.
  apply (tries_bind _ _ _ (λ _, True)); [|intros _ _].
  - unfold reject_if. case_match; [by exists (Err Retry)|by exists (Ok tt)].
  - apply (tries_bind _ _ _ (λ _, True)); [apply IH|]. intros l _. by apply tries_ret.
Qed.

Lemma submit_next_block_run p snaps s k h :
  psc_inv p snaps s k h → (S s < length snaps)%nat →
  ∃ first, submit_next_block (ps_store p) = (Ok (first, Z.of_nat (S s)), ps_store p).
Proof.
  intros Hi Hs. pose proof (pi_positions _ _ _ _ _ Hi) as Hp. unfold submit_next_block.
  destruct (read_last_submitted _ _ _ _ _ Hi (E:=TaskError)) as (sn & _ & E1).
  destruct (read_last_confirmed _ _ _ _ _ Hi (E:=TaskError)) as (sn' & _ & E2).
  assert (Hadd : ∀ i, (i ≤ s)%nat → add_w (E:=TaskError) 64 (Z.of_nat i) 1 = Ok (Z.of_nat (S i))).
  { intros i Hle. unfold add_w, checked_add. rewrite (proj2 (Z.ltb_lt _ _)) by lia. cbn. f_equal. lia. }
  eexists. unfold st_unwrap.
  erewrite st_bind_run by (erewrite st_bind_run by exact E1; reflexivity). cbn [nh_number].
  rewrite Hadd by lia. rewrite (st_bind_run (lift _) _ _ (Z.of_nat (S s)) _) by done.
  erewrite st_bind_run by (erewrite st_bind_run by exact E2; reflexivity). cbn [nh_number].
  rewrite Hadd by lia. rewrite (st_bind_run (lift _) _ _ (Z.of_nat (S k)) _) by done. reflexivity.
Qed.

Lemma submit_block_read_tries p snaps s k h first :
  psc_inv p snaps s k h → (S s < length snaps)%nat →
  tries (submit_block_read first (Z.of_nat (S s))) (ps_store p)
    (submit_task_ok (ps_store p) snaps (S s)).
Proof.
  intros Hi Hs. destruct (lookup_lt_is_Some_2 _ _ Hs) as [sn Hsn]. unfold submit_block_read.
  apply (tries_bind _ _ _ (λ x, x = block_hash (sn_block sn))).
  { eapply tries_or_retry; [by eapply read_hash_at|]. by intros a [= <-]. }
  intros x ->. apply (tries_bind _ _ _ (λ b, b = sn_block sn)).
  { eapply tries_or_retry; [by eapply read_block_at|]. by intros a [= <-]. }
  intros b ->. cbv zeta. apply (tries_bind _ _ _ (λ _, True)).
  { rewrite greater_since_timestamp by (by eapply pi_times). by eexists (Ok _). }
  intros millis _. set (su := mkSubmission _ _ _ _).
  assert (Hn : names snaps (S s) (submission_nh su)) by (by exists sn).
  apply (tries_bind _ _ _ (λ o, ∀ tx, o = Some tx → stored (ps_store p) (S s) tx)).
  { apply (tries_run _ _ _ (sd_columns (ps_store p) !! (COLUMN_BLOCK_SUBMIT_TX, be_bytes 8 (Z.of_nat (S s)))
      ≫= as_l1_transaction)).
    - unfold get_block_submit_tx, get_as. destruct (sd_columns _ !! _) as [e|] eqn:Ee; [|done].
      by destruct (ro_submission _ (pi_records _ _ _ _ _ Hi) _ _ Ee) as (tx & -> & _).
    - unfold stored. intros tx Htx. destruct (sd_columns _ !! _) as [[]|]; try done. by injection Htx as ->. }
  intros [tx|] Htx; [apply tries_ret; cbn; split; [done|by apply Htx]|].
  apply (tries_bind _ _ _ (λ _, True)); [apply restore_withdrawals_tries, Hi|]. intros ws _.
  apply (tries_bind _ _ _ (λ _, True)).
  { apply tries_get. intros e (ds & ->)%(ro_deposits _ (pi_records _ _ _ _ _ Hi)). by eexists. }
  intros ds _. apply (tries_bind _ _ _ (λ _, True)).
  { apply tries_get. rewrite (so_global _ _ _ _ (ci_snaps _ _ _ _ _ _ (pi_chain _ _ _ _ _ Hi) _ _ Hsn)).
    intros e [= <-]. by eexists. }
  intros gs _.
  by apply tries_ret.
Qed.
End Inv.

(** ** Layer 1's answers *)
Section Answers.
Context `{Blake2b, HashCodec} (l1 : L1Node).

(** Block numbers of layer 1 are far from the end of [u64]. *)
Definition l1_sound : Prop :=
  ∀ n b, ln_block_by_number l1 n = Some (Some b) → l1b_number b + 1 < 2 ^ 64.

Lemma search_consumer_no_panic fuel p block :
  l1_sound → (∀ b, block = Some b → l1b_number b + 1 < 2 ^ 64) →
  search_consumer l1 fuel p block ≠ Panic.
Proof.
  intros Hs. revert block. induction fuel as [|fuel IH]; intros block Hb; cbn [search_consumer]; [done|].
  destruct block as [b|]; [|done]. destruct (list_find _ _) as [[? ?]|]; [done|].
  unfold add_w, checked_add. rewrite (proj2 (Z.ltb_lt _ _)) by (by apply Hb). cbn [unwrap mbind outcome_bind].
  destruct (ln_block_by_number l1 _) as [next|] eqn:En; cbn [ok_or mbind outcome_bind]; [|done].
  apply IH. intros b' ->. by eapply Hs.
Qed.
Lemma check_input_no_panic u input : l1_sound → check_input l1 u input ≠ Panic.
Proof.
  intros Hs. unfold check_input, check_cell. destruct (ln_cell l1 _) as [st|]; cbn [ok_or mbind outcome_bind]; [|done].
  case_bool_decide; [done|].
  destruct (ln_transaction_block_number l1 _) as [[n|]|]; cbn [ok_or mbind outcome_bind]; [|done..].
  destruct (ln_block_by_number l1 n) as [block|] eqn:Eb; cbn [ok_or mbind outcome_bind]; [|done].
  apply search_consumer_no_panic; [done|]. intros b ->. by eapply Hs.
Qed.
Lemma foldM_no_panic {E A B} (f : A → B → outcome E A) l a :
  (∀ a b, f a b ≠ Panic) → foldM f a l ≠ Panic.
Proof.
  intros Hf. revert a. induction l as [|b l IH]; intros a; cbn; [done|].
  pose proof (Hf a b). destruct (f a b); cbn; [apply IH|done..].
Qed.
Lemma send_no_panic tx : l1_sound → send_transaction_or_check_inputs l1 tx ≠ Panic.
Proof.
  intros Hs. unfold send_transaction_or_check_inputs. destruct (ln_send l1 tx) as [code|]; [|done].
  case_bool_decide; [|by case_bool_decide].
  pose proof (foldM_no_panic (check_input l1) (l1_inputs tx) tt
    (λ u i, check_input_no_panic u i Hs)) as Hc. fold (check_tx_input l1 tx) in Hc.
  destruct (check_tx_input l1 tx) as [?|[|[?|]|]|]; try done. by case_bool_decide.
Qed.
End Answers.

(** ** Events of the tasks *)
Section Tasks.
Context {Mac : Type} `{MachineLaws Mac}.
Context `{Blake2b, Molecule, ContractArgs, SubstrateBn, SyscallCodec, MapIter, HashCodec, SmtRoot}.
Context `{SmtProof, CbmtBuild, RocksIter, MemPool, BlockCodec, !Blake2bLength, !SmtRootLaws}.

(** A step of the submit task: it goes on, starts again, or ends with an error
    for its block. *)
Definition attempts {A} (m : ST StoreDb TaskError A) (db : StoreDb) (n : nat) (Q : A → Prop) : Prop :=
  ∃ r, m db = (r, db) ∧
    match r with
    | Ok a => Q a
    | Err e => e = Retry ∨ e = ShouldRevert (Z.of_nat n) ∨ e = ShouldResync
    | Panic => False
    end.
Lemma tries_attempts {A} (m : ST StoreDb TaskError A) db n Q : tries m db Q → attempts m db n Q.
Proof. intros (r & E & Hr). exists r. split; [done|]. destruct r; auto. Qed.
Lemma attempts_bind {A B} (m : ST StoreDb TaskError A) (f : A → ST StoreDb TaskError B) db n P Q :
  attempts m db n P → (∀ a, P a → attempts (f a) db n Q) → attempts (m ≫= f) db n Q.
Proof.
  intros ([a|e|] & E1 & Hr) Hf; [|by exists (Err e); unfold mbind, ST_bind; rewrite E1|done].
  destruct (Hf a Hr) as (r & E2 & Hr2). exists r. by rewrite (st_bind_run _ _ _ _ _ E1).
Qed.
Lemma submit_step_inv {A} (m : ST StoreDb TaskError A) next p snaps s k h Q :
  psc_inv p snaps s k h → (S s < length snaps)%nat → attempts m (ps_store p) (S s) Q →
  (∀ a, Q a → submit_task_ok (ps_store p) snaps (S s) (next a)) →
  ∃ p', submit_step m next p = (Ok tt, p') ∧ psc_inv p' snaps s k h.
Proof.
  intros Hi Hs (r & E & Hr) Hn. unfold submit_step. rewrite E.
  destruct r as [a|e|]; [| |done].
  - eexists. split; [done|]. rewrite with_store_same. apply with_submit_inv; [done|]. auto.
  - assert (Hw : ∀ t, submit_task_ok (ps_store p) snaps (S s) t → psc_inv (with_submit (Some t) p) snaps s k h)
      by (intros t Ht; by apply with_submit_inv).
    destruct Hr as [->|[-> | ->]]; eexists; (split; [done|]); apply Hw; cbn; auto.
Qed.

Lemma submit_read_inv p snaps s k h :
  psc_inv p snaps s k h → (S s < length snaps)%nat →
  ∃ p', submit_read p = (Ok tt, p') ∧ psc_inv p' snaps s k h.
Proof.
  intros Hi Hs. unfold submit_read. eapply submit_step_inv; [done..| |].
  - destruct (submit_next_block_run _ _ _ _ _ Hi Hs) as (first & E).
    eapply (attempts_bind _ _ _ _ (λ a, a = (first, Z.of_nat (S s)))).
    + by exists (Ok (first, Z.of_nat (S s))).
    + intros a ->. by apply tries_attempts, (submit_block_read_tries p snaps s k h).
  - done.
Qed.

Lemma submit_apply_inv p snaps s k h su tx :
  psc_inv p snaps s k h → ps_submit p = Some (SubmitApply su tx) →
  ∃ p', submit_apply su tx p = (Ok tt, p') ∧ psc_inv p' snaps s k h.
Proof.
  intros Hi Et. pose proof (pi_submit _ _ _ _ _ Hi) as Hsub. rewrite Et in Hsub.
  destruct Hsub as (Hs & Hn & Hst). destruct (ro_submission _ (pi_records _ _ _ _ _ Hi) _ _ Hst)
    as (tx' & [= <-] & Hfew & _).
  destruct (apply_tx_spec (E:=TaskError) tx (ps_cells p) Hfew) as (m & Em & _).
  unfold submit_apply. rewrite Em. eexists. split; [done|].
  apply with_submit_inv; [by apply with_cells_inv|]. done.
Qed.

Lemma check_deposits_outcome l1 (n : nat) ds u :
  match foldM (check_deposit l1 (Z.of_nat n)) u ds with
  | Ok _ => True
  | Err e => e = Retry ∨ e = ShouldRevert (Z.of_nat n) ∨ e = ShouldResync
  | Panic => False
  end.
Proof.
  revert u. induction ds as [|d ds IH]; intros u; cbn [foldM]; [done|].
  destruct (check_deposit l1 (Z.of_nat n) u d) as [u'|e|] eqn:E; cbn [mbind outcome_bind]; [apply IH|..];
    revert E; unfold check_deposit, reject_if;
    destruct (ln_cell l1 (cell_out_point (di_cell d))) as [st|]; cbn; try case_match; naive_solver.
Qed.

Lemma submit_send_inv p snaps s k h su tx l1 :
  psc_inv p snaps s k h → ps_submit p = Some (SubmitSend su tx) → l1_sound l1 →
  ∃ p', submit_send su tx l1 p = (Ok tt, p') ∧ psc_inv p' snaps s k h.
Proof.
  intros Hi Et Hl. pose proof (pi_submit _ _ _ _ _ Hi) as Hsub. rewrite Et in Hsub.
  destruct Hsub as (Hs & Hn & Hst). unfold submit_send. destruct (median_gte _ _); [|by exists p].
  assert (En : su_number su = Z.of_nat (S s)) by (by destruct Hn as (? & _ & [= -> _])).
  eapply submit_step_inv; [done..| |].
  - unfold submit_block_send. eapply (attempts_bind _ _ _ _ (λ _, True)).
    { apply tries_attempts, tries_get. intros e (ds & ->)%(ro_deposits _ (pi_records _ _ _ _ _ Hi)). by eexists. }
    intros ds _. eapply (attempts_bind _ _ _ _ (λ _, True)).
    { eexists. split; [done|]. rewrite En. apply check_deposits_outcome. }
    intros _ _. eapply (attempts_bind _ _ _ _ (λ _, True)).
    { eexists. split; [done|]. pose proof (send_no_panic l1 tx Hl).
      destruct (send_transaction_or_check_inputs l1 tx) as [?|[|?|]|]; cbn; [done| | |by left|done].
      - by destruct (su_is_first su); auto.
      - rewrite En. auto. }
    intros _ _. exists (Ok (mkNumberHash (su_number su) (su_hash su))). split; [done|].
    instantiate (1 := λ nh, nh = submission_nh su). done.
  - intros nh ->. cbn. split; [done|]. by exists tx.
Qed.

Lemma be8_inj i j :
  Z.of_nat i < 2 ^ 64 → Z.of_nat j < 2 ^ 64 → be_bytes 8 (Z.of_nat i) = be_bytes 8 (Z.of_nat j) → i = j.
Proof.
  intros Hi Hj E. apply Nat2Z.inj. rewrite <- (be_val_bytes_small 8 (Z.of_nat i)) by lia.
  rewrite E. apply be_val_bytes_small. lia.
Qed.

(** *** A composed transaction is stored. *)
Lemma submission_stored n tx db :
  let db' := (set_block_submit_tx (E:=TaskError) n tx db).2 in
  (∀ k, sd_columns db' !! (COLUMN_BLOCK_SUBMIT_TX, k) =
        if bool_decide (k = be_bytes 8 n) then Some (EL1Transaction tx)
        else sd_columns db !! (COLUMN_BLOCK_SUBMIT_TX, k)) ∧
  (∀ k, sd_columns db' !! (COLUMN_BLOCK_SUBMIT_TX_HASH, k) =
        if bool_decide (k = be_bytes 8 n) then Some (EBytes (l1_hash tx))
        else sd_columns db !! (COLUMN_BLOCK_SUBMIT_TX_HASH, k)) ∧
  (∀ c k, c ≠ COLUMN_BLOCK_SUBMIT_TX → c ≠ COLUMN_BLOCK_SUBMIT_TX_HASH →
     sd_columns db' !! (c, k) = sd_columns db !! (c, k)).
Proof.
  cbv [set_block_submit_tx mbind ST_bind insert_raw modify]. cbn. split; [|split].
  - intros k. rewrite lookup_insert_ne by (by intros [= ]). case_bool_decide as Hk.
    + subst k. by rewrite lookup_insert_eq.
    + rewrite lookup_insert_ne by (by intros [= <-]). done.
  - intros k. case_bool_decide as Hk.
    + subst k. by rewrite lookup_insert_eq.
    + rewrite !lookup_insert_ne by (by intros [= ]; subst). done.
  - intros c k Hc1 Hc2. rewrite !lookup_insert_ne by (by intros [= <- _]). done.
Qed.

Lemma submit_compose_inv p snaps s k h su args composed :
  psc_inv p snaps s k h → ps_submit p = Some (SubmitCompose su args) →
  composed ≠ Panic → (∀ tx, composed = Ok tx → few_outputs tx) →
  ∃ p', submit_compose su composed p = (Ok tt, p') ∧ psc_inv p' snaps s k h.
Proof.
  intros Hi Et Hnp Hfew. pose proof (pi_submit _ _ _ _ _ Hi) as Hsub. rewrite Et in Hsub.
  destruct Hsub as (Hs & Hn). pose proof (pi_positions _ _ _ _ _ Hi) as Hp.
  assert (En : su_number su = Z.of_nat (S s)) by (by destruct Hn as (? & _ & [= -> _])).
  unfold submit_compose, submit_step. destruct composed as [tx|e|]; [| |done].
  2: { destruct e; cbn; eexists; (split; [done|]); (apply with_submit_inv; [done|]); rewrite ?En; cbn; auto. }
  specialize (Hfew tx eq_refl). cbn [map_err]. rewrite (st_bind_run (lift _) _ _ tx _) by done.
  destruct (submission_stored (su_number su) tx (ps_store p)) as (H1' & H2' & H3').
  rewrite (st_bind_run (set_block_submit_tx (su_number su) tx) _ _ tt
    (set_block_submit_tx (E:=TaskError) (su_number su) tx (ps_store p)).2 eq_refl).
  assert (Hl : sd_block_leaves (set_block_submit_tx (E:=TaskError) (su_number su) tx (ps_store p)).2
               = sd_block_leaves (ps_store p)) by done.
  assert (Ha : framed (λ _, False) (ps_store p)
    (set_block_submit_tx (E:=TaskError) (su_number su) tx (ps_store p)).2) by done.
  revert H1' H2' H3' Hl Ha.
  generalize (set_block_submit_tx (E:=TaskError) (su_number su) tx (ps_store p)).2 as db'.
  intros db' H1' H2' H3' Hl [Ha1 Ha2 Ha3 _]. eexists. split; [reflexivity|].
  destruct Hi as [Hc Hlc Hsc Hst [Hr1 Hr2 Hr3] Hd Ht Hsv _ Hcf]. split; cbn; try done.
  - apply (chain_inv_beside _ (ps_store p)); [done..|]. split; [done..|].
    intros [c key] Hk. apply H3'; intros ->; apply Hk; cbn; unfold per_block; tauto.
  - intros i Hik. unfold stored. setoid_rewrite H1'. destruct (Hst i Hik) as [tx' Htx'].
    rewrite bool_decide_false; [by eexists|]. rewrite En. intros E%be8_inj; lia.
  - split.
    + intros key e. rewrite H1', H2'. case_bool_decide; [intros [= <-]; eauto|]. apply Hr1.
    + intros key e. rewrite H3' by done. apply Hr2.
    + intros key e. rewrite H3' by done. apply Hr3.
  - intros i Hik. unfold deposits_of. setoid_rewrite H3'; [|done..]. by apply Hd.
  - split; [done|]. split; [done|]. unfold stored. rewrite H1', bool_decide_true by (by rewrite En). done.
Qed.

(** *** Confirming *)
Lemma confirm_step_inv p snaps s k h r :
  psc_inv p snaps s k h → (k < s)%nat →
  match r with
  | Ok t => confirm_task_ok snaps (S k) t
  | Err e => e = Retry ∨ e = ShouldRevert (Z.of_nat (S k)) ∨ e = ShouldResync
  | Panic => False
  end →
  ∃ p', confirm_step r p = (Ok tt, p') ∧ psc_inv p' snaps s k h.
Proof.
  intros Hi Hk Hr. eexists. split; [reflexivity|]. apply with_confirm_inv; [done|]. split; [done|].
  destruct r as [t|e|]; [done| |done]. destruct Hr as [->|[-> | ->]]; cbn; auto.
Qed.
Lemma get_as_run {E A} (f : Entity → option A) c key db e a :
  sd_columns db !! (c, key) = Some e → f e = Some a → get_as (E:=E) f c key db = (Ok (Some a), db).
Proof. intros Hk Hf. unfold get_as. by rewrite Hk, Hf. Qed.
Lemma st_unwrap_run {E A} (m : ST StoreDb E (option A)) x x' a :
  m x = (Ok (Some a), x') → st_unwrap m x = (Ok a, x').
Proof. intros Em. unfold st_unwrap. by rewrite (st_bind_run _ _ _ _ _ Em). Qed.

Lemma confirm_read_inv p snaps s k h :
  psc_inv p snaps s k h → (k < s)%nat →
  ∃ p', confirm_read p = (Ok tt, p') ∧ psc_inv p' snaps s k h.
Proof.
  intros Hi Hk. unfold confirm_read. rewrite (st_bind_run (gets ps_store) _ _ _ _ eq_refl).
  apply (confirm_step_inv p snaps s); [done..|]. pose proof (pi_positions _ _ _ _ _ Hi) as Hp.
  destruct (read_last_confirmed _ _ _ _ _ Hi (E:=TaskError)) as (sn & _ & E1).
  destruct (lookup_lt_is_Some_2 snaps (S k) ltac:(lia)) as [sn' Hsn'].
  destruct (pi_stored _ _ _ _ _ Hi (S k) ltac:(lia)) as [tx Htx].
  unfold confirm_next_block. rewrite (st_bind_run _ _ _ _ _ (st_unwrap_run _ _ _ _ E1)). cbn [nh_number].
  rewrite (st_bind_run (lift _) _ _ (Z.of_nat (S k)) (ps_store p)).
  2: { unfold lift, add_w, checked_add. rewrite (proj2 (Z.ltb_lt _ _)) by lia. cbn. do 2 f_equal. lia. }
  rewrite (st_bind_run _ _ _ _ _ (st_unwrap_run _ _ _ _ (read_hash_at _ _ _ _ _ Hi _ _ Hsn'))).
  rewrite (st_bind_run _ _ _ tx (ps_store p)) by (by apply st_unwrap_run; eapply get_as_run).
  cbn. by exists sn'.
Qed.

Lemma confirm_poll_inv p snaps s k h nh tx l1 elapsed :
  psc_inv p snaps s k h → ps_confirm p = Some (ConfirmPoll nh tx) → l1_sound l1 →
  ∃ p', confirm_poll nh tx l1 elapsed p = (Ok tt, p') ∧ psc_inv p' snaps s k h.
Proof.
  intros Hi Et Hl. pose proof (pi_confirm _ _ _ _ _ Hi) as Hc. rewrite Et in Hc. destruct Hc as [Hk Hn].
  apply (confirm_step_inv p snaps s); [done..|].
  assert (En : nh_number nh = Z.of_nat (S k)) by (by destruct Hn as (? & _ & ->)).
  assert (Hsend : match (if bool_decide (ln_status l1 (l1_hash tx) = Some (Some Rejected)) || elapsed
       then map_err (confirm_error nh) (send_transaction_or_check_inputs l1 tx) else Ok tt) with
       | Ok _ => True
       | Err e => e = Retry ∨ e = ShouldRevert (Z.of_nat (S k)) ∨ e = ShouldResync
       | Panic => False end).
  { destruct (bool_decide _ || elapsed); [|done]. pose proof (send_no_panic l1 tx Hl).
    destruct (send_transaction_or_check_inputs l1 tx) as [?|[|?|]|]; cbn; rewrite ?En; auto. }
  revert Hsend. unfold poll_tx_confirmed.
  destruct (ln_status l1 (l1_hash tx)) as [[[]|]|]; cbn; try (by auto);
    destruct elapsed; cbn; try (by auto);
    destruct (map_err (confirm_error nh) (send_transaction_or_check_inputs l1 tx)) as [?|e|]; cbn; auto.
Qed.

Lemma confirm_indexer_inv p snaps s k h nh tx known l1 :
  psc_inv p snaps s k h → ps_confirm p = Some (ConfirmIndexer nh tx known) →
  ∃ p', confirm_indexer nh tx known l1 p = (Ok tt, p') ∧ psc_inv p' snaps s k h.
Proof.
  intros Hi Et. pose proof (pi_confirm _ _ _ _ _ Hi) as Hc. rewrite Et in Hc. destruct Hc as [Hk Hn].
  unfold confirm_indexer. destruct (indexer_synced l1 tx known) as [[n []]|e|] eqn:Hsync.
  - rewrite (st_bind_run (modify _) _ _ _ _ eq_refl).
    apply (confirm_step_inv _ snaps s); [by apply with_cells_inv|done..].
  - by apply (confirm_step_inv p snaps s); auto.
  - assert (e = Retry) as ->; [|by apply (confirm_step_inv p snaps s); auto].
    revert Hsync. unfold indexer_synced. destruct known; [|destruct (ln_transaction_block_number l1 _) as [[]|]];
      cbn; try congruence; destruct (ln_tip_number l1); cbn; congruence.
  - exfalso. revert Hsync. unfold indexer_synced.
    destruct known; [|destruct (ln_transaction_block_number l1 _) as [[]|]]; cbn; try congruence;
      destruct (ln_tip_number l1); cbn; congruence.
Qed.

(** *** A task ended *)
Lemma on_store_run {A} (m : ST StoreDb PscError A) p r db :
  m (ps_store p) = (r, db) → on_store m p = (r, with_store db p).
Proof. intros E. unfold on_store. by rewrite E. Qed.
Lemma or_fatal_run {A} (m : ST StoreDb PscError (option A)) x x' a :
  m x = (Ok (Some a), x') → or_fatal m x = (Ok a, x').
Proof. intros Em. unfold or_fatal. by rewrite (st_bind_run _ _ _ _ _ Em). Qed.

Lemma submitted_message_run p snaps s k h i nh tx :
  psc_inv p snaps s k h → names snaps i nh → stored (ps_store p) i tx →
  submitted_message (Z.of_nat i) (ps_store p) = (Ok (nh, l1_hash tx), ps_store p).
Proof.
  intros Hi (sn & Hsn & ->) Htx. unfold submitted_message.
  rewrite (st_bind_run _ _ _ _ _ (or_fatal_run _ _ _ _ (read_hash_at _ _ _ _ _ Hi _ _ Hsn))).
  destruct (ro_submission _ (pi_records _ _ _ _ _ Hi) _ _ Htx) as (tx' & [= <-] & _ & Hh).
  by rewrite (st_bind_run _ _ _ (l1_hash tx) (ps_store p)) by (by eapply or_fatal_run, get_as_run).
Qed.

(** Publishing changes the server only. *)
Lemma publish_from_run {A} (read : ST StoreDb PscError A) f p a :
  read (ps_store p) = (Ok a, ps_store p) →
  (∀ sv, ps_server p = Some sv → ∃ sv', f a sv = Ok sv' ∧ bs_buffer_capacity sv' = bs_buffer_capacity sv) →
  ∃ p', publish_from read f p = (Ok tt, p') ∧
    (p' = p ∨ ∃ sv sv', ps_server p = Some sv ∧ bs_buffer_capacity sv' = bs_buffer_capacity sv ∧
                        p' = with_server (Some sv') p).
Proof.
  intros Er Hf. unfold publish_from. rewrite (st_bind_run (gets ps_server) _ _ _ _ eq_refl).
  destruct (ps_server p) as [sv|] eqn:Es; [|by exists p; auto].
  rewrite (st_bind_run _ _ _ _ _ (on_store_run _ _ _ _ Er)), with_store_same.
  unfold on_server. rewrite Es. destruct (Hf sv eq_refl) as (sv' & E & Hc). rewrite E.
  eexists. split; [done|]. right. by exists sv, sv'.
Qed.
Lemma published_inv p p' snaps s k h :
  psc_inv p snaps s k h →
  (p' = p ∨ ∃ sv sv', ps_server p = Some sv ∧ bs_buffer_capacity sv' = bs_buffer_capacity sv ∧
                      p' = with_server (Some sv') p) →
  psc_inv p' snaps s k h ∧ ps_local_count p' = ps_local_count p ∧ ps_submitted_count p' = ps_submitted_count p.
Proof.
  intros Hi [->|(sv & sv' & Es & Hc & ->)]; [done|]. split; [|done]. apply with_server_inv; [done|].
  pose proof (pi_server _ _ _ _ _ Hi) as Hs. rewrite Es in Hs. lia.
Qed.

(** Moving a position; [counts] are adjusted afterwards. *)
Lemma moved_inv p snaps s k h s' k' key nh lc sc :
  psc_inv p snaps s k h → ps_submit p = None ∨ s' = s → ps_confirm p = None ∨ k' = k ∧ (s ≤ s')%nat →
  (k ≤ k' ≤ s' ∧ s' < length snaps)%nat → (∀ i, (s < i ≤ s')%nat → ∃ tx, stored (ps_store p) i tx) →
  (key = META_LAST_SUBMITTED_BLOCK_NUMBER_HASH_KEY ∧ k' = k ∧ names snaps s' nh ∨
   key = META_LAST_CONFIRMED_BLOCK_NUMBER_HASH_KEY ∧ s' = s ∧ names snaps k' nh) →
  lc = Z.of_nat (length snaps - S s') → sc = Z.of_nat (s' - k') →
  psc_inv (set_submitted_count sc (set_local_count lc (with_store
    (with_columns (put_all [((COLUMN_META, key), ENumberHash nh)]) (ps_store p)) p))) snaps s' k' h.
Proof.
  intros [Hc Hlc Hsc Hst Hr Hd Ht Hsv Hsub Hcon] Hs1 Hk1 Hpos Hnew Hkey -> ->.
  set (db' := with_columns _ _).
  assert (Hother : ∀ c key', c ≠ COLUMN_META → sd_columns db' !! (c, key') = sd_columns (ps_store p) !! (c, key')).
  { intros c key' Hc'. subst db'. cbn. by rewrite lookup_insert_ne by (by intros [= <- _]). }
  assert (Hnum : ∀ i, names snaps i nh → number_hash (mkLedger (sn_block <$> snaps) s k) i = Some nh).
  { intros i (sn & Hsn & ->). unfold number_hash. cbn. by rewrite list_lookup_fmap, Hsn. }
  split; cbn; try done.
  - apply (move_position_inv _ _ _ s k); [done|lia|]. naive_solver.
  - intros i Hi. unfold stored. setoid_rewrite Hother; [|done].
    destruct (decide (i ≤ s)%nat); [apply Hst; lia|apply Hnew; lia].
  - apply (records_ok_other (ps_store p)); [|done]. intros c key' [[->|[->| ->]]| ->]; by apply Hother.
  - intros i Hi. unfold deposits_of. rewrite Hother by done. apply Hd. lia.
  - destruct Hs1 as [->| ->]; [done|]. destruct (ps_submit p) as [t|]; [|done]. destruct Hsub as [Hs2 Hok].
    split; [done|]. assert (Hstored : ∀ i tx, stored (ps_store p) i tx → stored db' i tx)
      by (intros i tx; unfold stored; by rewrite Hother).
    destruct t as [|? ?|? ?|? ?|[?|?|]]; try done; cbn in Hok |- *; destruct Hok as [? Hok]; (split; [done|]);
      [by apply Hstored..|]. destruct Hok as [tx Htx]. exists tx. by apply Hstored.
  - destruct Hk1 as [->|[-> Hle]]; [done|]. destruct (ps_confirm p) as [t|]; [|done]. split; [lia|apply Hcon].
Qed.

(** The outcome of an event: it keeps the invariant, or ends the loop with an
    error the loop recovers from. *)
Definition event_outcome (r : outcome PscError unit) (p' : Psc) (reverts : Z → Prop) : Prop :=
  ∃ snaps s k h, psc_inv p' snaps s k h ∧
  match r with
  | Ok _ | Err (Stopped ShouldResync) => True
  | Err (Stopped (ShouldRevert n)) => reverts n
  | _ => False
  end.

Lemma sub_w_run {E} a : (0 < a)%nat → sub_w (E:=E) (Z.of_nat a) 1 = Ok (Z.of_nat (pred a)).
Proof.
  intros Ha. unfold sub_w, checked_sub. rewrite (proj2 (Z.leb_le _ _)) by lia. cbn. f_equal. lia.
Qed.

Lemma published_counts lc sc p p' q snaps s k h :
  q = set_submitted_count sc (set_local_count lc p) → psc_inv q snaps s k h →
  (p' = p ∨ ∃ sv sv', ps_server p = Some sv ∧ bs_buffer_capacity sv' = bs_buffer_capacity sv ∧
                      p' = with_server (Some sv') p) →
  psc_inv (set_submitted_count sc (set_local_count lc p')) snaps s k h.
Proof.
  intros -> Hi [->|(sv & sv' & Es & Hc & ->)]; [done|].
  refine (proj1 (published_inv _ _ _ _ _ _ Hi (or_intror _))). by exists sv, sv'.
Qed.

Lemma on_submitted_inv p snaps s k h r :
  psc_inv p snaps s k h → ps_submit p = Some (SubmitDone r) →
  event_outcome (on_submitted r p).1 (on_submitted r p).2 (λ n, n = Z.of_nat (S s)).
Proof.
  intros Hi Et. pose proof (pi_submit _ _ _ _ _ Hi) as Hsub. rewrite Et in Hsub. destruct Hsub as [Hs Hok].
  pose proof (with_submit_inv None _ _ _ _ _ Hi I) as Hi0. pose proof (pi_positions _ _ _ _ _ Hi) as Hp.
  unfold on_submitted. rewrite (st_bind_run (modify _) _ _ _ _ eq_refl). unfold task_result.
  destruct r as [nh|e|]; [| |done]; cycle 1.
  { exists snaps, s, k, h. split; [exact Hi0|]. cbn. destruct Hok as [->| ->]; done. }
  destruct Hok as [Hn [tx Htx]]. rewrite (st_bind_run (lift _) _ _ nh _) by done.
  set (p0 := with_submit None p) in *.
  set (db' := with_columns (put_all [((COLUMN_META, META_LAST_SUBMITTED_BLOCK_NUMBER_HASH_KEY), ENumberHash nh)])
                (ps_store p0)).
  rewrite (st_bind_run _ _ _ tt (with_store db' p0)) by done.
  set (lc := Z.of_nat (length snaps - S (S s))). set (sc := Z.of_nat (S s - k)).
  assert (Hi1 : psc_inv (set_submitted_count sc (set_local_count lc (with_store db' p0))) snaps (S s) k h).
  { apply (moved_inv p0 snaps s k h); try done; [by left|by right; split; [|lia]|lia| |left; done].
    intros i Hi'. replace i with (S s) by lia. by exists tx. }
  assert (En : nh_number nh = Z.of_nat (S s)) by (by destruct Hn as (? & _ & ->)). rewrite En.
  destruct (pi_stored _ _ _ _ _ Hi1 (S s) ltac:(lia)) as [tx' Htx'].
  destruct (publish_from_run (submitted_message (Z.of_nat (S s)))
    (λ '(nh, tx_hash) sv, Ok (publish_submitted nh tx_hash sv)) (with_store db' p0) (nh, l1_hash tx'))
    as (p1 & E1 & Hp1); [exact (submitted_message_run _ _ _ _ _ _ _ _ Hi1 Hn Htx')|by intros sv _; eexists|].
  rewrite (st_bind_run _ _ _ _ _ E1).
  assert (Hcounts : ps_local_count p1 = Z.of_nat (length snaps - S s) ∧ ps_submitted_count p1 = Z.of_nat (s - k)).
  { rewrite <- (pi_local _ _ _ _ _ Hi), <- (pi_submitted _ _ _ _ _ Hi).
    by destruct Hp1 as [->|(? & ? & _ & _ & ->)]. }
  destruct Hcounts as [Hlc Hsc]. rewrite (st_bind_run (gets _) _ _ _ _ eq_refl), Hlc.
  rewrite sub_w_run by lia. rewrite (st_bind_run (lift _) _ _ lc _) by (subst lc; do 3 f_equal; lia).
  rewrite (st_bind_run (modify _) _ _ _ _ eq_refl), (st_bind_run (gets _) _ _ _ _ eq_refl).
  rewrite (st_bind_run (lift _) _ _ sc (set_local_count lc p1)).
  2: { unfold lift, add_w, checked_add. cbn [set_local_count ps_submitted_count]. rewrite Hsc.
       rewrite (proj2 (Z.ltb_lt _ _)) by lia. cbn. subst sc. do 2 f_equal. lia. }
  exists snaps, (S s), k, h. split; [|done]. by eapply published_counts.
Qed.

Lemma on_confirmed_inv p snaps s k h r :
  psc_inv p snaps s k h → ps_confirm p = Some (ConfirmDone r) →
  event_outcome (on_confirmed r p).1 (on_confirmed r p).2 (λ n, n = Z.of_nat (S k)).
Proof.
  intros Hi Et. pose proof (pi_confirm _ _ _ _ _ Hi) as Hcon. rewrite Et in Hcon. destruct Hcon as [Hk Hok].
  pose proof (with_confirm_inv None _ _ _ _ _ Hi I) as Hi0. pose proof (pi_positions _ _ _ _ _ Hi) as Hp.
  unfold on_confirmed. rewrite (st_bind_run (modify _) _ _ _ _ eq_refl). unfold task_result.
  destruct r as [nh|e|]; [| |done]; cycle 1.
  { exists snaps, s, k, h. split; [exact Hi0|]. cbn. destruct Hok as [->| ->]; done. }
  cbn in Hok. rewrite (st_bind_run (lift _) _ _ nh _) by done.
  set (p0 := with_confirm None p) in *.
  set (db' := with_columns (put_all [((COLUMN_META, META_LAST_CONFIRMED_BLOCK_NUMBER_HASH_KEY), ENumberHash nh)])
                (ps_store p0)).
  rewrite (st_bind_run _ _ _ tt (with_store db' p0)) by done.
  set (lc := Z.of_nat (length snaps - S s)). set (sc := Z.of_nat (s - S k)).
  assert (Hi1 : psc_inv (set_submitted_count sc (set_local_count lc (with_store db' p0))) snaps s (S k) h).
  { apply (moved_inv p0 snaps s k h); try done; [by right|by left|lia| |right; done]. lia. }
  assert (En : nh_number nh = Z.of_nat (S k)) by (by destruct Hok as (? & _ & ->)). rewrite En.
  destruct (pi_stored _ _ _ _ _ Hi0 (S k) ltac:(lia)) as [tx' Htx'].
  assert (Htx1 : stored db' (S k) tx').
  { unfold stored. subst db'. cbn [sd_columns with_columns put_all foldl fst snd].
    by rewrite lookup_insert_ne by (by intros [= ]). }
  destruct (publish_from_run (submitted_message (Z.of_nat (S k)))
    (λ '(nh, tx_hash), publish_confirmed nh tx_hash) (with_store db' p0) (nh, l1_hash tx'))
    as (p1 & E1 & Hp1); [exact (submitted_message_run _ _ _ _ _ _ _ _ Hi1 Hok Htx1)| |].
  { intros sv Esv. unfold publish_confirmed. pose proof (pi_server _ _ _ _ _ Hi) as Hcap.
    change (ps_server p = Some sv) in Esv. rewrite Esv in Hcap. cbn [with_buffer bs_buffer_capacity].
    unfold add_w, checked_add. rewrite (proj2 (Z.ltb_lt _ _)) by (unfold saturating_sub; lia). by eexists. }
  rewrite (st_bind_run _ _ _ _ _ E1).
  assert (Hcounts : p1 = set_local_count lc p1 ∧ ps_submitted_count p1 = Z.of_nat (s - k)).
  { rewrite <- (pi_submitted _ _ _ _ _ Hi). pose proof (pi_local _ _ _ _ _ Hi) as Hlc. fold lc in Hlc.
    destruct Hp1 as [->|(? & ? & _ & _ & ->)]; (split; [|done]); unfold set_local_count; cbn; by rewrite <- Hlc. }
  destruct Hcounts as [Hlc Hsc]. rewrite (st_bind_run (gets _) _ _ _ _ eq_refl), Hsc.
  rewrite sub_w_run by lia. rewrite (st_bind_run (lift _) _ _ sc _) by (subst sc; do 3 f_equal; lia).
  exists snaps, s, (S k), h. split; [|done]. cbn. rewrite Hlc. by eapply published_counts.
Qed.

(** *** A new local block *)
Definition produced_run (p : Psc) (r : ProduceBlockResult) :=
  update_local (Mac:=Mac) (pr_block r) (pr_deposit_cells r) (deposit_asset_scripts (pr_deposit_cells r))
    (pr_withdrawal_extras r) (pr_global_state r) (ps_chain p, mkStoreTx (ps_store p) (ps_store p)).

(** What the assembly of a block promises: a new hash and a timestamp in range;
    the chain accepts or refuses the block, but does not panic, and account 0 stays;
    the memory pool accepts the new tip. *)
Record sound_product (p : Psc) (snaps : list Snap) (r : ProduceBlockResult) : Prop := {
  sp_fresh : fresh_block (ps_chain p) snaps (pr_block r);
  sp_time : 0 ≤ timestamp (block_raw (pr_block r)) < MAX_TIMESTAMP;
  sp_notify : mem_pool_notify (block_hash (pr_block r)) = true;
  sp_update : match produced_run p r with
              | (Ok _, (_, tx)) => h256_is_zero (tree_get (sd_account_tree (tx_db tx)) root_key) = false
              | (Err _, _) => True
              | (Panic, _) => False
              end;
}.

Lemma extended_names snaps sn i nh : names snaps i nh → names (snaps ++ [sn]) i nh.
Proof. intros (x & Hx & ->). exists x. by rewrite (lookup_app_l_Some _ _ _ _ Hx). Qed.
Lemma extended_task db db' snaps sn n t :
  (∀ tx, stored db n tx → stored db' n tx) →
  submit_task_ok db snaps n t → submit_task_ok db' (snaps ++ [sn]) n t.
Proof.
  intros Hst. destruct t as [|? ?|? ?|? ?|[?|?|]]; cbn; try done.
  - apply extended_names.
  - intros [Hn Ht]. eauto using extended_names.
  - intros [Hn Ht]. eauto using extended_names.
  - intros [Hn [tx Ht]]. eauto using extended_names.
Qed.
Lemma extended_confirm_task snaps sn n t :
  confirm_task_ok snaps n t → confirm_task_ok (snaps ++ [sn]) n t.
Proof. destruct t as [|? ?|? ?|[?|?|]]; cbn; eauto using extended_names. Qed.

Lemma produced_inv p snaps s k h r c' tx' m lc :
  psc_inv p snaps s k h → sound_product p snaps r → produced_run p r = (Ok tt, (c', tx')) →
  let db' := (set_block_post_finalized_custodian_capacity (E:=ChainError) (block_number (pr_block r))
                (pr_remaining_capacity r) (tx_db tx')).2 in
  lc = Z.of_nat (S (length snaps) - S s) →
  ∃ snaps' h', psc_inv (set_local_count lc (with_cells m (with_store db' (with_chain c' p)))) snaps' s k h'.
Proof.
  intros Hi [Hf Ht Hn Hu] Erun db' ->. rewrite Erun in Hu. unfold produced_run in Erun.
  pose proof (pi_positions _ _ _ _ _ Hi) as Hp. set (b := pr_block r) in *. set (n := block_number b) in *.
  destruct (update_local_extends (Mac:=Mac) _ _ _ _ _ _ _ _ _ _ _ _ _ _ (pi_chain _ _ _ _ _ Hi) Hf Erun Hu)
    as (_ & _ & _ & h' & Hc').
  set (sn := mkSnap _ _ _) in Hc'.
  pose proof (records_update_local (Mac:=Mac) n (others_kept n (ps_store p)) (others_kept_records n _)
    b (pr_deposit_cells r) (deposit_asset_scripts (pr_deposit_cells r)) (pr_withdrawal_extras r)
    (pr_global_state r) eq_refl (ps_chain p, mkStoreTx (ps_store p) (ps_store p)) (λ c key _ _, eq_refl)) as Hothers.
  rewrite Erun in Hothers. unfold in_tx in Hothers. cbn [snd] in Hothers.
  pose proof (records_update_local (Mac:=Mac) n records_ok (records_ok_records n)
    b (pr_deposit_cells r) (deposit_asset_scripts (pr_deposit_cells r)) (pr_withdrawal_extras r)
    (pr_global_state r) eq_refl (ps_chain p, mkStoreTx (ps_store p) (ps_store p)) (pi_records _ _ _ _ _ Hi)) as Hrec.
  rewrite Erun in Hrec. unfold in_tx in Hrec. cbn [snd] in Hrec.
  pose proof (update_local_deposits (Mac:=Mac) _ _ _ _ _ _ _ _ Erun) as Hdep. cbn [snd] in Hdep. fold n in Hdep.
  assert (Hn' : n = Z.of_nat (length snaps)).
  { apply (lo_number _ (ho_ok _ _ (ci_holds _ _ _ _ _ _ Hc'))). cbn. rewrite list_lookup_fmap.
    by rewrite list_lookup_middle. }
  assert (Hcols : ∀ c key, c ≠ COLUMN_BLOCK_POST_FINALIZED_CUSTODIAN_CAPACITY →
    sd_columns db' !! (c, key) = sd_columns (tx_db tx') !! (c, key)).
  { intros c key Hc. subst db'. cbn. by rewrite lookup_insert_ne by (by intros [= <- _]). }
  assert (Hkeep : ∀ c i, recorded c → (i < length snaps)%nat →
    sd_columns db' !! (c, be_bytes 8 (Z.of_nat i)) = sd_columns (ps_store p) !! (c, be_bytes 8 (Z.of_nat i))).
  { intros c i Hc Hil. rewrite Hcols by (by intros ->; destruct Hc as [|[|]]). apply Hothers; [done|].
    rewrite Hn'. intros E%be8_inj; lia. }
  assert (Hstored : ∀ i tx, (i < length snaps)%nat → stored (ps_store p) i tx → stored db' i tx).
  { intros i tx Hil. unfold stored. rewrite Hkeep; [done|by left|done]. }
  clearbody n. exists (snaps ++ [sn]), h'. destruct Hi as [Hc Hlc Hsc Hst Hr Hd Htm Hsv Hsub Hcon].
  split; cbn [set_local_count with_cells with_store with_chain ps_chain ps_store ps_local_count ps_submitted_count
    ps_submit ps_confirm ps_server]; try done.
  - apply (chain_inv_beside _ (tx_db tx')); [done..|]. subst db'. apply framed_insert; [|apply framed_start].
    intros Hx. apply Hx. right. by right.
  - rewrite length_app. cbn. f_equal. lia.
  - intros i Hil. destruct (Hst i Hil) as [tx Htx]. exists tx. apply Hstored; [lia|done].
  - apply (records_ok_other (tx_db tx')); [|done]. intros c key Hck. apply Hcols. intros ->.
    by destruct Hck as [[|[|]]|].
  - intros i Hil. rewrite length_app in Hil. cbn in Hil. unfold deposits_of in *.
    destruct (decide (i < length snaps)%nat) as [Hlt|].
    + rewrite Hkeep; [apply Hd; lia|by right; right|done].
    + replace i with (length snaps) by lia. rewrite <- Hn', Hcols by done. eauto.
  - intros i x Hx. apply lookup_app_Some in Hx as [Hx|[_ Hx]]; [by eapply Htm|].
    apply list_lookup_singleton_Some in Hx as [_ <-]. done.
  - destruct (ps_submit p) as [t|]; [|done]. destruct Hsub as [Hs1 Hok]. rewrite length_app. split; [cbn; lia|].
    eapply extended_task; [|done]. intros tx. by apply Hstored.
  - destruct (ps_confirm p) as [t|]; [|done]. destruct Hcon as [Hk1 Hok]. split; [done|]. by apply extended_confirm_task.
Qed.

(** Publishing a new block touches neither the chain nor the store. *)
Lemma publish_new_inv l p snaps s k h :
  psc_inv p snaps s k h →
  ∃ p', on_server (λ sv, Ok (publish_local_block l sv)) p = (Ok tt, p') ∧ psc_inv p' snaps s k h ∧
    ps_chain p' = ps_chain p ∧ ps_store p' = ps_store p.
Proof.
  intros Hi. unfold on_server. pose proof (pi_server _ _ _ _ _ Hi) as Hsv.
  destruct (ps_server p) as [sv|]; [|by exists p]. eexists. split; [done|].
  split; [|done]. by apply with_server_inv.
Qed.
Lemma sound_product_ext p p' snaps r :
  ps_chain p' = ps_chain p → ps_store p' = ps_store p → sound_product p snaps r → sound_product p' snaps r.
Proof. intros Ec Es [Hf Ht Hn Hu]. split; unfold produced_run; by rewrite ?Ec, ?Es. Qed.

Lemma on_tick_inv p snaps s k h produced :
  psc_inv p snaps s k h → produced ≠ Panic → (∀ r, produced = Ok r → sound_product p snaps r) →
  ∃ p' snaps' h', on_tick (Mac:=Mac) produced p = (Ok tt, p') ∧ psc_inv p' snaps' s k h'.
Proof.
  intros Hi Hnp Hsound. unfold on_tick, produce_local_block.
  destruct produced as [r|e|]; [|by exists p, snaps, h|done]. specialize (Hsound r eq_refl).
  cbn [map_err]. rewrite (st_bind_run (lift _) _ _ r _) by done. cbv zeta.
  set (l := mkLocalBlock _ _ _ _ _).
  destruct (publish_new_inv l p snaps s k h Hi) as (p1 & E1 & Hi1 & Hc1 & Hs1).
  rewrite (st_bind_run _ _ _ _ _ E1). pose proof (sound_product_ext _ _ _ _ Hc1 Hs1 Hsound) as Hsp.
  clear Hi Hsound E1 Hc1 Hs1. pose proof (sp_update _ _ _ Hsp) as Hu.
  pose proof (update_local_unless (Mac:=Mac) (ps_chain p1) (pr_block r) (pr_deposit_cells r)
    (deposit_asset_scripts (pr_deposit_cells r)) (pr_withdrawal_extras r) (pr_global_state r)
    (ps_chain p1, mkStoreTx (ps_store p1) (ps_store p1)) eq_refl) as Hun.
  fold (produced_run p1 r) in Hun.
  destruct (produced_run p1 r) as [[[]|e|] [c' tx']] eqn:Er; [| |done].
  - rewrite (st_bind_run (update_store (Mac:=Mac) r) _ _ tt (with_store
      (set_block_post_finalized_custodian_capacity (E:=ChainError) (block_number (pr_block r))
         (pr_remaining_capacity r) (tx_db tx')).2 (with_chain c' p1))).
    2: { unfold update_store. rewrite (st_bind_run (update_local _ _ _ _ _) _ _ tt (c', tx')) by exact Er. done. }
    rewrite (st_bind_run (modify _) _ _ _ _ eq_refl). rewrite (sp_notify _ _ _ Hsp). cbn [lift].
    set (p2 := with_cells _ _).
    destruct (produced_inv p1 snaps s k h r c' tx' (ps_cells p2) (Z.of_nat (S (length snaps) - S s))
      Hi1 Hsp Er eq_refl) as (snaps' & h' & Hi2).
    pose proof (pi_positions _ _ _ _ _ Hi1) as Hp. pose proof (pi_local _ _ _ _ _ Hi1) as Hlc.
    assert (Hadd : add_w (E:=PscError) 64 (ps_local_count p2) 1 = Ok (Z.of_nat (S (length snaps) - S s))).
    { change (ps_local_count p2) with (ps_local_count p1). rewrite Hlc. unfold add_w, checked_add.
      rewrite (proj2 (Z.ltb_lt _ _)) by lia. cbn. f_equal. lia. }
    unfold lift. rewrite Hadd. eexists _, snaps', h'. split; [reflexivity|exact Hi2].
  - assert (c' = ps_chain p1) as -> by (destruct Hun as [Hun|Hun]; [discriminate Hun|exact Hun]).
    assert (Eu : update_store (Mac:=Mac) r p1 = (Err Fatal, p1)).
    { unfold update_store, mbind, ST_bind. fold (produced_run p1 r). rewrite Er. by destruct p1. }
    unfold mbind at 1, ST_bind at 1. rewrite Eu. by exists p1, snaps, h.
Qed.
End Tasks.

(** ** The loop *)
Section Loop.
Context {Mac : Type} `{MachineLaws Mac}.
Context `{Blake2b, Molecule, ContractArgs, SubstrateBn, SyscallCodec, MapIter, HashCodec, SmtRoot}.
Context `{SmtProof, CbmtBuild, RocksIter, MemPool, BlockCodec, !Blake2bLength, !SmtRootLaws}.
Context (cfg : PscConfig).

(** What the services owe: transactions and blocks that fit their types, and no
    panics of their own *)
Definition sound_event (p : Psc) (snaps : list Snap) (e : event) : Prop :=
  match e with
  | EvSubmitCompose composed => composed ≠ Panic ∧ ∀ tx, composed = Ok tx → few_outputs tx
  | EvSubmitSend l1 | EvConfirmPoll l1 _ => l1_sound l1
  | EvTick attempts =>
      produce attempts ≠ Some Panic ∧
      ∀ r, produce attempts = Some (Ok r) → sound_product (Mac:=Mac) p snaps r
  | _ => True
  end.
(** The block from which an event takes blocks back *)
Definition reverts (e : event) (s k : nat) (n : Z) : Prop :=
  match e with
  | EvSubmitted => n = Z.of_nat (S s)
  | EvConfirmed => n = Z.of_nat (S k)
  | EvRevertLocal => n = Z.of_nat s
  | EvRevertSubmitted => n = Z.of_nat k
  | _ => False
  end.

Lemma outcome_ok (m : ST Psc PscError unit) p snaps s k h Q :
  (∃ p', m p = (Ok tt, p') ∧ psc_inv p' snaps s k h) → event_outcome (m p).1 (m p).2 Q.
Proof. intros (p' & E & Hi). rewrite E. by exists snaps, s, k, h. Qed.
Lemma outcome_weaken r p (Q Q' : Z → Prop) :
  (∀ n, Q n → Q' n) → event_outcome r p Q → event_outcome r p Q'.
Proof.
  intros HQ (snaps & s & k & h & Hi & Hr). exists snaps, s, k, h. split; [done|].
  destruct r as [?|[[n| |]|]|]; auto.
Qed.
Lemma signal_outcome (get : ST StoreDb PscError (option NumberHash)) p snaps s k h i sn :
  psc_inv p snaps s k h →
  get (ps_store p) = (Ok (Some (mkNumberHash (Z.of_nat i) (block_hash (sn_block sn)))), ps_store p) →
  event_outcome (on_signal get p).1 (on_signal get p).2 (λ n, n = Z.of_nat i).
Proof.
  intros Hi E. unfold on_signal.
  rewrite (st_bind_run _ _ _ _ _ (on_store_run _ _ _ _ (or_fatal_run _ _ _ _ E))), with_store_same.
  by exists snaps, s, k, h.
Qed.

Lemma handle_outcome e p snaps s k h :
  psc_inv p snaps s k h → sound_event p snaps e →
  event_outcome (handle (Mac:=Mac) cfg e p).1 (handle (Mac:=Mac) cfg e p).2 (reverts e s k).
Proof.
  intros Hi Hs. pose proof (pi_submit _ _ _ _ _ Hi) as Hsub. pose proof (pi_confirm _ _ _ _ _ Hi) as Hcon.
  assert (Hsame : event_outcome (Ok tt) p (reverts e s k)) by (by exists snaps, s, k, h).
  unfold handle. destruct e;
    try match goal with |- event_outcome (match ps_submit p with _ => _ end).1 _ _ =>
          destruct (ps_submit p) as [t|] eqn:Et; [|exact Hsame]; destruct t; try exact Hsame; cbn [submit_event] end;
    try match goal with |- event_outcome (match ps_confirm p with _ => _ end).1 _ _ =>
          destruct (ps_confirm p) as [t|] eqn:Ec; [|exact Hsame]; destruct t; try exact Hsame; cbn [confirm_event] end.
  - eapply outcome_ok, submit_read_inv; [done|]. by destruct Hsub.
  - destruct Hs. by eapply outcome_ok, submit_compose_inv.
  - by eapply outcome_ok, submit_apply_inv.
  - by eapply outcome_ok, submit_send_inv.
  - eapply outcome_ok, confirm_read_inv; [done|]. by destruct Hcon.
  - by eapply outcome_ok, confirm_poll_inv.
  - by eapply outcome_ok, confirm_indexer_inv.
  - by eapply on_confirmed_inv.
  - by eapply on_submitted_inv.
  - destruct Hs as [Hnp Hr]. destruct (ps_local_count p <? _); [|exact Hsame].
    destruct (produce attempts0) as [produced|]; [|exact Hsame].
    destruct (on_tick_inv (Mac:=Mac) p snaps s k h produced Hi) as (p' & snaps' & h' & E & Hi').
    + by intros ->.
    + intros r ->. by apply Hr.
    + rewrite E. by exists snaps', s, k, h'.
  - destruct (read_last_submitted _ _ _ _ _ Hi (E:=PscError)) as (sn & _ & E). by eapply signal_outcome.
  - destruct (read_last_confirmed _ _ _ _ _ Hi (E:=PscError)) as (sn & _ & E). by eapply signal_outcome.
Qed.

Lemma loop_top_inv p snaps s k h :
  0 < pc_local_limit cfg → 0 < pc_submitted_limit cfg → psc_inv p snaps s k h →
  ∃ p', loop_top cfg p = (Ok tt, p') ∧ psc_inv p' snaps s k h.
Proof.
  intros Hl Hsl Hi. unfold loop_top. pose proof (pi_local _ _ _ _ _ Hi) as Hlc.
  pose proof (pi_submitted _ _ _ _ _ Hi) as Hsc.
  set (p1 := if _ : bool then with_submit _ p else p).
  assert (H1' : psc_inv p1 snaps s k h).
  { subst p1. case_match eqn:Eb; [|done]. apply with_submit_inv; [done|]. split; [|done].
    apply andb_prop in Eb as [[_ Eb%Z.ltb_lt]%andb_prop _]. lia. }
  assert (Hc1 : ps_local_count p1 = ps_local_count p ∧ ps_submitted_count p1 = ps_submitted_count p ∧
                ps_confirm p1 = ps_confirm p) by (subst p1; by case_match).
  set (p2 := if _ : bool then with_confirm _ p1 else p1).
  assert (H2' : psc_inv p2 snaps s k h).
  { subst p2. case_match eqn:Eb; [|done]. apply with_confirm_inv; [done|]. split; [|done].
    apply andb_prop in Eb as [_ Eb%Z.ltb_lt]. lia. }
  exists p2. split; [|done]. f_equal. apply assert_that_Ok.
  assert (Hc2 : ps_local_count p2 = ps_local_count p ∧ ps_submit p2 = ps_submit p1)
    by (subst p2; destruct Hc1; by case_match).
  destruct Hc2 as [-> ->]. destruct Hc1 as (_ & Hsc1 & Hcf).
  destruct (Z.ltb_spec (ps_local_count p) (pc_local_limit cfg)); [done|]. cbn [orb].
  destruct (ps_submit p1) as [t|] eqn:Et; [by rewrite orb_true_r|]. rewrite orb_false_r.
  assert (Hfull : pc_submitted_limit cfg ≤ ps_submitted_count p).
  { subst p1. destruct (_ && _) eqn:Eb in Et; [done|]. rewrite Et, bool_decide_true in Eb by done.
    rewrite (proj2 (Z.ltb_lt 0 _)) in Eb by lia. by apply Z.ltb_ge in Eb. }
  destruct (ps_confirm p2) as [t|] eqn:Ec; [done|]. exfalso. subst p2.
  destruct (bool_decide _ && _) eqn:Eb in Ec; [done|]. rewrite Ec, bool_decide_true in Eb by done.
  apply Z.ltb_ge in Eb. lia.
Qed.

(** One turn of the loop, or one event that does not end it *)
Inductive psc_step : Psc → Psc → Prop :=
| step_turn p p' : loop_top cfg p = (Ok tt, p') → psc_step p p'
| step_event e p p' :
    (∀ snaps s k h, psc_inv p snaps s k h → sound_event p snaps e) →
    handle (Mac:=Mac) cfg e p = (Ok tt, p') → psc_step p p'.

Lemma step_inv p p' :
  0 < pc_local_limit cfg → 0 < pc_submitted_limit cfg → psc_step p p' →
  (∃ snaps s k h, psc_inv p snaps s k h) → ∃ snaps s k h, psc_inv p' snaps s k h.
Proof.
  intros Hl Hsl Hstep (snaps & s & k & h & Hi). destruct Hstep as [p p' E|e p p' Hs E].
  - destruct (loop_top_inv p snaps s k h Hl Hsl Hi) as (p1 & E1 & Hi1). rewrite E in E1.
    injection E1 as <-. eauto.
  - destruct (handle_outcome e p snaps s k h Hi (Hs _ _ _ _ Hi)) as (snaps' & s' & k' & h' & Hi' & _).
    rewrite E in Hi'. eauto.
Qed.

(** C9. The loop keeps its books: from a state whose counters and tasks match the store,
    after any sequence of turns and events, whether layer 1 answers, refuses or fails, the
    counters
    still are the numbers of local and of submitted blocks, the tasks work on the
    next blocks, the assertion that some branch of the loop is enabled holds (with
    positive limits), and no event stops the node or makes the loop panic: it goes on, or ends the
    loop with the order to synchronise again or to take back the block of the failed
    task (after a signal: the last submitted or the last confirmed block).  What the
    events bring in is assumed sound ([sound_event]): composing a submission and
    producing a block do not panic themselves; a produced block is fresh, storing it
    does not panic and leaves account zero registered, and the memory pool
    accepts the notification, which the code expects; a composed
    transaction has at most 2^32 outputs; and the numbers of layer-1 blocks are below
    2^64 - 1. *)
Theorem psc_loop_keeps_books (p0 p : Psc) (snaps0 : list Snap) (s0 k0 : nat) (h0 : hist) :
  0 < pc_local_limit cfg → 0 < pc_submitted_limit cfg →
  psc_inv p0 snaps0 s0 k0 h0 → rtc psc_step p0 p →
  ∃ snaps s k h, psc_inv p snaps s k h ∧ (∃ p', loop_top cfg p = (Ok tt, p')) ∧
    ∀ e, sound_event p snaps e →
      event_outcome (handle (Mac:=Mac) cfg e p).1 (handle (Mac:=Mac) cfg e p).2 (reverts e s k).
Proof.
  intros Hl Hsl Hi0 Hsteps.
  assert (Hinv : ∃ snaps s k h, psc_inv p snaps s k h).
  { assert (Hex : ∃ snaps s k h, psc_inv p0 snaps s k h) by (by exists snaps0, s0, k0, h0).
    clear Hi0. induction Hsteps as [q|q q1 q2 Hstep _ IH]; [done|]. apply IH. by eapply step_inv. }
  destruct Hinv as (snaps & s & k & h & Hi). exists snaps, s, k, h. split; [done|]. split.
  - destruct (loop_top_inv p snaps s k h Hl Hsl Hi) as (p' & E & _). eauto.
  - intros e. by apply (handle_outcome e p snaps s k h).
Qed.
End Loop.

(** ** Recovery *)
Section Recovery.
Context {Mac : Type} `{MachineLaws Mac}.
Context `{Blake2b, Molecule, ContractArgs, SubstrateBn, SyscallCodec, MapIter, HashCodec, SmtRoot}.
Context `{SmtProof, CbmtBuild, RocksIter, MemPool, BlockCodec, !Blake2bLength, !SmtRootLaws}.

(** What layer 1 shows of the node's blocks: block [k] is there, and after it
    exactly the submissions of the blocks up to [m] *)
Record shows_known (v : L1View) (db : StoreDb) (k m : nat) (hs : nat → H256) : Prop := {
  sk_stored i : (k ≤ i ≤ m)%nat → submitted_by db i (hs i);
  sk_status : lv_status v (hs k) = Ok (Some Committed);
  sk_pages : ∃ l1_block pages before, lv_block_number v (hs k) = Ok (Some l1_block) ∧
    lv_pages v l1_block = Ok <$> pages ∧
    concat (dedup <$> pages) = before ++ hs k :: (hs <$> seq (S k) (m - k)) ∧ hs k ∉ before;
}.

(** The records of the blocks up to [n] *)
Definition kept_up_to (n : nat) (db db' : StoreDb) : Prop :=
  ∀ c i, recorded c → (i ≤ n)%nat →
    sd_columns db' !! (c, be_bytes 8 (Z.of_nat i)) = sd_columns db !! (c, be_bytes 8 (Z.of_nat i)).
Lemma kept_up_to_records n db i :
  (n < i)%nat → Z.of_nat i < 2 ^ 64 → on_records (Z.of_nat i) (kept_up_to n db).
Proof.
  intros Hi Hr.
  assert (Htrans : ∀ d d', kept_up_to n db d → others_kept (Z.of_nat i) d d' → kept_up_to n db d').
  { intros d d' Hd Ho c j Hc Hj. rewrite Ho; [by apply Hd|done|]. intros E%be8_inj; lia. }
  split.
  - intros E c key v Hc Hw d Hd. apply (Htrans d); [done|]. by apply (or_insert _ _ (others_kept_records _ d)).
  - intros E c key Hc Hw d Hd. apply (Htrans d); [done|]. by apply (or_delete _ _ (others_kept_records _ d)).
  - intros E key w d Hd. apply (Htrans d); [done|]. by apply (or_withdrawal _ _ (others_kept_records _ d)).
  - intros d d' Es Hd. apply (Htrans d); [done|]. intros c key _ _. by rewrite Es.
  - intros E ds d Hd. apply (Htrans d); [done|]. by apply (or_deposits _ _ (others_kept_records _ d)).
  - intros E d Hd. apply (Htrans d); [done|]. by apply (or_detached _ _ (others_kept_records _ d)).
Qed.

Lemma read_positions_run c db snaps m h :
  chain_inv c db snaps m m h →
  ∃ hash, read_positions db =
    (Ok (mkPositions (Z.of_nat (pred (length snaps))) (mkNumberHash (Z.of_nat m) hash) (Z.of_nat m)), db).
Proof.
  intros Hi. pose proof (ci_holds _ _ _ _ _ _ Hi) as Hh.
  pose proof (lo_positions _ (ho_ok _ _ Hh)) as Hp. cbn in Hp. rewrite length_fmap in Hp.
  destruct (read_tips (E:=PscError) db _ Hh) as (b & Hlb & _ & Ev). cbn [lg_blocks] in Hlb.
  destruct (read_position (E:=PscError) _ _ _ _ (ho_submitted _ _ Hh)) as (b1 & Hb1 & E1);
    [cbn; rewrite length_fmap; lia|].
  destruct (read_position (E:=PscError) _ _ _ _ (ho_confirmed _ _ Hh)) as (b2 & Hb2 & E2);
    [cbn; rewrite length_fmap; lia|]. cbn [lg_submitted lg_confirmed] in *.
  assert (Hnum : block_number b = Z.of_nat (pred (length snaps))).
  { rewrite last_lookup, length_fmap in Hlb. by apply (lo_number _ (ho_ok _ _ Hh)). }
  exists (block_hash b1). unfold read_positions. rewrite (st_bind_run _ _ _ _ _ Ev).
  rewrite (st_bind_run _ _ _ _ _ (st_unwrap_run _ _ _ _ E1)), (st_bind_run _ _ _ _ _ (st_unwrap_run _ _ _ _ E2)).
  cbn [nh_number]. rewrite Z.eqb_refl, Hnum. reflexivity.
Qed.

Lemma st_for_fixed {S E A} (l : list A) (f : A → ST S E unit) x :
  (∀ a, a ∈ l → f a x = (Ok tt, x)) → st_for l f x = (Ok tt, x).
Proof.
  induction l as [|a l IH]; intros Hf; [done|]. cbn [st_for].
  rewrite (st_bind_run _ _ _ _ _ (Hf a (list_elem_of_here _ _))). apply IH. intros b Hb. apply Hf. by right.
Qed.
Lemma publish_none l p : ps_server p = None → st_for l publish_local p = (Ok tt, p).
Proof.
  intros Hs. apply st_for_fixed. intros n _. unfold publish_local, publish_from.
  rewrite (st_bind_run (gets ps_server) _ _ _ _ eq_refl). by rewrite Hs.
Qed.
Lemma lock_deposits_run l p :
  (∀ n, n ∈ l → ∃ ds, deposits_of n ds (ps_store p)) →
  ∃ m, st_for l lock_deposits p = (Ok tt, with_cells m p).
Proof.
  revert p. induction l as [|n l IH]; intros p Hl; [by exists (ps_cells p); destruct p|]. cbn [st_for].
  destruct (Hl n (list_elem_of_here _ _)) as [ds Hds].
  assert (E : lock_deposits n p = (Ok tt, with_cells (foldl (λ m d, lock_cell (cell_out_point (di_cell d)) m)
                                                   (ps_cells p) ds) p)).
  { unfold lock_deposits. rewrite (st_bind_run (on_store _) _ _ ds p); [done|].
    rewrite (on_store_run _ _ (Ok ds) (ps_store p)); [by rewrite with_store_same|].
    by eapply st_unwrap_run, get_as_run. }
  rewrite (st_bind_run _ _ _ _ _ E). destruct (IH (with_cells (foldl (λ m d, lock_cell (cell_out_point (di_cell d)) m)
    (ps_cells p) ds) p)) as [m Em]; [intros n' Hn'; apply Hl; by right|]. by exists m.
Qed.

(** What the loop does after synchronising, on a node without a sync server *)
Lemma resume_run c db snaps m h lc sc cells sub con :
  chain_inv c db snaps m m h → (∀ i, (m < i < length snaps)%nat → ∃ ds, deposits_of (Z.of_nat i) ds db) →
  (∀ sn, last snaps = Some sn → mem_pool_notify (block_hash (sn_block sn)) = true) →
  ∃ cells', (po ← on_store read_positions;
   on_server (publish_revert (po_submitted po)) ;;
   st_for (local_blocks po) publish_local ;;
   modify (λ p, with_cells (local_cells_reset (ps_cells p)) p) ;;
   st_for (local_blocks po) lock_deposits ;;
   notify_tip ;; set_counts po) (mkPsc c db cells None lc sc sub con) =
  (Ok tt, mkPsc c db cells' None (Z.of_nat (length snaps - S m)) 0 sub con).
Proof.
  intros Hi Hd Hn. destruct (read_positions_run _ _ _ _ _ Hi) as (hash & E).
  pose proof (ci_holds _ _ _ _ _ _ Hi) as Hh.
  pose proof (lo_positions _ (ho_ok _ _ Hh)) as Hp. cbn in Hp. rewrite length_fmap in Hp.
  rewrite (st_bind_run _ _ _ _ _ (on_store_run read_positions (mkPsc c db cells None lc sc sub con) _ _ E)).
  cbn [po_submitted]. rewrite (st_bind_run (on_server _) _ _ tt _) by done.
  rewrite (st_bind_run _ _ _ _ _ (publish_none _ (with_store db (mkPsc c db cells None lc sc sub con)) eq_refl)).
  rewrite (st_bind_run (modify _) _ _ _ _ eq_refl). unfold local_blocks. cbn [po_confirmed po_valid].
  set (p1 := with_cells _ _).
  destruct (lock_deposits_run (seqZ (Z.of_nat m + 1) (Z.of_nat (pred (length snaps)) - Z.of_nat m)) p1) as [cells' Ec].
  { intros n [Hn1 Hn2]%elem_of_seqZ. destruct (Hd (Z.to_nat n) ltac:(lia)) as [ds Hds].
    rewrite Z2Nat.id in Hds by lia. by exists ds. }
  rewrite (st_bind_run _ _ _ _ _ Ec). destruct (ci_top _ _ _ _ _ _ Hi) as (sn & Hl & _).
  exists cells'. rewrite (st_bind_run notify_tip _ _ tt (with_cells cells' p1)).
  2: { unfold notify_tip. rewrite (st_bind_run (on_store _) _ _ (block_hash (sn_block sn)) (with_cells cells' p1)).
       - by rewrite (Hn sn Hl).
       - rewrite (on_store_run _ _ (Ok (block_hash (sn_block sn))) db); [done|]. apply get_hash_run.
         cbn [with_cells p1 ps_store with_store]. rewrite (ho_valid _ _ Hh). cbn. by rewrite fmap_last, Hl. }
  unfold set_counts. cbn [po_valid po_submitted nh_number po_confirmed].
  rewrite (st_bind_run (lift _) _ _ (Z.of_nat (length snaps - S m)) (with_cells cells' p1)).
  2: { unfold lift, sub_w, checked_sub. rewrite (proj2 (Z.leb_le _ _)) by lia. cbn. do 2 f_equal. lia. }
  rewrite (st_bind_run (modify _) _ _ _ _ eq_refl).
  rewrite (st_bind_run (lift _) _ _ 0 (set_local_count (Z.of_nat (length snaps - S m)) (with_cells cells' p1))).
  2: { unfold lift, sub_w, checked_sub. rewrite (proj2 (Z.leb_le _ _)) by lia. cbn. do 2 f_equal. lia. }
  done.
Qed.

Lemma recover_unfold v u fuel (n : nat) p c1 db1 c2 db2 :
  revert_to fuel (Z.of_nat n) (ps_chain p, mkStoreTx (ps_store p) (ps_store p)) =
    (Ok tt, (c1, mkStoreTx (ps_store p) db1)) →
  sync_l1_impl (Mac:=Mac) v u fuel (c1, db1) = (Ok tt, (c2, db2)) →
  recover (Mac:=Mac) [v] u fuel (ShouldRevert (Z.of_nat (S n))) p =
  (po ← on_store read_positions;
   on_server (publish_revert (po_submitted po)) ;;
   st_for (local_blocks po) publish_local ;;
   modify (λ p, with_cells (local_cells_reset (ps_cells p)) p) ;;
   st_for (local_blocks po) lock_deposits ;;
   notify_tip ;; set_counts po)
  (mkPsc c2 db2 (ps_cells p) (ps_server p) (ps_local_count p) (ps_submitted_count p) None None).
Proof.
  intros E1 E2. unfold recover. rewrite (st_bind_run (modify _) _ _ _ _ eq_refl).
  erewrite (st_bind_run _ _ _ tt).
  2: { erewrite (st_bind_run (lift _) _ _ (Z.of_nat n)).
       2: { unfold lift, sub_w, checked_sub. rewrite (proj2 (Z.leb_le _ _)) by lia. cbn. do 2 f_equal. lia. }
       unfold revert_blocks. cbn [with_submit with_confirm ps_chain ps_store]. by rewrite E1. }
  erewrite (st_bind_run (synchronise _ _ _) _ _ tt).
  2: { unfold synchronise. cbn [sync_l1 with_store with_chain ps_chain ps_store tx_db]. by rewrite E2. }
  done.
Qed.

(** C10. After a failed submission or confirmation of block [n + 1] a node without a
    block-sync server goes on from
    block [n]: it takes back exactly the blocks above [n], finds its own submissions
    up to block [m] on layer 1, makes [m] the last submitted and confirmed block, and
    the loop starts again with its books in order and no task running.  This is one attempt
    in which layer 1 can be read and shows these submissions, the blocks taken back do not
    change the tree of reverted blocks, and the
    memory pool accepts the notification of the new tip. *)
Theorem psc_recovers (v : L1View) (u : ChainUpdater) (fuel : nat) (p : Psc) (snaps : list Snap)
    (s k n m : nat) (h : hist) (hs : nat → H256) :
  psc_inv p snaps s k h → ps_server p = None → (k ≤ m ≤ n)%nat → (n < length snaps)%nat →
  same_reverted snaps n → (length snaps ≤ fuel + S n)%nat → shows_known v (ps_store p) k m hs →
  (∀ sn, snaps !! n = Some sn → mem_pool_notify (block_hash (sn_block sn)) = true) →
  ∃ p' h', recover (Mac:=Mac) [v] u fuel (ShouldRevert (Z.of_nat (S n))) p = (Ok tt, p') ∧
    psc_inv p' (take (S n) snaps) m m h' ∧ ps_submit p' = None ∧ ps_confirm p' = None.
Proof.
  intros Hi Hsv Hm Hn Hsame Hfuel [Hk1 Hk2 (l1_block & pages & before & Hk3 & Hk4 & Hk5 & Hk6)] Hnot.
  pose proof (pi_positions _ _ _ _ _ Hi) as Hp.
  destruct (revert_to_run fuel n _ _ (ps_store p) _ _ _ _ (pi_chain _ _ _ _ _ Hi) Hn Hsame Hfuel)
    as (c1 & db1 & h1 & E1 & Hc1 & HP).
  assert (Hkeep : kept_up_to n (ps_store p) db1).
  { apply HP; [|by intros c i _ _]. intros i Hin. apply kept_up_to_records; lia. }
  assert (Hrec : records_ok db1).
  { apply HP; [|apply Hi]. intros i _. apply records_ok_records. }
  set (snaps' := take (S n) snaps) in *.
  assert (Hlen : length snaps' = S n) by (subst snaps'; rewrite length_take; lia).
  rewrite (Nat.min_l k n) in Hc1 by lia.
  destruct (sync_known_run (Mac:=Mac) v u fuel c1 db1 snaps' (min s n) k m h1 hs l1_block pages before Hc1)
    as (db2 & E2 & Hc2 & F); [lia| |done..|].
  { intros i Hi'. unfold submitted_by. rewrite Hkeep; [by apply Hk1|by right; left|lia]. }
  assert (Hcols : ∀ c key, c ≠ COLUMN_META → sd_columns db2 !! (c, key) = sd_columns db1 !! (c, key))
    by (intros c key Hc; by apply (fr_columns _ _ _ F)).
  assert (Hdep : ∀ i, (m < i < S n)%nat → ∃ ds, deposits_of (Z.of_nat i) ds db2).
  { intros i Hin. destruct (pi_deposits _ _ _ _ _ Hi i ltac:(lia)) as [ds Hds]. exists ds.
    unfold deposits_of in *. rewrite Hcols, Hkeep; [done|by right; right|lia|done]. }
  destruct (lookup_lt_is_Some_2 _ _ Hn) as [sn Hsn].
  destruct (resume_run c1 db2 snaps' m h1 (ps_local_count p) (ps_submitted_count p) (ps_cells p) None None Hc2)
    as (cells' & E3); [by rewrite Hlen| |].
  { intros x Hx. subst snaps'. rewrite (take_S_r _ _ _ Hsn), last_snoc in Hx. injection Hx as <-. by apply Hnot. }
  rewrite (recover_unfold v u fuel n p c1 db1 c1 db2 E1 E2), Hsv, E3. eexists _, h1. split; [done|].
  split; [|done]. split; cbn; try done.
  - by rewrite Nat.sub_diag.
  - intros i Hin. lia.
  - apply (records_ok_other db1); [|done]. intros c key [[->|[->| ->]]| ->]; by apply Hcols.
  - rewrite Hlen. exact Hdep.
  - intros i x Hx. subst snaps'. apply lookup_take_Some in Hx as [Hx _]. by eapply pi_times.
Qed.
End Recovery.
