(* ===== verification/Genesis.v ===== *)
(** * The genesis block (crates/generator/src/genesis.rs)

    The first state of a rollup (the reserved account, the CKB token and the
    address registry), the block that commits to it, and the store that starts
    from it.  A fresh chain over that store satisfies the invariant of
    [ChainProps.v]. *)
From Stdlib Require Import ZArith Lia Strings.Byte.
From stdpp Require Import prelude list gmap.
From S2P Require Import Prelude Bytes Types State StateSpec StateDB History Finality Ckb Eip712.
From S2P Require Import SubmitBlock RollupScript ChallengeLock NodeUtils NodeState AccountLocks Backends Syscalls Generator GeneratorProps BlockEffect Verifiers Store StoreProps ChallengeContext Chain ChainProps.
Local Open Scope Z_scope.

(** [GenesisConfig] (config.rs); the cell with the secp256k1 table is only for
    challenge transactions. *)
Record GenesisConfig := mkGenesisConfig {
  gc_timestamp : Z;
  gc_rollup_type_hash : H256;
  gc_meta_contract_validator_type_hash : H256;
  gc_eth_registry_validator_type_hash : H256;
  gc_rollup_config : RollupConfig;
}.
Record GenesisWithGlobalState := mkGenesisWithGlobalState {
  gw_genesis : L2Block; gw_global_state : GlobalState;
}.

Inductive GenesisError :=
| GenesisState (e : GenError.t)
| GenesisStore (e : StoreError)
| GenesisProof.

(** The builders' defaults *)
Definition default_account_state : AccountMerkleState := mkAccountMerkleState h256_zero 0.
Definition default_submit_withdrawals : SubmitWithdrawals := mkSubmitWithdrawals h256_zero 0.
Definition no_custodians : FinalizedCustodianCapacity := mkFinalizedCustodianCapacity 0 ∅.
Definition empty_history : HistoryDb := mkHistoryDb ∅ ∅ ∅ ∅.
Definition empty_store : StoreDb := mkStoreDb ∅ ∅ ∅ ∅ empty_history.

Section Genesis.
Context `{Blake2b, Molecule, SyscallCodec, HashCodec, SmtRoot, SmtProof, RocksIter, MapIter}.
Local Abbreviation M := (ST StoreDb GenesisError).
Local Abbreviation T := (ST (StateDB HistoryState) GenError.t).

(** *** The first state *)
Definition validator_script (code_hash rollup_script_hash : H256) : Script :=
  mkScript code_hash (ScriptHashType_to_u8 HashType) rollup_script_hash.

Definition create_expecting (script : Script) (expected : Z) : T unit :=
  id ← create_account_from_script script;
  lift (assert_that (id =? expected)).

(** The accounts and the secp256k1 table; returns the checkpoint before the
    (absent) transactions and the account state of the block. *)
Definition genesis_tree (config : GenesisConfig) (secp_data : bytes) :
    T (H256 * AccountMerkleState) :=
  let rollup_context :=
    mkRollupContext (gc_rollup_type_hash config) (gc_rollup_config config) (mkForkConfig None None) in
  create_expecting (validator_script (gc_meta_contract_validator_type_hash config)
                      (gc_rollup_type_hash config)) RESERVED_ACCOUNT_ID ;;
  create_expecting (l2_sudt_script rollup_context CKB_SUDT_SCRIPT_ARGS) CKB_SUDT_ACCOUNT_ID ;;
  create_expecting (validator_script (gc_eth_registry_validator_type_hash config)
                      (gc_rollup_type_hash config)) ETH_REGISTRY_ACCOUNT_ID ;;
  let secp_data_hash := blake2b secp_data in
  modify (insert_data secp_data_hash secp_data) ;;
  st_map_err GenError.State (store_data_hash secp_data_hash) ;;
  st_map_err GenError.State finalise ;;
  prev_state_checkpoint ← st_map_err GenError.State calculate_state_checkpoint;
  st_map_err GenError.State finalise ;;
  root ← st_map_err GenError.State calculate_root;
  count ← st_map_err GenError.State get_account_count;
  mret (prev_state_checkpoint, mkAccountMerkleState root count).

Definition raw_genesis (config : GenesisConfig) (prev_state_checkpoint : H256)
    (post_account : AccountMerkleState) : RawL2Block :=
  mkRawL2Block 0 [] h256_zero h256_zero (gc_timestamp config) default_account_state post_account []
    default_submit_withdrawals (mkSubmitTransactions h256_zero 0 prev_state_checkpoint).

Definition genesis_global_state (config : GenesisConfig) (post_account : AccountMerkleState)
    (block_root genesis_hash : H256) : GlobalState :=
  mkGlobalState (blake2b (enc_RollupConfig (gc_rollup_config config))) post_account
    (mkBlockMerkleState block_root 1) h256_zero genesis_hash 0 0 (Status_to_u8 Running) 0.

Definition build_genesis_from_store (config : GenesisConfig) (secp_data : bytes) :
    M GenesisWithGlobalState :=
  set_block_smt_root h256_zero ;;
  set_reverted_block_smt_root h256_zero ;;
  db ← gets (λ db, db);
  (* the tree opened at the zero root is empty *)
  tree ← lift (match StateDB_new (mkHistoryState 0 ∅ (sd_account_history db) (RWConfig_attach_block 0)) with
               | Ok tree => Ok tree | _ => Panic end);
  let '(built, tree) := genesis_tree config secp_data tree in
  modify (written_back tree) ;;
  '(prev_state_checkpoint, post_account) ← lift (map_err GenesisState built);
  let raw := raw_genesis config prev_state_checkpoint post_account in
  let genesis_hash := raw_block_hash raw in
  get_block_smt_root ;;
  modify (λ db, with_block_leaves (leaf_put (compute_smt_key 0) genesis_hash (sd_block_leaves db)) db) ;;
  leaves ← gets sd_block_leaves;
  block_proof ← lift (ok_or GenesisProof (smt_merkle_proof leaves [compute_smt_key 0]));
  let genesis := mkL2Block raw [] [] [] block_proof [] in
  let global_state := genesis_global_state config post_account (smt_root leaves) (block_hash genesis) in
  set_block_smt_root (bm_merkle_root (gs_block global_state)) ;;
  mret (mkGenesisWithGlobalState genesis global_state).

(** *** Starting a store *)
Definition store_genesis (config : GenesisConfig) (transaction_hash : H256) (secp_data : bytes) :
    M GenesisWithGlobalState :=
  setup_chain_id (gc_rollup_type_hash config) ;;
  built ← build_genesis_from_store config secp_data;
  let genesis := gw_genesis built in
  st_map_err GenesisStore
    (insert_block genesis (gw_global_state built) (post_account (block_raw genesis)) [] [] []) ;;
  attach_block genesis ;;
  let nh := mkNumberHash 0 (block_hash genesis) in
  set_last_submitted_block_number_hash nh ;;
  set_last_confirmed_block_number_hash nh ;;
  set_block_deposit_info_vec 0 [] ;;
  set_block_post_finalized_custodian_capacity 0 no_custodians ;;
  set_block_submit_tx_hash 0 transaction_hash ;;
  mret built.

(** The transaction is committed at the end only. *)
Definition init_genesis (config : GenesisConfig) (transaction_hash : H256) (secp_data : bytes) :
    M unit := λ store,
  match has_genesis (E:=GenesisError) store with
  | (Ok true, _) =>
      match get_chain_id (E:=GenesisError) store with
      | (Ok chain_id, _) =>
          (if bool_decide (chain_id = gc_rollup_type_hash config) then Ok tt else Panic, store)
      | (Err e, _) => (Err e, store)
      | (Panic, _) => (Panic, store)
      end
  | (Ok false, _) =>
      match store_genesis config transaction_hash secp_data store with
      | (Ok _, db) => (Ok tt, db)
      | (Err e, _) => (Err e, store)
      | (Panic, _) => (Panic, store)
      end
  | (Err e, _) => (Err e, store)
  | (Panic, _) => (Panic, store)
  end.
End Genesis.

Section GenesisProps.
Context `{Blake2b, Molecule, SyscallCodec, HashCodec, SmtRoot, SmtProof, RocksIter, MapIter}.
Context `{!Blake2bLength, !SmtRootLaws}.

(** The accounts of the genesis state are in the history of block zero. *)
Lemma genesis_tree_run config secp tree cp account tree' :
  genesis_tree config secp tree = (Ok (cp, account), tree') →
  applying 0 ∅ ∅ tree →
  (∃ h, recording 0 ∅ ∅ (db_state tree') h) ∧
  smt_root (hs_tree (db_state tree')) = am_merkle_root account.
Proof.
  intros Hrun Ha. split.
  - pose proof (applying_kept 0 ltac:(unfold in_width; lia) ∅ ∅) as HK.
    assert (Hk : kept (applying 0 ∅ ∅) (genesis_tree config secp)).
    { unfold genesis_tree, create_expecting. cbv zeta.
      repeat first [ apply kept_create_from_script; exact HK | apply kept_store_data_hash; exact HK
        | apply (sk_finalise _ HK) | apply kept_checkpoint; exact HK | apply (sk_calculate_root _ HK)
        | apply (sk_get_account_count _ HK) | apply kept_lift | apply kept_ret
        | apply kept_modify; intros s; apply (sk_insert_data _ HK)
        | apply kept_map_err | apply kept_bind; [|intros] ]. }
    specialize (Hk tree Ha). rewrite Hrun in Hk. apply Hk.
  - unfold genesis_tree in Hrun. cbv zeta in Hrun. inv_ok.
    match goal with E : (_, _) = (_, _) |- _ => injection E as <- <- end. cbn.
    rename select (calculate_root _ = _) into Hr. rename select (get_account_count _ = _) into Hc.
    cbn in Hr, Hc. unfold db_calculate_root, inner in Hr. case_match; [done|]. cbn in Hr.
    injection Hr as <- <-. unfold db_get_account_count, inner in Hc. cbn in Hc.
    by case_match; simplify_eq.
Qed.

(** Everything the store of a new rollup contains *)
Definition genesis_entries (config : GenesisConfig) (transaction_hash : H256) (b : L2Block)
    (gs : GlobalState) (leaves : gmap H256 H256) : list entry :=
  [meta META_CHAIN_ID_KEY (gc_rollup_type_hash config); meta META_BLOCK_SMT_ROOT_KEY h256_zero;
   meta META_REVERTED_BLOCK_SMT_ROOT_KEY h256_zero; meta META_BLOCK_SMT_ROOT_KEY (smt_root leaves);
   ((COLUMN_BLOCK, block_hash b), EBlock b);
   ((COLUMN_BLOCK_GLOBAL_STATE, block_hash b), EGlobalState gs);
   ((COLUMN_BLOCK_DEPOSIT_INFO_VEC, be_bytes 8 0), EDeposits [])] ++
  [((COLUMN_INDEX, le_bytes 8 0), EBytes (block_hash b));
   ((COLUMN_INDEX, block_hash b), EBytes (le_bytes 8 0))] ++
  [meta META_BLOCK_SMT_ROOT_KEY (smt_root leaves); meta META_TIP_BLOCK_HASH_KEY (block_hash b);
   meta META_LAST_VALID_TIP_BLOCK_HASH_KEY (block_hash b);
   ((COLUMN_META, META_LAST_SUBMITTED_BLOCK_NUMBER_HASH_KEY), ENumberHash (mkNumberHash 0 (block_hash b)));
   ((COLUMN_META, META_LAST_CONFIRMED_BLOCK_NUMBER_HASH_KEY), ENumberHash (mkNumberHash 0 (block_hash b)));
   ((COLUMN_BLOCK_DEPOSIT_INFO_VEC, be_bytes 8 0), EDeposits []);
   ((COLUMN_BLOCK_POST_FINALIZED_CUSTODIAN_CAPACITY, be_bytes 8 0), ECapacity no_custodians);
   ((COLUMN_BLOCK_SUBMIT_TX_HASH, be_bytes 8 0), EBytes transaction_hash)].

Lemma no_history_ok : hist_ok empty_history ∅.
Proof.
  split; cbn.
  - by intros b k v.
  - intros key v. split; [done|]. by intros (b0 & k0 & _ & ?).
  - intros key. split; [by intros []|]. by intros (b0 & k0 & _ & []).
Qed.
Lemma empty_applying root :
  applying 0 ∅ ∅ (mkStateDB (mkHistoryState 0 ∅ empty_history (RWConfig_attach_block 0)) [] 0 []
                    no_dirty None root).
Proof.
  split; [|split; [apply map_Forall_empty|constructor]]. exists ∅.
  by split; [apply no_history_ok|..].
Qed.
Lemma get_hash_same {E} key (db db' : StoreDb) r : get_meta_hash (E:=E) key db = (Ok r, db') → db' = db.
Proof.
  unfold get_meta_hash, st_unwrap, get_as, mbind, ST_bind. destruct (sd_columns db !! _) as [e|]; [|done].
  destruct (as_bytes e); [|done]. by intros [= _ <-].
Qed.

Lemma leaf_put_idem (k v : H256) (m : gmap H256 H256) : leaf_put k v (leaf_put k v m) = leaf_put k v m.
Proof. unfold leaf_put. case_match; [by rewrite delete_delete_eq|by rewrite insert_insert_eq]. Qed.

Lemma store_genesis_run config txh secp built db :
  store_genesis config txh secp empty_store = (Ok built, db) →
  let b := gw_genesis built in
  let leaves := leaf_put (compute_smt_key 0) (block_hash b) ∅ in
  ∃ hs h cp account,
    recording 0 ∅ ∅ hs h ∧ smt_root (hs_tree hs) = am_merkle_root account ∧
    (∃ proof, b = mkL2Block (raw_genesis config cp account) [] [] [] proof []) ∧
    gw_global_state built = genesis_global_state config account (smt_root leaves) (block_hash b) ∧
    db = mkStoreDb (put_all (genesis_entries config txh b (gw_global_state built) leaves) ∅)
           leaves ∅ (hs_tree hs) (hs_db hs).
Proof.
  intros Hrun b leaves. unfold store_genesis in Hrun.
  apply st_bind_Ok in Hrun as (u0 & y0 & E0 & Hrun). injection E0 as <- <-.
  apply st_bind_Ok in Hrun as (built' & db1 & Hb & Hrun).
  unfold build_genesis_from_store in Hb.
  apply st_bind_Ok in Hb as (u1 & y1 & E1 & Hb). injection E1 as <- <-.
  apply st_bind_Ok in Hb as (u2 & y2 & E2 & Hb). injection E2 as <- <-.
  apply st_bind_Ok in Hb as (d0 & x1 & E3 & Hb). injection E3 as <- <-.
  apply st_bind_Ok in Hb as (tree & x2 & [Ht <-]%lift_Ok & Hb). cbn in Ht. injection Ht as <-.
  destruct (genesis_tree config secp _) as [out tree'] eqn:Et.
  apply st_bind_Ok in Hb as (u3 & y3 & E4 & Hb). injection E4 as <- <-.
  apply st_bind_Ok in Hb as ([cp account] & y4 & [Hout <-]%lift_Ok & Hb).
  apply map_err_Ok in Hout. subst out.
  destruct (genesis_tree_run _ _ _ _ _ _ Et) as [[h Hrec] Hroot].
  { apply empty_applying. }
  cbv zeta in Hb.
  apply st_bind_Ok in Hb as (r & y5 & ->%get_hash_same & Hb).
  apply st_bind_Ok in Hb as (u4 & y6 & E6 & Hb). injection E6 as <- <-.
  apply st_bind_Ok in Hb as (l & y7 & E7 & Hb). injection E7 as <- <-.
  apply st_bind_Ok in Hb as (proof & y8 & [Hp <-]%lift_Ok & Hb). clear Hp.
  apply st_bind_Ok in Hb as (u5 & y9 & E8 & Hb). injection E8 as <- <-.
  injection Hb as <- <-. cbv zeta in Hrun. cbn [gw_genesis gw_global_state] in Hrun.
  set (raw := raw_genesis config cp account) in *. set (g := mkL2Block raw [] [] [] proof []) in *.
  apply st_bind_Ok in Hrun as (u6 & z1 & F1%st_map_err_Ok & Hrun).
  set (gs := genesis_global_state config account _ _) in *.
  assert (Hc : check_prev_txs_state g (Types.post_account (block_raw g)) [] = Ok tt).
  { destruct (check_prev_txs_state g _ []) as [[]|e|] eqn:Ec; [done|..]; unfold insert_block in F1;
      rewrite Ec in F1; inv_ok; done. }
  rewrite (insert_run _ _ _ _ _ _ _ Hc) in F1. injection F1 as _ F1.
  set (root := smt_root (leaf_put (compute_smt_key 0) (block_hash g) ∅)) in *.
  set (m1 := put_all [meta META_CHAIN_ID_KEY (gc_rollup_type_hash config); meta META_BLOCK_SMT_ROOT_KEY h256_zero;
    meta META_REVERTED_BLOCK_SMT_ROOT_KEY h256_zero; meta META_BLOCK_SMT_ROOT_KEY root;
    ((COLUMN_BLOCK, block_hash g), EBlock g); ((COLUMN_BLOCK_GLOBAL_STATE, block_hash g), EGlobalState gs);
    ((COLUMN_BLOCK_DEPOSIT_INFO_VEC, be_bytes 8 0), EDeposits [])] ∅).
  assert (Ez : z1 = mkStoreDb m1 (leaf_put (compute_smt_key 0) (block_hash g) ∅) ∅ (hs_tree (db_state tree'))
    (hs_db (db_state tree'))) by (rewrite <- F1; reflexivity).
  clear F1. subst z1.
  apply st_bind_Ok in Hrun as (u7 & z2 & F2 & Hrun).
  rewrite (attach_run _ _ root) in F2.
  2: { cbn [sd_columns]. unfold m1.
       change (put_all (?a :: ?b :: ?c :: ?d :: ?l) ?m) with (put_all l (put_all [a; b; c; d] m)).
       rewrite put_all_other by solve_key. reflexivity. }
  cbv zeta in F2. cbn [sd_block_leaves] in F2. change (smt_key g) with (compute_smt_key 0) in F2.
  rewrite leaf_put_idem in F2. injection F2 as _ F2.
  apply st_bind_Ok in Hrun as (v1 & w1 & G1 & Hrun). injection G1 as _ G1.
  apply st_bind_Ok in Hrun as (v2 & w2 & G2 & Hrun). injection G2 as _ G2.
  apply st_bind_Ok in Hrun as (v3 & w3 & G3 & Hrun). injection G3 as _ G3.
  apply st_bind_Ok in Hrun as (v4 & w4 & G4 & Hrun). injection G4 as _ G4.
  apply st_bind_Ok in Hrun as (v5 & w5 & G5 & Hrun). injection G5 as _ G5.
  apply ret_Ok in Hrun as [Hbuilt Hdb].
  subst w5 w4 w3 w2 w1 z2 db built. cbn [gw_genesis gw_global_state] in b, leaves |- *.
  exists (db_state tree'), h, cp, account. split; [done|]. split; [done|].
  split; [by exists proof|]. split; [done|]. reflexivity.
Qed.

Lemma put_all_at (L : list entry) (n : nat) key v m :
  L !! n = Some (key, v) → key ∉ (drop (S n) L).*1 → put_all L m !! key = Some v.
Proof.
  intros Hn Hk. rewrite <- (take_drop_middle _ _ _ Hn), put_all_app.
  change (put_all ((key, v) :: ?l) ?x) with (put_all l (<[key := v]> x)).
  rewrite put_all_other by done. apply lookup_insert_eq.
Qed.

Lemma genesis_holds config txh b gs proof cp account t hd :
  let leaves := leaf_put (compute_smt_key 0) (block_hash b) ∅ in
  b = mkL2Block (raw_genesis config cp account) [] [] [] proof [] →
  h256_is_zero (block_hash b) = false →
  holds (mkStoreDb (put_all (genesis_entries config txh b gs leaves) ∅) leaves ∅ t hd)
    (mkLedger [b] 0 0).
Proof.
  intros leaves Eb Hz.
  assert (Hlen : length (block_hash b) = 32%nat) by apply blake2b_length.
  assert (Hne : block_hash b ≠ le_bytes 8 0) by (intros E; by rewrite E in Hlen).
  assert (Hn : block_number b = 0) by (by rewrite Eb).
  assert (He : entries b = [((COLUMN_INDEX, le_bytes 8 0), EBytes (block_hash b));
                            ((COLUMN_INDEX, block_hash b), EBytes (le_bytes 8 0))]).
  { unfold entries, infos. rewrite Hn, Eb. reflexivity. }
  assert (Hnd : NoDup (entries b).*1).
  { rewrite He. cbn [fmap list_fmap fst]. apply NoDup_cons. split; [|apply NoDup_singleton].
    intros E%list_elem_of_singleton. by injection E. }
  set (m := put_all (genesis_entries config txh b gs leaves) ∅).
  assert (Hix : ∀ c key, indexed c → m !! (c, key) = put_all (entries b) ∅ !! (c, key)).
  { intros c key Hc. unfold m, genesis_entries. rewrite He.
    rewrite !put_all_app. rewrite put_all_other.
    - apply put_all_cong. rewrite put_all_other; [done|].
      by destruct Hc as [->|[->| ->]]; cbn [fmap list_fmap fst meta]; rewrite !not_elem_of_cons; repeat split;
        try (intros [=]); apply not_elem_of_nil.
    - by destruct Hc as [->|[->| ->]]; cbn [fmap list_fmap fst meta]; rewrite !not_elem_of_cons; repeat split;
        try (intros [=]); apply not_elem_of_nil. }
  split; cbn [lg_blocks lg_submitted lg_confirmed sd_columns sd_block_leaves].
  - split; cbn [lg_blocks lg_submitted lg_confirmed].
    + intros i x Hi. apply list_lookup_singleton_Some in Hi as [-> <-]. done.
    + by intros x ->%list_elem_of_singleton.
    + intros i x y _ Hy. by apply list_lookup_singleton_Some in Hy as [? _].
    + cbn [mbind list_bind]. by rewrite app_nil_r.
    + cbn. lia.
    + cbn. lia.
  - intros c key v Hc. fold m. rewrite Hix by done. cbn [mbind list_bind]. rewrite app_nil_r.
    rewrite put_all_lookup by done. rewrite lookup_empty. split; [|by left].
    by intros [?|[_ [=]]].
  - intros key v. unfold leaves, leaf_put. rewrite Hz. rewrite lookup_insert_Some, lookup_empty.
    split.
    + intros [[<- <-]|[_ [=]]]. exists b. split; [by apply list_elem_of_singleton|].
      unfold smt_key. by rewrite Hn.
    + intros (x & ->%list_elem_of_singleton & -> & ->). left. unfold smt_key. by rewrite Hn.
  - apply (put_all_at _ 9); [done|solve_key].
  - apply (put_all_at _ 10); [done|solve_key].
  - apply (put_all_at _ 11); [done|solve_key].
  - apply (put_all_at _ 12); [done|solve_key].
  - apply (put_all_at _ 13); [done|solve_key].
  - intros x ->%list_elem_of_singleton. apply (put_all_at _ 4); [done|solve_key].
  - intros x i tx ->%list_elem_of_singleton Hi. by rewrite Eb in Hi.
Qed.

Lemma init_genesis_run config txh secp db :
  init_genesis config txh secp empty_store = (Ok tt, db) →
  ∃ built, store_genesis config txh secp empty_store = (Ok built, db).
Proof.
  unfold init_genesis. change (has_genesis (E:=GenesisError) empty_store) with
    (Ok (E:=GenesisError) false, empty_store). cbv iota beta.
  destruct (store_genesis _ _ _ _) as [[built|e|] db']; [|done..]. intros [= <-]. by exists built.
Qed.

(** The invariant of the chain over the genesis store *)
Lemma genesis_inv c config txh b gs proof cp account hs h :
  let leaves := leaf_put (compute_smt_key 0) (block_hash b) ∅ in
  b = mkL2Block (raw_genesis config cp account) [] [] [] proof [] →
  gs = genesis_global_state config account (smt_root leaves) (block_hash b) →
  h256_is_zero (block_hash b) = false →
  recording 0 ∅ ∅ hs h → smt_root (hs_tree hs) = am_merkle_root account →
  h256_is_zero (tree_get (hs_tree hs) root_key) = false →
  ch_tip c = b → ch_last_global_state c = gs → ch_challenge_target c = None →
  chain_inv c (mkStoreDb (put_all (genesis_entries config txh b gs leaves) ∅) leaves ∅ (hs_tree hs) (hs_db hs))
    [mkSnap b (hs_tree hs) gs] 0 0 h.
Proof.
  intros leaves Eb Egs Hnz Hrec Hroot Hzero Ht Hl Hc. split.
  - by eapply genesis_holds.
  - exists (mkSnap b (hs_tree hs) gs). rewrite Ht, Hl. repeat (split; [reflexivity|]). reflexivity.
  - done.
  - intros i x y _ Hy. by apply list_lookup_singleton_Some in Hy as [? _].
  - apply (rc_hist _ _ _ _ _ Hrec).
  - intros b' key Hb'. cbn [length] in Hb'. rewrite (rc_old _ _ _ _ _ Hrec) by lia. apply lookup_empty.
  - intros i x Hx. apply list_lookup_singleton_Some in Hx as [-> <-]. split; cbn [sn_tree sn_block sn_global].
    + apply (recording_consistent 0 ∅ ∅); [done|]. intros key o _ Ho. destruct o as [v|]; [|done].
      destruct Ho as (b' & _ & Hb' & _). by rewrite lookup_empty in Hb'.
    + intros key Hk. rewrite (rc_tree _ _ _ _ _ Hrec).
      destruct (h !! (0, key)) as [v|] eqn:Ev; [|done].
      destruct (ho_range _ _ (rc_hist _ _ _ _ _ Hrec) _ _ _ Ev) as (_ & H32 & _). by destruct (Hk H32).
    + by rewrite Hroot, Eb.
    + apply (put_all_at _ 5); [done|solve_key].
    + exact Hzero.
  - rewrite Hl, Egs. apply (put_all_at _ 2); [done|solve_key].
Qed.

(** A chain opened on the genesis store *)
Lemma genesis_chain config txh secp built db c :
  store_genesis config txh secp empty_store = (Ok built, db) →
  h256_is_zero (block_hash (gw_genesis built)) = false →
  h256_is_zero (tree_get (sd_account_tree db) root_key) = false →
  ch_tip c = gw_genesis built → ch_last_global_state c = gw_global_state built →
  ch_challenge_target c = None →
  ∃ h, chain_inv c db [mkSnap (gw_genesis built) (sd_account_tree db) (gw_global_state built)] 0 0 h.
Proof.
  intros Hrun Hnz Hzero Ht Hl Hc.
  destruct (store_genesis_run _ _ _ _ _ Hrun) as (hs & h & cp & account & Hrec & Hroot & [proof Eb] & Egs & ->).
  exists h. by eapply genesis_inv.
Qed.

(** A second initialisation finds the first. *)
Lemma genesis_again config txh secp b db l :
  holds db l → lg_blocks l = [b] →
  sd_columns db !! (COLUMN_META, META_CHAIN_ID_KEY) = Some (EBytes (gc_rollup_type_hash config)) →
  init_genesis config txh secp db = (Ok tt, db).
Proof.
  intros Hh Hl Hid. unfold init_genesis.
  assert (Hb : lg_blocks l !! 0%nat = Some b) by (by rewrite Hl).
  assert (E1 : has_genesis (E:=GenesisError) db = (Ok true, db)).
  { unfold has_genesis. erewrite st_bind_run by (apply (read_hash_by_number _ _ Hh); unfold in_width; lia).
    change (Z.to_nat 0) with 0%nat. by rewrite Hb. }
  rewrite E1. unfold get_chain_id. rewrite (get_hash_run _ _ _ Hid). by rewrite bool_decide_true.
Qed.

(** A store that [init_genesis] started is the beginning of a chain: opening a
    [Chain] on it succeeds, its one block is the genesis block with the three
    built-in accounts' root, the books are right (ledger, indices, history of
    block zero), and initialising it again changes nothing. *)
Theorem init_genesis_starts_chain (config : GenesisConfig) (txh : H256) (secp_data : bytes)
    (db : StoreDb) (rollup_type_script : Script) (g : Generator) (has_mem_pool : bool)
    (skipped : list H256) :
  init_genesis config txh secp_data empty_store = (Ok tt, db) →
  (∀ b, get_tip_block (E:=ChainError) db = (Ok b, db) → h256_is_zero (block_hash b) = false) →
  h256_is_zero (tree_get (sd_account_tree db) root_key) = false →
  script_hash rollup_type_script = gc_rollup_type_hash config →
  NodeState.rollup_config (g_rollup_context g) = gc_rollup_config config →
  ∃ c genesis gs h,
    Chain_create (gc_rollup_config config) rollup_type_script g has_mem_pool skipped db = (Ok c, db) ∧
    ch_tip c = genesis ∧ block_number genesis = 0 ∧
    smt_root (sd_account_tree db) = am_merkle_root (post_account (block_raw genesis)) ∧
    chain_inv c db [mkSnap genesis (sd_account_tree db) gs] 0 0 h ∧
    init_genesis config txh secp_data db = (Ok tt, db).
Proof.
  intros (built & Hrun)%init_genesis_run Hnz Hzero Hscript Hconfig.
  destruct (store_genesis_run _ _ _ _ _ Hrun) as (hs & h & cp & account & Hrec & Hroot & [proof Eb] & Egs & ->).
  clear Hrun. set (b := gw_genesis built) in *. set (gs := gw_global_state built) in *.
  set (leaves := leaf_put (compute_smt_key 0) (block_hash b) ∅) in *.
  set (m := put_all (genesis_entries config txh b gs leaves) ∅) in *.
  set (db := mkStoreDb m leaves ∅ (hs_tree hs) (hs_db hs)) in *.
  assert (Htip : get_tip_block_hash (E:=ChainError) db = (Ok (block_hash b), db)).
  { apply get_hash_run. apply (put_all_at _ 10); [done|solve_key]. }
  assert (Hb : m !! (COLUMN_BLOCK, block_hash b) = Some (EBlock b)) by (apply (put_all_at _ 4); [done|solve_key]).
  assert (Hg : m !! (COLUMN_BLOCK_GLOBAL_STATE, block_hash b) = Some (EGlobalState gs))
    by (apply (put_all_at _ 5); [done|solve_key]).
  assert (Hget : get_tip_block (E:=ChainError) db = (Ok b, db)).
  { unfold get_tip_block. rewrite (st_bind_run _ _ _ _ _ Htip). unfold get_block, get_as, mbind, ST_bind.
    cbn [sd_columns db]. by rewrite Hb. }
  specialize (Hnz b Hget).
  exists (mkChain (script_hash rollup_type_script) (gc_rollup_config config) None EventSuccess b gs g
            has_mem_pool skipped), b, gs, h.
  split; [|split; [done|split; [by rewrite Eb|split]]].
  - unfold Chain_create. rewrite (st_bind_run _ _ _ _ _ (assert_run _ _ (bool_decide_eq_true_2 _ (eq_sym Hconfig)))).
    rewrite (st_bind_run get_chain_id _ _ (gc_rollup_type_hash config) db).
    2: { apply get_hash_run. apply (put_all_at _ 0); [done|solve_key]. }
    rewrite (st_bind_run _ _ _ _ _ (assert_run _ _ (bool_decide_eq_true_2 _ (eq_sym Hscript)))).
    rewrite (st_bind_run _ _ _ _ _ Hget). unfold get_block_post_global_state, get_as, mbind, ST_bind.
    cbn [sd_columns db]. by rewrite Hg.
  - cbn [sd_account_tree db]. by rewrite Hroot, Eb.
  - pose proof (genesis_inv (mkChain (script_hash rollup_type_script) (gc_rollup_config config) None
      EventSuccess b gs g has_mem_pool skipped) config txh b gs proof cp account hs h Eb Egs Hnz Hrec Hroot
      Hzero eq_refl eq_refl eq_refl) as Hi.
    split; [exact Hi|]. eapply genesis_again; [apply Hi|done|]. apply (put_all_at _ 0); [done|solve_key].
Qed.
End GenesisProps.
