(* ===== verification/NodeSamples.v ===== *)
(** * Concrete parameters of the node

    Instances of the parameters the node's components have besides those of
    [Samples.v]: encodings that can be decoded again, a small machine whose
    programs are lists of system calls, and a node with a state of five accounts
    (meta contract, CKB, address registry, an externally owned account and a
    token).  The witnesses evaluate the model on them. *)
From Stdlib Require Import ZArith Lia Strings.Byte.
From stdpp Require Import prelude list gmap countable.
From S2P Require Import Prelude Bytes Types State StateSpec StateDB History Finality Ckb.
From S2P Require Import Layer2Supply Samples NodeUtils NodeState AccountLocks Backends Syscalls Generator FeeQueue Verifiers.
Local Open Scope Z_scope.

Import SampleHash SampleCodec SampleSmt.

(** ** Encodings *)
Module NodeCodec.
Fixpoint bytes_pos (bs : bytes) : positive :=
  match bs with
  | [] => xH
  | x00 :: bs => xO (bytes_pos bs)
  | _ :: bs => xI (bytes_pos bs)
  end.
Lemma bytes_pos_bytes p : bytes_pos (pos_bytes p) = p.
Proof. induction p as [p IH|p IH|]; cbn; by rewrite ?IH. Qed.
Definition bytes_z (bs : bytes) : Z := default 0 (decode (bytes_pos bs)).
Lemma bytes_z_bytes z : bytes_z (z_bytes z) = z.
Proof. unfold bytes_z, z_bytes. by rewrite bytes_pos_bytes, decode_encode. Qed.

Definition enc_script (s : Script) : bytes := pack [code_hash s; z_bytes (hash_type s); args s].
Definition dec_script (bs : bytes) : option Script :=
  match unpack bs with [c; t; a] => Some (mkScript c (bytes_z t) a) | _ => None end.
Lemma dec_enc_script s : dec_script (enc_script s) = Some s.
Proof. unfold dec_script, enc_script. rewrite unpack_pack, bytes_z_bytes. by destruct s. Qed.

Definition dec_lock_args (bs : bytes) : option WithdrawalLockArgs :=
  if (length bs =? 104)%nat
  then Some (mkWithdrawalLockArgs (sub_bytes 0 32 bs) (le_val (sub_bytes 32 8 bs))
               (sub_bytes 40 32 bs) (sub_bytes 72 32 bs))
  else None.

#[export] Instance node_molecule : Molecule := {|
  enc_Script := enc_script;
  enc_RawL2Block b := block_bytes b;
  enc_L2Transaction t :=
    pack [z_bytes (tx_chain_id (tx_raw t)); z_bytes (tx_from_id (tx_raw t));
          z_bytes (tx_to_id (tx_raw t)); z_bytes (tx_nonce (tx_raw t)); tx_args (tx_raw t);
          tx_signature t];
  enc_WithdrawalRequest w := w_signature w;
  dec_Script := dec_script;
  dec_GlobalState _ := None;
  dec_GlobalStateV0 _ := None;
  dec_RollupConfig _ := None;
  dec_WitnessArgs _ := None;
  dec_RollupAction _ := None;
  dec_DepositLockArgs _ := None;
  dec_CustodianLockArgs _ := None;
  dec_WithdrawalLockArgs := dec_lock_args;
  dec_StakeLockArgs _ := None;
  dec_ChallengeLockArgs _ := None;
  dec_UnlockWithdrawalWitness _ := None;
  dec_UnlockCustodianViaRevertWitness _ := None;
|}.
#[export] Instance node_extra_codec : ExtraCodec := λ w,
  w_signature (we_request w) ++ enc_script (we_owner_lock w).
#[export] Instance node_codec_laws : WithdrawalCodecLaws.
Proof.
  split.
  - intros [b t a o] Ht Hb Ha Ho.
    cbn [wl_withdrawal_finalized_timepoint wl_withdrawal_block_hash wl_account_script_hash
      wl_owner_lock_hash] in Ht, Hb, Ha, Ho.
    cbn [dec_WithdrawalLockArgs node_molecule]. unfold dec_lock_args, enc_WithdrawalLockArgs.
    cbn [wl_withdrawal_finalized_timepoint wl_withdrawal_block_hash wl_account_script_hash
      wl_owner_lock_hash].
    rewrite !length_app, le_bytes_length, Hb, Ha, Ho. cbn [Nat.add Nat.eqb]. repeat f_equal.
    + by apply sub_bytes_app_l.
    + rewrite sub_bytes_app_r, Hb by lia. rewrite sub_bytes_app_l by apply le_bytes_length.
      by apply (le_val_bytes_small 8).
    + rewrite sub_bytes_app_r, Hb by lia.
      rewrite sub_bytes_app_r, le_bytes_length by (rewrite le_bytes_length; lia).
      by apply sub_bytes_app_l.
    + rewrite sub_bytes_app_r, Hb by lia.
      rewrite sub_bytes_app_r, le_bytes_length by (rewrite le_bytes_length; lia).
      rewrite sub_bytes_app_r, Ha by lia. by apply sub_bytes_all.
  - apply dec_enc_script.
  - intros s. cbn. unfold enc_script, pack. cbn. by destruct (code_hash s) as [|? [|? [|? [|? ?]]]]; cbn; lia.
Qed.

End NodeCodec.

(** ** A machine

    A program is a list of system calls with their registers; the memory is a
    byte string.  Every call costs the 500 cycles of [ecall]. *)
Module ToyMachine.
Record Toy := mkToy {
  t_cycles : Z; t_max : Z; t_calls : list (Reg → Z); t_exit : Z; t_regs : Reg → Z; t_mem : bytes;
}.
#[export] Instance Reg_eq_dec : EqDecision Reg.
Proof. solve_decision. Defined.

Definition with_regs (regs : Reg → Z) (m : Toy) : Toy :=
  mkToy (t_cycles m) (t_max m) (t_calls m) (t_exit m) regs (t_mem m).
Definition with_mem (mem : bytes) (m : Toy) : Toy :=
  mkToy (t_cycles m) (t_max m) (t_calls m) (t_exit m) (t_regs m) mem.
Definition toy_memory : nat := 256.
Definition toy_load (n : nat) (a : Z) : ST Toy VMError Z := λ m,
  if (0 <=? a) && (a + Z.of_nat n <=? Z.of_nat toy_memory) && (length (t_mem m) =? toy_memory)%nat
  then (Ok (le_val (sub_bytes (Z.to_nat a) n (t_mem m))), m)
  else (Err Unexpected, m).
Definition toy_store (a : Z) (bs : bytes) : ST Toy VMError unit := λ m,
  if (0 <=? a) && (a + Z.of_nat (length bs) <=? Z.of_nat toy_memory)
  then (Ok tt, with_mem (take (Z.to_nat a) (t_mem m) ++ bs ++ drop (Z.to_nat a + length bs) (t_mem m)) m)
  else (Err Unexpected, m).

Definition call_regs (l : list (Reg * Z)) : Reg → Z := λ r,
  default 0 (snd <$> list_find (λ p, p.1 = r) l ≫= λ p, Some p.2).

(** Program [x :: data]: store the second word of the memory under the first as the
    key, and exit with code [x]; the memory is [data], or the default. *)
Definition toy_data : bytes := replicate 32 x51 ++ replicate 32 x52 ++ zeros 192.
Definition toy_program (p : bytes) : option (list (Reg → Z) * Z * bytes) :=
  match p with
  | [] => None
  | b :: data =>
      Some ([call_regs [(A0, 0); (A1, 32); (A7, SYS_STORE)]], Z_of_byte b,
            match data with [] => toy_data | _ => take toy_memory (data ++ zeros toy_memory) end)
  end.

#[export] Instance toy_machine : Machine Toy := {|
  get_reg r m := t_regs m r;
  set_reg r v m := with_regs (λ r', if decide (r' = r) then v else t_regs m r') m;
  mac_cycles := t_cycles;
  mac_max_cycles := t_max;
  load8 := toy_load 1;
  load64 := toy_load 8;
  store32 a v := toy_store a (le_bytes 4 v);
  store64 a v := toy_store a (le_bytes 8 v);
  store_bytes := toy_store;
  load_program p max :=
    match toy_program p with
    | Some (calls, code, data) => Ok (mkToy 0 max calls code (λ _, 0) data)
    | None => Err Unexpected
    end;
  machine_step m :=
    match t_calls m with
    | [] => VmExit (t_exit m) m
    | regs :: calls =>
        if t_cycles m + 500 <=? t_max m
        then VmEcall (mkToy (t_cycles m + 500) (t_max m) calls (t_exit m) regs (t_mem m))
        else VmFault CyclesExceeded m
    end;
  memory_size := toy_memory;
|}.

#[export] Instance toy_laws : MachineLaws Toy.
Proof.
  split; try done.
  - intros a m. cbn. unfold toy_load. by case_match.
  - intros a m. cbn. unfold toy_load. by case_match.
  - intros a v m. cbn. unfold toy_store. by case_match.
  - intros a v m. cbn. unfold toy_store. by case_match.
  - intros a v m. cbn. unfold toy_store. by case_match.
  - intros p max m. cbn. destruct (toy_program p) as [[[calls code] data]|]; [|done]. by intros [= <-].
  - intros op m m'. cbn. destruct (t_calls m) as [|regs calls]; [done|]. by case_match.
  - intros m m'. cbn. destruct (t_calls m) as [|regs calls]; [done|].
    destruct (Z.leb_spec (t_cycles m + 500) (t_max m)); [|done]. by intros [= <-].
  - intros a m Ha. cbn in *. unfold toy_load. exists Unexpected.
    destruct (Z.leb_spec 0 a); [|done]. rewrite (proj2 (Z.leb_gt _ _)); [done|]. cbn. lia.
  - intros a m. cbn. unfold toy_load. by case_match.
Qed.
End ToyMachine.

(** ** A node *)
Module SampleNode.
Import NodeCodec ToyMachine.
Definition h (b : byte) : H256 := replicate 32 b.
#[export] Instance node_smt_root : SmtRoot := root_of.
#[export] Program Instance node_map_iter : MapIter := {| map_iter A m := map_to_list m |}.
Next Obligation. done. Qed.
#[export] Instance node_bn : SubstrateBn := {|
  Fq := unit; Fr := unit; G1 := unit; Fq2 := unit; G2 := unit;
  fq_from_slice _ := None; fq_is_zero _ := true; fr_from_slice _ := None;
  g1_zero := tt; g2_zero := tt; affine_g1_new _ _ := None; fq2_new _ _ := tt;
  fq2_is_zero _ := true; affine_g2_new _ _ := None; g1_add _ _ := tt; g1_mul _ _ := tt;
  g1_to_affine_be _ := None; pairing_batch_is_one _ := true |}.
#[export] Instance node_chain_view : ChainView := λ _, Ok None.
#[export] Instance node_syscall_codec : SyscallCodec := {|
  enc_BlockInfo b := bi_block_producer b; enc_RawL2Transaction t := tx_args t;
  enc_RollupConfig _ := [] |}.
#[export] Instance node_ckb_types : CkbTypes := λ output n, Some (61 + Z.of_nat n).
(** The arguments of every contract are a fee of five. *)
#[export] Instance node_contract_args : ContractArgs := {|
  dec_MetaContractArgs _ := Some (BatchCreateEthAccounts [] (mkFee 2 5));
  dec_ETHAddrRegArgs _ := None; dec_SUDTArgs _ := None |}.
#[export] Instance node_contract_args_laws : ContractArgsLaws.
Proof. split; intros b a [= <-]. by vm_compute. Qed.

Definition rth : H256 := h xaa.
Definition meta_code : H256 := h x1b.
Definition node_config : RollupConfig := {|
  l1_sudt_script_type_hash := h x01; custodian_script_type_hash := h x02;
  deposit_script_type_hash := h x03; withdrawal_script_type_hash := h x04;
  challenge_script_type_hash := h x05; stake_script_type_hash := h x06;
  l2_sudt_validator_script_type_hash := h x07; burn_lock_hash := h x08;
  required_staking_capacity := 100; challenge_maturity_blocks := 10; finality_blocks := 2;
  reward_burn_rate := 50; rc_chain_id := 1;
  allowed_eoa_type_hashes := [mkAllowedTypeHash 1 (h x09)];
  allowed_contract_type_hashes := [mkAllowedTypeHash 1 meta_code] |}.
Definition ctx : RollupContext := mkRollupContext rth node_config (mkForkConfig None None).

Definition eoa : Script := mkScript (h x09) 1 (rth ++ replicate 20 x0e).
Definition eoa_address : RegistryAddress := mkRegistryAddress 2 (replicate 20 x0e).
Definition producer_address : RegistryAddress := mkRegistryAddress 2 (replicate 20 x0f).
Definition meta_script : Script := mkScript meta_code 1 rth.
Definition token : H256 := h x50.
Definition scripts : list Script :=
  [meta_script; l2_sudt_script ctx CKB_SUDT_SCRIPT_ARGS; mkScript (h x1c) 1 rth; eoa;
   l2_sudt_script ctx token].

(** Accounts 0 to 4, with CKB and tokens for the externally owned one. *)
Definition set_up : ST RefState StateError.t unit :=
  st_for scripts (λ s, create_account (script_hash s) ;; mret tt) ;;
  mapping_registry_address_to_script_hash eoa_address (script_hash eoa) ;;
  mint_sudt CKB_SUDT_ACCOUNT_ID eoa_address (10 ^ 13) ;;
  mint_sudt 4 eoa_address 500.
Definition state : RefState := (set_up (mkRefState ∅ 0)).2.
Definition mem : MemStateTree :=
  mkMemStateTree (rs_kv state) (rs_count state)
    (list_to_map ((λ s, (script_hash s, s)) <$> scripts)) ∅.
Definition db : StateDB MemStateTree :=
  mkStateDB mem [] 0 [] no_dirty None (smt_root (mst_tree mem)).

Example set_up_runs : (set_up (mkRefState ∅ 0)).1 = Ok tt.
Proof. vm_compute. reflexivity. Qed.
Lemma db_rel_state : db_rel db state.
Proof. done. Qed.
Lemma db_wf_state : db_wf own_script own_data db.
Proof. split; [done|done|by split; [constructor|..]|by split]. Qed.

Lemma holders_ok_node id : u32 id → holders_ok id [eoa_address; producer_address].
Proof.
  intros Hid. split; [done|]. split; [by apply (bool_decide_unpack _); vm_compute|].
  split; [repeat constructor; by vm_compute|]. apply sample_hash_ok.
Qed.

(** The backend of the meta contract. *)
Definition backend (program : bytes) : Backend :=
  {| bk_type := BkMeta; bk_validator_script_type_hash := meta_code; bk_validator := [];
     bk_generator := program; bk_checksum := mkBackendCheckSum [] [] |}.
Definition generator (program : bytes) : Generator := {|
  g_backend_manage := mkBackendManage [(0, mkBlockConsensus (mkSUDTProxyConfig false []) {[ meta_code := backend program ]})];
  g_account_lock_manage := register_lock_algorithm (h x09) AlwaysSuccess (mkAccountLockManage ∅);
  g_rollup_context := ctx; g_contract_log_config := LogError_; g_polyjuice_creator_id := None |}.

(** A transaction of the account to the meta contract, and the block it is in. *)
Definition tx : L2Transaction := mkL2Transaction (mkRawL2Transaction 1 3 0 0 []) [].
Definition info : BlockInfo := mkBlockInfo (reg_addr_bytes producer_address) 1 1000.
End SampleNode.
