(* ===== verification/ChainSamples.v ===== *)
(** * A concrete chain

    A digest of 32 bytes, the trees and proofs it roots, the store of a new
    rollup and its first block, which applies one deposit.  The witnesses about
    the store and the chain evaluate the model on them. *)
From Stdlib Require Import ZArith Lia Strings.Byte.
From stdpp Require Import prelude list gmap countable.
From S2P Require Import Prelude Bytes Types State StateSpec StateDB History Finality Ckb Eip712.
From S2P Require Import Samples SubmitBlock ChallengeLock NodeUtils NodeState AccountLocks Backends Syscalls Generator BlockEffect Verifiers Store StoreProps ChallengeContext Chain ChainProps Genesis NodeSamples.
Local Open Scope Z_scope.

Module ChainSample.
Import NodeCodec ToyMachine SampleStore SampleNode.
(** ** Parameters *)
Definition digest_step (a : Z) (b : byte) : Z := Z.land (a * 65599 + Z_of_byte b + 1) (Z.ones 56).
#[export] Instance digest : Blake2b := λ bs, le_bytes 7 (foldl digest_step 7 bs) ++ replicate 25 x01.
#[export] Instance digest_length : Blake2bLength.
Proof. intros x. unfold blake2b, digest. by rewrite length_app, le_bytes_length, length_replicate. Qed.

#[export] Instance digest_root : SmtRoot := λ t, blake2b (SampleSmt.root_of t).
#[export] Instance digest_root_laws : SmtRootLaws.
Proof.
  intros t t' Ht. unfold smt_root, digest_root. f_equal. unfold SampleSmt.root_of. f_equal.
  apply map_eq. intros k. apply option_eq. intros v. unfold SampleSmt.canonical.
  rewrite !map_lookup_filter_Some. specialize (Ht k). unfold tree_get in Ht. cbn.
  split; intros [Hk Hv]; (split; [|done]).
  - rewrite Hk in Ht. cbn in Ht. destruct (t' !! k); cbn in Ht; congruence.
  - rewrite Hk in Ht. cbn in Ht. destruct (t !! k); cbn in Ht; congruence.
Qed.
#[export] Instance sample_proof : SmtProof := λ leaves keys,
  if bool_decide (keys = []) then None else Some (SampleCodec.pack keys).
#[export] Instance sample_cbmt_build : CbmtBuild := λ merge leaves indices, Some (indices, leaves).
#[export] Instance sample_mem_pool : MemPool := λ _, true.
#[export] Instance sample_hash_codec : HashCodec := {|
  enc_RawWithdrawalRequest w := SampleCodec.pack [SampleCodec.z_bytes (w_nonce w); w_account_script_hash w];
  enc_RawTransaction t := l1_rest t;
|}.

(** ** A new rollup *)
Definition rollup_script : Script := mkScript (h xab) 1 (h xac).
Definition genesis_config : GenesisConfig :=
  mkGenesisConfig 1000 (script_hash rollup_script) meta_code (h x1c) node_config.
Definition no_genesis : GenesisWithGlobalState :=
  mkGenesisWithGlobalState
    (mkL2Block (mkRawL2Block 0 [] [] [] 0 default_account_state default_account_state []
                  default_submit_withdrawals (mkSubmitTransactions [] 0 [])) [] [] [] [] [])
    (mkGlobalState [] default_account_state (mkBlockMerkleState [] 0) [] [] 0 0 0 0).
Definition started := store_genesis genesis_config (h x77) (h x78) empty_store.
Definition from_ok {E A B} (f : A → B) (d : B) (r : outcome E A) : B :=
  match r with Ok a => f a | _ => d end.
Definition genesis : GenesisWithGlobalState := from_ok id no_genesis started.1.
Definition store0 : StoreDb := started.2.
Example started_runs : started = (Ok genesis, store0).
Proof.
  unfold genesis, store0. assert (E : is_ok started.1 = true) by (vm_compute; reflexivity).
  destruct started as [[g|e|] s]; [reflexivity|discriminate..].
Qed.

Definition context0 : RollupContext := mkRollupContext (script_hash rollup_script) node_config (mkForkConfig None None).
Definition generator0 : Generator := {|
  g_backend_manage := g_backend_manage (generator [x00]);
  g_account_lock_manage := g_account_lock_manage (generator [x00]);
  g_rollup_context := context0; g_contract_log_config := LogError_; g_polyjuice_creator_id := None |}.
Definition chain0 : Chain :=
  mkChain (script_hash rollup_script) node_config None EventSuccess (gw_genesis genesis)
    (gw_global_state genesis) generator0 true [].

(** ** Its first block, with a deposit *)
Definition eoa0 : Script := mkScript (h x09) 1 (script_hash rollup_script ++ replicate 20 x0e).
Definition deposit0 : DepositInfo :=
  mkDepositInfo (mkDepositRequest 400 0 h256_zero eoa0 2)
    (mkCellInfo (mkOutPoint (h x31) 0) (mkCellOutput 400 eoa0 None) []).
Definition state_of_deposit (st : StateDB HistoryState) : AccountMerkleState :=
  from_ok id default_account_state
    ((apply_deposit_request context0 (di_request deposit0) ;;
      st_map_err GenError.State finalise ;; calculate_merkle_state) st).1.
Definition after_deposit : AccountMerkleState :=
  from_ok state_of_deposit default_account_state
    (open_state (E:=ChainError) (RWConfig_attach_block 1) store0).1.
Definition raw1 : RawL2Block :=
  mkRawL2Block 1 (reg_addr_bytes producer_address) (block_hash (gw_genesis genesis)) [] 2000
    (post_account (block_raw (gw_genesis genesis))) after_deposit [] default_submit_withdrawals
    (mkSubmitTransactions h256_zero 0
       (calculate_state_checkpoint_of (am_merkle_root after_deposit) (am_count after_deposit))).
Definition block1 : L2Block := mkL2Block raw1 [] [] [] [] [].
Definition global1 : GlobalState :=
  mkGlobalState [] after_deposit (mkBlockMerkleState [] 2) h256_zero (block_hash block1) 0 0 0 0.
Abbreviation updated :=
  (update_local (Mac:=Toy) block1 [deposit0] [] [] global1 (chain0, mkStoreTx store0 store0)).
Example updated_runs : updated.1 = Ok tt.
Proof. vm_compute. reflexivity. Qed.

(** ** A block with a withdrawal, and the context to cancel its challenge *)
Definition sender0 : Script := validator_script meta_code (script_hash rollup_script).
Definition withdrawal0 : WithdrawalRequest :=
  mkWithdrawalRequest (mkRawWithdrawalRequest 0 0 100 0 h256_zero (script_hash sender0) 2 (script_hash eoa0) 0) [].
Definition block_w : L2Block := mkL2Block raw1 [] [] [] [] [withdrawal0].
Definition store_w : StoreDb :=
  (insert_block block_w global1 after_deposit [] [deposit0] [mkWithdrawalRequestExtra withdrawal0 eoa0] store0).2.
Definition target_w : ChallengeTarget := mkChallengeTarget (block_hash block_w) 0 2.
Abbreviation built_w := (build_verify_context target_w store_w).
Definition no_witness : CCWithdrawalWitness :=
  mkCCWithdrawalWitness raw1 withdrawal0 eoa0 eoa0 (mkCKBMerkleProof [] []) [] [] 1.
Definition witness_of (c : VerifyContext) : CCWithdrawalWitness :=
  match vc_verify_witness c with VerifyWithdrawal w => w | _ => no_witness end.
Definition witness_w : CCWithdrawalWitness := from_ok witness_of no_witness built_w.1.
Example built_w_bare : is_ok built_w.1 = true ∧ ccw_sender witness_w = sender0 ∧ ccw_kv_state witness_w = [].
Proof. vm_compute. repeat split; reflexivity. Qed.
#[export] Instance cancel_codec : ChallengeCodec := {|
  dec_CCTransactionWitness _ := None;
  dec_CCTransactionSignatureWitness _ := None;
  dec_CCWithdrawalWitness _ := Some witness_w;
|}.
End ChainSample.
