(* ===== verification/ChainWitnesses.v ===== *)
(** * Witnesses for the chain

    The theorems about the store, the genesis block and the chain, applied to
    the chain of [ChainSamples.v]. *)
From Stdlib Require Import ZArith Lia Strings.Byte.
From stdpp Require Import prelude list gmap countable.
From S2P Require Import Prelude Bytes Types State StateSpec StateDB History Finality Ckb Eip712 SubmitBlock Locks ChallengeLock Samples SignatureWitnesses.
From S2P Require Import NodeUtils NodeState AccountLocks Backends Syscalls Generator GeneratorProps BlockEffect Verifiers Store StoreProps ChallengeContext Chain ChainProps Genesis NodeSamples ChainSamples.
Local Open Scope Z_scope.

Import SampleSmt SampleTx NodeCodec ToyMachine SampleStore SampleNode ChainSample.

(** ** The sample chain satisfies what the theorems ask of it *)
Abbreviation snap0 := (mkSnap (gw_genesis genesis) (sd_account_tree store0) (gw_global_state genesis)).
Abbreviation account_zero_set := (λ db : StoreDb,
  h256_is_zero (tree_get (sd_account_tree db) root_key) = false).

Lemma chain0_inv : ∃ h, chain_inv chain0 store0 [snap0] 0 0 h.
Proof.
  apply (genesis_chain genesis_config (h x77) (h x78) genesis); [exact started_runs|..];
    vm_compute; reflexivity.
Qed.
Lemma block1_fresh : fresh_block chain0 [snap0] block1.
Proof.
  split.
  - apply (bool_decide_unpack _). vm_compute. exact I.
  - vm_compute. reflexivity.
  - cbn. lia.
  - cbn. lia.
  - apply (bool_decide_unpack _). vm_compute. exact I.
Qed.
Lemma updated_ok :
  update_local (Mac:=Toy) block1 [deposit0] [] [] global1 (chain0, mkStoreTx store0 store0)
    = (Ok tt, (updated.2.1, updated.2.2)).
Proof.
  assert (E : updated.1 = Ok tt) by (vm_compute; reflexivity).
  destruct updated as [? []]; cbn in *. by rewrite E.
Qed.
Lemma updated_zero : account_zero_set (tx_db updated.2.2).
Proof. vm_compute. reflexivity. Qed.

(** ** The store *)
Lemma store_refines_ledger_witness :
  ∃ db', st_for [OpExtend block1 global1 after_deposit [] [deposit0] []; OpSubmit; OpConfirm; OpDetach]
           run_op store0 = (Ok tt, db') ∧
         holds db' (mkLedger [gw_genesis genesis] 0 0) ∧
         answers db' (mkLedger [gw_genesis genesis] 0 0).
Proof.
  destruct chain0_inv as [h0 Hi].
  destruct (update_local_extends (Mac:=Toy) chain0 store0 store0 [snap0] 0 0 h0 block1 [deposit0] [] [] global1
              updated.2.1 updated.2.2 Hi block1_fresh updated_ok updated_zero)
    as (_ & _ & _ & h1 & Hi').
  apply (store_refines_ledger _ store0 (mkLedger [gw_genesis genesis] 0 0)); [apply Hi|].
  eapply steps_cons.
  { apply (step_extend [gw_genesis genesis]); [apply Hi'|..].
    - vm_compute. reflexivity.
    - reflexivity.
    - cbn. lia.
    - cbn. lia. }
  eapply steps_cons; [apply step_submit; cbn; lia|].
  eapply steps_cons; [apply step_confirm; lia|].
  eapply steps_cons; [apply (step_detach [_]); done|]. apply steps_nil.
Defined.

(** ** The genesis block *)
Abbreviation initialised := (init_genesis genesis_config (h x77) (h x78) empty_store).
Lemma initialised_ok :
  init_genesis genesis_config (h x77) (h x78) empty_store = (Ok tt, initialised.2).
Proof.
  assert (E : initialised.1 = Ok tt) by (vm_compute; reflexivity).
  destruct initialised; cbn in *. by rewrite E.
Qed.
Lemma init_genesis_starts_chain_witness :
  ∃ c genesis gs hs,
    Chain_create node_config rollup_script generator0 true [] initialised.2 = (Ok c, initialised.2) ∧
    ch_tip c = genesis ∧ block_number genesis = 0 ∧
    smt_root (sd_account_tree initialised.2) = am_merkle_root (post_account (block_raw genesis)) ∧
    chain_inv c initialised.2 [mkSnap genesis (sd_account_tree initialised.2) gs] 0 0 hs ∧
    init_genesis genesis_config (h x77) (h x78) initialised.2 = (Ok tt, initialised.2).
Proof.
  apply (init_genesis_starts_chain genesis_config (h x77) (h x78) initialised.2 rollup_script generator0
           true []).
  - exact initialised_ok.
  - intros b E.
    assert (N : from_ok (λ b, h256_is_zero (block_hash b)) true
                  (get_tip_block (E:=ChainError) initialised.2).1 = false) by (vm_compute; reflexivity).
    rewrite E in N. exact N.
  - vm_compute. reflexivity.
  - reflexivity.
  - reflexivity.
Defined.

(** ** Blocks *)
Lemma update_local_keeps_books_witness :
  (∃ h', chain_inv updated.2.1 (tx_db updated.2.2)
           ([snap0] ++ [mkSnap block1 (sd_account_tree (tx_db updated.2.2)) global1]) 0 0 h') ∧
  smt_root (sd_account_tree (tx_db updated.2.2)) = am_merkle_root after_deposit ∧
  check_accounts (updated.2.1, updated.2.2) = (Ok tt, (updated.2.1, updated.2.2)).
Proof.
  destruct chain0_inv as [h0 Hi].
  apply (update_local_keeps_books (Mac:=Toy) chain0 updated.2.1 store0 store0 [snap0] 0 0 h0 block1 [deposit0] [] []
           global1 updated.2.2           Hi block1_fresh updated_ok updated_zero).
Defined.

Lemma revert_undoes_update_local_witness :
  ∃ c2 db2 h2,
    revert_l1action 1 (mkRevertedL1Action (gw_global_state genesis) (SubmitValidBlock block1))
      (updated.2.1, updated.2.2) = (Ok tt, (c2, mkStoreTx store0 db2)) ∧
    chain_inv c2 db2 [snap0] 0 0 h2 ∧ ch_tip c2 = gw_genesis genesis ∧
    ch_last_global_state c2 = gw_global_state genesis ∧
    ∀ key, tree_get (sd_account_tree db2) key = tree_get (sd_account_tree store0) key.
Proof.
  destruct chain0_inv as [h0 Hi].
  apply (revert_undoes_update_local (Mac:=Toy) 1 chain0 updated.2.1 store0 store0 [snap0] 0 0 h0 block1 [deposit0] [] []
           global1 updated.2.2 Hi block1_fresh updated_ok updated_zero).
Defined.

(** The first block again, which changes accounts. *)
Lemma apply_block_writes_words_witness :
  ∃ h0 : hist,
  let st := (apply_block (Mac:=Toy) generator0 (mkApplyBlockArgs block1 [di_request deposit0] []) []
               (opened (gw_genesis genesis) store0 (RWConfig_attach_block 1))).2 in
  (∀ key, tree_get (hs_tree (db_state st)) key ≠ tree_get (sd_account_tree store0) key →
     length key = 32%nat ∧ length (tree_get (hs_tree (db_state st)) key) = 32%nat) ∧
  (∀ key v, dirty_state (db_dirty st) !! key = Some v → length key = 32%nat ∧ length v = 32%nat) ∧
  ∃ h', hist_ok (hs_db (db_state st)) h' ∧ ∀ b key, b ≠ 1 → h' !! (b, key) = h0 !! (b, key).
Proof.
  destruct chain0_inv as [h0 Hi]. exists h0.
  apply (apply_block_writes_words (Mac:=Toy) generator0
    (mkApplyBlockArgs block1 [di_request deposit0] []) [] (gw_genesis genesis) store0 h0 1).
  - apply Hi.
  - unfold in_width. lia.
  - intros key. apply (ci_future _ _ _ _ _ _ Hi). cbn. lia.
Defined.

(** ** Cancelling the challenge of a withdrawal *)
Definition cancel_w_env : CkbEnv :=
  SampleRollup.lock_env challenge_script x50 x32 [] [] [].
Definition context_w : VerifyContext :=
  from_ok id (mkVerifyContext eoa0 None (VerifyWithdrawal no_witness)) built_w.1.
Lemma built_w_ok : build_verify_context target_w store_w = (Ok context_w, built_w.2).
Proof.
  unfold context_w. assert (E : is_ok built_w.1 = true) by (vm_compute; reflexivity).
  destruct built_w as [[]]; [reflexivity|discriminate..].
Qed.
Lemma built_cancellation_refused_witness :
  load_unlock_args (env := cancel_w_env) dec_CCWithdrawalWitness = Ok witness_w ∧
  ∃ witness, vc_verify_witness context_w = VerifyWithdrawal witness ∧
    ∀ config lock_args, load_unlock_args (env := cancel_w_env) dec_CCWithdrawalWitness = Ok witness →
      verify_withdrawal (env := cancel_w_env) config lock_args ≠ Ok tt.
Proof.
  split; [reflexivity|].
  exact (built_cancellation_refused (env := cancel_w_env) target_w store_w built_w.2 context_w built_w_ok).
Defined.
