(* ===== verification/NodeWitnesses.v ===== *)
(** * Witnesses for the node

    The theorems about the node with hypotheses, applied to the sample node of
    [NodeSamples.v]. *)
From Stdlib Require Import ZArith Lia Strings.Byte.
From stdpp Require Import prelude list gmap countable.
From S2P Require Import Prelude Bytes Types State StateSpec StateDB History Finality Ckb SubmitBlock Layer2Supply RollupScript Samples.
From S2P Require Import NodeUtils NodeState AccountLocks Backends Syscalls Generator GeneratorProps FeeQueue Verifiers NodeSamples.
Local Open Scope Z_scope.

Import SampleHash SampleCodec SampleSmt NodeCodec ToyMachine SampleNode.

(** A run whose outcome is computed and whose final state is not written out. *)
Lemma run_first {A B} (p : A * B) a : p.1 = a → p = (a, p.2).
Proof. by destruct p; cbn; intros ->. Qed.
Lemma run_first2 {A B C} (p : A * (B * C)) a : p.1 = a → p = (a, (p.2.1, p.2.2)).
Proof. by destruct p as [? []]; cbn; intros ->. Qed.
(** The value of a successful run. *)
Definition result_of {E A B} (default : A) (p : outcome E A * B) : A :=
  match p.1 with Ok a => a | _ => default end.

(** ** Running transactions *)
Lemma machine_run_terminates_witness :
  ∃ mac, load_program (Machine := toy_machine) [x01] 2000 = Ok mac ∧
  ∃ result final, ∀ n, (vm_fuel 2000 ≤ n)%positive →
    vm_run (mkL2Env ctx (mkAccountLockManage ∅) info (mkBlockConsensus (mkSUDTProxyConfig false []) ∅)
              (tx_raw tx)) n (mkSys mac db default_context None) = Some (result, final).
Proof.
  eexists. split; [reflexivity|].
  refine (proj1 (machine_run_terminates _ 2000 [x01] _ db default_context None _ eq_refl)). lia.
Defined.

(** A program that stores a value and then fails with code 1. *)
Definition no_result : RunResult := mkRunResult [] [] 0 (mkCycleMeter 0 0) [] [] [].
Definition failing_run := execute_transaction (Mac:=Toy) (generator [x01]) info (tx_raw tx) None (db, None).

Lemma failed_transaction_effect_witness :
  ∃ payer ty typed fee system rs',
    get_registry_address_by_script_hash ETH_REGISTRY_ACCOUNT_ID (script_hash_at state 3) state
      = (Ok (Some payer), state) ∧
    TypedRawTransaction_from_tx (tx_raw tx) ty = Some typed ∧
    failure_fee (tx_raw tx) typed fee system ∧
    charge_failure payer (default default_address (RegistryAddress_from_slice (bi_block_producer info)))
      3 fee state rs' ∧
    db_rel failing_run.2.1 rs' ∧ rr_logs (result_of no_result failing_run) = appended_logs db ++ system.
Proof.
  apply (failed_transaction_effect (Mac:=Toy) (generator [x01]) info (tx_raw tx) None
           db failing_run.2.1 state None failing_run.2.2 (result_of no_result failing_run)).
  - exact db_wf_state.
  - exact db_rel_state.
  - apply run_first2. vm_compute. reflexivity.
  - vm_compute. discriminate.
Defined.

(** The same program in a pool too small for its system call. *)
Definition small_pool : CyclesPool := CyclesPool_new 100 default_syscall_cycles.
Definition aborted_run :=
  execute_transaction (Mac:=Toy) (generator [x00]) info (tx_raw tx) None (db, Some small_pool).
Definition aborted_error : TransactionError.t :=
  match aborted_run.1 with Err (AnyTx e) => e | _ => TransactionError.NoCost end.

Lemma aborted_transaction_untouched_witness :
  db_rel aborted_run.2.1 state ∧ appended_logs aborted_run.2.1 = appended_logs db.
Proof.
  apply (aborted_transaction_untouched (Mac:=Toy) (generator [x00]) info (tx_raw tx)
           None db aborted_run.2.1 state (Some small_pool) aborted_run.2.2 aborted_error).
  - exact db_wf_state.
  - exact db_rel_state.
  - apply run_first2. vm_compute. reflexivity.
  - vm_compute. reflexivity.
Defined.

(** ** Blocks *)
Definition no_stop : ChallengeTarget * GenError.t := (mkChallengeTarget [] 0 0, GenError.State StateError.Store).
Definition target_of {St} (p : outcome Empty_set ApplyBlockResult * St) : ChallengeTarget * GenError.t :=
  match p.1 with Ok (ApplyChallenge t e) => (t, e) | _ => no_stop end.
Definition success_of {St} (p : outcome Empty_set ApplyBlockResult * St) : BlockSuccess :=
  match p.1 with Ok (ApplySuccess r) => r | _ => mkBlockSuccess [] (mkAccountMerkleState [] 0) [] 0 end.

Definition block_of (post : AccountMerkleState) (checkpoints : list H256) (txs : list L2Transaction) :
    L2Block := {|
  block_raw := {|
    number := 1; block_producer := reg_addr_bytes producer_address; parent_block_hash := h256_zero;
    stake_cell_owner_lock_hash := h256_zero; timestamp := 1000;
    prev_account := mkAccountMerkleState (root_of (rs_kv state)) (rs_count state);
    post_account := post; state_checkpoint_list := checkpoints;
    submit_withdrawals := mkSubmitWithdrawals h256_zero 0;
    submit_transactions := mkSubmitTransactions h256_zero (Z.of_nat (length txs)) h256_zero |};
  block_transactions := txs; block_withdrawals := [];
  block_kv_state := []; block_kv_state_proof := []; block_proof := [] |}.

(** A second transaction reuses the nonce of the first. *)
Definition bad_block : L2Block := block_of (mkAccountMerkleState [] 0) [] [tx; tx].
Definition bad_run :=
  verify_and_apply_block (Mac:=Toy) (generator [x01]) (mkApplyBlockArgs bad_block [] []) [raw_block_hash (block_raw bad_block)] db.

Lemma challenge_target_accepted_witness :
  ct_block_hash (target_of bad_run).1 = raw_block_hash (block_raw bad_block) ∧
  check_target_index (target_of bad_run).1 (block_raw bad_block) = Ok tt.
Proof.
  apply (challenge_target_accepted (Mac:=Toy) (generator [x01]) (mkApplyBlockArgs bad_block [] [])
           [raw_block_hash (block_raw bad_block)] db bad_run.2 (target_of bad_run).1 (target_of bad_run).2).
  - split; [done|]. split; [done|]. by split.
  - apply run_first. vm_compute. reflexivity.
Defined.

(** The block of one transaction, with the state it leads to filled in from a
    run that skips the checks. *)
Definition draft : L2Block := block_of (mkAccountMerkleState [] 0) [] [tx].
Definition draft_run :=
  verify_and_apply_block (Mac:=Toy) (generator [x01]) (mkApplyBlockArgs draft [] []) [raw_block_hash (block_raw draft)] db.
Definition post_state : AccountMerkleState :=
  match bs_tx_receipts (success_of draft_run) with
  | [r] => tr_post_state r
  | _ => mkAccountMerkleState [] 0
  end.
Definition good_block : L2Block := block_of post_state [checkpoint_of post_state] [tx].
Definition good_run :=
  verify_and_apply_block (Mac:=Toy) (generator [x01]) (mkApplyBlockArgs good_block [] []) [] db.
#[local] Instance mem_read_only : ReadOnlyRoot MemStateTree.
Proof. by split. Qed.

Lemma applied_block_matches_header_witness :
  has_account (prev_account (block_raw good_block)) db ∧
  has_account (post_account (block_raw good_block)) good_run.2 ∧
  tr_tx_witness_hash <$> bs_tx_receipts (success_of good_run) = [tx_witness_hash tx].
Proof.
  assert (Hrun : good_run = (Ok (ApplySuccess (success_of good_run)), good_run.2)).
  { apply run_first. vm_compute. reflexivity. }
  destruct (applied_block_matches_header (Mac:=Toy) (generator [x01]) (mkApplyBlockArgs good_block [] []) []
              db good_run.2 (success_of good_run)) as (P1 & P2 & _ & P3 & _).
  - apply not_elem_of_nil.
  - exact Hrun.
  - split; [exact P1|]. split; [exact P2|exact P3].
Defined.

(** ** The pool's checks *)
Definition withdrawal : WithdrawalRequestExtra := {|
  we_request := mkWithdrawalRequest
    (mkRawWithdrawalRequest 0 1 400 20 token (script_hash eoa) 2 (script_hash eoa) 7) [x01];
  we_owner_lock := eoa |}.
Definition verified_run := verify_withdrawal_request (generator [x01]) withdrawal (Some eoa) 1 db.

(** The script of the token is not account 1. *)
Lemma token_account : tokens_ok ctx [token] state.
Proof.
  intros x ->%list_elem_of_singleton. split; [|done]. vm_compute. discriminate.
Qed.

Lemma verified_withdrawal_applies_witness :
  ∃ db1 receipt addr id s1 s2 s3 s4 rs',
    apply_withdrawal_request ctx producer_address (we_request withdrawal) db = (Ok receipt, db1) ∧
    db_rel db1 rs' ∧
    withdrawal_steps ctx producer_address (w_raw (we_request withdrawal)) state s1 s2 s3 s4 rs' id addr.
Proof.
  apply (verified_withdrawal_applies (generator [x01]) withdrawal (Some eoa) 1 producer_address
           [eoa_address; producer_address] db verified_run.2 state).
  - apply sample_collision_free.
  - exact token_account.
  - repeat split; vm_compute; done.
  - by vm_compute.
  - apply holders_ok_node. by vm_compute.
  - vm_compute. reflexivity.
  - intros addr sid Ha Hs. assert (Hs' : sid = 4).
    { apply (inj Some). rewrite <- Hs. vm_compute. reflexivity. }
    assert (Ha' : addr = eoa_address).
    { apply (inj Some), (inj (@Ok StateError.t _)). rewrite <- (f_equal fst Ha : _ = Ok (Some addr)).
      vm_compute. reflexivity. }
    clear Ha Hs. subst. split; [left|]. split; [apply holders_ok_node; by vm_compute|]. vm_compute. reflexivity.
  - right. left.
  - exact db_rel_state.
  - apply run_first. vm_compute. reflexivity.
Defined.

Definition verified_tx_run := verify_transaction (generator [x01]) None tx 1 db.
Lemma verified_transaction_can_pay_witness :
  nonce_at state 3 = 0 ∧
  ∃ payer typed,
    get_registry_address_by_script_hash ETH_REGISTRY_ACCOUNT_ID (script_hash_at state 3) state
      = (Ok (Some payer), state) ∧
    (∃ ty, TypedRawTransaction_from_tx (tx_raw tx) ty = Some typed) ∧
    ∀ fee system, payer ∈ [eoa_address; producer_address] → failure_fee (tx_raw tx) typed fee system →
      gas_within (tx_raw tx) system → ∃ rs1, burn_sudt CKB_SUDT_ACCOUNT_ID payer fee state = (Ok tt, rs1).
Proof.
  apply (verified_transaction_can_pay (generator [x01]) None tx 1 [eoa_address; producer_address]
           db verified_tx_run.2 state).
  - apply holders_ok_node. by vm_compute.
  - vm_compute. reflexivity.
  - exact db_rel_state.
  - apply run_first. vm_compute. reflexivity.
Defined.

(** *** The withdrawal cell, with a hash of 32 bytes *)
Section Cell.
Local Instance short_hash : Blake2b := λ bs, take 32 (bs ++ zeros 32).
Definition owner_request : WithdrawalRequestExtra := {|
  we_request := mkWithdrawalRequest
    (mkRawWithdrawalRequest 0 1 400 20 token (h x61) 2 (script_hash (H:=short_hash) eoa) 7) [x01];
  we_owner_lock := eoa |}.
Definition cell : CellOutput * bytes :=
  match build_withdrawal_cell_output (H:=short_hash) ctx owner_request (h x60) (BlockNumber 9) (Some eoa) with
  | Ok c => c
  | _ => (mkCellOutput 0 eoa None, [])
  end.

Lemma withdrawal_cell_reads_back_witness :
  parse_withdrawal_lock_args (H:=short_hash) (args (co_lock cell.1))
    = Ok (mkWithdrawalLockArgs (h x60) 9 (h x61) (script_hash (H:=short_hash) eoa), eoa) ∧
  co_capacity cell.1 = 400 ∧ cell.2 = le_bytes 16 20.
Proof.
  destruct (withdrawal_cell_reads_back (H:=short_hash) ctx owner_request (h x60) (BlockNumber 9) (Some eoa)
              cell.1 cell.2) as (P1 & _ & P2 & _ & _ & P3); try reflexivity.
  - by vm_compute.
  - split; [exact P1|]. split; [exact P2|exact P3].
Defined.
End Cell.

(** ** Accounting of a failure *)
Definition burned : RefState := (burn_sudt CKB_SUDT_ACCOUNT_ID eoa_address 5 state).2.
Definition paid : RefState := (mint_sudt CKB_SUDT_ACCOUNT_ID producer_address 5 burned).2.
Definition charged : RefState :=
  (set_nonce 3 (nonce_at state 3 + 1)
     (set_supply CKB_SUDT_ACCOUNT_ID (supply paid CKB_SUDT_ACCOUNT_ID + 5) paid)).2.

Lemma failed_fee_inflates_supply_witness :
  sum_over (balance charged CKB_SUDT_ACCOUNT_ID) [eoa_address; producer_address]
    = sum_over (balance state CKB_SUDT_ACCOUNT_ID) [eoa_address; producer_address] ∧
  supply charged CKB_SUDT_ACCOUNT_ID
    = sum_over (balance charged CKB_SUDT_ACCOUNT_ID) [eoa_address; producer_address] + 5.
Proof.
  apply (failed_fee_inflates_supply [eoa_address; producer_address] eoa_address producer_address 3 5
           state charged).
  - apply holders_ok_node. by vm_compute.
  - left.
  - right. left.
  - lia.
  - vm_compute. reflexivity.
  - exists burned, paid. split; [apply run_first; vm_compute; reflexivity|].
    split; [apply run_first; vm_compute; reflexivity|]. split; [vm_compute; reflexivity|].
    apply run_first. vm_compute. reflexivity.
Defined.

(** ** Backends *)
Definition file (path : bytes) : option bytes := Some (path ++ [x77]).
Definition fork (height : Z) (path : bytes) : BackendForkConfig :=
  mkBackendForkConfig height [mkBackendConfig path path meta_code BkMeta] (mkSUDTProxyConfig false []).
Definition managed : BackendManage :=
  match BackendManage_from_config (H0 := file) [fork 0 [x01]; fork 10 [x02]] with
  | Ok m => m
  | _ => no_backends
  end.
Lemma backend_at_height_witness :
  get_backend 9 meta_code managed
    = backend_loaded (H0 := file) (registered_at 9 meta_code [fork 0 [x01]; fork 10 [x02]]) ∧
  get_backend 10 meta_code managed
    = backend_loaded (H0 := file) (registered_at 10 meta_code [fork 0 [x01]; fork 10 [x02]]).
Proof.
  destruct (backend_at_height (H0 := file) [fork 0 [x01]; fork 10 [x02]] managed) as [_ P].
  - vm_compute. reflexivity.
  - split; apply P.
Defined.

(** ** The fee queue *)
Definition queue_tx (from nonce : Z) : FeeItem :=
  ItemTx (mkL2Transaction (mkRawL2Transaction 1 from 4 nonce []) []).
Definition entry (from nonce order fee : Z) : FeeEntry :=
  mkFeeEntry (queue_tx from nonce) order (AccountId from) fee 1000.
Definition entries : list FeeEntry := [entry 3 1 0 900; entry 3 0 1 800; entry 5 0 2 700; entry 5 2 3 600].
Definition queue : list (FeeEntry * unit) := foldl (λ q e, add e tt q) [] entries.
Definition zero_nonce (id : Z) : outcome StateError.t Z := Ok 0.

Lemma fetch_respects_nonces_witness :
  (fetch zero_nonce 3 queue).1 = Ok [(entry 3 0 1 800, tt); (entry 5 0 2 700, tt)] ∧
  count_up 0 (of_sender (AccountId 3) [(entry 3 0 1 800, tt); (entry 5 0 2 700, tt)]).
Proof.
  assert (Hrun : (fetch zero_nonce 3 queue).1 = Ok [(entry 3 0 1 800, tt); (entry 5 0 2 700, tt)])
    by (vm_compute; reflexivity).
  split; [exact Hrun|].
  destruct (fetch_respects_nonces zero_nonce 3 queue (fetch zero_nonce 3 queue).2
              [(entry 3 0 1 800, tt); (entry 5 0 2 700, tt)]) as (_ & _ & P).
  - intros id n [= <-]. by vm_compute.
  - by apply run_first.
  - apply P. reflexivity.
Defined.

Lemma entries_lawful : lawful (λ e, e ∈ entries).
Proof.
  apply (distinct_orders_lawful 1000).
  - repeat constructor; cbn; lia.
  - intros a b Ha Hb. repeat (apply elem_of_cons in Ha as [->|Ha]); [..|by apply elem_of_nil in Ha];
      repeat (apply elem_of_cons in Hb as [->|Hb]); try by apply elem_of_nil in Hb.
    all: cbn; intros; done.
Qed.


Definition one_nonce (_ : Z) : outcome StateError.t Z := Ok 1.
Lemma fee_queue_drains_witness :
  foldl (λ q f, (fetch f.1 f.2 q).2) queue
    ((λ i, (if Nat.even i then zero_nonce else one_nonce, i)) <$> seq 0 (length queue)) = [].
Proof.
  apply (proj2 (fee_queue_drains queue)).
  - apply Forall_fmap, Forall_forall. intros i _ id. cbn. destruct (Nat.even i); [exists 0|exists 1]; split; done.
  - by rewrite length_fmap, length_seq.
Defined.

(** ** The node beside the rollup script

    A block in which the account withdraws CKB and tokens and deposits again.  The
    partial state of its witness has the keys of the node's state and a zero
    balance for the producer, who has none yet. *)
Definition deposit_cell : DepositRequestCell :=
  mkDepositRequestCell 0 (mkDepositLockArgs (script_hash eoa) eoa 100 2)
    (mkCellValue token 30 200) eoa (script_hash eoa).
Definition request_block : L2Block := {|
  block_raw := block_raw good_block; block_kv_state := []; block_kv_state_proof := [];
  block_transactions := []; block_proof := []; block_withdrawals := [we_request withdrawal] |}.
Definition witness_tree : tree := <[balance_key 1 producer_address := h256_zero]> (rs_kv state).
Definition witness_kv : KVState := mkKVState witness_tree [] 5 None.
Definition withdrawn := check_layer2_withdrawal rth node_config request_block witness_kv.
Definition deposited := check_layer2_deposit rth node_config [deposit_cell] withdrawn.2.

Lemma witness_kv_rel : kv_rel witness_kv state.
Proof.
  split; [|by vm_compute]. intros k v Hv.
  change (ok_or 1 (witness_tree !! k) = Ok v) in Hv. apply ok_or_Ok in Hv. revert Hv.
  unfold witness_tree, kv_get. destruct (decide (balance_key 1 producer_address = k)) as [<-|Hne].
  - rewrite lookup_insert_eq. intros [= <-]. vm_compute. reflexivity.
  - rewrite lookup_insert_ne by done. by intros ->.
Qed.

Lemma node_applies_accepted_requests_witness :
  ∃ d1 d2 rs2,
    st_for [we_request withdrawal]
      (λ w, apply_withdrawal_request ctx producer_address w ;; mret tt) db = (Ok tt, d1) ∧
    st_for [deposit_cell] (λ c, apply_deposit_request ctx (deposit_request_of c)) d1 = (Ok tt, d2) ∧
    kv_rel deposited.2 rs2 ∧ db_rel d2 rs2.
Proof.
  apply (node_applies_accepted_requests ctx request_block [deposit_cell]
           producer_address witness_kv withdrawn.2 deposited.2 db state).
  - vm_compute. reflexivity.
  - apply sample_collision_free.
  - exact token_account.
  - apply Forall_singleton. split; by vm_compute.
  - apply Forall_singleton. vm_compute. reflexivity.
  - exact witness_kv_rel.
  - exact db_rel_state.
  - apply run_first. vm_compute. reflexivity.
  - apply run_first. vm_compute. reflexivity.
Defined.

(** The same account with its last nonce. *)
Definition last_state : RefState := (set_nonce 3 u32_max state).2.
Definition last_db : StateDB MemStateTree :=
  mkStateDB (mkMemStateTree (rs_kv last_state) (rs_count last_state) (mst_scripts mem) ∅)
    [] 0 [] no_dirty None [].
Definition last_request : WithdrawalRequest :=
  mkWithdrawalRequest (mkRawWithdrawalRequest u32_max 1 400 20 token (script_hash eoa) 2 (script_hash eoa) 7) [].
Definition last_run := check_layer2_withdrawal_one rth node_config producer_address last_request last_state.

Lemma last_nonce_diverges_witness :
  (∃ id, account_id_of last_state (script_hash eoa) = Some id ∧ nonce_at last_run.2 id = u32_max) ∧
  (apply_withdrawal_request ctx producer_address last_request last_db).1
    = Err (GenError.Withdrawal WithdrawalError.NonceOverflow).
Proof.
  apply (last_nonce_diverges ctx producer_address last_request last_db last_state).
  - apply sample_collision_free.
  - intros x ->%list_elem_of_singleton. split; [|done]. vm_compute. discriminate.
  - reflexivity.
  - done.
  - apply run_first. vm_compute. reflexivity.
Defined.
