(* ===== verification/L1Witnesses.v ===== *)
(** * Witnesses for the layer-1 side of the node

    The theorems about local cells, the chain updater and the synchronisation
    with layer 1, applied to concrete transactions and to the chain of
    [ChainSamples.v]. *)
From Stdlib Require Import ZArith Lia Strings.Byte.
From stdpp Require Import prelude list gmap countable.
From S2P Require Import Prelude Bytes Types State StateSpec StateDB History Finality Ckb Eip712 SubmitBlock Locks ChallengeLock Samples SignatureWitnesses.
From S2P Require Import NodeUtils NodeState AccountLocks Backends Syscalls Generator GeneratorProps BlockEffect Verifiers Store StoreProps LocalCells ChallengeContext Chain ChainUpdater ChainProps SyncL1 Genesis NodeSamples ChainSamples ChainWitnesses.
Local Open Scope Z_scope.

(** ** What the scripts and the node read *)
Module L1Reading.
Import SampleHash SampleCodec SampleSmt SampleTx SampleRollup.
#[local] Instance rest_codec : HashCodec := {|
  enc_RawWithdrawalRequest w := SampleCodec.z_bytes (w_nonce w);
  enc_RawTransaction t := l1_rest t;
|}.

(** A rollup cell and a deposit, created by one transaction and spent by another *)
Definition input_cells : list Cell := [mkCell 1000 plain_lock None []; deposit_cell].
Definition input_env : CkbEnv :=
  tx_env script_hash (λ d, blake2b d) {|
    tx_inputs := (λ c, (c, 0)) <$> input_cells; tx_outputs := []; tx_deps := [];
    tx_witness := mkWitnessArgs None None None; tx_witness_bytes := [];
    tx_script := rollup_script |}.
Definition outputs_of (cells : list Cell) : list CellOutput :=
  (λ c, mkCellOutput (cell_capacity c) (cell_lock c) (cell_type c)) <$> cells.
Definition previous_tx : L1Transaction :=
  mkL1Transaction [] (outputs_of input_cells) (SampleTx.cell_data <$> input_cells) [] [x01].
#[local] Instance sample_l1 : L1Transactions := λ _, Ok (Some previous_tx).
Definition spending_tx : L1Transaction :=
  mkL1Transaction [mkCellInput 0 (mkOutPoint (l1_hash previous_tx) 0);
                   mkCellInput 0 (mkOutPoint (l1_hash previous_tx) 1)] [] [] [] [x02].
Definition seen_cells : list (CellOutput * bytes) :=
  zip (outputs_of input_cells) (SampleTx.cell_data <$> input_cells).
Definition updater : ChainUpdater :=
  mkChainUpdater (mkRollupContext rth config (mkForkConfig None None)) rollup_script.

Lemma input_env_sees : sees input_env SrcInput seen_cells.
Proof. split; [reflexivity|intros [|[|i]] o d [= <- <-]; reflexivity..]. Qed.

Lemma node_reads_script_deposits_witness :
  ∃ infos scripts, extract_deposit_requests updater spending_tx = Ok (infos, scripts) ∧
    di_request <$> infos = [mkDepositRequest 400 0 (zeros 32) eoa 2].
Proof.
  apply (node_reads_script_deposits input_env updater spending_tx seen_cells [deposit_request]).
  - exact input_env_sees.
  - repeat constructor; exists previous_tx; repeat split; reflexivity.
  - reflexivity.
  - vm_compute. reflexivity.
Defined.

(** A withdrawal whose cell belongs to somebody else *)
Definition block_with_withdrawal : L2Block :=
  mkL2Block block1 [] [] [] []
    [mkWithdrawalRequest (mkRawWithdrawalRequest 0 1 300 0 h256_zero eoa_hash 2 (h x77) 0) []].
Definition withdrawal_context : BlockContext :=
  mkBlockContext 1 1600000 (block_hash block1) rth h256_zero 2 72000.
Definition stolen_cell : WithdrawalCell :=
  mkWithdrawalCell 0 (mkWithdrawalLockArgs (block_hash block1) (Timepoint_full_value (Timestamp 1672000))
                        eoa_hash (h x77)) (mkCellValue h256_zero 0 300).
Lemma withdrawal_owner_unchecked_witness :
  check_withdrawal_cells withdrawal_context (block_withdrawals block_with_withdrawal)
    [with_owner (h x99) stolen_cell] = Ok tt ∧
  extract_withdrawals updater spending_tx block_with_withdrawal = Panic.
Proof.
  eapply (withdrawal_owner_unchecked updater spending_tx block_with_withdrawal ∅
    _ withdrawal_context [stolen_cell] (λ _, h x99)).
  - vm_compute. reflexivity.
  - reflexivity.
  - apply list_elem_of_here.
  - reflexivity.
Defined.

(** ** Local cells *)
(** A transaction with two outputs, one of which the next one spends *)
Definition plain_output (capacity : Z) : CellOutput := mkCellOutput capacity plain_lock None.
Definition first_tx : L1Transaction :=
  mkL1Transaction [mkCellInput 0 (mkOutPoint (h x50) 0)] [plain_output 10; plain_output 20] [[]; []] []
    [x01].
Definition second_tx : L1Transaction :=
  mkL1Transaction [mkCellInput 0 (mkOutPoint (l1_hash first_tx) 1)] [plain_output 5] [[]] [] [x02].

Lemma local_cells_are_unspent_witness :
  ∃ m, apply_txs [first_tx; second_tx] = Ok (E:=unit) m ∧
    is_dead (mkOutPoint (l1_hash first_tx) 1) m = true ∧
    local_live_cells m !! mkOutPoint (l1_hash first_tx) 1 = None ∧
    local_live_cells m !! mkOutPoint (l1_hash first_tx) 0 =
      Some (mkCellInfo (mkOutPoint (l1_hash first_tx) 0) (plain_output 10) []).
Proof.
  destruct (local_cells_are_unspent [first_tx; second_tx]) as (m & Hm & Hd & Hl).
  - apply (bool_decide_unpack _). vm_compute. exact I.
  - intros [|[|i]] [|[|j]] tx tx' p Hij [= <-] [= <-] Hp; try lia;
      apply list_elem_of_singleton in Hp as ->; vm_compute; discriminate.
  - repeat constructor; vm_compute; discriminate.
  - exists m. split; [exact Hm|].
    assert (Hs : spent_by second_tx (mkOutPoint (l1_hash first_tx) 1)) by apply list_elem_of_here.
    assert (H2 : second_tx ∈ [first_tx; second_tx]) by (right; left).
    split; [by apply Hd; exists second_tx|]. split.
    + destruct (local_live_cells m !! _) as [cell|] eqn:E; [|reflexivity].
      apply Hl in E as [_ E]. destruct (E second_tx H2 Hs).
    + apply Hl. split.
      * exists first_tx. split; [left|]. by exists 0%nat, (plain_output 10), [].
      * intros tx [->|[->|[]%elem_of_nil]%elem_of_cons]%elem_of_cons Hp;
          apply list_elem_of_singleton in Hp; revert Hp; vm_compute; discriminate.
Defined.
End L1Reading.

(** ** Synchronising *)
Module L1Syncing.
Import SampleSmt SampleTx NodeCodec ToyMachine SampleStore SampleNode ChainSample.

Abbreviation db1 := (tx_db updated.2.2).
Abbreviation snap1 := (mkSnap block1 (sd_account_tree db1) global1).
Lemma updated_inv : ∃ h, chain_inv updated.2.1 db1 ([snap0] ++ [snap1]) 0 0 h.
Proof.
  destruct chain0_inv as [h0 Hi].
  destruct (update_local_extends (Mac:=Toy) chain0 store0 store0 [snap0] 0 0 h0 block1 [deposit0] [] [] global1
              updated.2.1 updated.2.2 Hi block1_fresh updated_ok updated_zero)
    as (_ & _ & _ & h1 & Hi'). by exists h1.
Qed.

Lemma same_reverted_two (a b : Snap) r :
  reverted_block_root (sn_global a) = r → reverted_block_root (sn_global b) = r → same_reverted [a; b] 0.
Proof. intros Ha Hb. exists r. by intros [|[|i]] sn _ [= <-]. Qed.

Lemma sync_revert_restores_witness :
  ∃ c' db' h',
    revert_to 1 0 (updated.2.1, mkStoreTx store0 db1) = (Ok tt, (c', mkStoreTx store0 db')) ∧
    chain_inv c' db' [snap0] 0 0 h' ∧
    ch_tip c' = gw_genesis genesis ∧ ch_last_global_state c' = gw_global_state genesis ∧
    ∀ key, tree_get (sd_account_tree db') key = tree_get (sd_account_tree store0) key.
Proof.
  destruct updated_inv as [h1 Hi].
  apply (sync_revert_restores 1 0 updated.2.1 db1 store0 ([snap0] ++ [snap1]) 0 0 h1 snap0 Hi).
  - reflexivity.
  - apply (same_reverted_two _ _ h256_zero); [vm_compute; reflexivity|reflexivity].
  - cbn. lia.
Defined.

(** The first block is submitted by a transaction the store knows. *)
Abbreviation db2 := (set_block_submit_tx_hash (E:=ChainError) 1 (h x79) db1).2.
Definition submission (i : nat) : H256 := match i with O => h x77 | _ => h x79 end.
Definition l1_view : L1View := {|
  lv_transaction _ := Ok None;
  lv_status _ := Ok (Some Committed);
  lv_block_number _ := Ok (Some 100);
  lv_pages _ := [Ok [h x70; h x77; h x77]; Ok [h x79]];
|}.
Definition updater0 : ChainUpdater := mkChainUpdater context0 rollup_script.

Lemma db2_inv : ∃ h, chain_inv updated.2.1 db2 ([snap0] ++ [snap1]) 0 0 h.
Proof.
  destruct updated_inv as [h1 Hi]. exists h1. exact (submit_hash_inv 1 (h x79) _ _ _ _ _ _ Hi).
Qed.

Lemma sync_l1_confirms_known_witness :
  ∃ db' h, sync_l1_impl (Mac:=Toy) l1_view updater0 0 (updated.2.1, db2) = (Ok tt, (updated.2.1, db')) ∧
    chain_inv updated.2.1 db' ([snap0] ++ [snap1]) 1 1 h ∧ framed (λ key, key.1 ≠ COLUMN_META) db2 db'.
Proof.
  destruct db2_inv as [h1 Hi].
  destruct (sync_l1_confirms_known (Mac:=Toy) l1_view updater0 0 updated.2.1 db2 ([snap0] ++ [snap1]) 0 0 1 h1
    submission 100 [[h x70; h x77; h x77]; [h x79]] [h x70]) as (db' & E & Hi' & F).
  - exact Hi.
  - cbn. lia.
  - intros [|[|i]] Hl; [vm_compute; reflexivity..|lia].
  - reflexivity.
  - reflexivity.
  - reflexivity.
  - vm_compute. reflexivity.
  - apply (bool_decide_unpack _). vm_compute. exact I.
  - exists db', h1. auto.
Defined.
End L1Syncing.
