(* ===== verification/ProducerWitnesses.v ===== *)
(** * Witnesses for the block producer and the read-only nodes

    The theorems about the producer's loop, its recovery and the synchronisation
    of read-only nodes, applied to the chain of [ChainSamples.v]. *)
From Stdlib Require Import ZArith Lia Strings.Byte.
From stdpp Require Import prelude list gmap countable relations.
From S2P Require Import Prelude Bytes Types State StateSpec StateDB History Finality Ckb Eip712 SubmitBlock ChallengeLock Samples.
From S2P Require Import NodeUtils NodeState AccountLocks Backends Syscalls Generator GeneratorProps BlockEffect Verifiers Store StoreProps LocalCells BlockSyncServer ChallengeContext Chain ChainUpdater ChainProps BlockRecords SyncL1 BlockSyncClient Psc PscProps Genesis NodeSamples ChainSamples ChainWitnesses L1Witnesses.
Local Open Scope Z_scope.

Module Producing.
Import SampleSmt SampleTx NodeCodec ToyMachine SampleStore SampleNode ChainSample L1Syncing.
#[local] Instance sample_block_codec : BlockCodec := λ b, SampleCodec.z_bytes (block_number b).
Definition cfg : PscConfig := mkPscConfig 3 2.

(** A store without submissions, whose deposits and withdrawals are records of
    their type *)
Definition plain_record (x : Z * bytes * Entity) : bool :=
  let '(c, _, e) := x in
  if c =? COLUMN_BLOCK_SUBMIT_TX then false
  else if c =? COLUMN_BLOCK_DEPOSIT_INFO_VEC then match e with EDeposits _ => true | _ => false end
  else if c =? COLUMN_WITHDRAWAL then match e with EWithdrawal _ => true | _ => false end
  else true.
Lemma plain_records_ok db :
  forallb plain_record (map_to_list (sd_columns db)) = true → records_ok db.
Proof.
  intros Hall. assert (Hp : ∀ c k e, sd_columns db !! (c, k) = Some e → plain_record (c, k, e) = true).
  { intros c k e He. eapply forallb_forall in Hall; [exact Hall|]. apply list_elem_of_In. by apply elem_of_map_to_list. }
  split; intros k e He; apply Hp in He; [done|..]; destruct e; try done; by eexists.
Qed.

(** The node with one local block, and none submitted *)
Abbreviation psc0 := (mkPsc updated.2.1 db1 no_local_cells None 1 0 None None).
Lemma times_two (a b : Snap) :
  0 ≤ timestamp (block_raw (sn_block a)) < MAX_TIMESTAMP →
  0 ≤ timestamp (block_raw (sn_block b)) < MAX_TIMESTAMP →
  ∀ i sn, [a; b] !! i = Some sn → 0 ≤ timestamp (block_raw (sn_block sn)) < MAX_TIMESTAMP.
Proof. by intros Ha Hb [|[|i]] sn [= <-]. Qed.
Lemma psc_inv_start c db a b h ds :
  chain_inv c db [a; b] 0 0 h → records_ok db → deposits_of 1 ds db →
  0 ≤ timestamp (block_raw (sn_block a)) < MAX_TIMESTAMP →
  0 ≤ timestamp (block_raw (sn_block b)) < MAX_TIMESTAMP →
  psc_inv (mkPsc c db no_local_cells None 1 0 None None) [a; b] 0 0 h.
Proof.
  intros Hi Hr Hd Ha Hb. split; cbn; try done; [lia| |by apply times_two].
  intros i Hlt. replace i with 1%nat by lia. by exists ds.
Qed.
Lemma psc0_inv : ∃ h, psc_inv psc0 [snap0; snap1] 0 0 h.
Proof.
  destruct updated_inv as [h1 Hi]. exists h1. apply (psc_inv_start _ _ _ _ _ [deposit0]).
  - exact Hi.
  - apply plain_records_ok. vm_compute. reflexivity.
  - vm_compute. reflexivity.
  - vm_compute. split; [discriminate|reflexivity].
  - vm_compute. split; [discriminate|reflexivity].
Qed.

(** The loop starts to submit the block, and the task reads it from the store. *)
Abbreviation psc1 := ((loop_top cfg psc0).2).
Abbreviation psc2 := ((handle (Mac:=Toy) cfg EvSubmitRead psc1).2).
Lemma step_of {A E S} (m : ST S E A) x a : (m x).1 = Ok a → m x = (Ok a, (m x).2).
Proof. destruct (m x) as [r y]. by intros <-. Qed.
Lemma psc_loop_keeps_books_witness :
  (∃ s args, ps_submit psc2 = Some (SubmitCompose s args) ∧ su_number s = 1) ∧
  ∃ snaps s k h, psc_inv psc2 snaps s k h ∧ (∃ p', loop_top cfg psc2 = (Ok tt, p')) ∧
    ∀ e, sound_event (Mac:=Toy) psc2 snaps e →
      event_outcome (handle (Mac:=Toy) cfg e psc2).1 (handle (Mac:=Toy) cfg e psc2).2 (reverts e s k).
Proof.
  split; [eexists _, _; vm_compute; split; reflexivity|]. destruct psc0_inv as [h1 Hi].
  apply (psc_loop_keeps_books (Mac:=Toy) cfg psc0 psc2 [snap0; snap1] 0 0 h1).
  - reflexivity.
  - reflexivity.
  - exact Hi.
  - eapply rtc_l; [apply step_turn, step_of; vm_compute; reflexivity|].
    apply rtc_once, (step_event cfg EvSubmitRead); [intros; exact I|apply step_of; vm_compute; reflexivity].
Defined.

(** Layer 1 shows the genesis transaction and nothing after it: the local block is
    taken back. *)
Definition empty_view : L1View := {|
  lv_transaction _ := Ok None;
  lv_status _ := Ok (Some Committed);
  lv_block_number _ := Ok (Some 100);
  lv_pages _ := [Ok [h x70; h x77; h x77]];
|}.
Lemma psc_recovers_witness :
  ∃ p' h', recover (Mac:=Toy) [empty_view] updater0 1 (ShouldRevert 1) psc0 = (Ok tt, p') ∧
    psc_inv p' [snap0] 0 0 h' ∧ ps_submit p' = None ∧ ps_confirm p' = None.
Proof.
  destruct psc0_inv as [h1 Hi].
  apply (psc_recovers (Mac:=Toy) empty_view updater0 1 psc0 [snap0; snap1] 0 0 0 0 h1 submission).
  - exact Hi.
  - reflexivity.
  - lia.
  - cbn. lia.
  - apply (same_reverted_two _ _ h256_zero); [vm_compute; reflexivity|reflexivity].
  - cbn. lia.
  - split.
    + intros i Hle. replace i with 0%nat by lia. vm_compute. reflexivity.
    + reflexivity.
    + exists 100, [[h x70; h x77; h x77]], [h x70]. split; [reflexivity|]. split; [reflexivity|].
      split; [vm_compute; reflexivity|]. apply (bool_decide_unpack _). vm_compute. exact I.
  - reflexivity.
Defined.

(** ** Read-only nodes *)
Definition local1 : LocalBlock := mkLocalBlock block1 global1 [deposit0] [] [].
Abbreviation client0 := (mkBlockSyncClient chain0 store0 true false).
Lemma same_reverted_one (a : Snap) : same_reverted [a] 0.
Proof. eexists. by intros [|i] sn _ [= <-]. Qed.
Lemma client_refines_ledger_witness :
  let cl' := (apply_msg (Mac:=Toy) 0 (MsgLocalBlock local1) client0).2 in
  (apply_msg (Mac:=Toy) 0 (MsgLocalBlock local1) client0).1 = Ok tt ∧
  ∃ snaps' s' k' h', chain_inv (cl_chain cl') (cl_store cl') snaps' s' k' h' ∧
    follow (mkLedger [gw_genesis genesis] 0 0) (MsgLocalBlock local1) =
    Some (mkLedger (sn_block <$> snaps') s' k').
Proof.
  assert (E : (apply_msg (Mac:=Toy) 0 (MsgLocalBlock local1) client0).1 = Ok tt) by (vm_compute; reflexivity).
  assert (Ez : account_zero_set (cl_store (apply_msg (Mac:=Toy) 0 (MsgLocalBlock local1) client0).2))
    by (vm_compute; reflexivity).
  destruct chain0_inv as [h0 Hi].
  pose proof (client_refines_ledger (Mac:=Toy) 0 (MsgLocalBlock local1) client0 [snap0] 0 0 h0 Hi) as Hc.
  cbv zeta. destruct (apply_msg 0 (MsgLocalBlock local1) client0) as [r cl']. cbn [fst snd] in *.
  split; [exact E|]. apply Hc; [|exact E|exact Ez]. split; [|split; [|split]].
  - vm_compute. split; [discriminate|reflexivity].
  - cbn. lia.
  - apply same_reverted_one.
  - exact block1_fresh.
Defined.

(** The producer publishes block 1, submits and confirms it, and publishes block 2. *)
Definition next_block (parent : L2Block) : L2Block :=
  mkL2Block (mkRawL2Block (block_number parent + 1) (reg_addr_bytes producer_address) (block_hash parent) [] 3000
    after_deposit after_deposit [] default_submit_withdrawals (mkSubmitTransactions h256_zero 0 [])) [] [] [] [] [].
Definition local2 : LocalBlock := mkLocalBlock (next_block block1) global1 [] [] [].
Definition nh_of (l : LocalBlock) : NumberHash :=
  mkNumberHash (block_number (lb_block l)) (block_hash (lb_block l)).
Definition sv1 : BlockSyncServerState := publish_local_block local1 (new_server 16).
Definition sv2 : BlockSyncServerState := publish_submitted (nh_of local1) (h x79) sv1.
Definition sv3 : BlockSyncServerState := from_ok id sv2 (publish_confirmed (E:=unit) (nh_of local1) (h x79) sv2).
Definition sv4 : BlockSyncServerState := publish_local_block local2 sv3.
Definition msgs_after_1 : list BlockSync := from_ok id [] (get_and_subscribe (nh_of local1) sv4).
End Producing.
