(* ===== verification/PoolWitnesses.v ===== *)
(** * Witnesses for the block in the making and the cells of a submission

    The theorems of [MemBlock.v], [WithdrawalCells.v] and [SubmitCells.v] on a block
    with one withdrawal and two custodian cells, one of them with tokens. *)
From Stdlib Require Import ZArith Lia Strings.Byte.
From stdpp Require Import prelude list gmap.
From S2P Require Import Prelude Bytes Types State StateSpec StateDB History Finality Ckb Samples.
From S2P Require Import NodeUtils NodeState AccountLocks Backends Syscalls Generator FeeQueue Verifiers Store LocalCells Chain MemBlock WithdrawalCells SubmitCells NodeSamples.
Local Open Scope Z_scope.

Module Pooling.
Import SampleHash SampleCodec NodeCodec SampleNode.

(** ** A block in the making *)
Definition state_at (n : Z) : AccountMerkleState := mkAccountMerkleState (h x20) n.
Definition mem_block0 : MemBlock := empty_mem_block producer_address info (state_at 3) true.
(** A withdrawal, no deposit, two transactions *)
Definition mem_block1 : MemBlock :=
  match push_withdrawal (E:=unit) (h x31) (state_at 4) [h x32] mem_block0 with
  | Ok mb =>
      match push_deposits (E:=unit) [] [] [] (checkpoint_of_state (state_at 4)) mb with
      | Ok mb => push_txs [(h x33, state_at 5); (h x34, state_at 6)] mb
      | _ => mb
      end
  | _ => mem_block0
  end.
Lemma mem_block1_ok : mem_block_ok mem_block1.
Proof.
  unfold mem_block1.
  destruct (push_withdrawal_run (E:=unit) (h x31) (state_at 4) [h x32] mem_block0) as (mb & -> & Hok & _ & Hp & Hs);
    [apply empty_mem_block_ok|done|].
  destruct Hs as (_ & _ & Hprev & _ & _ & Hnone & _).
  destruct (push_deposits_run (E:=unit) [] [] [] mb)
    as (mb' & Hrun & Hok' & _ & _ & _ & _ & _ & _ & _ & _ & _ & Hc & _); [done..|].
  rewrite Hp, Hprev, app_nil_r in Hrun.
  change (default _ _) with (state_at 4) in Hrun. rewrite Hrun. by apply push_txs_run.
Qed.
(** The first retry keeps one of the three items, the withdrawal. *)
Lemma package_mem_block_prefix_witness :
  package_count mem_block1 1 = 1%nat ∧
  ∃ mb' post, package_mem_block (E:=unit) mem_block1 1 = Ok (mb', post)
    ∧ mem_block_ok mb' ∧ mem_items mb' = take 1 (mem_items mem_block1)
    ∧ post = default (state_at 3) (last (mem_items mb').*2).
Proof.
  split; [reflexivity|].
  destruct (package_mem_block_prefix (E:=unit) mem_block1 1 mem_block1_ok ltac:(lia))
    as (mb' & post & Hrun & Hok & Hitems & Hpost & _).
  exists mb', post. split; [exact Hrun|]. split; [exact Hok|]. split; [exact Hitems|exact Hpost].
Defined.

(** ** Cells *)
#[local] Instance sized_cells : CkbTypes := λ output n,
  if Z.of_nat n <? 2 ^ 32 then Some (61 + Z.of_nat n) else None.
#[local] Instance sized_cells_laws : CkbTypesLaws.
Proof.
  split.
  - done.
  - unfold occupied_capacity, sized_cells. intros c lock s n m a b Ha Hb. case_match; [|done]. case_match; [|done].
    simplify_eq. lia.
  - unfold occupied_capacity, sized_cells. intros o n a Ha. destruct (Z.ltb_spec (Z.of_nat n) (2 ^ 32)); [|done].
    simplify_eq. lia.
Qed.
#[local] Instance timepoint_codec : CustodianCodec := λ a, le_bytes 8 (cl_deposit_finalized_timepoint a).
(** The encodings of [NodeCodec], with custodian locks that can be read *)
#[local] Instance custodian_molecule : Molecule := {|
  enc_Script := enc_script;
  enc_RawL2Block b := block_bytes b;
  enc_L2Transaction t := tx_signature t;
  enc_WithdrawalRequest w := w_signature w;
  dec_Script := dec_script;
  dec_GlobalState _ := None;
  dec_GlobalStateV0 _ := None;
  dec_RollupConfig _ := None;
  dec_WitnessArgs _ := None;
  dec_RollupAction _ := None;
  dec_DepositLockArgs _ := None;
  dec_CustodianLockArgs bs := Some (mkCustodianLockArgs h256_zero (le_val bs) DepositLockArgs_default);
  dec_WithdrawalLockArgs := dec_lock_args;
  dec_StakeLockArgs _ := None;
  dec_ChallengeLockArgs _ := None;
  dec_UnlockWithdrawalWitness _ := None;
  dec_UnlockCustodianViaRevertWitness _ := None;
|}.
#[local] Instance nonce_codec : HashCodec := {|
  enc_RawWithdrawalRequest w := z_bytes (w_nonce w);
  enc_RawTransaction t := l1_rest t;
|}.

Definition token_script : Script := mkScript (l1_sudt_script_type_hash node_config) 1 [x51].
Definition token_hash : H256 := script_hash token_script.
Definition plain_cell : CellInfo :=
  mkCellInfo (mkOutPoint (h x41) 0) (mkCellOutput 1000 (build_finalized_custodian_lock ctx) None) [].
Definition tokens_cell : CellInfo :=
  mkCellInfo (mkOutPoint (h x41) 1)
    (mkCellOutput 500 (build_finalized_custodian_lock ctx) (Some token_script)) (le_bytes 16 300).
(** An indexer with one page *)
#[local] Program Instance one_page : Indexer := {|
  get_cells key cursor :=
    match cursor with
    | None => Ok (filter (λ c, satisfy_search key c = true) [plain_cell; tokens_cell], [x01])
    | Some _ => Ok ([], [])
    end;
  live_iter m := (map_to_list m).*2;
|}.
Next Obligation. done. Qed.
#[local] Instance one_page_laws : IndexerLaws.
Proof.
  split.
  - intros key [cur|] cells next [= <- <-]; [done|]. apply Forall_forall.
    intros c [Hs Hin]%list_elem_of_filter. split; [done|].
    rewrite !elem_of_cons in Hin. destruct Hin as [->|[->|Hin%elem_of_nil]]; [cbn; lia..|done].
  - by intros key [cur|].
Qed.
Lemma no_local_cells_ok : local_cells_ok no_local_cells.
Proof. intros p c Hc. change (local_live_cells no_local_cells) with (∅ : gmap OutPoint CellInfo) in Hc. by rewrite lookup_empty in Hc. Qed.

(** Four hundred units of capacity and twenty tokens *)
Definition request : WithdrawalRequest :=
  mkWithdrawalRequest (mkRawWithdrawalRequest 0 1 400 20 token_hash (h x61) 2 (script_hash eoa) 7) [x01].
Definition extra : WithdrawalRequestExtra := mkWithdrawalRequestExtra request eoa.
Definition extras : gmap H256 WithdrawalRequestExtra := {[ withdrawal_hash request := extra ]}.
Definition block : L2Block :=
  mkL2Block (mkRawL2Block 4 (reg_addr_bytes producer_address) (h x62) [] 3000 (state_at 3) (state_at 3) []
    (mkSubmitWithdrawals h256_zero 1) (mkSubmitTransactions h256_zero 0 [])) [] [] [] [] [request].
Definition final_at : CompatibleFinalizedTimepoint := mkCompatible 2 None.
Definition known_asset (x : H256) : option Script := if bool_decide (x = token_hash) then Some token_script else None.
Definition cells_found : CollectedCustodianCells :=
  mkCollectedCustodianCells [plain_cell; tokens_cell] 1500 {[ token_hash := (300, token_script) ]}.

Lemma custodians_found :
  query_finalized_custodians ctx no_local_cells final_at 5 known_asset [request] = Some (Ok (QueryFull cells_found)).
Proof. vm_cast_no_check (eq_refl (Some (Ok (E:=unit) (QueryFull cells_found)))). Qed.
Lemma cells_found_spendable : spendable ctx cells_found.
Proof.
  split.
  - vm_compute. reflexivity.
  - intros x. unfold total_amount. cbn [cells_found cl_cells_info fmap list_fmap sum_over].
    unfold amount_of. repeat case_bool_decide; vm_compute; reflexivity.
  - exists 61. split; [reflexivity|vm_compute; discriminate].
  - intros c s Hc Hs. cbn [cells_found cl_cells_info] in Hc.
    rewrite !elem_of_cons in Hc. destruct Hc as [->|[->|Hc%elem_of_nil]]; [done| |done].
    injection Hs as <-. split; [by eexists|vm_compute; discriminate].
  - intros x [[b s] Hx]. unfold held. rewrite Hx. cbn [cells_found cl_sudt] in Hx.
    apply lookup_singleton_Some in Hx as [_ [= <- <-]]. done.
Qed.
Lemma request_in_range : Forall request_ok [extra].
Proof. repeat constructor; vm_compute; congruence. Qed.

Definition left_over : FinalizedCustodianCapacity := collected_available cells_found.
Lemma left_over_ok : custodians_ok ctx left_over.
Proof.
  split.
  - cbn. lia.
  - exists 61. split; [reflexivity|vm_compute; discriminate].
  - intros x b s Hx. cbn [left_over collected_available fc_sudt cells_found cl_sudt] in Hx.
    apply lookup_singleton_Some in Hx as [<- [= <- <-]]. split; [lia|]. split; [done|by eexists].
  - unfold reserved. rewrite map_sum_to_list. cbn [left_over collected_available fc_sudt cells_found cl_sudt].
    rewrite map_to_list_singleton. vm_compute. discriminate.
Qed.
(** The request twice: there is capacity for both. *)
Lemma withdrawals_conserve_custodians_witness :
  ∃ g0 results g,
    WGenerator_new ctx left_over = Ok g0 ∧ include_all ctx block [extra; extra] g0 = (results, g) ∧ (Panic ∉ results)
    ∧ total_capacity (finish ctx g) = 1500
    ∧ total_amount token_hash (finish ctx g) = 300.
Proof.
  destruct (withdrawals_conserve_custodians ctx left_over block (BlockNumber 4) [extra; extra])
    as (g0 & results & g & remaining & Hnew & Hall & Hp & Hcap & Ham & _).
  - exact left_over_ok.
  - repeat constructor; vm_compute; congruence.
  - reflexivity.
  - exists g0, results, g. split; [exact Hnew|]. split; [exact Hall|]. split; [exact Hp|].
    split; [exact Hcap|]. rewrite Ham. unfold left_over. cbn [collected_available fc_sudt cells_found cl_sudt].
    by rewrite lookup_singleton_eq.
Defined.

Definition no_tokens (s : Script) (n : nat) (seen : gset OutPoint) : outcome unit (QueryResult (list CellInfo)) :=
  Ok (QueryNotEnough []).
Lemma cells_gathered :
  gather ctx no_local_cells final_at no_tokens 5 known_asset [] (block_withdrawals block) = Some (Ok cells_found).
Proof. vm_cast_no_check (eq_refl (Some (Ok (E:=unit) cells_found))). Qed.
Lemma requests_of_block : requests extras block = [extra].
Proof.
  change (requests extras block) with [extra_of extras request]. unfold extra_of, extras.
  by rewrite lookup_singleton_eq.
Qed.
Lemma extra_of_request : extra_of extras request = extra.
Proof. unfold extra_of, extras. by rewrite lookup_singleton_eq. Qed.
Lemma submission_conserves_assets_witness :
  generate ctx cells_found block extras ≠ Panic
  ∧ ∀ gw, generate ctx cells_found block extras = Ok (Some gw) →
      Forall (λ cell, ∃ a, finalized_custodian_args final_at cell = Ok (Some a)) (gen_inputs gw).*2
      ∧ total_capacity (gen_outputs gw) = total_capacity (cell_value <$> (gen_inputs gw).*2)
      ∧ ∀ x, x ≠ CKB_SUDT_SCRIPT_ARGS →
          total_amount x (gen_outputs gw) = total_amount x (cell_value <$> (gen_inputs gw).*2).
Proof.
  apply (submission_conserves_assets ctx no_local_cells final_at no_tokens 5 known_asset [] cells_found block extras (BlockNumber 4)).
  - exact no_local_cells_ok.
  - reflexivity.
  - intros s n seen. split; [done|]. intros r [= <-]. constructor.
  - exact cells_gathered.
  - exact cells_found_spendable.
  - reflexivity.
  - rewrite requests_of_block. exact request_in_range.
Defined.

Lemma full_query_pays_withdrawals_witness :
  ∃ gw cells rest, generate ctx cells_found block extras = Ok (Some gw)
    ∧ gen_outputs gw = cells ++ rest ∧ length cells = 1%nat ∧ Forall cell_fits rest.
Proof.
  apply (full_query_pays_withdrawals ctx no_local_cells final_at 5 known_asset 138 cells_found block extras (BlockNumber 4)).
  - exact no_local_cells_ok.
  - reflexivity.
  - exact custodians_found.
  - exact cells_found_spendable.
  - intros x [a Hx]. change (wa_sudt _) with ({[ token_hash := 20 ]} : gmap H256 Z) in Hx.
    apply lookup_singleton_Some in Hx as [<- _].
    exists token_script. split; [unfold known_asset; by rewrite bool_decide_true|by eexists].
  - intros x b s Hx. cbn [cells_found cl_sudt] in Hx. apply lookup_singleton_Some in Hx as [<- [= <- <-]].
    unfold known_asset. by rewrite bool_decide_true.
  - vm_compute. reflexivity.
  - lia.
  - vm_compute. reflexivity.
  - intros x. cbn [block block_withdrawals sum_over]. unfold asks. case_bool_decide; vm_compute; reflexivity.
  - reflexivity.
  - intros w ->%list_elem_of_singleton. by rewrite extra_of_request.
  - intros w ->%list_elem_of_singleton. vm_compute. discriminate.
  - rewrite requests_of_block. exact request_in_range.
  - rewrite requests_of_block. constructor; [|constructor]. unfold buildable.
    cbn [collected_available fc_sudt cells_found cl_sudt]. rewrite lookup_singleton_eq. eexists. vm_compute. reflexivity.
  - discriminate.
Defined.
End Pooling.
