(* ===== verification/UnlockWitnesses.v ===== *)
(** * Witnesses for paying out withdrawals and for fees

    The theorems of [TxSkeleton.v] and [Unlock.v] on a node that finds two finalized
    withdrawal cells, one final by block number and one by time, and whose wallet
    has one cell to pay the fee with. *)
From Stdlib Require Import ZArith Lia Strings.Byte.
From stdpp Require Import prelude list gmap.
From S2P Require Import Prelude Bytes Types State StateSpec StateDB History Finality Ckb Eip712 SubmitBlock RollupScript Locks ChallengeLock Samples.
From S2P Require Import NodeUtils NodeState AccountLocks Backends Syscalls Generator FeeQueue Verifiers Store LocalCells ChallengeContext Chain ChainUpdater SyncL1 WithdrawalCells SubmitCells TxSkeleton Unlock NodeSamples.
Local Open Scope Z_scope.

Module Unlocking.
Import SampleHash SampleCodec NodeCodec SampleNode.

(** ** Encodings *)
Definition opt_bytes (o : option bytes) : bytes := match o with Some b => x01 :: b | None => [] end.
#[local] Instance sized_tx : TxCodec := {|
  enc_Transaction tx :=
    zeros (60 + 44 * length (l1_inputs tx) + 90 * length (l1_outputs tx)
           + sum_list (length <$> l1_outputs_data tx) + sum_list (length <$> l1_witnesses tx) + length (l1_rest tx));
  enc_CellDeps deps :=
    pack ((λ d, pack [op_tx_hash (cd_out_point d); z_bytes (op_index (cd_out_point d)); z_bytes (cd_dep_type d)]) <$> deps);
  enc_WitnessArgs w := pack [opt_bytes (wa_lock w); opt_bytes (wa_input_type w); opt_bytes (wa_output_type w)];
  enc_OmniLockWitnessLock s := s;
|}.
Lemma escape_length bs bs' rest rest' :
  length bs = length bs' → length rest = length rest' → length (escape bs rest) = length (escape bs' rest').
Proof.
  revert bs'. induction bs as [bs IH] using (induction_ltof1 _ length). intros bs' Hb Hr.
  destruct bs as [|a [|b [|c [|d bs]]]], bs' as [|a' [|b' [|c' [|d' bs']]]]; cbn in Hb; try lia; cbn; try lia.
  rewrite (IH bs ltac:(unfold ltof; cbn; lia) bs'); lia.
Qed.
#[local] Instance sized_tx_laws : TxCodecLaws.
Proof.
  split.
  - intros tx tx' [Hi Ho Hd Hw Hr]. cbn [enc_Transaction sized_tx]. unfold zeros. rewrite !length_replicate, Hi, Hd, Hr, (Forall2_length _ _ _ Ho).
    assert (Hl : length <$> l1_witnesses tx = length <$> l1_witnesses tx') by (by apply list_eq_Forall2, Forall2_fmap).
    by rewrite Hl.
  - intros [l i o] [l' i' o'] (Hl & Hi & Ho). cbn in Hl, Hi, Ho. subst. cbn [enc_WitnessArgs sized_tx wa_lock wa_input_type wa_output_type].
    unfold pack. cbn [foldr]. apply escape_length; [|done]. destruct l, l'; cbn in *; congruence.
  - done.
Qed.
#[local] Instance dummy_wallet : Wallet := λ _, Ok (zeros 65).
#[local] Instance dummy_wallet_laws : WalletLaws.
Proof. intros m. exists (zeros 65). by split. Qed.
#[local] Instance unlock_codec : UnlockCodec := λ w,
  match w with UnlockWithdrawalViaFinalize => [x00] | UnlockWithdrawalViaRevert x => x01 :: x end.
#[local] Instance nonce_codec : HashCodec := {|
  enc_RawWithdrawalRequest w := z_bytes (w_nonce w);
  enc_RawTransaction t := l1_rest t;
|}.
Definition state_bytes : bytes := [x71].
Definition config_bytes : bytes := [x72].
(** Six blocks, the time final up to 5000 ms *)
Definition global_state : GlobalState :=
  mkGlobalState (blake2b config_bytes) (mkAccountMerkleState (h x20) 3) (mkBlockMerkleState (h x21) 6)
    (h x22) (h x23) 9000 (2 ^ 63 + 5000) 0 2.
#[local] Instance unlock_molecule : Molecule := {|
  enc_Script := enc_script;
  enc_RawL2Block b := block_bytes b;
  enc_L2Transaction t := tx_signature t;
  enc_WithdrawalRequest w := w_signature w;
  dec_Script := dec_script;
  dec_GlobalState bs := if bool_decide (bs = state_bytes) then Some global_state else None;
  dec_GlobalStateV0 _ := None;
  dec_RollupConfig bs := if bool_decide (bs = config_bytes) then Some node_config else None;
  dec_WitnessArgs _ := None;
  dec_RollupAction _ := None;
  dec_DepositLockArgs _ := None;
  dec_CustodianLockArgs _ := None;
  dec_WithdrawalLockArgs := dec_lock_args;
  dec_StakeLockArgs _ := None;
  dec_ChallengeLockArgs _ := None;
  dec_UnlockWithdrawalWitness bs :=
    match bs with [x00] => Some UnlockWithdrawalViaFinalize | x01 :: x => Some (UnlockWithdrawalViaRevert x) | _ => None end;
  dec_UnlockCustodianViaRevertWitness _ := None;
|}.

(** ** Cells *)
Definition rollup_script : Script := mkScript (replicate 20 x11) 1 [x01; x02].
Definition rollup_hash : H256 := script_hash rollup_script.
Definition wallet_lock : Script := mkScript (h x12) 1 [x02].
Definition user_lock : Script := mkScript (replicate 20 x13) 1 [x03; x04].
Definition rollup_cell : CellInfo :=
  mkCellInfo (mkOutPoint (h x40) 0) (mkCellOutput 1000 wallet_lock (Some rollup_script)) state_bytes.
Definition withdrawal_lock (timepoint : Z) : Script :=
  mkScript (withdrawal_script_type_hash node_config) 1
    (rollup_hash ++ enc_WithdrawalLockArgs (mkWithdrawalLockArgs (h x33) timepoint (h x34) (script_hash user_lock))
     ++ be_bytes 4 (Z.of_nat (length (enc_Script user_lock))) ++ enc_Script user_lock).
Definition legacy_cell : CellInfo :=
  mkCellInfo (mkOutPoint (h x41) 0) (mkCellOutput 30000000000 (withdrawal_lock 3) None) [].
Definition timed_cell : CellInfo :=
  mkCellInfo (mkOutPoint (h x41) 1) (mkCellOutput 40000000000 (withdrawal_lock (2 ^ 63 + 4000)) None) [].
(** Not final yet *)
Definition early_cell : CellInfo :=
  mkCellInfo (mkOutPoint (h x41) 2) (mkCellOutput 50000000000 (withdrawal_lock 4) None) [].
Definition wallet_cell : CellInfo :=
  mkCellInfo (mkOutPoint (h x42) 0) (mkCellOutput 20000000000 wallet_lock None) [].
Definition all_cells : list CellInfo := [legacy_cell; timed_cell; early_cell; wallet_cell].
#[local] Program Instance l1_indexer : Indexer := {|
  get_cells key cursor :=
    match cursor with
    | None => Ok (filter (λ c, satisfy_search key c = true) all_cells, [x01])
    | Some _ => Ok ([], [])
    end;
  live_iter m := (map_to_list m).*2;
|}.
Next Obligation. done. Qed.
#[local] Instance l1_indexer_laws : IndexerLaws.
Proof.
  split.
  - intros key [cur|] cells next [= <- <-]; [done|]. apply Forall_forall.
    intros c [Hs Hin]%list_elem_of_filter. split; [done|]. unfold all_cells in Hin.
    rewrite !elem_of_cons in Hin. destruct Hin as [->|[->|[->|[->|Hin%elem_of_nil]]]]; [cbn; lia..|done].
  - by intros key [cur|].
Qed.
Definition config_dep : CellDep := mkCellDep (mkOutPoint (h x43) 0) 0.
Definition contracts : ContractsCellDep :=
  mkContractsCellDep config_dep (mkCellDep (mkOutPoint (h x43) 1) 0) (mkCellDep (mkOutPoint (h x43) 2) 0)
    (mkCellDep (mkOutPoint (h x43) 3) 0).
Definition sighash : CellDep := mkCellDep (mkOutPoint (h x44) 0) 1.
Definition resolve (d : CellDep) : CellOutput * bytes :=
  if bool_decide (cd_out_point d = cd_out_point config_dep) then (mkCellOutput 1 wallet_lock None, config_bytes)
  else if bool_decide (cd_out_point d = cell_out_point rollup_cell) then cell_value rollup_cell
  else (mkCellOutput 1 wallet_lock None, []).
Definition live (p : OutPoint) : option CellInfo := head (filter (λ c, cell_out_point c = p) all_cells).
Definition run : option (outcome unit (option (L1Transaction * list OutPoint))) :=
  query_and_unlock_to_owner node_config rollup_hash contracts sighash wallet_lock 1000 5 5 (Some rollup_cell) ∅.
Definition points : list OutPoint := [cell_out_point legacy_cell; cell_out_point timed_cell].
Definition unlock_tx : L1Transaction :=
  match run with Some (Ok (Some (tx, _))) => tx | _ => mkL1Transaction [] [] [] [] [] end.
Lemma run_result : run = Some (Ok (Some (unlock_tx, points))).
Proof. vm_cast_no_check (eq_refl (Some (Ok (E:=unit) (Some (unlock_tx, points))))). Qed.
Lemma indexer_reports_live : indexer_live live.
Proof.
  intros key [cur|] cells next [= <- <-]; [done|]. apply Forall_forall.
  intros c [_ Hin]%list_elem_of_filter. unfold all_cells in Hin.
  rewrite !elem_of_cons in Hin. destruct Hin as [->|[->|[->|[->|Hin%elem_of_nil]]]]; [reflexivity..|done].
Qed.
Lemma script_hash_inj : Inj (=) (=) script_hash.
Proof.
  intros s s' E%sample_hash_inj. apply (f_equal dec_script) in E.
  change (enc_Script s) with (enc_script s) in E. change (enc_Script s') with (enc_script s') in E.
  rewrite !dec_enc_script in E. by injection E.
Qed.
Lemma enc_CellDeps_inj : Inj (=) (=) enc_CellDeps.
Proof.
  intros l l' E. apply (inj pack) in E. revert l' E. induction l as [|d l IH]; intros [|d' l'] E; try discriminate E; [done|].
  rewrite !fmap_cons in E. pose proof (f_equal tail E) as El. apply (f_equal (default [] ∘ head)) in E.
  cbn [tail head compose default] in El, E. apply (inj pack) in E as Ed. f_equal; [|by apply IH].
  injection Ed as Eh Ei%(inj z_bytes) Ed%(inj z_bytes). by destruct d as [[? ?] ?], d' as [[? ?] ?]; cbn in *; subst.
Qed.
Lemma setting : unlock_setting resolve node_config rollup_hash contracts wallet_lock rollup_cell global_state.
Proof.
  split.
  - reflexivity.
  - reflexivity.
  - reflexivity.
  - done.
  - vm_compute. split; congruence.
  - vm_compute. split; congruence.
  - vm_compute. split; [split|]; congruence.
  - reflexivity.
  - eexists _, _. split; [reflexivity|]. split; [reflexivity|]. split; [reflexivity|]. by intros ?%sample_hash_inj.
  - discriminate.
  - by intros [|x].
  - exact enc_CellDeps_inj.
  - intros bs a Hd. cbn [dec_WithdrawalLockArgs unlock_molecule] in Hd. unfold dec_lock_args in Hd. case_match; [|done]. simplify_eq.
    cbn [wl_withdrawal_finalized_timepoint].
    pose proof (le_val_range (sub_bytes 32 8 bs)) as Hr. unfold sub_bytes in Hr |- *. rewrite length_take in Hr.
    split; [lia|]. eapply Z.lt_le_trans; [apply Hr|]. apply Z.pow_le_mono_r; lia.
Qed.

(** The transaction as the lock script of input [i] sees it *)
Definition as_cell (v : CellOutput * bytes) : SampleTx.Cell :=
  SampleTx.mkCell (co_capacity v.1) (co_lock v.1) (co_type v.1) v.2.
Definition spent : list CellInfo := [legacy_cell; timed_cell; wallet_cell].
Definition since : Z := since_new_timestamp_seconds 6.
Definition sinces : list Z := [since; since; 0].
Definition outputs : list (CellOutput * bytes) :=
  [relocked user_lock legacy_cell; relocked user_lock timed_cell; change_cell wallet_lock 19999999218].
Definition deps : list CellDep :=
  [mkCellDep (cell_out_point rollup_cell) DepType_Code; config_dep; dep_withdrawal_cell_lock contracts; sighash].
Definition env_at (lock : Script) : CkbEnv :=
  SampleTx.tx_env script_hash (λ d, blake2b d) {|
    SampleTx.tx_inputs := zip (as_cell <$> (cell_value <$> spent)) sinces;
    SampleTx.tx_outputs := as_cell <$> outputs;
    SampleTx.tx_deps := as_cell <$> (resolve <$> deps);
    SampleTx.tx_witness := unlock_via_finalize_witness; SampleTx.tx_witness_bytes := [];
    SampleTx.tx_script := lock |}.
Lemma unlock_tx_inputs : l1_inputs unlock_tx = zip_with mkCellInput sinces (cell_out_point <$> spent).
Proof. vm_compute. reflexivity. Qed.
Lemma unlock_tx_outputs : l1_outputs unlock_tx = outputs.*1.
Proof. vm_compute. reflexivity. Qed.
Lemma unlock_tx_data : l1_outputs_data unlock_tx = outputs.*2.
Proof. vm_compute. reflexivity. Qed.
Lemma unlock_tx_deps : l1_rest unlock_tx = enc_CellDeps deps.
Proof. vm_compute. reflexivity. Qed.
Lemma unlock_tx_witnesses : take 2 (l1_witnesses unlock_tx) = replicate 2 (enc_WitnessArgs unlock_via_finalize_witness).
Proof. vm_compute. reflexivity. Qed.

(** A transaction shows its cells. *)
Lemma tx_env_sees tx src l :
  SampleTx.cells tx src = as_cell <$> l → sees (SampleTx.tx_env script_hash (λ d, blake2b d) tx) src l.
Proof.
  intros Hc. split; [cbn; by rewrite Hc, length_fmap|..];
    intros i o d Hi; cbn; unfold SampleTx.field; by rewrite Hc, list_lookup_fmap, Hi.
Qed.
Lemma enc_WitnessArgs_inj : Inj (=) (=) enc_WitnessArgs.
Proof.
  intros [a b c] [a' b' c'] E. apply (inj pack) in E. cbn [wa_lock wa_input_type wa_output_type] in E.
  injection E as Ea Eb Ec. destruct a, b, c, a', b', c'; cbn in Ea, Eb, Ec; congruence.
Qed.
Lemma env_shows lock i :
  (i, lock) ∈ [(0%nat, co_lock (cell_output legacy_cell)); (1%nat, co_lock (cell_output timed_cell))] →
  shows resolve (env_at lock) unlock_tx spent deps i.
Proof.
  intros Hi. split.
  - by apply tx_env_sees.
  - rewrite unlock_tx_outputs, unlock_tx_data. by apply tx_env_sees.
  - by apply tx_env_sees.
  - intros [|[|[|j]]] c Hc; [injection Hc as <-; reflexivity..|done].
  - rewrite unlock_tx_outputs. intros [|[|[|j]]] c Hc; [injection Hc as <-; reflexivity..|done].
  - intros [|[|[|[|j]]]] c Hc; [injection Hc as <-; reflexivity..|done].
  - intros c Hc. rewrite !elem_of_cons in Hi. destruct Hi as [[= -> ->]|[[= -> ->]|Hi%elem_of_nil]]; [..|done]; by injection Hc as <-.
  - intros c Hc. rewrite !elem_of_cons in Hi. destruct Hi as [[= -> ->]|[[= -> ->]|Hi%elem_of_nil]]; [..|done]; injection Hc as <-;
      vm_compute; reflexivity.
  - rewrite unlock_tx_inputs. intros c Hc. rewrite !elem_of_cons in Hi.
    destruct Hi as [[= -> ->]|[[= -> ->]|Hi%elem_of_nil]]; [..|done]; injection Hc as <-; vm_compute; reflexivity.
  - intros w Hw. assert (Hi2 : (i < 2)%nat) by (clear Hw; rewrite !elem_of_cons in Hi; destruct Hi as [[= -> _]|[[= -> _]|Hi%elem_of_nil]]; [clear; lia..|done]).
    rewrite <- (lookup_take_lt _ 2) in Hw by exact Hi2. rewrite unlock_tx_witnesses, (lookup_replicate_2 _ _ _ Hi2) in Hw.
    apply (inj Some), enc_WitnessArgs_inj in Hw. by subst w.
Qed.
Lemma spent_apart : locks_apart spent.
Proof. intros c c' _ _ E. by apply script_hash_inj in E. Qed.
Lemma unlock_tx_accepted_witness :
  run = Some (Ok (Some (unlock_tx, points)))
  ∧ l1_outputs unlock_tx !! 0%nat = Some (mkCellOutput 30000000000 user_lock None)
  ∧ l1_outputs unlock_tx !! 1%nat = Some (mkCellOutput 40000000000 user_lock None)
  ∧ withdrawal_lock_main (env := env_at (co_lock (cell_output legacy_cell))) = Ok tt
  ∧ withdrawal_lock_main (env := env_at (co_lock (cell_output timed_cell))) = Ok tt.
Proof.
  destruct (unlock_tx_accepted resolve live node_config rollup_hash contracts sighash wallet_lock 1000 5 5 rollup_cell
    global_state ∅ unlock_tx points setting indexer_reports_live run_result) as (_ & _ & _ & Hout & Hacc).
  split; [exact run_result|].
  split; [destruct (Hout 0%nat _ eq_refl) as (c & [= <-] & -> & _); reflexivity|].
  split; [destruct (Hout 1%nat _ eq_refl) as (c & [= <-] & -> & _); reflexivity|].
  assert (Hsp : spends live unlock_tx spent) by (unfold spends; rewrite unlock_tx_inputs; repeat constructor).
  split.
  - apply (Hacc _ spent deps 0%nat Hsp unlock_tx_deps ltac:(cbn; lia)); [exact spent_apart|]. apply env_shows. left.
  - apply (Hacc _ spent deps 1%nat Hsp unlock_tx_deps ltac:(cbn; lia)); [exact spent_apart|]. apply env_shows. right. left.
Defined.
(** ** Paying the fee *)
Definition known_points : gset OutPoint := list_to_set (cell_out_point <$> all_cells).
Lemma wallet_offers : offers no_local_cells wallet_lock known_points.
Proof.
  intros cursor cells cursor' Hc. apply Forall_forall. intros c Hin.
  assert (Hoff : offered no_local_cells wallet_lock c) by (by eexists _, _, _).
  apply (offered_live live) in Hoff; [|exact indexer_reports_live]. unfold live in Hoff.
  apply head_Some_elem_of, list_elem_of_filter in Hoff as [_ Hc']. apply elem_of_list_to_set, list_elem_of_fmap. by exists c.
Qed.
(** The withdrawals of the transaction above before it is paid for *)
Definition unpaid : TransactionSkeleton :=
  mkSkeleton ((λ c, (mkCellInput since (cell_out_point c), c)) <$> [legacy_cell; timed_cell]) deps
    (replicate 2 unlock_via_finalize_witness) (take 2 outputs) None.
Lemma filled_tx_pays_fee_witness :
  ∃ sk' tx, fill_tx_fee_with_local no_local_cells wallet_lock 5 5 1000 unpaid = Some (Ok sk')
    ∧ length (sk_inputs sk') = 3%nat ∧ sign_tx_skeleton sk' = Ok tx
    ∧ ∃ i o, sum_capacities ((λ i, cell_output i.2) <$> sk_inputs sk') = Ok i ∧ sum_capacities (l1_outputs tx) = Ok o
        ∧ i = o + tx_size tx * 1000 / 1000.
Proof.
  destruct (filled_tx_pays_fee no_local_cells wallet_lock 1000 known_points 3 5 5 unpaid) as (r & Hrun & Hr).
  - lia.
  - exact wallet_offers.
  - vm_compute. reflexivity.
  - lia.
  - apply Nat.ltb_lt. vm_compute. reflexivity.
  - destruct r as [sk'| |]; [|vm_compute in Hrun; discriminate..].
    destruct (Hr sk' eq_refl) as (cells & change & tx & ws & i & o & _ & _ & _ & Hsign & _ & _ & Hi & Ho & Hio).
    exists sk', tx. split; [exact Hrun|]. split; [|split; [exact Hsign|]; exists i, o; split; [exact Hi|]; split; [exact Ho|exact Hio]].
    vm_compute in Hrun. injection Hrun as <-. reflexivity.
Defined.

(** ** What is on its way *)
Definition waiting : Unlocker := mkUnlocker {[ mkOutPoint (h x50) 0 ]} {[ h x51 := [mkOutPoint (h x50) 0] ]}.
Lemma waiting_tracks : tracks waiting.
Proof.
  split; cbn [waiting uk_unlocked_set uk_unlock_txs].
  - intros p. rewrite elem_of_singleton. split.
    + intros ->. exists (h x51), [mkOutPoint (h x50) 0]. split; [by rewrite lookup_singleton_eq|left].
    + intros (? & ? & [_ <-]%lookup_singleton_Some & ->%list_elem_of_singleton). done.
  - by intros x y ps ps' p [<- <-]%lookup_singleton_Some [<- _]%lookup_singleton_Some.
Qed.
(** The old transaction is gone; the new one is accepted. *)
Definition layer1 : Layer1 :=
  mkLayer1 (λ _, Ok tt) (λ _, Ok (h x52)) (λ x, Ok (if bool_decide (x = h x52) then Some Pending else Some Rejected)).
Lemma new_hash : uk_unlock_txs waiting !! h x52 = None.
Proof. cbn [waiting uk_unlock_txs]. by rewrite lookup_singleton_ne. Qed.
Lemma query_again :
  query_and_unlock_to_owner node_config rollup_hash contracts sighash wallet_lock 1000 5 5 (Some rollup_cell)
    (uk_unlocked_set waiting) = Some (Ok (Some (unlock_tx, points))).
Proof. vm_cast_no_check (eq_refl (Some (Ok (E:=unit) (Some (unlock_tx, points))))). Qed.
Lemma event_runs :
  ∃ u, handle_event node_config rollup_hash contracts sighash wallet_lock 1000 5 5 (Some rollup_cell) layer1 waiting
    = Some (Ok tt, u) ∧ uk_unlock_txs u !! h x51 = None ∧ uk_unlock_txs u !! h x52 = Some points.
Proof.
  eexists. split; [unfold handle_event; rewrite query_again; reflexivity|].
  destruct (check_unlock_txs_spec layer1 (add_unlock_tx (h x52) points waiting)) as [_ Hl].
  { apply add_unlock_tx_tracks; [exact waiting_tracks|exact new_hash|].
    intros p Hp Hin. cbn [waiting uk_unlocked_set] in Hin. apply elem_of_singleton in Hin as ->. unfold points in Hp.
    rewrite !elem_of_cons in Hp. destruct Hp as [Hp|[Hp|Hp%elem_of_nil]]; [discriminate Hp..|done]. }
  rewrite !Hl. split; [reflexivity|]. change (keep_waiting _) with true. apply lookup_insert_eq.
Qed.
Lemma unlocker_tracks_cells_witness :
  ∃ u, handle_event node_config rollup_hash contracts sighash wallet_lock 1000 5 5 (Some rollup_cell) layer1 waiting = Some (Ok tt, u)
    ∧ tracks u ∧ uk_unlock_txs u !! h x51 = None ∧ uk_unlock_txs u !! h x52 = Some points.
Proof.
  destruct event_runs as (u & Hrun & H1 & H2). exists u. split; [exact Hrun|]. split; [|split; [exact H1|exact H2]].
  refine (proj1 (unlocker_tracks_cells node_config rollup_hash contracts sighash wallet_lock 1000 5 5 (Some rollup_cell) layer1 waiting (Ok tt) u _ _ Hrun)).
  - exact waiting_tracks.
  - intros tx x [= <-]. exact new_hash.
Defined.
End Unlocking.
