(* ===== verification/PoolRunWitnesses.v ===== *)
(** * Witnesses for the memory pool

    The theorems of [PoolProps.v] and [PoolReorg.v] on a node whose chain has only its
    genesis block, in the state of [NodeSamples.v]: the pool is reset on that block, a
    transaction that succeeds is pushed and packaged, and pushed again and refused.  For a change of
    branch, a block of height one is replaced by two others, the first of which has one
    of its two transactions. *)
From Stdlib Require Import ZArith Lia Strings.Byte.
From stdpp Require Import prelude list gmap.
From S2P Require Import Prelude Bytes Types State StateSpec StateDB History Finality Ckb Eip712 SubmitBlock Samples.
From S2P Require Import NodeUtils NodeState AccountLocks Backends Syscalls Generator GeneratorProps FeeQueue Verifiers Store LocalCells ChallengeContext Chain MemBlock WithdrawalCells TxSkeleton PoolParts Pool PoolProps PoolReorg NodeSamples.
Local Open Scope Z_scope.

Module PoolRun.
Import SampleHash SampleCodec SampleSmt NodeCodec ToyMachine SampleNode.

(** ** Parameters *)
#[local] Instance nonce_codec : HashCodec := {|
  enc_RawWithdrawalRequest w := z_bytes (w_nonce w);
  enc_RawTransaction t := l1_rest t;
|}.
#[local] Instance timepoint_codec : CustodianCodec := λ a, le_bytes 8 (cl_deposit_finalized_timepoint a).
#[local] Instance pool_keccak : Keccak256 := sample_blake2b.
#[local] Instance pool_abi : EthAbi := {| abi_uint x := be_bytes 32 x; abi_address a := zeros 12 ++ a |}.
#[local] Instance pool_wallet : Wallet := λ _, Ok (zeros 65).
#[local] Instance pool_creator_codec : CreatorCodec := λ _, [].
#[local] Program Instance pool_pending_iter : PendingIter := {| pending_iter m := map_to_list m |}.
Next Obligation. done. Qed.
#[local] Instance pool_provider : MemPoolProvider := {|
  estimate_next_blocktime := Some 5000;
  collect_deposit_cells _ := Some [];
|}.

(** ** A pool on a genesis block *)
Definition account : AccountMerkleState := mkAccountMerkleState (smt_root (rs_kv state)) (rs_count state).
Definition raw_block (n : Z) (parent : H256) (time : Z) : RawL2Block :=
  mkRawL2Block n (reg_addr_bytes producer_address) parent h256_zero time account account []
    (mkSubmitWithdrawals h256_zero 0) (mkSubmitTransactions h256_zero 0 h256_zero).
Definition genesis : L2Block := mkL2Block (raw_block 0 h256_zero 1000) [] [] [] [] [].
Definition global : GlobalState :=
  mkGlobalState [] account (mkBlockMerkleState h256_zero 1) h256_zero (block_hash genesis) 0 0 0 2.
Definition columns (blocks : list L2Block) : gmap (Z * bytes) Entity :=
  list_to_map
    ([((COLUMN_META, META_TIP_BLOCK_HASH_KEY), EBytes (block_hash genesis));
      ((COLUMN_META, META_LAST_VALID_TIP_BLOCK_HASH_KEY), EBytes (block_hash genesis));
      ((COLUMN_BLOCK_GLOBAL_STATE, block_hash genesis), EGlobalState global)]
     ++ ((λ b, ((COLUMN_BLOCK, block_hash b), EBlock b)) <$> blocks)).
Definition store (blocks : list L2Block) : StoreDb :=
  mkStoreDb (columns blocks) ∅ ∅ (rs_kv state)
    (mkHistoryDb ∅ ∅ (list_to_map ((λ s, (script_hash s, s)) <$> scripts)) ∅).
(** The program counts the transactions of account 3, and so does its nonce. *)
Definition count_nonce : bytes := x00 :: build_account_field_key 3 GW_ACCOUNT_NONCE_TYPE ++ le_bytes 32 1.
Definition timeouts : DepositTimeoutConfig := mkDepositTimeoutConfig 1 1 1.
Definition env : PoolEnv :=
  mkPoolEnv (generator count_nonce) (mkMemBlockConfig 10 10 (10 ^ 9) default_syscall_cycles timeouts) None None
    (mkSudtProxyAllowlist [] []).
Definition idle : Pool :=
  mkPool (store [genesis]) db None (block_hash genesis, 0, global) ∅ (with_block_producer producer_address)
    [] [] None (CyclesPool_new 0 default_syscall_cycles).
Abbreviation reset_run := (reset_full (Mac:=Toy) env (Some (block_hash genesis)) (Some (block_hash genesis)) no_local_cells idle).
Definition fresh : Pool := reset_run.2.
Definition user_calls : list pool_call := [CallPushTx tx; CallPushTx tx].
Definition used : Pool := default fresh (run_pool_calls (Mac:=Toy) env user_calls fresh).
Lemma reset_runs : reset_run = (Ok tt, fresh).
Proof.
  assert (E : reset_run.1 = Ok tt) by (vm_compute; reflexivity).
  unfold fresh. destruct reset_run as [r p]. cbn in E |- *. by rewrite E.
Qed.
Lemma user_calls_run : run_pool_calls (Mac:=Toy) env user_calls fresh = Some used.
Proof.
  assert (Hsome : (if run_pool_calls (Mac:=Toy) env user_calls fresh is Some _ then true else false) = true) by (vm_compute; reflexivity).
  unfold used. by destruct (run_pool_calls _ _ _).
Qed.
Lemma genesis_tree : tree_at_tip (p_store idle).
Proof.
  intros b db' Hrun.
  assert (Hraw : match (get_last_valid_tip_block (E:=PoolError) (p_store idle)).1 with
                 | Ok b => bool_decide (am_merkle_root (post_account (block_raw b)) = am_merkle_root account) | _ => false end = true)
    by (vm_compute; reflexivity).
  rewrite Hrun in Hraw. symmetry. by apply bool_decide_eq_true in Hraw.
Qed.
Lemma pool_keeps_mem_block_witness :
  mb_txs (p_mem_block used) = [tx_hash tx] ∧
  ∃ tip, (get_block (E:=PoolError) (block_hash genesis) (p_store idle)).1 = Ok (Some tip)
    ∧ pool_ok env tip used
    ∧ calculate_merkle_state (p_state used) = (Ok (final_state (p_mem_block used)), p_state used).
Proof.
  split; [vm_compute; reflexivity|].
  apply (pool_keeps_mem_block (Mac:=Toy) env (Some (block_hash genesis)) (block_hash genesis)
    no_local_cells idle fresh used user_calls).
  - left. left. reflexivity.
  - exact genesis_tree.
  - exact reset_runs.
  - exact user_calls_run.
Defined.

(** ** A change of branch *)
Definition tx_of (nonce : Z) (arg : byte) : L2Transaction := mkL2Transaction (mkRawL2Transaction 1 3 0 nonce [arg]) [].
Definition block_on (parent : L2Block) (time : Z) (txs : list L2Transaction) : L2Block :=
  mkL2Block (raw_block (block_number parent + 1) (block_hash parent) time) [] [] txs [] [].
Definition left1 : L2Block := block_on genesis 2000 [tx_of 0 x01; tx_of 1 x02].
Definition right1 : L2Block := block_on genesis 2001 [tx_of 0 x01].
Definition right2 : L2Block := block_on right1 3000 [tx_of 1 x03].
Definition forked : StoreDb := store [genesis; left1; right1; right2].
Lemma parent_run (db : StoreDb) b p : (parent_block b db).1 = Ok p → parent_block b db = (Ok p, db).
Proof.
  unfold parent_block, st_unwrap, get_block, get_as, mbind, ST_bind, mret, ST_ret, lift, unwrap.
  by repeat case_match; cbn; simplify_eq/=; intros; simplify_eq.
Qed.
(** On the new branch the account has sent two transactions. *)
Definition moved : RefState := (set_nonce 3 2 state).2.
Definition moved_world : PoolWorld :=
  mkPoolWorld idle forked
    (mkStateDB (mkMemStateTree (rs_kv moved) (rs_count moved) (mst_scripts mem) ∅) [] 0 [] no_dirty None []).
Lemma moved_rel : db_rel (pw_state moved_world) moved.
Proof. done. Qed.
End PoolRun.
